(* ===== verification/_CoqProject ===== *)
-Q . S2P
Prelude.v
Regex.v
Lib.v
PasswordPolicy.v
Mail.v
Browser.v
Types.v
ApiClient.v
RefreshRace.v
RequestRefines.v
ServiceWorker.v
AuthStore.v
OrgStore.v
React.v
InboxSocket.v
Hooks.v
Notifications.v
Permissions.v
ApiKeys.v
RolesTab.v
Ttl.v
Home.v
InboxPage.v
SignIn.v
UsersTab.v
Domains.v
Teams.v
Webhooks.v
Json.v
AuditLog.v
SettingsGeneral.v
SsoTab.v
SetupWizard.v
Invitation.v
Onboarding.v
Profile.v
Shell.v
Analytics.v
Dashboard.v
Landing.v
NotificationSocket.v
HomeViews.v
InboxView.v
SsoViews.v
TeamsView.v
SettingsViews.v
PlatformUpdate.v
AdminUpdate.v
UsersView.v
ApiKeysView.v
PageFrame.v
SiteConfig.v
DomainServer.v
RoleServer.v
NetGuard.v
WebhookServer.v
ProfileServer.v
