(* ===== verification/Prelude.v ===== *)
(** * BurnerByte web client: a verification library

    BurnerByte is a service for disposable mailboxes: a server in Go
    ([internal/]) and a web client in TypeScript ([web/src/]).  This library
    models the client and proves what makes its parts correct; the server
    appears as a source of arbitrary responses, and as itself where a part of
    the client and a part of the server only make sense together: in
    [PasswordPolicy] as the reference of a check that the client repeats, in
    [SettingsGeneral], [AdminUpdate], [PlatformUpdate], [DomainServer], [RoleServer],
    [WebhookServer] and [ProfileServer] as the handlers that store what dialogs and cards send, in
    [NetGuard] as the guard of the connections that webhooks and the setup wizard ask for.

    ** The program and its model

    - [lib/api.ts] is the only way to the server: it holds the access token,
      adds it to requests, and on a 401 refreshes it once for all calls that
      wait.  [ApiClient] has every function of it in a state and error monad
      ([Browser.M]) whose state is the browser: storage, location, network and
      a trace of visible effects.  [RefreshRace] has the same [request] and
      [tryRefresh] as a step relation in which many calls interleave, and
      [RequestRefines] shows that the two readings agree on one call.
    - [public/sw.js] stands between the two and the network: [ServiceWorker]
      has its handlers over the Cache API as a step relation, and
      [through_worker] puts it below the API client.
    - [stores/auth-store.ts] and [stores/org-store.ts] keep the user, the
      organisation and its teams.  [AuthStore] has every action in the monad;
      [OrgStore] splits the actions at their awaits, so that the completion
      of any call in flight is a step.
    - [hooks/]: [InboxSocket] is the live connection of an inbox as a step
      relation over effect runs, ticket requests, sockets and timers; [Hooks]
      has the organisation bootstrap, debouncing, pull to refresh, the favicon
      badge, shortcuts, dates and roles.
    - [lib/]: [Lib] (redirects, relative time, documentation links, SSO
      forms), [PasswordPolicy], [Mail] (the sandboxed document of a mail and
      the detection of verification codes) on the matcher of [Regex].
    - pages: [Ttl], [Home] and [HomeViews] ([app/page.tsx]), [Notifications]
      and [NotificationSocket] ([components/notification-center.tsx]; the
      second has its connections as a step relation), [Permissions] and
      [ApiKeys] with [ApiKeysView]
      ([app/api-keys/page.tsx]), [RolesTab] and [RoleServer]
      ([components/settings/roles-tab.tsx]), [InboxPage] and
      [InboxView] ([app/inboxes/[id]/page.tsx] and [components/inbox/]), [SignIn]
      (login, registration, passwords, the session-limit dialog), [UsersTab], [UsersView] and [AdminUpdate]
      ([components/settings/unified-users-tab.tsx]), [Domains] and
      [DomainServer] ([app/domains/]), [Teams] and [TeamsView] ([app/teams/page.tsx]),
      [Webhooks], [WebhookServer] and [NetGuard] ([app/webhooks/page.tsx], deliveries),
      [AuditLog] (with [Json], the texts of JSON values and dates),
      [SettingsGeneral], [SettingsViews], [PlatformUpdate],
      [SsoTab] and [SsoViews] ([app/settings/page.tsx]), [SetupWizard]
      ([app/setup/page.tsx]), [Invitation], [Onboarding], [Profile] and [ProfileServer]
      ([app/invite/], [app/onboarding/], [app/profile/], [app/email/]),
      [Analytics] ([app/analytics/]), [Dashboard] ([app/dashboard/], with its
      socket), [Landing] ([components/landing/], [app/try/]).
    - [Shell] ([components/layout/], the command palette, the breadcrumbs) is
      what surrounds a page: layouts, routing guards and navigation;
      [PageFrame] has its remaining parts (sidebar, footer, error and empty
      states, progress bar, providers), [SiteConfig] the headers with the
      content security policy, robots, sitemap and the API catalog.
    - A page is the record of its
      [useState] cells; a handler is a program of the monad that also takes
      the state of the render it closes over; what is drawn is a value of a
      view type, without markup and styling.
    - [Types] has the interfaces of [types/index.ts].

    ** Interfaces

    The language is modelled (strings as UTF-16 code units, [Set] and [Map]
    in insertion order, the stable sort, decimal numerals, this file; JSON,
    HTTP, storage, [Browser]).  What belongs to an engine or a library is a
    class with the facts the code relies on: [JSRuntime] (case mapping, dates,
    URLs), [AppEnv] (build-time environment), [MutationRunner] and
    [OptimisticRunner] (React Query's mutations), [GoUnicode] (character
    classes of Go), [GoDuration] and [GoStrings] (durations and case mapping of
    Go), [GoURL], [GoURLParse] and [GoNet] (its reading of URLs, and name servers).  Each has an instance on
    which theorems are evaluated.

    ** What is proved

    - sessions: at most one refresh is in flight, no waiting call is lost,
      every interleaving ends; a call sends one to three requests; no token
      reaches storage; an expired session is cleared; login, logout and
      bootstrap end in the right state;
    - the two readings of a request: every sequential run is a run of one
      interleaved call with the same requests and answers;
    - the service worker: it answers only with what the server sent for that
      address or its fallbacks, on inbox addresses with the last stored answer, and a
      stored answer hides the end of a session from the client; the content
      security policy admits every address the client calls;
    - stores and hooks: teams always belong to the organisation shown; the
      socket hook always has exactly one activity and never gives up;
    - mail: a blocked document admits no remote source; the extracted code is
      the run of digits near a keyword whose length is nearest to six;
    - forms and lists: lifetimes (acceptance, printing, presets), creation
      guards, bulk reports, grouping as a partition, optimistic revocation
      with roll back, edits that send exactly what changed, roles that never
      mix scopes, invitations whose teams are distinct, addresses and lists of
      them, mails grouped by date, names of domains, new teams whose members
      and domains are distinct, an export that is complete and can be read
      back, differences that are exact, platform settings that are well typed;
    - saving in the background: an automatic save, while saves do not overlap,
      ends with what is shown on the server, up to the fields it does not take
      over, and overlapping removals end with the server's list;
    - live connections: of the notifications and of the dashboard exactly one
      ticket, socket or timer is under way, for the user or organisation
      shown; the demo inbox shows only mail of the inbox it names;
    - composition: the setup wizard refines a form without steps that keeps
      to the known password policy; an
      invitation is accepted at most once at a time; an account is deleted
      only when confirmed; the redirections of guards, bootstrap and
      onboarding together end; the command palette runs what it marks;
    - users and keys: a save of a user is stored by the server, up to the two
      fields it cannot clear, and the platform settings, when their numbers are
      whole, settle after one save and load; a role that was edited is stored as it was entered, up to texts
      that are both emptied; the two checks of a domain's name agree, and a name
      that passes is stored or refused with its reason shown; nobody can harm the own account; the secret of a
      key is shown to a user who waits for it; the picker of scopes reaches
      exactly the choices of known scopes;
    - webhooks: the secret of a webhook is written once, is the one it is
      signed with and is what the dialog shows; a delivery that fails is shown
      as failing exactly if its attempts are quick, and the count is exact while
      deliveries do not overlap; no connection of the
      guarded dialer goes to an internal address;
    - profile: a save of the preferences or of the name is stored and shown
      from then on, and saves that do not overlap are all kept;
    - figures: trends are bounded, signed and exact up to their cap, averages
      lie between the extremes, sizes name the right unit;
    - signing in: every choice in the session-limit dialog but one ends the
      conflict, and the one that does not is shown to lose the new token;
    - and theorems that exhibit a defect of the code: a leaked socket, stale
      permissions, a login error that is replaced, open redirects, a failed
      fetch taken for an empty list, deletions reported without looking, edits
      of another user that change one's own profile.

    ** Bounds and fuel

    [ApiClient.request] runs [request_fuel] with fuel two, and
    [request_fuel_enough] shows that more changes nothing: the retry flag
    stops the recursion.  [Regex.exec_all] takes the length of the text plus
    one, enough because every match of the patterns used consumes a character
    ([Mail.VerificationCode.exec_all_code_fuel]).  [dec] takes the number of
    bits of its argument.  All other recursion is structural.  Numbers are
    integers: the code computes with milliseconds, counts and minutes, far
    below 2^53; numbers that users enter in the platform settings can have a
    fraction or an exponent too ([Browser.decimal]).  [None] stands for NaN or Infinity where the code can meet it.
    Fractions ([Webhooks.frac]) are exact, where the code rounds to doubles.

    ** What is not modelled

    Markup, styling, animation and the drawing of charts; the UI primitives,
    which wrap a component library; class names and the messages of the
    translation files; the Go server, a program of its own in another language, but for the handlers
    named above.

    This file is the prelude: strings, collections, numerals, sorting, the
    tactics, the hint databases and the generic lemmas. *)

From stdpp Require Export base list gmap option numbers strings.
From Stdlib Require Export Ascii ZArith Lia Sorted.
From stdpp Require Export ssreflect.


(** ** Strings

    A JavaScript string is a sequence of 16-bit code units; [length], [slice],
    indexing and the regular expressions of the program all count code units.
    [js] embeds an ASCII literal of the source. *)

Abbreviation jstr := (list N).

Definition js (s : string) : jstr := N_of_ascii <$> String.list_ascii_of_string s.
Arguments js : simpl never.
Coercion js : string >-> list.

Declare Scope js_scope.
Delimit Scope js_scope with js.
Open Scope js_scope.

(** The double quote, which the literals below cannot contain. *)
Definition dq : jstr := [34%N].

(** [===] on strings. *)
Definition jeqb (a b : jstr) : bool := bool_decide (a = b).
Infix "=?s" := jeqb (at level 70, no associativity) : js_scope.

(** The empty string is falsy. *)
Definition truthy (s : jstr) : bool := match s with [] => false | _ => true end.
(** [a || b] on strings. *)
Definition jor (a b : jstr) : jstr := if truthy a then a else b.
(** A string that may be [undefined] or [null], where the program tests it
    for truth. *)
Definition otruthy (s : option jstr) : bool :=
  match s with Some t => truthy t | None => false end.

(** *** Character classes of the regular expressions *)

Definition in_range (lo hi c : N) : bool := (lo <=? c)%N && (c <=? hi)%N.
Definition is_digit : N → bool := in_range 48 57.
Definition is_upper : N → bool := in_range 65 90.
Definition is_lower : N → bool := in_range 97 122.
Definition is_alpha (c : N) : bool := is_upper c || is_lower c.
Definition is_alnum (c : N) : bool := is_alpha c || is_digit c.
Definition is_word (c : N) : bool := is_alnum c || (c =? 95)%N.
(** WhiteSpace and LineTerminator of the language: [\s], and what [trim] removes. *)
Definition is_space (c : N) : bool :=
  in_range 9 13 c || in_range 8192 8202 c ||
  bool_decide (c ∈ [32; 160; 5760; 8232; 8233; 8239; 8287; 12288; 65279]%N).
Definition ascii_lower (c : N) : N := if is_upper c then (c + 32)%N else c.

(** *** String methods *)

Fixpoint startsWith (s p : jstr) {struct p} : bool :=
  match p, s with
  | [], _ => true
  | a :: p', b :: s' => (a =? b)%N && startsWith s' p'
  | _ :: _, [] => false
  end.

Definition endsWith (s p : jstr) : bool := startsWith (rev s) (rev p).

Fixpoint includes (s sub : jstr) : bool :=
  startsWith s sub || match s with [] => false | _ :: s' => includes s' sub end.

(** [s.slice(a, b)] for [0 <= a]. *)
Definition slice (s : jstr) (a b : nat) : jstr := take (b - a) (drop a s).

Fixpoint drop_while {A} (p : A → bool) (l : list A) : list A :=
  match l with
  | [] => []
  | x :: t => if p x then drop_while p t else l
  end.

Definition trimStart (s : jstr) : jstr := drop_while is_space s.
Definition trim (s : jstr) : jstr := rev (drop_while is_space (rev (trimStart s))).

Fixpoint take_while {A} (p : A → bool) (l : list A) : list A :=
  match l with
  | [] => []
  | x :: t => if p x then x :: take_while p t else []
  end.

(** [s.split(c)] for a separator of one code unit. *)
Fixpoint split_on (c : N) (s : jstr) : list jstr :=
  match s with
  | [] => [[]]
  | x :: t =>
      if (x =? c)%N then [] :: split_on c t
      else match split_on c t with
           | w :: ws => (x :: w) :: ws
           | [] => [[x]]
           end
  end.

(** [l.join(sep)]. *)
Fixpoint join (sep : jstr) (l : list jstr) : jstr :=
  match l with
  | [] => []
  | [w] => w
  | w :: ws => w ++ sep ++ join sep ws
  end.

(** *** Decimal numerals *)

Fixpoint dec_go (fuel : nat) (n : N) (acc : jstr) : jstr :=
  match fuel with
  | O => acc
  | S f =>
      let acc' := (48 + n mod 10)%N :: acc in
      if (n <? 10)%N then acc' else dec_go f (n / 10) acc'
  end.
(** Decimal numeral of a natural number: [N.size_nat] counts its bits, which
    is at least its number of digits. *)
Definition dec (n : N) : jstr := dec_go (S (N.size_nat n)) n [].
(** [String(z)] and template interpolation of an integer. *)
Definition show (z : Z) : jstr :=
  if (z <? 0)%Z then "-" ++ dec (Z.to_N (- z)) else dec (Z.to_N z).
(** [parseInt] of a string of decimal digits. *)
Definition digits_value (s : jstr) : N :=
  fold_left (λ acc c, 10 * acc + (c - 48))%N s 0%N.

(** ** Collections

    [Set] and [Map] keep insertion order: a [Set] is a list without
    duplicates, a [Map] an association list with distinct keys. *)

Section ordered_set.
Context {A : Type} `{!EqDecision A}.
Implicit Types (s l : list A) (x y : A).

Definition set_has s x : bool := bool_decide (x ∈ s).
Definition set_add s x : list A := if set_has s x then s else s ++ [x].
Definition set_delete s x : list A := List.filter (λ y, bool_decide (y ≠ x)) s.
Definition set_toggle s x : list A := if set_has s x then set_delete s x else set_add s x.
Definition set_of (l : list A) : list A := fold_left set_add l [].
End ordered_set.

Section ordered_map.
Context {K V : Type} `{!EqDecision K}.

Fixpoint map_get (m : list (K * V)) (k : K) : option V :=
  match m with
  | [] => None
  | (k', v) :: t => if decide (k = k') then Some v else map_get t k
  end.

Fixpoint map_set (m : list (K * V)) (k : K) (v : V) : list (K * V) :=
  match m with
  | [] => [(k, v)]
  | (k', v') :: t => if decide (k = k') then (k', v) :: t else (k', v') :: map_set t k v
  end.
End ordered_map.

(** [l.reduce((a, x) => a + x, 0)] over integers. *)
Definition sumZ (l : list Z) : Z := fold_left Z.add l 0%Z.
(** [l.filter(p).length]. *)
Definition countb {A} (p : A → bool) (l : list A) : nat := length (List.filter p l).

(** [l.sort(cmp)], a stable sort: on a consistent comparator its result does
    not depend on the algorithm. *)
Section sort.
Context {A : Type} (cmp : A → A → Z).
Fixpoint sort_insert (x : A) (l : list A) : list A :=
  match l with
  | [] => [x]
  | y :: t => if (cmp x y <=? 0)%Z then x :: l else y :: sort_insert x t
  end.
Fixpoint sort_js (l : list A) : list A :=
  match l with [] => [] | x :: t => sort_insert x (sort_js t) end.
End sort.

(** ** Proof automation *)

Create HintDb bb.
Create Rewrite HintDb bb.

(** Splits every [if], [match] and conjunction the goal or a hypothesis is
    stuck on and closes what is arithmetic or contradictory. *)
Ltac split_ifs :=
  repeat first
    [ case_match
    | case_bool_decide
    | case_decide ].

Ltac bool_to_prop :=
  repeat match goal with
  | H : _ && _ = true |- _ => apply andb_true_iff in H; destruct H
  | H : _ || _ = false |- _ => apply orb_false_iff in H; destruct H
  | H : negb _ = true |- _ => apply negb_true_iff in H
  | H : negb _ = false |- _ => apply negb_false_iff in H
  | H : (_ <? _)%Z = true |- _ => apply Z.ltb_lt in H
  | H : (_ <? _)%Z = false |- _ => apply Z.ltb_ge in H
  | H : (_ <=? _)%Z = true |- _ => apply Z.leb_le in H
  | H : (_ <=? _)%Z = false |- _ => apply Z.leb_gt in H
  | H : (_ =? _)%Z = true |- _ => apply Z.eqb_eq in H
  | H : (_ =? _)%Z = false |- _ => apply Z.eqb_neq in H
  | H : (_ <? _)%N = true |- _ => apply N.ltb_lt in H
  | H : (_ <? _)%N = false |- _ => apply N.ltb_ge in H
  | H : (_ <=? _)%N = true |- _ => apply N.leb_le in H
  | H : (_ <=? _)%N = false |- _ => apply N.leb_gt in H
  | H : (_ =? _)%N = true |- _ => apply N.eqb_eq in H
  | H : (_ =? _)%N = false |- _ => apply N.eqb_neq in H
  | H : (_ <? _)%nat = true |- _ => apply Nat.ltb_lt in H
  | H : (_ <? _)%nat = false |- _ => apply Nat.ltb_ge in H
  | H : (_ <=? _)%nat = true |- _ => apply Nat.leb_le in H
  | H : (_ <=? _)%nat = false |- _ => apply Nat.leb_gt in H
  | H : (_ =? _)%nat = true |- _ => apply Nat.eqb_eq in H
  | H : (_ =? _)%nat = false |- _ => apply Nat.eqb_neq in H
  | H : bool_decide _ = true |- _ => apply bool_decide_eq_true in H
  | H : bool_decide _ = false |- _ => apply bool_decide_eq_false in H
  end.

(** ** Lemmas on strings *)

Lemma jeqb_eq (a b : jstr) : (a =?s b) = true ↔ a = b.
Proof. apply bool_decide_eq_true. Qed.
Lemma jeqb_neq (a b : jstr) : (a =?s b) = false ↔ a ≠ b.
Proof. apply bool_decide_eq_false. Qed.
Lemma jeqb_refl (a : jstr) : (a =?s a) = true.
Proof. by apply jeqb_eq. Qed.
#[export] Hint Rewrite jeqb_refl : bb.

Lemma truthy_nonempty (s : jstr) : truthy s = true ↔ s ≠ [].
Proof. by destruct s. Qed.

Lemma startsWith_app (s p : jstr) : startsWith s p = true ↔ ∃ t, s = p ++ t.
Proof.
  revert s; induction p as [|a p IH]; intros s; simpl; [by split; eauto|].
  destruct s as [|b s]; simpl; [by split; [|intros [t Ht]]|].
  rw andb_true_iff N.eqb_eq IH. naive_solver.
Qed.

Lemma startsWith_refl_app (p t : jstr) : startsWith (p ++ t) p = true.
Proof. apply startsWith_app; eauto. Qed.
#[export] Hint Rewrite startsWith_refl_app : bb.

Lemma includes_app (s sub : jstr) : includes s sub = true ↔ ∃ u v, s = u ++ sub ++ v.
Proof.
  induction s as [|c s IH]; cbn [includes]; rw orb_true_iff startsWith_app.
  - split.
    + intros [[t ->]|?]; [|done]. by exists [], t.
    + intros (u & v & H). left. destruct u; [by exists v|done].
  - rw IH. split.
    + intros [[t Ht]|(u & v & ->)]; [by exists [], t|by exists (c :: u), v].
    + intros ([|x u] & v & H); [left; by exists v|]. right. simplify_eq/=. by exists u, v.
Qed.

Lemma drop_while_suffix {A} (p : A → bool) (l : list A) :
  ∃ pre, l = pre ++ drop_while p l ∧ Forall (λ x, p x = true) pre.
Proof.
  induction l as [|x l [pre [E F]]]; simpl; [by exists []|].
  destruct (p x) eqn:Px; [|by exists []].
  exists (x :: pre); simpl; split; [by f_equal|by constructor].
Qed.

Lemma drop_while_head {A} (p : A → bool) (l : list A) x t :
  drop_while p l = x :: t → p x = false.
Proof. induction l as [|y l IH]; simpl; [done|]. destruct (p y) eqn:E; naive_solver. Qed.

Lemma drop_while_none {A} (p : A → bool) (l : list A) :
  (∀ x t, l = x :: t → p x = false) → drop_while p l = l.
Proof. destruct l as [|x l]; simpl; [done|]. intros H. by rw (H x l). Qed.

Lemma drop_while_idemp {A} (p : A → bool) (l : list A) :
  drop_while p (drop_while p l) = drop_while p l.
Proof. apply drop_while_none. intros x t H. by apply drop_while_head in H. Qed.

Lemma drop_while_nil {A} (p : A → bool) (l : list A) :
  drop_while p l = [] ↔ Forall (λ x, p x = true) l.
Proof.
  induction l as [|x l IH]; simpl; [by split|].
  rw Forall_cons. destruct (p x) eqn:E; [rw IH; tauto|naive_solver].
Qed.

(** [trim] leaves a string with no white space at either end alone. *)
Lemma trim_id (s : jstr) :
  (∀ c t, s = c :: t → is_space c = false) →
  (∀ c t, s = t ++ [c] → is_space c = false) →
  trim s = s.
Proof.
  intros Hl Hr. unfold trim, trimStart.
  rw (drop_while_none _ s) //.
  rw drop_while_none ?rev_involutive //.
  intros c t E. apply (Hr c (rev t)).
  by rw -(rev_involutive s) E.
Qed.

Lemma trim_nil (s : jstr) : trim s = [] ↔ Forall (λ c, is_space c = true) s.
Proof.
  unfold trim, trimStart. rw -(drop_while_nil is_space s). split; intros H.
  - apply (f_equal (@rev N)) in H. rw rev_involutive /= in H.
    apply drop_while_nil, Forall_rev in H. rw rev_involutive in H.
    destruct (drop_while is_space s) as [|c t] eqn:E; [done|].
    apply drop_while_head in E. apply Forall_cons in H as [H _]. congruence.
  - by rw H.
Qed.

Lemma trim_trim (s : jstr) : trim (trim s) = trim s.
Proof.
  apply trim_id.
  - intros c t E. destruct (drop_while_suffix is_space (rev (trimStart s))) as [u [Hu _]].
    assert (Hs : trimStart s = trim s ++ rev u).
    { unfold trim. rw -rev_app_distr -Hu rev_involutive //. }
    apply (drop_while_head is_space s c (t ++ rev u)). change (drop_while is_space s) with (trimStart s). by rw Hs E.
  - intros c t E. unfold trim in E. apply (f_equal (@rev N)) in E. rw rev_involutive rev_app_distr /= in E.
    by eapply drop_while_head.
Qed.

(** The trimmed string is a factor of the original. *)
Lemma trim_factor (s : jstr) : ∃ u v, s = u ++ trim s ++ v.
Proof.
  unfold trim, trimStart.
  destruct (drop_while_suffix is_space s) as [u [E _]].
  destruct (drop_while_suffix is_space (rev (drop_while is_space s))) as [v [E' _]].
  exists u, (rev v). rw {1}E. f_equal.
  rw -(rev_involutive (drop_while is_space s)) {1}E' rev_app_distr //.
  by rw rev_involutive.
Qed.

Lemma split_on_nonempty c (s : jstr) : split_on c s ≠ [].
Proof. induction s as [|x s IH]; simpl; [done|]. destruct (x =? c)%N; [done|]. by case_match. Qed.

(** Joining the pieces of a split with the separator restores the string. *)
Lemma join_split_on c (s : jstr) : join [c] (split_on c s) = s.
Proof.
  induction s as [|x s IH]; simpl; [done|].
  pose proof (split_on_nonempty c s) as Hn.
  destruct (N.eqb_spec x c) as [->|]; destruct (split_on c s) as [|w ws]; try done.
  - simpl in *. by rw IH.
  - rw -IH. by destruct ws.
Qed.

(** No piece holds the separator. *)
Lemma split_on_piece c (s : jstr) x : x ∈ split_on c s → c ∉ x.
Proof.
  revert x; induction s as [|y s IH]; simpl; intros x.
  { intros ->%list_elem_of_singleton. apply not_elem_of_nil. }
  destruct (N.eqb_spec y c) as [->|Hy].
  - intros [->|Hx]%elem_of_cons; [apply not_elem_of_nil|by apply IH].
  - pose proof (split_on_nonempty c s) as Hn. destruct (split_on c s) as [|w ws]; [done|].
    intros [->|Hx]%elem_of_cons; [|apply IH; by right].
    apply not_elem_of_cons. split; [done|]. apply IH. by left.
Qed.
Lemma split_on_app (w t : jstr) c : c ∉ w → split_on c (w ++ c :: t) = w :: split_on c t.
Proof.
  induction w as [|x w IH]; intros Hn; cbn [app split_on].
  { by rw N.eqb_refl. }
  destruct (N.eqb_spec x c) as [->|]; [set_solver|]. by rw IH; [|set_solver].
Qed.
Lemma split_on_none (w : jstr) c : c ∉ w → split_on c w = [w].
Proof.
  induction w as [|x w IH]; simpl; intros Hn; [done|].
  destruct (N.eqb_spec x c) as [->|]; [set_solver|]. by rw IH; [|set_solver].
Qed.

(** ** Lemmas on numerals *)

Lemma digits_value_app (a b : jstr) :
  digits_value (a ++ b) = fold_left (λ acc c, 10 * acc + (c - 48))%N b (digits_value a).
Proof. apply fold_left_app. Qed.

Lemma dec_go_spec fuel (n : N) acc :
  (n < 2 ^ N.of_nat fuel)%N →
  ∃ d, dec_go fuel n acc = d ++ acc ∧ digits_value d = n ∧
       Forall (λ c, is_digit c = true) d ∧ (fuel ≠ 0 → d ≠ []).
Proof.
  revert n acc; induction fuel as [|f IH]; intros n acc Hn.
  { exists []. rw N.pow_0_r in Hn. repeat split; [cbn; lia|constructor|done]. }
  assert (Hd : is_digit (48 + n mod 10) = true).
  { pose proof (N.mod_lt n 10 ltac:(done)). unfold is_digit, in_range.
    rw andb_true_iff !N.leb_le. split; [apply N.le_add_r|]. lia. }
  cbn [dec_go]. destruct (N.ltb_spec n 10) as [Hlt|Hge].
  - exists [(48 + n mod 10)%N]. repeat split; [|by constructor|done].
    clear Hn. unfold digits_value; cbn [fold_left]. rw (N.mod_small n 10 Hlt). lia.
  - destruct (IH (n / 10)%N ((48 + n mod 10)%N :: acc)) as (d & E & V & F & _).
    { rw Nat2N.inj_succ N.pow_succ_r' in Hn. apply N.Div0.div_lt_upper_bound. lia. }
    exists (d ++ [(48 + n mod 10)%N]). rw E -app_assoc. repeat split.
    + clear Hn. rw digits_value_app V. cbn [fold_left].
      pose proof (N.Div0.div_mod n 10) as Hdm. revert Hdm. generalize (n mod 10)%N; intros; lia.
    + by apply Forall_app_2; [|constructor].
    + by destruct d.
Qed.

Lemma dec_fuel (n : N) : (n < 2 ^ N.of_nat (S (N.size_nat n)))%N.
Proof.
  destruct n as [|p]; [done|]. change (N.size_nat (Npos p)) with (Pos.size_nat p).
  assert (H : (Npos p < 2 ^ N.of_nat (Pos.size_nat p))%N).
  { induction p as [p IH|p IH|]; [| |done];
      cbn [Pos.size_nat]; rw Nat2N.inj_succ N.pow_succ_r'; lia. }
  rw Nat2N.inj_succ N.pow_succ_r'. lia.
Qed.

(** Printing a number and reading its digits back gives the number. *)
Lemma digits_value_dec (n : N) : digits_value (dec n) = n.
Proof.
  destruct (dec_go_spec (S (N.size_nat n)) n [] (dec_fuel n)) as (d & E & V & _).
  unfold dec. by rw E app_nil_r V.
Qed.
Lemma dec_digits (n : N) : Forall (λ c, is_digit c = true) (dec n).
Proof.
  destruct (dec_go_spec (S (N.size_nat n)) n [] (dec_fuel n)) as (d & E & _ & F & _).
  unfold dec. by rw E app_nil_r.
Qed.
Lemma dec_nonempty (n : N) : dec n ≠ [].
Proof.
  destruct (dec_go_spec (S (N.size_nat n)) n [] (dec_fuel n)) as (d & E & _ & _ & H).
  unfold dec. rw E app_nil_r. auto.
Qed.
Lemma dec_inj (a b : N) : dec a = dec b → a = b.
Proof. intros H. by rw -(digits_value_dec a) -(digits_value_dec b) H. Qed.

(** ** Lemmas on ordered sets and maps *)

Section ordered_set_lemmas.
Context {A : Type} `{!EqDecision A}.
Implicit Types (s l : list A) (x y : A).

Lemma elem_of_List_filter (p : A → bool) s x : x ∈ List.filter p s ↔ x ∈ s ∧ p x = true.
Proof. rw !list_elem_of_In filter_In. done. Qed.

Lemma NoDup_List_filter (p : A → bool) s : NoDup s → NoDup (List.filter p s).
Proof.
  induction 1 as [|x l Hx _ IH]; simpl; [constructor|].
  case_match; [constructor; [|done]|done]. rw elem_of_List_filter. tauto.
Qed.

Lemma elem_of_set_add s x y : y ∈ set_add s x ↔ y ∈ s ∨ y = x.
Proof. unfold set_add, set_has. case_bool_decide; set_solver. Qed.
Lemma elem_of_set_delete s x y : y ∈ set_delete s x ↔ y ∈ s ∧ y ≠ x.
Proof. unfold set_delete. by rw elem_of_List_filter bool_decide_eq_true. Qed.
Lemma NoDup_set_add s x : NoDup s → NoDup (set_add s x).
Proof.
  intros H. unfold set_add, set_has. case_bool_decide; [done|].
  apply NoDup_app; repeat split; [done|set_solver|apply NoDup_singleton].
Qed.
Lemma NoDup_set_delete s x : NoDup s → NoDup (set_delete s x).
Proof. apply NoDup_List_filter. Qed.
Lemma NoDup_set_toggle s x : NoDup s → NoDup (set_toggle s x).
Proof. unfold set_toggle. case_match; auto using NoDup_set_add, NoDup_set_delete. Qed.

Lemma elem_of_set_toggle s x y :
  y ∈ set_toggle s x ↔ (y ∈ s ∧ y ≠ x) ∨ (y ∉ s ∧ y = x).
Proof.
  unfold set_toggle, set_has. case_bool_decide.
  - rw elem_of_set_delete. naive_solver.
  - rw elem_of_set_add. naive_solver.
Qed.

(** Toggling twice restores the members. *)
Lemma set_toggle_twice s x y : y ∈ set_toggle (set_toggle s x) x ↔ y ∈ s.
Proof. rw !elem_of_set_toggle. destruct (decide (y ∈ s)), (decide (y = x)); naive_solver. Qed.

Lemma fold_set_add_elem l s x : x ∈ fold_left set_add l s ↔ x ∈ s ∨ x ∈ l.
Proof.
  revert s; induction l as [|y l IH]; intros s; simpl; [set_solver|].
  rw IH elem_of_set_add. set_solver.
Qed.
Lemma fold_set_add_NoDup l s : NoDup s → NoDup (fold_left set_add l s).
Proof. revert s; induction l as [|y l IH]; intros s; simpl; auto using NoDup_set_add. Qed.
Lemma fold_set_delete_elem l s x : x ∈ fold_left set_delete l s ↔ x ∈ s ∧ x ∉ l.
Proof.
  revert s; induction l as [|y l IH]; intros s; simpl; [set_solver|].
  rw IH elem_of_set_delete. set_solver.
Qed.
Lemma fold_set_delete_NoDup l s : NoDup s → NoDup (fold_left set_delete l s).
Proof. revert s; induction l as [|y l IH]; intros s; simpl; auto using NoDup_set_delete. Qed.
Lemma elem_of_set_of l x : x ∈ set_of l ↔ x ∈ l.
Proof. unfold set_of. rw fold_set_add_elem. set_solver. Qed.
Lemma NoDup_set_of l : NoDup (set_of l).
Proof. apply fold_set_add_NoDup. constructor. Qed.
End ordered_set_lemmas.
#[export] Hint Resolve NoDup_set_add NoDup_set_delete NoDup_set_toggle NoDup_set_of
  fold_set_add_NoDup fold_set_delete_NoDup NoDup_List_filter : bb.

Section ordered_map_lemmas.
Context {K V : Type} `{!EqDecision K}.
Implicit Types (m : list (K * V)) (k : K).

Lemma map_get_set_eq m k v : map_get (map_set m k v) k = Some v.
Proof. induction m as [|[k' v'] m IH]; simpl; repeat (case_decide; simpl); naive_solver. Qed.
Lemma map_get_set_ne m k k' v : k ≠ k' → map_get (map_set m k v) k' = map_get m k'.
Proof.
  intros Hn. induction m as [|[k'' v''] m IH]; simpl; repeat (case_decide; simpl); naive_solver.
Qed.
Lemma map_set_keys m k v : (map_set m k v).*1 = set_add (m.*1) k.
Proof.
  unfold set_add, set_has. induction m as [|[k' v'] m IH]; simpl; [done|].
  destruct (decide (k = k')) as [->|Hne]; csimpl; [|rw IH];
    repeat case_bool_decide; try done; exfalso; set_solver.
Qed.
Lemma map_set_NoDup m k v : NoDup m.*1 → NoDup (map_set m k v).*1.
Proof. rw map_set_keys. apply NoDup_set_add. Qed.
Lemma map_get_elem m k v : NoDup m.*1 → map_get m k = Some v ↔ (k, v) ∈ m.
Proof.
  intros Hnd. induction m as [|[k' v'] m IH]; simpl in *; [set_solver|].
  apply NoDup_cons in Hnd as [Hx Hnd].
  destruct (decide (k = k')) as [->|Hne]; rw elem_of_cons.
  - split; [naive_solver|]. intros [?|Hin]; [naive_solver|].
    destruct Hx. apply list_elem_of_fmap. by exists (k', v).
  - rw IH //. naive_solver.
Qed.
End ordered_map_lemmas.
#[export] Hint Resolve map_set_NoDup : bb.

Lemma elem_of_List_filter_any {A} (p : A → bool) (l : list A) x : x ∈ List.filter p l ↔ x ∈ l ∧ p x = true.
Proof. rewrite !list_elem_of_In filter_In. done. Qed.
(** A key that is unique stays so when a list is filtered. *)
Lemma NoDup_fmap_filter {A B} (f : A → B) (p : A → bool) (l : list A) : NoDup (f <$> l) → NoDup (f <$> List.filter p l).
Proof.
  induction l as [|x l IH]; [done|]. rw fmap_cons NoDup_cons. intros [Hx Hl]. cbn. destruct (p x); [|by apply IH].
  rw fmap_cons NoDup_cons. split; [|by apply IH]. rw list_elem_of_fmap. intros (y & E & [Hy _]%elem_of_List_filter_any).
  apply Hx. rw list_elem_of_fmap. by exists y.
Qed.
#[export] Instance List_filter_proper {A} (p : A → bool) : Proper (Permutation ==> Permutation) (List.filter p).
Proof.
  induction 1 as [|x l k _ IH|x y l|l k m _ IH1 _ IH2]; simpl.
  - done.
  - destruct (p x); by rewrite IH.
  - destruct (p x), (p y); try done. apply Permutation_swap.
  - by etrans.
Qed.
(** A list not included in another has a member outside of it. *)
Lemma not_list_subseteq {A} `{!EqDecision A} (l k : list A) : ¬ l ⊆ k → ∃ x, x ∈ l ∧ x ∉ k.
Proof.
  intros Hn. destruct (List.filter (λ x, bool_decide (x ∉ k)) l) as [|x f] eqn:E.
  - destruct Hn. intros x Hx. apply dec_stable. intros Hk.
    assert (Hin : x ∈ List.filter (λ x, bool_decide (x ∉ k)) l).
    { apply elem_of_List_filter. by rewrite bool_decide_eq_true. }
    rewrite E in Hin. by apply elem_of_nil in Hin.
  - exists x. assert (Hin : x ∈ List.filter (λ x, bool_decide (x ∉ k)) l) by (rewrite E; by left).
    apply elem_of_List_filter in Hin as [? Hx]. by rewrite bool_decide_eq_true in Hx.
Qed.
Lemma List_filter_false {A} (p : A → bool) (l : list A) :
  (∀ x, x ∈ l → p x = false) → List.filter p l = [].
Proof.
  induction l as [|x l IH]; simpl; intros Hp; [done|].
  rewrite (Hp x); [|by left]. apply IH. intros y Hy. apply Hp. by right.
Qed.

Lemma List_filter_true {A} (p : A → bool) (l : list A) :
  (∀ x, x ∈ l → p x = true) → List.filter p l = l.
Proof.
  induction l as [|x l IH]; simpl; intros Hp; [done|].
  rewrite (Hp x); [|by left]. f_equal. apply IH. intros y Hy. apply Hp. by right.
Qed.
Lemma forallb_True_iff {A} (p : A → bool) (l : list A) : forallb p l = true ↔ Forall (λ x, p x = true) l.
Proof. rewrite forallb_forall Forall_forall. by setoid_rewrite list_elem_of_In. Qed.

Lemma StronglySorted_app_r {A} (R : relation A) (l k : list A) :
  StronglySorted R (l ++ k) → StronglySorted R k.
Proof. induction l as [|x l IH]; simpl; [done|]. intros [? _]%StronglySorted_inv. by apply IH. Qed.

Lemma StronglySorted_weaken {A} (R R' : relation A) (l : list A) :
  StronglySorted R l → (∀ a b, R a b → R' a b) → StronglySorted R' l.
Proof. intros Hs Hi. induction Hs as [|x l _ IH Hf]; constructor; [done|]. eapply Forall_impl; [exact Hf|]. apply Hi. Qed.

Lemma sort_insert_perm {A} cmp (x : A) l : sort_insert cmp x l ≡ₚ x :: l.
Proof.
  induction l as [|y l IH]; simpl; [done|]. case_match; [done|]. rewrite IH. apply Permutation_swap.
Qed.
Lemma sort_js_perm {A} cmp (l : list A) : sort_js cmp l ≡ₚ l.
Proof. induction l as [|x l IH]; simpl; [done|]. by rewrite sort_insert_perm IH. Qed.
(** A comparator by a key sorts, largest key first. *)
Lemma sort_js_sorted {A} (cmp : A → A → Z) (key : A → Z) (l : list A) :
  (∀ a b, a ∈ l → b ∈ l → cmp a b = (key b - key a)%Z) →
  StronglySorted (λ a b, (key b <= key a)%Z) (sort_js cmp l).
Proof.
  induction l as [|x l IH]; simpl; intros Hc; [constructor|].
  assert (Hs : StronglySorted (λ a b, (key b <= key a)%Z) (sort_js cmp l)).
  { apply IH. intros a b Ha Hb. apply Hc; by right. }
  assert (Hin : ∀ y, y ∈ sort_js cmp l → y ∈ l) by (intros y; by rewrite sort_js_perm).
  revert Hs Hin. generalize (sort_js cmp l) as k. clear IH.
  induction k as [|y k IH]; simpl; intros Hs Hin; [repeat constructor|].
  rewrite Hc; [|by left|right; apply Hin; by left].
  destruct (Z.leb_spec (key y - key x) 0) as [Hle|Hgt]; inversion Hs; subst.
  - constructor; [done|]. constructor; [lia|]. eapply Forall_impl; [done|]. simpl. lia.
  - constructor; [apply IH; [done|]; intros; apply Hin; by right|].
    rewrite sort_insert_perm. constructor; [lia|done].
Qed.

Lemma countb_le {A} (p : A → bool) (l : list A) : countb p l ≤ length l.
Proof. unfold countb. induction l as [|x l IH]; simpl; [done|]. case_match; simpl; lia. Qed.
Lemma forallb_countb {A} (p : A → bool) (l : list A) : forallb p l = true ↔ countb p l = length l.
Proof.
  unfold countb. induction l as [|x l IH]; cbn; [done|]. pose proof (List.filter_length_le p l) as Hle.
  destruct (p x); cbn; [rw IH; lia|]. split; [done|lia].
Qed.
Lemma countb_partition {A} (p : A → bool) (l : list A) :
  countb p l + countb (λ x, negb (p x)) l = length l.
Proof. unfold countb. induction l as [|x l IH]; simpl; [done|]. destruct (p x); simpl; lia. Qed.
Lemma countb_app {A} (p : A → bool) (l k : list A) : countb p (l ++ k) = countb p l + countb p k.
Proof. unfold countb. by rw List.filter_app length_app. Qed.
Lemma countb_insert {A} (p : A → bool) (l : list A) i x y :
  l !! i = Some y → countb p (<[i := x]> l) + Nat.b2n (p y) = countb p l + Nat.b2n (p x).
Proof.
  revert i; induction l as [|a l IH]; intros [|i]; simpl; [done..| |].
  - intros [= ->]. unfold countb. simpl. destruct (p x), (p y); simpl; lia.
  - intros Hi%IH. unfold countb in *. simpl. destruct (p a); simpl; lia.
Qed.
Lemma countb_snoc {A} (p : A → bool) (l : list A) x : countb p (l ++ [x]) = countb p l + Nat.b2n (p x).
Proof. rw countb_app. unfold countb at 2. simpl. by destruct (p x). Qed.
Lemma countb_pos {A} (p : A → bool) (l : list A) i x : l !! i = Some x → p x = true → 0 < countb p l.
Proof.
  intros Hi Hp. unfold countb. assert (Hin : x ∈ List.filter p l).
  { apply list_elem_of_In, filter_In. split; [|done]. apply list_elem_of_In. by eapply list_elem_of_lookup_2. }
  destruct (List.filter p l); [by apply elem_of_nil in Hin|simpl; lia].
Qed.
Lemma countb_zero {A} (p : A → bool) (l : list A) : countb p l = 0 ↔ ∀ i x, l !! i = Some x → p x = false.
Proof.
  split.
  - intros H i x Hi. destruct (p x) eqn:Hp; [|done]. pose proof (countb_pos p l i x Hi Hp). lia.
  - intros H. induction l as [|a l IH]; [done|]. unfold countb in *. simpl.
    rw (H 0 a eq_refl). apply IH. intros i x. apply (H (S i) x).
Qed.
Lemma countb_witness {A} (p : A → bool) (l : list A) : 0 < countb p l → ∃ i x, l !! i = Some x ∧ p x = true.
Proof.
  induction l as [|a l IH]; [unfold countb; simpl; lia|]. unfold countb in *. simpl.
  destruct (p a) eqn:Hp; [by exists 0, a|]. intros (i & x & ? & ?)%IH. by exists (S i), x.
Qed.

(** The entries with [p] are those that the variable points to. *)
Definition only {A} (p : A → bool) (l : list A) (v : option nat) : Prop := ∀ k x, l !! k = Some x → p x = true → v = Some k.
Lemma only_none {A} (p : A → bool) l v : countb p l = 0 → only p l v.
Proof. intros Hz k x Hk Hp. by rw (proj1 (countb_zero p l) Hz k x Hk) in Hp. Qed.
Lemma only_snoc {A} (p : A → bool) l x : countb p l = 0 → only p (l ++ [x]) (Some (length l)).
Proof.
  intros Hz k y Hk Hp. apply lookup_snoc_Some in Hk as [[? Hk]|[-> _]]; [|done].
  by rw (proj1 (countb_zero p l) Hz k y Hk) in Hp.
Qed.
Lemma only_insert {A} (p : A → bool) l v k x y : l !! k = Some x → (p y = true → p x = true) → only p l v → only p (<[k := y]> l) v.
Proof. intros Hk Hyx Ho j z [(<- & <- & _)|[_ Hz]]%list_lookup_insert_Some Hp; [by apply (Ho k x Hk), Hyx|by apply (Ho j z)]. Qed.

Lemma fold_left_add_acc (l : list Z) (a : Z) :
  fold_left Z.add l a = (a + fold_left Z.add l 0)%Z.
Proof. revert a; induction l as [|x l IH]; intros a; simpl; [lia|]. rw (IH (a + x)%Z) (IH x). lia. Qed.
Lemma sumZ_cons x l : sumZ (x :: l) = (x + sumZ l)%Z.
Proof. unfold sumZ; simpl. by rw fold_left_add_acc. Qed.
Lemma sumZ_app l k : sumZ (l ++ k) = (sumZ l + sumZ k)%Z.
Proof.
  induction l as [|x l IH]; [done|]. rw -app_comm_cons !sumZ_cons IH. lia.
Qed.

#[global] Arguments startsWith : simpl never.
#[global] Arguments endsWith : simpl never.
#[global] Arguments includes : simpl never.
#[global] Arguments trim : simpl never.
#[global] Arguments split_on : simpl never.
#[global] Arguments jeqb : simpl never.
#[global] Arguments dec : simpl never.
#[global] Arguments show : simpl never.
#[global] Arguments digits_value : simpl never.

(** ** Implementation-defined parts of the runtime

    Unicode case mapping, the parsing of date strings, locale-dependent
    formatting and the URL parser come with the JavaScript engine.  Components
    take them from this class, so that their theorems hold for every engine;
    the laws are the documented facts the components rely on. *)
Class JSRuntime := {
  toLowerCase : jstr → jstr;
  toUpperCase : jstr → jstr;
  (** [new Date(s).getTime()]; [None] is [NaN]. *)
  date_ms : jstr → option Z;
  toLocaleDateString : jstr → jstr;
  toLocaleString : jstr → jstr;
  (** [new URL(s).protocol]; [None] when the constructor throws. *)
  url_protocol : jstr → option jstr;
  toLowerCase_ascii s : Forall (λ c, (c < 128)%N) s → toLowerCase s = ascii_lower <$> s
}.

(** An engine that knows ASCII letters, no date formats and two URL schemes,
    on which the theorems can be evaluated. *)
Definition ascii_upper (c : N) : N := if is_lower c then (c - 32)%N else c.
#[refine] Definition AsciiRuntime : JSRuntime := {|
  toLowerCase s := ascii_lower <$> s;
  toUpperCase s := ascii_upper <$> s;
  date_ms s := if forallb is_digit s && truthy s then Some (Z.of_N (digits_value s)) else None;
  toLocaleDateString s := s;
  toLocaleString s := s;
  url_protocol s :=
    if startsWith s "https://" then Some (js "https:")
    else if startsWith s "http://" then Some (js "http:") else None
|}.
Proof. done. Defined.
