(* ===== verification/Regex.v ===== *)
(** * Regular expressions of the language

    The program's input handling is written with regular expression literals.
    This file gives the backtracking semantics of the constructs those
    literals use (greedy quantifiers, alternation in order, numbered groups,
    [^], [$] and [\b]) as an executable matcher, [mtch], and a declarative
    relation, [rmatch], of which the matcher is sound and complete
    ([mtch_sound], [mtch_complete]).  Components state their patterns as
    values of [re] and prove facts about them through the relation. *)

From S2P Require Import Prelude.

Inductive re : Type :=
| REps
| RCls (p : N → bool)
| RSeq (a b : re)
| RAlt (a b : re)
| RStar (a : re)
| RGroup (i : nat) (a : re)
| RBegin
| REnd
| RWordB.

(** The state of a match: the code unit before the current position, the
    input that is left, the groups captured so far (latest first). *)
Record mst := Mst { m_prev : option N; m_rest : jstr; m_caps : list (nat * jstr) }.

Definition cap (s : mst) (i : nat) : option jstr := map_get (m_caps s) i.
Definition consumed (s s' : mst) : jstr :=
  take (length (m_rest s) - length (m_rest s')) (m_rest s).
Definition set_cap (i : nat) (w : jstr) (s : mst) : mst :=
  Mst (m_prev s) (m_rest s) ((i, w) :: m_caps s).
Definition word_opt (c : option N) : bool := match c with Some x => is_word x | None => false end.
Definition at_boundary (s : mst) : bool :=
  xorb (word_opt (m_prev s)) (word_opt (head (m_rest s))).

Section matcher.
Context {A : Type}.

(** One more iteration of a starred expression must consume input, so the
    length of the remaining input bounds the number of iterations. *)
Fixpoint star_go (step : mst → (mst → option A) → option A) (n : nat)
    (s : mst) (k : mst → option A) : option A :=
  match n with
  | O => k s
  | S n' =>
      match step s (λ s', if (length (m_rest s') <? length (m_rest s))%nat
                          then star_go step n' s' k else None) with
      | Some x => Some x
      | None => k s
      end
  end.

Fixpoint mtch (r : re) (s : mst) (k : mst → option A) {struct r} : option A :=
  match r with
  | REps => k s
  | RCls p =>
      match m_rest s with
      | c :: t => if p c then k (Mst (Some c) t (m_caps s)) else None
      | [] => None
      end
  | RSeq a b => mtch a s (λ s', mtch b s' k)
  | RAlt a b => match mtch a s k with Some x => Some x | None => mtch b s k end
  | RStar a => star_go (mtch a) (length (m_rest s)) s k
  | RGroup i a => mtch a s (λ s', k (set_cap i (consumed s s') s'))
  | RBegin => match m_prev s with None => k s | Some _ => None end
  | REnd => match m_rest s with [] => k s | _ => None end
  | RWordB => if at_boundary s then k s else None
  end.
End matcher.

Inductive rmatch : re → mst → mst → Prop :=
| M_eps s : rmatch REps s s
| M_cls p c t s : m_rest s = c :: t → p c = true → rmatch (RCls p) s (Mst (Some c) t (m_caps s))
| M_seq a b s s1 s2 : rmatch a s s1 → rmatch b s1 s2 → rmatch (RSeq a b) s s2
| M_alt_l a b s s' : rmatch a s s' → rmatch (RAlt a b) s s'
| M_alt_r a b s s' : rmatch b s s' → rmatch (RAlt a b) s s'
| M_star_nil a s : rmatch (RStar a) s s
| M_star_cons a s s1 s2 :
    rmatch a s s1 → length (m_rest s1) < length (m_rest s) →
    rmatch (RStar a) s1 s2 → rmatch (RStar a) s s2
| M_group i a s s' : rmatch a s s' → rmatch (RGroup i a) s (set_cap i (consumed s s') s')
| M_begin s : m_prev s = None → rmatch RBegin s s
| M_end s : m_rest s = [] → rmatch REnd s s
| M_wordb s : at_boundary s = true → rmatch RWordB s s.
#[export] Hint Constructors rmatch : bb.

(** ** Derived forms *)

Fixpoint rseq (l : list re) : re :=
  match l with [] => REps | [r] => r | r :: t => RSeq r (rseq t) end.
Definition ralt (r : re) (l : list re) : re := fold_left RAlt l r.
Definition ropt (a : re) : re := RAlt a REps.
Definition rplus (a : re) : re := RSeq a (RStar a).
Fixpoint rtimes (n : nat) (a : re) : re := match n with O => REps | S n' => RSeq a (rtimes n' a) end.
Fixpoint rupto (n : nat) (a : re) : re :=
  match n with O => REps | S n' => ropt (RSeq a (rupto n' a)) end.
(** [a{lo,hi}]. *)
Definition rrep (lo hi : nat) (a : re) : re := RSeq (rtimes lo a) (rupto (hi - lo) a).
Definition rchar (c : N) : re := RCls (N.eqb c).
(** A literal, and a literal under the [i] flag: for a pattern of ASCII
    characters only ASCII letters fold. *)
Definition rlit (s : jstr) : re := rseq (rchar <$> s).
Definition rliti (s : jstr) : re := rseq ((λ x, RCls (λ c, ascii_lower c =? ascii_lower x)%N) <$> s).
Definition rdigit : re := RCls is_digit.
Definition rspace : re := RCls is_space.
Definition rone_of (s : jstr) : re := RCls (λ c, bool_decide (c ∈ s)).
Definition rnone_of (s : jstr) : re := RCls (λ c, negb (bool_decide (c ∈ s))).

(** ** Search *)

(** A successful [exec]: where it starts, and the states at its two ends. *)
Record rexec := Rexec { x_index : nat; x_start : mst; x_end : mst }.
Definition x_match (x : rexec) : jstr := consumed (x_start x) (x_end x).
Definition x_cap (x : rexec) (i : nat) : option jstr := cap (x_end x) i.

Fixpoint exec_from (r : re) (idx : nat) (prev : option N) (s : jstr) : option rexec :=
  match mtch r (Mst prev s []) Some with
  | Some e => Some (Rexec idx (Mst prev s []) e)
  | None => match s with [] => None | c :: t => exec_from r (S idx) (Some c) t end
  end.
(** [s.match(r)] and [r.exec(s)] of a pattern without the [g] flag. *)
Definition exec (r : re) (s : jstr) : option rexec := exec_from r 0 None s.
Definition test (r : re) (s : jstr) : bool := if exec r s then true else false.

(** Successive [exec] calls of a pattern with the [g] flag; every match of
    the program's global patterns consumes input, which bounds the number of
    calls by the length of the string. *)
Fixpoint exec_all_go (fuel : nat) (r : re) (idx : nat) (prev : option N) (s : jstr) : list rexec :=
  match fuel with
  | O => []
  | S f =>
      match exec_from r idx prev s with
      | None => []
      | Some x =>
          let w := m_rest (x_end x) in
          x :: exec_all_go f r (x_index x + length (x_match x)) (m_prev (x_end x)) w
      end
  end.
Definition exec_all (r : re) (s : jstr) : list rexec := exec_all_go (length s) r 0 None s.

(** [s.replace(r, "")] of a pattern without the [g] flag. *)
Definition remove_first (r : re) (s : jstr) : jstr :=
  match exec r s with
  | None => s
  | Some x => take (x_index x) s ++ m_rest (x_end x)
  end.

(** ** Soundness and completeness of the matcher *)

Section correctness.
Context {A : Type}.
Implicit Types (k : mst → option A) (s : mst).

Lemma star_go_sound (a : re) n s k x :
  (∀ s k x, mtch a s k = Some x → ∃ s', rmatch a s s' ∧ k s' = Some x) →
  star_go (mtch a) n s k = Some x → ∃ s', rmatch (RStar a) s s' ∧ k s' = Some x.
Proof.
  intros Ha. revert s; induction n as [|n IH]; intros s; simpl; [eauto with bb|].
  destruct (mtch a s _) as [y|] eqn:E; [|by eauto with bb].
  intros [= <-]. apply Ha in E as (s1 & Hm & E). case_match eqn:L; [|done].
  apply IH in E as (s2 & Hs & Hk). apply Nat.ltb_lt in L. eauto with bb.
Qed.

Lemma mtch_sound r s k x :
  mtch r s k = Some x → ∃ s', rmatch r s s' ∧ k s' = Some x.
Proof.
  revert s k x; induction r as [|p|a IHa b IHb|a IHa b IHb|a IHa|i a IHa| | |];
    intros s k x H; simpl in H.
  - eauto with bb.
  - destruct (m_rest s) eqn:E; [done|]. case_match; [|done]. eauto with bb.
  - apply IHa in H as (s1 & ? & H). apply IHb in H as (s2 & ? & ?). eauto with bb.
  - destruct (mtch a s k) eqn:E; [simplify_eq; apply IHa in E|apply IHb in H]; naive_solver eauto with bb.
  - eapply star_go_sound; eauto.
  - apply IHa in H as (s1 & ? & H). eauto with bb.
  - case_match eqn:E; [done|]. eauto with bb.
  - case_match eqn:E; [|done]. eauto with bb.
  - case_match eqn:E; [|done]. eauto with bb.
Qed.

Lemma star_go_complete (a : re) s s' k n :
  (∀ s s' k, rmatch a s s' → is_Some (k s') → is_Some (mtch a s k)) →
  rmatch (RStar a) s s' → is_Some (k s') → length (m_rest s) ≤ n →
  is_Some (star_go (mtch a) n s k).
Proof.
  intros Ha Hm Hk. remember (RStar a) as r eqn:Er. revert n.
  induction Hm as [| | | | |a' s|a' s s1 s2 H1 _ Hlt _ IH| | | |]; simplify_eq; intros n Hn.
  - destruct n as [|n]; simpl; [done|]. by case_match.
  - destruct n as [|n]; [lia|]. cbn [star_go].
    assert (Hs : is_Some (mtch a s (λ t, if (length (m_rest t) <? length (m_rest s))%nat
                                    then star_go (mtch a) n t k else None))).
    { eapply Ha; [done|]. simpl. rw (proj2 (Nat.ltb_lt _ _) Hlt).
      apply IH; [done|done|lia]. }
    destruct Hs as [y ->]. done.
Qed.

Lemma mtch_complete r s s' k :
  rmatch r s s' → is_Some (k s') → is_Some (mtch r s k).
Proof.
  revert s s' k; induction r as [|p|a IHa b IHb|a IHa b IHb|a IHa|i a IHa| | |];
    intros s s' k Hm Hk; simpl.
  5: { eapply star_go_complete; eauto. }
  all: inversion Hm; simplify_eq; simpl; auto.
  - by match goal with H : m_rest s = _, P : p _ = true |- _ => rw H P end.
  - eauto.
  - destruct (IHa s s' k) as [y ->]; eauto.
  - destruct (mtch a s k); eauto.
  - eapply IHa; eauto.
  - by match goal with H : m_prev _ = _ |- _ => rw H end.
  - by match goal with H : m_rest _ = _ |- _ => rw H end.
  - by match goal with H : at_boundary _ = _ |- _ => rw H end.
Qed.
End correctness.

(** The input left after a match is a suffix of the input before it. *)
Lemma rmatch_suffix r s s' : rmatch r s s' → ∃ w, m_rest s = w ++ m_rest s'.
Proof.
  induction 1 as [s|p c t s Ht ?|a b s s1 s2 _ [u Hu] _ [v Hv]|a b s s' _ IH|a b s s' _ IH
    |a s|a s s1 s2 _ [u Hu] _ _ [v Hv]|i a s s' _ IH|s ?|s ?|s ?];
    try done; try (by exists []).
  - by exists [c].
  - exists (u ++ v). by rw Hu Hv app_assoc.
  - exists (u ++ v). by rw Hu Hv app_assoc.
Qed.

Lemma consumed_spec s s' w : m_rest s = w ++ m_rest s' → consumed s s' = w.
Proof. intros E. unfold consumed. rw E length_app Nat.add_sub take_app_length //. Qed.

Lemma rmatch_consumed r s s' : rmatch r s s' → m_rest s = consumed s s' ++ m_rest s'.
Proof. intros [w E]%rmatch_suffix. by rw (consumed_spec s s' w). Qed.

(** A pattern matches somewhere in a string iff the relation has a match at
    some position. *)
Lemma exec_from_sound r idx prev s x :
  exec_from r idx prev s = Some x →
  ∃ u, s = u ++ m_rest (x_start x) ∧ x_index x = idx + length u ∧
       m_prev (x_start x) = from_option Some prev (last u) ∧ m_caps (x_start x) = [] ∧
       rmatch r (x_start x) (x_end x).
Proof.
  revert idx prev; induction s as [|c s IH]; intros idx prev; simpl;
    destruct (mtch r _ Some) as [e|] eqn:E; intros H; simplify_eq; simpl.
  - exists []; simpl. apply mtch_sound in E as (s' & ? & [= <-]). by rw Nat.add_0_r.
  - exists []; simpl. apply mtch_sound in E as (s' & ? & [= <-]). by rw Nat.add_0_r.
  - apply IH in H as (u & -> & -> & Hp & ? & ?). exists (c :: u); simpl.
    split_and!; auto. rw Hp last_cons. by destruct (last u).
Qed.

Lemma exec_from_complete r idx prev s u t e :
  s = u ++ t → rmatch r (Mst (from_option Some prev (last u)) t []) e →
  is_Some (exec_from r idx prev s).
Proof.
  revert idx prev s; induction u as [|c u IH]; intros idx prev s -> Hm; simpl in *.
  - destruct (mtch_complete r _ _ Some Hm) as [y Hy]; [eauto|].
    destruct t; simpl; by rw Hy.
  - case_match; [eauto|]. apply (IH (S idx) (Some c)); [done|].
    rw last_cons in Hm. by destruct (last u).
Qed.

Lemma test_iff r s :
  test r s = true ↔
  ∃ u t e, s = u ++ t ∧ rmatch r (Mst (last u) t []) e.
Proof.
  unfold test, exec. split.
  - case_match eqn:E; [|done]. intros _.
    apply exec_from_sound in E as (u & -> & _ & Hp & Hc & Hm).
    destruct r0 as [idx [p t c] e]; simpl in *; subst.
    exists u, t, e. split; [done|]. by destruct (last u).
  - intros (u & t & e & E & Hm).
    destruct (exec_from_complete r 0 None s u t e E) as [x ->]; [|done].
    by destruct (last u).
Qed.

(** ** Matches of the derived forms *)

Lemma rmatch_plus_cls p s s' :
  rmatch (RStar (RCls p)) s s' →
  Forall (λ c, p c = true) (consumed s s') ∧ m_caps s' = m_caps s.
Proof.
  intros Hm. remember (RStar (RCls p)) as r eqn:Er.
  induction Hm as [| | | | |a s|a s s1 s2 H1 _ Hlt H2 IH| | | |]; simplify_eq.
  - rw (consumed_spec s s []) //.
  - inversion H1 as [|q c t s0 Ht Hp| | | | | | | | |]; simplify_eq.
    destruct IH as [F ->]; [done|]. split; [|done].
    apply rmatch_consumed in H2; simpl in *.
    rw (consumed_spec s s2 (c :: consumed (Mst (Some c) t (m_caps s)) s2)).
    + by constructor.
    + by rw Ht {1}H2.
Qed.

Lemma rmatch_star_all p prev w t caps :
  Forall (λ c, p c = true) w →
  rmatch (RStar (RCls p)) (Mst prev (w ++ t) caps) (Mst (from_option Some prev (last w)) t caps).
Proof.
  intros Hw. revert prev. induction Hw as [|c w Hc Hw IH]; intros prev; simpl; [constructor|].
  eapply M_star_cons; [by eapply M_cls| simpl; lia|].
  specialize (IH (Some c)). rw last_cons. by destruct (last w).
Qed.

#[global] Arguments exec : simpl never.
#[global] Arguments test : simpl never.
#[global] Arguments exec_all : simpl never.

(** [s.replace(r, f)] of a pattern with the [g] flag; every match of the
    program's global patterns consumes input, so the length of the string
    bounds the number of replacements. *)
Fixpoint replace_all_go (fuel : nat) (r : re) (f : rexec → jstr) (prev : option N) (s : jstr) : jstr :=
  match fuel with
  | O => s
  | S n =>
      match exec_from r 0 prev s with
      | None => s
      | Some x => take (x_index x) s ++ f x
                  ++ replace_all_go n r f (m_prev (x_end x)) (m_rest (x_end x))
      end
  end.
Definition replace_all (r : re) (f : rexec → jstr) (s : jstr) : jstr :=
  replace_all_go (S (length s)) r f None s.
#[global] Arguments replace_all : simpl never.

(** A pattern of a single class tests for a character of the class. *)
Lemma test_cls p s : test (RCls p) s = existsb p s.
Proof.
  unfold test, exec. generalize 0 (@None N). induction s as [|c s IH]; intros i pr; [done|].
  simpl. destruct (p c); simpl; [done|]. apply IH.
Qed.

(** Where the rest of the pattern always succeeds, a starred class takes all
    it can. *)
Lemma mtch_star_cls_greedy {A} p s (k : mst → option A) :
  (∀ s', is_Some (k s')) →
  mtch (RStar (RCls p)) s k =
  k (Mst (from_option Some (m_prev s) (last (take_while p (m_rest s))))
         (drop_while p (m_rest s)) (m_caps s)).
Proof.
  intros Hk. simpl. destruct s as [prev rest caps]; simpl. revert prev.
  assert (∀ n prev, length rest ≤ n →
    star_go (mtch (RCls p)) n (Mst prev rest caps) k =
    k (Mst (from_option Some prev (last (take_while p rest))) (drop_while p rest) caps)) as H;
    [|intros; by apply H].
  induction rest as [|c t IH]; intros n prev Hn.
  - destruct n; simpl; [done|]. done.
  - destruct n as [|n]; simpl in *; [lia|]. destruct (p c) eqn:E.
    + simpl. rw (proj2 (Nat.ltb_lt (length t) (S (length t)))); [|lia].
      rw IH; [|lia]. rw last_cons /=. destruct (Hk (Mst (from_option Some (Some c) (last (take_while p t)))
        (drop_while p t) caps)) as [y Hy].
      destruct (last (take_while p t)); simpl in *; by rw Hy.
    + done.
Qed.

(** A pattern every match of which consumes input. *)
Definition consuming (r : re) : Prop :=
  ∀ s s', rmatch r s s' → length (m_rest s') < length (m_rest s).

Lemma rmatch_rest_le r s s' : rmatch r s s' → length (m_rest s') ≤ length (m_rest s).
Proof. intros [w ->]%rmatch_suffix. rw length_app. lia. Qed.

Lemma exec_from_rest r idx prev s x :
  consuming r → exec_from r idx prev s = Some x → length (m_rest (x_end x)) < length s.
Proof.
  intros Hr H. apply exec_from_sound in H as (u & -> & _ & _ & _ & Hm).
  apply Hr in Hm. rw length_app. lia.
Qed.

(** The fuel of [exec_all] never runs out before the search fails. *)
Lemma exec_all_go_fuel r f f' idx prev s :
  consuming r → length s ≤ f → length s ≤ f' →
  exec_all_go f r idx prev s = exec_all_go f' r idx prev s.
Proof.
  intros Hr. revert f' idx prev s.
  assert (Hz : ∀ idx prev s, length s ≤ 0 → exec_from r idx prev s = None).
  { intros idx prev s Hs. destruct (exec_from r idx prev s) eqn:E; [|done].
    apply exec_from_rest in E; [lia|done]. }
  induction f as [|f IH]; intros [|f'] idx prev s Hf Hf'; cbn [exec_all_go]; try done.
  - by rw Hz.
  - by rw Hz.
  - destruct (exec_from r idx prev s) eqn:E; [|done].
    apply exec_from_rest in E; [|done]. f_equal. apply IH; lia.
Qed.

(** Each result of [exec_all] is a match of the pattern at its position. *)
Lemma exec_all_go_sound r f idx prev s x :
  x ∈ exec_all_go f r idx prev s →
  ∃ u, s = u ++ m_rest (x_start x) ∧ x_index x = idx + length u ∧ m_caps (x_start x) = [] ∧
       rmatch r (x_start x) (x_end x).
Proof.
  revert idx prev s; induction f as [|f IH]; intros idx prev s; simpl; [set_solver|].
  destruct (exec_from r idx prev s) as [y|] eqn:E; [|set_solver].
  apply exec_from_sound in E as (u & -> & Hi & _ & Hc & Hm).
  intros [->|Hx]%elem_of_cons; [eauto|].
  apply IH in Hx as (v & Hv & Hix & ? & ?). exists (u ++ x_match y ++ v).
  pose proof (rmatch_consumed _ _ _ Hm) as Hcons. unfold x_match in *.
  split_and!; auto.
  - rw Hcons {1}Hv -!app_assoc //.
  - rw Hix Hi !length_app. lia.
Qed.

Lemma exec_all_sound r s x :
  x ∈ exec_all r s →
  ∃ u, s = u ++ m_rest (x_start x) ∧ x_index x = length u ∧ m_caps (x_start x) = [] ∧
       rmatch r (x_start x) (x_end x).
Proof. apply exec_all_go_sound. Qed.

(** A bounded repetition of a class captures between the two bounds. *)
Lemma rmatch_times_cls p n s s' :
  rmatch (rtimes n (RCls p)) s s' →
  length (consumed s s') = n ∧ Forall (λ c, p c = true) (consumed s s') ∧ m_caps s' = m_caps s.
Proof.
  revert s; induction n as [|n IH]; intros s Hm; inversion Hm; simplify_eq.
  - rw (consumed_spec s' s' []) //.
  - match goal with H : rmatch (RCls p) _ _ |- _ => inversion H as [|q c t s0 Ht Hp| | | | | | | | |] end.
    simplify_eq. match goal with H : rmatch (rtimes _ _) _ _ |- _ => rename H into H2 end.
    destruct (IH _ H2) as (L & F & C). apply rmatch_consumed in H2; simpl in *.
    rw (consumed_spec s s' (c :: consumed (Mst (Some c) t (m_caps s)) s')); [|by rw Ht {1}H2].
    simpl. split_and!; [by rw L|by constructor|done].
Qed.

Lemma rmatch_upto_cls p n s s' :
  rmatch (rupto n (RCls p)) s s' →
  length (consumed s s') ≤ n ∧ Forall (λ c, p c = true) (consumed s s') ∧ m_caps s' = m_caps s.
Proof.
  revert s; induction n as [|n IH]; intros s Hm; inversion Hm; simplify_eq.
  - rw (consumed_spec s' s' []) //.
  - match goal with H : rmatch (RSeq _ _) _ _ |- _ => inversion H; simplify_eq end.
    match goal with H : rmatch (RCls p) _ _ |- _ => inversion H as [|q c t s0 Ht Hp| | | | | | | | |] end.
    simplify_eq. match goal with H : rmatch (rupto _ _) _ _ |- _ => rename H into H2 end.
    destruct (IH _ H2) as (L & F & C). apply rmatch_consumed in H2; simpl in *.
    rw (consumed_spec s s' (c :: consumed (Mst (Some c) t (m_caps s)) s')); [|by rw Ht {1}H2].
    simpl. split_and!; [lia|by constructor|done].
  - match goal with H : rmatch REps _ _ |- _ => inversion H; simplify_eq end.
    rw (consumed_spec s' s' []) //. split_and!; [simpl; lia|constructor|done].
Qed.

Lemma consumed_trans s1 s2 s3 r r' :
  rmatch r s1 s2 → rmatch r' s2 s3 → consumed s1 s3 = consumed s1 s2 ++ consumed s2 s3.
Proof.
  intros H1%rmatch_consumed H2%rmatch_consumed. apply consumed_spec.
  by rw H1 {1}H2 app_assoc.
Qed.

Lemma rmatch_rep_cls p lo hi s s' :
  rmatch (rrep lo hi (RCls p)) s s' → lo ≤ hi →
  lo ≤ length (consumed s s') ≤ hi ∧ Forall (λ c, p c = true) (consumed s s') ∧
  m_caps s' = m_caps s.
Proof.
  intros Hm Hle. inversion Hm as [| |a b ? s1 ? H1 H2| | | | | | | |]; simplify_eq.
  rw (consumed_trans _ _ _ _ _ H1 H2) length_app.
  apply rmatch_times_cls in H1 as (-> & ? & ?). apply rmatch_upto_cls in H2 as (? & ? & ?).
  split_and!; [lia|lia|by apply Forall_app_2|congruence].
Qed.

(** Where the rest of the pattern fails in front of a character of the class,
    backtracking into a starred class is of no use. *)
Lemma mtch_star_cls_stop {A} p s (k : mst → option A) :
  (∀ prev c t caps, p c = true → k (Mst prev (c :: t) caps) = None) →
  mtch (RStar (RCls p)) s k =
  k (Mst (from_option Some (m_prev s) (last (take_while p (m_rest s))))
         (drop_while p (m_rest s)) (m_caps s)).
Proof.
  intros Hk. simpl. destruct s as [prev rest caps]; simpl. revert prev.
  assert (∀ n prev, length rest ≤ n →
    star_go (mtch (RCls p)) n (Mst prev rest caps) k =
    k (Mst (from_option Some prev (last (take_while p rest))) (drop_while p rest) caps)) as H;
    [|intros; by apply H].
  induction rest as [|c t IH]; intros n prev Hn; [by destruct n|].
  destruct n as [|n]; simpl in *; [lia|]. destruct (p c) eqn:E; [|done]. simpl.
  rw (proj2 (Nat.ltb_lt (length t) (S (length t)))); [|lia].
  rw IH; [|lia]. rw last_cons Hk //.
  destruct (last (take_while p t)); simpl; by case_match.
Qed.

(** *** A number followed by a unit: [(\d+)u] *)

Definition unit_re (u : N) : re := RSeq (RGroup 1 (rplus rdigit)) (rchar u).

(** The first maximal run of digits directly followed by [u]. *)
Fixpoint find_unit (u : N) (s : jstr) : option jstr :=
  match s with
  | [] => None
  | c :: t =>
      if is_digit c && bool_decide (head (drop_while is_digit t) = Some u)
      then Some (c :: take_while is_digit t) else find_unit u t
  end.

Lemma drop_take_while {X} (p : X → bool) (l : list X) : take_while p l ++ drop_while p l = l.
Proof. induction l as [|x l IH]; simpl; [done|]. destruct (p x); simpl; by rw ?IH. Qed.

Lemma mtch_unit_re u prev s :
  is_digit u = false →
  (λ e, cap e 1) <$> mtch (unit_re u) (Mst prev s []) Some =
  match s with
  | c :: t => if is_digit c && bool_decide (head (drop_while is_digit t) = Some u)
              then Some (Some (c :: take_while is_digit t)) else None
  | [] => None
  end.
Proof.
  intros Hu. unfold unit_re, rplus, rdigit. cbn [mtch m_rest]. destruct s as [|c t]; [done|].
  destruct (is_digit c) eqn:Hc; cbn [andb]; [|done]. change (star_go (mtch (RCls is_digit)) (length t))
    with (λ s (k : mst → option mst), star_go (mtch (RCls is_digit)) (length t) s k).
  pose proof (mtch_star_cls_stop is_digit (Mst (Some c) t [])
    (λ s', mtch (rchar u) (set_cap 1 (consumed (Mst prev (c :: t) []) s') s') Some)) as Hs.
  cbn [mtch m_rest m_caps m_prev] in Hs. rw Hs; clear Hs.
  - unfold set_cap; cbn. destruct (drop_while is_digit t) as [|x r] eqn:Ed; [done|].
    cbn [head]. destruct (N.eqb_spec u x) as [->|Hne].
    + rw bool_decide_eq_true_2 //=. unfold cap; simpl. do 2 f_equal.
      pose proof (drop_take_while is_digit t) as Ht. rw Ed in Ht.
      assert (length t - length r = S (length (take_while is_digit t))) as ->.
      { rw -[X in length X - _]Ht length_app /=. lia. }
      cbn. f_equal. by rw -[X in take _ X]Ht take_app_length.
    + rw bool_decide_eq_false_2 //. congruence.
  - intros p' c' t' caps' Hd. cbn. destruct (N.eqb_spec u c'); [congruence|done].
Qed.

(** Searching for the pattern finds what the reference function finds. *)
Lemma exec_unit_re u s : is_digit u = false → (λ x, x_cap x 1) <$> exec (unit_re u) s = Some <$> find_unit u s.
Proof.
  intros Hu. unfold exec.
  enough (H : ∀ i pr, (λ x, x_cap x 1) <$> exec_from (unit_re u) i pr s = Some <$> find_unit u s) by apply H.
  induction s as [|c t IH]; intros i pr; cbn [exec_from find_unit].
  - pose proof (mtch_unit_re u pr [] Hu) as H. by destruct (mtch _ _ _).
  - pose proof (mtch_unit_re u pr (c :: t) Hu) as H.
    destruct (mtch _ _ _) as [e|]; cbn in H |- *.
    + unfold x_cap; cbn. case_match; [|done]. by injection H as ->.
    + case_match; [done|]. apply IH.
Qed.
#[global] Arguments consumed : simpl never.

(** ** Words *)

Lemma rmatch_plus_word p s s' :
  rmatch (rplus (RCls p)) s s' →
  ∃ w, w ≠ [] ∧ Forall (λ c, p c = true) w ∧ m_rest s = w ++ m_rest s'.
Proof.
  intros Hm. inversion Hm as [| |a b s0 s1 s2 H1 H2| | | | | | | |]; simplify_eq.
  inversion H1 as [|q c t s0 Ht Hp| | | | | | | | |]; simplify_eq.
  pose proof (rmatch_consumed _ _ _ H2) as Hc. apply rmatch_plus_cls in H2 as [Hf _]. cbn in Hc.
  exists (c :: consumed (Mst (Some c) t (m_caps s)) s'). split_and!; [done|by constructor|]. by rw Ht {1}Hc.
Qed.
Lemma rmatch_word_plus p prev w t caps :
  w ≠ [] → Forall (λ c, p c = true) w → ∃ prev', rmatch (rplus (RCls p)) (Mst prev (w ++ t) caps) (Mst prev' t caps).
Proof.
  intros Hne Hf. destruct w as [|c w]; [done|]. apply Forall_cons in Hf as [Hc Hf].
  eexists. eapply M_seq; [by eapply M_cls|]. by apply rmatch_star_all.
Qed.
Lemma rmatch_seq_inv a b s s' : rmatch (RSeq a b) s s' → ∃ s1, rmatch a s s1 ∧ rmatch b s1 s'.
Proof. inversion 1; eauto. Qed.
Lemma rmatch_char_inv c s s' : rmatch (rchar c) s s' → m_rest s = c :: m_rest s'.
Proof. inversion 1 as [|q x t s0 Ht Hp| | | | | | | | |]; simplify_eq. apply N.eqb_eq in Hp as <-. done. Qed.

(** All characters a pattern can consume satisfy [p]. *)
Fixpoint classes_ok (p : N → Prop) (r : re) : Prop :=
  match r with
  | RCls q => ∀ c, q c = true → p c
  | RSeq a b | RAlt a b => classes_ok p a ∧ classes_ok p b
  | RStar a | RGroup _ a => classes_ok p a
  | _ => True
  end.
Lemma rmatch_classes p r s s' :
  rmatch r s s' → classes_ok p r → ∃ w, m_rest s = w ++ m_rest s' ∧ Forall p w.
Proof.
  induction 1 as [s|q c t s Ht Hq|a b s s1 s2 _ IH1 _ IH2|a b s s' _ IH|a b s s' _ IH|a s|a s s1 s2 _ IH1 _ _ IH2
    |i a s s' _ IH|s Hs|s Hs|s Hs]; cbn; intros Hc; try (by exists []).
  - exists [c]. split; [done|]. apply Forall_singleton. by apply Hc.
  - destruct Hc as [Ha Hb]. destruct (IH1 Ha) as (u & -> & Hu), (IH2 Hb) as (v & -> & Hv).
    exists (u ++ v). split; [by rw app_assoc|by apply Forall_app].
  - by apply IH, Hc.
  - by apply IH, Hc.
  - destruct (IH1 Hc) as (u & -> & Hu), (IH2 Hc) as (v & -> & Hv).
    exists (u ++ v). split; [by rw app_assoc|by apply Forall_app].
  - by apply IH.
Qed.

(** ** Alternatives, literals and the leftmost match *)

Lemma rmatch_ralt r l s e : rmatch (ralt r l) s e ↔ rmatch r s e ∨ Exists (λ x, rmatch x s e) l.
Proof.
  unfold ralt. revert r. induction l as [|y l IH]; intros r; cbn; [rw Exists_nil; tauto|]. rw IH Exists_cons. split.
  - intros [Hm|]; [inversion Hm; simplify_eq; auto|auto].
  - intros [|[|]]; auto with bb.
Qed.
Lemma rliti_cons x k : rliti (x :: k) = match k with [] => RCls (λ c, ascii_lower c =? ascii_lower x)%N
  | _ => RSeq (RCls (λ c, ascii_lower c =? ascii_lower x)%N) (rliti k) end.
Proof. by destruct k. Qed.
Lemma rmatch_liti_inv k s e : rmatch (rliti k) s e →
  ∃ v, m_rest s = v ++ m_rest e ∧ ascii_lower <$> v = ascii_lower <$> k ∧ m_prev e = from_option Some (m_prev s) (last v) ∧ m_caps e = m_caps s.
Proof.
  revert s. induction k as [|x k IH]; intros s Hm; [inversion Hm; by exists []|]. rw rliti_cons in Hm.
  assert (Hx : ∀ t, rmatch (RCls (λ c, ascii_lower c =? ascii_lower x)%N) s t →
    ∃ c, m_rest s = c :: m_rest t ∧ ascii_lower c = ascii_lower x ∧ m_prev t = Some c ∧ m_caps t = m_caps s).
  { intros t Ht. inversion Ht as [|q c r s0 Hr Hq| | | | | | | | |]; simplify_eq. exists c. by apply N.eqb_eq in Hq. }
  destruct k as [|y k].
  - destruct (Hx _ Hm) as (c & Hr & Hc & Hp & Hs). exists [c]. split_and!; [done|by cbn; rw Hc|done|done].
  - apply rmatch_seq_inv in Hm as (s1 & H1 & H2). destruct (Hx _ H1) as (c & Hr & Hc & Hp & Hs).
    destruct (IH _ H2) as (v & Hv & Hl & Hpv & Hcv). exists (c :: v). split_and!; [by rw Hr Hv|by cbn; rw Hc; f_equal| |congruence].
    rw Hpv Hp last_cons. by destruct (last v).
Qed.
Lemma rmatch_liti k v prev t caps : ascii_lower <$> v = ascii_lower <$> k →
  rmatch (rliti k) (Mst prev (v ++ t) caps) (Mst (from_option Some prev (last v)) t caps).
Proof.
  revert v prev. induction k as [|x k IH]; intros [|c v] prev Hv; try done; [constructor|]. injection Hv as Hc Hv. rw rliti_cons.
  assert (Hm : ∀ r, rmatch (RCls (λ c, ascii_lower c =? ascii_lower x)%N) (Mst prev (c :: r) caps) (Mst (Some c) r caps)).
  { intros r. by eapply (M_cls _ c r (Mst prev (c :: r) caps)); [|apply N.eqb_eq]. }
  destruct k as [|y k]; [destruct v; [apply Hm|done]|]. eapply M_seq; [apply Hm|]. specialize (IH v (Some c) Hv).
  rw last_cons. by destruct (last v).
Qed.
(** The search stops at the first position with a match. *)
Lemma exec_from_leftmost r idx prev s x u u' e :
  exec_from r idx prev s = Some x → s = u ++ u' → length u < x_index x - idx → ¬ rmatch r (Mst (from_option Some prev (last u)) u' []) e.
Proof.
  revert idx prev s. induction u as [|c u IH]; intros idx prev s Hx -> Hl Hm.
  - cbn in Hx, Hm. destruct (mtch_complete r _ _ Some Hm) as [y Hy]; [eauto|]. destruct u'; cbn in Hx; rw Hy in Hx; simplify_eq; cbn in Hl; lia.
  - cbn in Hx. destruct (mtch r _ Some); [simplify_eq; cbn in Hl; lia|]. apply (IH (S idx) (Some c) (u ++ u') Hx eq_refl); [cbn in Hl; lia|].
    rw last_cons in Hm. by destruct (last u).
Qed.
(** The character before the position is the last one that was consumed. *)
Lemma rmatch_prev r s e : rmatch r s e → ∃ w, m_rest s = w ++ m_rest e ∧ m_prev e = from_option Some (m_prev s) (last w).
Proof.
  assert (Ht : ∀ s1 s2 s3, (∃ w, m_rest s1 = w ++ m_rest s2 ∧ m_prev s2 = from_option Some (m_prev s1) (last w)) →
    (∃ w, m_rest s2 = w ++ m_rest s3 ∧ m_prev s3 = from_option Some (m_prev s2) (last w)) →
    ∃ w, m_rest s1 = w ++ m_rest s3 ∧ m_prev s3 = from_option Some (m_prev s1) (last w)).
  { intros s1 s2 s3 (u & Hu & Hpu) (v & Hv & Hpv). exists (u ++ v). split; [by rw Hu Hv app_assoc|]. rw Hpv Hpu last_app. by destruct (last v). }
  induction 1 as [s|p c t s Hc ?|a b s s1 s2 _ IH1 _ IH2|a b s s' _ IH|a b s s' _ IH|a s|a s s1 s2 _ IH1 _ _ IH2|i a s s' _ IH|s ?|s ?|s ?];
    try done; try (by exists []); try (by eapply Ht).
  by exists [c].
Qed.
Lemma rmatch_times_all p n w prev t caps : length w = n → Forall (λ c, p c = true) w →
  rmatch (rtimes n (RCls p)) (Mst prev (w ++ t) caps) (Mst (from_option Some prev (last w)) t caps).
Proof.
  intros <- Hw. revert prev. induction Hw as [|c w Hc _ IH]; intros prev; [constructor|].
  cbn [rtimes length]. eapply M_seq; [by eapply M_cls|]. specialize (IH (Some c)). rw last_cons. by destruct (last w).
Qed.
Lemma rmatch_upto_all p n w prev t caps : length w ≤ n → Forall (λ c, p c = true) w →
  rmatch (rupto n (RCls p)) (Mst prev (w ++ t) caps) (Mst (from_option Some prev (last w)) t caps).
Proof.
  intros Hn Hw. revert n prev Hn. induction Hw as [|c w Hc _ IH]; intros [|n] prev Hn; cbn in Hn; try lia; try apply M_eps; [apply M_alt_r, M_eps|].
  cbn [rupto]. apply M_alt_l. eapply M_seq; [by eapply M_cls|]. specialize (IH n (Some c) ltac:(lia)). rw last_cons. by destruct (last w).
Qed.
Lemma rmatch_rep_all p lo hi w prev t caps : lo ≤ length w ≤ hi → Forall (λ c, p c = true) w →
  rmatch (rrep lo hi (RCls p)) (Mst prev (w ++ t) caps) (Mst (from_option Some prev (last w)) t caps).
Proof.
  intros Hl Hw. rewrite -(take_drop lo w) in Hw |- *. apply Forall_app in Hw as [Ht Hd]. rw -app_assoc.
  eapply M_seq; [apply rmatch_times_all; [rw length_take; lia|done]|]. rw last_app.
  pose proof (rmatch_upto_all p (hi - lo) (drop lo w) (from_option Some prev (last (take lo w))) t caps) as Hu.
  rw length_drop in Hu. specialize (Hu ltac:(lia) Hd). by destruct (last (drop lo w)).
Qed.
