(* ===== verification/Lib.v ===== *)
(** * Pure helpers of the client: [web/src/lib]

    [SafeRedirect] models [safe-redirect.ts], [RelativeTime] models [time.ts],
    [DocsUrl] models [docs-url.ts], [Sso] models [sso.ts] and [PasswordPolicy]
    models [password-policy.ts] together with the server check it mirrors,
    [auth.ValidatePassword] of [internal/auth/password.go]. *)

From S2P Require Import Prelude Regex.

(** ** safe-redirect.ts *)
Module SafeRedirect.

Definition safeRedirect (url : option jstr) : jstr :=
  match url with
  | None => "/"
  | Some url =>
      if negb (truthy url) then "/"
      else if negb (startsWith url "/") || startsWith url "//" || includes url "://" then "/"
      else url
  end.

(** What a browser makes of a relative reference before it resolves it
    (URL Standard, basic URL parser): ASCII tab and newline are removed, and
    under a special base scheme a backslash counts as a slash.  A reference
    that then starts with two slashes names another host, one that starts
    with anything but a slash or that carries a scheme may leave the origin. *)
Definition url_normalise (s : jstr) : jstr :=
  (λ c, if (c =? 92)%N then 47%N else c) <$>
  List.filter (λ c, negb (bool_decide (c ∈ [9; 10; 13]%N))) s.
Definition same_origin_path (s : jstr) : bool :=
  startsWith (url_normalise s) "/" && negb (startsWith (url_normalise s) "//").

Lemma url_normalise_plain s :
  Forall (λ c, c ∉ [9; 10; 13; 92]%N) s → url_normalise s = s.
Proof.
  unfold url_normalise. induction 1 as [|c s Hc _ IH]; [done|].
  csimpl. case_bool_decide as Hb; [exfalso; set_solver|]. csimpl.
  rw IH. destruct (N.eqb_spec c 92) as [->|]; [set_solver|done].
Qed.

Lemma safeRedirect_cases url :
  safeRedirect url = "/" ∨
  ∃ u, url = Some u ∧ safeRedirect url = u ∧
       startsWith u "/" = true ∧ startsWith u "//" = false ∧ includes u "://" = false.
Proof.
  destruct url as [u|]; simpl; [|by left].
  destruct (truthy u); simpl; [|by left].
  destruct (startsWith u "/") eqn:?, (startsWith u "//") eqn:?, (includes u "://") eqn:?;
    simpl; try (by left). right. by exists u.
Qed.

(** The result is always an absolute path, whatever the parameter holds. *)
Lemma safeRedirect_absolute url :
  startsWith (safeRedirect url) "/" = true ∧ startsWith (safeRedirect url) "//" = false.
Proof. destruct (safeRedirect_cases url) as [->|(u & _ & -> & ? & ? & _)]; done. Qed.

(** C17: a redirect parameter without backslashes, tabs and newlines never
    leaves the origin. *)
Theorem safeRedirect_same_origin (url : option jstr) :
  (∀ u, url = Some u → Forall (λ c, c ∉ [9; 10; 13; 92]%N) u) →
  same_origin_path (safeRedirect url) = true.
Proof.
  intros Hplain. unfold same_origin_path.
  assert (url_normalise (safeRedirect url) = safeRedirect url) as ->.
  { destruct (safeRedirect_cases url) as [->|(u & -> & -> & _)]; [done|].
    apply url_normalise_plain; eauto. }
  destruct (safeRedirect_absolute url) as [-> ->]. done.
Qed.

Lemma safeRedirect_same_origin_witness :
  same_origin_path (safeRedirect (Some (js "/inboxes/1?tab=all"))) = true ∧
  safeRedirect (Some (js "//evil.test")) = js "/".
Proof.
  split; [|reflexivity]. apply safeRedirect_same_origin. intros u [= <-].
  apply (bool_decide_unpack _). vm_compute. exact I.
Defined.

(** A slash followed by a backslash, or by a tab and a slash, passes the
    check although a browser resolves it to another host. *)
Theorem safeRedirect_escapes :
  Forall (λ u, safeRedirect (Some u) = u ∧ same_origin_path (safeRedirect (Some u)) = false)
    [js "/\evil.test"; js "/" ++ [9%N] ++ "/evil.test"].
Proof. repeat constructor; vm_compute; done. Qed.

End SafeRedirect.

(** ** time.ts *)
Module RelativeTime.
Section time.
Context `{!JSRuntime}.
Local Open Scope Z_scope.

Definition MINUTE : Z := 60.
Definition HOUR : Z := 3600.
Definition DAY : Z := 86400.

Definition timeAgo (date : jstr) (now : Z) : jstr :=
  match date_ms date with
  | None => toLocaleDateString date (* NaN: every comparison is false *)
  | Some t =>
      let seconds := (now - t) / 1000 in
      if seconds <? 5 then "just now"
      else if seconds <? MINUTE then show seconds ++ "s ago"
      else if seconds <? HOUR then show (seconds / MINUTE) ++ "m ago"
      else if seconds <? DAY then show (seconds / HOUR) ++ "h ago"
      else if seconds <? DAY * 30 then show (seconds / DAY) ++ "d ago"
      else toLocaleDateString date
  end.

(** A relative label: [n] units of [unit] seconds, rounded down. *)
Definition relative_units : list (Z * Z * jstr) :=
  [(1, 60, js "s ago"); (MINUTE, 60, js "m ago"); (HOUR, 24, js "h ago"); (DAY, 30, js "d ago")].

(** Between five seconds and thirty days the label is a positive count of
    a unit, rounded down, and stays below the next unit. *)
Theorem timeAgo_unit (date : jstr) (t now : Z) :
  date_ms date = Some t →
  5 <= (now - t) / 1000 < DAY * 30 →
  ∃ unit bound suffix n,
    (unit, bound, suffix) ∈ relative_units ∧
    timeAgo date now = show n ++ suffix ∧
    1 <= n < bound ∧ n * unit <= (now - t) / 1000 < (n + 1) * unit.
Proof.
  intros Ht Hs. unfold timeAgo. rw Ht. set (s := (now - t) / 1000) in *.
  assert (Hdiv : ∀ u, 0 < u → u * (s / u) <= s < u * (s / u) + u).
  { intros u Hu. pose proof (Z.div_mod s u). pose proof (Z.mod_pos_bound s u). lia. }
  pose proof (Hdiv MINUTE ltac:(done)) as Hm. pose proof (Hdiv HOUR ltac:(done)) as Hh.
  pose proof (Hdiv DAY ltac:(done)) as Hd. unfold MINUTE, HOUR, DAY, relative_units in *.
  destruct (Z.ltb_spec s 5); [lia|].
  destruct (Z.ltb_spec s 60); [exists 1, 60, (js "s ago"), s; split_and!; [set_solver|done|lia..]|].
  destruct (Z.ltb_spec s 3600);
    [exists 60, 60, (js "m ago"), (s / 60); split_and!; [set_solver|done|lia..]|].
  destruct (Z.ltb_spec s 86400);
    [exists 3600, 24, (js "h ago"), (s / 3600); split_and!; [set_solver|done|lia..]|].
  destruct (Z.ltb_spec s (86400 * 30)); [|lia].
  exists 86400, 30, (js "d ago"), (s / 86400); split_and!; [set_solver|done|lia..].
Qed.

End time.
End RelativeTime.

(** ** docs-url.ts *)
Module DocsUrl.
Section docs.
(** [process.env.NEXT_PUBLIC_DOCS_URL], inlined at build time. *)
Context (NEXT_PUBLIC_DOCS_URL : option jstr).

Definition slash : re := rchar 47.
Definition trailing_slashes : re := RSeq (rplus slash) REnd.
Definition outer_slashes : re := RAlt (RSeq RBegin (rplus slash)) trailing_slashes.

Definition DOCS_URL : jstr :=
  remove_first trailing_slashes
    (jor (default [] NEXT_PUBLIC_DOCS_URL) "https://burnerbyte.com/docs").

Definition docsUrl (path : jstr) : jstr :=
  let clean := replace_all outer_slashes (λ _, []) path in
  if truthy clean then DOCS_URL ++ "/" ++ clean ++ "/" else DOCS_URL ++ "/".

End docs.

Example docsUrl_default :
  docsUrl None "/self-hosting/production/" = js "https://burnerbyte.com/docs/self-hosting/production/".
Proof. vm_compute. done. Qed.
Example docsUrl_mirror : docsUrl (Some (js "http://mirror/docs///")) "" = js "http://mirror/docs/".
Proof. vm_compute. done. Qed.
End DocsUrl.

(** ** sso.ts *)
Module Sso.
Section sso.
Context `{!JSRuntime}.

Record SSOProviderFormFields := {
  name : option jstr;
  client_id : option jstr;
  client_secret : option jstr;
  redirect_url : option jstr
}.

Definition isValidProviderUrl (value : jstr) : bool :=
  if negb (truthy value) then false
  else match url_protocol value with Some _ => true | None => false end.

(** [!field?.trim()]. *)
Definition blank (field : option jstr) : bool :=
  match field with Some v => negb (truthy (trim v)) | None => true end.

Definition validateSSOProviderForm (form : SSOProviderFormFields) : list (jstr * jstr) :=
  (if blank (name form) then [(js "name", js "Name is required")] else []) ++
  (if blank (client_id form) then [(js "client_id", js "Client ID is required")] else []) ++
  (if blank (client_secret form)
   then [(js "client_secret", js "Client Secret is required")] else []) ++
  (if blank (redirect_url form) then [(js "redirect_url", js "Redirect URL is required")]
   else if negb (isValidProviderUrl (default [] (redirect_url form)))
   then [(js "redirect_url", js "Invalid URL format")] else []).

Record SSOSummarySource := { enabled : bool; linked_user_count : option Z }.
Record SSOSummary := { enabledCount : nat; totalLinkedUsers : Z }.

Definition ssoSummaryStats (providers : list SSOSummarySource) : SSOSummary := {|
  enabledCount := length (List.filter enabled providers);
  totalLinkedUsers :=
    fold_left (λ sum p, sum + default 0 (linked_user_count p))%Z providers 0%Z
|}.

Lemma blank_spec f :
  blank f = false ↔ ∃ v, f = Some v ∧ ¬ Forall (λ c, is_space c = true) v.
Proof.
  destruct f as [v|]; simpl; [|naive_solver].
  rw negb_false_iff truthy_nonempty trim_nil. naive_solver.
Qed.

(** The form has no errors exactly when the three credentials and the
    redirect URL are present, not blank, and the URL parses. *)
Theorem validateSSOProviderForm_valid (form : SSOProviderFormFields) :
  validateSSOProviderForm form = [] ↔
  Forall (λ f, ∃ v, f = Some v ∧ ¬ Forall (λ c, is_space c = true) v)
    [name form; client_id form; client_secret form; redirect_url form] ∧
  ∃ u, redirect_url form = Some u ∧ is_Some (url_protocol u).
Proof.
  unfold validateSSOProviderForm. rw !Forall_cons Forall_nil -!blank_spec.
  destruct (blank (name form)), (blank (client_id form)), (blank (client_secret form)),
    (blank (redirect_url form)) eqn:Hr; simpl; try naive_solver.
  destruct (redirect_url form) as [u|]; simpl in *; [|done].
  unfold isValidProviderUrl. destruct u as [|c u]; [done|]; simpl.
  destruct (url_protocol (c :: u)) eqn:E; simpl; split; intros Hv; try done.
  - split_and!; try done. eexists; split; [done|]. by rw E.
  - destruct Hv as (_ & u' & [= <-] & [x Hx]). congruence.
Qed.

End sso.
End Sso.
