(* ===== verification/PasswordPolicy.v ===== *)
(** * Password policy: the client's mirror and the server's authority

    [web/src/lib/password-policy.ts] draws a checklist and gates the forms;
    [auth.ValidatePassword] of [internal/auth/password.go] decides.  Both are
    modelled here, the theorems say where they agree. *)

From Stdlib Require Import QArith_base.
From S2P Require Import Prelude Regex.
Local Close Scope Q_scope.

Record PasswordPolicy := {
  min_length : Z;
  require_uppercase : bool;
  require_lowercase : bool;
  require_number : bool;
  require_special : bool
}.

Record PasswordRequirement := { met : bool; label : jstr }.

Definition passwordRequirements (password : jstr) (policy : option PasswordPolicy)
    : list PasswordRequirement :=
  match policy with
  | None => []
  | Some policy =>
      [ {| met := (min_length policy <=? Z.of_nat (length password))%Z;
           label := "At least " ++ show (min_length policy) ++ " characters" |} ] ++
      (if require_uppercase policy
       then [ {| met := test (RCls is_upper) password; label := "Uppercase letter" |} ] else []) ++
      (if require_lowercase policy
       then [ {| met := test (RCls is_lower) password; label := "Lowercase letter" |} ] else []) ++
      (if require_number policy
       then [ {| met := test (RCls is_digit) password; label := "Number" |} ] else []) ++
      (if require_special policy
       then [ {| met := test (RCls (λ c, negb (is_alnum c))) password;
                 label := "Special character" |} ] else [])
  end.

Definition passwordMeetsPolicy (password : jstr) (policy : option PasswordPolicy) : bool :=
  match policy with
  | None => (0 <? length password)%nat
  | Some _ => forallb met (passwordRequirements password policy)
  end.

Inductive StrengthLabel := Weak | Fair | Strong.
Record PasswordStrength := { pct : Q; strength : StrengthLabel; colorClass : jstr }.

(** Percentages are exact rationals; with at most five requirements the
    doubles of the program compare with 33 and 66 in the same way. *)
Definition passwordStrength (requirements : list PasswordRequirement) : PasswordStrength :=
  let total := length requirements in
  let pct : Q :=
    if (0 <? total)%nat
    then ((inject_Z (Z.of_nat (countb met requirements)) / inject_Z (Z.of_nat total)) * 100)%Q
    else 0%Q in
  if Qle_bool pct 33 then {| pct := pct; strength := Weak; colorClass := "bg-destructive/50" |}
  else if Qle_bool pct 66 then {| pct := pct; strength := Fair; colorClass := "bg-warning/50" |}
  else {| pct := pct; strength := Strong; colorClass := "bg-success/50" |}.

(** ** The server

    Go ranges over the code points of the UTF-8 string; [unicode.IsUpper] and
    its siblings come with Unicode tables, of which the ASCII part is fixed. *)

Definition ascii_special (c : N) : bool := in_range 33 126 c && negb (is_alnum c).

Class GoUnicode := {
  go_IsUpper : N → bool;
  go_IsLower : N → bool;
  go_IsDigit : N → bool;
  go_IsPunctOrSymbol : N → bool;
  go_ascii c : (c < 128)%N →
    go_IsUpper c = is_upper c ∧ go_IsLower c = is_lower c ∧
    go_IsDigit c = is_digit c ∧ go_IsPunctOrSymbol c = ascii_special c
}.

(** Length in bytes of a code point and of a string of code points. *)
Definition utf8_len (c : N) : nat :=
  if (c <? 128)%N then 1 else if (c <? 2048)%N then 2 else if (c <? 65536)%N then 3 else 4.
Definition go_len (s : list N) : nat := sum_list (utf8_len <$> s).

Section server.
Context `{!GoUnicode}.

Record char_classes := { hasUpper : bool; hasLower : bool; hasNumber : bool; hasSpecial : bool }.

(** One iteration of the loop: the first class that holds is recorded. *)
Definition scan_char (acc : char_classes) (c : N) : char_classes :=
  if go_IsUpper c then Build_char_classes true (hasLower acc) (hasNumber acc) (hasSpecial acc)
  else if go_IsLower c then Build_char_classes (hasUpper acc) true (hasNumber acc) (hasSpecial acc)
  else if go_IsDigit c then Build_char_classes (hasUpper acc) (hasLower acc) true (hasSpecial acc)
  else if go_IsPunctOrSymbol c
  then Build_char_classes (hasUpper acc) (hasLower acc) (hasNumber acc) true
  else acc.

Definition scan (password : list N) : char_classes :=
  fold_left scan_char password (Build_char_classes false false false false).

Definition ValidatePassword (password : list N) (cfg : PasswordPolicy) : option jstr :=
  if (Z.of_nat (go_len password) <? min_length cfg)%Z
  then Some ("password must be at least " ++ show (min_length cfg) ++ " characters")
  else if (72 <? go_len password)%nat then Some (js "password must not exceed 72 bytes")
  else
    let k := scan password in
    if require_uppercase cfg && negb (hasUpper k)
    then Some (js "password must contain at least 1 uppercase letter")
    else if require_lowercase cfg && negb (hasLower k)
    then Some (js "password must contain at least 1 lowercase letter")
    else if require_number cfg && negb (hasNumber k)
    then Some (js "password must contain at least 1 number")
    else if require_special cfg && negb (hasSpecial k)
    then Some (js "password must contain at least 1 special character")
    else None.

(** The message the server sends for a requirement of the checklist. *)
Definition server_message (cfg : PasswordPolicy) (r : PasswordRequirement) : jstr :=
  if label r =?s "Uppercase letter" then "password must contain at least 1 uppercase letter"
  else if label r =?s "Lowercase letter" then "password must contain at least 1 lowercase letter"
  else if label r =?s "Number" then "password must contain at least 1 number"
  else if label r =?s "Special character" then "password must contain at least 1 special character"
  else "password must be at least " ++ show (min_length cfg) ++ " characters".

(** Printable ASCII without the space. *)
Definition graphic (c : N) : bool := in_range 33 126 c.

Lemma go_len_ascii s : Forall (λ c, graphic c = true) s → go_len s = length s.
Proof.
  unfold go_len. induction 1 as [|c s Hc _ IH]; [done|]. csimpl. rw IH.
  unfold graphic, in_range, utf8_len in *. bool_to_prop.
  case_match; bool_to_prop; [lia|]. lia.
Qed.

Lemma scan_graphic s : Forall (λ c, graphic c = true) s →
  scan s = Build_char_classes (existsb is_upper s) (existsb is_lower s) (existsb is_digit s)
             (existsb (λ c, negb (is_alnum c)) s).
Proof.
  intros Hs. unfold scan.
  assert (Hfold : ∀ a b c d, fold_left scan_char s (Build_char_classes a b c d) =
    Build_char_classes (a || existsb is_upper s) (b || existsb is_lower s) (c || existsb is_digit s)
      (d || existsb (λ c, negb (is_alnum c)) s)); [|by rw Hfold].
  induction Hs as [|x s Hx _ IH]; intros a b c d; simpl; [by rw !orb_false_r|].
  unfold graphic in Hx. destruct (go_ascii x) as (HU & HL & HD & HS).
  { unfold in_range in Hx. bool_to_prop. lia. }
  unfold scan_char; simpl. rw HU HL HD HS /ascii_special Hx /=.
  unfold is_alnum, is_alpha, is_upper, is_lower, is_digit, in_range.
  destruct (N.leb_spec 65 x), (N.leb_spec x 90), (N.leb_spec 97 x), (N.leb_spec x 122),
    (N.leb_spec 48 x), (N.leb_spec x 57); try lia; simpl; rw IH ?orb_true_r ?orb_true_l //=.
Qed.

Lemma label_min_length_other n (l : jstr) :
  head l ≠ Some 65%N → (("At least " ++ show n ++ " characters") =?s l) = false.
Proof. intros Hl. apply bool_decide_eq_false. intros <-. by apply Hl. Qed.

(** C18: on printable ASCII passwords of at most 72 characters the checklist
    mirrors the server exactly: the server rejects with the message of the
    first requirement that is not met, and accepts when all are met. *)
Theorem checklist_mirrors_server (password : jstr) (policy : PasswordPolicy) :
  Forall (λ c, graphic c = true) password → length password ≤ 72 →
  ValidatePassword password policy =
  server_message policy <$>
    List.find (λ r, negb (met r)) (passwordRequirements password (Some policy)).
Proof.
  intros Hg Hlen. unfold ValidatePassword, passwordRequirements.
  rw (go_len_ascii _ Hg) (scan_graphic _ Hg) !test_cls. cbn [hasUpper hasLower hasNumber hasSpecial].
  rw (proj2 (Nat.ltb_ge 72 (length password)) Hlen) Z.ltb_antisym.
  destruct (min_length policy <=? Z.of_nat (length password))%Z; cbn [negb].
  - destruct (require_uppercase policy), (require_lowercase policy), (require_number policy),
      (require_special policy), (existsb is_upper password), (existsb is_lower password),
      (existsb is_digit password), (existsb (λ c, negb (is_alnum c)) password); done.
  - cbn [List.find app met negb fmap option_fmap option_map]. unfold server_message.
    cbn [label]. by rw !label_min_length_other.
Qed.

End server.

(** A password that passes the client's gate is shown as strong, with a
    full bar. *)
Theorem meets_policy_is_strong (password : jstr) (policy : PasswordPolicy) :
  passwordMeetsPolicy password (Some policy) = true →
  let s := passwordStrength (passwordRequirements password (Some policy)) in
  strength s = Strong ∧ (pct s == 100)%Q.
Proof.
  intros Hm. unfold passwordMeetsPolicy in Hm. apply forallb_countb in Hm.
  unfold passwordStrength. set (reqs := passwordRequirements password (Some policy)) in *.
  assert (Hn : (0 < length reqs)%nat) by (unfold reqs, passwordRequirements; cbn; lia).
  rw Hm (proj2 (Nat.ltb_lt 0 _) Hn).
  assert (Hp : (inject_Z (Z.of_nat (length reqs)) / inject_Z (Z.of_nat (length reqs)) * 100 == 100)%Q).
  { unfold Qeq, Qdiv, Qmult, Qinv, inject_Z; simpl.
    destruct (Z.of_nat (length reqs)) eqn:E; simpl; lia. }
  set (q := (inject_Z _ / _ * 100)%Q) in *.
  assert (H33 : Qle_bool q 33 = false) by (rewrite Hp; done).
  assert (H66 : Qle_bool q 66 = false) by (rewrite Hp; done).
  rw H33 H66. done.
Qed.

(** What the gate of the forms stands for: any password while no policy is known,
    and otherwise one that is long enough and has a character of every kind
    that is asked for. *)
Definition password_allowed (policy : option PasswordPolicy) (password : jstr) : Prop :=
  match policy with
  | None => password ≠ []
  | Some p =>
      (min_length p <= Z.of_nat (length password))%Z ∧
      (require_uppercase p = true → ∃ c, c ∈ password ∧ is_upper c = true) ∧
      (require_lowercase p = true → ∃ c, c ∈ password ∧ is_lower c = true) ∧
      (require_number p = true → ∃ c, c ∈ password ∧ is_digit c = true) ∧
      (require_special p = true → ∃ c, c ∈ password ∧ is_alnum c = false)
  end.
Lemma asked_kind (b : bool) (f : N → bool) (l : jstr) (password : jstr) :
  forallb met (if b then [ {| met := test (RCls f) password; label := l |} ] else []) = true ↔
  (b = true → ∃ c, c ∈ password ∧ f c = true).
Proof.
  destruct b; cbn; [|naive_solver]. rw test_cls andb_true_r existsb_exists. setoid_rewrite <- list_elem_of_In. naive_solver.
Qed.
Lemma passwordMeetsPolicy_allowed (password : jstr) (policy : option PasswordPolicy) :
  passwordMeetsPolicy password policy = true ↔ password_allowed policy password.
Proof.
  destruct policy as [p|]; cbn [passwordMeetsPolicy password_allowed passwordRequirements].
  - rw !forallb_app !andb_true_iff !asked_kind. cbn. rw Z.leb_le. setoid_rewrite negb_true_iff. tauto.
  - rw Nat.ltb_lt. destruct password; cbn; split; (done || lia).
Qed.

(** Go's tables restricted to ASCII. *)
#[refine] Definition AsciiGo : GoUnicode := {|
  go_IsUpper := is_upper; go_IsLower := is_lower; go_IsDigit := is_digit;
  go_IsPunctOrSymbol := ascii_special
|}.
Proof. done. Defined.

Definition full_policy : PasswordPolicy := {|
  min_length := 8; require_uppercase := true; require_lowercase := true;
  require_number := true; require_special := true
|}.

(** The mirror is looser than the server in two ways: a space counts as
    the special character, and a password over 72 bytes passes. *)
Theorem mirror_looser_than_server :
  let spaced := js "Pass word1" in
  let long := js "Aa1!" ++ replicate 72 97%N in
  passwordMeetsPolicy spaced (Some full_policy) = true ∧
  @ValidatePassword AsciiGo spaced full_policy =
    Some (js "password must contain at least 1 special character") ∧
  passwordMeetsPolicy long (Some full_policy) = true ∧
  @ValidatePassword AsciiGo long full_policy = Some (js "password must not exceed 72 bytes").
Proof. vm_compute. done. Qed.

Lemma checklist_mirrors_server_witness :
  @ValidatePassword AsciiGo "Abcdefg1" full_policy =
  Some (js "password must contain at least 1 special character").
Proof.
  rewrite (@checklist_mirrors_server AsciiGo "Abcdefg1" full_policy).
  - vm_compute. reflexivity.
  - apply (bool_decide_unpack _). vm_compute. exact I.
  - apply (bool_decide_unpack _). vm_compute. exact I.
Defined.

Lemma meets_policy_is_strong_witness :
  strength (passwordStrength (passwordRequirements "Abcdef1!" (Some full_policy))) = Strong.
Proof. apply (meets_policy_is_strong "Abcdef1!" full_policy). vm_compute. reflexivity. Defined.
