(* ===== verification/Mail.v ===== *)
(** * Reading mail safely: [email-html.ts] and [verification-code.ts]

    [EmailHtml] models the document built for the sandboxed frame an HTML
    mail is shown in, with the meaning of the content security policy it
    carries; [VerificationCode] models the extraction of one-time codes. *)

From stdpp Require Import sorting.
From S2P Require Import Prelude Regex.

(** ** email-html.ts *)
Module EmailHtml.

(** An [src] or [background] attribute with an [http] or [https] value,
    quoted or not, under the [i] flag. *)
Definition remote_attr : re :=
  rseq [ralt (rliti "src") [rliti "background"]; RStar rspace; rchar 61; RStar rspace;
        ropt (rone_of [34; 39]%N); rliti "http"; ropt (rliti "s"); rlit "://"].
(** A CSS [url] with an [http] or [https] argument, quoted or not. *)
Definition remote_url : re :=
  rseq [rliti "url"; rchar 40; RStar rspace; ropt (rone_of [34; 39]%N);
        rliti "http"; ropt (rliti "s"); rlit "://"].

Definition hasRemoteContent (html : jstr) : bool := test remote_attr html || test remote_url html.

Definition csp (blockRemote : bool) : jstr :=
  if blockRemote
  then "default-src 'none'; img-src data:; style-src 'unsafe-inline'; font-src data:;"
  else "default-src 'none'; img-src https: http: data:; media-src https: http: data:; style-src 'unsafe-inline'; font-src https: http: data:;".

Definition head_open : jstr :=
  js "
    <meta http-equiv=" ++ dq ++ js "Content-Security-Policy" ++ dq ++ js " content=" ++ dq.
Definition head_close : jstr :=
  dq ++ js ">
    <style>
      body { font-family: -apple-system, BlinkMacSystemFont, 'Segoe UI', Roboto, sans-serif; font-size: 14px; line-height: 1.6; color: #1a1a1a; margin: 0; padding: 16px; word-wrap: break-word; }
      img { max-width: 100%; height: auto; }
      a { color: #2563eb; }
      table { max-width: 100%; }
      pre { overflow-x: auto; background: #f5f5f5; padding: 12px; border-radius: 6px; }
    </style>
  ".

Definition buildSandboxedHtml (html : jstr) (blockRemote : bool) : jstr :=
  head_open ++ csp blockRemote ++ head_close ++ html.

(** *** What the policy means

    A policy is a list of directives separated by semicolons, a directive a
    name and its source list separated by spaces (Content Security Policy
    Level 3).  A fetch of a kind is governed by its own directive, or by
    [default-src] when there is none. *)

Definition directives (policy : jstr) : list (jstr * list jstr) :=
  omap (λ d, match List.filter truthy (split_on 32 d) with
             | name :: sources => Some (name, sources)
             | [] => None
             end) (split_on 59 policy).

Definition sources_for (policy : jstr) (kind : jstr) : list jstr :=
  match map_get (directives policy) kind with
  | Some srcs => srcs
  | None => default [] (map_get (directives policy) "default-src")
  end.

(** Whether a fetch of [kind] from an [http:] or [https:] URL may go out: a
    scheme source, a wildcard or a host source would allow it; only [data:]
    and quoted keywords do not. *)
Definition allows_remote (policy kind : jstr) : bool :=
  existsb (λ src, negb ((src =?s "data:") || startsWith src "'")) (sources_for policy kind).

(** The policy a document carries in its first meta element: what follows
    the opening of that element up to the closing quote, provided nothing of
    the document precedes it. *)
Definition leading_policy (doc : jstr) : option jstr :=
  if startsWith doc head_open
  then Some (take_while (λ c, negb (c =? 34)%N) (drop (length head_open) doc))
  else None.

Definition fetch_kinds : list jstr :=
  js <$> ["img-src"; "media-src"; "font-src"; "style-src"; "script-src"; "connect-src";
          "frame-src"; "object-src"; "worker-src"; "manifest-src"; "prefetch-src"]%string.

Lemma take_while_app {A} (p : A → bool) (l k : list A) x :
  Forall (λ y, p y = true) l → p x = false → take_while p (l ++ x :: k) = l.
Proof. intros Hl Hx. induction Hl as [|y l Hy _ IH]; simpl; [by rw Hx|]. by rw Hy IH. Qed.

Lemma csp_unquoted b : Forall (λ c, negb (c =? 34)%N = true) (csp b).
Proof. destruct b; apply (bool_decide_unpack _); vm_compute; exact I. Qed.

Lemma buildSandboxedHtml_policy html b : leading_policy (buildSandboxedHtml html b) = Some (csp b).
Proof.
  unfold leading_policy, buildSandboxedHtml. rw startsWith_refl_app drop_app_length.
  unfold head_close, dq. rw -app_assoc. cbn [app].
  by rw take_while_app //; [apply csp_unquoted].
Qed.

(** C15: whatever markup a sender wrote, the document shown while remote
    content is blocked is governed from its first element by a policy under
    which no fetch of any kind may go to the network; loading remote content
    opens images, media and fonts, and nothing else. *)
Theorem sandbox_blocks_remote (html kind : jstr) (blockRemote : bool) :
  kind ∈ fetch_kinds →
  ∃ policy, leading_policy (buildSandboxedHtml html blockRemote) = Some policy ∧
    allows_remote policy kind =
      negb blockRemote && bool_decide (kind ∈ js <$> ["img-src"; "media-src"; "font-src"]%string).
Proof.
  intros Hk. exists (csp blockRemote). split; [apply buildSandboxedHtml_policy|].
  revert kind Hk. apply Forall_forall. apply (bool_decide_unpack _).
  destruct blockRemote; vm_compute; exact I.
Qed.

(** Blocking does not depend on [hasRemoteContent], which only decides whether
    the reader is offered to load images. It misses protocol-relative
    references and [srcset]. *)
Lemma detector_misses :
  hasRemoteContent (js "<img src='//tracker.test/p.gif'>") = false ∧
  hasRemoteContent (js "<img srcset='https://tracker.test/p.gif 2x'>") = false.
Proof. vm_compute. done. Qed.

Lemma sandbox_blocks_remote_witness :
  ∃ policy, leading_policy (buildSandboxedHtml "<img src=x>" true) = Some policy ∧
    allows_remote policy "img-src" = false.
Proof.
  destruct (sandbox_blocks_remote "<img src=x>" "img-src" true) as (p & H & E).
  - apply (bool_decide_unpack _). vm_compute. exact I.
  - exists p. split; [exact H|exact E].
Defined.

End EmailHtml.

(** ** verification-code.ts *)
Module VerificationCode.

(** The keywords that make a nearby number a one-time code, under the [i] flag. *)
Definition CODE_KEYWORDS : re :=
  ralt (rliti "verification")
    [ rliti "verify";
      rseq [rliti "one"; ropt (RCls (λ c, (c =? 45)%N || is_space c)); rliti "time"];
      rliti "passcode";
      rseq [rliti "security"; rplus rspace; rliti "code"];
      rseq [rliti "confirm"; ropt (rliti "ation")];
      rliti "otp";
      rseq [RWordB; rliti "code"; RWordB];
      rseq [RWordB; rliti "pin"; RWordB] ].

(** A run of four to eight digits between word boundaries, with an optional
    letter and dash before it; group 1 is the run. *)
Definition code_re : re :=
  rseq [RWordB; ropt (rseq [RCls is_alpha; rchar 45]); RGroup 1 (rrep 4 8 rdigit); RWordB].

Definition score (code : jstr) : Z :=
  if (length code =? 6)%nat then 3%Z
  else if (length code =? 4)%nat || (length code =? 8)%nat then 1%Z else 2%Z.

(** The text from 32 code units before a match to 32 after it. *)
Definition window (text : jstr) (m : rexec) : jstr :=
  slice text (x_index m - 32) (x_index m + length (x_match m) + 32).

(** One iteration of the loop; [best] is the best code so far. *)
Definition consider (text : jstr) (best : option (jstr * Z)) (m : rexec) : option (jstr * Z) :=
  if negb (test CODE_KEYWORDS (window text m)) then best
  else
    let code := default [] (x_cap m 1) in
    match best with
    | Some (_, s) => if (s <? score code)%Z then Some (code, score code) else best
    | None => Some (code, score code)
    end.

Definition extractVerificationCode (text : jstr) : option jstr :=
  if negb (truthy text) then None
  else fst <$> fold_left (consider text) (exec_all code_re text) None.

(** *** What a code is

    A run of four to eight digits with no word character on either side. *)
Definition is_code (text before code after : jstr) : Prop :=
  text = before ++ code ++ after ∧ 4 ≤ length code ≤ 8 ∧ Forall (λ c, is_digit c = true) code ∧
  word_opt (last before) = false ∧ word_opt (head after) = false.
(** A letter and a dash before the code, as in G-123456, belong to it if the
    letter stands alone. *)
Definition lead (before : jstr) : nat :=
  match reverse before with 45%N :: x :: r => if is_alpha x && negb (word_opt (head r)) then 2 else 0 | _ => 0 end.
(** The code with 32 code units before and after it. *)
Definition nearby (before code after : jstr) : jstr := drop (length before - lead before - 32) before ++ code ++ take 32 after.
(** The words that speak of a code, in letters of any case. *)
Definition reads (v k : jstr) : Prop := ascii_lower <$> v = k.
Definition keyword (v : jstr) : Prop :=
  (∃ k, k ∈ [js "verification"; js "verify"; js "onetime"; js "passcode"; js "confirm"; js "otp"] ∧ reads v k) ∨
  (∃ a x b, v = a ++ [x] ++ b ∧ reads a "one" ∧ (x = 45%N ∨ is_space x = true) ∧ reads b "time") ∨
  (∃ a sp b, v = a ++ sp ++ b ∧ reads a "security" ∧ sp ≠ [] ∧ Forall (λ c, is_space c = true) sp ∧ reads b "code").
Definition keyword_in (w : jstr) : Prop :=
  ∃ u v t, w = u ++ v ++ t ∧
    (keyword v ∨ ((reads v "code" ∨ reads v "pin") ∧ word_opt (last u) = false ∧ word_opt (head t) = false)).

(** *** The pattern of the keywords *)

Lemma digit_word c : is_digit c = true → is_word c = true.
Proof. unfold is_word, is_alnum. intros ->. by rw orb_true_r. Qed.
Lemma alpha_word c : is_alpha c = true → is_word c = true.
Proof. unfold is_word, is_alnum. by intros ->. Qed.
Lemma lower_word c : is_word (ascii_lower c) = true → is_word c = true.
Proof.
  unfold ascii_lower. case_match eqn:E; [|done]. intros _. apply alpha_word. unfold is_alpha. by rw E.
Qed.
Lemma reads_word v k : reads v k → Forall (λ c, is_word c = true) k → Forall (λ c, is_word c = true) v.
Proof.
  unfold reads. intros <- Hk. apply Forall_fmap in Hk. eapply Forall_impl; [exact Hk|]. cbn. intros c. apply lower_word.
Qed.
Lemma reads_nonempty v k : reads v k → k ≠ [] → v ≠ [].
Proof. unfold reads. by intros <- Hk ->. Qed.
Lemma word_last prev v : v ≠ [] → Forall (λ c, is_word c = true) v → word_opt (from_option Some prev (last v)) = true.
Proof. intros Hne Hv. destruct (last v) eqn:E; [|by apply last_None in E]. cbn. apply last_Some_elem_of in E. by apply (proj1 (Forall_forall _ _) Hv). Qed.
Lemma word_head v t : v ≠ [] → Forall (λ c, is_word c = true) v → word_opt (head (v ++ t)) = true.
Proof. intros Hne Hv. destruct Hv; [done|done]. Qed.

Lemma wordb_inv s e : rmatch RWordB s e → e = s ∧ at_boundary s = true.
Proof. inversion 1; by simplify_eq. Qed.
(** A word between two boundaries. *)
Lemma bounded_word k prev s e : js k ≠ [] → Forall (λ c, is_word c = true) (js k) → js k = ascii_lower <$> js k →
  rmatch (rseq [RWordB; rliti k; RWordB]) (Mst prev s []) e ↔
  ∃ v t, s = v ++ t ∧ reads v k ∧ word_opt prev = false ∧ word_opt (head t) = false ∧ e = Mst (from_option Some prev (last v)) t [].
Proof.
  intros Hne Hk Hl. cbn [rseq]. split.
  - intros (s1 & [-> H1]%wordb_inv & (s2 & H2 & [-> H3]%wordb_inv)%rmatch_seq_inv)%rmatch_seq_inv.
    apply rmatch_liti_inv in H2 as (v & Hv & Hr & Hp & Hc). cbn in Hv, Hp, Hc. rw -Hl in Hr.
    assert (Hvw : Forall (λ c, is_word c = true) v) by (by eapply reads_word). assert (Hvn : v ≠ []) by (by eapply reads_nonempty).
    unfold at_boundary in H1, H3. cbn in H1. rw Hv word_head // in H1. rw Hp word_last // in H3.
    exists v, (m_rest s2). split_and!; [done|done|by destruct (word_opt prev)|by destruct (word_opt (head (m_rest s2)))|]. destruct s2; cbn in *; by subst.
  - intros (v & t & -> & Hr & Hp & Ht & ->).
    assert (Hvw : Forall (λ c, is_word c = true) v) by (by eapply reads_word). assert (Hvn : v ≠ []) by (by eapply reads_nonempty).
    eapply M_seq; [apply M_wordb; unfold at_boundary; cbn; by rw word_head // Hp|]. eapply M_seq.
    + apply rmatch_liti. by rw -Hl.
    + apply M_wordb. unfold at_boundary. cbn. by rw word_last // Ht.
Qed.
Lemma liti_reads k prev s : k = ascii_lower <$> k →
  (∃ e, rmatch (rliti k) (Mst prev s []) e) ↔ ∃ v t, s = v ++ t ∧ reads v k.
Proof.
  intros Hk. split.
  - intros (e & (v & Hv & Hr & _)%rmatch_liti_inv). exists v, (m_rest e). split; [done|]. unfold reads. by rw Hr -Hk.
  - intros (v & t & -> & Hr). eexists. apply rmatch_liti. by rw -Hk.
Qed.
Lemma confirm_reads prev s :
  (∃ e, rmatch (rseq [rliti "confirm"; ropt (rliti "ation")]) (Mst prev s []) e) ↔ ∃ v t, s = v ++ t ∧ reads v "confirm".
Proof.
  rw -(liti_reads "confirm" prev s eq_refl). cbn [rseq]. split.
  - intros (e & (s1 & H1 & _)%rmatch_seq_inv). by exists s1.
  - intros (e & H1). exists e. eapply M_seq; [exact H1|]. apply M_alt_r, M_eps.
Qed.
Lemma onetime_reads prev s :
  (∃ e, rmatch (rseq [rliti "one"; ropt (RCls (λ c, (c =? 45)%N || is_space c)); rliti "time"]) (Mst prev s []) e) ↔
  ∃ v t, s = v ++ t ∧ (reads v "onetime" ∨ ∃ a x b, v = a ++ [x] ++ b ∧ reads a "one" ∧ (x = 45%N ∨ is_space x = true) ∧ reads b "time").
Proof.
  cbn [rseq]. split.
  - intros (e & (s1 & (a & Ha & Hra & _)%rmatch_liti_inv & (s2 & Ho & (b & Hb & Hrb & _)%rmatch_liti_inv)%rmatch_seq_inv)%rmatch_seq_inv).
    cbn in Ha. inversion Ho as [| | |r1 r2 u u' Hc|r1 r2 u u' Hc| | | | | |]; simplify_eq.
    + inversion Hc as [|q x t s0 Ht Hp| | | | | | | | |]; simplify_eq. cbn in Hb. exists (a ++ [x] ++ b), (m_rest e).
      split; [rw Ht Hb -!app_assoc //|]. right. exists a, x, b. split_and!; [done|done| |done].
      apply orb_true_iff in Hp as [Hp|Hp]; [left; by apply N.eqb_eq|by right].
    + inversion Hc; simplify_eq. exists (a ++ b), (m_rest e). split; [rw Hb -!app_assoc //|]. left. unfold reads in *. by rw fmap_app Hra Hrb.
  - intros (v & t & -> & [Hv|(a & x & b & -> & Ha & Hx & Hb)]).
    + rewrite -(take_drop 3 v). rw -app_assoc. eexists. eapply M_seq; [apply (rmatch_liti "one"); rw fmap_take Hv //|].
      eapply M_seq; [apply M_alt_r, M_eps|]. apply (rmatch_liti "time"). by rw fmap_drop Hv.
    + rw -!app_assoc. eexists. eapply M_seq; [by apply (rmatch_liti "one")|].
      eapply M_seq; [apply M_alt_l; eapply (M_cls _ x); [reflexivity|]|cbn; by apply (rmatch_liti "time")].
      apply orb_true_iff. destruct Hx as [->|]; [by left|by right].
Qed.
Lemma security_reads prev s :
  (∃ e, rmatch (rseq [rliti "security"; rplus rspace; rliti "code"]) (Mst prev s []) e) ↔
  ∃ v t, s = v ++ t ∧ ∃ a sp b, v = a ++ sp ++ b ∧ reads a "security" ∧ sp ≠ [] ∧ Forall (λ c, is_space c = true) sp ∧ reads b "code".
Proof.
  cbn [rseq]. split.
  - intros (e & (s1 & (a & Ha & Hra & _)%rmatch_liti_inv & (s2 & (sp & Hne & Hsp & Hs)%rmatch_plus_word & (b & Hb & Hrb & _)%rmatch_liti_inv)%rmatch_seq_inv)%rmatch_seq_inv).
    cbn in Ha. exists (a ++ sp ++ b), (m_rest e). split; [rw Ha Hs Hb -!app_assoc //|]. by exists a, sp, b.
  - intros (v & t & -> & a & sp & b & -> & Ha & Hne & Hsp & Hb). rw -!app_assoc.
    destruct (rmatch_word_plus is_space (from_option Some prev (last a)) sp (b ++ t) [] Hne Hsp) as [p' Hp].
    eexists. eapply M_seq; [by apply (rmatch_liti "security")|]. eapply M_seq; [exact Hp|]. by apply (rmatch_liti "code").
Qed.
Lemma bounded_reads k prev s : js k ≠ [] → Forall (λ c, is_word c = true) (js k) → js k = ascii_lower <$> js k →
  (∃ e, rmatch (rseq [RWordB; rliti k; RWordB]) (Mst prev s []) e) ↔
  ∃ v t, s = v ++ t ∧ reads v k ∧ word_opt prev = false ∧ word_opt (head t) = false.
Proof.
  intros H1 H2 H3. split.
  - intros (e & (v & t & ? & ? & ? & ? & _)%bounded_word); [|done..]. by exists v, t.
  - intros (v & t & ? & ? & ? & ?). eexists. apply bounded_word; [done..|]. by exists v, t.
Qed.
Lemma keywords_match prev s :
  (∃ e, rmatch CODE_KEYWORDS (Mst prev s []) e) ↔
  ∃ v t, s = v ++ t ∧ (keyword v ∨ ((reads v "code" ∨ reads v "pin") ∧ word_opt prev = false ∧ word_opt (head t) = false)).
Proof.
  unfold CODE_KEYWORDS.
  transitivity (Exists (λ r, ∃ e, rmatch r (Mst prev s []) e) [rliti "verification"; rliti "verify";
      rseq [rliti "one"; ropt (RCls (λ c, (c =? 45)%N || is_space c)); rliti "time"]; rliti "passcode";
      rseq [rliti "security"; rplus rspace; rliti "code"]; rseq [rliti "confirm"; ropt (rliti "ation")]; rliti "otp";
      rseq [RWordB; rliti "code"; RWordB]; rseq [RWordB; rliti "pin"; RWordB]]).
  { split.
    - intros (e & [Hm|Hm]%rmatch_ralt); [left; by exists e|right]. eapply Exists_impl; [exact Hm|]. intros r Hr. by exists e.
    - intros [[e Hm]|(r & Hr & e & Hm)%Exists_exists]%Exists_cons; exists e; apply rmatch_ralt; [by left|right]. apply Exists_exists. by exists r. }
  rw !Exists_cons Exists_nil (liti_reads "verification" prev s eq_refl) (liti_reads "verify" prev s eq_refl) (liti_reads "passcode" prev s eq_refl)
    (liti_reads "otp" prev s eq_refl) onetime_reads security_reads confirm_reads
    (bounded_reads "code" prev s ltac:(done) ltac:(repeat constructor) eq_refl) (bounded_reads "pin" prev s ltac:(done) ltac:(repeat constructor) eq_refl).
  unfold keyword. split.
  - intros [(v & t & E & Hv)|[(v & t & E & Hv)|[(v & t & E & Hv)|[(v & t & E & Hv)|[(v & t & E & Hv)|[(v & t & E & Hv)|[(v & t & E & Hv)|[(v & t & E & Hv)|[(v & t & E & Hv)|[]]]]]]]]]];
      exists v, t; (split; [exact E|]).
    + left. left. eexists; split; [|exact Hv]. set_solver. + left. left. eexists; split; [|exact Hv]. set_solver.
    + left. destruct Hv as [Hv|Hv]; [|by right; left]. left. eexists; split; [|exact Hv]. set_solver.
    + left. left. eexists; split; [|exact Hv]. set_solver. + left. by right; right.
    + left. left. eexists; split; [|exact Hv]. set_solver. + left. left. eexists; split; [|exact Hv]. set_solver.
    + right. naive_solver. + right. naive_solver.
  - intros (v & t & E & [[(k & Hk & Hv)|[Hv|Hv]]|([Hv|Hv] & Hp & Ht)]).
    + rw !elem_of_cons elem_of_nil in Hk. destruct Hk as [->|[->|[->|[->|[->|[->|[]]]]]]]; naive_solver.
    + naive_solver. + naive_solver. + do 7 right. left. by exists v, t. + do 8 right. left. by exists v, t.
Qed.
Lemma keywords_test w : test CODE_KEYWORDS w = true ↔ keyword_in w.
Proof.
  rw test_iff. unfold keyword_in. split.
  - intros (u & s & e & -> & Hm). destruct (proj1 (keywords_match (last u) s)) as (v & t & -> & Hk); [by exists e|]. by exists u, v, t.
  - intros (u & v & t & -> & Hk). destruct (proj2 (keywords_match (last u) (v ++ t))) as [e He]; [by exists v, t|]. by exists u, (v ++ t), e.
Qed.

(** *** The pattern of the codes *)

(** What stands between the start of a match and the digits. *)
Definition code_lead (p : jstr) : Prop := p = [] ∨ ∃ x, p = [x; 45%N] ∧ is_alpha x = true.
Lemma digits_words c : Forall (λ x, is_digit x = true) c → Forall (λ x, is_word x = true) c.
Proof. intros Hc. eapply Forall_impl; [exact Hc|]. apply digit_word. Qed.
Lemma code_match prev s e :
  rmatch code_re (Mst prev s []) e ↔
  ∃ p c t, s = p ++ c ++ t ∧ code_lead p ∧ 4 ≤ length c ≤ 8 ∧ Forall (λ x, is_digit x = true) c ∧
    word_opt prev = false ∧ word_opt (head t) = false ∧ e = Mst (last c) t [(1, c)].
Proof.
  unfold code_re. cbn [rseq]. split.
  - intros (s1 & [-> Hb]%wordb_inv & (s2 & Ho & (s3 & Hg & [-> He]%wordb_inv)%rmatch_seq_inv)%rmatch_seq_inv)%rmatch_seq_inv.
    inversion Hg as [| | | | | | |i a ? s4 Hd| | |]; simplify_eq.
    pose proof (rmatch_prev _ _ _ Hd) as (c & Hc & Hp). apply rmatch_rep_cls in Hd as (Hl & Hf & Hcaps); [|lia].
    rewrite (consumed_spec _ _ _ Hc) in Hl, Hf |- *. assert (Hcn : c ≠ []) by (destruct c; [cbn in Hl; lia|done]).
    unfold at_boundary in He. cbn in He. rw Hp word_last // in He; [|by apply digits_words].
    assert (Hs2 : ∃ p, s = p ++ m_rest s2 ∧ code_lead p ∧ m_caps s2 = []).
    { inversion Ho as [| | |r1 r2 u u' Ha|r1 r2 u u' Ha| | | | | |]; simplify_eq.
      - apply rmatch_seq_inv in Ha as (s5 & H5 & H6). inversion H5 as [|q x t s0 Ht Hx| | | | | | | | |]; simplify_eq. cbn in Ht. subst s.
        inversion H6 as [|q y t' s0 Ht Hy| | | | | | | | |]; simplify_eq. cbn in Ht. subst t. apply N.eqb_eq in Hy as <-.
        exists [x; 45%N]. split_and!; [done|right; by exists x|done].
      - inversion Ha; simplify_eq. exists []. split_and!; [done|by left|done]. }
    destruct Hs2 as (p & -> & Hlead & Hc2). exists p, c, (m_rest s4). rw Hc. split_and!; try done; try lia.
    + unfold at_boundary in Hb. cbn in Hb. assert (Hh : word_opt (head (p ++ m_rest s2)) = true).
      { rw Hc. destruct Hlead as [->|(x & -> & Hx)]; [apply (word_head c); [done|by apply digits_words]|by apply alpha_word]. }
      rw Hh in Hb. by destruct (word_opt prev).
    + by destruct (word_opt (head (m_rest s4))).
    + unfold set_cap. rw Hcaps Hc2 Hp. destruct (last c) eqn:E; [done|by apply last_None in E].
  - intros (p & c & t & -> & Hlead & Hl & Hf & Hp & Ht & ->). assert (Hcn : c ≠ []) by (destruct c; [cbn in Hl; lia|done]).
    assert (Hw : ∀ pr, word_opt (from_option Some pr (last c)) = true) by (intros pr; apply word_last; [done|by apply digits_words]).
    eapply M_seq; [apply M_wordb|].
    { unfold at_boundary. cbn. rw Hp. destruct Hlead as [->|(x & -> & Hx)]; [cbn [app]; by rw (word_head c t Hcn (digits_words c Hf))|]. cbn. by rw alpha_word. }
    assert (Hrest : ∀ pr, rmatch (RSeq (RGroup 1 (rrep 4 8 rdigit)) RWordB) (Mst pr (c ++ t) []) (Mst (last c) t [(1, c)])).
    { intros pr. eapply M_seq; [apply M_group, rmatch_rep_all; done|]. rewrite (consumed_spec _ _ c) //. unfold set_cap. cbn.
      assert (from_option Some pr (last c) = last c) as -> by (destruct (last c) eqn:E; [done|by apply last_None in E]).
      apply M_wordb. unfold at_boundary. cbn. specialize (Hw None). destruct (last c); [|done]. cbn in *. by rw Hw Ht. }
    destruct Hlead as [->|(x & -> & Hx)].
    + eapply M_seq; [apply M_alt_r, M_eps|apply Hrest].
    + eapply M_seq; [apply M_alt_l; eapply M_seq; [by eapply M_cls|by eapply (M_cls _ 45%N)]|apply Hrest].
Qed.

(** *** Where the codes are *)

Lemma lead_intro b x : is_alpha x = true → word_opt (last b) = false → lead (b ++ [x; 45%N]) = 2.
Proof. intros Hx Hb. unfold lead. rewrite reverse_app. cbn. by rw Hx head_reverse Hb. Qed.
Lemma lead_elim b : lead b = 0 ∨ lead b = 2 ∧ ∃ b' x, b = b' ++ [x; 45%N] ∧ is_alpha x = true ∧ word_opt (last b') = false.
Proof.
  unfold lead. destruct (reverse b) as [|y [|x r]] eqn:E; [by left|repeat case_match; by left|].
  assert (Eb : b = reverse r ++ [x; y]) by (rewrite -(reverse_involutive b) E !reverse_cons -app_assoc //).
  destruct (decide (y = 45%N)) as [->|Hy]; [|left; repeat case_match; congruence].
  destruct (is_alpha x && negb (word_opt (head r))) eqn:Ec; [right|by left]. bool_to_prop. split; [done|].
  exists (reverse r), x. by rw last_reverse.
Qed.
(** The part of a code that its match starts with. *)
Lemma lead_split b : word_opt (last b) = false → ∃ b1 p, b = b1 ++ p ∧ length p = lead b ∧ code_lead p ∧ word_opt (last b1) = false.
Proof.
  intros Hb. destruct (lead_elim b) as [->|(-> & b' & x & -> & Hx & Hb')].
  - exists b, []. rw app_nil_r. split_and!; [done..|by left|done].
  - exists b', [x; 45%N]. split_and!; [done..|right; by exists x|done].
Qed.
Lemma alpha_not_digit c : is_alpha c = true → is_digit c = false.
Proof.
  unfold is_alpha, is_upper, is_lower, is_digit, in_range. intros Hc. apply not_true_iff_false. intros Hd.
  apply orb_true_iff in Hc as [Hc|Hc]; apply andb_true_iff in Hc as [?%N.leb_le ?%N.leb_le], Hd as [?%N.leb_le ?%N.leb_le]; lia.
Qed.
Lemma code_lead_no_digit p c : code_lead p → c ∈ p → is_digit c = false.
Proof. intros [->|(x & -> & Hx)] Hc; [set_solver|]. rw !elem_of_cons in Hc. destruct Hc as [->|[->|Hc]]; [by apply alpha_not_digit|done|set_solver]. Qed.
Lemma run_unique c a c' a' : Forall (λ x, is_digit x = true) c → Forall (λ x, is_digit x = true) c' → word_opt (head a) = false → word_opt (head a') = false →
  c ++ a = c' ++ a' → c = c' ∧ a = a'.
Proof.
  intros Hc. revert c'. induction Hc as [|x c Hx _ IH]; intros c' Hc' Ha Ha' E; destruct Hc' as [|y c' Hy Hc']; cbn in E; simplify_eq; [done|..].
  - cbn in Ha. by rw digit_word in Ha.
  - cbn in Ha'. by rw digit_word in Ha'.
  - destruct (IH c') as [-> ->]; done.
Qed.
Lemma code_first text b c a : is_code text b c a → ∃ d, text !! length b = Some d ∧ is_digit d = true.
Proof.
  intros (-> & Hl & Hf & _). destruct Hf as [|d c Hd _]; [cbn in Hl; lia|]. exists d. split; [|done]. by rw lookup_app_r // Nat.sub_diag.
Qed.
Lemma code_before text b c a d i : is_code text b c a → length b = S i → text !! i = Some d → is_word d = false.
Proof.
  intros (-> & _ & _ & Hb & _) Hl Hd. rewrite lookup_app_l in Hd; [|lia]. rw last_lookup Hl in Hb. cbn in Hb. rw Hd in Hb. done.
Qed.
(** Two codes are the same or apart. *)
Lemma codes_apart text b1 p c t b' c' a' :
  is_code text (b1 ++ p) c t → code_lead p → is_code text b' c' a' → length b1 ≤ length b' →
  (b', c', a') = (b1 ++ p, c, t) ∨ length (b1 ++ p ++ c) ≤ length b'.
Proof.
  intros Hc Hp Hc' Hl. destruct (decide (length (b1 ++ p ++ c) ≤ length b')) as [|Hn]; [by right|left]. rw !length_app in Hn.
  destruct (code_first _ _ _ _ Hc') as (d & Hd & Hdig). destruct (Hc) as (Et & Hlen & Hf & Hb & Ht). destruct (Hc') as (Et' & Hlen' & Hf' & Hb' & Ha').
  destruct (decide (length b' < length (b1 ++ p))) as [Hlt|Hge].
  { exfalso. rw length_app in Hlt. rewrite Et -app_assoc lookup_app_r // in Hd. rewrite lookup_app_l in Hd; [|lia].
    apply list_elem_of_lookup_2 in Hd. by rw (code_lead_no_digit p d) in Hdig. }
  destruct (decide (length b' = length (b1 ++ p))) as [Heq|Hne].
  { rewrite Et in Et'. apply app_inj_1 in Et' as [<- E]; [|done]. apply run_unique in E as [<- <-]; done. }
  exfalso. destruct (length b') as [|i] eqn:Ei; [lia|].
  assert (Hi : ∃ y, text !! i = Some y ∧ y ∈ c).
  { rewrite length_app in Hge, Hne. rewrite Et lookup_app_r ?length_app; [|lia]. destruct (lookup_lt_is_Some_2 c (i - (length b1 + length p))) as [y Hy]; [lia|].
    exists y. rewrite lookup_app_l; [|lia]. split; [done|]. by eapply list_elem_of_lookup_2. }
  destruct Hi as (y & Hy & Hin). assert (is_word y = false) by (by eapply code_before). rewrite -> Forall_forall in Hf. specialize (Hf y Hin). cbn in Hf.
  by rw digit_word in H.
Qed.

(** What a match of the loop has found. *)
Definition found (text : jstr) (m : rexec) (o : jstr * jstr * jstr) : Prop :=
  let '(b, c, a) := o in
  is_code text b c a ∧ x_cap m 1 = Some c ∧ x_index m = length b - lead b ∧ length (x_match m) = lead b + length c.
(** Where the loop can stand: at the start, or behind a code. *)
Definition loop_at (b0 s : jstr) : Prop := b0 = [] ∨ (∃ d, last b0 = Some d ∧ is_digit d = true) ∧ word_opt (head s) = false.

Lemma code_matches text b1 p c a : is_code text (b1 ++ p) c a → code_lead p → word_opt (last b1) = false →
  rmatch code_re (Mst (last b1) (p ++ c ++ a) []) (Mst (last c) a [(1, c)]).
Proof. intros (_ & Hl & Hf & _ & Ha) Hp Hb. apply code_match. by exists p, c, a. Qed.
(** A code that ends behind the position starts behind it, with its lead. *)
Lemma code_starts_after text b0 s b1 p c a :
  text = b0 ++ s → loop_at b0 s → is_code text (b1 ++ p) c a → code_lead p → length b0 ≤ length (b1 ++ p) →
  ∃ u, b1 = b0 ++ u ∧ s = u ++ p ++ c ++ a.
Proof.
  intros Et Hat Hc Hp Hl. assert (Hle : length b0 ≤ length b1).
  { destruct Hat as [->|[(d & Hd & Hdig) Hh]]; [cbn; lia|]. destruct (decide (length b0 ≤ length b1)) as [|Hn]; [done|exfalso].
    destruct Hc as (Et' & _). rewrite length_app in Hl. rw last_lookup in Hd.
    assert (Hi : text !! pred (length b0) = Some d) by (rewrite Et lookup_app_l //; lia).
    rewrite Et' -app_assoc lookup_app_r in Hi; [|lia]. rewrite lookup_app_l in Hi; [|lia]. apply list_elem_of_lookup_2 in Hi.
    by rw (code_lead_no_digit p d) in Hdig. }
  destruct Hc as (Et' & _). rewrite Et -app_assoc in Et'. apply app_eq_inv in Et' as [(u & E1 & E2)|(u & E1 & E2)].
  - assert (u = []) as -> by (apply (f_equal length) in E1; rewrite length_app in E1; destruct u; [done|cbn in E1; lia]).
    exists []. rewrite app_nil_r in E1. rw app_nil_r. cbn in E2. by subst.
  - exists u. by subst.
Qed.
Lemma last_through (b u : jstr) : from_option Some (last b) (last u) = last (b ++ u).
Proof. rw last_app. by destruct (last u). Qed.
Section loop.
Context (text b0 s : jstr) (Et : text = b0 ++ s) (Hat : loop_at b0 s).

Lemma loop_none b c a :
  exec_from code_re (length b0) (last b0) s = None → is_code text b c a → length b0 ≤ length b → False.
Proof using Et Hat.
  intros Ex Hc Hb. destruct (lead_split b) as (b1 & p & -> & _ & Hp & Hb1); [apply Hc|].
  destruct (code_starts_after text b0 s b1 p c a) as (u & -> & Es); [done..|].
  destruct (exec_from_complete code_re (length b0) (last b0) s u (p ++ c ++ a) (Mst (last c) a [(1, c)])) as [y Hy]; [done| |congruence].
  rw last_through. by eapply code_matches.
Qed.
(** No code starts before the match that is found. *)
Lemma loop_leftmost x u p c a :
  exec_from code_re (length b0) (last b0) s = Some x → is_code text ((b0 ++ u) ++ p) c a → code_lead p → word_opt (last (b0 ++ u)) = false →
  s = u ++ p ++ c ++ a → x_index x - length b0 ≤ length u.
Proof using.
  intros Ex Hc Hp Hb Es. destruct (decide (x_index x - length b0 ≤ length u)) as [|Hn]; [done|exfalso].
  eapply (exec_from_leftmost code_re _ _ _ x u (p ++ c ++ a) (Mst (last c) a [(1, c)]) Ex); [done|lia|]. rw last_through. by eapply code_matches.
Qed.
Lemma loop_first x :
  exec_from code_re (length b0) (last b0) s = Some x →
  ∃ b c t, found text x (b, c, t) ∧ m_rest (x_end x) = t ∧ m_prev (x_end x) = last c ∧ length b0 ≤ length b ∧
    x_index x + length (x_match x) = length (b ++ c) ∧
    ∀ b' c' a', is_code text b' c' a' → length b0 ≤ length b' → (b', c', a') = (b, c, t) ∨ length (b ++ c) ≤ length b'.
Proof using Et Hat.
  intros Ex. destruct (exec_from_sound _ _ _ _ _ Ex) as (u & Es & Hi & Hpv & Hcp & Hm). destruct x as [i [pv rs cp] e]. cbn in Es, Hi, Hpv, Hcp, Hm. subst cp.
  apply code_match in Hm as (p & c & t & -> & Hp & Hl & Hd & Hw & Ht & ->). rewrite last_through in Hpv. subst pv.
  assert (Hcode : is_code text ((b0 ++ u) ++ p) c t).
  { split; [by rw Et Es -!app_assoc|]. split_and!; [lia|lia|done| |done]. destruct Hp as [->|(y & -> & Hy)]; [by rw app_nil_r|by rw last_app]. }
  assert (Hlead : lead ((b0 ++ u) ++ p) = length p).
  { destruct Hp as [->|(y & -> & Hy)]; [|by apply lead_intro]. rewrite app_nil_r in Hcode |- *.
    destruct (lead_elim (b0 ++ u)) as [|(_ & b' & y & Eb & Hy & Hb')]; [done|exfalso]. rewrite Eb in Hcode.
    destruct (code_starts_after text b0 s b' [y; 45%N] c t) as (u' & -> & Es'); [done..|right; by exists y|rewrite -Eb length_app; lia|].
    pose proof (loop_leftmost _ u' [y; 45%N] c t Ex Hcode ltac:(right; by exists y) Hb' Es') as Hle. cbn in Hle.
    apply (f_equal length) in Eb. rewrite !length_app in Eb. cbn in Eb. lia. }
  assert (Hcons : x_match (Rexec i (Mst (last (b0 ++ u)) (p ++ c ++ t) []) (Mst (last c) t [(1, c)])) = p ++ c)
    by (unfold x_match; apply consumed_spec; cbn; by rw app_assoc).
  exists ((b0 ++ u) ++ p), c, t. rewrite Hcons. cbn [x_index]. split_and!; [|done|done|rewrite !length_app; lia|rewrite !length_app; lia|].
  { split_and!; [done|done|cbn; rewrite Hlead Hi !length_app; lia|rewrite Hcons Hlead length_app; lia]. }
  intros b' c' a' Hc' Hb'. destruct (lead_split b') as (b1 & q & -> & _ & Hq & Hb1); [apply Hc'|].
  destruct (code_starts_after text b0 s b1 q c' a') as (u' & -> & Es'); [done..|].
  pose proof (loop_leftmost _ u' q c' a' Ex Hc' Hq Hb1 Es') as Hle. cbn in Hle.
  rewrite -(app_assoc (b0 ++ u)). apply (codes_apart text); [done..|]. rewrite !length_app. lia.
Qed.
End loop.
Lemma loop_codes text f : ∀ b0 s, text = b0 ++ s → length s ≤ f → loop_at b0 s →
  ∃ os, Forall2 (found text) (exec_all_go f code_re (length b0) (last b0) s) os ∧
    (∀ b c a, is_code text b c a → length b0 ≤ length b → (b, c, a) ∈ os) ∧
    StronglySorted (λ o o', length (o.1.1) < length (o'.1.1)) os ∧ Forall (λ o, length b0 ≤ length (o.1.1)) os.
Proof.
  induction f as [|f IH]; intros b0 s Et Hf Hat.
  { exists []. split_and!; [constructor| |constructor..]. intros b c a (E & Hl & _) Hb. rewrite Et in E. apply (f_equal length) in E.
    rewrite !length_app in E. lia. }
  cbn [exec_all_go]. destruct (exec_from code_re (length b0) (last b0) s) as [x|] eqn:Ex.
  2: { exists []. split_and!; [constructor| |constructor..]. intros b c a Hc Hb. by destruct (loop_none text b0 s Et Hat b c a Ex Hc Hb). }
  destruct (loop_first text b0 s Et Hat x Ex) as (b & c & t & Hfound & -> & -> & Hb & Hend & Hall).
  destruct (Hfound) as ((Eb & Hl & Hd & _ & Ht) & _). assert (Hcn : 0 < length c) by lia.
  destruct (last c) as [d|] eqn:El; [|apply last_None in El; subst c; cbn in Hcn; lia].
  assert (Elast : last (b ++ c) = Some d) by (by rw last_app El).
  destruct (IH (b ++ c) t) as (os & H1 & H2 & H3 & H4).
  { by rw Eb -app_assoc. } { rewrite Et in Eb. apply (f_equal length) in Eb. rewrite !length_app in Eb. lia. }
  { right. split; [|done]. exists d. split; [done|]. apply last_Some_elem_of in El. by apply (proj1 (Forall_forall _ _) Hd). }
  rewrite -Hend Elast in H1. exists ((b, c, t) :: os). rewrite length_app in H4. split_and!.
  - by constructor.
  - intros b' c' a' Hc' Hb'. destruct (Hall b' c' a' Hc' Hb') as [->|Hfar]; [by left|right]. by apply H2.
  - constructor; [done|]. eapply Forall_impl; [exact H4|]. cbn. intros o. lia.
  - constructor; [done|]. eapply Forall_impl; [exact H4|]. cbn. intros o. lia.
Qed.

(** *** The loop *)

Lemma window_nearby text m b c a : found text m (b, c, a) → window text m = nearby b c a.
Proof.
  intros ((-> & _) & _ & Hi & Hm). unfold window, nearby, slice. rewrite Hi Hm.
  assert (Hl : lead b ≤ length b).
  { destruct (lead_elim b) as [->|(-> & b' & x & -> & _)]; [lia|]. rewrite length_app. cbn. lia. }
  rewrite drop_app_le; [|lia]. set (d := drop _ b).
  assert (Hd : length d = length b - (length b - lead b - 32)) by apply length_drop.
  rewrite take_app_ge; [|lia]. f_equal. rewrite take_app_ge; [|lia]. do 2 f_equal. lia.
Qed.
(** What an iteration does with a code. *)
Definition pick (best : option (jstr * Z)) (code : jstr) : option (jstr * Z) :=
  match best with
  | Some (_, s) => if (s <? score code)%Z then Some (code, score code) else best
  | None => Some (code, score code)
  end.

(** How far a length is from six. *)
Definition from_six (n : nat) : nat := (n - 6) + (6 - n).
Lemma score_from_six code : 4 ≤ length code ≤ 8 → score code = (3 - Z.of_nat (from_six (length code)))%Z.
Proof.
  intros Hl. unfold score, from_six. destruct (Nat.eqb_spec (length code) 6); [lia|].
  destruct (Nat.eqb_spec (length code) 4), (Nat.eqb_spec (length code) 8); cbn [orb]; lia.
Qed.
(** One code is preferred to another if its length is nearer to six, or as near
    and it stands before it. *)
Definition preferred (before code before' code' : jstr) : Prop :=
  from_six (length code) < from_six (length code') ∨
  from_six (length code) = from_six (length code') ∧ length before ≤ length before'.
Definition choose (best : option (jstr * Z)) (o : jstr * jstr * jstr) : option (jstr * Z) :=
  let '(b, c, a) := o in if test CODE_KEYWORDS (nearby b c a) then pick best c else best.
Lemma fold_found text ms os best : Forall2 (found text) ms os → fold_left (consider text) ms best = fold_left choose os best.
Proof.
  intros Hf. revert best. induction Hf as [|m [[b c] a] ms os Hm _ IH]; intros best; [done|]. cbn [fold_left]. rw IH. f_equal.
  unfold consider, choose. rw (window_nearby _ _ _ _ _ Hm). destruct Hm as (_ & Hc & _). rw Hc. cbn [default from_option].
  by destruct (test CODE_KEYWORDS (nearby b c a)).
Qed.
Lemma fold_choose os :
  StronglySorted (λ o o' : jstr * jstr * jstr, length (o.1.1) < length (o'.1.1)) os → Forall (λ o, 4 ≤ length (o.1.2) ≤ 8) os →
  match fold_left choose os None with
  | None => ∀ b c a, (b, c, a) ∈ os → ¬ keyword_in (nearby b c a)
  | Some (code, sc) => sc = score code ∧ 4 ≤ length code ≤ 8 ∧ ∃ b a, (b, code, a) ∈ os ∧ keyword_in (nearby b code a) ∧
      ∀ b' c' a', (b', c', a') ∈ os → keyword_in (nearby b' c' a') → preferred b code b' c'
  end.
Proof.
  induction os as [|[[b c] a] os IH] using rev_ind; intros Hs Hl; [cbn; set_solver|].
  assert (Hlast : ∀ o, o ∈ os → length (o.1.1) < length b).
  { intros o Ho. eapply (StronglySorted_app_1_elem_of _ os [(b, c, a)] o (b, c, a) Hs); [done|by left]. }
  apply StronglySorted_app_1_l in Hs. apply Forall_app in Hl as [Hl Hc]. apply Forall_cons in Hc as [Hc _]. cbn in Hc.
  specialize (IH Hs Hl). rewrite fold_left_app. cbn [fold_left]. unfold choose at 1. pose proof (keywords_test (nearby b c a)) as Ht.
  destruct (test CODE_KEYWORDS (nearby b c a)).
  - destruct Ht as [Ht _]. specialize (Ht eq_refl). destruct (fold_left choose os None) as [[code sc]|]; cbn [pick].
    + destruct IH as (-> & Hcl & b0 & a0 & Hin & Hk & Hbest). destruct (Z.ltb_spec (score code) (score c)) as [Hlt|Hge].
      * rewrite !score_from_six // in Hlt. split_and!; [done|lia|lia|]. exists b, a. split_and!; [set_solver|done|].
        intros b' c' a' [Hin'|E%list_elem_of_singleton]%elem_of_app Hk'; [|simplify_eq; by right].
        destruct (Hbest b' c' a' Hin' Hk'); left; lia.
      * rewrite !score_from_six // in Hge. split_and!; [done|lia|lia|]. exists b0, a0. split_and!; [set_solver|done|].
        intros b' c' a' [Hin'|E%list_elem_of_singleton]%elem_of_app Hk'; [by eapply Hbest|]. simplify_eq.
        specialize (Hlast _ Hin). cbn in Hlast. unfold preferred. lia.
    + split_and!; [done|lia|lia|]. exists b, a. split_and!; [set_solver|done|].
      intros b' c' a' [Hin'|E%list_elem_of_singleton]%elem_of_app Hk'; [by destruct (IH b' c' a')|]. simplify_eq. by right.
  - assert (Hn : ¬ keyword_in (nearby b c a)) by (intros Hk; by apply Ht in Hk). clear Ht.
    destruct (fold_left choose os None) as [[code sc]|].
    + destruct IH as (-> & Hcl & b0 & a0 & Hin & Hk & Hbest). split_and!; [done|lia|lia|]. exists b0, a0. split_and!; [set_solver|done|].
      intros b' c' a' [Hin'|E%list_elem_of_singleton]%elem_of_app Hk'; [by eapply Hbest|]. by simplify_eq.
    + intros b' c' a' [Hin'|E%list_elem_of_singleton]%elem_of_app; [by apply (IH b' c' a')|]. by simplify_eq.
Qed.

(** C16: nothing is returned exactly when no run of four to eight digits between
    word boundaries has a keyword within 32 characters (counted from a letter
    and a dash before it, if there are); otherwise the result is such a run,
    and of all of them the one whose length is nearest to six, and of those
    the first. *)
Theorem extractVerificationCode_spec (text : jstr) :
  match extractVerificationCode text with
  | None => ∀ before code after, is_code text before code after → ¬ keyword_in (nearby before code after)
  | Some code => ∃ before after, is_code text before code after ∧ keyword_in (nearby before code after) ∧
      ∀ before' code' after', is_code text before' code' after' → keyword_in (nearby before' code' after') →
        preferred before code before' code'
  end.
Proof.
  unfold extractVerificationCode. destruct (loop_codes text (length text) [] text eq_refl ltac:(done) ltac:(by left)) as (os & Hf & Hall & Hs & _).
  assert (Hos : ∀ b c a, (b, c, a) ∈ os ↔ is_code text b c a).
  { intros b c a. split; [|intros Hc; apply Hall; [done|cbn; lia]]. intros (i & Hi)%list_elem_of_lookup.
    destruct (Forall2_lookup_r _ _ _ _ _ Hf Hi) as (m & _ & Hm & _). done. }
  assert (Hl : Forall (λ o : jstr * jstr * jstr, 4 ≤ length (o.1.2) ≤ 8) os).
  { apply Forall_forall. intros [[b c] a] Ho. apply Hos in Ho as (_ & Hl & _). exact Hl. }
  destruct (truthy text) eqn:Et; cbn [negb].
  - change (exec_all code_re text) with (exec_all_go (length text) code_re (length (@nil N)) (last []) text). rw (fold_found _ _ _ _ Hf).
    pose proof (fold_choose os Hs Hl) as Hc. destruct (fold_left choose os None) as [[code sc]|]; cbn.
    + destruct Hc as (_ & _ & b & a & Hin & Hk & Hbest). exists b, a. split_and!; [by apply Hos|done|]. intros b' c' a' Hc'. apply Hbest. by apply Hos.
    + intros b c a Hc'. apply Hc. by apply Hos.
  - intros b c a (E & Hl' & _). destruct text; [|done]. apply (f_equal length) in E. rewrite !length_app in E. cbn in E. lia.
Qed.

Lemma code_re_cap s e :
  rmatch code_re s e →
  ∃ code, cap e 1 = Some code ∧ 4 ≤ length code ≤ 8 ∧ Forall (λ c, is_digit c = true) code ∧
          ∃ u, m_rest s = u ++ code ++ m_rest e.
Proof.
  intros Hm. inversion Hm as [| |a b ? s1 ? H1 H2| | | | | | | |]; simplify_eq.
  inversion H2 as [| |a b ? s2 ? H3 H4| | | | | | | |]; simplify_eq.
  inversion H4 as [| |a b ? s3 ? H5 H6| | | | | | | |]; simplify_eq.
  inversion H6; simplify_eq. inversion H5 as [| | | | | | |i a ? s4 H7| | |]; simplify_eq.
  pose proof (rmatch_rep_cls _ _ _ _ _ H7 ltac:(lia)) as (L & F & _).
  exists (consumed s2 s4). split_and!; [done|lia|lia|done|].
  inversion H1; simplify_eq. apply rmatch_suffix in H3 as [u Hu].
  exists u. rw Hu. f_equal. by apply rmatch_consumed in H7.
Qed.

Lemma consuming_code_re : consuming code_re.
Proof.
  intros s e (code & _ & L & _ & u & ->)%code_re_cap. rw !length_app. lia.
Qed.
(** The search for codes ends because every match of the pattern consumes
    input: more fuel than the length of the text changes nothing. *)
Theorem exec_all_code_fuel (text : jstr) (n : nat) :
  length text ≤ n → exec_all_go n code_re 0 None text = exec_all code_re text.
Proof. intros Hn. apply exec_all_go_fuel; [apply consuming_code_re|done|done]. Qed.

Lemma exec_all_code_fuel_witness :
  exec_all_go 100 code_re 0 None "code 8472" = exec_all code_re "code 8472".
Proof. apply exec_all_code_fuel. vm_compute. lia. Defined.

(** The cases of the program's own test file. *)
Example extract_tests :
  (extractVerificationCode ∘ js) <$>
    ["Your verification code is 123456"; "482910 is your one-time passcode";
     "Use code 8472 to confirm your email"; "G-654321 is your Google verification code";
     "Enter OTP 5567 to continue"; "Your order #12345 has shipped"; "Meeting moved to 1430 today";
     "Invoice 2024 total due: 4500"; "no numbers here at all"; ""]%string
  = [Some (js "123456"); Some (js "482910"); Some (js "8472"); Some (js "654321"); Some (js "5567");
     None; None; None; None; None].
Proof. vm_compute. done. Qed.

End VerificationCode.
