(* ===== verification/Browser.v ===== *)
(** * The browser as the client sees it

    JSON values, HTTP requests and responses, [localStorage], and a state and
    error monad [M] in which the asynchronous code of the program is written:
    [await fetch(...)] consults the network, a function that is part of the
    world, and every externally visible action is appended to a trace.
    [M] is the sequential reading of an [async] function; the interleavings
    of several of them are step relations of the components that have them. *)

From S2P Require Import Prelude.

(** ** JSON *)

(** A finite number that JavaScript does not write as a plain integer: with a
    fraction ([0.25]), or with an exponent ([1.5e+21], [1e-7]), which it uses
    from 10^21 on and below 10^-6.  A fraction is written without zeros at its
    end, and a number with an exponent starts with a digit other than zero;
    none of these numbers is zero. *)
Inductive digit := D0 | D1 | D2 | D3 | D4 | D5 | D6 | D7 | D8 | D9.
Inductive decimal :=
| Fraction (neg : bool) (ip : N) (frac : list digit)
| Scientific (neg : bool) (d : digit) (frac : list digit) (ex : Z).
#[export] Instance digit_eq_dec : EqDecision digit.
Proof. solve_decision. Defined.
#[export] Instance decimal_eq_dec : EqDecision decimal.
Proof. solve_decision. Defined.
Definition digit_char (d : digit) : N :=
  match d with D0 => 48 | D1 => 49 | D2 => 50 | D3 => 51 | D4 => 52 | D5 => 53 | D6 => 54 | D7 => 55 | D8 => 56 | D9 => 57 end%N.
Definition sign_text (neg : bool) : jstr := if neg then "-" else [].
Definition frac_text (frac : list digit) : jstr := if decide (frac = []) then [] else 46%N :: (digit_char <$> frac).
Definition exponent_text (ex : Z) : jstr := if (ex <? 0)%Z then show ex else 43%N :: show ex.
Definition decimal_text (d : decimal) : jstr :=
  match d with
  | Fraction neg ip frac => sign_text neg ++ dec ip ++ 46%N :: (digit_char <$> frac)
  | Scientific neg d frac ex => (sign_text neg ++ digit_char d :: frac_text frac) ++ 101%N :: exponent_text ex
  end.

Inductive json : Type :=
| JNull
| JBool (b : bool)
| JNum (n : Z)
| JDec (d : decimal)
| JStr (s : jstr)
| JArr (l : list json)
| JObj (l : list (jstr * json)).
Definition json_eq_dec : EqDecision json.
Proof.
  unfold EqDecision, Decision. fix IH 1. intros a b. decide equality.
  - apply (decide (_ = _)).
  - apply (decide (_ = _)).
  - apply (decide (_ = _)).
  - apply (decide (_ = _)).
  - apply (List.list_eq_dec IH).
  - apply List.list_eq_dec. intros [k v] [k' v'].
    destruct (decide (k = k')) as [->|Hk]; [|right; congruence].
    destruct (IH v v') as [->|Hv]; [by left|right; congruence].
Defined.
#[export] Existing Instance json_eq_dec.

(** The conversion to string of template literals and of [Error]. *)
Fixpoint json_to_string (j : json) : jstr :=
  match j with
  | JNull => "null"
  | JBool true => "true"
  | JBool false => "false"
  | JNum n => show n
  | JDec d => decimal_text d
  | JStr s => s
  | JArr l => join "," ((fix go l := match l with
                                     | [] => []
                                     | JNull :: t => [] :: go t
                                     | x :: t => json_to_string x :: go t
                                     end) l)
  | JObj _ => "[object Object]"
  end.

(** Values are [option json]; [None] is [undefined]. *)
Definition json_truthy (v : option json) : bool :=
  match v with
  | None | Some JNull | Some (JBool false) | Some (JNum 0) | Some (JStr []) => false
  | Some _ => true
  end.

(** A property of a value that is neither [null] nor [undefined]. *)
Definition jfield (j : json) (key : jstr) : option json :=
  match j with JObj l => map_get l key | _ => None end.

Definition as_string (v : option json) : option jstr :=
  match v with Some (JStr s) => Some s | _ => None end.
Definition as_array (v : option json) : option (list json) :=
  match v with Some (JArr l) => Some l | _ => None end.

(** [JSON.stringify] of an object literal drops the fields that are
    [undefined]. *)
Definition jobj (l : list (jstr * option json)) : json :=
  JObj (omap (λ '(k, v), pair k <$> v) l).

(** ** HTTP *)

Record http_request := {
  rq_url : jstr;
  rq_method : jstr;
  rq_headers : list (jstr * jstr);
  rq_body : option json;
  rq_credentials : bool
}.

(** [rs_json] is what [res.json()] resolves to, [None] when it rejects. *)
Record http_response := {
  rs_status : Z;
  rs_statusText : jstr;
  rs_content_length : option jstr;
  rs_json : option json
}.

Definition rs_ok (r : http_response) : bool := (200 <=? rs_status r)%Z && (rs_status r <=? 299)%Z.

Inductive fetch_result :=
| Responded (r : http_response)
| Rejected (message : jstr).

(** ** Errors

    [ApiError] is the client's own class; every other exception the program
    sees is an [Error] with a message. *)
Inductive jserr :=
| ApiError (message : jstr) (status : Z) (data : option json)
| PlainError (message : jstr).

Definition err_message (e : jserr) : jstr :=
  match e with ApiError m _ _ => m | PlainError m => m end.
(** [err instanceof ApiError && err.status === s]. *)
Definition is_api_status (e : jserr) (s : Z) : bool :=
  match e with ApiError _ s' _ => (s' =? s)%Z | PlainError _ => false end.

(** ** Effects and the world *)

Inductive effect :=
| EFetch (r : http_request)
| ELocation (href : jstr)
| EPush (path : jstr)
| EReplace (path : jstr)
| EToastSuccess (m : jstr)
| EToastError (m : jstr)
| EInvalidate (key : jstr)
| EClipboard (text : jstr)
| EDownload (href filename : jstr)
| EHistory (url : jstr)              (* history.replaceState *)
| EBack
| EStore (action argument : jstr)    (* an action of a store, not awaited *)
| ETimeout (ms : Z).

Record browser := Browser {
  has_window : bool;                 (* typeof window !== undefined *)
  accessToken : option jstr;         (* the module variable of api.ts *)
  storage : gmap jstr jstr;          (* localStorage *)
  pathname : jstr;                   (* window.location.pathname *)
  net : nat → http_request → fetch_result;
  sent : nat;                        (* requests sent so far *)
  trace : list effect
}.

Record world (S : Type) := World { brw : browser; st : S }.
Arguments World {S} _ _.
Arguments brw {S} _.
Arguments st {S} _.

Definition M (S A : Type) : Type := world S → (jserr + A) * world S.

#[export] Instance M_ret {S} : MRet (M S) := λ A a w, (inr a, w).
#[export] Instance M_bind {S} : MBind (M S) := λ A B k m w,
  match m w with
  | (inr a, w') => k a w'
  | (inl e, w') => (inl e, w')
  end.

Section operations.
Context {S : Type}.

Definition throw {A} (e : jserr) : M S A := λ w, (inl e, w).
Definition try_catch {A} (m : M S A) (h : jserr → M S A) : M S A := λ w,
  match m w with
  | (inr a, w') => (inr a, w')
  | (inl e, w') => h e w'
  end.
(** [try { m } finally { f }]. *)
Definition try_finally {A} (m : M S A) (f : M S unit) : M S A := λ w,
  match m w with
  | (r, w') => match f w' with
               | (inr _, w'') => (r, w'')
               | (inl e, w'') => (inl e, w'')
               end
  end.
Definition get_state : M S S := λ w, (inr (st w), w).
Definition modify (f : S → S) : M S unit := λ w, (inr tt, World (brw w) (f (st w))).
Definition get_browser : M S browser := λ w, (inr (brw w), w).
Definition modify_browser (f : browser → browser) : M S unit := λ w,
  (inr tt, World (f (brw w)) (st w)).
Definition when (b : bool) (m : M S unit) : M S unit := if b then m else mret tt.

Definition log_effect (e : effect) (b : browser) : browser :=
  Browser (has_window b) (accessToken b) (storage b) (pathname b) (net b) (sent b) (trace b ++ [e]).
Definition emit (e : effect) : M S unit := modify_browser (log_effect e).
Definition count_fetch (b : browser) : browser :=
  Browser (has_window b) (accessToken b) (storage b) (pathname b) (net b) (Datatypes.S (sent b)) (trace b).
Definition with_token (t : option jstr) (b : browser) : browser :=
  Browser (has_window b) t (storage b) (pathname b) (net b) (sent b) (trace b).
Definition with_storage (f : gmap jstr jstr → gmap jstr jstr) (b : browser) : browser :=
  Browser (has_window b) (accessToken b) (f (storage b)) (pathname b) (net b) (sent b) (trace b).

(** [await fetch(url, init)]; it throws when the promise rejects. *)
Definition fetch (r : http_request) : M S http_response := λ w,
  let b := brw w in
  let w' := World (count_fetch (log_effect (EFetch r) b)) (st w) in
  match net b (sent b) r with
  | Responded res => (inr res, w')
  | Rejected m => (inl (PlainError m), w')
  end.
(** [await res.json()]. *)
Definition read_json (r : http_response) : M S json :=
  match rs_json r with
  | Some j => mret j
  | None => throw (PlainError "Unexpected end of JSON input")
  end.
(** [v.key], which throws on [undefined] and [null]. *)
Definition prop (v : option json) (key : jstr) : M S (option json) :=
  match v with
  | None => throw (PlainError ("Cannot read properties of undefined (reading '" ++ key ++ "')"))
  | Some JNull => throw (PlainError ("Cannot read properties of null (reading '" ++ key ++ "')"))
  | Some j => mret (jfield j key)
  end.
Definition storage_get (key : jstr) : M S (option jstr) := λ w, (inr (storage (brw w) !! key), w).
Definition storage_set (key v : jstr) : M S unit := modify_browser (with_storage (insert key v)).
Definition storage_remove (key : jstr) : M S unit := modify_browser (with_storage (delete key)).
End operations.

(** A program on a part of the state: an action of a store. *)
Definition zoom {S T A} (get : S → T) (put : T → S → S) (m : M T A) : M S A := λ w,
  let '(r, w') := m (World (brw w) (get (st w))) in (r, World (brw w') (put (st w') (st w))).

(** ** Relations every run of a program respects

    [preserves R m]: whatever the network answers, the world after [m] is
    related by [R] to the world before it.  For a preorder [R] this composes
    along the structure of programs. *)
Section preserves.
Context {S : Type} (R : relation (world S)) `{!PreOrder R}.

Definition preserves {A} (m : M S A) : Prop := ∀ w, R w (snd (m w)).

Lemma preserves_ret {A} (a : A) : preserves (mret a).
Proof. intros w. simpl. reflexivity. Qed.
Lemma preserves_throw {A} e : preserves (throw (A:=A) e).
Proof. intros w. simpl. reflexivity. Qed.
Lemma preserves_get_browser : preserves get_browser.
Proof. intros w. simpl. reflexivity. Qed.
Lemma preserves_get_state : preserves get_state.
Proof. intros w. simpl. reflexivity. Qed.
Lemma preserves_storage_get k : preserves (storage_get k).
Proof. intros w. simpl. reflexivity. Qed.
Lemma preserves_bind {A B} (m : M S A) (k : A → M S B) :
  preserves m → (∀ a, preserves (k a)) → preserves (m ≫= k).
Proof.
  intros Hm Hk w. unfold mbind, M_bind. specialize (Hm w).
  destruct (m w) as [[e|a] w']; simpl in *; [done|]. etrans; [done|apply Hk].
Qed.
Lemma preserves_try_catch {A} (m : M S A) h :
  preserves m → (∀ e, preserves (h e)) → preserves (try_catch m h).
Proof.
  intros Hm Hh w. unfold try_catch. specialize (Hm w).
  destruct (m w) as [[e|a] w']; simpl in *; [etrans; [done|apply Hh]|done].
Qed.
Lemma preserves_try_finally {A} (m : M S A) f :
  preserves m → preserves f → preserves (try_finally m f).
Proof.
  intros Hm Hf w. unfold try_finally. specialize (Hm w).
  destruct (m w) as [r w']; simpl in *. specialize (Hf w').
  destruct (f w') as [[e|a] w'']; simpl in *; by etrans.
Qed.
Lemma preserves_when b m : (b = true → preserves m) → preserves (when b m).
Proof. intros Hm. destruct b; [by apply Hm|apply preserves_ret]. Qed.
Lemma preserves_read_json r : preserves (read_json r).
Proof. intros w. unfold read_json. case_match; simpl; reflexivity. Qed.
Lemma preserves_prop v k : preserves (prop v k).
Proof. intros w. unfold prop. repeat case_match; simpl; reflexivity. Qed.
Lemma preserves_if {A} (b : bool) (m1 m2 : M S A) :
  preserves m1 → preserves m2 → preserves (if b then m1 else m2).
Proof. by destruct b. Qed.
(** What comes after the first call of a handler. *)
Lemma preserves_after {A B} (m : M S A) (k : A → M S B) h f w :
  (∀ a, preserves (k a)) → (∀ e, preserves (h e)) → preserves f →
  R (snd (m w)) (snd (try_finally (try_catch (m ≫= k) h) f w)).
Proof.
  intros Hk Hh Hf.
  assert (Hr : R (snd (m w)) (snd (try_catch (m ≫= k) h w))).
  { unfold try_catch, mbind, M_bind. destruct (m w) as [[e|a] w1]; cbn [snd]; [apply Hh|].
    specialize (Hk a w1). destruct (k a w1) as [[e|b] w2]; cbn [snd] in *; [etrans; [done|apply Hh]|done]. }
  unfold try_finally. destruct (try_catch _ _ w) as [r w2]. specialize (Hf w2).
  destruct (f w2) as [[e|u] w3]; cbn [snd] in *; by etrans.
Qed.
End preserves.
(** Walks through a program with the rules above; the database [frame] holds
    what is known of the operations of each component. *)
Create HintDb frame.
Ltac preserve :=
  repeat first
    [ progress intros
    | solve [auto with frame nocore]
    | apply preserves_ret; [typeclasses eauto] | apply preserves_throw; [typeclasses eauto]
    | apply preserves_get_browser; [typeclasses eauto] | apply preserves_get_state; [typeclasses eauto]
    | apply preserves_storage_get; [typeclasses eauto]
    | apply preserves_bind; [typeclasses eauto| |]
    | apply preserves_try_catch; [typeclasses eauto| |]
    | apply preserves_try_finally; [typeclasses eauto| |]
    | apply preserves_when; [typeclasses eauto|]
    | apply preserves_read_json; [typeclasses eauto] | apply preserves_prop; [typeclasses eauto]
    | apply preserves_if
    | case_match ].

(** Evaluates the monad's operations in a goal. *)
Ltac run_M :=
  unfold fetch, read_json, prop, storage_get, storage_set, storage_remove, try_catch, try_finally,
    get_browser, modify_browser, get_state, modify, when, emit, throw, mbind, mret, M_bind, M_ret;
  cbn [brw st].
Ltac step_M := cbn [brw st negb orb andb has_window with_storage with_token log_effect count_fetch].

(** Requests of a trace. *)
Definition fetches (t : list effect) : list http_request :=
  omap (λ e, match e with EFetch r => Some r | _ => None end) t.
Lemma fetches_app t u : fetches (t ++ u) = fetches t ++ fetches u.
Proof. apply omap_app. Qed.

(** ** Query strings

    [new URLSearchParams(params).toString()]: UTF-8 percent-encoding of the
    names and values, a space as a plus sign. *)

Fixpoint code_points (s : jstr) : list N :=
  match s with
  | [] => []
  | h :: t =>
      if in_range 55296 56319 h then
        match t with
        | l :: t' =>
            if in_range 56320 57343 l
            then (65536 + (h - 55296) * 1024 + (l - 56320))%N :: code_points t'
            else 65533%N :: code_points t
        | [] => [65533%N]
        end
      else if in_range 56320 57343 h then 65533%N :: code_points t
      else h :: code_points t
  end.

Definition utf8 (c : N) : list N :=
  if (c <? 128)%N then [c]
  else if (c <? 2048)%N then [192 + c / 64; 128 + c mod 64]%N
  else if (c <? 65536)%N then [224 + c / 4096; 128 + c / 64 mod 64; 128 + c mod 64]%N
  else [240 + c / 262144; 128 + c / 4096 mod 64; 128 + c / 64 mod 64; 128 + c mod 64]%N.

Definition hex_digit (n : N) : N := if (n <? 10)%N then (48 + n)%N else (55 + n)%N.
Definition percent (b : N) : jstr := [37; hex_digit (b / 16); hex_digit (b mod 16)]%N.
Definition form_unreserved (c : N) : bool := is_alnum c || bool_decide (c ∈ [42; 45; 46; 95]%N).

Definition form_encode (s : jstr) : jstr :=
  code_points s ≫= λ c,
    if (c =? 32)%N then [43%N] else if form_unreserved c then [c] else utf8 c ≫= percent.

Definition URLSearchParams (params : list (jstr * jstr)) : jstr :=
  join "&" ((λ '(k, v), form_encode k ++ "=" ++ form_encode v) <$> params).

(** [encodeURIComponent] (for strings without lone surrogates). *)
Definition uri_unreserved (c : N) : bool :=
  is_alnum c || bool_decide (c ∈ [45; 95; 46; 33; 126; 42; 39; 40; 41]%N).
Definition encodeURIComponent (s : jstr) : jstr :=
  code_points s ≫= λ c, if uri_unreserved c then [c] else utf8 c ≫= percent.

#[global] Arguments form_encode : simpl never.
#[global] Arguments URLSearchParams : simpl never.
#[global] Arguments encodeURIComponent : simpl never.

(** A browser on a page, with the network answering from a list. *)
Definition browser_on (stored : gmap jstr jstr) (path : jstr) (answers : list fetch_result) : browser :=
  Browser true None stored path (λ n _, nth n answers (Rejected "offline")) 0 [].
Definition answer (status : Z) (body : json) : fetch_result :=
  Responded {| rs_status := status; rs_statusText := []; rs_content_length := None; rs_json := Some body |}.
