(* ===== verification/Types.v ===== *)
(** * The data the client exchanges with the server: [web/src/types/index.ts]

    One record per interface; an optional field is an [option], timestamps are
    the strings the server sends, [PaginatedResponse] is polymorphic as in the
    source.  The prefix of a field is the name of its interface. *)

From S2P Require Import Prelude Browser.

Record User := {
  User_id : jstr;
  User_email : jstr;
  User_display_name : jstr;
  User_sso_provider : option jstr;
  User_is_system_admin : bool;
  User_email_verified : bool;
  User_timezone : option jstr;
  User_date_format : option jstr;
  User_time_format : option jstr;
  User_auth_method_lock : option jstr;
  User_max_sessions : option (option Z);
  User_last_login_at : option jstr;
  User_created_at : jstr;
  User_updated_at : jstr
}.

Record TokenPair := {
  TokenPair_access_token : jstr;
  TokenPair_refresh_token : option jstr;
  TokenPair_expires_in : Z
}.

Record OrgSettings := {
  OrgSettings_attachments_enabled : option bool;
  OrgSettings_default_inbox_ttl : option jstr;
  OrgSettings_max_inbox_ttl : option jstr;
  OrgSettings_max_attachment_size_mb : option Z;
  OrgSettings_max_domains : option Z;
  OrgSettings_max_teams : option Z;
  OrgSettings_max_inboxes_per_domain : option Z;
  OrgSettings_enforce_sso : option bool;
  OrgSettings_renewal_policy : option jstr;
  OrgSettings_renewal_ttl : option jstr
}.

Record Organization := {
  Organization_id : jstr;
  Organization_name : jstr;
  Organization_slug : jstr;
  Organization_logo_url : option jstr;
  Organization_settings : OrgSettings;
  Organization_created_at : jstr;
  Organization_updated_at : jstr
}.

Record TeamSettings := {
  TeamSettings_attachments_enabled : option jstr;
  TeamSettings_max_inbox_ttl : option jstr
}.

Record Team := {
  Team_id : jstr;
  Team_org_id : jstr;
  Team_name : jstr;
  Team_slug : jstr;
  Team_settings : option TeamSettings;
  Team_created_at : jstr;
  Team_member_count : Z;
  Team_domain_count : Z;
  Team_active_inboxes : Z
}.

Record DomainSettings := {
  DomainSettings_attachments_enabled : option jstr
}.

Record Domain := {
  Domain_id : jstr;
  Domain_org_id : jstr;
  Domain_domain_name : jstr;
  Domain_mx_verified : bool;
  Domain_txt_verified : bool;
  Domain_verification_record : option jstr;
  Domain_mx_target : option jstr;
  Domain_dns_last_checked_at : option jstr;
  Domain_settings : option DomainSettings;
  Domain_created_at : jstr;
  Domain_active_inboxes : Z;
  Domain_inboxes_created_count : Z;
  Domain_team_count : Z
}.

Record DomainAssignment := {
  DomainAssignment_id : jstr;
  DomainAssignment_team_id : jstr;
  DomainAssignment_domain_id : jstr;
  DomainAssignment_domain_name : option jstr;
  DomainAssignment_access_level : jstr;
  DomainAssignment_settings : list (jstr * json);
  DomainAssignment_default_ttl : option jstr;
  DomainAssignment_max_ttl : option jstr;
  DomainAssignment_created_at : jstr
}.

Record Inbox := {
  Inbox_id : jstr;
  Inbox_domain_assignment_id : jstr;
  Inbox_domain_id : jstr;
  Inbox_created_by : jstr;
  Inbox_address : jstr;
  Inbox_full_address : jstr;
  Inbox_is_active : bool;
  Inbox_expires_at : jstr;
  Inbox_created_at : jstr;
  Inbox_original_ttl : option jstr;
  Inbox_domain_name : option jstr;
  Inbox_email_count : Z;
  Inbox_unread_count : Z
}.

Record EmailSummary := {
  EmailSummary_id : jstr;
  EmailSummary_from_address : jstr;
  EmailSummary_subject : option jstr;
  EmailSummary_snippet : jstr;
  EmailSummary_has_attachments : bool;
  EmailSummary_is_read : bool;
  EmailSummary_size_bytes : Z;
  EmailSummary_received_at : jstr
}.

Record Attachment := {
  Attachment_id : jstr;
  Attachment_email_id : jstr;
  Attachment_filename : jstr;
  Attachment_content_type : jstr;
  Attachment_size_bytes : Z
}.

Record Email := {
  Email_id : jstr;
  Email_inbox_id : jstr;
  Email_from_address : jstr;
  Email_to_address : jstr;
  Email_subject : option jstr;
  Email_body_text : option jstr;
  Email_body_html : option jstr;
  Email_has_attachments : bool;
  Email_size_bytes : Z;
  Email_is_read : bool;
  Email_received_at : jstr;
  Email_attachments : option (list Attachment)
}.

Record Webhook := {
  Webhook_id : jstr;
  Webhook_team_id : jstr;
  Webhook_url : jstr;
  Webhook_events : list jstr;
  Webhook_active : bool;
  Webhook_failure_count : Z;
  Webhook_last_status : option Z;
  Webhook_last_attempt_at : option jstr;
  Webhook_created_at : jstr
}.

Record APIKey := {
  APIKey_id : jstr;
  APIKey_team_id : jstr;
  APIKey_name : jstr;
  APIKey_key_prefix : jstr;
  APIKey_description : option jstr;
  APIKey_scopes : list jstr;
  APIKey_is_active : bool;
  APIKey_allowed_ips : option (list jstr);
  APIKey_request_count : option Z;
  APIKey_last_used_at : option jstr;
  APIKey_last_used_ip : option jstr;
  APIKey_expires_at : option jstr;
  APIKey_revoked_at : option jstr;
  APIKey_created_at : jstr;
  APIKey_created_by_email : option jstr;
  APIKey_created_by_name : option jstr;
  APIKey_raw_key : option jstr
}.

Record AuditEntry := {
  AuditEntry_id : jstr;
  AuditEntry_actor_id : jstr;
  AuditEntry_actor_email : option jstr;
  AuditEntry_action : jstr;
  AuditEntry_resource_type : jstr;
  AuditEntry_resource_id : jstr;
  AuditEntry_metadata : option (list (jstr * json));
  AuditEntry_ip_address : option jstr;
  AuditEntry_created_at : jstr
}.

Record Session := {
  Session_id : jstr;
  Session_user_id : jstr;
  Session_ip_address : option jstr;
  Session_user_agent : option jstr;
  Session_sso_provider_name : option jstr;
  Session_last_used_at : jstr;
  Session_expires_at : jstr;
  Session_created_at : jstr
}.

Record PaginatedResponse (T : Type) := {
  PaginatedResponse_data : list T;
  PaginatedResponse_total : Z;
  PaginatedResponse_page : Z;
  PaginatedResponse_per_page : Z;
  PaginatedResponse_total_pages : Z
}.
Arguments Build_PaginatedResponse {T}.
Arguments PaginatedResponse_data {T} _.
Arguments PaginatedResponse_total {T} _.
Arguments PaginatedResponse_page {T} _.
Arguments PaginatedResponse_per_page {T} _.
Arguments PaginatedResponse_total_pages {T} _.

Record Membership := {
  Membership_id : jstr;
  Membership_user_id : jstr;
  Membership_role : jstr;
  Membership_email : option jstr;
  Membership_display_name : option jstr;
  Membership_created_at : jstr;
  Membership_last_login_at : option jstr
}.

Record SenderDomain := {
  SenderDomain_domain : jstr;
  SenderDomain_count : Z
}.

Record AnalyticsStats := {
  AnalyticsStats_total_inboxes : Z;
  AnalyticsStats_active_inboxes : Z;
  AnalyticsStats_total_emails : Z;
  AnalyticsStats_total_domains : Z;
  AnalyticsStats_total_teams : option Z;
  AnalyticsStats_total_members : option Z;
  AnalyticsStats_storage_used_bytes : option Z;
  AnalyticsStats_top_sender_domains : option (list SenderDomain);
  AnalyticsStats_total_emails_received : option Z;
  AnalyticsStats_total_inboxes_created : option Z;
  AnalyticsStats_total_storage_bytes : option Z
}.

Record EmailsPerDay := {
  EmailsPerDay_date : jstr;
  EmailsPerDay_count : Z
}.

Record SystemStats := {
  SystemStats_total_users : Z;
  SystemStats_total_teams : Z;
  SystemStats_total_emails : Z;
  SystemStats_total_inboxes : Z;
  SystemStats_total_domains : Z;
  SystemStats_active_inboxes : Z;
  SystemStats_total_sessions : Z;
  SystemStats_total_inboxes_created : Z;
  SystemStats_storage_used_bytes : Z;
  SystemStats_total_webhooks : Z;
  SystemStats_total_api_keys : Z
}.

Record InviteTeamAssignment := {
  InviteTeamAssignment_team_id : jstr;
  InviteTeamAssignment_team_name : jstr;
  InviteTeamAssignment_team_role : jstr
}.

Record Invite := {
  Invite_id : jstr;
  Invite_org_id : jstr;
  Invite_email : jstr;
  Invite_org_role : jstr;
  Invite_allowed_auth : option (list jstr);
  Invite_team_id : option jstr;
  Invite_team_name : option jstr;
  Invite_team_role : option jstr;
  Invite_team_assignments : option (list InviteTeamAssignment);
  Invite_expires_at : jstr;
  Invite_created_at : jstr
}.

