(* ===== verification/ApiClient.v ===== *)
(** * The API client: [web/src/lib/api.ts]

    [request] is the one function every call of the application goes through:
    it attaches the access token, refreshes an expired session once, retries
    once, and turns failures into [ApiError].  The first part gives its
    sequential reading in [M] and what it promises; the second part, module
    [Refresh], is the interleaving of concurrent requests on the shared
    [refreshPromise] as a step relation. *)

From S2P Require Import Prelude Regex Browser.

(** Build-time configuration, [process.env.NEXT_PUBLIC_*]. *)
Class AppEnv := {
  NEXT_PUBLIC_API_URL : option jstr;
  NEXT_PUBLIC_WS_URL : option jstr;
  NEXT_PUBLIC_SITE_URL : option jstr
}.

Section client.
Context `{!AppEnv}.

Definition API_BASE : jstr := jor (default [] NEXT_PUBLIC_API_URL) "http://localhost:8080/api/v1".
Definition WS_BASE : jstr := jor (default [] NEXT_PUBLIC_WS_URL) "ws://localhost:8080/api/v1/ws".
(** [API_BASE.replace(/\/api\/v1\/?$/, )] with an empty replacement. *)
Definition API_ORIGIN : jstr :=
  remove_first (rseq [rlit "/api/v1"; ropt (rchar 47); REnd]) API_BASE.

Definition SESSION_HINT_KEY : jstr := "bb_has_session".
Definition LEGACY_KEY : jstr := "refresh_token".

Section ops.
Context {S : Type}.

Definition setSessionHint (on : bool) : M S unit :=
  b ← get_browser;
  if negb (has_window b) then mret tt
  else if on then storage_set SESSION_HINT_KEY "1" else storage_remove SESSION_HINT_KEY.

Definition has_session (b : browser) : bool :=
  if negb (has_window b) then false
  else bool_decide (storage b !! SESSION_HINT_KEY = Some (js "1"))
       || bool_decide (storage b !! LEGACY_KEY ≠ None).
Definition hasSession : M S bool := b ← get_browser; mret (has_session b).

Definition clearSessionState : M S unit :=
  modify_browser (with_token None);;
  b ← get_browser;
  if negb (has_window b) then mret tt
  else storage_remove LEGACY_KEY;; storage_remove SESSION_HINT_KEY.

Definition getAccessToken : M S (option jstr) := b ← get_browser; mret (accessToken b).
Definition setAccessToken (token : option jstr) : M S unit := modify_browser (with_token token).

(** What a JSON value is as an access token: the program only tests it for
    truth and interpolates it into a header. *)
Definition token_of (v : option json) : option jstr :=
  if json_truthy v then json_to_string <$> v else None.

Record RequestOptions := {
  o_method : jstr;
  o_headers : list (jstr * jstr);
  o_body : option json;
  o_params : option (list (jstr * jstr))
}.

Definition publicPrefixes : list jstr :=
  js <$> ["/login"; "/register"; "/invite"; "/setup"; "/onboarding"; "/verify-email";
          "/forgot-password"; "/reset-password"]%string.

(** The request that goes out: URL with query, headers, credentials. *)
Definition build_request (path : jstr) (opts : RequestOptions) (token : option jstr) : http_request := {|
  rq_url := API_BASE ++ path ++
    match o_params opts with Some params => "?" ++ URLSearchParams params | None => [] end;
  rq_method := o_method opts;
  rq_headers :=
    let h0 := o_headers opts in
    let h1 := if o_body opts then map_set h0 (js "Content-Type") (js "application/json") else h0 in
    if otruthy token then map_set h1 (js "Authorization") ("Bearer " ++ default [] token) else h1;
  rq_body := o_body opts;
  rq_credentials := startsWith path "/auth/" || startsWith path "/setup/"
|}.

Definition refresh_request (legacyToken : option jstr) : http_request := {|
  rq_url := API_BASE ++ "/auth/refresh";
  rq_method := "POST";
  rq_headers := [(js "Content-Type", js "application/json")];
  rq_body := Some (if otruthy legacyToken
                   then JObj [(js "refresh_token", JStr (default [] legacyToken));
                              (js "use_cookie", JBool true)]
                   else JObj [(js "use_cookie", JBool true)]);
  rq_credentials := true
|}.

(** The body of the promise shared by concurrent refreshes. *)
Definition refresh_body : M S bool :=
  b ← get_browser;
  if negb (has_window b) then mret false
  else
    legacyToken ← storage_get LEGACY_KEY;
    hint ← storage_get SESSION_HINT_KEY;
    if negb (otruthy legacyToken) && bool_decide (hint ≠ Some (js "1")) then mret false
    else
      try_catch
        (res ← fetch (refresh_request legacyToken);
         if negb (rs_ok res) then mret false
         else
           data ← read_json res;
           t ← prop (Some data) "access_token";
           setAccessToken (token_of t);;
           storage_remove LEGACY_KEY;;
           setSessionHint true;;
           mret true)
        (λ _, mret false).

(** Alone, [tryRefresh] runs the body and forgets the promise. *)
Definition tryRefresh : M S bool := refresh_body.

Definition is_public (p : jstr) : bool := existsb (startsWith p) publicPrefixes.

(** The session cannot be renewed: forget it and leave protected pages. *)
Definition expire_session : M S (option json) :=
  b ← get_browser;
  when (has_window b)
    (clearSessionState;;
     when (negb (is_public (pathname b))) (emit (ELocation "/login")));;
  throw (ApiError "session expired" 401 None).

(** What is done with a response that does not lead to a refresh. *)
Definition finish (res : http_response) : M S (option json) :=
  if negb (rs_ok res) then
    body ← mret (default (JObj [(js "error", JStr (rs_statusText res))]) (rs_json res));
    e ← prop (Some body) "error";
    throw (ApiError (if json_truthy e then default [] (json_to_string <$> e) else rs_statusText res)
                    (rs_status res) (Some body))
  else if (rs_status res =? 204)%Z || bool_decide (rs_content_length res = Some (js "0"))
  then mret None
  else j ← read_json res; mret (Some j).

(** [fuel] bounds the recursion of [request] into itself; [request_fuel_enough]
    below shows that two levels are all it takes. *)
Fixpoint request_fuel (fuel : nat) (path : jstr) (opts : RequestOptions) (retry : bool)
    : M S (option json) :=
  match fuel with
  | O => throw (PlainError "unreachable")
  | Datatypes.S fuel' =>
      token ← getAccessToken;
      res ← fetch (build_request path opts token);
      if (rs_status res =? 401)%Z && negb retry then
        refreshed ← tryRefresh;
        if (refreshed : bool) then request_fuel fuel' path opts true
        else expire_session
      else finish res
  end.
Definition request (path : jstr) (opts : RequestOptions) : M S (option json) :=
  request_fuel 2 path opts false.

Definition api_get (path : jstr) (params : option (list (jstr * jstr))) : M S (option json) :=
  request path {| o_method := "GET"; o_headers := []; o_body := None; o_params := params |}.
Definition api_send (method path : jstr) (body : option json) : M S (option json) :=
  request path {| o_method := method; o_headers := []; o_body := body; o_params := None |}.
Definition api_post := api_send "POST".
Definition api_patch := api_send "PATCH".
Definition api_put := api_send "PUT".
Definition api_del := api_send "DELETE".

Definition getWsTicket : M S (option json) :=
  r ← api_post "/ws/ticket" None;
  prop r "ticket".

(** The demo endpoints use plain [fetch] and never throw. *)
Definition plain_request (method : jstr) (path : jstr) : http_request := {|
  rq_url := API_BASE ++ path; rq_method := method; rq_headers := []; rq_body := None;
  rq_credentials := false |}.

Definition tryGetStatus : M S bool :=
  try_catch
    (res ← fetch (plain_request "GET" "/try/status");
     if negb (rs_ok res) then mret false
     else
       data ← read_json res;
       e ← prop (Some data) "enabled";
       mret (match e with Some (JBool true) => true | _ => false end))
    (λ _, mret false).

Definition tryCreateInbox : M S (option json) :=
  try_catch
    (res ← fetch (plain_request "POST" "/try/inbox");
     if negb (rs_ok res) then mret None
     else
       j ← read_json res;
       mret (match j with JNull => None | _ => Some j end))
    (λ _, mret None).

Definition tryGetEmails (inboxId : jstr) : M S (option json) :=
  try_catch
    (res ← fetch (plain_request "GET" ("/try/inbox/" ++ encodeURIComponent inboxId ++ "/emails"));
     if negb (rs_ok res) then mret None
     else
       data ← read_json res;
       e ← prop (Some data) "emails";
       mret (Some (match e with None | Some JNull => JArr [] | Some v => v end)))
    (λ _, mret None).

(** ** What the client promises *)

(** The world after a request was sent. *)
Definition after_fetch (r : http_request) (w : world S) : world S :=
  World (count_fetch (log_effect (EFetch r) (brw w))) (st w).

(** The world after a successful refresh: new token, the legacy token retired,
    the hint set. *)
Definition renewed (token : option jstr) (w : world S) : world S :=
  World (with_storage (insert SESSION_HINT_KEY (js "1"))
          (with_storage (delete LEGACY_KEY) (with_token token (brw w)))) (st w).

(** The world after the session was given up. *)
Definition expired (w : world S) : world S :=
  if has_window (brw w) then
    let b := with_storage (delete SESSION_HINT_KEY)
               (with_storage (delete LEGACY_KEY) (with_token None (brw w))) in
    World (if is_public (pathname (brw w)) then b else log_effect (ELocation "/login") b) (st w)
  else w.

Definition refresh_answer (res : http_response) : option json :=
  if rs_ok res then match rs_json res with Some JNull => None | j => j end else None.

Lemma refresh_body_eq (w : world S) :
  refresh_body w =
  let legacy := storage (brw w) !! LEGACY_KEY in
  if negb (has_window (brw w)) ||
     (negb (otruthy legacy) && bool_decide (storage (brw w) !! SESSION_HINT_KEY ≠ Some (js "1")))
  then (inr false, w)
  else
    let w1 := after_fetch (refresh_request legacy) w in
    match net (brw w) (sent (brw w)) (refresh_request legacy) with
    | Rejected _ => (inr false, w1)
    | Responded res =>
        match refresh_answer res with
        | Some data => (inr true, renewed (token_of (jfield data "access_token")) w1)
        | None => (inr false, w1)
        end
    end.
Proof.
  destruct w as [b s]. unfold refresh_body, refresh_answer, setSessionHint, setAccessToken. run_M.
  destruct (has_window b) eqn:Hw; [|done]. step_M.
  destruct (negb _ && _); [done|]. step_M. destruct (net b (sent b) _) as [res|m]; [|done].
  destruct (rs_ok res); [|done]. step_M.
  destruct (rs_json res) as [[]|]; step_M; rw ?Hw //.
Qed.

(** A refresh never throws. *)
Lemma refresh_body_total (w : world S) e w' : refresh_body w ≠ (inl e, w').
Proof. rw refresh_body_eq. cbv zeta. repeat case_match; congruence. Qed.

Lemma expire_session_eq (w : world S) :
  expire_session w = (inl (ApiError "session expired" 401 None), expired w).
Proof.
  destruct w as [b s]. unfold expire_session, expired, clearSessionState. run_M.
  destruct (has_window b) eqn:Hw; step_M; [|done]. rw Hw. step_M.
  by destruct (is_public (pathname b)).
Qed.

(** *** A run of [request] touches the session and nothing else *)

(** The refresh token of pre-cookie sessions is never written, only retired;
    other storage, the page state and the environment stay as they are, and
    the trace only grows. *)
Record session_frame (w w' : world S) : Prop := {
  sf_state : st w' = st w;
  sf_window : has_window (brw w') = has_window (brw w);
  sf_path : pathname (brw w') = pathname (brw w);
  sf_net : net (brw w') = net (brw w);
  sf_storage k : k ≠ LEGACY_KEY → k ≠ SESSION_HINT_KEY → storage (brw w') !! k = storage (brw w) !! k;
  sf_legacy : storage (brw w') !! LEGACY_KEY = None ∨
              storage (brw w') !! LEGACY_KEY = storage (brw w) !! LEGACY_KEY;
  sf_trace : ∃ l, trace (brw w') = trace (brw w) ++ l
}.

#[export] Instance session_frame_preorder : PreOrder session_frame.
Proof.
  split.
  - intros w. split; auto. exists []. by rw app_nil_r.
  - intros w1 w2 w3 [A1 A2 A3 A4 A5 A6 [l1 A7]] [B1 B2 B3 B4 B5 B6 [l2 B7]].
    split; try congruence.
    + intros k Hk Hk'. by rw B5 // A5.
    + destruct A6, B6; first [left; congruence|right; congruence].
    + rw B7 A7 -app_assoc. eauto.
Qed.

Lemma session_frame_fetch r : preserves session_frame (fetch r).
Proof.
  intros w. unfold fetch. case_match; simpl; split; simpl; eauto.
Qed.
Lemma session_frame_emit e : preserves session_frame (emit e).
Proof. intros w. split; simpl; eauto. Qed.
Lemma session_frame_token t : preserves session_frame (setAccessToken t).
Proof. intros w. split; simpl; eauto. exists []. by rw app_nil_r. Qed.
Lemma session_frame_with_token t : preserves session_frame (modify_browser (with_token t)).
Proof. apply session_frame_token. Qed.
Lemma session_frame_storage f :
  (∀ m k, k ≠ LEGACY_KEY → k ≠ SESSION_HINT_KEY → f m !! k = m !! k) →
  (∀ m, f m !! LEGACY_KEY = None ∨ f m !! LEGACY_KEY = m !! LEGACY_KEY) →
  preserves session_frame (modify_browser (with_storage f)).
Proof. intros Hf Hl w. split; simpl; auto. exists []. by rw app_nil_r. Qed.
Lemma session_frame_remove_legacy : preserves session_frame (storage_remove LEGACY_KEY).
Proof.
  apply session_frame_storage; intros m; [intros k Hk _; by rw lookup_delete_ne|].
  left. apply lookup_delete_eq.
Qed.
Lemma session_frame_remove_hint : preserves session_frame (storage_remove SESSION_HINT_KEY).
Proof.
  apply session_frame_storage; intros m; [intros k _ Hk; by rw lookup_delete_ne|].
  right. by apply lookup_delete_ne.
Qed.
Lemma session_frame_set_hint v : preserves session_frame (storage_set SESSION_HINT_KEY v).
Proof.
  apply session_frame_storage; intros m; [intros k _ Hk; by rw lookup_insert_ne|].
  right. by apply lookup_insert_ne.
Qed.
Hint Resolve session_frame_fetch session_frame_emit session_frame_token session_frame_with_token
  session_frame_remove_legacy session_frame_remove_hint session_frame_set_hint : frame.

Lemma session_frame_setSessionHint b : preserves session_frame (setSessionHint b).
Proof. unfold setSessionHint. preserve. Qed.
Hint Resolve session_frame_setSessionHint : frame.
Lemma session_frame_refresh : preserves session_frame refresh_body.
Proof. unfold refresh_body. preserve. Qed.
Lemma session_frame_clear : preserves session_frame clearSessionState.
Proof. unfold clearSessionState. preserve. Qed.
Hint Resolve session_frame_refresh session_frame_clear : frame.
Lemma session_frame_expire : preserves session_frame expire_session.
Proof. unfold expire_session. preserve. Qed.
Lemma session_frame_finish res : preserves session_frame (finish res).
Proof. unfold finish. preserve. Qed.
Hint Resolve session_frame_expire session_frame_finish : frame.
Lemma session_frame_request_fuel n path opts retry :
  preserves session_frame (request_fuel n path opts retry).
Proof.
  revert retry; induction n as [|n IH]; intros retry; simpl; unfold getAccessToken, tryRefresh;
    preserve; apply IH.
Qed.

Lemma session_frame_request path opts : preserves session_frame (request path opts).
Proof. apply session_frame_request_fuel. Qed.

(** C4: whatever the server answers, a call through the client never writes a
    refresh token to script-readable storage, leaves all other storage keys
    and the caller's state untouched, and only appends to the trace. *)
Theorem request_session_frame (path : jstr) (opts : RequestOptions) (w : world S) :
  session_frame w (snd (request path opts w)).
Proof. apply session_frame_request. Qed.

(** *** Fetch budget and termination *)

(** Recursion of [request] into itself stops at the first retry: any fuel
    from two on gives the same run. *)
Theorem request_fuel_enough (n : nat) (path : jstr) (opts : RequestOptions) (w : world S) :
  request_fuel (2 + n) path opts false w = request path opts w.
Proof.
  unfold request. cbn [request_fuel Nat.add]. unfold getAccessToken. run_M.
  destruct (net _ _ _) as [res|m]; [|done]. destruct (rs_status res =? 401)%Z; step_M; [|done].
  destruct (tryRefresh _) as [[e|[]] w']; try done.
  destruct (net _ _ _) as [res'|m]; [|done]. by rw andb_false_r.
Qed.

(** The result of [finish], which leaves the world as it is. *)
Lemma finish_pure res (w w0 : world S) : finish res w = (fst (finish res w0), w).
Proof.
  unfold finish. run_M. destruct (rs_ok res); step_M.
  - case_match; [done|]. by destruct (rs_json res).
  - by destruct (default _ _).
Qed.

(** The whole behaviour of [request], response by response. *)
Lemma request_eq path opts (w : world S) :
  request path opts w =
  let r1 := build_request path opts (accessToken (brw w)) in
  let w1 := after_fetch r1 w in
  match net (brw w) (sent (brw w)) r1 with
  | Rejected m => (inl (PlainError m), w1)
  | Responded res =>
      if negb (rs_status res =? 401)%Z then finish res w1
      else match refresh_body w1 with
           | (inr true, w2) =>
               let r2 := build_request path opts (accessToken (brw w2)) in
               match net (brw w2) (sent (brw w2)) r2 with
               | Rejected m => (inl (PlainError m), after_fetch r2 w2)
               | Responded res' => finish res' (after_fetch r2 w2)
               end
           | (_, w2) => (inl (ApiError "session expired" 401 None), expired w2)
           end
  end.
Proof.
  unfold request. cbn [request_fuel]. unfold getAccessToken, tryRefresh. run_M.
  destruct (net _ _ _) as [res|m]; [|done]. destruct (rs_status res =? 401)%Z; step_M; [|done].
  fold (after_fetch (build_request path opts (accessToken (brw w))) w).
  destruct (refresh_body _) as [[e|[]] w'] eqn:E; step_M.
  - by apply refresh_body_total in E.
  - destruct (net _ _ _) as [res'|m]; [|done]. by rw andb_false_r.
  - apply expire_session_eq.
Qed.

Definition sent_requests (w : world S) : list http_request := fetches (trace (brw w)).

Lemma sent_after_fetch r (w : world S) : sent_requests (after_fetch r w) = sent_requests w ++ [r].
Proof. unfold sent_requests, after_fetch; simpl. apply fetches_app. Qed.
Lemma sent_expired (w : world S) : sent_requests (expired w) = sent_requests w.
Proof.
  unfold sent_requests, expired. destruct (has_window (brw w)), (is_public (pathname (brw w))); try done.
  simpl. by rw fetches_app app_nil_r.
Qed.
Lemma sent_renewed t (w : world S) : sent_requests (renewed t w) = sent_requests w.
Proof. done. Qed.

Lemma sent_refresh (w : world S) r w' :
  refresh_body w = (r, w') →
  sent_requests w' = sent_requests w ++ [refresh_request (storage (brw w) !! LEGACY_KEY)] ∨
  (r = inr false ∧ w' = w).
Proof.
  rw refresh_body_eq. cbv zeta. repeat case_match; intros [= <- <-];
    rw ?sent_renewed ?sent_after_fetch; auto.
Qed.

Lemma sent_finish res (w : world S) : sent_requests (snd (finish res w)) = sent_requests w.
Proof. by rw (finish_pure res w w). Qed.

(** What a call sends. *)
Lemma request_sends (path : jstr) (opts : RequestOptions) (w : world S) :
  let main := build_request path opts (accessToken (brw w)) in
  let refresh := refresh_request (storage (brw w) !! LEGACY_KEY) in
  ∃ l, sent_requests (snd (request path opts w)) = sent_requests w ++ l ∧
    (l = [main] ∨ l = [main; refresh] ∨ ∃ token, l = [main; refresh; build_request path opts token]) ∧
    (∀ res, net (brw w) (sent (brw w)) main = Responded res → rs_status res ≠ 401%Z → l = [main]).
Proof.
  intros main refresh. rw request_eq. cbv zeta. fold main.
  destruct (net _ _ main) as [res|m] eqn:E1; cbn [snd].
  2: { exists [main]. rw sent_after_fetch. split_and!; [done|by left|done]. }
  destruct (Z.eqb_spec (rs_status res) 401) as [E401|E401]; cbn [negb].
  2: { exists [main]. rw sent_finish sent_after_fetch. split_and!; [done|by left|done]. }
  destruct (refresh_body (after_fetch main w)) as [r w2] eqn:E2.
  assert (Hr : sent_requests w2 = sent_requests w ++ [main; refresh] ∨
    (r = inr false ∧ w2 = after_fetch main w)).
  { apply sent_refresh in E2 as [->|]; [left|by right]. by rw sent_after_fetch -app_assoc. }
  destruct r as [e|[]]; [by apply refresh_body_total in E2| |].
  - destruct Hr as [Hr|[? _]]; [|done].
    assert (Hl : ∀ w', sent_requests w' = sent_requests w2 ++ [build_request path opts (accessToken (brw w2))] →
      sent_requests w' = sent_requests w ++ [main; refresh; build_request path opts (accessToken (brw w2))]).
    { intros w' ->. by rw Hr -app_assoc. }
    exists [main; refresh; build_request path opts (accessToken (brw w2))].
    split_and!; [|naive_solver|naive_solver].
    apply Hl. destruct (net (brw w2) _ _); cbn [snd]; rw ?sent_finish sent_after_fetch //.
  - cbn [snd]. rw sent_expired. destruct Hr as [->|[_ ->]].
    + exists [main; refresh]. split_and!; [done|naive_solver|naive_solver].
    + exists [main]. rw sent_after_fetch. split_and!; [done|by left|done].
Qed.

(** The first request of a call through the client is the call itself. *)
Lemma request_sends_first path opts (w : world S) :
  ∃ rest, sent_requests (snd (request path opts w)) =
          sent_requests w ++ build_request path opts (accessToken (brw w)) :: rest.
Proof.
  destruct (request_sends path opts w) as (l & -> & Hl & _).
  destruct Hl as [->|[->|[tok ->]]]; eauto.
Qed.

(** The session that [tryRefresh] asks for before it sends anything. *)
Definition may_refresh (b : browser) : Prop :=
  has_window b = true ∧ (otruthy (storage b !! LEGACY_KEY) = true ∨ storage b !! SESSION_HINT_KEY = Some (js "1")).
#[export] Instance may_refresh_dec b : Decision (may_refresh b).
Proof. unfold may_refresh. apply _. Defined.
(** The retry of a call after an answer to the refresh, if there is one. *)
Definition retry_after (path : jstr) (opts : RequestOptions) (answer : fetch_result) : list http_request :=
  match answer with
  | Responded res => match refresh_answer res with Some data => [build_request path opts (token_of (jfield data "access_token"))] | None => [] end
  | Rejected _ => []
  end.
Lemma request_list (path : jstr) (opts : RequestOptions) (w : world S) :
  let main := build_request path opts (accessToken (brw w)) in
  let refresh := refresh_request (storage (brw w) !! LEGACY_KEY) in
  sent_requests (snd (request path opts w)) = sent_requests w ++ main ::
    match net (brw w) (sent (brw w)) main with
    | Responded res =>
        if (rs_status res =? 401)%Z && bool_decide (may_refresh (brw w))
        then refresh :: retry_after path opts (net (brw w) (Datatypes.S (sent (brw w))) refresh) else []
    | Rejected _ => []
    end.
Proof.
  intros main refresh. rw request_eq. cbv zeta. fold main. destruct (net _ _ main) as [res|m]; cbn [snd]; [|by rw sent_after_fetch].
  destruct (rs_status res =? 401)%Z; cbn [negb andb]; [|by rw sent_finish sent_after_fetch].
  rw refresh_body_eq. cbv zeta. cbn [after_fetch brw has_window storage count_fetch log_effect net sent].
  rw (_ : negb (has_window (brw w)) || _ = negb (bool_decide (may_refresh (brw w)))).
  2: { apply eq_true_iff_eq. rw negb_true_iff bool_decide_eq_false orb_true_iff andb_true_iff !negb_true_iff bool_decide_eq_true -!not_true_iff_false.
       unfold may_refresh. destruct (decide (storage (brw w) !! SESSION_HINT_KEY = Some (js "1"))), (otruthy (storage (brw w) !! LEGACY_KEY)), (has_window (brw w)); naive_solver. }
  destruct (bool_decide (may_refresh (brw w))); cbn [negb]; [|cbn [snd]; by rw sent_expired sent_after_fetch].
  fold refresh. unfold retry_after. destruct (net _ (Datatypes.S _) refresh) as [res'|m]; [destruct (refresh_answer res') as [data|]|]; cbn [snd].
  - destruct (net _ _ _); cbn [snd]; rw ?sent_finish !sent_after_fetch sent_renewed !sent_after_fetch -!app_assoc //.
  - rw sent_expired !sent_after_fetch -app_assoc //.
  - rw sent_expired !sent_after_fetch -app_assoc //.
Qed.

(** C5: a call makes one to three network requests.  The second, a refresh, is
    made exactly if the server answered 401 in a browser in which a session
    plausibly exists; the third, the call once more, exactly if then the
    refresh succeeded, and it carries the token that came with it. *)
Theorem request_fetch_budget (path : jstr) (opts : RequestOptions) (w : world S) :
  let main := build_request path opts (accessToken (brw w)) in
  let refresh := refresh_request (storage (brw w) !! LEGACY_KEY) in
  ∃ l, sent_requests (snd (request path opts w)) = sent_requests w ++ l ∧
    (l = [main] ∨ l = [main; refresh] ∨ ∃ token, l = [main; refresh; build_request path opts token]) ∧
    (2 ≤ length l ↔ (∃ res, net (brw w) (sent (brw w)) main = Responded res ∧ rs_status res = 401%Z) ∧
       has_window (brw w) = true ∧ (otruthy (storage (brw w) !! LEGACY_KEY) = true ∨ storage (brw w) !! SESSION_HINT_KEY = Some (js "1"))) ∧
    (∀ r, l = [main; refresh; r] ↔ 2 ≤ length l ∧ ∃ res data,
       net (brw w) (Datatypes.S (sent (brw w))) refresh = Responded res ∧ rs_ok res = true ∧ rs_json res = Some data ∧ data ≠ JNull ∧
       r = build_request path opts (token_of (jfield data "access_token"))).
Proof.
  intros main refresh. pose proof (request_list path opts w) as E. cbv zeta in E. fold main refresh in E. eexists. split; [exact E|]. clear E.
  destruct (net _ _ main) as [res|m]; [destruct (Z.eqb_spec (rs_status res) 401)|]; cbn [andb].
  2,3: split; [by left|]; split; [|intros r]; (split; [cbn; try lia; done|]); [intros ((? & [= <-] & ?) & _)||intros ((? & ? & _) & _)|intros [Hl _]; cbn in Hl; lia]; done.
  change (has_window (brw w) = true ∧ _) with (may_refresh (brw w)). case_bool_decide as Hm.
  2: { split; [by left|]. split; [split; [cbn; lia|by intros [_ ?]]|]. intros r. split; [done|]. intros [Hl _]. cbn in Hl. lia. }
  unfold retry_after, refresh_answer. split; [|split].
  - destruct (net _ _ refresh) as [res'|]; [repeat case_match|]; eauto 6.
  - split; [by eauto|]. intros _. cbn. lia.
  - intros r. split.
    + destruct (net _ _ refresh) as [res'|]; [|done]. destruct (rs_ok res') eqn:Hok; [|done]. destruct (rs_json res') as [d|] eqn:Hd; [|done].
      intros Hr. split; [cbn; lia|]. exists res', d. by destruct d; simplify_eq.
    + intros (_ & res' & d & -> & -> & -> & Hd & ->). by destruct d.
Qed.

(** A refresh that fails has done nothing but to ask. *)
Lemma refresh_failed_trace (w w2 : world S) : refresh_body w = (inr false, w2) → ∃ l, trace (brw w2) = trace (brw w) ++ (EFetch <$> l).
Proof.
  rw refresh_body_eq. cbv zeta. destruct (_ || _); [intros [= <-]; exists []; by rw app_nil_r|].
  destruct (net _ _ _) as [res|m]; [destruct (refresh_answer res)|]; intros [= <-]; by eexists [_].
Qed.
(** C6: when the server answers 401 and the session cannot be renewed, the
    call fails with a session-expired error, no token and no session marker
    is left, and the browser is sent to the login page if the page is not
    public and nowhere if it is. *)
Theorem request_session_expired (path : jstr) (opts : RequestOptions) (w : world S) res w2 :
  has_window (brw w) = true →
  net (brw w) (sent (brw w)) (build_request path opts (accessToken (brw w))) = Responded res →
  rs_status res = 401%Z →
  refresh_body (after_fetch (build_request path opts (accessToken (brw w))) w) = (inr false, w2) →
  let '(r, w') := request path opts w in
  r = inl (ApiError "session expired" 401 None) ∧
  accessToken (brw w') = None ∧ has_session (brw w') = false ∧
  ∃ l, trace (brw w') = trace (brw w) ++ (EFetch <$> l) ++ (if is_public (pathname (brw w)) then [] else [ELocation "/login"]).
Proof.
  intros Hw Hn H401 Hr. rw request_eq. cbv zeta. rw Hn H401 Hr. cbn [negb Z.eqb Pos.eqb].
  destruct (refresh_failed_trace _ _ Hr) as [l Hl]. cbn [after_fetch brw trace count_fetch log_effect] in Hl.
  pose proof (session_frame_refresh (after_fetch (build_request path opts (accessToken (brw w))) w)) as F.
  rw Hr in F. destruct F as [_ Fw Fp _ _ _ _]. cbn in Fw, Fp. unfold expired.
  rw Fw Hw Fp. destruct (is_public (pathname (brw w))); cbn [brw]; split_and!; try done.
  - unfold has_session. cbn. rw Fw Hw. cbn. by rw lookup_delete_eq lookup_delete_ne // lookup_delete_eq.
  - eexists (_ :: l). cbn. rw Hl app_nil_r -app_assoc //.
  - unfold has_session. cbn. rw Fw Hw. cbn. by rw lookup_delete_eq lookup_delete_ne // lookup_delete_eq.
  - eexists (_ :: l). cbn. rw Hl -!app_assoc //.
Qed.

(** A successful refresh installs the new access token, retires the legacy
    refresh token and records the session hint. *)
Theorem refresh_success_state (w w' : world S) :
  refresh_body w = (inr true, w') →
  storage (brw w') !! LEGACY_KEY = None ∧ has_session (brw w') = true ∧
  ∃ n r data res, net (brw w) n r = Responded res ∧ rs_ok res = true ∧ rs_json res = Some data ∧
    accessToken (brw w') = token_of (jfield data "access_token").
Proof.
  rw refresh_body_eq. cbv zeta. destruct (has_window (brw w)) eqn:Hw; [|done].
  destruct (negb _ && _); [done|]. cbn [orb negb].
  destruct (net _ _ _) as [res|m] eqn:En; [|done].
  destruct (refresh_answer res) as [data|] eqn:Ea; [|done]. intros [= <-].
  split_and!; cbn.
  - rw lookup_insert_ne // lookup_delete_eq //.
  - unfold has_session; cbn. rw Hw. cbn. by rw lookup_insert_eq.
  - unfold refresh_answer in Ea. destruct (rs_ok res) eqn:?; [|done].
    do 3 eexists. exists res. split_and!; [done..| |done]. destruct (rs_json res) as [[]|]; naive_solver.
Qed.

(** A program that never throws and whose only action is to send [r]. *)
Definition sends_only {A} (m : M S A) (r : http_request) : Prop :=
  ∀ w, ∃ a, m w = (inr a, after_fetch r w).

Lemma sends_only_try {A} (r : http_request) (k : http_response → M S A) (d : A) :
  (∀ res w, ∃ x, k res w = (x, w)) →
  sends_only (try_catch (fetch r ≫= k) (λ _, mret d)) r.
Proof.
  intros Hk w. unfold try_catch. unfold mbind, M_bind, fetch.
  destruct (net _ _ _) as [res|m]; [|by exists d].
  fold (after_fetch r w). destruct (Hk res (after_fetch r w)) as [[e|a] ->]; [by exists d|by exists a].
Qed.

(** The unauthenticated demo calls never throw, send one request without
    credentials or token, and leave the session and the page alone. *)
Theorem try_calls_isolated (inboxId : jstr) :
  sends_only tryGetStatus (plain_request "GET" "/try/status") ∧
  sends_only tryCreateInbox (plain_request "POST" "/try/inbox") ∧
  sends_only (tryGetEmails inboxId)
    (plain_request "GET" ("/try/inbox/" ++ encodeURIComponent inboxId ++ "/emails")).
Proof.
  split_and!; apply sends_only_try; intros res w; run_M;
    destruct (rs_ok res); step_M; eauto; destruct (rs_json res) as [[]|]; step_M; eauto.
Qed.

(** *** What a program may send

    [only_sends P]: every request between two worlds satisfies [P]. *)
Definition only_sends (P : http_request → Prop) (w w' : world S) : Prop :=
  ∃ l, sent_requests w' = sent_requests w ++ l ∧ Forall P l.
#[export] Instance only_sends_preorder P : PreOrder (only_sends P).
Proof.
  split.
  - intros w. exists []. by rw app_nil_r.
  - intros w1 w2 w3 (l & E & Hl) (k & E' & Hk). exists (l ++ k). rw E' E app_assoc. split; [done|by apply Forall_app].
Qed.
Definition is_refresh (r : http_request) : Prop := ∃ legacy, r = refresh_request legacy.
Lemma only_sends_request P path opts :
  (∀ token, P (build_request path opts token)) → (∀ r, is_refresh r → P r) → preserves (only_sends P) (request path opts).
Proof.
  intros HP HR w. destruct (request_sends path opts w) as (l & E & Hl & _). exists l. split; [done|].
  assert (P (refresh_request (storage (brw w) !! LEGACY_KEY))) by (apply HR; by eexists).
  destruct Hl as [->|[->|[token ->]]]; repeat constructor; auto.
Qed.
Lemma only_sends_modify P f : preserves (only_sends P) (modify f).
Proof. intros w. exists []. by rw app_nil_r. Qed.
Lemma only_sends_emit P e : (∀ r, e ≠ EFetch r) → preserves (only_sends P) (emit e).
Proof.
  intros He w. exists []. split; [|done]. change (sent_requests (snd (emit e w))) with (fetches (trace (brw w) ++ [e])).
  rw fetches_app. f_equal. destruct e as [r| | | | | | | | | | | |]; [by destruct (He r)|done..].
Qed.

(** *** The calls of pages *)

(** A call that is answered, and not with 401, ends with the answer. *)
Lemma request_answered path opts res (w : world S) :
  let r := build_request path opts (accessToken (brw w)) in
  net (brw w) (sent (brw w)) r = Responded res → rs_status res ≠ 401%Z →
  request path opts w = finish res (after_fetch r w).
Proof. intros r Hn Hs. rw request_eq. cbv zeta. fold r. by rw Hn (proj2 (Z.eqb_neq _ _) Hs). Qed.

(** A result of a call is what [finish] made of an answer to the call. *)
Lemma request_result path opts v (w w' : world S) :
  request path opts w = (inr v, w') →
  ∃ n token res, net (brw w) n (build_request path opts token) = Responded res ∧ ∀ w0 : world S, fst (finish res w0) = inr v.
Proof.
  assert (Hf : ∀ res w1, finish res w1 = (inr v, w') → ∀ w0 : world S, fst (finish res w0) = inr v).
  { intros res w1 E w0. rw (finish_pure res w1 w0) in E. congruence. }
  rw request_eq. cbv zeta. destruct (net _ _ _) as [res|m] eqn:E1; [|done].
  destruct (negb _); [intros E; eexists _, _, res; split; [done|by eapply Hf]|].
  destruct (refresh_body _) as [r w2] eqn:E2. destruct r as [e|[]]; try done.
  pose proof (sf_net _ _ (session_frame_refresh (after_fetch (build_request path opts (accessToken (brw w))) w))) as En.
  rw E2 in En. cbn in En. destruct (net (brw w2) _ _) as [res'|m] eqn:E3; [|done]. rw En in E3.
  intros E. eexists _, _, res'. split; [done|by eapply Hf].
Qed.

Lemma session_frame_get path params : preserves session_frame (api_get path params).
Proof. apply session_frame_request. Qed.
Lemma session_frame_send method path body : preserves session_frame (api_send method path body).
Proof. apply session_frame_request. Qed.
(** A call leaves the state of the page alone. *)
Lemma request_st path opts (w : world S) : st (snd (request path opts w)) = st w.
Proof. exact (sf_state _ _ (session_frame_request path opts w)). Qed.
Lemma api_get_st path params (w : world S) : st (snd (api_get path params w)) = st w.
Proof. apply request_st. Qed.
Lemma api_send_st method path body (w : world S) : st (snd (api_send method path body w)) = st w.
Proof. apply request_st. Qed.
End ops.
End client.

#[export] Hint Resolve session_frame_request session_frame_get session_frame_send session_frame_emit : frame.
#[export] Hint Resolve only_sends_modify : frame.
#[export] Hint Extern 2 (preserves (only_sends _) (emit _)) => (apply only_sends_emit; discriminate) : frame.

(** ** Concrete runs *)

Definition default_env : AppEnv :=
  {| NEXT_PUBLIC_API_URL := None; NEXT_PUBLIC_WS_URL := None; NEXT_PUBLIC_SITE_URL := None |}.

(** On a protected page, with a session hint; the call and the refresh are
    both refused. *)
Definition dead_session : world unit :=
  World (browser_on {[SESSION_HINT_KEY := js "1"]} "/inboxes" [answer 401 (JObj []); answer 401 (JObj [])]) tt.
Definition get_opts : RequestOptions :=
  {| o_method := "GET"; o_headers := []; o_body := None; o_params := None |}.

Lemma request_session_expired_witness :
  let '(r, w') := @request default_env unit "/data" get_opts dead_session in
  r = inl (ApiError "session expired" 401 None) ∧
  accessToken (brw w') = None ∧ has_session (brw w') = false ∧
  ∃ l, trace (brw w') = (EFetch <$> l) ++ [ELocation "/login"].
Proof.
  apply (@request_session_expired default_env unit "/data" get_opts dead_session
    {| rs_status := 401; rs_statusText := []; rs_content_length := None; rs_json := Some (JObj []) |}
    (snd (@refresh_body default_env unit
      (after_fetch (@build_request default_env "/data" get_opts None) dead_session)))).
  - reflexivity.
  - reflexivity.
  - reflexivity.
  - vm_compute. reflexivity.
Defined.

(** A legacy session whose refresh succeeds. *)
Definition legacy_session : world unit :=
  World (browser_on {[LEGACY_KEY := js "rt-legacy"]} "/inboxes"
    [answer 200 (JObj [(js "access_token", JStr "new-at")])]) tt.

Lemma refresh_success_state_witness :
  storage (brw (snd (@refresh_body default_env unit legacy_session))) !! LEGACY_KEY = None.
Proof.
  apply (@refresh_success_state default_env unit legacy_session
    (snd (@refresh_body default_env unit legacy_session))).
  vm_compute. reflexivity.
Defined.
