(* ===== verification/RefreshRace.v ===== *)
(** * Concurrent requests and the shared refresh: [tryRefresh] of [api.ts]

    Several calls of [request] are in flight at once and share the module
    variable [refreshPromise].  JavaScript runs a call without interruption
    between two [await]s, so a call is a control point, [pc], and a step of
    the system is what one call does when the promise it awaits is settled.
    [ApiClient] has the same code read sequentially.

    The network and the session are left open: a step takes whatever status
    the server sends and whatever the session check finds. *)

From S2P Require Import Prelude.

(** Where a call of [request] stands.  A promise made by [tryRefresh] is
    identified by a number. *)
Inductive pc :=
| AwaitMain (retry : bool)    (* the request itself is in flight *)
| Refreshing (p : nat)        (* made promise [p]; POST /auth/refresh is in flight *)
| Owner (p : nat)             (* made promise [p], which is settled; [finally] is next *)
| Joined (p : nat)            (* found promise [p] and awaits it *)
| Settled.                    (* returned or threw *)

Record sys := Sys {
  promise : option nat;       (* refreshPromise *)
  settled : gmap nat bool;    (* outcomes of the promises settled so far *)
  fresh : nat;                (* number of the next promise *)
  calls : list pc
}.

(** [tryRefresh] on entry: join the promise there is, or make one.  Its body
    settles at once when no session plausibly exists. *)
Definition tryRefresh_enter (plausible : bool) (s : sys) (i : nat) : sys :=
  match promise s with
  | Some p => Sys (promise s) (settled s) (fresh s) (<[i := Joined p]> (calls s))
  | None =>
      let p := fresh s in
      if plausible
      then Sys (Some p) (settled s) (S p) (<[i := Refreshing p]> (calls s))
      else Sys (Some p) (<[p := false]> (settled s)) (S p) (<[i := Owner p]> (calls s))
  end.

(** The response of the request: a first 401 enters [tryRefresh]. *)
Definition main_response (status : Z) (plausible : bool) (s : sys) (i : nat) (retry : bool) : sys :=
  if (status =? 401)%Z && negb retry then tryRefresh_enter plausible s i
  else Sys (promise s) (settled s) (fresh s) (<[i := Settled]> (calls s)).

(** The response of the refresh settles the promise. *)
Definition refresh_response (ok : bool) (s : sys) (i p : nat) : sys :=
  Sys (promise s) (<[p := ok]> (settled s)) (fresh s) (<[i := Owner p]> (calls s)).

(** After [tryRefresh]: retry the request, or give the session up. *)
Definition resume (refreshed : bool) : pc := if refreshed then AwaitMain true else Settled.

Inductive step : sys → sys → Prop :=
| step_main s i retry status plausible :
    calls s !! i = Some (AwaitMain retry) →
    step s (main_response status plausible s i retry)
| step_refresh s i p ok :
    calls s !! i = Some (Refreshing p) →
    step s (refresh_response ok s i p)
| step_owner s i p b :
    calls s !! i = Some (Owner p) → settled s !! p = Some b →
    step s (Sys None (settled s) (fresh s) (<[i := resume b]> (calls s)))
| step_join s i p b :
    calls s !! i = Some (Joined p) → settled s !! p = Some b →
    step s (Sys (promise s) (settled s) (fresh s) (<[i := resume b]> (calls s)))
| step_call s :
    step s (Sys (promise s) (settled s) (fresh s) (calls s ++ [AwaitMain false])).

Definition init : sys := Sys None ∅ 0 [].
Definition reachable (s : sys) : Prop := rtc step init s.

(** ** Invariant *)

(** The promise a call is responsible for. *)
Definition owns (c : pc) : option nat :=
  match c with Refreshing p | Owner p => Some p | _ => None end.

Definition call_ok (s : sys) (c : pc) : Prop :=
  match c with
  | Refreshing p => settled s !! p = None
  | Owner p => is_Some (settled s !! p)
  | Joined p => is_Some (settled s !! p) ∨ promise s = Some p
  | _ => True
  end.

Record inv (s : sys) : Prop := {
  (* the call that made the current promise is there, and only it owns one *)
  inv_promise p : promise s = Some p → ∃ i c, calls s !! i = Some c ∧ owns c = Some p;
  inv_owner i c p : calls s !! i = Some c → owns c = Some p → promise s = Some p;
  inv_unique i j ci cj p : calls s !! i = Some ci → calls s !! j = Some cj →
    owns ci = Some p → owns cj = Some p → i = j;
  inv_call i c : calls s !! i = Some c → call_ok s c;
  inv_fresh p : fresh s ≤ p → settled s !! p = None;
  inv_promise_fresh p : promise s = Some p → p < fresh s
}.

(** A lookup in the updated list of calls. *)
Lemma calls_update (l : list pc) i c j d :
  i < length l → <[i := c]> l !! j = Some d → (i = j ∧ d = c) ∨ (i ≠ j ∧ l !! j = Some d).
Proof.
  intros Hi H. destruct (decide (i = j)) as [<-|Hne].
  - rw list_lookup_insert_eq // in H. left. split; congruence.
  - rw list_lookup_insert_ne // in H. by right.
Qed.

Ltac calls_cases :=
  repeat match goal with
  | H : <[_ := _]> _ !! _ = Some _ |- _ =>
      apply calls_update in H; [|by eapply lookup_lt_Some]; destruct H as [[? ->]|[? ?]]
  end.

Lemma inv_init : inv init.
Proof. split; simpl; try done; intros; set_solver. Qed.

(** A call that owns nothing moves on to a point that owns nothing. *)
Lemma inv_move s i c0 c :
  inv s → calls s !! i = Some c0 → owns c0 = None → owns c = None → call_ok s c →
  inv (Sys (promise s) (settled s) (fresh s) (<[i := c]> (calls s))).
Proof.
  intros [I1 I2 I3 I4 I5 I6] Hi Ho0 Ho Hc. split; simpl; auto.
  - intros p (j & d & Hj & Hd)%I1. exists j, d. split; [|done].
    rw list_lookup_insert_ne //. congruence.
  - intros j d p Hj Hd. calls_cases; [congruence|eauto].
  - intros j k cj ck p Hj Hk Hoj Hok. calls_cases; try congruence. eauto.
  - intros j d Hj. calls_cases; [done|]. by apply I4 in H0.
Qed.

(** A call makes a new promise. *)
Lemma inv_make s i retry c m :
  inv s → calls s !! i = Some (AwaitMain retry) → promise s = None → owns c = Some (fresh s) →
  (∀ p, p ≠ fresh s → m !! p = settled s !! p) →
  call_ok (Sys (Some (fresh s)) m (S (fresh s)) []) c →
  inv (Sys (Some (fresh s)) m (S (fresh s)) (<[i := c]> (calls s))).
Proof.
  intros [I1 I2 I3 I4 I5 I6] Hi Hp Ho Hm Hc.
  assert (Hnone : ∀ j d q, calls s !! j = Some d → owns d ≠ Some q).
  { intros j d q Hj Hd. by rw (I2 j d q) in Hp. }
  split; simpl.
  - intros p [= <-]. exists i, c. split; [|done]. apply list_lookup_insert_eq. by eapply lookup_lt_Some.
  - intros j d p Hj Hd. calls_cases; [congruence|]. by eapply Hnone in Hd.
  - intros j k cj ck p Hj Hk Hoj Hok.
    calls_cases; try congruence; exfalso; eauto using Hnone.
    all: eapply Hnone; eauto.
  - intros j d Hj. calls_cases; [by destruct c|]. pose proof (I4 _ _ H0) as Hok.
    destruct d as [| | |q|]; simpl in *; try done.
    + by eapply Hnone in H0.
    + by eapply Hnone in H0.
    + left. destruct Hok as [[b Hb]|?]; [|congruence]. exists b. rw Hm //.
      intros ->. by rw I5 in Hb.
  - intros p Hle. rw Hm; [apply I5|]; lia.
  - intros p [= <-]. lia.
Qed.

(** The refresh response settles the promise its call made. *)
Lemma inv_settle s i p ok :
  inv s → calls s !! i = Some (Refreshing p) → inv (refresh_response ok s i p).
Proof.
  intros [I1 I2 I3 I4 I5 I6] Hi. pose proof (I2 _ _ _ Hi eq_refl) as Hp.
  split; simpl; auto.
  - intros q Hq. assert (q = p) as -> by congruence. exists i, (Owner p).
    split; [|done]. apply list_lookup_insert_eq. by eapply lookup_lt_Some.
  - intros j d q Hj Hd. calls_cases; [by simplify_eq/=|eauto].
  - intros j k cj ck q Hj Hk Hoj Hok. calls_cases; simplify_eq/=; eauto; exfalso;
      match goal with H : i ≠ _ |- _ => apply H end; eauto.
  - intros j d Hj. calls_cases; simpl; [rw lookup_insert_eq; eauto|].
    match goal with H : calls s !! j = Some d |- _ => rename H into Hd end.
    pose proof (I4 _ _ Hd) as Hok. destruct d as [|q|q|q|]; simpl in *; try done.
    + destruct (decide (p = q)) as [->|]; [|by rw lookup_insert_ne].
      assert (i = j) by eauto. done.
    + destruct (decide (p = q)) as [->|]; [rw lookup_insert_eq; eauto|by rw lookup_insert_ne].
    + destruct (decide (p = q)) as [->|]; [left; rw lookup_insert_eq; eauto|by rw lookup_insert_ne].
  - intros q Hq. rw lookup_insert_ne; [by apply I5|]. apply I6 in Hp. lia.
Qed.

(** The [finally] block forgets the promise, which is settled by then. *)
Lemma inv_finally s i p b :
  inv s → calls s !! i = Some (Owner p) → settled s !! p = Some b →
  inv (Sys None (settled s) (fresh s) (<[i := resume b]> (calls s))).
Proof.
  intros [I1 I2 I3 I4 I5 I6] Hi Hb. pose proof (I2 _ _ _ Hi eq_refl) as Hp.
  assert (Hnone : ∀ j d q, i ≠ j → calls s !! j = Some d → owns d ≠ Some q).
  { intros j d q Hne Hj Hd. pose proof (I2 _ _ _ Hj Hd). assert (q = p) as -> by congruence. eauto. }
  split; simpl; auto.
  - done.
  - intros j d q Hj Hd. calls_cases; [by destruct b|]. by eapply Hnone in Hd.
  - intros j k cj ck q Hj Hk Hoj Hok. calls_cases; try (by destruct b). exfalso. by eapply Hnone.
  - intros j d Hj. calls_cases; [by destruct b|].
    match goal with H : calls s !! j = Some d |- _ => pose proof (I4 _ _ H) as Hok end.
    destruct d as [|q|q|q|]; simpl in *; try done.
    left. destruct Hok as [?|Hq]; [done|]. assert (q = p) as -> by congruence. eauto.
  - done.
Qed.

Lemma inv_call_new s :
  inv s → inv (Sys (promise s) (settled s) (fresh s) (calls s ++ [AwaitMain false])).
Proof.
  intros [I1 I2 I3 I4 I5 I6].
  assert (Hnew : ∀ j d, (calls s ++ [AwaitMain false]) !! j = Some d →
    calls s !! j = Some d ∨ d = AwaitMain false).
  { intros j d [?|[_ Hd]]%lookup_app_Some; [by left|].
    apply list_lookup_singleton_Some in Hd as [_ <-]. by right. }
  split; simpl; auto.
  - intros p (j & d & Hj & Hd)%I1. exists j, d. split; [|done]. by apply lookup_app_l_Some.
  - intros j d p [Hj| ->]%Hnew Hd; [eauto|done].
  - intros j k cj ck p [Hj| ->]%Hnew [Hk| ->]%Hnew Hoj Hok; try done. eauto.
  - intros j d [Hj| ->]%Hnew; [|done]. by apply I4 in Hj.
Qed.

Lemma inv_step s s' : inv s → step s s' → inv s'.
Proof.
  intros HI Hs. destruct Hs as [s i retry status pl Hi|s i p ok Hi|s i p b Hi Hb|s i p b Hi Hb|s].
  - unfold main_response. case_match; [|by eapply inv_move]. unfold tryRefresh_enter.
    destruct (promise s) as [p|] eqn:Hp.
    + rw -Hp. eapply inv_move; eauto. by right.
    + destruct pl; eapply inv_make; eauto; simpl.
      * by apply (inv_fresh s HI).
      * intros q Hq. by rw lookup_insert_ne.
      * rw lookup_insert_eq. eauto.
  - by apply inv_settle.
  - by eapply inv_finally.
  - eapply inv_move; eauto; by destruct b.
  - by apply inv_call_new.
Qed.

Lemma inv_reachable s : reachable s → inv s.
Proof.
  unfold reachable. generalize inv_init. generalize init as s0. intros s0 H0 Hr.
  induction Hr; eauto using inv_step.
Qed.

(** ** What the sharing guarantees *)

(** C1: at any moment of any interleaving at most one refresh request is in
    flight, however many calls saw a 401; while it is, [refreshPromise] is the
    promise it was made for and not settled, and it is the one that every call
    that still waits has joined. *)
Theorem single_flight (s : sys) (i p : nat) :
  reachable s → calls s !! i = Some (Refreshing p) →
  promise s = Some p ∧ settled s !! p = None ∧
  (∀ j q, calls s !! j = Some (Refreshing q) → j = i ∧ q = p) ∧
  (∀ j q, calls s !! j = Some (Joined q) → settled s !! q = None → q = p).
Proof.
  intros HI%inv_reachable Hi. pose proof (inv_owner s HI _ _ _ Hi eq_refl) as Hp. pose proof (inv_call s HI _ _ Hi) as Hset.
  split_and!; [done|done| |].
  - intros j q Hj. pose proof (inv_owner s HI _ _ _ Hj eq_refl) as Hq. assert (q = p) as -> by congruence.
    split; [|done]. by eapply (inv_unique s HI).
  - intros j q Hj Hq. pose proof (inv_call s HI _ _ Hj) as [[b Hb]|Hb]; congruence.
Qed.

(** C2: no call waits for ever: a call that is not done can take a step itself,
    or awaits a promise whose refresh is in flight. *)
Theorem no_lost_wakeup (s : sys) (i : nat) (c : pc) :
  reachable s → calls s !! i = Some c → c ≠ Settled →
  (∃ s', step s s' ∧ calls s' !! i ≠ Some c) ∨
  ∃ p j, c = Joined p ∧ calls s !! j = Some (Refreshing p).
Proof.
  intros HI%inv_reachable Hi Hc. pose proof (inv_call s HI _ _ Hi) as Hok.
  assert (Hlt : i < length (calls s)) by (by eapply lookup_lt_Some).
  assert (Hmove : ∀ c', c ≠ c' → <[i := c']> (calls s) !! i ≠ Some c).
  { intros c' Hne. rw list_lookup_insert_eq //. congruence. }
  destruct c as [retry|p|p|p|]; simpl in *; try done.
  - left. exists (main_response 200 false s i retry). split; [by constructor|]. by apply Hmove.
  - left. exists (refresh_response true s i p). split; [by constructor|]. by apply Hmove.
  - destruct Hok as [b Hb]. left. eexists. split; [by eapply step_owner|]. simpl. apply Hmove. by destruct b.
  - destruct Hok as [[b Hb]|Hp].
    + left. eexists. split; [by eapply step_join|]. simpl. apply Hmove. by destruct b.
    + apply (inv_promise s HI) in Hp as (j & d & Hj & Hd). pose proof (inv_call s HI _ _ Hj) as Hokj.
      destruct d as [|q|q| |]; simplify_eq/=; [right; eauto|].
      destruct Hokj as [b Hb]. left. eexists. split; [by eapply step_join|]. simpl. apply Hmove. by destruct b.
Qed.

(** Every step of an existing call brings it closer to the end. *)
Definition rank (c : pc) : nat :=
  match c with
  | AwaitMain false => 5 | Refreshing _ => 4 | Owner _ => 3 | Joined _ => 3
  | AwaitMain true => 1 | Settled => 0
  end.
Definition work (s : sys) : nat := sum_list (rank <$> calls s).

Lemma work_update (l : list pc) i c c' :
  l !! i = Some c → rank c' < rank c →
  sum_list (rank <$> <[i := c']> l) < sum_list (rank <$> l).
Proof.
  revert i; induction l as [|x l IH]; intros [|i] Hi Hr; [done|done|csimpl..].
  - injection Hi as ->. lia.
  - specialize (IH i Hi Hr). lia.
Qed.

(** C3: once no new call is made, every interleaving ends: each step strictly
    decreases the work left, which is at most five per call. *)
Theorem requests_terminate (s s' : sys) :
  step s s' → length (calls s') = length (calls s) → work s' < work s.
Proof.
  intros Hs Hl. unfold work.
  destruct Hs as [s i retry status pl Hi|s i p ok Hi|s i p b Hi Hb|s i p b Hi Hb|s].
  - clear Hl. unfold main_response. destruct retry; simpl.
    + rw andb_false_r. apply (work_update _ _ _ _ Hi); simpl; lia.
    + destruct (status =? 401)%Z; simpl; [|apply (work_update _ _ _ _ Hi); simpl; lia].
      unfold tryRefresh_enter. destruct (promise s), pl; apply (work_update _ _ _ _ Hi); simpl; lia.
  - apply (work_update _ _ _ _ Hi); simpl; lia.
  - apply (work_update _ _ _ _ Hi). destruct b; simpl; lia.
  - apply (work_update _ _ _ _ Hi). destruct b; simpl; lia.
  - simpl in Hl. rw length_app /= in Hl. lia.
Qed.

(** Two calls that both saw a 401: the first refreshes, the second waits. *)
Definition two_calls : sys := Sys (Some 0) ∅ 1 [Refreshing 0; Joined 0].

Lemma two_calls_reachable : reachable two_calls.
Proof.
  eapply rtc_l; [apply (step_call init)|].
  eapply rtc_l; [apply step_call|].
  eapply rtc_l; [apply (step_main _ 0 false 401 true); reflexivity|].
  eapply rtc_l; [apply (step_main _ 1 false 401 true); reflexivity|].
  apply rtc_refl.
Qed.

Lemma single_flight_witness :
  calls two_calls !! 0 = Some (Refreshing 0) ∧ promise two_calls = Some 0.
Proof.
  split; [reflexivity|]. apply (single_flight two_calls 0 0 two_calls_reachable). reflexivity.
Defined.

Lemma no_lost_wakeup_witness :
  (∃ s', step two_calls s' ∧ calls s' !! 1 ≠ Some (Joined 0)) ∨
  ∃ p j, Joined 0 = Joined p ∧ calls two_calls !! j = Some (Refreshing p).
Proof.
  apply (no_lost_wakeup two_calls 1 (Joined 0) two_calls_reachable); [reflexivity|discriminate].
Defined.

Lemma requests_terminate_witness :
  work (refresh_response true two_calls 0 0) < work two_calls.
Proof.
  apply requests_terminate; [|reflexivity]. apply (step_refresh two_calls 0 0 true). reflexivity.
Defined.
