(* ===== verification/RequestRefines.v ===== *)
(** * The two readings of [request] agree

    [ApiClient.request] is [request] of [api.ts] read from top to bottom, over
    the browser; [RefreshRace] is the same function cut at its [await]s, over
    the promise that calls share.  Here every run of the first is shown to be
    a run of one call of the second, among any other calls: with the same
    requests in the same order, each answered in the same way. *)

From S2P Require Import Prelude Browser ApiClient RefreshRace.

(** ** Runs of one call, with what can be seen of them *)

Inductive label :=
| LMain (status : option Z) (plausible : bool)   (* the answer to the request, [None] when it is rejected *)
| LRefresh (ok : bool).                          (* the answer to the refresh *)

Inductive lstep (i : nat) : sys → option label → sys → Prop :=
| ls_main s retry status plausible :
    calls s !! i = Some (AwaitMain retry) →
    lstep i s (Some (LMain (Some status) plausible)) (main_response status plausible s i retry)
| ls_rejected s retry plausible :
    calls s !! i = Some (AwaitMain retry) →
    lstep i s (Some (LMain None plausible)) (Sys (promise s) (settled s) (fresh s) (<[i := Settled]> (calls s)))
| ls_refresh s p ok :
    calls s !! i = Some (Refreshing p) → lstep i s (Some (LRefresh ok)) (refresh_response ok s i p)
| ls_owner s p b :
    calls s !! i = Some (Owner p) → settled s !! p = Some b →
    lstep i s None (Sys None (settled s) (fresh s) (<[i := resume b]> (calls s))).
(** A run, with the labels of its visible steps. *)
Inductive lrun (i : nat) : sys → list label → sys → Prop :=
| lrun_nil s : lrun i s [] s
| lrun_cons s l s' ls s'' : lstep i s l s' → lrun i s' ls s'' → lrun i s (option_list l ++ ls) s''.

Lemma lstep_step i s l s' : lstep i s l s' → step s s'.
Proof.
  destruct 1; [by apply step_main| |by apply step_refresh|by eapply step_owner].
  by apply (step_main s i retry 0 true).
Qed.
Lemma lrun_rtc i s ls s' : lrun i s ls s' → rtc step s s'.
Proof. induction 1; [done|]. eapply rtc_l; [by eapply lstep_step|done]. Qed.

Section refinement.
Context `{!AppEnv} {S : Type}.

(** Whether [refresh_body] finds that a session plausibly exists. *)
Definition plausible_session (b : browser) : bool :=
  has_window b && (otruthy (storage b !! LEGACY_KEY) || bool_decide (storage b !! SESSION_HINT_KEY = Some (js "1"))).
(** The [n]-th request of the browser is [r], and its answer is what [l] says. *)
Definition answered_as (path : jstr) (opts : RequestOptions) (net : nat → http_request → fetch_result) (n : nat) (l : label) (r : http_request) : Prop :=
  match l with
  | LMain status _ => (∃ token, r = build_request path opts token) ∧
      status = match net n r with Responded res => Some (rs_status res) | Rejected _ => None end
  | LRefresh ok => is_refresh r ∧
      ok = match net n r with Responded res => bool_decide (is_Some (refresh_answer res)) | Rejected _ => false end
  end.
(** The same for a list of labels and requests, from the [n]-th on. *)
Fixpoint answered_from (path : jstr) (opts : RequestOptions) (net : nat → http_request → fetch_result) (n : nat) (ls : list label) (rs : list http_request) : Prop :=
  match ls, rs with
  | [], [] => True
  | l :: ls', r :: rs' => answered_as path opts net n l r ∧ answered_from path opts net (Datatypes.S n) ls' rs'
  | _, _ => False
  end.

Lemma plausible_spec (b : browser) :
  negb (has_window b) || (negb (otruthy (storage b !! LEGACY_KEY)) && bool_decide (storage b !! SESSION_HINT_KEY ≠ Some (js "1")))
  = negb (plausible_session b).
Proof. unfold plausible_session. rw bool_decide_not. by destruct (has_window b), (otruthy _), (bool_decide _). Qed.

(** *** The three ways through *)

Lemma update_twice (l : list pc) i a b : <[i := b]> (<[i := a]> l) = <[i := b]> l.
Proof. apply list_insert_insert_eq. Qed.
Lemma run_settles s i retry status plausible :
  calls s !! i = Some (AwaitMain retry) → (status =? 401)%Z && negb retry = false →
  lrun i s [LMain (Some status) plausible] (Sys (promise s) (settled s) (fresh s) (<[i := Settled]> (calls s))).
Proof.
  intros Hi Hs. eapply (lrun_cons i s (Some (LMain (Some status) plausible))); [by apply ls_main|].
  unfold main_response. rw Hs. apply lrun_nil.
Qed.
Lemma run_rejected s i retry plausible :
  calls s !! i = Some (AwaitMain retry) →
  lrun i s [LMain None plausible] (Sys (promise s) (settled s) (fresh s) (<[i := Settled]> (calls s))).
Proof. intros Hi. eapply (lrun_cons i s (Some (LMain None plausible))); [by eapply ls_rejected|apply lrun_nil]. Qed.
Lemma run_app i s ls s' ks s'' : lrun i s ls s' → lrun i s' ks s'' → lrun i s (ls ++ ks) s''.
Proof. induction 1; [done|]. intros H'. rw -app_assoc. eapply lrun_cons; [done|auto]. Qed.

(** A first 401 without a promise: the call refreshes on its own, or finds
    that there is nothing to refresh. *)
Lemma run_refreshes s i (plausible ok : bool) :
  calls s !! i = Some (AwaitMain false) → promise s = None → (plausible = false → ok = false) →
  ∃ m, lrun i s (LMain (Some 401%Z) plausible :: (if plausible then [LRefresh ok] else []))
         (Sys None m (Datatypes.S (fresh s)) (<[i := resume ok]> (calls s))).
Proof.
  intros Hi Hp Ho. pose proof (lookup_lt_Some _ _ _ Hi) as Hl.
  assert (Hmain : lstep i s (Some (LMain (Some 401%Z) plausible)) (tryRefresh_enter plausible s i)) by (by apply (ls_main i s false 401)).
  unfold tryRefresh_enter in Hmain. rw Hp in Hmain. destruct plausible.
  - set (s1 := Sys _ _ _ _) in Hmain.
    assert (H1 : lstep i s1 (Some (LRefresh ok)) (refresh_response ok s1 i (fresh s))) by (apply ls_refresh; by apply list_lookup_insert_eq).
    set (s2 := refresh_response _ _ _ _) in H1.
    assert (H2 : lstep i s2 None (Sys None (settled s2) (fresh s2) (<[i := resume ok]> (calls s2)))).
    { apply (ls_owner _ _ (fresh s)); cbn; [by apply list_lookup_insert_eq; rw length_insert|by rw lookup_insert_eq]. }
    exists (settled s2). apply (lrun_cons _ _ _ _ [LRefresh ok] _ Hmain), (lrun_cons _ _ _ _ [] _ H1), (lrun_cons _ _ _ _ [] _ H2). cbn. rw !update_twice. apply lrun_nil.
  - rw (Ho eq_refl). set (s1 := Sys _ _ _ _) in Hmain.
    assert (H2 : lstep i s1 None (Sys None (settled s1) (fresh s1) (<[i := Settled]> (calls s1)))).
    { apply (ls_owner _ _ (fresh s) false); cbn; [by apply list_lookup_insert_eq|by rw lookup_insert_eq]. }
    exists (settled s1). apply (lrun_cons _ _ _ _ [] _ Hmain), (lrun_cons _ _ _ _ [] _ H2).
    cbn. rw update_twice. apply lrun_nil.
Qed.

(** *** The refresh of the sequential reading *)
Lemma refresh_answered path opts (w : world S) b w' :
  refresh_body w = (inr b, w') →
  ∃ rs, sent_requests w' = sent_requests w ++ rs ∧ sent (brw w') = sent (brw w) + length rs ∧ net (brw w') = net (brw w) ∧
    (plausible_session (brw w) = false → b = false) ∧
    answered_from path opts (net (brw w)) (sent (brw w)) (if plausible_session (brw w) then [LRefresh b] else []) rs.
Proof.
  rw refresh_body_eq. cbv zeta. rw plausible_spec. destruct (plausible_session (brw w)); cbn [negb].
  - set (r := refresh_request _). intros E. exists [r].
    assert (Hw : (∃ t, w' = renewed t (after_fetch r w)) ∧ b = true ∧ (∃ res d, net (brw w) (sent (brw w)) r = Responded res ∧ refresh_answer res = Some d)
      ∨ w' = after_fetch r w ∧ b = false ∧ match net (brw w) (sent (brw w)) r with Responded res => refresh_answer res = None | Rejected _ => True end).
    { destruct (net _ _ r) as [res|m]; [destruct (refresh_answer res) as [d|] eqn:Ed|]; injection E as <- <-.
      - left. split_and!; [by eexists|done|by eexists _, _].
      - by right.
      - by right. }
    destruct Hw as [([t ->] & -> & res & d & En & Ed)|(-> & -> & Hn)].
    + rw sent_renewed sent_after_fetch. cbn [answered_from answered_as]. split_and!; [done|cbn; lia|done|done|by eexists| |done].
      by rw En Ed.
    + rw sent_after_fetch. cbn [answered_from answered_as]. split_and!; [done|cbn; lia|done|done|by eexists| |done].
      destruct (net _ _ r); [by rw Hn|done].
  - intros [= <- <-]. exists []. rw app_nil_r. cbn. split_and!; [done|lia|done..].
Qed.
Lemma answered_app path opts n k ls rs ls' rs' :
  answered_from path opts n k ls rs → answered_from path opts n (k + length rs) ls' rs' →
  answered_from path opts n k (ls ++ ls') (rs ++ rs').
Proof.
  revert k rs. induction ls as [|l ls IH]; intros k [|r rs]; cbn; [by rw Nat.add_0_r|done..|].
  intros [H1 H2] H3. split; [done|]. apply IH; [done|]. by rw Nat.add_succ_comm.
Qed.

(** C7: A run of [request] in the browser is a run of one call in the system of
    calls, whatever the other calls are doing as long as none of them is
    refreshing: the requests it sends are the visible steps, each with the
    answer of the network, and afterwards the call is over and the shared
    promise is free again. *)
Theorem request_refines_race (path : jstr) (opts : RequestOptions) (w : world S) (s : sys) (i : nat) :
  calls s !! i = Some (AwaitMain false) → promise s = None →
  ∃ ls rs s', lrun i s ls s' ∧ calls s' = <[i := Settled]> (calls s) ∧ promise s' = None ∧
    sent_requests (snd (request path opts w)) = sent_requests w ++ rs ∧
    answered_from path opts (net (brw w)) (sent (brw w)) ls rs.
Proof.
  intros Hi Hp. pose proof (lookup_lt_Some _ _ _ Hi) as Hl. rw request_eq. cbv zeta.
  set (r1 := build_request path opts (accessToken (brw w))). set (w1 := after_fetch r1 w).
  assert (Ha : answered_as path opts (net (brw w)) (sent (brw w))
    (LMain (match net (brw w) (sent (brw w)) r1 with Responded res => Some (rs_status res) | Rejected _ => None end) (plausible_session (brw w1))) r1).
  { split; [by eexists|done]. }
  destruct (net (brw w) (sent (brw w)) r1) as [res|m] eqn:En.
  2:{ eexists [LMain None (plausible_session (brw w1))], [r1], _. split; [by eapply run_rejected|]. cbn [promise calls snd]. by rw sent_after_fetch. }
  destruct (Z.eqb_spec (rs_status res) 401) as [E401|Hne]; cbn [negb].
  2:{ eexists [LMain (Some (rs_status res)) (plausible_session (brw w1))], [r1], _. split; [eapply run_settles; [done|by rw (proj2 (Z.eqb_neq _ _) Hne)]|]. cbn [promise calls].
      rw (finish_pure res w1 w1). cbn [snd]. by rw sent_after_fetch. }
  rw E401 in Ha. destruct (refresh_body w1) as [[e|b] w2] eqn:Er; [by apply refresh_body_total in Er|].
  destruct (refresh_answered path opts w1 b w2 Er) as (rs & Es & Ec & Enet & Hb & Hrs).
  destruct (run_refreshes s i (plausible_session (brw w1)) b Hi Hp Hb) as [m Hrun].
  set (s1 := Sys None m _ _) in Hrun.
  assert (Hs1 : sent_requests w2 = sent_requests w ++ r1 :: rs) by (rw Es sent_after_fetch -app_assoc //).
  assert (Ha1 : answered_from path opts (net (brw w)) (sent (brw w)) (LMain (Some 401%Z) (plausible_session (brw w1)) :: (if plausible_session (brw w1) then [LRefresh b] else [])) (r1 :: rs)).
  { split; [exact Ha|exact Hrs]. }
  destruct b; cbn [resume] in *.
  - set (r2 := build_request path opts (accessToken (brw w2))).
    set (st2 := match net (brw w2) (sent (brw w2)) r2 with Responded res => Some (rs_status res) | Rejected _ => None end).
    assert (Hi1 : calls s1 !! i = Some (AwaitMain true)) by (by apply list_lookup_insert_eq).
    assert (Hlast : lrun i s1 [LMain st2 false] (Sys (promise s1) (settled s1) (fresh s1) (<[i := Settled]> (calls s1)))).
    { unfold st2. destruct (net (brw w2) _ r2); [eapply run_settles; [exact Hi1|apply andb_false_r]|by eapply run_rejected]. }
    eexists _, (r1 :: rs ++ [r2]), _. split; [eapply run_app; [exact Hrun|exact Hlast]|]. cbn [promise calls s1]. rw update_twice.
    split_and!; [done|done| |].
    + transitivity (sent_requests (after_fetch r2 w2)); [|by rw sent_after_fetch Hs1 -app_assoc].
      destruct (net (brw w2) _ r2); [by rw (finish_pure _ (after_fetch r2 w2) w)|done].
    + change (r1 :: rs ++ [r2]) with ((r1 :: rs) ++ [r2]). apply answered_app; [exact Ha1|]. cbn [length answered_from].
      split; [|done]. split; [by eexists|]. unfold st2. rw Enet Ec. cbn [w1 after_fetch brw]. cbn. by rw -plus_n_Sm.
  - eexists _, (r1 :: rs), s1. split; [exact Hrun|]. cbn [promise calls s1 snd]. by rw sent_expired.
Qed.
End refinement.

(** ** An instance: an expired token that is refreshed, among two other calls *)

Definition expired_token : world unit :=
  World (browser_on {[SESSION_HINT_KEY := js "1"]} "/"
    [answer 401 (JObj []); answer 200 (JObj [(js "access_token", JStr "t")]); answer 200 (JObj [])]) tt.
Definition three_calls : sys := Sys None ∅ 0 [AwaitMain true; AwaitMain false; Settled].
Lemma request_refines_race_witness :
  ∃ ls (rs : list http_request) s', lrun 1 three_calls ls s' ∧ calls s' = [AwaitMain true; Settled; Settled] ∧ length ls = length rs ∧ length rs = 3.
Proof.
  destruct (request_refines_race (H := default_env) "/data" get_opts expired_token three_calls 1) as (ls & rs & s' & Hr & Hc & _ & Hs & Ha);
    [reflexivity|reflexivity|]. exists ls, rs, s'. split; [exact Hr|]. split; [exact Hc|].
  assert (El : length rs = 3). { apply (f_equal length) in Hs. rewrite length_app in Hs. vm_compute in Hs. exact (eq_sym Hs). }
  split; [|exact El]. clear - Ha. revert ls Ha. generalize (sent (brw expired_token)). induction rs as [|r rs IH]; intros n [|l ls]; cbn; try done.
  intros [_ Ha]. f_equal. by eapply IH.
Defined.
