(* ===== verification/ServiceWorker.v ===== *)
(** * The service worker: [web/public/sw.js]

    Every request of a page passes the worker, which leaves it to the browser
    or answers it from the network and from the caches of the Cache API.  The
    worker's state is these caches and the calls it has under way; the network
    answers them in any order.

    The Cache API is modelled as its standard has it: a cache is a list of
    requests with their responses; a stored pair matches a request with the
    same address, fragments aside, when the headers that the response's [Vary]
    names are the same in both; [put] replaces the pairs that match and
    refuses partial content and [Vary: *]. *)

From S2P Require Import Prelude Regex Browser ApiClient.

(** ** Requests, responses and caches *)

Record sw_request := { q_url : jstr; q_method : jstr; q_headers : list (jstr * jstr); q_mode : jstr }.
Record sw_response := { a_http : http_response; a_vary : list jstr }.
Abbreviation cache := (list (sw_request * sw_response)).
Abbreviation cache_storage := (list (jstr * cache)).

Definition no_fragment (url : jstr) : jstr := take_while (λ c, negb (c =? 35)%N) url.
Definition same_url (q q' : sw_request) : bool := no_fragment (q_url q) =?s no_fragment (q_url q').
Definition same_headers (names : list jstr) (q q' : sw_request) : bool :=
  forallb (λ h, bool_decide (map_get (q_headers q) h = map_get (q_headers q') h)) names.
Definition entry_matches (q : sw_request) (e : sw_request * sw_response) : bool :=
  same_url (fst e) q && same_headers (a_vary (snd e)) (fst e) q.
(** [cache.match]. *)
Definition cache_match (c : cache) (q : sw_request) : option sw_response := snd <$> List.find (entry_matches q) c.
Definition storable (res : sw_response) : bool := negb (set_has (a_vary res) (js "*")) && negb (rs_status (a_http res) =? 206)%Z.
(** [cache.put(...).catch(() => {})]. *)
Definition cache_put (q : sw_request) (res : sw_response) (c : cache) : cache :=
  if storable res then List.filter (λ e, negb (entry_matches q e)) c ++ [(q, res)] else c.
(** [caches.open], [caches.match] and a change of an open cache. *)
Definition caches_open (name : jstr) (s : cache_storage) : cache_storage :=
  if map_get s name then s else s ++ [(name, [])].
Definition caches_match (s : cache_storage) (q : sw_request) : option sw_response := head (omap (λ '(_, c), cache_match c q) s).
Definition cache_of (name : jstr) (s : cache_storage) : cache := default [] (map_get s name).
Definition caches_put (name : jstr) (q : sw_request) (res : sw_response) (s : cache_storage) : cache_storage :=
  let s := caches_open name s in map_set s name (cache_put q res (cache_of name s)).

(** ** The worker *)

Definition CACHE_VERSION : jstr := "3".
Definition CACHE_NAME : jstr := "burnerbyte-v" ++ CACHE_VERSION.
Definition precached : list jstr := js <$> ["/favicon.svg"; "/manifest.json"]%string.

Definition empty_list : sw_response := {|
  a_http := {| rs_status := 200; rs_statusText := []; rs_content_length := None;
               rs_json := Some (JObj [(js "data", JArr []); (js "total", JNum 0); (js "page", JNum 1); (js "per_page", JNum 12);
                                      (js "total_pages", JNum 0)]) |};
  a_vary := [] |}.
Definition offline_page : sw_response := {|
  a_http := {| rs_status := 503; rs_statusText := []; rs_content_length := None; rs_json := None |}; a_vary := [] |}.

(** [/\.(js|css|svg|png|ico|woff2?)$/]. *)
Definition asset_suffixes : list jstr := js <$> ["js"; "css"; "svg"; "png"; "ico"; "woff2"; "woff"]%string.
Definition static_re : re :=
  rseq [rchar 46; ralt (rlit "js") [rlit "css"; rlit "svg"; rlit "png"; rlit "ico"; RSeq (rlit "woff") (ropt (rchar 50))]; REnd].

Inductive route := Ignored | InboxApi | Navigate | Static.
Inductive task := TInbox (q : sw_request) (cached : option sw_response) | TNavigate (q : sw_request) | TStatic (q : sw_request).
Definition task_request (t : task) : sw_request := match t with TInbox q _ | TNavigate q | TStatic q => q end.
(** What the worker gives a page: a response, or the failure of the network. *)
Inductive outcome := Served (res : sw_response) | NetworkError.
(** [served] are the answers given to pages, [answered] the responses the
    network has sent to the worker, and [puts] what it has stored, all in
    order. *)
Record worker := Worker {
  stores : cache_storage;
  tasks : list task;
  served : list (sw_request * outcome);
  answered : list (sw_request * sw_response);
  puts : list (sw_request * sw_response)
}.
Definition worker_init : worker := Worker [] [] [] [] [].

Section worker.
Context `{!JSRuntime}.

Definition sw_route (q : sw_request) : route :=
  if negb (q_method q =?s "GET") then Ignored
  else if includes (q_url q) "/ws/" then Ignored
  else match url_protocol (q_url q) with
       | None => Ignored                         (* new URL throws, nothing is answered *)
       | Some scheme =>
           if negb (scheme =?s "http:") && negb (scheme =?s "https:") then Ignored
           else if includes (q_url q) "/api/" && includes (q_url q) "/inboxes" then InboxApi
           else if includes (q_url q) "/api/" then Ignored
           else if q_mode q =?s "navigate" then Navigate
           else if test static_re (q_url q) then Static
           else Ignored
       end.

(** The listener of [fetch], up to the call of the network. *)
Definition set_stores (s : cache_storage) (w : worker) : worker := Worker s (tasks w) (served w) (answered w) (puts w).
Definition add_task (t : task) (w : worker) : worker := Worker (stores w) (tasks w ++ [t]) (served w) (answered w) (puts w).
Definition give (q : sw_request) (o : outcome) (w : worker) : worker :=
  Worker (stores w) (tasks w) (served w ++ [(q, o)]) (answered w) (puts w).
Definition on_fetch (q : sw_request) (w : worker) : worker :=
  match sw_route q with
  | Ignored => w
  | InboxApi =>
      let s := caches_open CACHE_NAME (stores w) in
      let cached := cache_match (cache_of CACHE_NAME s) q in
      let w' := add_task (TInbox q cached) (set_stores s w) in
      if cached is Some c then give q (Served c) w' else w'
  | Navigate => add_task (TNavigate q) w
  | Static => if caches_match (stores w) q is Some c then give q (Served c) w else add_task (TStatic q) w
  end.

(** The network answers the call of a task, or fails. *)
Definition drop_task (i : nat) (w : worker) : worker := Worker (stores w) (delete i (tasks w)) (served w) (answered w) (puts w).
Definition receive (q : sw_request) (res : sw_response) (w : worker) : worker :=
  Worker (stores w) (tasks w) (served w) (answered w ++ [(q, res)]) (puts w).
Definition do_put (q : sw_request) (res : sw_response) (w : worker) : worker :=
  Worker (caches_put CACHE_NAME q res (stores w)) (tasks w) (served w) (answered w)
    (puts w ++ (if storable res then [(q, res)] else [])).
Definition store_ok (q : sw_request) (res : sw_response) (w : worker) : worker :=
  if rs_ok (a_http res) then do_put q res w else w.
Definition on_response (t : task) (res : sw_response) (w : worker) : worker :=
  match t with
  | TInbox q cached =>
      let w' := store_ok q res (receive q res w) in
      if cached is Some _ then w' else give q (Served res) w'
  | TNavigate q => give q (Served res) (receive q res w)
  | TStatic q => give q (Served res) (store_ok q res (receive q res w))
  end.
Definition on_failure (t : task) (w : worker) : worker :=
  match t with
  | TInbox q (Some _) => w
  | TInbox q None => give q (Served empty_list) w
  | TNavigate q => give q (Served (default offline_page (caches_match (stores w) q))) w
  | TStatic q => give q NetworkError w
  end.

(** *** Installation and activation *)
Definition asset_request (origin path : jstr) : sw_request :=
  {| q_url := origin ++ path; q_method := "GET"; q_headers := []; q_mode := "no-cors" |}.
(** [cache.addAll]: nothing is stored unless every response is ok. *)
Definition on_install (origin : jstr) (responses : list sw_response) (w : worker) : worker :=
  let pairs := zip (asset_request origin <$> precached) responses in
  let w' := set_stores (caches_open CACHE_NAME (stores w)) (fold_left (λ w '(q, res), receive q res w) pairs w) in
  if forallb (λ '(_, res), rs_ok (a_http res) && storable res) pairs && (length responses =? length precached)%nat
  then fold_left (λ w '(q, res), do_put q res w) pairs w' else w'.
Definition on_activate (w : worker) : worker := set_stores (List.filter (λ '(k, _), k =?s CACHE_NAME) (stores w)) w.

(** What can happen, with the requests of pages taken from [R] and the
    network's responses from [P]. *)
Inductive sw_step (origin : jstr) (R : sw_request → Prop) (P : sw_request → sw_response → Prop) : worker → worker → Prop :=
| sw_fetch q w : R q → sw_step origin R P w (on_fetch q w)
| sw_responds i t res w : tasks w !! i = Some t → P (task_request t) res →
    sw_step origin R P w (on_response t res (drop_task i w))
| sw_fails i t w : tasks w !! i = Some t → sw_step origin R P w (on_failure t (drop_task i w))
| sw_install l w : Forall2 P (asset_request origin <$> take (length l) precached) l → sw_step origin R P w (on_install origin l w)
| sw_activate w : sw_step origin R P w (on_activate w).
Definition sw_reachable (origin : jstr) (R : sw_request → Prop) (P : sw_request → sw_response → Prop) : worker → Prop :=
  rtc (sw_step origin R P) worker_init.
End worker.

(** ** The Cache API *)

Lemma cache_match_elem c q res :
  cache_match c q = Some res → ∃ q', (q', res) ∈ c ∧ entry_matches q (q', res) = true.
Proof.
  unfold cache_match. destruct (List.find _ c) as [[q' r]|] eqn:E; [|done]. intros [= <-].
  apply List.find_some in E as [Hin Hm]. exists q'. split; [by apply list_elem_of_In|done].
Qed.
Lemma elem_of_cache_put q res c e : e ∈ cache_put q res c → e ∈ c ∨ e = (q, res) ∧ storable res = true.
Proof.
  unfold cache_put. destruct (storable res); [|by left]. intros [H|H]%elem_of_app.
  - apply elem_of_List_filter_any in H as [H _]. by left.
  - apply list_elem_of_singleton in H as ->. by right.
Qed.
Lemma cache_of_open s : cache_of CACHE_NAME (caches_open CACHE_NAME s) = cache_of CACHE_NAME s.
Proof.
  unfold caches_open, cache_of. destruct (map_get s CACHE_NAME) eqn:E; [by rw E|].
  assert (Hn : map_get (s ++ [(CACHE_NAME, [] : cache)]) CACHE_NAME = Some []).
  { induction s as [|[k c] s IH]; cbn in *; [done|]. case_match; [done|]. by apply IH. }
  by rw Hn.
Qed.
Lemma cache_of_put q res s : cache_of CACHE_NAME (caches_put CACHE_NAME q res s) = cache_put q res (cache_of CACHE_NAME s).
Proof. unfold caches_put. unfold cache_of at 1. rw map_get_set_eq cache_of_open. done. Qed.

(** The worker has one cache: its own. *)
Definition own_cache (s : cache_storage) : Prop := s = [] ∨ ∃ c, s = [(CACHE_NAME, c)].
Lemma map_set_one {V} (v v' : V) : map_set [(CACHE_NAME, v)] CACHE_NAME v' = [(CACHE_NAME, v')].
Proof. unfold map_set. by case_decide. Qed.
Lemma map_get_one {V} (v : V) : map_get [(CACHE_NAME, v)] CACHE_NAME = Some v.
Proof. unfold map_get. by case_decide. Qed.
Lemma own_open s : own_cache s → ∃ c, caches_open CACHE_NAME s = [(CACHE_NAME, c)].
Proof. unfold caches_open. intros [->|[c ->]]; [by exists []|]. rw map_get_one. by exists c. Qed.
Lemma put_one q res c : caches_put CACHE_NAME q res [(CACHE_NAME, c)] = [(CACHE_NAME, cache_put q res c)].
Proof. unfold caches_put, caches_open, cache_of. cbv zeta. by rw !map_get_one map_set_one. Qed.
Lemma own_put q res s : own_cache s → own_cache (caches_put CACHE_NAME q res s).
Proof. intros [c E]%own_open. unfold caches_put. rw E map_set_one. right. by eexists. Qed.
Lemma own_match s q : own_cache s → caches_match s q = cache_match (cache_of CACHE_NAME s) q.
Proof. unfold cache_of. intros [->|[c ->]]; [done|]. rw map_get_one. change (default [] (Some c)) with c. unfold caches_match. cbn. by destruct (cache_match c q). Qed.

(** ** What the worker keeps *)

(** Looks through the worker's updates. *)
Ltac sw := cbn [stores tasks served answered puts set_stores add_task give drop_task receive do_put].
Section invariant.
Context `{!JSRuntime} (origin : jstr) (R : sw_request → Prop) (P : sw_request → sw_response → Prop).

Definition task_ok (t : task) : Prop :=
  match t with
  | TInbox q _ => sw_route q = InboxApi
  | TNavigate q => sw_route q = Navigate
  | TStatic q => sw_route q = Static
  end ∧ R (task_request t).
(** A response that was sent for the address of [q]: by the network, or in its
    place when it failed. *)
Definition from_network (w : worker) (q : sw_request) (res : sw_response) : Prop :=
  ∃ q', (q', res) ∈ answered w ∧ entry_matches q (q', res) = true.
Definition accounted (w : worker) (q : sw_request) (res : sw_response) : Prop :=
  res = empty_list ∧ sw_route q = InboxApi ∨ res = offline_page ∧ sw_route q = Navigate ∨ from_network w q res.
Definition kept (q : sw_request) : Prop :=
  R q ∧ (sw_route q = InboxApi ∨ sw_route q = Static) ∨ q ∈ asset_request origin <$> precached.
Record sw_inv (w : worker) : Prop := {
  si_own : own_cache (stores w);
  si_entries q res : (q, res) ∈ cache_of CACHE_NAME (stores w) → (q, res) ∈ puts w;
  si_puts q res : (q, res) ∈ puts w → (q, res) ∈ answered w ∧ rs_ok (a_http res) = true ∧ storable res = true ∧ kept q;
  si_tasks : Forall task_ok (tasks w);
  si_served q res : (q, Served res) ∈ served w → accounted w q res;
  si_answered q res : (q, res) ∈ answered w → P q res
}.

Lemma entry_matches_refl q res : entry_matches q (q, res) = true.
Proof.
  unfold entry_matches, same_url, same_headers. cbn [fst snd]. rw jeqb_refl. cbn [andb]. apply List.forallb_forall.
  intros h _. by apply bool_decide_eq_true.
Qed.
Lemma accounted_mono w w' q res : answered w ⊆ answered w' → accounted w q res → accounted w' q res.
Proof. intros Hs [Ha|[Ha|(q' & Ha & Hm)]]; [by left|by right; left|]. right; right. exists q'. split; [by apply Hs|done]. Qed.
(** What is found in the caches. *)
Lemma cached_accounted w q res : sw_inv w → cache_match (cache_of CACHE_NAME (stores w)) q = Some res → from_network w q res.
Proof. intros Hw (q' & Hin & Hm)%cache_match_elem. exists q'. split; [|done]. by apply Hw, Hw. Qed.

Lemma inv_stores s w : sw_inv w → own_cache s → cache_of CACHE_NAME s = cache_of CACHE_NAME (stores w) → sw_inv (set_stores s w).
Proof. intros [] Ho Ec. split; sw; [done|by rw Ec|done..]. Qed.
Lemma inv_open w : sw_inv w → sw_inv (set_stores (caches_open CACHE_NAME (stores w)) w).
Proof. intros Hw. apply inv_stores; [done|right; apply own_open, Hw|apply cache_of_open]. Qed.
Lemma inv_add t w : sw_inv w → task_ok t → sw_inv (add_task t w).
Proof. intros [] Ht. split; sw; [done..| |done|done]. apply Forall_app. by split; [|constructor]. Qed.
Lemma inv_give q o w : sw_inv w → (∀ res, o = Served res → accounted w q res) → sw_inv (give q o w).
Proof.
  intros [] Ho. split; sw; [done..| |done]. intros q' res [He|He]%elem_of_app; [by apply si_served0|].
  apply list_elem_of_singleton in He. injection He as -> <-. by apply Ho.
Qed.
Lemma inv_drop i w : sw_inv w → sw_inv (drop_task i w).
Proof. intros []. split; sw; [done..| |done|done]. by apply Forall_delete. Qed.
Lemma inv_receive q res w : sw_inv w → P q res → sw_inv (receive q res w).
Proof.
  intros [] HP. split; sw; [done|done| |done| |].
  - intros q' r Hin. destruct (si_puts0 q' r Hin) as (H1 & H2). split; [apply elem_of_app; by left|done].
  - intros q' r Hin. eapply accounted_mono; [|by apply si_served0]. intros e He. apply elem_of_app. by left.
  - intros q' r [He|He]%elem_of_app; [by apply si_answered0|]. apply list_elem_of_singleton in He. by injection He as -> ->.
Qed.
Lemma inv_put q res w : sw_inv w → (q, res) ∈ answered w → rs_ok (a_http res) = true → kept q → sw_inv (do_put q res w).
Proof.
  intros [] Ha Hok Hk. split; sw; [by apply own_put| | |done..].
  - intros q' r. rw cache_of_put. intros [He|[[= -> ->] Hs]]%elem_of_cache_put; apply elem_of_app; [left; by apply si_entries0|right].
    rw Hs. by apply list_elem_of_singleton.
  - intros q' r [He|He]%elem_of_app; [by apply si_puts0|]. destruct (storable res) eqn:Es; [|by apply elem_of_nil in He].
    apply list_elem_of_singleton in He. by injection He as -> ->.
Qed.
Lemma inv_store_ok q res w : sw_inv w → (q, res) ∈ answered w → kept q → sw_inv (store_ok q res w).
Proof. intros Hw Ha Hk. unfold store_ok. destruct (rs_ok _) eqn:E; [by apply inv_put|done]. Qed.
Lemma received q res w : (q, res) ∈ answered (receive q res w).
Proof. apply elem_of_app. right. by apply list_elem_of_singleton. Qed.
Lemma answered_store q res w : answered (store_ok q res w) = answered w.
Proof. unfold store_ok. by destruct (rs_ok _). Qed.

Lemma inv_fetch q w : sw_inv w → R q → sw_inv (on_fetch q w).
Proof.
  intros Hw HR. unfold on_fetch. destruct (sw_route q) eqn:Er; [done| | |].
  - rw cache_of_open. assert (Hi : ∀ c, sw_inv (add_task (TInbox q c) (set_stores (caches_open CACHE_NAME (stores w)) w))).
    { intros c. by apply inv_add; [apply inv_open|]. }
    destruct (cache_match _ q) as [c|] eqn:Ec; [|done]. apply inv_give; [done|]. intros res [= <-]. right; right.
    by apply (cached_accounted w).
  - by apply inv_add.
  - rw (own_match (stores w) q (si_own w Hw)). destruct (cache_match _ q) as [c|] eqn:Ec; [|by apply inv_add].
    apply inv_give; [done|]. intros res [= <-]. right; right. by apply cached_accounted.
Qed.
Lemma inv_response i t res w : sw_inv w → tasks w !! i = Some t → P (task_request t) res → sw_inv (on_response t res (drop_task i w)).
Proof.
  intros Hw Ht HP. pose proof (proj1 (Forall_lookup _ _) (si_tasks w Hw) i t Ht) as Hok.
  assert (Hr : sw_inv (receive (task_request t) res (drop_task i w))) by (by apply inv_receive; [apply inv_drop|]).
  assert (Hn : ∀ w', answered (receive (task_request t) res (drop_task i w)) = answered w' → accounted w' (task_request t) res).
  { intros w' E. right; right. exists (task_request t). split; [rw -E; apply received|apply entry_matches_refl]. }
  destruct t as [q c|q|q]; destruct Hok as [Hroute HR]; cbn in *.
  - assert (Hs : sw_inv (store_ok q res (receive q res (drop_task i w)))).
    { apply inv_store_ok; [done|apply received|left; by split; [|left]]. }
    destruct c; [done|]. apply inv_give; [done|]. intros r [= <-]. apply Hn. by rw answered_store.
  - apply inv_give; [done|]. intros r [= <-]. by apply Hn.
  - apply inv_give; [apply inv_store_ok; [done|apply received|left; by split; [|right]]|]. intros r [= <-]. apply Hn. by rw answered_store.
Qed.
Lemma inv_failure i t w : sw_inv w → tasks w !! i = Some t → sw_inv (on_failure t (drop_task i w)).
Proof.
  intros Hw Ht. pose proof (proj1 (Forall_lookup _ _) (si_tasks w Hw) i t Ht) as Hok.
  assert (Hd : sw_inv (drop_task i w)) by (by apply inv_drop).
  destruct t as [q [c|]|q|q]; destruct Hok as [Hroute HR]; cbn in *; [done|..].
  - apply inv_give; [done|]. intros r [= <-]. by left.
  - apply inv_give; [done|]. intros r [= <-]. rw (own_match (stores w) q (si_own w Hw)).
    destruct (cache_match _ q) as [c|] eqn:Ec; cbn; [|by right; left]. right; right. by apply (cached_accounted _ _ _ Hd).
  - by apply inv_give.
Qed.
Lemma inv_puts_fold (l : list (sw_request * sw_response)) w :
  sw_inv w → (∀ e, e ∈ l → e ∈ answered w ∧ rs_ok (a_http (snd e)) = true ∧ kept (fst e)) →
  sw_inv (fold_left (λ w '(q, res), do_put q res w) l w).
Proof.
  revert w. induction l as [|[q res] l IH]; intros w Hw Hl; cbn; [done|]. apply IH.
  - destruct (Hl (q, res)) as (H1 & H2 & H3); [by left|]. by apply inv_put.
  - intros e He. apply Hl. by right.
Qed.
Lemma inv_receive_fold (l : list (sw_request * sw_response)) w :
  sw_inv w → (∀ e, e ∈ l → P (fst e) (snd e)) →
  let w' := fold_left (λ w '(q, res), receive q res w) l w in sw_inv w' ∧ answered w' = answered w ++ l ∧ stores w' = stores w ∧ puts w' = puts w.
Proof.
  revert w. induction l as [|[q res] l IH]; intros w Hw Hl; cbn; [by rw app_nil_r|].
  destruct (IH (receive q res w)) as (H1 & H2 & H3 & H4); [apply inv_receive; [done|]; apply (Hl (q, res)); by left|intros e He; apply Hl; by right|].
  split_and!; [done|by rw H2 /= -app_assoc|done|done].
Qed.
(** What an installation brings. *)
Lemma install_pairs l : Forall2 P (asset_request origin <$> take (length l) precached) l →
  ∀ e, e ∈ zip (asset_request origin <$> precached) l → P (fst e) (snd e) ∧ kept (fst e).
Proof.
  intros Hl [q res] He. apply elem_of_lookup_zip_with in He as (k & q' & r' & [= -> ->] & Hq & Hr). cbn. split.
  - apply (Forall2_lookup_lr _ _ _ k q' r' Hl); [|done]. rw list_lookup_fmap lookup_take.
    rw list_lookup_fmap in Hq. pose proof (lookup_lt_Some _ _ _ Hr). by rw decide_True.
  - right. by eapply list_elem_of_lookup_2.
Qed.
Lemma install_stored (pairs : list (sw_request * sw_response)) w b :
  answered w = b ++ pairs → forallb (λ '(_, res), rs_ok (a_http res) && storable res) pairs = true → (∀ e, e ∈ pairs → kept (fst e)) →
  ∀ e, e ∈ pairs → e ∈ answered w ∧ rs_ok (a_http (snd e)) = true ∧ kept (fst e).
Proof.
  intros Ha E Hk [q res] He. split_and!; [rw Ha; apply elem_of_app; by right| |by apply Hk].
  apply forallb_True_iff in E. rw Forall_forall in E. specialize (E _ He). cbn in E. by apply andb_true_iff in E as [E _].
Qed.
Lemma inv_install l w : sw_inv w → Forall2 P (asset_request origin <$> take (length l) precached) l → sw_inv (on_install origin l w).
Proof.
  intros Hw Hl. pose proof (install_pairs l Hl) as Hp. unfold on_install. set (pairs := zip _ l) in *.
  destruct (inv_receive_fold pairs w Hw ltac:(intros e He; by apply Hp)) as (Hi & Ha & Es & _).
  set (w1 := fold_left _ pairs w) in *. rw -Es.
  destruct (forallb _ pairs && _) eqn:E; [|by apply inv_open]. apply andb_true_iff in E as [E _].
  apply inv_puts_fold; [by apply inv_open|]. eapply install_stored; [exact Ha|done|]. intros e He. by apply Hp.
Qed.
Lemma inv_activate w : sw_inv w → sw_inv (on_activate w).
Proof.
  intros Hw. apply inv_stores; [done|destruct (si_own w Hw) as [->|[c ->]]..].
  - by left.
  - right. by exists c.
  - done.
  - done.
Qed.
Lemma sw_inv_init : sw_inv worker_init.
Proof. split; sw; [by left|..|constructor| |]; intros q res He; by apply elem_of_nil in He. Qed.
Lemma sw_inv_reachable w : sw_reachable origin R P w → sw_inv w.
Proof.
  intros Hw. apply (rtc_ind_r (R := sw_step origin R P) sw_inv worker_init); [apply sw_inv_init| |exact Hw].
  intros y z _ Hyz Hy. destruct Hyz; [by apply inv_fetch|by apply inv_response|by apply inv_failure|by apply inv_install|by apply inv_activate].
Qed.
End invariant.

(** ** Matching when every response varies alike *)

Section uniform.
Variable V : list jstr.

Lemma same_headers_spec q q' : same_headers V q q' = true ↔ ∀ h, h ∈ V → map_get (q_headers q) h = map_get (q_headers q') h.
Proof.
  unfold same_headers. rw List.forallb_forall. split; intros Hh h Hin.
  - apply list_elem_of_In in Hin. by apply Hh, bool_decide_eq_true in Hin.
  - apply bool_decide_eq_true, Hh. by apply list_elem_of_In.
Qed.
Lemma matches_spec q q' res : a_vary res = V →
  entry_matches q (q', res) = true ↔ no_fragment (q_url q') = no_fragment (q_url q) ∧ ∀ h, h ∈ V → map_get (q_headers q') h = map_get (q_headers q) h.
Proof. intros Hv. unfold entry_matches, same_url. cbn [fst snd]. by rw andb_true_iff jeqb_eq Hv same_headers_spec. Qed.
(** Stored pairs that both match a request match each other. *)
Lemma matches_trans q q1 q2 r1 r2 : a_vary r1 = V → a_vary r2 = V →
  entry_matches q (q1, r1) = true → entry_matches q (q2, r2) = true → entry_matches q1 (q2, r2) = true.
Proof.
  intros H1 H2. rw !matches_spec //. intros [E1 F1] [E2 F2]. split; [congruence|]. intros h Hh. by rw F1 // F2.
Qed.

Lemma find_filter {A} (p g : A → bool) (l : list A) :
  (∀ x, x ∈ l → p x = true → g x = true) → List.find p (List.filter g l) = List.find p l.
Proof.
  induction l as [|x l IH]; intros Hg; cbn; [done|]. assert (IH' := IH ltac:(intros y Hy; apply Hg; by right)).
  destruct (p x) eqn:Ep.
  - rw (Hg x ltac:(by left) Ep). cbn. by rw Ep.
  - destruct (g x); cbn; [by rw Ep|done].
Qed.
Lemma find_app {A} (p : A → bool) (l k : list A) : List.find p (l ++ k) = if List.find p l is Some x then Some x else List.find p k.
Proof. induction l as [|x l IH]; cbn; [done|]. by destruct (p x). Qed.
Lemma cache_match_put q res c q2 :
  a_vary res = V → storable res = true → (∀ e, e ∈ c → a_vary (snd e) = V) →
  cache_match (cache_put q res c) q2 = if entry_matches q2 (q, res) then Some res else cache_match c q2.
Proof.
  intros Hv Hs Hc. unfold cache_match, cache_put. rw Hs find_app. destruct (entry_matches q2 (q, res)) eqn:Em.
  - destruct (List.find _ (List.filter _ c)) as [[q' r']|] eqn:Ef; [|cbn; by rw Em].
    apply List.find_some in Ef as [Hin Hm]. apply list_elem_of_In in Hin. apply elem_of_List_filter_any in Hin as [Hin Hn].
    apply negb_true_iff in Hn. by rw (matches_trans q2 q q' res r' Hv (Hc _ Hin) Em Hm) in Hn.
  - rw find_filter; [by destruct (List.find (entry_matches q2) c) as [[]|]; cbn; rw ?Em|].
    intros [q' r'] Hin Hm. apply negb_true_iff, not_true_iff_false. intros Hq.
    assert (Hm' : entry_matches q2 (q, res) = true); [|congruence].
    pose proof (Hc _ Hin) as Hv'. revert Hq Hm. rw !matches_spec //. intros [E1 F1] [E2 F2].
    split; [congruence|]. intros h Hh. by rw -F1 // F2.
Qed.
End uniform.

Section theorems.
Context `{!JSRuntime} (origin : jstr) (R : sw_request → Prop) (P : sw_request → sw_response → Prop).

(** C8: what a page gets from the worker for an address was sent by the network
    for that address, in answer to a request whose headers agree as far as the
    response's [Vary] says; or it is one of the two responses made up when
    the network fails, each on its route.  What is stored was ok, and belongs
    to the inbox API, to a static asset or to the installation. *)
Theorem sw_provenance (w : worker) :
  sw_reachable origin R P w →
  (∀ q res, (q, Served res) ∈ served w →
     res = empty_list ∧ sw_route q = InboxApi ∨ res = offline_page ∧ sw_route q = Navigate ∨
     ∃ q', (q', res) ∈ answered w ∧ P q' res ∧ no_fragment (q_url q') = no_fragment (q_url q) ∧
       ∀ h, h ∈ a_vary res → map_get (q_headers q') h = map_get (q_headers q) h) ∧
  (∀ name c q res, (name, c) ∈ stores w → (q, res) ∈ c →
     name = CACHE_NAME ∧ (q, res) ∈ answered w ∧ rs_ok (a_http res) = true ∧
     (R q ∧ (sw_route q = InboxApi ∨ sw_route q = Static) ∨ q ∈ asset_request origin <$> precached)).
Proof.
  intros Hw%sw_inv_reachable. split.
  - intros q res [Hs|[Hs|(q' & Hin & Hm)]]%(si_served _ _ _ w Hw); [by left|by right; left|]. right; right. exists q'.
    apply (matches_spec (a_vary res)) in Hm as [Hu Hh]; [|done]. split_and!; [done|by eapply si_answered|done|done].
  - intros name c q res Hin He. assert (Hp : name = CACHE_NAME ∧ (q, res) ∈ cache_of CACHE_NAME (stores w)).
    { unfold cache_of. destruct (si_own _ _ _ w Hw) as [Es|[c' Es]]; rw Es in Hin |- *; [by apply elem_of_nil in Hin|].
      apply list_elem_of_singleton in Hin. injection Hin as -> ->. by rw map_get_one. }
    destruct Hp as [-> Hp]. apply (si_entries _ _ _ w Hw), (si_puts _ _ _ w Hw) in Hp as (? & ? & _ & ?). done.
Qed.

(** *** Stale while revalidating *)

Variable V : list jstr.
Hypothesis HV : ∀ q res, P q res → a_vary res = V.

Definition latest (w : worker) (q : sw_request) : option sw_response := snd <$> last (List.filter (entry_matches q) (puts w)).
Definition cache_latest (w : worker) : Prop := ∀ q, cache_match (cache_of CACHE_NAME (stores w)) q = latest w q.

Lemma latest_frame w w' : cache_of CACHE_NAME (stores w') = cache_of CACHE_NAME (stores w) → puts w' = puts w → cache_latest w → cache_latest w'.
Proof. intros Es Ep Hw q. unfold latest. by rw Es Ep. Qed.
Lemma entries_vary w e : sw_inv origin R P w → e ∈ cache_of CACHE_NAME (stores w) → a_vary (snd e) = V.
Proof. intros Hw. destruct e as [q res]. intros Hin%(si_entries _ _ _ w Hw). apply (HV q). by apply (si_answered _ _ _ w Hw), (si_puts _ _ _ w Hw). Qed.
Lemma latest_put q res w : sw_inv origin R P w → a_vary res = V → cache_latest w → cache_latest (do_put q res w).
Proof.
  intros Hw Hv Hl q2. sw. rw cache_of_put. unfold latest. sw. destruct (storable res) eqn:Es.
  - rw (cache_match_put V) //; [|intros e He; by apply (entries_vary w)]. rw List.filter_app. cbn [List.filter].
    destruct (entry_matches q2 (q, res)); [by rw last_snoc|]. rw app_nil_r. apply Hl.
  - unfold cache_put. rw Es app_nil_r. apply Hl.
Qed.
Lemma latest_put_fold l w : sw_inv origin R P w → cache_latest w →
  (∀ e, e ∈ l → e ∈ answered w ∧ rs_ok (a_http (snd e)) = true ∧ kept origin R (fst e)) →
  cache_latest (fold_left (λ w '(q, res), do_put q res w) l w).
Proof.
  revert w. induction l as [|[q res] l IH]; intros w Hw Hl Hin; cbn; [done|].
  destruct (Hin (q, res)) as (H1 & H2 & H3); [by left|]. apply IH; [by apply inv_put| |intros e He; apply Hin; by right].
  apply latest_put; [done| |done]. apply (HV q). by apply (si_answered _ _ _ w Hw).
Qed.
Lemma latest_install l w : sw_inv origin R P w → cache_latest w →
  Forall2 P (asset_request origin <$> take (length l) precached) l → cache_latest (on_install origin l w).
Proof.
  intros Hw Hc Hl. pose proof (install_pairs origin R P l Hl) as Hp. unfold on_install. set (pairs := zip _ l) in *.
  destruct (inv_receive_fold origin R P pairs w Hw ltac:(intros e He; by apply Hp)) as (Hi & Ha & Es & Ep).
  set (w1 := fold_left _ pairs w) in *. rw -Es.
  assert (H1 : cache_latest (set_stores (caches_open CACHE_NAME (stores w1)) w1)).
  { apply (latest_frame w); [sw; by rw cache_of_open Es|exact Ep|done]. }
  destruct (forallb _ pairs && _) eqn:E; [|done]. apply andb_true_iff in E as [E _].
  apply latest_put_fold; [by apply inv_open|done|]. eapply install_stored; [exact Ha|done|]. intros e He. by apply Hp.
Qed.
Lemma latest_store q res w : sw_inv origin R P w → a_vary res = V → cache_latest w → cache_latest (store_ok q res w).
Proof. intros Hw Hv Hl. unfold store_ok. destruct (rs_ok _); [by apply latest_put|done]. Qed.
Lemma latest_step w w' : sw_step origin R P w w' → sw_inv origin R P w → cache_latest w → cache_latest w'.
Proof.
  destruct 1 as [q w HR|i t res w Ht HP|i t w Ht|l w Hl|w]; intros Hw Hc.
  - unfold on_fetch. destruct (sw_route q); [done| |by apply (latest_frame w)|by case_match; apply (latest_frame w)].
    case_match; (apply (latest_frame w); [sw; apply cache_of_open|done|done]).
  - pose proof (HV _ _ HP) as Hv.
    assert (Hs : cache_latest (store_ok (task_request t) res (receive (task_request t) res (drop_task i w)))).
    { apply latest_store; [by apply inv_receive; [apply inv_drop|]|done|by apply (latest_frame w)]. }
    destruct t as [q [c|]|q|q]; cbn in Hs |- *; [done|exact Hs|by apply (latest_frame w)|exact Hs].
  - destruct t as [q [c|]|q|q]; by apply (latest_frame w).
  - by apply latest_install.
  - apply (latest_frame w); [|done|done]. unfold on_activate. sw.
    destruct (si_own _ _ _ w Hw) as [Es|[c Es]]; rw Es; [done|]. cbn [List.filter]. by rw jeqb_refl.
Qed.
Lemma latest_reachable w : sw_reachable origin R P w → cache_latest w.
Proof.
  intros Hw. assert (Hi : sw_inv origin R P w ∧ cache_latest w); [|apply Hi].
  apply (rtc_ind_r (R := sw_step origin R P) (λ w, sw_inv origin R P w ∧ cache_latest w) worker_init); [| |exact Hw].
  - split; [apply sw_inv_init|by intros q].
  - intros y z Hy Hyz [H1 H2]. split; [|by eapply latest_step]. apply sw_inv_reachable. by eapply rtc_r.
Qed.

(** C10: when all responses vary alike, the inbox API is behind by one answer: a
    request is answered at once with the last response that was stored for it
    before, whatever the network is about to say, and only without one by the
    network.  What the network then says replaces it for the next request if
    it is ok and can be stored, and changes nothing otherwise. *)
Theorem inbox_one_behind (w : worker) (q : sw_request) :
  sw_reachable origin R P w → sw_route q = InboxApi →
  served (on_fetch q w) = served w ++ (if latest w q is Some res then [(q, Served res)] else []) ∧
  tasks (on_fetch q w) = tasks w ++ [TInbox q (latest w q)] ∧
  ∀ res c i, P q res →
    latest (on_response (TInbox q c) res (drop_task i w)) q =
      (if rs_ok (a_http res) && storable res then Some res else latest w q) ∧
    served (on_response (TInbox q c) res (drop_task i w)) = served w ++ (if c is Some _ then [] else [(q, Served res)]).
Proof.
  intros Hw Hq. pose proof (latest_reachable w Hw q) as Hl. unfold on_fetch. rw Hq cache_of_open Hl.
  split_and!; [by destruct (latest w q); sw; rw ?app_nil_r|by destruct (latest w q)|].
  intros res c i HP. split; [|by unfold on_response, store_ok; destruct c, (rs_ok (a_http res)); sw; rw ?app_nil_r].
  cbn [on_response].
  assert (El : latest (store_ok q res (receive q res (drop_task i w))) q = if rs_ok (a_http res) && storable res then Some res else latest w q).
  { unfold store_ok. destruct (rs_ok (a_http res)); [|done]. unfold latest. sw. destruct (storable res); cbn [andb]; [|by rw app_nil_r].
    rw List.filter_app. cbn [List.filter]. by rw entry_matches_refl last_snoc. }
  by destruct c.
Qed.

(** Whom a stored response is shown to depends on [Vary] alone.  If it names
    the header with the access token, a page only gets responses that were
    sent to its own token. *)
Theorem vary_protects (w : worker) :
  sw_reachable origin R P w → js "Authorization" ∈ V →
  ∀ q res, (q, Served res) ∈ served w → res = empty_list ∨ res = offline_page ∨
    ∃ q', (q', res) ∈ answered w ∧ map_get (q_headers q') "Authorization" = map_get (q_headers q) "Authorization".
Proof.
  intros Hw%sw_inv_reachable HA q res [[? _]|[[? _]|(q' & Hin & Hm)]]%(si_served _ _ _ w Hw); [by left|by right; left|].
  right; right. exists q'. split; [done|]. pose proof (HV _ _ (si_answered _ _ _ w Hw _ _ Hin)) as Hv.
  apply (matches_spec V) in Hm as [_ Hh]; [|done]. by apply Hh.
Qed.
End theorems.

(** ** Responses for somebody else *)

Definition api_request (url token : jstr) : sw_request :=
  {| q_url := url; q_method := "GET"; q_headers := [(js "Authorization", "Bearer " ++ token)]; q_mode := "cors" |}.
(** Otherwise a response that was sent to one token is given to another: the
    next request for the address, with whatever token, gets it. *)
Theorem vary_leaks `{!JSRuntime} (origin : jstr) (R : sw_request → Prop) (P : sw_request → sw_response → Prop) (url a b : jstr) (res : sw_response) :
  sw_route (api_request url a) = InboxApi → R (api_request url a) → R (api_request url b) →
  P (api_request url a) res → rs_ok (a_http res) = true → storable res = true → js "Authorization" ∉ a_vary res →
  ∃ w, sw_reachable origin R P w ∧ answered w = [(api_request url a, res)] ∧
    last (served w) = Some (api_request url b, Served res).
Proof.
  intros Hr Ha Hb HP Hok Hs Hn. set (qa := api_request url a) in *. set (qb := api_request url b) in *.
  assert (Hm : entry_matches qb (qa, res) = true).
  { apply (matches_spec (a_vary res)); [done|]. split; [done|]. intros h Hh. cbn. rewrite !decide_False //; intros ->; done. }
  set (w1 := on_fetch qa worker_init).
  assert (E1 : w1 = Worker [(CACHE_NAME, [])] [TInbox qa None] [] [] []) by (unfold w1, on_fetch; rw Hr; done).
  set (w2 := on_response (TInbox qa None) res (drop_task 0 w1)).
  assert (E2 : w2 = Worker [(CACHE_NAME, [(qa, res)])] [] [(qa, Served res)] [(qa, res)] [(qa, res)]).
  { unfold w2. rw E1. cbn [on_response]. unfold store_ok. rw Hok. unfold give, do_put. sw. rw put_one. unfold cache_put. rw Hs. done. }
  exists (on_fetch qb w2). split; [|split].
  - eapply rtc_l; [by apply (sw_fetch _ _ _ qa)|]. fold w1. eapply rtc_l; [|by apply rtc_once, sw_fetch].
    apply sw_responds; [by rw E1|done].
  - unfold on_fetch. change (sw_route qb) with (sw_route qa). rw Hr E2. by case_match.
  - unfold on_fetch. change (sw_route qb) with (sw_route qa). rw Hr cache_of_open E2. sw. unfold cache_of. rw map_get_one.
    unfold cache_match. cbn [default from_option id List.find]. rw Hm. sw. by rw last_snoc.
Qed.

(** ** Without the network *)

Lemma take_while_all {A} (p : A → bool) (l : list A) : Forall (λ x, p x = true) l → take_while p l = l.
Proof. induction 1 as [|x l Hx _ IH]; cbn; [done|]. by rw Hx IH. Qed.
Lemma no_fragment_id url : 35%N ∉ url → no_fragment url = url.
Proof.
  intros Hn. apply take_while_all, Forall_forall. intros c Hc. apply negb_true_iff, N.eqb_neq. by intros ->.
Qed.
Lemma route_shape `{!JSRuntime} q q' : q_url q' = q_url q → sw_route q = Navigate →
  sw_route q' ≠ InboxApi ∧ (sw_route q' = Static → test static_re (q_url q) = true).
Proof.
  unfold sw_route. intros ->. destruct (negb (q_method q =?s "GET")); [done|].
  destruct (includes (q_url q) "/ws/"); [done|]. destruct (url_protocol (q_url q)) as [sc|]; [|done].
  destruct (negb (sc =?s "http:") && _); [done|]. destruct (includes (q_url q) "/api/"); cbn [andb]; [by destruct (includes _ _)|].
  intros _. destruct (negb (q_method q' =?s "GET")); [done|]. destruct (q_mode q' =?s "navigate"); [done|].
  by destruct (test static_re (q_url q)).
Qed.
(** No page is ever stored: offline, every navigation but one to an asset ends
    in the word Offline, whatever was visited before. *)
Theorem offline_navigation `{!JSRuntime} (origin : jstr) (R : sw_request → Prop) (P : sw_request → sw_response → Prop) (w : worker) (q : sw_request) (i : nat) :
  (∀ q, R q → 35%N ∉ q_url q) → 35%N ∉ origin →
  sw_reachable origin R P w → tasks w !! i = Some (TNavigate q) →
  test static_re (q_url q) = false → q_url q ∉ (λ p, origin ++ p) <$> precached →
  served (on_failure (TNavigate q) (drop_task i w)) = served w ++ [(q, Served offline_page)].
Proof.
  intros HR Ho Hw%sw_inv_reachable Ht Hst Hpre. cbn [on_failure]. sw.
  destruct (proj1 (Forall_lookup _ _) (si_tasks _ _ _ w Hw) i _ Ht) as [Hroute HRq]. cbn in Hroute, HRq.
  rw (own_match _ q (si_own _ _ _ w Hw)). destruct (cache_match _ q) as [res|] eqn:E; [|done]. exfalso.
  apply cache_match_elem in E as (q' & Hin & Hm). apply (si_entries _ _ _ w Hw), (si_puts _ _ _ w Hw) in Hin as (_ & _ & _ & Hk).
  apply andb_true_iff in Hm as [Hu _]. apply jeqb_eq in Hu. cbn in Hu. rw (no_fragment_id (q_url q)) in Hu; [|by apply HR].
  destruct Hk as [[HR' Hk]|Hk].
  - rw no_fragment_id in Hu; [|by apply HR]. destruct (route_shape q q' Hu Hroute) as [H1 H2].
    destruct Hk as [Hk|Hk]; [done|]. by rw H2 in Hst.
  - apply list_elem_of_fmap in Hk as (p & -> & Hp). apply Hpre. apply list_elem_of_fmap. exists p. split; [|done].
    rw -Hu. change (no_fragment (origin ++ p) = origin ++ p). apply no_fragment_id. intros [Hx|Hx]%elem_of_app; [done|].
    revert Hp Hx. unfold precached. intros Hp. apply list_elem_of_fmap in Hp as (s & -> & Hs).
    set_unfold in Hs. destruct Hs as [->|[->|[]]]; apply (bool_decide_eq_false_1 (35%N ∈ _)); vm_compute; reflexivity.
Qed.
(** Activation leaves no cache of another version. *)
Theorem activate_cleans (w : worker) (name : jstr) (c : cache) :
  (name, c) ∈ stores (on_activate w) ↔ (name, c) ∈ stores w ∧ name = CACHE_NAME.
Proof. unfold on_activate. sw. by rw elem_of_List_filter_any jeqb_eq. Qed.

(** ** Behind the worker: what the API client sees *)

Definition worker_request (r : http_request) : sw_request :=
  {| q_url := rq_url r; q_method := rq_method r; q_headers := rq_headers r; q_mode := "cors" |}.
(** The network as a page sees it, with the worker's caches as they are in
    [w]. *)
Definition through_worker `{!JSRuntime} (w : worker) (net : nat → http_request → fetch_result) (n : nat) (r : http_request) : fetch_result :=
  match sw_route (worker_request r) with
  | InboxApi =>
      match cache_match (cache_of CACHE_NAME (stores w)) (worker_request r) with
      | Some c => Responded (a_http c)
      | None => match net n r with Rejected _ => Responded (a_http empty_list) | answer => answer end
      end
  | _ => net n r
  end.

Section behind.
Context `{!JSRuntime, !AppEnv} {S : Type}.

Lemma ok_not_401 (res : http_response) : rs_ok res = true → rs_status res ≠ 401%Z.
Proof. unfold rs_ok. rw andb_true_iff !Z.leb_le. lia. Qed.
(** The call of a page for a list of inboxes, an inbox or its mail. *)
Lemma get_first path params (b : world S) res :
  net (brw b) (sent (brw b)) (build_request path {| o_method := "GET"; o_headers := []; o_body := None; o_params := params |} (accessToken (brw b))) = Responded res →
  rs_ok res = true →
  api_get path params b =
    finish res (after_fetch (build_request path {| o_method := "GET"; o_headers := []; o_body := None; o_params := params |} (accessToken (brw b))) b).
Proof. intros Hn Hok. unfold api_get. by apply request_answered; [|apply ok_not_401]. Qed.

(** C9: A stored response hides the end of a session: the call returns what was
    stored with one request and without a refresh, the page stays where it is
    and keeps its token, whatever the server would say. *)
Theorem stored_hides_session (origin : jstr) R P (w : worker) (net0 : nat → http_request → fetch_result) (path : jstr) params (b : world S) (res : sw_response) :
  sw_reachable origin R P w → net (brw b) = through_worker w net0 →
  let r := build_request path {| o_method := "GET"; o_headers := []; o_body := None; o_params := params |} (accessToken (brw b)) in
  sw_route (worker_request r) = InboxApi → cache_match (cache_of CACHE_NAME (stores w)) (worker_request r) = Some res →
  api_get path params b = (fst (finish (a_http res) b), after_fetch r b).
Proof.
  intros Hw Hnet r Hroute Hc. apply sw_inv_reachable in Hw.
  assert (Hok : rs_ok (a_http res) = true).
  { apply cache_match_elem in Hc as (q' & Hin & _). by apply (si_entries _ _ _ w Hw), (si_puts _ _ _ w Hw) in Hin as (_ & ? & _). }
  rw (get_first path params b (a_http res)) //; [by rw (finish_pure _ _ b)|].
  rw Hnet. unfold through_worker. fold r. by rw Hroute Hc.
Qed.
(** Without the network and without a stored response, a call for any address
    of the inbox API returns an empty list of inboxes. *)
Theorem offline_reads_empty (w : worker) (net0 : nat → http_request → fetch_result) (path : jstr) params (b : world S) m :
  net (brw b) = through_worker w net0 →
  let r := build_request path {| o_method := "GET"; o_headers := []; o_body := None; o_params := params |} (accessToken (brw b)) in
  sw_route (worker_request r) = InboxApi → cache_match (cache_of CACHE_NAME (stores w)) (worker_request r) = None →
  net0 (sent (brw b)) r = Rejected m →
  api_get path params b = (inr (rs_json (a_http empty_list)), after_fetch r b).
Proof.
  intros Hnet r Hroute Hc Hn. rw (get_first path params b (a_http empty_list)) //.
  rw Hnet. unfold through_worker. fold r. by rw Hroute Hc Hn.
Qed.
End behind.

(** ** Static assets *)

Lemma rlit_inv (s : jstr) st st' : rmatch (rlit s) st st' → m_rest st = s ++ m_rest st'.
Proof.
  revert st. induction s as [|c s IH]; intros st; [by inversion 1|]. destruct s as [|d s].
  - intros Hm. by apply rmatch_char_inv in Hm.
  - intros (st1 & E1%rmatch_char_inv & Hm)%rmatch_seq_inv. apply IH in Hm. by rw E1 Hm.
Qed.
Lemma rlit_match (s t : jstr) prev caps : ∃ prev', rmatch (rlit s) (Mst prev (s ++ t) caps) (Mst prev' t caps).
Proof.
  revert prev. induction s as [|c s IH]; intros prev; [eexists; apply M_eps|]. destruct s as [|d s].
  - exists (Some c). apply (M_cls _ c t (Mst prev _ caps)); [done|apply N.eqb_refl].
  - destruct (IH (Some c)) as [p' Hm]. exists p'. eapply M_seq; [|exact Hm]. by apply (M_cls _ c _ (Mst prev _ caps)); [|apply N.eqb_refl].
Qed.
Ltac alternatives Hm := match type of Hm with
  | rmatch (RAlt _ _) _ _ => let H := fresh in inversion Hm as [| | |? ? ? ? H|? ? ? ? H| | | | | |]; subst; clear Hm; rename H into Hm; alternatives Hm
  | _ => idtac
  end.
(** The pattern accepts exactly the addresses that end in a dot and one of the
    seven endings; one with a query after it is no static asset. *)
Theorem static_re_spec (url : jstr) :
  test static_re url = true ↔ ∃ u suffix, suffix ∈ asset_suffixes ∧ url = u ++ 46%N :: suffix.
Proof.
  rw test_iff. unfold static_re. cbn [rseq ralt fold_left]. split.
  - intros (u & t & e & -> & Hm). apply rmatch_seq_inv in Hm as (s1 & E1%rmatch_char_inv & Hm). cbn in E1.
    apply rmatch_seq_inv in Hm as (s2 & Ha & He). assert (E2 : m_rest s2 = []) by (by inversion He).
    assert (Hs : ∃ suffix, suffix ∈ asset_suffixes ∧ m_rest s1 = suffix ++ m_rest s2).
    { alternatives Ha; try (apply rlit_inv in Ha; eexists; split; [|exact Ha]; apply (bool_decide_eq_true_1 (_ ∈ asset_suffixes)); reflexivity).
      apply rmatch_seq_inv in Ha as (s3 & E3%rlit_inv & Ho).
      inversion Ho as [| | |? ? ? ? H1|? ? ? ? H1| | | | | |]; subst.
      - apply rmatch_char_inv in H1. rw E3 H1. exists (js "woff2"). split; [|done]. apply (bool_decide_eq_true_1 (_ ∈ asset_suffixes)). reflexivity.
      - inversion H1; subst. rw E3. exists (js "woff"). split; [|done]. apply (bool_decide_eq_true_1 (_ ∈ asset_suffixes)). reflexivity. }
    destruct Hs as (suffix & Hin & Es). exists u, suffix. split; [done|]. by rw E1 Es E2 app_nil_r.
  - intros (u & suffix & Hin & ->). exists u, (46%N :: suffix).
    assert (Ha : ∃ p, rmatch (ralt (rlit "js") [rlit "css"; rlit "svg"; rlit "png"; rlit "ico"; RSeq (rlit "woff") (ropt (rchar 50))])
      (Mst (Some 46%N) suffix []) (Mst p [] [])).
    { cbn [ralt fold_left]. apply list_elem_of_fmap in Hin as (s & -> & Hs). set_unfold in Hs.
      destruct Hs as [->|[->|[->|[->|[->|[->|[->|[]]]]]]]].
      - destruct (rlit_match "js" [] (Some 46%N) []) as [p Hp]. exists p. by do 5 apply M_alt_l.
      - destruct (rlit_match "css" [] (Some 46%N) []) as [p Hp]. exists p. do 4 apply M_alt_l. by apply M_alt_r.
      - destruct (rlit_match "svg" [] (Some 46%N) []) as [p Hp]. exists p. do 3 apply M_alt_l. by apply M_alt_r.
      - destruct (rlit_match "png" [] (Some 46%N) []) as [p Hp]. exists p. do 2 apply M_alt_l. by apply M_alt_r.
      - destruct (rlit_match "ico" [] (Some 46%N) []) as [p Hp]. exists p. apply M_alt_l. by apply M_alt_r.
      - destruct (rlit_match "woff" [50%N] (Some 46%N) []) as [p Hp]. exists (Some 50%N). apply M_alt_r. eapply M_seq; [exact Hp|].
        apply M_alt_l. by apply (M_cls _ 50%N [] (Mst p [50%N] [])).
      - destruct (rlit_match "woff" [] (Some 46%N) []) as [p Hp]. exists p. apply M_alt_r. eapply M_seq; [exact Hp|]. apply M_alt_r, M_eps. }
    destruct Ha as [p Ha]. exists (Mst p [] []). split; [done|]. eapply M_seq.
    { apply (M_cls _ 46%N suffix (Mst (last u) (46%N :: suffix) [])); [done|apply N.eqb_refl]. }
    eapply M_seq; [exact Ha|by apply M_end].
Qed.

(** ** Instances *)

Definition list_request : sw_request := worker_request (@build_request default_env "/inboxes" get_opts None).
Definition one_inbox : sw_response := {|
  a_http := {| rs_status := 200; rs_statusText := []; rs_content_length := None; rs_json := Some (JObj [(js "total", JNum 1)]) |};
  a_vary := [js "Origin"] |}.
Definition serves_one (_ : sw_request) (res : sw_response) : Prop := res = one_inbox.
Definition visited : worker :=
  on_response (TInbox list_request None) one_inbox (drop_task 0 (on_fetch (H := AsciiRuntime) list_request worker_init)).
(** The steps that lead to [visited]. *)
Ltac visit := eapply rtc_l; [by apply (sw_fetch (H := AsciiRuntime) _ _ _ list_request)|];
  apply rtc_once; apply (sw_responds (H := AsciiRuntime) _ _ _ 0 (TInbox list_request None) one_inbox); [vm_compute; reflexivity|reflexivity].

Lemma sw_provenance_witness : (list_request, one_inbox) ∈ answered visited ∧ (list_request, Served one_inbox) ∈ served visited ∧
  rs_ok (a_http one_inbox) = true.
Proof.
  assert (Hs : (list_request, Served one_inbox) ∈ served visited) by (vm_compute; left).
  destruct (sw_provenance (H := AsciiRuntime) [] (λ _, True) serves_one visited) as [H1 H2]; [visit|].
  destruct (H2 CACHE_NAME [(list_request, one_inbox)] list_request one_inbox) as (_ & Ha & Hok & _); [vm_compute; left|left|].
  split_and!; [exact Ha|exact Hs|exact Hok].
Defined.
Lemma inbox_one_behind_witness :
  served (on_fetch (H := AsciiRuntime) list_request visited) = served visited ++ [(list_request, Served one_inbox)].
Proof.
  destruct (inbox_one_behind (H := AsciiRuntime) [] (λ _, True) serves_one [js "Origin"]
    ltac:(intros q res ->; reflexivity) visited list_request) as [E _]; [visit|vm_compute; reflexivity|]. exact E.
Defined.
(** A session that is over, behind a worker that has the list. *)
Definition signed_out : world unit :=
  World (Browser true None ∅ "/" (through_worker (H := AsciiRuntime) visited (λ _ _, answer 401 (JObj []))) 0 []) tt.
Lemma stored_hides_session_witness :
  fst (@api_get default_env unit "/inboxes" None signed_out) = inr (Some (JObj [(js "total", JNum 1)])).
Proof.
  rewrite (stored_hides_session (H := AsciiRuntime) (H0 := default_env) [] (λ _, True) serves_one visited (λ _ _, answer 401 (JObj []))
    "/inboxes" None signed_out one_inbox); [vm_compute; reflexivity|visit|reflexivity|vm_compute; reflexivity|vm_compute; reflexivity].
Defined.
Lemma offline_navigation_witness :
  let q := {| q_url := js "https://x.test/settings"; q_method := js "GET"; q_headers := []; q_mode := js "navigate" |} in
  let w := on_fetch (H := AsciiRuntime) q worker_init in
  served (on_failure (TNavigate q) (drop_task 0 w)) = [(q, Served offline_page)].
Proof.
  intros q w. apply (offline_navigation (H := AsciiRuntime) (js "https://x.test") (λ r, r = q) serves_one w q 0).
  - intros r ->. apply (bool_decide_eq_false_1 (35%N ∈ q_url q)). vm_compute. reflexivity.
  - apply (bool_decide_eq_false_1 (35%N ∈ js "https://x.test")). vm_compute. reflexivity.
  - apply rtc_once. by apply sw_fetch.
  - vm_compute. reflexivity.
  - vm_compute. reflexivity.
  - apply (bool_decide_eq_false_1 (q_url q ∈ (λ p, js "https://x.test" ++ p) <$> precached)). vm_compute. reflexivity.
Defined.
