(* ===== verification/AuthStore.v ===== *)
(** * The authentication store: [web/src/stores/auth-store.ts]

    The store's state is the page state of the monad [M]; its actions are
    programs.  A user, like any other response, is the JSON value the server
    sent. *)

From S2P Require Import Prelude Browser ApiClient.

Record SessionConflictState := {
  pendingToken : option json;
  conflictSessions : option json;
  limit : option json
}.

Record AuthState := {
  user : option json;
  loading : bool;
  sessionConflict : option SessionConflictState
}.

Definition auth_init : AuthState := {| user := None; loading := true; sessionConflict := None |}.

(** [null] and [undefined] are both the absence of a user. *)
Definition nullish (v : option json) : option json := match v with Some JNull => None | _ => v end.

Section auth.
Context `{!AppEnv}.

Definition set_user (u : option json) (s : AuthState) : AuthState :=
  {| user := nullish u; loading := false; sessionConflict := sessionConflict s |}.

(** What [login] and [register] do with the response. *)
Definition accept_login (res : option json) : M AuthState unit :=
  tokens ← prop res "tokens";
  t ← prop tokens "access_token";
  setAccessToken (token_of t);;
  setSessionHint true;;
  u ← prop res "user";
  modify (set_user u).

Definition login_body (email password : jstr) : json :=
  JObj [(js "email", JStr email); (js "password", JStr password); (js "use_cookie", JBool true)].

Definition login (email password : jstr) : M AuthState unit :=
  try_catch
    (res ← api_post "/auth/login" (Some (login_body email password));
     accept_login res)
    (λ err,
      match err with
      | ApiError _ 409 data =>
          p ← prop data "pending_token";
          ss ← prop data "sessions";
          l ← prop data "limit";
          modify (λ s, {| user := user s; loading := loading s;
                          sessionConflict := Some {| pendingToken := p; conflictSessions := ss; limit := l |} |})
      | _ => throw err
      end).

Definition register (email password display_name : jstr) (inviteToken : option jstr) : M AuthState unit :=
  res ← api_post "/auth/register" (Some (jobj
    [(js "email", Some (JStr email)); (js "password", Some (JStr password));
     (js "display_name", Some (JStr display_name)); (js "invite_token", JStr <$> inviteToken);
     (js "use_cookie", Some (JBool true))]));
  accept_login res.

Definition logout_request (legacyToken : option jstr) : http_request := {|
  rq_url := API_BASE ++ "/auth/logout";
  rq_method := "POST";
  rq_headers := [(js "Content-Type", js "application/json")];
  rq_body := Some (if otruthy legacyToken
                   then JObj [(js "refresh_token", JStr (default [] legacyToken))] else JObj []);
  rq_credentials := true
|}.

(** The three-second abort makes a slow revocation a rejected fetch. *)
Definition logout : M AuthState unit :=
  b ← get_browser;
  let legacyToken := if has_window b then storage b !! LEGACY_KEY else None in
  try_catch (fetch (logout_request legacyToken);; mret tt) (λ _, mret tt);;
  setAccessToken None;;
  storage_remove LEGACY_KEY;;
  setSessionHint false;;
  modify (λ s, {| user := None; loading := loading s; sessionConflict := sessionConflict s |});;
  emit (ELocation "/login").

Definition fetchMe : M AuthState unit :=
  try_catch
    (token ← getAccessToken;
     known ← hasSession;
     if negb (otruthy token) && negb known then
       modify (λ s, {| user := user s; loading := false; sessionConflict := sessionConflict s |})
     else
       u ← api_get "/auth/me" None;
       modify (set_user u))
    (λ err,
      when (is_api_status err 401 || is_api_status err 403)
        (setAccessToken None;;
         storage_remove LEGACY_KEY;;
         setSessionHint false);;
      modify (set_user None)).

Definition clearSessionConflict : M AuthState unit :=
  modify (λ s, {| user := user s; loading := loading s; sessionConflict := None |}).

(** ** Signing out *)

Lemma logout_state (w : world AuthState) :
  has_window (brw w) = true →
  let '(r, w') := logout w in
  r = inr tt ∧ user (st w') = None ∧ accessToken (brw w') = None ∧
  has_session (brw w') = false ∧ last (trace (brw w')) = Some (ELocation "/login").
Proof.
  intros Hw. destruct w as [b s]. unfold logout, setAccessToken, setSessionHint. run_M. simpl in Hw.
  rw Hw. destruct (net b (sent b) _) as [res|m]; step_M; rw Hw; step_M; cbn [user trace accessToken];
    (split_and!; [done..| |by rw last_snoc]); unfold has_session; cbn; rw Hw; cbn;
    rw lookup_delete_eq lookup_delete_ne // lookup_delete_eq //.
Qed.
(** C13: signing out always ends the session on this device: whatever the
    network does, it returns, no user, no token and no session marker remain,
    and the browser is sent to the login page. *)
Theorem logout_ends_session (w : world AuthState) :
  has_window (brw w) = true →
  let '(r, w') := logout w in
  r = inr tt ∧ user (st w') = None ∧ accessToken (brw w') = None ∧
  has_session (brw w') = false ∧ last (trace (brw w')) = Some (ELocation "/login").
Proof. apply logout_state. Qed.

(** ** Signing in *)

(** A successful login installs the access token, records the session and
    publishes the user; a pending conflict is left as it was. *)
Theorem login_success (email password : jstr) (w w1 : world AuthState) (j : json) (toks : list (jstr * json)) :
  api_post "/auth/login" (Some (login_body email password)) w = (inr (Some j), w1) →
  jfield j "tokens" = Some (JObj toks) → has_window (brw w1) = true →
  let '(r, w') := login email password w in
  r = inr tt ∧ accessToken (brw w') = token_of (map_get toks (js "access_token")) ∧
  has_session (brw w') = true ∧ user (st w') = nullish (jfield j "user") ∧
  loading (st w') = false ∧ sessionConflict (st w') = sessionConflict (st w1).
Proof.
  intros Hp Ht Hw. unfold login, accept_login, setAccessToken, setSessionHint. run_M. rw Hp.
  assert (Hj : ∀ k, prop (Some j) k w1 = (inr (jfield j k), w1)) by (by destruct j; intros k).
  destruct j as [| | | | | |o]; try done. cbn [jfield] in Ht |- *. rw Ht. step_M. rw Hw. step_M.
  split_and!; try done. unfold has_session; cbn. rw Hw. cbn. by rw lookup_insert_eq.
Qed.

(** A login refused because of the session limit does not fail: it records
    the conflict the server described and leaves user and session untouched. *)
Theorem login_conflict (email password m : jstr) (w w1 : world AuthState) (o : list (jstr * json)) :
  api_post "/auth/login" (Some (login_body email password)) w = (inl (ApiError m 409 (Some (JObj o))), w1) →
  login email password w =
    (inr tt, World (brw w1)
      {| user := user (st w1); loading := loading (st w1);
         sessionConflict := Some {| pendingToken := map_get o (js "pending_token");
                                    conflictSessions := map_get o (js "sessions");
                                    limit := map_get o (js "limit") |} |}).
Proof. intros Hp. unfold login. run_M. by rw Hp. Qed.

(** Bootstrap always finishes: [fetchMe] never throws, ends the loading
    state, publishes a user only if the server returned one, and after a 401
    or 403 no token and no session marker is left. *)
Theorem fetchMe_settles (w : world AuthState) :
  has_window (brw w) = true →
  let '(r, w') := fetchMe w in
  r = inr tt ∧ loading (st w') = false ∧
  (∀ e w1, api_get "/auth/me" None w = (inl e, w1) →
     otruthy (accessToken (brw w)) || has_session (brw w) = true →
     user (st w') = None ∧
     (is_api_status e 401 || is_api_status e 403 = true →
      accessToken (brw w') = None ∧ has_session (brw w') = false)).
Proof.
  intros Hw. unfold fetchMe, getAccessToken, hasSession, setAccessToken, setSessionHint. run_M.
  destruct (otruthy (accessToken (brw w))), (has_session (brw w)); cbn [negb andb orb].
  4: { split_and!; done. }
  all: pose proof (session_frame_request (S:=AuthState) "/auth/me"
         {| o_method := "GET"; o_headers := []; o_body := None; o_params := None |} w) as [_ Fw _ _ _ _ _];
    unfold api_get in *; destruct (request _ _ w) as [[e|u] w1] eqn:E; cbn [snd] in Fw; [|done].
  all: destruct (is_api_status e 401 || is_api_status e 403) eqn:Ee; step_M; rw ?Fw ?Hw; step_M;
    (split_and!; [done|done|]); intros e' w1' [= <- <-] _; (split; [done|]); rw Ee; [|done]; intros _;
    (split; [done|]); unfold has_session; cbn; rw Fw Hw; cbn;
    rw lookup_delete_eq lookup_delete_ne // lookup_delete_eq //.
Qed.

(** A wrong password is reported as an expired session: the server answers
    the login with 401 and a reason, and the client's 401 handling replaces
    the reason before the login page sees it. *)
Theorem login_401_reason_lost (email password reason : jstr) (w : world AuthState) (res : http_response) :
  has_window (brw w) = true → has_session (brw w) = false →
  (∀ n r, net (brw w) n r = Responded res) → rs_status res = 401%Z →
  rs_json res = Some (JObj [(js "error", JStr reason)]) →
  fst (login email password w) = inl (ApiError "session expired" 401 None).
Proof.
  intros Hw Hs Hn H401 _. unfold login. run_M. unfold api_post, api_send. rw request_eq. cbv zeta.
  rw Hn H401. cbn [negb Z.eqb Pos.eqb]. rw refresh_body_eq. cbv zeta. cbn [after_fetch brw storage has_window
    count_fetch log_effect]. unfold has_session in Hs. rw Hw in Hs |- *. cbn [negb orb] in *.
  apply orb_false_iff in Hs as [Hh Hl]. bool_to_prop.
  assert (storage (brw w) !! LEGACY_KEY = None) as -> by (by apply dec_stable).
  rw bool_decide_eq_true_2 //.
Qed.

End auth.

(** ** Concrete runs *)

Definition signed_out (answers : list fetch_result) : world AuthState :=
  World (browser_on ∅ "/login" answers) auth_init.
Definition signed_in (answers : list fetch_result) : world AuthState :=
  World (browser_on {[SESSION_HINT_KEY := js "1"]} "/inboxes" answers) auth_init.

Lemma logout_ends_session_witness :
  let '(r, w') := @logout default_env (signed_in []) in
  r = inr tt ∧ user (st w') = None ∧ accessToken (brw w') = None ∧
  has_session (brw w') = false ∧ last (trace (brw w')) = Some (ELocation "/login").
Proof. apply (@logout_ends_session default_env (signed_in [])). reflexivity. Defined.

Definition login_answer : json :=
  JObj [(js "user", JObj [(js "id", JStr "u1")]); (js "tokens", JObj [(js "access_token", JStr "at")])].

Lemma login_success_witness :
  user (st (snd (@login default_env "a@b.c" "pw" (signed_out [answer 200 login_answer]))))
  = Some (JObj [(js "id", JStr "u1")]).
Proof.
  pose proof (@login_success default_env "a@b.c" "pw" (signed_out [answer 200 login_answer])
    (snd (@api_post default_env AuthState "/auth/login" (Some (login_body "a@b.c" "pw"))
       (signed_out [answer 200 login_answer]))) login_answer [(js "access_token", JStr "at")]
    ltac:(vm_compute; reflexivity) eq_refl eq_refl) as Hok.
  destruct (@login default_env "a@b.c" "pw" (signed_out [answer 200 login_answer])) as [r w'].
  exact (proj1 (proj2 (proj2 (proj2 Hok)))).
Defined.

Definition conflict_answer : list (jstr * json) :=
  [(js "pending_token", JStr "pt"); (js "sessions", JArr []); (js "limit", JNum 3)].

Lemma login_conflict_witness :
  fst (@login default_env "a@b.c" "pw" (signed_out [answer 409 (JObj conflict_answer)])) = inr tt.
Proof.
  rewrite (@login_conflict default_env "a@b.c" "pw" []
    (signed_out [answer 409 (JObj conflict_answer)])
    (snd (@api_post default_env AuthState "/auth/login" (Some (login_body "a@b.c" "pw"))
       (signed_out [answer 409 (JObj conflict_answer)]))) conflict_answer).
  - reflexivity.
  - vm_compute. reflexivity.
Defined.

Lemma fetchMe_settles_witness :
  loading (st (snd (@fetchMe default_env (signed_in [])))) = false.
Proof.
  pose proof (@fetchMe_settles default_env (signed_in []) eq_refl) as H.
  destruct (@fetchMe default_env (signed_in [])) as [r w']. exact (proj1 (proj2 H)).
Defined.

Definition refuse_login : http_response := {|
  rs_status := 401; rs_statusText := []; rs_content_length := None;
  rs_json := Some (JObj [(js "error", JStr "invalid credentials")]) |}.
Lemma login_401_reason_lost_witness :
  fst (@login default_env "a@b.c" "wrong"
    (World (Browser true None ∅ "/login" (λ _ _, Responded refuse_login) 0 []) auth_init))
  = inl (ApiError "session expired" 401 None).
Proof.
  apply (@login_401_reason_lost default_env "a@b.c" "wrong" "invalid credentials" _ refuse_login);
    reflexivity.
Defined.
