(* ===== verification/OrgStore.v ===== *)
(** * The organization store: [web/src/stores/org-store.ts]

    The asynchronous actions of the store suspend at each [await]; what they
    do when a response arrives is a function of its own, and a step of the
    system completes any one of the calls in flight.  Switching the
    organization while calls are in flight is therefore part of the model. *)

From S2P Require Import Prelude Browser Types.

Record RoleInfo := {
  RoleInfo_id : jstr;
  RoleInfo_scope : jstr;
  RoleInfo_value : jstr;
  RoleInfo_label : jstr;
  RoleInfo_description : jstr;
  RoleInfo_rank : Z;
  RoleInfo_is_system : bool;
  RoleInfo_permissions : list jstr
}.

Record OrgState := {
  orgs : list Organization;
  currentOrg : option Organization;
  currentRole : option jstr;
  permissions : list jstr;
  teams : list Team;
  currentTeam : option Team
}.

Definition org_init : OrgState := {|
  orgs := []; currentOrg := None; currentRole := None; permissions := []; teams := []; currentTeam := None |}.

(** ** Actions *)

Definition setCurrentOrg (org : Organization) (s : OrgState) : OrgState := {|
  orgs := orgs s; currentOrg := Some org; currentRole := None; permissions := []; teams := [];
  currentTeam := None |}.

Definition setCurrentTeam (team : Team) (s : OrgState) : OrgState := {|
  orgs := orgs s; currentOrg := currentOrg s; currentRole := currentRole s; permissions := permissions s;
  teams := teams s; currentTeam := Some team |}.

Definition hasPermission (key : jstr) (s : OrgState) : bool := set_has (permissions s) key.

Definition set_orgs (l : list Organization) (s : OrgState) : OrgState := {|
  orgs := l; currentOrg := currentOrg s; currentRole := currentRole s; permissions := permissions s;
  teams := teams s; currentTeam := currentTeam s |}.
Definition set_role (r : jstr) (s : OrgState) : OrgState := {|
  orgs := orgs s; currentOrg := currentOrg s; currentRole := Some r; permissions := permissions s;
  teams := teams s; currentTeam := currentTeam s |}.
Definition set_permissions (p : list jstr) (s : OrgState) : OrgState := {|
  orgs := orgs s; currentOrg := currentOrg s; currentRole := currentRole s; permissions := p;
  teams := teams s; currentTeam := currentTeam s |}.

(** A call whose response is awaited, with what the code keeps for later. *)
Inductive call :=
| COrgs                          (* GET /orgs *)
| CMe (orgId : jstr)             (* GET /orgs/{orgId}/members/me *)
| CRoles (role : jstr)           (* GET /roles, for a role already known *)
| CTeams (orgId : jstr).         (* GET /orgs/{orgId}/teams *)

(** A response; [None] in place of a list or role is [null] or [undefined]. *)
Inductive reply :=
| ROrgs (data : option (list Organization))
| RMe (role : option jstr)
| RRoles (org_roles : option (list RoleInfo))
| RTeams (data : option (list Team))
| RFailed.

(** [fetchOrgs] after its await; a failure propagates and changes nothing. *)
Definition on_orgs (r : reply) (s : OrgState) : OrgState :=
  match r with ROrgs data => set_orgs (default [] data) s | _ => s end.

(** [fetchRole] after the first await: the role, and the call for the roles. *)
Definition on_me (r : reply) (s : OrgState) : OrgState * option call :=
  match r with
  | RMe role => let role := default (js "member") role in (set_role role s, Some (CRoles role))
  | _ => (set_permissions [] (set_role "member" s), None)
  end.

(** [fetchRole] after the second await. *)
Definition on_roles (role : jstr) (r : reply) (s : OrgState) : OrgState :=
  match r with
  | RRoles org_roles =>
      let matchingRole := List.find (λ ri, RoleInfo_value ri =?s role) (default [] org_roles) in
      set_permissions (from_option RoleInfo_permissions [] matchingRole) s
  | _ => set_permissions [] s
  end.

(** [fetchTeams] after its await: the answer is dropped when the organization
    is no longer the one it was asked for. *)
Definition on_teams (orgId : jstr) (r : reply) (s : OrgState) : OrgState :=
  match r with
  | RTeams data =>
      let ts := default [] data in
      if bool_decide (Organization_id <$> currentOrg s ≠ Some orgId) then s
      else {| orgs := orgs s; currentOrg := currentOrg s; currentRole := currentRole s;
              permissions := permissions s; teams := ts;
              currentTeam := match currentTeam s with Some t => Some t | None => head ts end |}
  | _ => s
  end.

(** ** The system: the store and the calls in flight *)

Record org_sys := OrgSys { store : OrgState; flight : list call }.

Definition complete (c : call) (r : reply) (s : OrgState) : OrgState * option call :=
  match c with
  | COrgs => (on_orgs r s, None)
  | CMe _ => on_me r s
  | CRoles role => (on_roles role r s, None)
  | CTeams orgId => (on_teams orgId r s, None)
  end.

(** What the server may answer: the teams of an organization are those of the
    organization asked for. *)
Definition honest (c : call) (r : reply) : Prop :=
  match c, r with
  | CTeams orgId, RTeams (Some l) => Forall (λ t, Team_org_id t = orgId) l
  | _, _ => True
  end.

Inductive org_step : org_sys → org_sys → Prop :=
| os_set_org s f org : org_step (OrgSys s f) (OrgSys (setCurrentOrg org s) f)
| os_set_team s f team :
    team ∈ teams s → org_step (OrgSys s f) (OrgSys (setCurrentTeam team s) f)
| os_start s f c :
    (∀ r, c ≠ CRoles r) → org_step (OrgSys s f) (OrgSys s (f ++ [c]))
| os_complete s f1 c f2 r s' next :
    honest c r → complete c r s = (s', next) →
    org_step (OrgSys s (f1 ++ c :: f2)) (OrgSys s' (f1 ++ f2 ++ option_list next)).

Definition org_reachable (x : org_sys) : Prop := rtc org_step (OrgSys org_init []) x.

(** ** Teams always belong to the organization shown *)

Definition teams_match (s : OrgState) : Prop :=
  Forall (λ t, Some (Team_org_id t) = Organization_id <$> currentOrg s)
    (teams s ++ option_list (currentTeam s)).

Lemma teams_match_unchanged s s' :
  teams s' = teams s → currentTeam s' = currentTeam s → currentOrg s' = currentOrg s →
  teams_match s → teams_match s'.
Proof. unfold teams_match. by intros -> -> ->. Qed.

Lemma teams_match_on_teams orgId r s :
  honest (CTeams orgId) r → teams_match s → teams_match (on_teams orgId r s).
Proof.
  unfold on_teams. destruct r as [| | |data|]; try done. simpl. intros Hh Hm.
  case_bool_decide as Ho; [done|].
  unfold teams_match in *; simpl. rw Ho in Hm |- *. apply Forall_app in Hm as [_ Hm].
  assert (Hts : Forall (λ t, Some (Team_org_id t) = Some orgId) (default [] data)).
  { destruct data as [l|]; simpl; [|constructor]. eapply Forall_impl; [exact Hh|]. simpl. congruence. }
  apply Forall_app_2; [done|]. destruct (currentTeam s); [done|].
  destruct (default [] data); simpl; [constructor|]. inversion Hts; subst. by constructor.
Qed.

Lemma teams_match_complete c r s s' next :
  honest c r → complete c r s = (s', next) → teams_match s → teams_match s'.
Proof.
  intros Hh Hc Hm. destruct c; simpl in Hc; [| | |by simplify_eq; apply teams_match_on_teams].
  all: unfold on_orgs, on_me, on_roles in Hc; destruct r; simplify_eq; by eapply teams_match_unchanged; [..|done].
Qed.

(** C14: in every interleaving of organization switches and responses, the
    teams listed and the team selected belong to the organization shown. *)
Theorem teams_belong_to_org (x : org_sys) :
  org_reachable x → teams_match (store x).
Proof.
  unfold org_reachable. intros Hr.
  assert (Hgen : ∀ y, rtc org_step y x → teams_match (store y) → teams_match (store x)).
  { clear Hr. intros y Hr. induction Hr as [|y z x Hs _ IH]; [done|]. intros Hy. apply IH. clear IH.
    destruct Hs as [s f org|s f team Hin|s f c Hc|s f1 c f2 r s' next Hh Hc]; simpl in *.
    - constructor.
    - unfold teams_match in *; simpl. apply Forall_app in Hy as [Hy _].
      apply Forall_app_2; [done|]. constructor; [|constructor].
      rw Forall_forall in Hy. by apply Hy.
    - done.
    - by eapply teams_match_complete. }
  apply (Hgen _ Hr). constructor.
Qed.

(** ** A stale answer *)

Definition org_named (id : jstr) : Organization := {|
  Organization_id := id; Organization_name := id; Organization_slug := id; Organization_logo_url := None;
  Organization_settings := Build_OrgSettings None None None None None None None None None None;
  Organization_created_at := []; Organization_updated_at := [] |}.
Definition role_named (value : jstr) (perms : list jstr) : RoleInfo := {|
  RoleInfo_id := value; RoleInfo_scope := "org"; RoleInfo_value := value; RoleInfo_label := value;
  RoleInfo_description := []; RoleInfo_rank := 0; RoleInfo_is_system := true;
  RoleInfo_permissions := perms |}.
Definition demo_roles : reply :=
  RRoles (Some [role_named "owner" [js "org.delete"]; role_named "member" []]).

(** Permissions lack that guard: an answer for the organization that was
    left can arrive after the answers for the one shown, and its permissions
    stay. *)
Theorem stale_permissions_reachable :
  ∃ x, org_reachable x ∧ Organization_id <$> currentOrg (store x) = Some (js "B") ∧
       flight x = [] ∧ hasPermission "org.delete" (store x) = true.
Proof.
  eexists. split_and!; [|shelve..].
  eapply rtc_l; [apply (os_set_org _ _ (org_named "A"))|].
  eapply rtc_l; [apply (os_start _ _ (CMe "A")); done|].
  eapply rtc_l; [apply (os_set_org _ _ (org_named "B"))|].
  eapply rtc_l; [apply (os_start _ _ (CMe "B")); done|].
  (* B answers first: a plain member without permissions *)
  eapply rtc_l; [apply (os_complete _ [CMe "A"] (CMe "B") [] (RMe (Some (js "member")))); done|].
  eapply rtc_l; [apply (os_complete _ [CMe "A"] (CRoles "member") [] demo_roles); done|].
  (* then A, where the user is the owner *)
  eapply rtc_l; [apply (os_complete _ [] (CMe "A") [] (RMe (Some (js "owner")))); done|].
  eapply rtc_l; [apply (os_complete _ [] (CRoles "owner") [] demo_roles); done|].
  apply rtc_refl.
  Unshelve. all: reflexivity.
Qed.

Definition team_named (id orgId : jstr) : Team := {|
  Team_id := id; Team_org_id := orgId; Team_name := id; Team_slug := id; Team_settings := None; Team_created_at := [];
  Team_member_count := 1; Team_domain_count := 0; Team_active_inboxes := 0 |}.
Definition teams_loaded : OrgState :=
  on_teams "A" (RTeams (Some [team_named "t1" "A"])) (setCurrentOrg (org_named "A") org_init).
Lemma teams_belong_to_org_witness :
  teams_match (store (OrgSys teams_loaded [])) ∧ currentTeam teams_loaded = Some (team_named "t1" "A").
Proof.
  split; [|reflexivity]. apply teams_belong_to_org.
  eapply rtc_l; [apply (os_set_org org_init [] (org_named "A"))|].
  eapply rtc_l; [apply (os_start _ _ (CTeams "A")); done|]. apply rtc_once.
  apply (os_complete _ [] (CTeams "A") [] (RTeams (Some [team_named "t1" "A"])) teams_loaded None); [|reflexivity].
  by repeat constructor.
Defined.
