(* ===== verification/React.v ===== *)
(** * What the pages use of React Query and of promises

    A page is a record of its [useState] cells, the page state of the monad
    [M]; an event handler is a program that also takes the state of the render
    it was created in, since a handler closes over those values.

    [useMutation] belongs to a library: it is an interface here, of which the
    pages use one documented fact, [mutate_spec]. *)

From S2P Require Import Prelude Browser.

Record mutation (S A : Type) := {
  mutationFn : A → M S (option json);
  onSuccess : option json → M S unit;
  onError : jserr → M S unit
}.
Arguments mutationFn {S A} _ _.
Arguments onSuccess {S A} _ _.
Arguments onError {S A} _ _.

(** The effect of [mutate(x)]: the function, then the callback of its outcome. *)
Class MutationRunner := {
  mutate {S A} : mutation S A → A → M S unit;
  mutate_spec {S A} (m : mutation S A) (x : A) w :
    mutate m x w =
    match mutationFn m x w with
    | (inr v, w') => onSuccess m v w'
    | (inl e, w') => onError m e w'
    end
}.

(** An implementation of the interface. *)
#[refine] Definition direct_runner : MutationRunner := {|
  mutate S A m x w :=
    match mutationFn m x w with
    | (inr v, w') => onSuccess m v w'
    | (inl e, w') => onError m e w'
    end
|}.
Proof. done. Defined.

(** *** Optimistic mutations: [onMutate] runs first and its result is handed
    to [onError]; [onSettled] runs last. *)
Record optimistic (S A C : Type) := {
  om_fn : A → M S (option json);
  om_onMutate : A → M S C;
  om_onSuccess : option json → M S unit;
  om_onError : jserr → option C → M S unit;
  om_onSettled : M S unit
}.
Arguments om_fn {S A C} _ _.
Arguments om_onMutate {S A C} _ _.
Arguments om_onSuccess {S A C} _ _.
Arguments om_onError {S A C} _ _ _.
Arguments om_onSettled {S A C} _.

Class OptimisticRunner := {
  mutate_om {S A C} : optimistic S A C → A → M S unit;
  mutate_om_spec {S A C} (m : optimistic S A C) (x : A) w :
    mutate_om m x w =
    match om_onMutate m x w with
    | (inl e, w1) => (om_onError m e None;; om_onSettled m) w1
    | (inr c, w1) =>
        match om_fn m x w1 with
        | (inr v, w2) => (om_onSuccess m v;; om_onSettled m) w2
        | (inl e, w2) => (om_onError m e (Some c);; om_onSettled m) w2
        end
    end
}.

#[refine] Definition direct_om : OptimisticRunner := {|
  mutate_om S A C m x w :=
    match om_onMutate m x w with
    | (inl e, w1) => (om_onError m e None;; om_onSettled m) w1
    | (inr c, w1) =>
        match om_fn m x w1 with
        | (inr v, w2) => (om_onSuccess m v;; om_onSettled m) w2
        | (inl e, w2) => (om_onError m e (Some c);; om_onSettled m) w2
        end
    end
|}.
Proof. done. Defined.

(** [Promise.allSettled]: every call is made, in order, and no failure is
    thrown. *)
Fixpoint allSettled {S A} (ms : list (M S A)) : M S (list (jserr + A)) :=
  match ms with
  | [] => mret []
  | m :: ms' => λ w,
      let '(r, w1) := m w in
      match allSettled ms' w1 with
      | (inr rs, w2) => (inr (r :: rs), w2)
      | (inl e, w2) => (inl e, w2)
      end
  end.

Definition rejected {A} (r : jserr + A) : bool := match r with inl _ => true | inr _ => false end.
(** [r.reason instanceof ApiError && r.reason.status === s]. *)
Definition rejected_with {A} (s : Z) (r : jserr + A) : bool :=
  match r with inl e => is_api_status e s | inr _ => false end.

(** [allSettled] succeeds with one result per call. *)
Lemma allSettled_total {S A} (ms : list (M S A)) (w : world S) :
  ∃ rs w', allSettled ms w = (inr rs, w') ∧ length rs = length ms.
Proof.
  revert w; induction ms as [|m ms IH]; intros w; simpl; [by exists [], w|].
  destruct (m w) as [r w1]. destruct (IH w1) as (rs & w' & -> & Hl).
  exists (r :: rs), w'. by rw /= Hl.
Qed.

Lemma allSettled_preserves {S A} (R : relation (world S)) `{!PreOrder R} (ms : list (M S A)) :
  Forall (preserves R) ms → preserves R (allSettled ms).
Proof.
  induction 1 as [|m ms Hm _ IH]; intros w; simpl; [reflexivity|].
  specialize (Hm w). destruct (m w) as [r w1]. specialize (IH w1).
  destruct (allSettled ms w1) as [[e|rs] w2]; simpl in *; by etrans.
Qed.

Definition plural (n : nat) (one many : jstr) : jstr := if (1 <? n)%nat then many else one.
Definition show_nat (n : nat) : jstr := show (Z.of_nat n).

(** A keydown event, as far as the handlers look at it. *)
Record key_event := { key : jstr; targetTag : jstr; ctrlKey : bool; metaKey : bool; altKey : bool }.
Definition typing_tag (tag : jstr) : bool :=
  (tag =?s "INPUT") || (tag =?s "TEXTAREA") || (tag =?s "SELECT").
