(* ===== verification/InboxSocket.v ===== *)
(** * Live updates: [web/src/hooks/use-inbox-socket.ts]

    The hook keeps a WebSocket open for the inbox on screen.  Each run of its
    effect has its own [disposed] flag; the refs are shared by all runs.  What
    happens between two runs of the event loop is a step: a ticket request
    settles, a socket event or a timer fires, React cleans the effect up or
    runs it again, or renders with a new callback.

    WebSocket is the platform's: [close] only starts the closing handshake,
    the [close] event comes later, and messages are delivered while a socket
    is open. *)

From S2P Require Import Prelude.

Definition RECONNECT_DELAYS : list Z := [1000; 2000; 5000; 10000]%Z.

Inductive SocketStatus := connecting | connected | disconnected.
#[export] Instance SocketStatus_eq_dec : EqDecision SocketStatus.
Proof. solve_decision. Defined.

Inductive readyState := CONNECTING | OPEN | CLOSING | CLOSED.
#[export] Instance readyState_eq_dec : EqDecision readyState.
Proof. solve_decision. Defined.

(** One run of the effect, with the inbox it was run for. *)
Record run := { r_inbox : jstr; disposed : bool }.
Record socket := { s_run : nat; s_state : readyState }.
(** A pending or settled [getWsTicket()], or a pending or past timer. *)
Record job := { j_run : nat; pending : bool }.

Record hook := Hook {
  runs : list run;
  tickets : list job;
  sockets : list socket;
  timers : list (job * Z);
  wsRef : option nat;
  retryRef : nat;
  timerRef : option nat;
  onEmailRef : jstr;                 (* the inbox the current callback is for *)
  status : SocketStatus;
  delivered : list (jstr * jstr)     (* the inbox of the socket, that of the callback *)
}.

Definition set_status (x : SocketStatus) (s : hook) : hook :=
  Hook (runs s) (tickets s) (sockets s) (timers s) (wsRef s) (retryRef s) (timerRef s) (onEmailRef s) x (delivered s).
Definition set_tickets (l : list job) (s : hook) : hook :=
  Hook (runs s) l (sockets s) (timers s) (wsRef s) (retryRef s) (timerRef s) (onEmailRef s) (status s) (delivered s).
Definition set_sockets (l : list socket) (s : hook) : hook :=
  Hook (runs s) (tickets s) l (timers s) (wsRef s) (retryRef s) (timerRef s) (onEmailRef s) (status s) (delivered s).
Definition set_timers (l : list (job * Z)) (s : hook) : hook :=
  Hook (runs s) (tickets s) (sockets s) l (wsRef s) (retryRef s) (timerRef s) (onEmailRef s) (status s) (delivered s).
Definition set_wsRef (x : option nat) (s : hook) : hook :=
  Hook (runs s) (tickets s) (sockets s) (timers s) x (retryRef s) (timerRef s) (onEmailRef s) (status s) (delivered s).
Definition set_retryRef (x : nat) (s : hook) : hook :=
  Hook (runs s) (tickets s) (sockets s) (timers s) (wsRef s) x (timerRef s) (onEmailRef s) (status s) (delivered s).
Definition set_timerRef (x : option nat) (s : hook) : hook :=
  Hook (runs s) (tickets s) (sockets s) (timers s) (wsRef s) (retryRef s) x (onEmailRef s) (status s) (delivered s).
Definition set_onEmailRef (x : jstr) (s : hook) : hook :=
  Hook (runs s) (tickets s) (sockets s) (timers s) (wsRef s) (retryRef s) (timerRef s) x (status s) (delivered s).
Definition set_runs (l : list run) (s : hook) : hook :=
  Hook l (tickets s) (sockets s) (timers s) (wsRef s) (retryRef s) (timerRef s) (onEmailRef s) (status s) (delivered s).
Definition add_delivered (x : jstr * jstr) (s : hook) : hook :=
  Hook (runs s) (tickets s) (sockets s) (timers s) (wsRef s) (retryRef s) (timerRef s) (onEmailRef s) (status s)
    (delivered s ++ [x]).

Definition is_disposed (s : hook) (r : nat) : bool :=
  match runs s !! r with Some x => disposed x | None => true end.

(** [RECONNECT_DELAYS[Math.min(retry, RECONNECT_DELAYS.length - 1)]]. *)
Definition reconnect_delay (retry : nat) : Z :=
  default 0%Z (RECONNECT_DELAYS !! (retry `min` (length RECONNECT_DELAYS - 1))).

(** [connect()] up to its first [await]. *)
Definition connect (r : nat) (s : hook) : hook :=
  if is_disposed s r then s
  else set_tickets (tickets s ++ [{| j_run := r; pending := true |}]) (set_status connecting s).

(** The common end of [onclose] and of the [catch] block. *)
Definition retry_later (r : nat) (s : hook) : hook :=
  if is_disposed s r then s
  else
    let delay := reconnect_delay (retryRef s) in
    let s1 := set_retryRef (S (retryRef s)) (set_status disconnected s) in
    set_timerRef (Some (length (timers s)))
      (set_timers (timers s ++ [({| j_run := r; pending := true |}, delay)]) s1).

(** The rest of [connect()]: [ok] is false when the ticket request or the
    WebSocket constructor throws. *)
Definition on_ticket (r : nat) (ok : bool) (s : hook) : hook :=
  if ok then
    if is_disposed s r then s
    else set_wsRef (Some (length (sockets s)))
           (set_sockets (sockets s ++ [{| s_run := r; s_state := CONNECTING |}]) s)
  else retry_later r s.

Definition set_state (k : nat) (x : readyState) (s : hook) : hook :=
  match sockets s !! k with
  | Some c => set_sockets (<[k := {| s_run := s_run c; s_state := x |}]> (sockets s)) s
  | None => s
  end.

(** [ws.close()]. *)
Definition close (k : nat) (s : hook) : hook :=
  match sockets s !! k with
  | Some c => match s_state c with
              | CONNECTING | OPEN => set_state k CLOSING s
              | CLOSING | CLOSED => s
              end
  | None => s
  end.

Definition onopen (r : nat) (s : hook) : hook :=
  let s1 := set_retryRef 0 s in
  if is_disposed s1 r then s1 else set_status connected s1.

(** [parses]: the data is JSON, otherwise the message is dropped. *)
Definition onmessage (r : nat) (parses : bool) (s : hook) : hook :=
  if parses then add_delivered (from_option r_inbox [] (runs s !! r), onEmailRef s) s else s.

Definition onclose (r : nat) (s : hook) : hook := retry_later r (set_wsRef None s).

Definition clearTimeout (i : nat) (s : hook) : hook :=
  match timers s !! i with
  | Some (j, d) => set_timers (<[i := ({| j_run := j_run j; pending := false |}, d)]> (timers s)) s
  | None => s
  end.

(** The cleanup function of run [r]. *)
Definition cleanup (r : nat) (s : hook) : hook :=
  let s1 := match runs s !! r with
            | Some x => set_runs (<[r := {| r_inbox := r_inbox x; disposed := true |}]> (runs s)) s
            | None => s
            end in
  let s2 := match timerRef s1 with Some i => clearTimeout i s1 | None => s1 end in
  let s3 := match wsRef s2 with Some k => close k s2 | None => s2 end in
  set_status disconnected (set_wsRef None s3).

(** The effect for a present user and an inbox. *)
Definition start (inboxId : jstr) (s : hook) : hook :=
  connect (length (runs s)) (set_runs (runs s ++ [{| r_inbox := inboxId; disposed := false |}]) s).

Definition hook_init : hook := Hook [] [] [] [] None 0 None [] disconnected [].

Inductive socket_step : hook → hook → Prop :=
| step_start s inboxId :
    (∀ r, is_disposed s r = true) → truthy inboxId = true → socket_step s (start inboxId s)
| step_cleanup s r : is_disposed s r = false → socket_step s (cleanup r s)
| step_render s inboxId : socket_step s (set_onEmailRef inboxId s)
| step_ticket s i j ok :
    tickets s !! i = Some j → pending j = true →
    socket_step s (on_ticket (j_run j) ok (set_tickets (<[i := {| j_run := j_run j; pending := false |}]> (tickets s)) s))
| step_open s k c :
    sockets s !! k = Some c → s_state c = CONNECTING →
    socket_step s (onopen (s_run c) (set_state k OPEN s))
| step_message s k c parses :
    sockets s !! k = Some c → s_state c = OPEN → socket_step s (onmessage (s_run c) parses s)
| step_error s k c :
    sockets s !! k = Some c → s_state c ≠ CLOSED → socket_step s (close k s)
| step_close s k c :
    sockets s !! k = Some c → s_state c ≠ CLOSED →
    socket_step s (onclose (s_run c) (set_state k CLOSED s))
| step_timer s i j d :
    timers s !! i = Some (j, d) → pending j = true →
    socket_step s (connect (j_run j) (clearTimeout i s)).

Definition socket_reachable (s : hook) : Prop := rtc socket_step hook_init s.

(** ** Invariant *)

#[local] Arguments countb : simpl never.

Definition ticket_of (r : nat) (j : job) : bool := pending j && (j_run j =? r)%nat.
Definition socket_of (r : nat) (c : socket) : bool := bool_decide (s_state c ≠ CLOSED) && (s_run c =? r)%nat.
Definition timer_of (r : nat) (t : job * Z) : bool := ticket_of r (fst t).

(** What is under way for a run: ticket requests, sockets not yet closed, timers. *)
Definition n_tickets (s : hook) (r : nat) : nat := countb (ticket_of r) (tickets s).
Definition n_sockets (s : hook) (r : nat) : nat := countb (socket_of r) (sockets s).
Definition n_timers (s : hook) (r : nat) : nat := countb (timer_of r) (timers s).
Definition activity (s : hook) (r : nat) : nat := n_tickets s r + n_sockets s r + n_timers s r.

(** What the status says of the live run. *)
Definition status_ok (s : hook) (r : nat) : Prop :=
  (status s = disconnected ↔ n_timers s r = 1) ∧
  (status s = connected → n_sockets s r = 1) ∧
  (∀ k c, sockets s !! k = Some c → s_run c = r → s_state c = OPEN → status s = connected).

(** [o] is the live run whose activity has just ended, if it has. *)
Record sinv (o : option nat) (s : hook) : Prop := {
  si_live r : is_disposed s r = false →
    S r = length (runs s) ∧ activity s r = (if decide (o = Some r) then 0 else 1);
  si_dead r : is_disposed s r = true → n_timers s r = 0 ∧ activity s r ≤ 1;
  si_fresh r : length (runs s) ≤ r → activity s r = 0;
  si_status r : is_disposed s r = false → o ≠ Some r → status_ok s r;
  si_timer r i j d : is_disposed s r = false → timers s !! i = Some (j, d) →
    pending j = true → j_run j = r → timerRef s = Some i;
  si_delay i j d : timers s !! i = Some (j, d) → d ∈ RECONNECT_DELAYS
}.

Lemma reconnect_delay_in n : reconnect_delay n ∈ RECONNECT_DELAYS.
Proof.
  unfold reconnect_delay. assert (Hlt : n `min` 3 < 4) by lia. change (length RECONNECT_DELAYS - 1) with 3.
  destruct (n `min` 3) as [|[|[|[|m]]]]; [simpl; set_solver..|lia].
Qed.

Lemma b2n_le (b : bool) : Nat.b2n b ≤ 1.
Proof. destruct b; simpl; lia. Qed.

Lemma is_disposed_spec s r : is_disposed s r = false ↔ ∃ x, runs s !! r = Some x ∧ disposed x = false.
Proof.
  unfold is_disposed. destruct (runs s !! r) as [x|]; split; try naive_solver.
Qed.

(** Two states that agree on everything under way for the runs but [r]. *)
Record same_but (r : nat) (s s' : hook) : Prop := {
  sb_runs : runs s' = runs s;
  sb_other r' : r' ≠ r →
    n_tickets s' r' = n_tickets s r' ∧ n_sockets s' r' = n_sockets s r' ∧ n_timers s' r' = n_timers s r';
  sb_delay i j d : timers s' !! i = Some (j, d) → d ∈ RECONNECT_DELAYS
}.

Lemma same_but_disposed r s s' r' : same_but r s s' → is_disposed s' r' = is_disposed s r'.
Proof. intros [H _ _]. unfold is_disposed. by rw H. Qed.

(** Only the last run is live. *)
Lemma sinv_unique o s r r' : sinv o s → is_disposed s r = false → is_disposed s r' = false → r = r'.
Proof. intros I [? _]%(si_live _ _ I) [? _]%(si_live _ _ I). lia. Qed.

(** Run [r] begins to be busy, or is as busy as before. *)
Lemma sinv_begin o s s' r :
  sinv o s → (o = None ∨ o = Some r) → same_but r s s' → is_disposed s r = false →
  activity s' r = 1 → status_ok s' r →
  (∀ i j d, timers s' !! i = Some (j, d) → pending j = true → j_run j = r → timerRef s' = Some i) →
  sinv None s'.
Proof.
  intros I Ho Hsb Hr Ha Hs Ht. pose proof I as [I1 I2 I3 _ _ _]. pose proof Hsb as [Hruns Hoth Hd].
  assert (Hu : ∀ r', is_disposed s' r' = false → r' = r).
  { intros r' H'. rw (same_but_disposed r s s' r') // in H'. by eapply sinv_unique. }
  assert (Hne : ∀ r', r' ≠ r → activity s' r' = activity s r' ∧ n_timers s' r' = n_timers s r').
  { intros r' (H1 & H2 & H3)%Hoth. unfold activity. lia. }
  destruct (I1 r Hr) as [Hl _].
  split; rw ?Hruns; try done.
  - intros r' H'. rw (Hu r' H'). done.
  - intros r' H'. rw (same_but_disposed r s s' r') // in H'.
    destruct (Hne r') as [-> ->]; [congruence|]. by apply I2.
  - intros r' H'. destruct (Hne r') as [-> _]; [lia|]. by apply I3.
  - intros r' H' _. by rw (Hu r' H').
  - intros r' i j d H'. rw (Hu r' H'). apply Ht.
Qed.

(** What was under way for run [r] comes to its end; a disposed run may also
    be as busy as before. *)
Lemma sinv_end s s' r :
  sinv None s → same_but r s s' → activity s' r ≤ activity s r →
  (is_disposed s r = false → activity s' r = 0) → n_timers s' r ≤ n_timers s r →
  status s' = status s → timerRef s' = timerRef s →
  (∀ k c, sockets s' !! k = Some c → s_run c ≠ r → sockets s !! k = Some c) →
  (∀ i j d, timers s' !! i = Some (j, d) → pending j = true → timers s !! i = Some (j, d)) →
  sinv (if is_disposed s r then None else Some r) s'.
Proof.
  intros I Hsb Ha Ha0 Hle Hst Htr Hso Hti. pose proof I as [I1 I2 I3 I4 I5 _]. pose proof Hsb as [Hruns Hoth Hd].
  assert (Hne : ∀ r', r' ≠ r → activity s' r' = activity s r' ∧ n_timers s' r' = n_timers s r').
  { intros r' (H1 & H2 & H3)%Hoth. unfold activity. lia. }
  split; rw ?Hruns ?Htr; intros r'; rw ?(same_but_disposed r s s' r') //.
  - intros H'. destruct (I1 r' H') as [Hl H1]. split; [done|]. simpl in H1.
    destruct (decide (r' = r)) as [->|Hn].
    + rw H' decide_True //. by rw Ha0.
    + destruct (Hne r' Hn) as [-> _]. rw decide_False //.
      destruct (is_disposed s r); congruence.
  - intros H'. destruct (I2 r' H') as [H1 H2].
    destruct (decide (r' = r)) as [->|Hn]; [lia|]. destruct (Hne r' Hn) as [-> ->]. done.
  - intros H'. specialize (I3 r' H').
    destruct (decide (r' = r)) as [->|Hn]; [lia|]. by destruct (Hne r' Hn) as [-> _].
  - intros H' Ho. assert (Hn : r' ≠ r). { intros ->. by rw H' in Ho. }
    destruct (I4 r' H') as (S1 & S2 & S3); [done|]. destruct (Hoth r' Hn) as (_ & E2 & E3).
    unfold status_ok. rw Hst E2 E3. split_and!; [done..|].
    intros k c Hk Hc. apply (S3 k); [|done]. apply Hso; [done|congruence].
  - eauto.
  - eauto.
Qed.

(** The job of run [r] changes from [x] to [y] in a list. *)
Lemma count_other {A} (p : A → bool) l i x y :
  l !! i = Some x → p x = p y → countb p (<[i := y]> l) = countb p l.
Proof. intros Hi Hp. pose proof (countb_insert p l i y x Hi). rw Hp in H. lia. Qed.
Lemma count_end {A} (p : A → bool) l i x y :
  l !! i = Some x → p x = true → p y = false → S (countb p (<[i := y]> l)) = countb p l.
Proof. intros Hi Hx Hy. pose proof (countb_insert p l i y x Hi). rw Hx Hy in H. simpl in H. lia. Qed.
Lemma count_snoc_other {A} (p : A → bool) l x : p x = false → countb p (l ++ [x]) = countb p l.
Proof. intros Hp. rw countb_snoc Hp. simpl. lia. Qed.

Lemma ticket_of_false r j : j_run j ≠ r → ticket_of r j = false.
Proof. intros H. unfold ticket_of. apply Nat.eqb_neq in H. rw H. apply andb_false_r. Qed.
Lemma socket_of_false r c : s_run c ≠ r → socket_of r c = false.
Proof. intros H. unfold socket_of. apply Nat.eqb_neq in H. rw H. apply andb_false_r. Qed.
Lemma socket_of_true r c : s_run c = r → s_state c ≠ CLOSED → socket_of r c = true.
Proof. intros <- H. unfold socket_of. rw Nat.eqb_refl bool_decide_true //. Qed.
Lemma ticket_of_true r j : pending j = true → j_run j = r → ticket_of r j = true.
Proof. intros H <-. unfold ticket_of. by rw H Nat.eqb_refl. Qed.

Lemma idle_no_socket s r k c :
  n_sockets s r = 0 → sockets s !! k = Some c → s_run c = r → s_state c = CLOSED.
Proof.
  intros H0 Hk Hc. destruct (decide (s_state c = CLOSED)) as [|Hn]; [done|].
  pose proof (countb_pos (socket_of r) (sockets s) k c Hk (socket_of_true r c Hc Hn)).
  unfold n_sockets in H0. lia.
Qed.

Lemma idle_counts s r : sinv (Some r) s → is_disposed s r = false →
  n_tickets s r = 0 ∧ n_sockets s r = 0 ∧ n_timers s r = 0.
Proof. intros I [_ H]%(si_live _ _ I). rw decide_True // in H. unfold activity in H. lia. Qed.

Lemma connect_inv s r :
  sinv (if is_disposed s r then None else Some r) s → sinv None (connect r s).
Proof.
  unfold connect. destruct (is_disposed s r) eqn:Hr; [done|]. intros I.
  destruct (idle_counts s r I Hr) as (E1 & E2 & E3).
  eapply (sinv_begin (Some r) s _ r); [done|by right| |done|..].
  - split; cbn; [done| |by apply I]. intros r' Hn. split_and!; [|done..].
    apply count_snoc_other, ticket_of_false. done.
  - unfold activity. cbn -[ticket_of]. unfold n_tickets, n_sockets, n_timers in *. cbn. rw countb_snoc ticket_of_true //=. lia.
  - unfold status_ok. cbn. split_and!; [split; [done|]|done|].
    + change (n_timers _ r) with (n_timers s r). lia.
    + intros k c Hk Hc Ho. rw (idle_no_socket s r k c) // in Ho.
  - intros i j d Hi Hp Hj. by eapply (si_timer _ _ I).
Qed.

Lemma retry_later_inv s r :
  sinv (if is_disposed s r then None else Some r) s → sinv None (retry_later r s).
Proof.
  unfold retry_later. destruct (is_disposed s r) eqn:Hr; [done|]. intros I.
  destruct (idle_counts s r I Hr) as (E1 & E2 & E3).
  eapply (sinv_begin (Some r) s _ r); [done|by right| |done|..].
  - split; cbn; [done| |].
    + intros r' Hn. split_and!; [done..|]. apply count_snoc_other, ticket_of_false. done.
    + intros i j d [[_ Hi]|[_ [= <- <-]]]%lookup_snoc_Some; [by eapply (si_delay _ _ I)|apply reconnect_delay_in].
  - unfold activity, n_tickets, n_sockets, n_timers in *. cbn. rw countb_snoc. cbn. rw Nat.eqb_refl /=. lia.
  - unfold status_ok, n_tickets, n_sockets, n_timers in *. cbn. rw countb_snoc E3. cbn. rw Nat.eqb_refl /=.
    split_and!; [done..|]. intros k c Hk Hc Ho. rw (idle_no_socket s r k c) // in Ho.
  - cbn. intros i j d [[_ Hi]|[Hi [= <- <-]]]%lookup_snoc_Some Hp Hj.
    + exfalso. pose proof (countb_pos (timer_of r) (timers s) i (j, d) Hi (ticket_of_true r j Hp Hj)).
      unfold n_timers in E3. lia.
    + by rw Hi.
Qed.

Lemma on_ticket_inv s r ok :
  sinv (if is_disposed s r then None else Some r) s → status s = connecting ∨ is_disposed s r = true →
  sinv None (on_ticket r ok s).
Proof.
  unfold on_ticket. destruct ok; [|intros; by apply retry_later_inv].
  destruct (is_disposed s r) eqn:Hr; [done|]. intros I [Hs|]; [|done].
  destruct (idle_counts s r I Hr) as (E1 & E2 & E3).
  eapply (sinv_begin (Some r) s _ r); [done|by right| |done|..].
  - split; cbn; [done| |by apply I]. intros r' Hn. split_and!; [done| |done].
    apply count_snoc_other, socket_of_false. done.
  - unfold activity, n_tickets, n_sockets, n_timers in *. cbn. rw countb_snoc socket_of_true //=. lia.
  - unfold status_ok, n_tickets, n_sockets, n_timers in *. cbn. rw Hs E3. split_and!; [split; done|done|].
    intros k c [[_ Hk]|[_ <-]]%lookup_snoc_Some Hc Ho; [|done]. rw (idle_no_socket s r k c) // in Ho.
  - cbn. intros i j d Hi Hp Hj. by eapply (si_timer _ _ I).
Qed.

Lemma sinv_ext o s s' :
  sinv o s → runs s' = runs s → tickets s' = tickets s → sockets s' = sockets s → timers s' = timers s →
  timerRef s' = timerRef s → status s' = status s → sinv o s'.
Proof.
  intros [I1 I2 I3 I4 I5 I6] E1 E2 E3 E4 E5 E6.
  destruct s, s'; simpl in *; subst. by split.
Qed.

(** A ticket request settles. *)
Lemma ticket_settles s i j :
  sinv None s → tickets s !! i = Some j → pending j = true →
  let s' := set_tickets (<[i := {| j_run := j_run j; pending := false |}]> (tickets s)) s in
  sinv (if is_disposed s (j_run j) then None else Some (j_run j)) s' ∧
  (status s = connecting ∨ is_disposed s (j_run j) = true).
Proof.
  intros I Hi Hp s'. set (r := j_run j).
  assert (Hend : S (n_tickets s' r) = n_tickets s r).
  { apply (count_end _ _ i j); [done|by apply ticket_of_true|done]. }
  split.
  - apply (sinv_end s s' r); unfold activity; cbn -[n_tickets]; try done.
    + split; cbn; [done| |by apply I]. intros r' Hn. split_and!; [|done..].
      apply (count_other _ _ i j); [done|]. by rw !ticket_of_false.
    + change (n_sockets s' r) with (n_sockets s r). change (n_timers s' r) with (n_timers s r). lia.
    + intros Hr. destruct (si_live _ _ I r Hr) as [_ Ha]. unfold activity in Ha. simpl in Ha.
      change (n_sockets s' r) with (n_sockets s r). change (n_timers s' r) with (n_timers s r). lia.
  - destruct (is_disposed s r) eqn:Hr; [by right|left].
    destruct (si_live _ _ I r Hr) as [_ Ha]. unfold activity in Ha. simpl in Ha.
    destruct (si_status _ _ I r Hr) as (S1 & S2 & _); [done|].
    destruct (status s); [done| |]; [specialize (S2 eq_refl)|pose proof (proj1 S1 eq_refl)]; lia.
Qed.

(** A timer fires. *)
Lemma timer_fires s i j d :
  sinv None s → timers s !! i = Some (j, d) → pending j = true →
  sinv (if is_disposed s (j_run j) then None else Some (j_run j)) (clearTimeout i s).
Proof.
  intros I Hi Hp. set (r := j_run j). unfold clearTimeout. rw Hi.
  set (l := <[i := _]> (timers s)).
  assert (Hend : S (countb (timer_of r) l) = n_timers s r).
  { apply (count_end _ _ i (j, d)); [done|by apply ticket_of_true|done]. }
  assert (Hold : ∀ i' j' d', l !! i' = Some (j', d') → pending j' = true → timers s !! i' = Some (j', d')).
  { intros i' j' d' H' Hp'. destruct (decide (i' = i)) as [->|Hn].
    - rw list_lookup_insert_eq in H'; [|by eapply lookup_lt_Some]. by simplify_eq.
    - rw list_lookup_insert_ne // in H'. }
  apply (sinv_end s _ r); unfold activity, n_timers, n_tickets, n_sockets in *; cbn; try done; try lia.
  - split; cbn; [done| |].
    + intros r' Hn. split_and!; [done..|]. apply (count_other _ _ i (j, d)); [done|].
      unfold timer_of. cbn [fst]. by rw !ticket_of_false.
    + intros i' j' d' H'. destruct (decide (i' = i)) as [->|Hn].
      * rw list_lookup_insert_eq in H'; [|by eapply lookup_lt_Some]. simplify_eq. by eapply (si_delay _ _ I).
      * rw list_lookup_insert_ne // in H'. by eapply (si_delay _ _ I).
  - intros Hr. destruct (si_live _ _ I r Hr) as [_ Ha].
    unfold activity, n_timers, n_tickets, n_sockets in Ha. simpl in Ha. lia.
Qed.

Section socket_events.
Context (s : hook) (k : nat) (c : socket) (I : sinv None s).
Context (Hk : sockets s !! k = Some c) (Hc : s_state c ≠ CLOSED).

Lemma set_state_sockets x : sockets (set_state k x s) = <[k := {| s_run := s_run c; s_state := x |}]> (sockets s).
Proof. unfold set_state. by rw Hk. Qed.

Lemma set_state_lookup x k' c' :
  sockets (set_state k x s) !! k' = Some c' →
  (k' = k ∧ c' = {| s_run := s_run c; s_state := x |}) ∨ (k' ≠ k ∧ sockets s !! k' = Some c').
Proof.
  rw set_state_sockets. destruct (decide (k' = k)) as [->|Hn].
  - rw list_lookup_insert_eq; [|by eapply lookup_lt_Some]. intros [= <-]. by left.
  - rw list_lookup_insert_ne //. by right.
Qed.

Lemma set_state_same_but x : same_but (s_run c) s (set_state k x s).
Proof.
  unfold set_state. rw Hk. split; cbn; [done| |by apply I]. intros r' Hn. split_and!; [done| |done].
  apply (count_other _ _ k c); [done|]. by rw !socket_of_false.
Qed.

Lemma set_state_open x : x ≠ CLOSED → n_sockets (set_state k x s) (s_run c) = n_sockets s (s_run c).
Proof.
  intros Hx. unfold n_sockets. rw set_state_sockets. apply (count_other _ _ k c); [done|].
  by rw !socket_of_true.
Qed.

Lemma set_state_rest x :
  n_tickets (set_state k x s) = n_tickets s ∧ n_timers (set_state k x s) = n_timers s ∧
  status (set_state k x s) = status s ∧ timerRef (set_state k x s) = timerRef s ∧
  timers (set_state k x s) = timers s.
Proof. unfold set_state. by rw Hk. Qed.

(** A closed socket. *)
Lemma socket_closes :
  sinv (if is_disposed s (s_run c) then None else Some (s_run c)) (set_state k CLOSED s).
Proof.
  destruct (set_state_rest CLOSED) as (E1 & E2 & E3 & E4 & E5). set (r := s_run c).
  assert (Hend : S (n_sockets (set_state k CLOSED s) r) = n_sockets s r).
  { unfold n_sockets. rw set_state_sockets. apply (count_end _ _ k c); [done|by apply socket_of_true|done]. }
  apply (sinv_end s _ r); unfold activity; rw ?E1 ?E2 ?E3 ?E4 ?E5; try done; try lia.
  - apply set_state_same_but.
  - intros Hr. destruct (si_live _ _ I r Hr) as [_ Ha]. unfold activity in Ha. simpl in Ha. lia.
  - intros k' c' [[-> ->]|[_ ?]]%set_state_lookup; done.
Qed.

(** A socket of a disposed run moves on. *)
Lemma socket_moves_dead x : x ≠ CLOSED → is_disposed s (s_run c) = true → sinv None (set_state k x s).
Proof.
  intros Hx Hr. destruct (set_state_rest x) as (E1 & E2 & E3 & E4 & E5). set (r := s_run c).
  pose proof (sinv_end s (set_state k x s) r) as Hend. rw Hr in Hend.
  apply Hend; unfold activity; rw ?E1 ?E2 ?E3 ?E4 ?E5 ?set_state_open //; try lia.
  - apply set_state_same_but.
  - intros k' c' [[-> ->]|[_ ?]]%set_state_lookup; done.
Qed.

(** The live run has this socket under way, and nothing else. *)
Lemma socket_only : is_disposed s (s_run c) = false →
  n_tickets s (s_run c) = 0 ∧ n_sockets s (s_run c) = 1 ∧ n_timers s (s_run c) = 0.
Proof.
  intros Hr. destruct (si_live _ _ I _ Hr) as [_ Ha]. unfold activity in Ha. simpl in Ha.
  pose proof (countb_pos (socket_of (s_run c)) (sockets s) k c Hk (socket_of_true _ _ eq_refl Hc)) as Hpos.
  unfold n_sockets in *. lia.
Qed.

(** A socket of the live run moves on, with the status [x'] for the state [x]. *)
Lemma socket_moves_live x x' s' :
  x ≠ CLOSED → is_disposed s (s_run c) = false → (x = OPEN → x' = connected) → x' ≠ disconnected →
  (∀ k' c', sockets s !! k' = Some c' → s_run c' = s_run c → s_state c' = OPEN → k' ≠ k → x' = connected) →
  runs s' = runs s → tickets s' = tickets s → sockets s' = sockets (set_state k x s) → timers s' = timers s →
  timerRef s' = timerRef s → status s' = x' → sinv None s'.
Proof.
  intros Hx Hr Hox Hxd Hoth R1 R2 R3 R4 R5 R6. destruct (socket_only Hr) as (E1 & E2 & E3).
  assert (Hn : ∀ r, n_tickets s' r = n_tickets s r ∧ n_timers s' r = n_timers s r ∧
                    n_sockets s' r = n_sockets (set_state k x s) r).
  { intros r. unfold n_tickets, n_timers, n_sockets. by rw R2 R4 R3. }
  destruct (Hn (s_run c)) as (N1 & N2 & N3).
  apply (sinv_begin None s s' (s_run c)); [done|by left| |done|..].
  - split; [done| |].
    + intros r' Hne. destruct (Hn r') as (-> & -> & ->). split_and!; [done| |done].
      by apply (sb_other _ _ _ (set_state_same_but x)).
    + rw R4. by apply I.
  - unfold activity. rw N1 N2 N3 set_state_open //. lia.
  - unfold status_ok. rw N2 N3 R3 R6 E3 set_state_open // E2. split_and!; [split; done|done|].
    intros k' c' [[-> ->]|[Hne Hk']]%set_state_lookup Hr' Ho; [by apply Hox|]. by eapply Hoth.
  - rw R4 R5. intros i j d Hi Hp Hj. by eapply (si_timer _ _ I).
Qed.
End socket_events.

Lemma onopen_inv s k c :
  sinv None s → sockets s !! k = Some c → s_state c = CONNECTING →
  sinv None (onopen (s_run c) (set_state k OPEN s)).
Proof.
  intros I Hk Hc. assert (Hn : s_state c ≠ CLOSED) by (by rw Hc).
  destruct (set_state_rest s k c Hk OPEN) as (E1 & E2 & E3 & E4 & E5).
  unfold onopen. set (s1 := set_retryRef 0 (set_state k OPEN s)).
  assert (Hd : is_disposed s1 (s_run c) = is_disposed s (s_run c)).
  { apply (same_but_disposed (s_run c) s (set_state k OPEN s)). by apply set_state_same_but. }
  rw Hd. destruct (is_disposed s (s_run c)) eqn:Hr.
  - apply (sinv_ext None (set_state k OPEN s)); try done. by eapply socket_moves_dead.
  - apply (socket_moves_live s k c I Hk Hn OPEN connected); try done; unfold s1, set_state; by rw Hk.
Qed.

Lemma close_inv s k : sinv None s → sinv None (close k s).
Proof.
  intros I. unfold close. destruct (sockets s !! k) as [c|] eqn:Hk; [|done].
  destruct (decide (s_state c = CLOSED)) as [->|Hn]; [done|].
  assert (Hgo : sinv None (set_state k CLOSING s)).
  { destruct (is_disposed s (s_run c)) eqn:Hr; [by eapply socket_moves_dead|].
    destruct (socket_only s k c I Hk Hn Hr) as (_ & _ & E3).
    destruct (si_status _ _ I _ Hr) as (S1 & S2 & S3); [done|].
    apply (socket_moves_live s k c I Hk Hn CLOSING (status s)); try done.
    1: intros Hx%S1; lia. 1: intros k' c' Hk' Hr' Ho _; by eapply S3.
    all: unfold set_state; by rw Hk. }
  by destruct (s_state c).
Qed.

(** With no live run the status is free. *)
Lemma sinv_all_dead s :
  (∀ r, is_disposed s r = true) → (∀ r, n_timers s r = 0 ∧ activity s r ≤ 1) →
  (∀ r, length (runs s) ≤ r → activity s r = 0) →
  (∀ i j d, timers s !! i = Some (j, d) → d ∈ RECONNECT_DELAYS) → sinv None s.
Proof. intros Hd Ha Hf Hdel. split; auto; intros r; rw Hd; done. Qed.

Lemma clearTimeout_frame i s :
  runs (clearTimeout i s) = runs s ∧ tickets (clearTimeout i s) = tickets s ∧
  sockets (clearTimeout i s) = sockets s ∧ wsRef (clearTimeout i s) = wsRef s ∧
  (∀ r, n_timers (clearTimeout i s) r ≤ n_timers s r) ∧
  (∀ i' j d, timers (clearTimeout i s) !! i' = Some (j, d) → ∃ j0, timers s !! i' = Some (j0, d)).
Proof.
  unfold clearTimeout. destruct (timers s !! i) as [[j d]|] eqn:Hi; [|by eauto 10].
  split_and!; try done; cbn.
  - intros r. unfold n_timers. cbn.
    pose proof (countb_insert (timer_of r) (timers s) i ({| j_run := j_run j; pending := false |}, d) (j, d) Hi) as E.
    cbn in E. lia.
  - intros i' j' d' H'. destruct (decide (i' = i)) as [->|Hn].
    + rw list_lookup_insert_eq in H'; [|by eapply lookup_lt_Some]. simplify_eq. eauto.
    + rw list_lookup_insert_ne // in H'. eauto.
Qed.

(** The live run's timer, if it has one, is the one in the ref. *)
Lemma clear_live s r : sinv None s → is_disposed s r = false →
  match timerRef s with Some i => n_timers (clearTimeout i s) r | None => n_timers s r end = 0.
Proof.
  intros I Hr. destruct (decide (n_timers s r = 0)) as [H0|H0].
  { destruct (timerRef s) as [i|]; [|done].
    destruct (clearTimeout_frame i s) as (_ & _ & _ & _ & Hle & _). specialize (Hle r). lia. }
  destruct (countb_witness (timer_of r) (timers s)) as (i & [j d] & Hi & Hp).
  { unfold n_timers in H0. lia. }
  unfold timer_of, ticket_of in Hp. apply andb_prop in Hp as [Hp Hj]. apply Nat.eqb_eq in Hj. simpl in *.
  rw (si_timer _ _ I r i j d) //. unfold clearTimeout. rw Hi. unfold n_timers in *. cbn.
  destruct (si_live _ _ I r Hr) as [_ Ha]. unfold activity, n_timers in Ha. simpl in Ha.
  pose proof (count_end (timer_of r) (timers s) i (j, d) ({| j_run := j_run j; pending := false |}, d) Hi) as E.
  rw -E in Ha; [lia| |done]. by apply ticket_of_true.
Qed.

(** The first half of the cleanup: the flag and the timer. *)
Definition dispose (r : nat) (s : hook) : hook :=
  match runs s !! r with
  | Some x => set_runs (<[r := {| r_inbox := r_inbox x; disposed := true |}]> (runs s)) s
  | None => s
  end.
Definition dispose_clear (r : nat) (s : hook) : hook :=
  match timerRef (dispose r s) with Some i => clearTimeout i (dispose r s) | None => dispose r s end.

Lemma dispose_dead s r r' : sinv None s → is_disposed s r = false → is_disposed (dispose r s) r' = true.
Proof.
  intros I Hr. pose proof Hr as (x & Hx & _)%is_disposed_spec. unfold is_disposed, dispose. rw Hx. cbn.
  destruct (decide (r' = r)) as [->|Hn].
  - rw list_lookup_insert_eq //. by eapply lookup_lt_Some.
  - rw list_lookup_insert_ne //. destruct (is_disposed s r') eqn:H'; [done|].
    by rw (sinv_unique None s r' r) in Hn.
Qed.

Lemma dispose_clear_frame s r :
  runs (dispose_clear r s) = runs (dispose r s) ∧ length (runs (dispose r s)) = length (runs s) ∧
  (∀ r', n_timers (dispose_clear r s) r' ≤ n_timers s r' ∧ activity (dispose_clear r s) r' ≤ activity s r') ∧
  (∀ i j d, timers (dispose_clear r s) !! i = Some (j, d) → ∃ j0, timers s !! i = Some (j0, d)).
Proof.
  unfold dispose_clear. set (s1 := dispose r s).
  assert (E : tickets s1 = tickets s ∧ sockets s1 = sockets s ∧ timers s1 = timers s ∧ length (runs s1) = length (runs s)).
  { unfold s1, dispose. destruct (runs s !! r); cbn; by rw ?length_insert. }
  destruct E as (E1 & E2 & E3 & E4).
  destruct (timerRef s1) as [i|].
  - destruct (clearTimeout_frame i s1) as (F1 & F2 & F3 & _ & F4 & F5). rw E3 in F5. split_and!; [done..| |done].
    intros r'. specialize (F4 r'). unfold activity, n_tickets, n_sockets, n_timers in *. rw F2 F3 E1 E2.
    rw E3 in F4. lia.
  - split_and!; [done..| |rw E3; eauto].
    intros r'. unfold activity, n_tickets, n_sockets, n_timers. by rw E1 E2 E3.
Qed.

Lemma dispose_clear_live s r :
  sinv None s → is_disposed s r = false → n_timers (dispose_clear r s) r = 0.
Proof.
  intros I Hr. pose proof (clear_live s r I Hr) as H0. unfold dispose_clear.
  pose proof Hr as (x & Hx & _)%is_disposed_spec. unfold dispose. rw Hx. cbn.
  destruct (timerRef s) as [i|]; [|done]. unfold clearTimeout in *. cbn.
  by destruct (timers s !! i) as [[? ?]|].
Qed.

Lemma dispose_clear_inv s r :
  sinv None s → is_disposed s r = false →
  sinv None (dispose_clear r s) ∧ ∀ r', is_disposed (dispose_clear r s) r' = true.
Proof.
  intros I Hr. destruct (dispose_clear_frame s r) as (F1 & F2 & F3 & F4).
  assert (Hdead : ∀ r', is_disposed (dispose_clear r s) r' = true).
  { intros r'. unfold is_disposed. rw F1. by apply dispose_dead. }
  split; [|done]. apply sinv_all_dead; [done| | |].
  - intros r'. destruct (F3 r') as [Hle1 Hle2]. destruct (is_disposed s r') eqn:H'.
    + destruct (si_dead _ _ I r' H'). lia.
    + rw (sinv_unique None s r' r) // in Hle1, Hle2 |- *. rw dispose_clear_live //.
      destruct (si_live _ _ I r Hr) as [_ Ha]. simpl in Ha. lia.
  - intros r'. rw F1 F2. intros H'. pose proof (si_fresh _ _ I r' H'). destruct (F3 r'). lia.
  - intros i j d (j0 & Hj)%F4. by eapply (si_delay _ _ I).
Qed.

Lemma cleanup_inv s r : sinv None s → is_disposed s r = false → sinv None (cleanup r s).
Proof.
  intros I Hr. destruct (dispose_clear_inv s r I Hr) as [I2 Hdead2].
  unfold cleanup. fold (dispose r s). fold (dispose_clear r s).
  set (s2 := dispose_clear r s) in *.
  set (s3 := match wsRef s2 with Some k => close k s2 | None => s2 end).
  assert (I3 : sinv None s3 ∧ ∀ r', is_disposed s3 r' = true).
  { unfold s3. destruct (wsRef s2) as [k|]; [|done]. split; [by apply close_inv|].
    intros r'. unfold close, set_state. destruct (sockets s2 !! k) as [c|]; [destruct (s_state c)|]; apply Hdead2. }
  destruct I3 as [I3 Hdead3]. apply sinv_all_dead; [done|..].
  - intros r'. apply (si_dead _ _ I3 r' (Hdead3 r')).
  - intros r'. apply (si_fresh _ _ I3 r').
  - apply (si_delay _ _ I3).
Qed.

Lemma start_inv s inboxId : sinv None s → (∀ r, is_disposed s r = true) → sinv None (start inboxId s).
Proof.
  intros I Hd. unfold start. apply connect_inv. set (r := length (runs s)).
  set (s1 := set_runs _ s).
  assert (Hr : ∀ r', is_disposed s1 r' = negb (r' =? r)%nat).
  { intros r'. unfold is_disposed, s1. cbn. destruct (Nat.eqb_spec r' r) as [->|Hn].
    - unfold r. by rw list_lookup_middle.
    - destruct (decide (r' < r)) as [Hlt|]; unfold r in *.
      + rw lookup_app_l //. apply Hd.
      + rw lookup_ge_None_2 // length_app /=. lia. }
  assert (Hold : ∀ r', n_timers s1 r' = n_timers s r' ∧ activity s1 r' = activity s r') by done.
  rw Hr Nat.eqb_refl /=. split; unfold s1; cbn; rw ?length_app /=; fold s1; fold r.
  - intros r'. rw Hr. destruct (Nat.eqb_spec r' r) as [->|]; [|done]. intros _.
    rw decide_True //. split; [lia|]. by apply (si_fresh _ _ I).
  - intros r' _. apply (si_dead _ _ I r' (Hd r')).
  - intros r' H'. apply (si_fresh _ _ I). fold r. lia.
  - intros r'. rw Hr. destruct (Nat.eqb_spec r' r) as [->|]; done.
  - intros r' i j d. rw Hr. destruct (Nat.eqb_spec r' r) as [->|]; [|done]. intros _ Hi Hp Hj.
    pose proof (si_fresh _ _ I r (Nat.le_refl _)) as H0. unfold activity, n_timers in H0.
    pose proof (countb_pos (timer_of r) (timers s) i (j, d) Hi (ticket_of_true r j Hp Hj)). lia.
  - apply (si_delay _ _ I).
Qed.

Lemma socket_step_inv s s' : socket_step s s' → sinv None s → sinv None s'.
Proof.
  intros Hstep I. destruct Hstep as [s inbox Hd Ht|s r Hr|s inbox|s i j ok Hi Hp|s k c Hk Hc|s k c parses Hk Hc
    |s k c Hk Hc|s k c Hk Hc|s i j d Hi Hp].
  - by apply start_inv.
  - by apply cleanup_inv.
  - by apply (sinv_ext None s).
  - destruct (ticket_settles s i j I Hi Hp) as [I' Hs]. by apply on_ticket_inv.
  - by apply onopen_inv.
  - unfold onmessage. destruct parses; [|done]. by apply (sinv_ext None s).
  - by apply close_inv.
  - unfold onclose. apply retry_later_inv.
    pose proof (socket_closes s k c I Hk Hc) as I'.
    rw -(same_but_disposed (s_run c) s (set_state k CLOSED s)) in I'; [|by apply set_state_same_but].
    by apply (sinv_ext _ (set_state k CLOSED s)).
  - pose proof (timer_fires s i j d I Hi Hp) as I'. apply connect_inv.
    destruct (clearTimeout_frame i s) as (E & _). unfold is_disposed in *. by rw E.
Qed.

Lemma socket_reachable_inv s : socket_reachable s → sinv None s.
Proof.
  revert s. apply (rtc_ind_r (sinv None) hook_init).
  - apply sinv_all_dead; [intros [|]; done|intros r; vm_compute; lia|done|by intros [|]].
  - intros s s' _ Hst I. by eapply socket_step_inv.
Qed.

(** C11: the hook never loses or duplicates its connection: for the inbox on
    screen exactly one thing is under way at any time, a ticket request, a
    socket or a reconnection timer, and the status shown says which; runs that
    were cleaned up have no timer left, and every delay is one of the table. *)
Theorem socket_one_activity (s : hook) :
  socket_reachable s →
  (∀ r, is_disposed s r = false →
     S r = length (runs s) ∧ activity s r = 1 ∧
     (status s = disconnected ↔ n_timers s r = 1) ∧
     (status s = connected → n_sockets s r = 1) ∧
     (∀ k c, sockets s !! k = Some c → s_run c = r → s_state c = OPEN → status s = connected)) ∧
  (∀ r, is_disposed s r = true → n_timers s r = 0 ∧ activity s r ≤ 1) ∧
  (∀ i j d, timers s !! i = Some (j, d) → d ∈ RECONNECT_DELAYS).
Proof.
  intros I%socket_reachable_inv. split_and!.
  - intros r Hr. destruct (si_live _ _ I r Hr). destruct (si_status _ _ I r Hr); done.
  - apply (si_dead _ _ I).
  - apply (si_delay _ _ I).
Qed.

(** ** Reconnection *)

Definition can_connect (s : hook) (r : nat) : Prop :=
  ∃ s', rtc socket_step s s' ∧ status s' = connected ∧ is_disposed s' r = false.

Lemma can_connect_step s s' r : socket_step s s' → can_connect s' r → can_connect s r.
Proof. intros Hst (s'' & ? & ? & ?). exists s''. split_and!; [by eapply rtc_l|done..]. Qed.

Lemma connecting_can_connect s k r :
  sockets s !! k = Some {| s_run := r; s_state := CONNECTING |} → is_disposed s r = false → can_connect s r.
Proof.
  intros Hk Hr. eapply can_connect_step; [by eapply step_open|]. exists (onopen r (set_state k OPEN s)).
  split; [apply rtc_refl|]. unfold onopen, set_state. cbn [s_run]. rw Hk.
  change (is_disposed (set_retryRef 0 _) r) with (is_disposed s r). by rw Hr.
Qed.

Lemma ticket_can_connect s i j :
  tickets s !! i = Some j → pending j = true → is_disposed s (j_run j) = false → can_connect s (j_run j).
Proof.
  intros Hi Hp Hr. eapply can_connect_step; [by eapply (step_ticket _ i j true)|]. unfold on_ticket.
  change (is_disposed (set_tickets _ s) (j_run j)) with (is_disposed s (j_run j)). rw Hr.
  apply (connecting_can_connect _ (length (sockets s))); [|exact Hr]. cbn. by rw list_lookup_middle.
Qed.

Lemma timer_can_connect s i j d :
  timers s !! i = Some (j, d) → pending j = true → is_disposed s (j_run j) = false → can_connect s (j_run j).
Proof.
  intros Hi Hp Hr. eapply can_connect_step; [by eapply step_timer|]. unfold connect, clearTimeout. rw Hi.
  change (is_disposed (set_timers _ s) (j_run j)) with (is_disposed s (j_run j)). rw Hr.
  eapply (ticket_can_connect _ (length (tickets s)) {| j_run := j_run j; pending := true |}); [|done|exact Hr].
  cbn. by rw list_lookup_middle.
Qed.

(** C12: the hook never gives up: from every reachable state with an inbox on
    screen the remaining events can lead to a connected socket. *)
Theorem socket_reconnects (s : hook) (r : nat) :
  socket_reachable s → is_disposed s r = false → can_connect s r.
Proof.
  intros I%socket_reachable_inv Hr. destruct (si_live _ _ I r Hr) as [_ Ha]. simpl in Ha.
  unfold activity in Ha.
  assert (Hc : 0 < n_tickets s r ∨ 0 < n_sockets s r ∨ 0 < n_timers s r) by lia.
  destruct Hc as [H|[H|H]]; apply countb_witness in H.
  - destruct H as (i & j & Hi & [Hp Hj%Nat.eqb_eq]%andb_prop). subst r. by eapply ticket_can_connect.
  - destruct H as (k & [r0 x] & Hk & [Hx Hc%Nat.eqb_eq]%andb_prop). simpl in *. subst r0. destruct x.
    + by eapply connecting_can_connect.
    + exists s. split_and!; [apply rtc_refl| |done].
      destruct (si_status _ _ I r Hr) as (_ & _ & S3); [done|]. by eapply S3.
    + eapply can_connect_step; [by eapply (step_close s k)|]. unfold onclose, retry_later, set_state. cbn. rw Hk.
      change (is_disposed (set_wsRef None _) r) with (is_disposed s r). rw Hr.
      eapply (timer_can_connect _ (length (timers s)) {| j_run := r; pending := true |}); [|done|exact Hr].
      cbn. by rw list_lookup_middle.
    + done.
  - destruct H as (i & [j d] & Hi & [Hp Hj%Nat.eqb_eq]%andb_prop). subst r. by eapply timer_can_connect.
Qed.

(** ** A leaked socket *)

Definition a_socket (r : nat) (x : readyState) : socket := {| s_run := r; s_state := x |}.
Definition ticket (r : nat) : job := {| j_run := r; pending := true |}.

(** When the page goes from one inbox to the next, the close event of the
    old socket can arrive after the new socket was stored: it clears the ref,
    so the next cleanup does not close that socket, which stays open and feeds
    the messages of its inbox to the callback of another one. *)
Theorem socket_leak_reachable :
  ∃ s, socket_reachable s ∧ is_disposed s 1 = true ∧
       sockets s !! 1 = Some {| s_run := 1; s_state := OPEN |} ∧ wsRef s = None ∧
       delivered s = [(js "b", js "c")].
Proof.
  eexists. split_and!; [|shelve..]. unfold socket_reachable.
  eapply rtc_l; [apply (step_start _ "a"); [by intros [|]|done]|].
  eapply rtc_l; [apply (step_ticket _ 0 (ticket 0) true); done|].
  eapply rtc_l; [apply (step_open _ 0 (a_socket 0 CONNECTING)); done|].
  eapply rtc_l; [apply (step_cleanup _ 0); done|].
  eapply rtc_l; [apply (step_start _ "b"); [by intros [|[|]]|done]|].
  eapply rtc_l; [apply (step_ticket _ 1 (ticket 1) true); done|].
  eapply rtc_l; [apply (step_close _ 0 (a_socket 0 CLOSING)); done|].
  eapply rtc_l; [apply (step_open _ 1 (a_socket 1 CONNECTING)); done|].
  eapply rtc_l; [apply (step_cleanup _ 1); done|].
  eapply rtc_l; [apply (step_start _ "c"); [by intros [|[|[|]]]|done]|].
  eapply rtc_l; [apply (step_render _ "c")|].
  eapply rtc_l; [apply (step_message _ 1 (a_socket 1 OPEN) true); done|].
  apply rtc_refl. Unshelve. all: done.
Qed.

(** The first connection of an inbox. *)
Lemma one_run_reachable : socket_reachable (start "a" hook_init).
Proof. apply rtc_once. apply step_start; [by intros [|]|done]. Defined.

Lemma socket_one_activity_witness :
  activity (start "a" hook_init) 0 = 1 ∧ status (start "a" hook_init) = connecting.
Proof.
  destruct (proj1 (socket_one_activity (start "a" hook_init) one_run_reachable) 0 eq_refl) as (_ & Ha & _).
  by split.
Defined.

Lemma socket_reconnects_witness : can_connect (start "a" hook_init) 0.
Proof. exact (socket_reconnects (start "a" hook_init) 0 one_run_reachable eq_refl). Defined.
