(* ===== verification/Hooks.v ===== *)
(** * The hooks: [web/src/hooks]

    Organisation bootstrap, debouncing, pull to refresh, the favicon badge,
    keyboard shortcuts, dates and roles.  The socket hook is [InboxSocket]. *)

From S2P Require Import Prelude Browser Types React OrgStore.

(** ** [use-org-bootstrap.ts] *)
Module OrgBootstrap.

Definition ONBOARDING_SKIP_PATHS : list jstr :=
  [js "/onboarding"; js "/invite"; js "/setup"; js "/profile"].

(** The values the hook reads and its own state and refs; [inflight] counts
    the calls of [fetchOrgs] that have not settled. *)
Record boot := Boot {
  user : option User;
  path : jstr;
  org : OrgState;
  orgsLoaded : bool;
  fetchingOrgs : bool;
  prevPathname : jstr;
  inflight : nat
}.

(** The first effect: fetch once, and again after leaving [/invite]. *)
Definition fetch_effect (s : boot) : boot :=
  if negb (bool_decide (is_Some (user s))) || fetchingOrgs s then s
  else
    let leftInvite := startsWith (prevPathname s) "/invite" && negb (startsWith (path s) "/invite") in
    if orgsLoaded s && negb leftInvite
    then Boot (user s) (path s) (org s) (orgsLoaded s) (fetchingOrgs s) (path s) (inflight s)
    else Boot (user s) (path s) (org s) false true (path s) (S (inflight s)).

(** [fetchOrgs()] settles, with [None] when it rejects; then [finally]. *)
Definition orgs_settle (answer : option (list Organization)) (s : boot) : boot :=
  Boot (user s) (path s) (match answer with Some l => set_orgs l (org s) | None => org s end)
    true false (prevPathname s) (pred (inflight s)).

(** The second effect: where it sends the user, if anywhere. *)
Definition onboarding_effect (s : boot) : option jstr :=
  match user s with
  | None => None
  | Some u =>
      if negb (orgsLoaded s) || User_is_system_admin u then None
      else if existsb (startsWith (path s)) ONBOARDING_SKIP_PATHS then None
      else if (length (orgs (org s)) =? 0)%nat then Some (js "/onboarding") else None
  end.

(** The third effect: select the first organisation. *)
Definition select_effect (s : boot) : boot :=
  match orgs (org s), currentOrg (org s) with
  | o :: _, None => Boot (user s) (path s) (setCurrentOrg o (org s)) (orgsLoaded s) (fetchingOrgs s) (prevPathname s) (inflight s)
  | _, _ => s
  end.

(** The last two: the organisations whose teams and role are fetched. *)
Definition teams_effect (s : boot) : option jstr := Organization_id <$> currentOrg (org s).
Definition role_effect (s : boot) : option jstr :=
  match user s with Some _ => Organization_id <$> currentOrg (org s) | None => None end.

Definition set_path (p : jstr) (s : boot) : boot :=
  Boot (user s) p (org s) (orgsLoaded s) (fetchingOrgs s) (prevPathname s) (inflight s).
Definition set_user (u : option User) (s : boot) : boot :=
  Boot u (path s) (org s) (orgsLoaded s) (fetchingOrgs s) (prevPathname s) (inflight s).

(** A change of path or user, an answer, or an effect. *)
Inductive boot_step : boot → boot → Prop :=
| b_path s p : boot_step s (set_path p s)
| b_user s u : boot_step s (set_user u s)
| b_fetch s : boot_step s (fetch_effect s)
| b_settle s a : 0 < inflight s → boot_step s (orgs_settle a s)
| b_select s : boot_step s (select_effect s).

Definition boot_init (p : jstr) : boot := Boot None p org_init false false p 0.

(** The list of organisations is never fetched twice at once, and the ref
    is set exactly while a fetch is under way. *)
Theorem org_fetch_single_flight (p : jstr) (s : boot) :
  rtc boot_step (boot_init p) s → inflight s = Nat.b2n (fetchingOrgs s).
Proof.
  revert s. apply (rtc_ind_r (λ s, inflight s = Nat.b2n (fetchingOrgs s))); [done|].
  intros s s' _ Hst IH. destruct Hst as [| |s|s a Hp|s]; [done|done| | |].
  - unfold fetch_effect. destruct (fetchingOrgs s) eqn:E; rw ?orb_true_r ?orb_false_r; [by rw IH E|].
    destruct (negb _); [by rw IH E|]. destruct (orgsLoaded s && _); cbn; rw ?IH ?E //.
  - cbn. rw IH. by destruct (fetchingOrgs s).
  - unfold select_effect. by repeat case_match.
Qed.

(** Leaving [/invite] is never missed: the list is fetched again at once,
    or, if a fetch is under way, right after it settles. *)
Theorem leaving_invite_refetches (s : boot) (answer : option (list Organization)) :
  user s ≠ None → startsWith (prevPathname s) "/invite" = true → startsWith (path s) "/invite" = false →
  if fetchingOrgs s
  then fetchingOrgs (fetch_effect (orgs_settle answer (fetch_effect s))) = true
  else fetchingOrgs (fetch_effect s) = true.
Proof.
  intros Hu Hp Hn. destruct (user s) as [u|] eqn:Eu; [|done].
  destruct (fetchingOrgs s) eqn:Ef.
  - unfold fetch_effect at 2. rw Ef orb_true_r. unfold fetch_effect. cbn. rw Eu. cbn. by rw Hp Hn.
  - unfold fetch_effect. rw Eu Ef. cbn. rw Hp Hn. cbn. by rw andb_false_r.
Qed.

(** Onboarding is forced exactly on a signed-in user who is no system
    administrator, has no organisation in the loaded list, and is not in one
    of the exempt flows. *)
Theorem onboarding_effect_spec (s : boot) :
  onboarding_effect s = Some (js "/onboarding") ↔
  orgsLoaded s = true ∧ orgs (org s) = [] ∧
  (∃ u, user s = Some u ∧ User_is_system_admin u = false) ∧
  (∀ p, p ∈ ONBOARDING_SKIP_PATHS → startsWith (path s) p = false).
Proof.
  unfold onboarding_effect. destruct (user s) as [u|]; [|naive_solver].
  assert (He : existsb (startsWith (path s)) ONBOARDING_SKIP_PATHS = false ↔
    ∀ p, p ∈ ONBOARDING_SKIP_PATHS → startsWith (path s) p = false).
  { cbn [existsb ONBOARDING_SKIP_PATHS]. rw !orb_false_iff. split; [set_solver|].
    intros Hp. split_and!; try done; apply Hp; set_solver. }
  rw -He. generalize (existsb (startsWith (path s)) ONBOARDING_SKIP_PATHS) as b. intros b.
  destruct (orgsLoaded s), (User_is_system_admin u) eqn:Eu, b, (orgs (org s)); cbn;
    (split; [intros E; first [discriminate E|by eauto 10]|intros (? & ? & (u' & [= <-] & ?) & ?); congruence]).
Qed.

(** A failed fetch counts as a loaded, empty list: a member whose
    organisations could not be loaded is sent to onboarding. *)
Theorem failed_fetch_forces_onboarding (s : boot) (u : User) :
  user s = Some u → User_is_system_admin u = false → orgs (org s) = [] →
  (∀ p, p ∈ ONBOARDING_SKIP_PATHS → startsWith (path s) p = false) →
  onboarding_effect (orgs_settle None (fetch_effect s)) = Some (js "/onboarding").
Proof.
  intros Hu Ha Ho Hp. unfold onboarding_effect, orgs_settle.
  assert (E : user (fetch_effect s) = user s ∧ path (fetch_effect s) = path s ∧ org (fetch_effect s) = org s).
  { unfold fetch_effect. by repeat case_match. }
  destruct E as (E1 & E2 & E3). cbn. rw E1 E2 E3 Hu Ha Ho. cbn.
  rw !Hp //; unfold ONBOARDING_SKIP_PATHS; set_solver.
Qed.

End OrgBootstrap.

(** ** [use-debounce.ts] *)
Module Debounce.
Section debounce.
Context {A : Type} (delay : Z).

(** [debounced], and the pending timer with its due time. *)
Record state := State { debounced : A; timer : option (Z * A) }.

(** The timer fires if it is due. *)
Definition advance (now : Z) (s : state) : state :=
  match timer s with
  | Some (due, v) => if (due <=? now)%Z then State v None else s
  | None => s
  end.
(** The value changed: the cleanup clears the timer and the effect sets one. *)
Definition change (now : Z) (v : A) (s : state) : state :=
  State (debounced s) (Some ((now + delay)%Z, v)).

(** The value shown at time [T] after the changes, in order. *)
Definition useDebounce (initial : A) (changes : list (Z * A)) (T : Z) : A :=
  debounced (advance T (fold_left (λ s '(now, v), change now v (advance now s)) changes (State initial None))).

(** A change is shown when the next one comes at least [delay] later. *)
Fixpoint last_settled (initial : A) (changes : list (Z * A)) (T : Z) : A :=
  match changes with
  | [] => initial
  | (now, v) :: rest =>
      let next := match rest with (now', _) :: _ => now' | [] => T end in
      last_settled (if (now + delay <=? next)%Z then v else initial) rest T
  end.

(** The debounced value is the last one that stood for the whole delay. *)
Theorem useDebounce_spec (initial : A) (changes : list (Z * A)) (T : Z) :
  useDebounce initial changes T = last_settled initial changes T.
Proof.
  assert (Hgen : ∀ l now v b,
    debounced (advance T (fold_left (λ s '(now, v), change now v (advance now s)) l
      (State b (Some ((now + delay)%Z, v))))) = last_settled b ((now, v) :: l) T).
  { induction l as [|[now' v'] l IH]; intros now v b.
    - cbn. unfold advance. cbn. by destruct (now + delay <=? T)%Z.
    - change (last_settled b ((now, v) :: (now', v') :: l) T)
        with (last_settled (if (now + delay <=? now')%Z then v else b) ((now', v') :: l) T).
      rw -IH. cbn [fold_left]. f_equal. f_equal. f_equal. unfold change, advance. cbn.
      by destruct (now + delay <=? now')%Z. }
  destruct changes as [|[now v] l]; [done|]. unfold useDebounce. cbn [fold_left]. apply Hgen.
Qed.
End debounce.
End Debounce.

(** ** [use-pull-to-refresh.ts] *)
Module PullToRefresh.

(** Distances are in whole pixels.  [pullDistance] is
    [min (4 * sqrt diff) (1.5 * threshold)]; the model keeps four times its
    square, which compares the same way. *)
Record pull := Pull {
  pulling : bool;
  refreshing : bool;
  pullDistance4 : Z;
  startY : Z;
  pullingRef : bool
}.
Definition pull_init : pull := Pull false false 0 0 false.

Section pull.
Context (threshold : Z) (enabled : bool).

Definition handleTouchStart (scrollY clientY : Z) (s : pull) : pull :=
  if negb enabled || refreshing s then s
  else if (0 <? scrollY)%Z then s
  else Pull (pulling s) (refreshing s) (pullDistance4 s) clientY false.

Definition handleTouchMove (scrollY clientY : Z) (s : pull) : pull :=
  if negb enabled || refreshing s then s
  else if (0 <? scrollY)%Z then s
  else
    let diff := (clientY - startY s)%Z in
    if (10 <? diff)%Z
    then Pull true (refreshing s) (Z.min (64 * diff) (9 * threshold * threshold)) (startY s) true
    else s.

(** [handleTouchEnd] up to [await onRefresh()]; the flag says whether it
    refreshes.  [refresh_settles] is the rest of that call. *)
Definition reaches (s : pull) : bool := (4 * threshold * threshold <=? pullDistance4 s)%Z.
Definition pull_done (s : pull) : pull := Pull false (refreshing s) 0 (startY s) false.
Definition handleTouchEnd (s : pull) : pull * bool :=
  if negb (pullingRef s) then (s, false)
  else if reaches s && negb (refreshing s)
  then (Pull (pulling s) true (pullDistance4 s) (startY s) (pullingRef s), true)
  else (pull_done s, false).
Definition refresh_settles (ok : bool) (s : pull) : pull :=
  let s1 := Pull (pulling s) false (pullDistance4 s) (startY s) (pullingRef s) in
  if ok then pull_done s1 else s1.

(** A touch that starts at the top and ends [d] pixels lower refreshes
    exactly when [d] is over ten pixels and four times its square root reaches
    the threshold, and a successful refresh leaves the indicator at rest. *)
Theorem pull_refreshes_iff (s : pull) (y d : Z) :
  enabled = true → refreshing s = false → (0 < threshold)%Z →
  let '(s', refreshes) := handleTouchEnd (handleTouchMove 0 (y + d) (handleTouchStart 0 y s)) in
  (refreshes = true ↔ (10 < d ∧ threshold * threshold <= 16 * d)%Z) ∧
  (refreshes = true → refreshing s' = true ∧
     let r := refresh_settles true s' in
     pulling r = false ∧ refreshing r = false ∧ pullDistance4 r = 0%Z ∧ pullingRef r = false).
Proof.
  destruct s as [pu re di st pr]. intros He Hr Ht. cbn in Hr. subst re.
  unfold handleTouchStart, handleTouchMove. rw He. cbn.
  replace (y + d - y)%Z with d by lia.
  destruct (Z.ltb_spec 10 d) as [Hd|Hd]; cbn; [|split; [split; [done|lia]|done]].
  unfold handleTouchEnd, reaches. cbn. rw andb_true_r.
  destruct (Z.leb_spec (4 * threshold * threshold) ((64 * d) `min` (9 * threshold * threshold))) as [Hl|Hl];
    cbn; (split; [|done]).
  - split; [intros _; split; [done|nia]|done].
  - split; [done|]. intros [_ Hq]. exfalso. nia.
Qed.
End pull.

(** With the documented default of 80 pixels, the pull has to be 400
    pixels long before it triggers. *)
Theorem default_pull_needs_400 (s : pull) (y d : Z) :
  refreshing s = false →
  snd (handleTouchEnd 80 (handleTouchMove 80 true 0 (y + d) (handleTouchStart true 0 y s))) = true ↔ (400 <= d)%Z.
Proof.
  destruct s as [pu re di st pr]. intros Hr. cbn in Hr. subst re.
  unfold handleTouchStart, handleTouchMove. cbn.
  replace (y + d - y)%Z with d by lia.
  destruct (Z.ltb_spec 10 d) as [Hd|Hd]; cbn; [|split; [done|lia]].
  unfold handleTouchEnd, reaches. cbn. rw andb_true_r.
  destruct (Z.leb_spec (4 * 80 * 80) ((64 * d) `min` (9 * 80 * 80))) as [Hl|Hl]; cbn;
    (split; [intros Hx; first [lia|done]|intros Hx; first [done|lia]]).
Qed.

(** A touch that starts while the page is scrolled is not recorded: once
    the page has scrolled to the top, its moves are measured from the start of
    some earlier touch, and a small move can refresh. *)
Theorem stale_start_refreshes :
  let s := handleTouchMove 80 true 0 461 (handleTouchStart true 300 460 pull_init) in
  snd (handleTouchEnd 80 s) = true.
Proof. reflexivity. Qed.

(** When the refresh fails, the indicator stays on the page. *)
Theorem failed_refresh_sticks (threshold : Z) (s : pull) :
  pulling s = true → pulling (refresh_settles false s) = true ∧
  pullDistance4 (refresh_settles false s) = pullDistance4 s ∧ refreshing (refresh_settles false s) = false.
Proof. done. Qed.

End PullToRefresh.

(** ** [use-favicon-badge.ts] *)
Module FaviconBadge.

Inductive icon := Plain (href : jstr) | Badged (text : jstr).

(** [original] is [originalHref.current]; [link] the element, if there is
    one; [loads] the counts whose image is being loaded. *)
Record favicon := Favicon { original : option icon; link : option icon; loads : list Z }.

Definition badge_text (count : Z) : jstr := if (99 <? count)%Z then "99" else show count.

(** The effect for a count. *)
Definition useFaviconBadge (count : Z) (s : favicon) : favicon :=
  match link s with
  | None => s
  | Some l =>
      let o := default l (original s) in
      if (count <=? 0)%Z then Favicon (Some o) (Some o) (loads s)
      else Favicon (Some o) (Some l) (loads s ++ [count])
  end.

(** An image was loaded, the [i]-th of those under way. *)
Definition onload (i : nat) (s : favicon) : favicon :=
  match loads s !! i with
  | Some count => Favicon (original s) (Some (Badged (badge_text count))) (delete i (loads s))
  | None => s
  end.

(** When no older image is still loading, a positive count ends up as its
    badge, capped at 99, and zero restores the favicon the page came with. *)
Theorem favicon_shows_count (s : favicon) (l : icon) (count : Z) :
  link s = Some l → loads s = [] →
  link (onload 0 (useFaviconBadge count s)) =
    Some (if (count <=? 0)%Z then default l (original s) else Badged (badge_text count)).
Proof.
  intros Hl Hn. unfold useFaviconBadge. rw Hl. destruct (count <=? 0)%Z; unfold onload; cbn; by rw Hn.
Qed.

(** An image that loads late draws its old count over the restored icon. *)
Theorem favicon_stale_badge (href : jstr) :
  let s0 := Favicon None (Some (Plain href)) [] in
  link (onload 0 (useFaviconBadge 0 (useFaviconBadge 5 s0))) = Some (Badged "5").
Proof. reflexivity. Qed.

End FaviconBadge.

(** ** [use-keyboard-shortcuts.ts], [use-online.ts], [use-roles.ts] *)
Module Small.

(** The handler: the shortcut that runs, if any. *)
Definition shortcut {A} (shortcuts : list (jstr * A)) (e : key_event) : option A :=
  if typing_tag (targetTag e) then None
  else if metaKey e || ctrlKey e || altKey e then None
  else map_get shortcuts (key e).

Inductive net_event := Online | Offline.
Definition useOnline (navigator : option bool) (events : list net_event) : bool :=
  fold_left (λ _ e, match e with Online => true | Offline => false end) events (default true navigator).

Record PermissionInfo := {
  PermissionInfo_id : jstr;
  PermissionInfo_scope : jstr;
  PermissionInfo_key : jstr;
  PermissionInfo_label : jstr;
  PermissionInfo_description : jstr
}.
Record RolesResponse := {
  org_roles : option (list RoleInfo);
  team_roles : option (list RoleInfo);
  org_permissions : option (list PermissionInfo);
  team_permissions : option (list PermissionInfo)
}.
Record Roles := {
  orgRoles : list RoleInfo;
  teamRoles : list RoleInfo;
  orgPermissions : list PermissionInfo;
  teamPermissions : list PermissionInfo
}.
Definition useRoles (data : option RolesResponse) : Roles := {|
  orgRoles := default [] (data ≫= org_roles);
  teamRoles := default [] (data ≫= team_roles);
  orgPermissions := default [] (data ≫= org_permissions);
  teamPermissions := default [] (data ≫= team_permissions)
|}.

End Small.

(** ** [use-date-format.ts] *)
Module DateFormat.

Record DateTimeSettings := { timezone : jstr; date_format : jstr; time_format : jstr }.

Definition dateFormatOptions : list (jstr * list (jstr * jstr)) :=
  [(js "YYYY-MM-DD", [(js "year", js "numeric"); (js "month", js "2-digit"); (js "day", js "2-digit")]);
   (js "DD/MM/YYYY", [(js "day", js "2-digit"); (js "month", js "2-digit"); (js "year", js "numeric")]);
   (js "MM/DD/YYYY", [(js "month", js "2-digit"); (js "day", js "2-digit"); (js "year", js "numeric")])].
Definition dateFormatLocale : list (jstr * jstr) :=
  [(js "YYYY-MM-DD", js "sv-SE"); (js "DD/MM/YYYY", js "en-GB"); (js "MM/DD/YYYY", js "en-US")].

Section dates.
(** [Intl.DateTimeFormat(locale, options).format(date)]; [None] when it throws. *)
Context `{!JSRuntime} (intl : option jstr → list (jstr * jstr) → option Z → option jstr).

Definition formatDate (settings : option DateTimeSettings) (dateStr : jstr) : option jstr :=
  match settings with
  | None => Some (toLocaleDateString dateStr)
  | Some s =>
      intl (map_get dateFormatLocale (date_format s))
        (default [] (map_get dateFormatOptions (date_format s)) ++ [(js "timeZone", timezone s)])
        (date_ms dateStr)
  end.

Definition formatDateTime (settings : option DateTimeSettings) (dateStr : jstr) : option jstr :=
  match settings with
  | None => Some (toLocaleString dateStr)
  | Some s =>
      intl (map_get dateFormatLocale (date_format s))
        (default [] (map_get dateFormatOptions (date_format s)) ++
         [(js "hour", js "2-digit"); (js "minute", js "2-digit");
          (js "hour12", if time_format s =?s "12h" then js "true" else js "false");
          (js "timeZone", timezone s)])
        (date_ms dateStr)
  end.

Definition formatRelative (settings : option DateTimeSettings) (dateStr : jstr) (now : Z) : option jstr :=
  match date_ms dateStr with
  | None => formatDate settings dateStr      (* every comparison with NaN fails *)
  | Some t =>
      let diff := (now - t)%Z in
      let mins := (diff / 60000)%Z in
      if (mins <? 1)%Z then Some (js "just now")
      else if (mins <? 60)%Z then Some (show mins ++ "m ago")
      else
        let hours := (mins / 60)%Z in
        if (hours <? 24)%Z then Some (show hours ++ "h ago")
        else if (hours <? 48)%Z then Some (js "yesterday")
        else formatDate settings dateStr
  end.

(** The relative time of a date is chosen by its age alone: under a minute
    or in the future, minutes, hours, yesterday for one to two days, and the
    formatted date beyond. *)
Theorem formatRelative_by_age (settings : option DateTimeSettings) (dateStr : jstr) (now t : Z) :
  date_ms dateStr = Some t →
  let age := (now - t)%Z in
  formatRelative settings dateStr now =
    if (age <? 60000)%Z then Some (js "just now")
    else if (age <? 3600000)%Z then Some (show (age / 60000) ++ "m ago")
    else if (age <? 86400000)%Z then Some (show (age / 3600000) ++ "h ago")
    else if (age <? 2 * 86400000)%Z then Some (js "yesterday")
    else formatDate settings dateStr.
Proof.
  intros Ht. cbv zeta. unfold formatRelative. rw Ht. cbv zeta. rw Z.div_div //. change (60000 * 60)%Z with 3600000%Z.
  set (a := (now - t)%Z).
  pose proof (Z.div_mod a 60000 ltac:(done)). pose proof (Z.mod_pos_bound a 60000 ltac:(done)).
  pose proof (Z.div_mod a 3600000 ltac:(done)). pose proof (Z.mod_pos_bound a 3600000 ltac:(done)).
  repeat match goal with |- context [(?x <? ?y)%Z] => destruct (Z.ltb_spec x y) end; try done; lia.
Qed.
End dates.

Lemma formatRelative_by_age_witness :
  formatRelative (λ _ _ _, None) None "0" 7200000 (H := AsciiRuntime) = Some (js "2h ago").
Proof. exact (formatRelative_by_age (λ _ _ _, None) None "0" 7200000 0 eq_refl (H := AsciiRuntime)). Defined.

End DateFormat.

(** ** Instances *)
Module HookWitnesses.
Import OrgBootstrap PullToRefresh FaviconBadge.

Definition a_user : User := {|
  User_id := "u"; User_email := "u@x.io"; User_display_name := "U"; User_sso_provider := None;
  User_is_system_admin := false; User_email_verified := true; User_timezone := None; User_date_format := None;
  User_time_format := None; User_auth_method_lock := None; User_max_sessions := None;
  User_last_login_at := None; User_created_at := []; User_updated_at := [] |}.
Definition booted (p : jstr) : boot := Boot (Some a_user) p org_init false false p 0.

Lemma org_fetch_single_flight_witness : inflight (fetch_effect (set_user (Some a_user) (boot_init "/"))) = 1.
Proof.
  apply (org_fetch_single_flight "/" (fetch_effect (set_user (Some a_user) (boot_init "/")))).
  eapply rtc_l; [apply (b_user _ (Some a_user))|]. apply rtc_once, b_fetch.
Defined.

Lemma leaving_invite_refetches_witness :
  fetchingOrgs (fetch_effect (orgs_settle None (fetch_effect
    (set_path "/" (fetch_effect (booted "/invite/x")))))) = true.
Proof.
  exact (leaving_invite_refetches (set_path "/" (fetch_effect (booted "/invite/x"))) None
    ltac:(discriminate) eq_refl eq_refl).
Defined.

Lemma failed_fetch_forces_onboarding_witness :
  onboarding_effect (orgs_settle None (fetch_effect (booted "/inboxes"))) = Some (js "/onboarding").
Proof.
  apply (failed_fetch_forces_onboarding (booted "/inboxes") a_user); try reflexivity.
  unfold ONBOARDING_SKIP_PATHS. intros p. rw !elem_of_cons elem_of_nil.
  by intros [->|[->|[->|[->|[]]]]].
Defined.

Lemma pull_refreshes_iff_witness :
  snd (handleTouchEnd 80 (handleTouchMove 80 true 0 (0 + 500) (handleTouchStart true 0 0 pull_init))) = true.
Proof.
  pose proof (pull_refreshes_iff 80 true pull_init 0 500 eq_refl eq_refl eq_refl) as Hp. revert Hp.
  destruct (handleTouchEnd 80 _) as [s' b]. intros [[_ Hb] _]. apply Hb. lia.
Defined.

Lemma default_pull_needs_400_witness :
  snd (handleTouchEnd 80 (handleTouchMove 80 true 0 (0 + 399) (handleTouchStart true 0 0 pull_init))) = false.
Proof.
  destruct (default_pull_needs_400 pull_init 0 399 eq_refl) as [Hp _]. revert Hp.
  destruct (snd _); [|done]. intros Hp. specialize (Hp eq_refl). lia.
Defined.

Lemma favicon_shows_count_witness :
  link (onload 0 (useFaviconBadge 120 (Favicon None (Some (Plain "/icon.svg")) []))) = Some (Badged "99").
Proof. exact (favicon_shows_count (Favicon None (Some (Plain "/icon.svg")) []) (Plain "/icon.svg") 120 eq_refl eq_refl). Defined.

End HookWitnesses.
