(* ===== verification/Notifications.v ===== *)
(** * The notification centre: [web/src/components/notification-center.tsx]

    Grouping of notifications, the text of a live event, the actions on the
    cached list, and what the panel shows.  The page state is the cache entry
    of the query [notifications]. *)

From S2P Require Import Prelude Browser ApiClient React.

Record Notification := {
  n_id : jstr;
  n_type : jstr;
  n_title : jstr;
  n_message : jstr;
  n_created_at : jstr;
  n_is_read : bool
}.
#[export] Instance Notification_eq_dec : EqDecision Notification.
Proof. solve_decision. Defined.

Record GroupedNotification := {
  g_key : jstr;
  g_type : jstr;
  g_notifications : list Notification;
  g_latestTitle : jstr;
  g_latestMessage : jstr;
  g_latestCreatedAt : jstr;
  g_isRead : bool
}.

(** [Notification | GroupedNotification], told apart by [isGroup]. *)
Inductive item := Single (n : Notification) | Group (g : GroupedNotification).

(** [s.replace(".", " ")], the first occurrence. *)
Fixpoint replace_first (c d : N) (s : jstr) : jstr :=
  match s with
  | [] => []
  | x :: t => if (x =? c)%N then d :: t else x :: replace_first c d t
  end.
Definition dot : N := 46.
Definition blank : N := 32.

Section notifications.
Context `{!AppEnv, !JSRuntime}.

Definition formatTime (ts : jstr) (now : Z) : jstr :=
  match date_ms ts with
  | None => "NaNd ago"
  | Some t =>
      let mins := ((now - t) / 60000)%Z in
      if (mins <? 1)%Z then "Just now"
      else if (mins <? 60)%Z then show mins ++ "m ago"
      else
        let hrs := (mins / 60)%Z in
        if (hrs <? 24)%Z then show hrs ++ "h ago"
        else show (hrs / 24) ++ "d ago"
  end.

(** ** Grouping *)

(** [new Date(b).getTime() - new Date(a).getTime()]; [sort] reads NaN as 0. *)
Definition date_desc (a b : jstr) : Z :=
  match date_ms a, date_ms b with Some x, Some y => (y - x)%Z | _, _ => 0%Z end.

Definition windowMs : Z := 5 * 60 * 1000.

(** [Math.abs(date(s) - date(n)) < windowMs], false on NaN. *)
Definition within_window (s n : Notification) : bool :=
  match date_ms (n_created_at s), date_ms (n_created_at n) with
  | Some x, Some y => (Z.abs (x - y) <? windowMs)%Z
  | _, _ => false
  end.

Definition siblings (sorted : list Notification) (used : list jstr) (n : Notification) : list Notification :=
  List.filter (λ s, negb (set_has used (n_id s)) && (n_type s =?s n_type n) && within_window s n) sorted.

Definition make_group (n : Notification) (sibs : list Notification) : GroupedNotification := {|
  g_key := "group-" ++ n_type n ++ "-" ++ n_id n;
  g_type := n_type n;
  g_notifications := sibs;
  g_latestTitle := n_title n;
  g_latestMessage := show_nat (length sibs) ++ " " ++ replace_first dot blank (n_type n) ++ " events";
  g_latestCreatedAt := n_created_at n;
  g_isRead := forallb n_is_read sibs
|}.

Record grouping := Grouping {
  used : list jstr;
  groups : list GroupedNotification;
  ungrouped : list Notification
}.

(** One round of the loop. *)
Definition group_step (sorted : list Notification) (a : grouping) (n : Notification) : grouping :=
  if set_has (used a) (n_id n) then a
  else
    let sibs := siblings sorted (used a) n in
    if (2 <=? length sibs)%nat
    then Grouping (fold_left set_add (n_id <$> sibs) (used a)) (groups a ++ [make_group n sibs]) (ungrouped a)
    else Grouping (set_add (used a) (n_id n)) (groups a) (ungrouped a ++ [n]).

Definition item_time (i : item) : jstr :=
  match i with Single n => n_created_at n | Group g => g_latestCreatedAt g end.

Definition groupNotifications (notifications : list Notification) : list item :=
  let sorted := sort_js (λ a b, date_desc (n_created_at a) (n_created_at b)) notifications in
  let a := fold_left (group_step sorted) sorted (Grouping [] [] []) in
  sort_js (λ x y, date_desc (item_time x) (item_time y)) ((Group <$> groups a) ++ (Single <$> ungrouped a)).

(** ** Actions on the cached list *)

Definition cache : Type := option (list Notification).
Definition set_read (n : Notification) : Notification := {|
  n_id := n_id n; n_type := n_type n; n_title := n_title n; n_message := n_message n;
  n_created_at := n_created_at n; n_is_read := true |}.

Definition failed : M cache unit := emit (EToastError "Failed").

Definition markAllRead : M cache unit :=
  try_catch
    (api_post "/notifications/mark-all-read" None;;
     modify (λ prev, Some (from_option (fmap set_read) [] prev)))
    (λ _, failed).

Definition markRead (id : jstr) : M cache unit :=
  try_catch
    (api_patch ("/notifications/" ++ id ++ "/read") None;;
     modify (λ prev, Some (from_option (fmap (λ n, if n_id n =?s id then set_read n else n)) [] prev)))
    (λ _, failed).

Definition dismiss (id : jstr) : M cache unit :=
  try_catch
    (api_del ("/notifications/" ++ id) None;;
     modify (λ prev, Some (from_option (List.filter (λ n, negb (n_id n =?s id))) [] prev)))
    (λ _, failed).

Definition clearAll : M cache unit :=
  try_catch (api_del "/notifications" None;; modify (λ _, Some [])) (λ _, failed).

Definition unread (notifications : list Notification) : nat := countb (λ n, negb (n_is_read n)) notifications.

(** [toggleGroup]. *)
Definition toggleGroup (key : jstr) (expanded : list jstr) : list jstr := set_toggle expanded key.

(** ** A live event *)

(** [type.replace(/\./g, " ").replace(/\b\w/g, (c) => c.toUpperCase())]. *)
Fixpoint title_case (after_word : bool) (s : jstr) : jstr :=
  match s with
  | [] => []
  | c :: t => (if negb after_word && is_word c then ascii_upper c else c) :: title_case (is_word c) t
  end.
Definition event_title (type : jstr) : jstr :=
  title_case false ((λ c, if (c =? dot)%N then blank else c) <$> type).

(** [data.data?.key] when it is a non-empty string. *)
Definition event_field (data : option json) (key : jstr) : jstr :=
  match data with Some (JObj l) => default [] (as_string (map_get l key)) | _ => [] end.

Definition mailbox_sign : jstr := [55357; 56556; 32]%N.   (* U+1F4EC and a space *)
Definition dash : jstr := [32; 8212; 32]%N.               (* U+2014 *)

(** Title and message of the toast.  [stringify] is [JSON.stringify]. *)
Definition event_text (stringify : json → jstr) (type : jstr) (data : option json) : jstr * jstr :=
  if type =?s "email.received" then
    let sender := jor (jor (event_field data "from_address") (event_field data "to_address")) "unknown" in
    let subj := jor (event_field data "subject") "(no subject)" in
    (mailbox_sign ++ "New email", "From: " ++ sender ++ dash ++ subj)
  else if type =?s "inbox.created" then
    (js "Inbox Created", jor (event_field data "full_address") "A new inbox was created")
  else if type =?s "inbox.expired" then
    (js "Inbox Expired", jor (event_field data "full_address") "An inbox has expired")
  else
    (event_title type,
     jor (event_field data "message")
       (slice (stringify (if json_truthy data then default JNull data else JObj [])) 0 100)).

(** The queries an event refreshes. *)
Definition event_refreshes (type : jstr) : list jstr :=
  js "notifications" ::
  (if type =?s "email.received" then [js "home-inboxes"; js "emails"; js "inbox"] else []).

(** ** What the panel shows *)

Record row := { row_title : jstr; row_message : jstr; row_time : jstr; row_unread : bool; row_id : jstr }.
Definition notification_row (now : Z) (n : Notification) : row := {|
  row_title := if n_title n =?s "email.received" then "New email received" else n_title n;
  row_message := n_message n;
  row_time := formatTime (n_created_at n) now;
  row_unread := negb (n_is_read n);
  row_id := n_id n |}.

Inductive entry :=
| SingleRow (r : row)
| GroupRow (message time : jstr) (count : nat) (unread expanded : bool) (members : list row).

Definition item_entry (now : Z) (expandedGroups : list jstr) (i : item) : entry :=
  match i with
  | Single n => SingleRow (notification_row now n)
  | Group g =>
      let expanded := set_has expandedGroups (g_key g) in
      GroupRow (g_latestMessage g) (formatTime (g_latestCreatedAt g) now) (length (g_notifications g))
        (negb (g_isRead g)) expanded
        (if expanded then notification_row now <$> g_notifications g else [])
  end.

Record panel := {
  bell_badge : option jstr;
  new_badge : option jstr;
  can_mark_all : bool;
  can_clear : bool;
  entries : list entry;
  footer : option jstr
}.
Definition notification_panel (now : Z) (expandedGroups : list jstr) (notifications : list Notification) : panel :=
  let u := unread notifications in
  let n := length notifications in {|
  bell_badge := if (0 <? u)%nat then Some (if (99 <? u)%nat then js "99+" else show_nat u) else None;
  new_badge := if (0 <? u)%nat then Some (show_nat u ++ " new") else None;
  can_mark_all := (0 <? u)%nat;
  can_clear := (0 <? n)%nat;
  entries := item_entry now expandedGroups <$> groupNotifications notifications;
  footer := if (0 <? n)%nat then Some (show_nat n ++ " notification" ++ (if (n =? 1)%nat then [] else js "s")) else None
|}.

(** ** Grouping is a partition *)

Definition item_members (i : item) : list Notification :=
  match i with Single n => [n] | Group g => g_notifications g end.

Lemma filter_or_perm {A} (q p1 p2 : A → bool) (l : list A) :
  (∀ x, x ∈ l → q x = p1 x || p2 x) → (∀ x, x ∈ l → p1 x = true → p2 x = false) →
  List.filter q l ≡ₚ List.filter p1 l ++ List.filter p2 l.
Proof.
  induction l as [|x l IH]; intros Hq Hd; simpl; [done|].
  assert (E : List.filter q l ≡ₚ List.filter p1 l ++ List.filter p2 l).
  { apply IH; intros y Hy; [apply Hq|apply Hd]; by right. }
  rw (Hq x); [|by left]. specialize (Hd x ltac:(by left)).
  destruct (p1 x), (p2 x); simpl; try (by specialize (Hd eq_refl)); rewrite E; [done|apply Permutation_middle|done].
Qed.

Section loop.
Context (sorted : list Notification) (Hnd : NoDup (n_id <$> sorted)).

Lemma id_inj x y : x ∈ sorted → y ∈ sorted → n_id x = n_id y → x = y.
Proof.
  intros (i & Hi)%list_elem_of_lookup (j & Hj)%list_elem_of_lookup He.
  assert (i = j) as ->; [|congruence].
  eapply NoDup_lookup; [exact Hnd|..]; rw list_lookup_fmap; [by rw Hi|by rw Hj /= He].
Qed.

Lemma elem_of_siblings u n x :
  x ∈ siblings sorted u n ↔
  x ∈ sorted ∧ (n_id x ∉ u ∧ n_type x = n_type n ∧ within_window x n = true).
Proof.
  unfold siblings, set_has. rw list_elem_of_In filter_In -list_elem_of_In.
  rw !andb_true_iff negb_true_iff bool_decide_eq_false jeqb_eq. tauto.
Qed.

Lemma within_window_self x n : within_window x n = true → within_window n n = true.
Proof.
  unfold within_window. destruct (date_ms (n_created_at x)); [|done].
  destruct (date_ms (n_created_at n)); [|done]. intros _. by rw Z.sub_diag.
Qed.

(** The state of the loop after the notifications [before]. *)
Record loop_ok (before : list Notification) (a : grouping) : Prop := {
  lo_members : concat (g_notifications <$> groups a) ++ ungrouped a
                 ≡ₚ List.filter (λ n, set_has (used a) (n_id n)) sorted;
  lo_before n : n ∈ before → n_id n ∈ used a;
  lo_groups g : g ∈ groups a → ∃ before n rest after,
    sorted = before ++ n :: after ∧ rest ⊆ after ∧ rest ≠ [] ∧ g = make_group n (n :: rest) ∧
    Forall (λ s, n_type s = n_type n ∧ within_window s n = true) (n :: rest)
}.

(** The members gained are those whose ids were added. *)
Lemma members_gain a sibs u :
  (∀ x, x ∈ sibs → x ∈ sorted ∧ n_id x ∉ used a) → NoDup sibs →
  (∀ i, i ∈ u ↔ i ∈ used a ∨ i ∈ n_id <$> sibs) →
  List.filter (λ n, set_has u (n_id n)) sorted ≡ₚ List.filter (λ n, set_has (used a) (n_id n)) sorted ++ sibs.
Proof.
  intros Hs Hn Hu. rewrite (filter_or_perm _ (λ n, set_has (used a) (n_id n)) (λ n, bool_decide (n ∈ sibs))).
  - apply Permutation_app_head. apply NoDup_Permutation; [|done|].
    + apply NoDup_ListNoDup, List.NoDup_filter, NoDup_ListNoDup. by eapply NoDup_fmap_1.
    + intros x. rw list_elem_of_In filter_In -list_elem_of_In bool_decide_eq_true.
      split; [tauto|]. intros Hx. by destruct (Hs x Hx).
  - intros x Hx. unfold set_has. apply eq_bool_prop_intro. rw orb_True !bool_decide_spec Hu list_elem_of_fmap.
    split; [|naive_solver]. intros [?|(y & He & Hy)]; [by left|right].
    destruct (Hs y Hy) as [Hy' _]. by rw (id_inj x y).
  - intros x _ Hx%bool_decide_eq_true. apply bool_decide_eq_false. by intros [_ ?]%Hs.
Qed.

(** A leader is the first of its siblings. *)
Lemma siblings_head before n after u :
  sorted = before ++ n :: after → (∀ x, x ∈ before → n_id x ∈ u) → set_has u (n_id n) = false →
  within_window n n = true → ∃ rest, siblings sorted u n = n :: rest ∧ rest ⊆ after.
Proof.
  intros Hsp Hb Hu Hw. unfold siblings. rw Hsp List.filter_app /=. rw Hu jeqb_refl Hw /=.
  rw (List_filter_false (λ s, negb (set_has u (n_id s)) && (n_type s =?s n_type n) && within_window s n) before).
  - eexists. split; [done|]. intros x. rw !list_elem_of_In filter_In. tauto.
  - intros x Hx%Hb. unfold set_has. by rw bool_decide_true.
Qed.

Lemma group_step_ok before n after a :
  sorted = before ++ n :: after → loop_ok before a → loop_ok (before ++ [n]) (group_step sorted a n).
Proof.
  intros Hsp [L1 L2 L3]. unfold group_step.
  assert (Hn : n ∈ sorted) by (rw Hsp; set_solver).
  destruct (set_has (used a) (n_id n)) eqn:Hu'; pose proof Hu' as Hu; unfold set_has in Hu.
  { apply bool_decide_eq_true in Hu. split; [done| |done].
    intros x [Hx|Hx]%elem_of_app; [by apply L2|]. by apply list_elem_of_singleton in Hx as ->. }
  apply bool_decide_eq_false in Hu. set (sibs := siblings sorted (used a) n).
  destruct (Nat.leb_spec 2 (length sibs)) as [Hlen|Hlen].
  - assert (Hw : within_window n n = true).
    { destruct sibs as [|x l] eqn:E; [simpl in Hlen; lia|]. apply (within_window_self x).
      assert (Hx : x ∈ siblings sorted (used a) n) by (unfold sibs in E; rw E; by left).
      apply elem_of_siblings in Hx. tauto. }
    destruct (siblings_head before n after (used a) Hsp L2 Hu' Hw) as (rest & Hsib & Hrest). fold sibs in Hsib.
    assert (Hin : ∀ x, x ∈ sibs → x ∈ sorted ∧ n_id x ∉ used a) by (intros x Hx%elem_of_siblings; tauto).
    split; cbn [used groups ungrouped].
    + rewrite fmap_app concat_app /= app_nil_r -app_assoc (Permutation_app_comm (A:=Notification) sibs) app_assoc.
      rewrite L1. symmetry. apply members_gain; [done| |].
      * apply NoDup_ListNoDup, List.NoDup_filter, NoDup_ListNoDup. by eapply NoDup_fmap_1.
      * intros i. apply fold_set_add_elem.
    + intros x [Hx|Hx]%elem_of_app; apply fold_set_add_elem; [left; by apply L2|right].
      apply list_elem_of_singleton in Hx as ->. rw Hsib. apply list_elem_of_fmap. exists n. by split; [|left].
    + intros g [Hg|Hg]%elem_of_app; [by apply L3|]. apply list_elem_of_singleton in Hg as ->.
      exists before, n, rest, after. rw Hsib. split_and!; try done.
      * intros ->. rw Hsib in Hlen. simpl in Hlen. lia.
      * rw -Hsib. apply Forall_forall. intros x Hx%elem_of_siblings. tauto.
  - split; cbn [used groups ungrouped]; [| |done].
    + rewrite app_assoc L1. symmetry. apply members_gain.
      * intros x ->%list_elem_of_singleton. done.
      * apply NoDup_singleton.
      * intros i. rw elem_of_set_add. cbn. rw list_elem_of_singleton. naive_solver.
    + intros x [Hx|Hx]%elem_of_app; apply elem_of_set_add; [left; by apply L2|right].
      by apply list_elem_of_singleton in Hx as ->.
Qed.

Lemma group_loop_ok : loop_ok sorted (fold_left (group_step sorted) sorted (Grouping [] [] [])).
Proof.
  assert (Hgen : ∀ after before a, sorted = before ++ after → loop_ok before a →
    loop_ok sorted (fold_left (group_step sorted) after a)).
  { induction after as [|n after IH]; intros before a Hs Ha; simpl.
    - rw app_nil_r in Hs. by subst before.
    - apply (IH (before ++ [n])); [by rw -app_assoc|]. by eapply group_step_ok. }
  apply (Hgen sorted []); [done|]. split; simpl; [|set_solver..].
  by rw List_filter_false.
Qed.
End loop.

Definition by_date (a b : Notification) : Z := date_desc (n_created_at a) (n_created_at b).

(** Grouping loses and duplicates nothing: the items shown hold every
    notification exactly once. *)
Theorem groupNotifications_partition (notifications : list Notification) :
  NoDup (n_id <$> notifications) →
  concat (item_members <$> groupNotifications notifications) ≡ₚ notifications.
Proof.
  intros Hnd. unfold groupNotifications. fold by_date. set (sorted := sort_js by_date notifications).
  assert (Hs : NoDup (n_id <$> sorted)) by (unfold sorted; by rewrite sort_js_perm).
  destruct (group_loop_ok sorted Hs) as [L1 L2 _].
  set (a := fold_left _ _ _) in *. rewrite sort_js_perm fmap_app concat_app.
  assert (E1 : item_members <$> (Group <$> groups a) = g_notifications <$> groups a).
  { rw -list_fmap_compose. done. }
  assert (E2 : concat (item_members <$> (Single <$> ungrouped a)) = ungrouped a).
  { clear L1. generalize (ungrouped a) as k. intros k. induction k as [|n k IH]; [done|]. cbn. f_equal. exact IH. }
  rewrite E1 E2 L1. rw List_filter_true; [unfold sorted; by rewrite sort_js_perm|].
  intros x Hx%L2. unfold set_has. by rw bool_decide_true.
Qed.

Definition time_of (ts : jstr) : Z := default 0%Z (date_ms ts).

Lemma by_date_key (ns : list Notification) :
  Forall (λ n, is_Some (date_ms (n_created_at n))) ns →
  StronglySorted (λ a b, (time_of (n_created_at b) <= time_of (n_created_at a))%Z) (sort_js by_date ns).
Proof.
  intros Hd. apply (sort_js_sorted by_date (λ n, time_of (n_created_at n))). rw Forall_forall in Hd.
  intros a b [x Ha]%Hd [y Hb]%Hd. unfold by_date, date_desc, time_of. by rw Ha Hb.
Qed.

(** On notifications with valid dates a group is a leader and at least one
    more notification of the same type, none newer and all less than five
    minutes older than it; it counts as read when all of them are read; and
    the items are listed newest first. *)
Theorem groupNotifications_groups (notifications : list Notification) :
  NoDup (n_id <$> notifications) → Forall (λ n, is_Some (date_ms (n_created_at n))) notifications →
  StronglySorted (λ x y, (time_of (item_time y) <= time_of (item_time x))%Z) (groupNotifications notifications) ∧
  ∀ g, Group g ∈ groupNotifications notifications →
    ∃ n rest, g = make_group n (n :: rest) ∧ rest ≠ [] ∧ (g_isRead g = true ↔ Forall (λ s, n_is_read s = true) (n :: rest)) ∧
      Forall (λ s, n_type s = n_type n ∧ time_of (n_created_at n) - windowMs < time_of (n_created_at s)
                   <= time_of (n_created_at n))%Z (n :: rest).
Proof.
  intros Hnd Hd. unfold groupNotifications. fold by_date. set (sorted := sort_js by_date notifications).
  assert (Hs : NoDup (n_id <$> sorted)) by (unfold sorted; by rewrite sort_js_perm).
  pose proof (by_date_key notifications Hd) as Hsort. fold sorted in Hsort.
  assert (Hd' : Forall (λ n, is_Some (date_ms (n_created_at n))) sorted) by (unfold sorted; by rewrite sort_js_perm).
  destruct (group_loop_ok sorted Hs) as [L1 _ L3]. set (a := fold_left _ _ _) in *. split.
  - apply (sort_js_sorted _ (λ i, time_of (item_time i))).
    assert (Hv : ∀ i, i ∈ (Group <$> groups a) ++ (Single <$> ungrouped a) → is_Some (date_ms (item_time i))).
    { rw Forall_forall in Hd'. intros i [(g & -> & Hg)%list_elem_of_fmap|(n & -> & Hn)%list_elem_of_fmap]%elem_of_app; cbn.
      - destruct (L3 g Hg) as (b & n & r & c & Hsp & _ & _ & -> & _). cbn. apply Hd'. rw Hsp. set_solver.
      - apply Hd'. assert (Hn' : n ∈ concat (g_notifications <$> groups a) ++ ungrouped a) by set_solver.
        rewrite L1 in Hn'. apply list_elem_of_In, filter_In in Hn' as [Hn' _]. by apply list_elem_of_In. }
    intros x y [tx Hx]%Hv [ty Hy]%Hv. unfold date_desc, time_of. by rw Hx Hy.
  - intros g Hg. rewrite sort_js_perm in Hg.
    assert (Hg' : g ∈ groups a). { apply elem_of_app in Hg as [(g' & [= ->] & ?)%list_elem_of_fmap|(n & ? & _)%list_elem_of_fmap]; done. }
    destruct (L3 g Hg') as (b & n & rest & c & Hsp & Hsub & Hne & -> & Hall). exists n, rest.
    split_and!; [done|done|cbn [g_isRead make_group]; by rw forallb_True_iff|].
    rw Hsp in Hsort. apply StronglySorted_app_r, StronglySorted_inv in Hsort as [_ Hlt].
    rw !Forall_forall in Hall Hlt Hd' |- *. intros s Hin. destruct (Hall s Hin) as [Ht Hw]. split; [done|].
    assert (Hle : (time_of (n_created_at s) <= time_of (n_created_at n))%Z).
    { apply elem_of_cons in Hin as [->|Hin]; [lia|]. by apply Hlt, Hsub. }
    unfold within_window in Hw. unfold time_of in *.
    destruct (date_ms (n_created_at s)), (date_ms (n_created_at n)); try done. cbn in *. lia.
Qed.

(** ** Actions *)

Lemma cached_action (m : M cache (option json)) (f : cache → cache) (w : world cache) :
  try_catch (m;; modify f) (λ _, failed) w =
  match m w with
  | (inr _, w1) => (inr tt, World (brw w1) (f (st w1)))
  | (inl _, w1) => (inr tt, World (log_effect (EToastError "Failed") (brw w1)) (st w1))
  end.
Proof. unfold try_catch, mbind, M_bind. by destruct (m w) as [[e|v] w1]. Qed.

(** What an action makes of the cached list, if the server agrees to it. *)
Inductive action := MarkAllRead | MarkRead (id : jstr) | Dismiss (id : jstr) | ClearAll.
Definition act (x : action) : M cache unit :=
  match x with
  | MarkAllRead => markAllRead | MarkRead id => markRead id | Dismiss id => dismiss id | ClearAll => clearAll
  end.
Definition act_request (x : action) : M cache (option json) :=
  match x with
  | MarkAllRead => api_post "/notifications/mark-all-read" None
  | MarkRead id => api_patch ("/notifications/" ++ id ++ "/read") None
  | Dismiss id => api_del ("/notifications/" ++ id) None
  | ClearAll => api_del "/notifications" None
  end.
Definition kept (x : action) (n : Notification) : Prop :=
  match x with Dismiss id => n_id n ≠ id | ClearAll => False | _ => True end.
Definition reads (x : action) (n : Notification) : Prop :=
  match x with MarkAllRead => True | MarkRead id => n_id n = id | _ => False end.
#[global] Instance kept_dec x n : Decision (kept x n).
Proof. destruct x; simpl; apply _. Defined.
#[global] Instance reads_dec x n : Decision (reads x n).
Proof. destruct x; simpl; apply _. Defined.
Definition after_action (x : action) (l : list Notification) : list Notification :=
  (λ n, if decide (reads x n) then set_read n else n) <$> filter (kept x) l.

Lemma List_filter_stdpp (P : Notification → Prop) `{!∀ n, Decision (P n)} (p : Notification → bool) l :
  (∀ n, p n = bool_decide (P n)) → List.filter p l = filter P l.
Proof.
  intros Hp. induction l as [|n l IH]; [done|]. rw filter_cons /= Hp IH.
  case_bool_decide; case_decide; done.
Qed.

Lemma filter_all (P : Notification → Prop) `{!∀ n, Decision (P n)} (l : list Notification) : (∀ n, P n) → filter P l = l.
Proof. intros HP. induction l as [|n l IH]; [done|]. rw filter_cons decide_True // IH //. Qed.
Lemma filter_none (P : Notification → Prop) `{!∀ n, Decision (P n)} (l : list Notification) : (∀ n, ¬ P n) → filter P l = [].
Proof. intros HP. induction l as [|n l IH]; [done|]. rw filter_cons decide_False //. Qed.

(** An action on notifications never throws; when its call fails the list
    is untouched and the failure is shown; when it succeeds the list changes
    in exactly the notifications the action is about. *)
Theorem notification_action_spec (x : action) (l : list Notification) (w : world cache) :
  st w = Some l →
  let '(r, w') := act x w in
  r = inr tt ∧
  match act_request x w with
  | (inr _, _) => st w' = Some (after_action x l)
  | (inl _, _) => st w' = Some l ∧ last (trace (brw w')) = Some (EToastError "Failed")
  end.
Proof.
  intros Hst.
  assert (Hgen : ∀ (m : M cache (option json)) f, st (snd (m w)) = Some l → f (Some l) = Some (after_action x l) →
    let '(r, w') := try_catch (m;; modify f) (λ _, failed) w in
    r = inr tt ∧ match m w with
                 | (inr _, _) => st w' = Some (after_action x l)
                 | (inl _, _) => st w' = Some l ∧ last (trace (brw w')) = Some (EToastError "Failed")
                 end).
  { intros m f Hkeep Hf. rw cached_action.
    destruct (m w) as [[e|v] w1]; cbn in *; [|by rw Hkeep Hf].
    split_and!; [done|done|]. by rw last_snoc. }
  destruct x as [|id|id|]; apply Hgen;
    try (rw -Hst; exact (sf_state _ _ (session_frame_request _ _ w))); unfold after_action; cbn.
  - f_equal. by rw filter_all.
  - f_equal. rw filter_all //. apply list_fmap_ext. intros _ n _. unfold jeqb.
    by case_bool_decide; case_decide.
  - f_equal. rw (List_filter_stdpp (λ n, n_id n ≠ id)).
    + by rw list_fmap_id.
    + intros n. unfold jeqb. by repeat case_bool_decide.
  - f_equal. by rw filter_none; [|intros n []].
Qed.

End notifications.

Definition note (id type at_ : jstr) (r : bool) : Notification := {|
  n_id := id; n_type := type; n_title := []; n_message := []; n_created_at := at_; n_is_read := r |}.
Definition three_notes : list Notification :=
  [note "1" "email.received" "1000" true; note "2" "inbox.created" "2000" false; note "3" "email.received" "3000" false].

Lemma three_notes_nodup : NoDup (n_id <$> three_notes).
Proof. apply (bool_decide_unpack _). vm_compute. exact I. Defined.

Lemma groupNotifications_partition_witness :
  concat (item_members <$> groupNotifications three_notes (H0 := AsciiRuntime)) ≡ₚ three_notes ∧
  length (groupNotifications three_notes (H0 := AsciiRuntime)) = 2.
Proof.
  split; [|reflexivity].
  exact (groupNotifications_partition three_notes three_notes_nodup (H0 := AsciiRuntime)).
Defined.

Lemma groupNotifications_groups_witness :
  ∃ g, Group g ∈ groupNotifications three_notes (H0 := AsciiRuntime) ∧ g_isRead g = false ∧
       ∃ n rest, g = make_group n (n :: rest) ∧ rest ≠ [].
Proof.
  set (n3 := note "3" "email.received" "3000" false). set (n1 := note "1" "email.received" "1000" true).
  exists (make_group n3 [n3; n1]). split; [by left|]. split; [reflexivity|].
  destruct (proj2 (groupNotifications_groups three_notes (H0 := AsciiRuntime) three_notes_nodup
    ltac:(repeat constructor; by eexists)) (make_group n3 [n3; n1]) ltac:(by left)) as (n & rest & E & Hne & _).
  by exists n, rest.
Defined.

Definition cached_world : world cache :=
  World (browser_on ∅ "/" [answer 204 JNull]) (Some three_notes).
Lemma notification_action_spec_witness :
  st (snd (act (Dismiss "2") cached_world (H := default_env))) =
  Some [note "1" "email.received" "1000" true; note "3" "email.received" "3000" false].
Proof.
  pose proof (notification_action_spec (Dismiss "2") three_notes cached_world eq_refl (H := default_env)) as Hx.
  vm_compute in Hx. vm_compute. exact (proj2 Hx).
Defined.
