(* ===== verification/Permissions.v ===== *)
(** * Permission pickers: the helpers and [ScopePicker] of
    [web/src/app/api-keys/page.tsx], and their twins in
    [web/src/components/settings/roles-tab.tsx]

    Grouping of permissions by the second part of their key, search, and the
    selection.  [localeCompare] is the engine's. *)

From S2P Require Import Prelude Hooks.
Import Hooks.Small.

Definition GROUP_LABEL_MAP : list (jstr * jstr) :=
  [(js "settings", js "Settings"); (js "members", js "Members"); (js "domains", js "Domains");
   (js "teams", js "Teams"); (js "audit", js "Audit"); (js "analytics", js "Analytics");
   (js "webhooks", js "Webhooks"); (js "apikeys", js "API Keys"); (js "inboxes", js "Inboxes");
   (js "emails", js "Emails")].

Definition extractGroupKey (permKey : jstr) : jstr :=
  match split_on 46 permKey with _ :: part :: _ => part | _ => "other" end.

Record PermissionGroup := {
  pg_key : jstr;
  pg_name : jstr;
  pg_permissions : list PermissionInfo
}.

Section permissions.
Context `{!JSRuntime} (localeCompare : jstr → jstr → Z).

Definition groupLabel (key : jstr) : jstr :=
  match map_get GROUP_LABEL_MAP key with
  | Some l => l
  | None => toUpperCase (take 1 key) ++ drop 1 key
  end.

(** One round of the loop: [map.get(key).push(p)], on a new list if needed. *)
Definition add_to_group (m : list (jstr * list PermissionInfo)) (p : PermissionInfo) :=
  let key := extractGroupKey (PermissionInfo_key p) in
  map_set m key (default [] (map_get m key) ++ [p]).

Definition groupPermissions (permissions : list PermissionInfo) : list PermissionGroup :=
  (λ '(key, perms), {| pg_key := key; pg_name := groupLabel key; pg_permissions := perms |}) <$>
  sort_js (λ a b, localeCompare a.1 b.1) (fold_left add_to_group permissions []).

(** [buildScopeLabelMap]. *)
Definition buildScopeLabelMap (permissions : list PermissionInfo) : list (jstr * jstr) :=
  fold_left (λ m p, map_set m (PermissionInfo_key p) (PermissionInfo_label p)) permissions [].

(** ** The picker *)

Definition matches (q : jstr) (p : PermissionInfo) : bool :=
  includes (toLowerCase (PermissionInfo_label p)) q ||
  includes (toLowerCase (PermissionInfo_key p)) q ||
  includes (toLowerCase (PermissionInfo_description p)) q.

Definition filtered_groups (groups : list PermissionGroup) (search : jstr) : list PermissionGroup :=
  if negb (truthy (trim search)) then groups
  else
    let q := toLowerCase search in
    List.filter (λ g, (0 <? length (pg_permissions g))%nat)
      ((λ g, {| pg_key := pg_key g; pg_name := pg_name g;
                pg_permissions := List.filter (matches q) (pg_permissions g) |}) <$> groups).

Definition toggleScope (key : jstr) (prev : list jstr) : list jstr := set_toggle prev key.
Definition selectAllGroup (keys : list jstr) (prev : list jstr) : list jstr := fold_left set_add keys prev.
Definition deselectAllGroup (keys : list jstr) (prev : list jstr) : list jstr := fold_left set_delete keys prev.

(** A group as the picker draws it: name, count, its rows unless collapsed,
    and the keys its two buttons select or deselect. *)
Record group_view := {
  gv_name : jstr;
  gv_enabled : nat;
  gv_total : nat;
  gv_rows : list (PermissionInfo * bool);
  gv_keys : list jstr
}.
Record picker_view := { pv_count : jstr; pv_all : list jstr; pv_groups : list group_view; pv_none : bool }.

Definition group_row (selected collapsed : list jstr) (g : PermissionGroup) : group_view := {|
  gv_name := pg_name g;
  gv_enabled := countb (λ p, set_has selected (PermissionInfo_key p)) (pg_permissions g);
  gv_total := length (pg_permissions g);
  gv_rows := if set_has collapsed (pg_key g) then []
             else (λ p, (p, set_has selected (PermissionInfo_key p))) <$> pg_permissions g;
  gv_keys := PermissionInfo_key <$> pg_permissions g
|}.

Definition ScopePicker (teamPermissions : list PermissionInfo) (selected collapsed : list jstr) (search : jstr)
    : picker_view :=
  let filtered := filtered_groups (groupPermissions teamPermissions) search in {|
  pv_count := dec (N.of_nat (length selected)) ++ " of " ++ dec (N.of_nat (length teamPermissions))
              ++ " scopes selected";
  pv_all := PermissionInfo_key <$> teamPermissions;
  pv_groups := group_row selected collapsed <$> filtered;
  pv_none := (length filtered =? 0)%nat
|}.

(** ** Grouping *)

Definition in_group (key : jstr) (p : PermissionInfo) : bool :=
  bool_decide (extractGroupKey (PermissionInfo_key p) = key).

Lemma map_set_concat (m : list (jstr * list PermissionInfo)) k p :
  concat (map_set m k (default [] (map_get m k) ++ [p])).*2 ≡ₚ concat m.*2 ++ [p].
Proof.
  induction m as [|[k' v] m IH]; simpl; [done|]. destruct (decide (k = k')) as [->|Hne]; csimpl.
  - rewrite -!app_assoc. f_equiv. apply Permutation_app_comm.
  - rewrite IH. by rewrite app_assoc.
Qed.

Lemma grouping_inv (l : list PermissionInfo) :
  let m := fold_left add_to_group l [] in
  NoDup m.*1 ∧ concat m.*2 ≡ₚ l ∧
  ∀ k, map_get m k = match List.filter (in_group k) l with [] => None | f => Some f end.
Proof.
  induction l as [|p l IH] using rev_ind; cbn; [split_and!; by constructor|].
  rw fold_left_app. cbn [fold_left]. destruct IH as (I1 & I2 & I3).
  set (m := fold_left add_to_group l []) in *. unfold add_to_group at 1.
  set (key := extractGroupKey (PermissionInfo_key p)). split_and!.
  - by apply map_set_NoDup.
  - unfold add_to_group at 1. rewrite map_set_concat. by rewrite I2.
  - intros k. rw List.filter_app. cbn [List.filter]. unfold in_group at 2. fold key.
    destruct (decide (key = k)) as [<-|Hne].
    + rw map_get_set_eq I3 bool_decide_true //. by destruct (List.filter _ l).
    + rw map_get_set_ne // I3 bool_decide_false // app_nil_r //.
Qed.

Definition as_group (e : jstr * list PermissionInfo) : PermissionGroup :=
  {| pg_key := e.1; pg_name := groupLabel e.1; pg_permissions := e.2 |}.
Lemma groupPermissions_as_group permissions :
  groupPermissions permissions =
  as_group <$> sort_js (λ a b, localeCompare a.1 b.1) (fold_left add_to_group permissions []).
Proof. apply list_fmap_ext. by intros _ [k v] _. Qed.

Lemma groupPermissions_concat permissions :
  concat (pg_permissions <$> groupPermissions permissions) ≡ₚ permissions.
Proof.
  rw groupPermissions_as_group -list_fmap_compose.
  change (pg_permissions ∘ as_group) with (@snd jstr (list PermissionInfo)).
  rewrite sort_js_perm. by destruct (grouping_inv permissions) as (_ & I2 & _).
Qed.

Lemma groupPermissions_member permissions g :
  g ∈ groupPermissions permissions →
  pg_permissions g = List.filter (in_group (pg_key g)) permissions ∧ pg_permissions g ≠ [].
Proof.
  rw groupPermissions_as_group. intros ([k v] & -> & Hin)%list_elem_of_fmap. rewrite sort_js_perm in Hin. cbn.
  destruct (grouping_inv permissions) as (I1 & _ & I3).
  apply map_get_elem in Hin; [|done]. rw I3 in Hin. by destruct (List.filter (in_group k) permissions); simplify_eq.
Qed.

(** Grouping partitions the permissions: every one is in exactly one group,
    the groups have distinct keys, and a group holds, in their order, exactly
    the permissions with its key, at least one. *)
Theorem groupPermissions_partition (permissions : list PermissionInfo) :
  concat (pg_permissions <$> groupPermissions permissions) ≡ₚ permissions ∧
  NoDup (pg_key <$> groupPermissions permissions) ∧
  (∀ g, g ∈ groupPermissions permissions →
     pg_permissions g = List.filter (in_group (pg_key g)) permissions ∧ pg_permissions g ≠ []).
Proof.
  split_and!; [apply groupPermissions_concat| |apply groupPermissions_member].
  rw groupPermissions_as_group -list_fmap_compose.
  change (pg_key ∘ as_group) with (@fst jstr (list PermissionInfo)).
  rewrite sort_js_perm. by destruct (grouping_inv permissions) as (I1 & _).
Qed.

(** A search shows exactly the permissions that match, each in its group,
    and no empty group. *)
Theorem filtered_groups_spec (permissions : list PermissionInfo) (search : jstr) :
  let shown := filtered_groups (groupPermissions permissions) search in
  concat (pg_permissions <$> shown) ≡ₚ
    (if truthy (trim search) then List.filter (matches (toLowerCase search)) permissions else permissions) ∧
  Forall (λ g, pg_permissions g ≠ []) shown.
Proof.
  cbv zeta. pose proof (groupPermissions_concat permissions) as P1.
  pose proof (groupPermissions_member permissions) as P3. unfold filtered_groups.
  destruct (truthy (trim search)); cbn [negb]; [|split; [done|]; apply Forall_forall; intros g Hg; by apply P3].
  split.
  - rewrite -{2}P1. clear P1 P3. induction (groupPermissions permissions) as [|g l IH]; csimpl; [done|].
    rewrite List.filter_app -IH. by destruct (List.filter (matches _) (pg_permissions g)).
  - apply Forall_forall. intros g [_ Hl%Nat.ltb_lt]%elem_of_List_filter_any. destruct (pg_permissions g); simpl in *; [lia|done].
Qed.

End permissions.

(** The picker's buttons work on sets of keys: a switch changes one key,
    All and None of a group exactly that group's keys, whatever is hidden by
    the search or collapsed, and no key is ever selected twice. *)
Theorem selection_spec (selected keys : list jstr) (key x : jstr) :
  NoDup selected →
  (x ∈ toggleScope key selected ↔ if decide (x = key) then x ∉ selected else x ∈ selected) ∧
  (x ∈ selectAllGroup keys selected ↔ x ∈ selected ∨ x ∈ keys) ∧
  (x ∈ deselectAllGroup keys selected ↔ x ∈ selected ∧ x ∉ keys) ∧
  NoDup (toggleScope key selected) ∧ NoDup (selectAllGroup keys selected) ∧ NoDup (deselectAllGroup keys selected).
Proof.
  intros Hn. unfold toggleScope, selectAllGroup, deselectAllGroup.
  rw elem_of_set_toggle fold_set_add_elem fold_set_delete_elem.
  split_and!; [case_decide; naive_solver|done|done|auto with bb..].
Qed.

Lemma selection_spec_witness :
  js "b" ∈ selectAllGroup [js "b"] [js "a"] ∧ js "a" ∉ toggleScope "a" [js "a"].
Proof.
  destruct (selection_spec [js "a"] [js "b"] "a" "b") as (_ & Hs & _); [apply NoDup_singleton|].
  destruct (selection_spec [js "a"] [js "b"] "a" "a") as (Ht & _); [apply NoDup_singleton|].
  split; [apply Hs; right; by left|]. intros Hx. apply Ht in Hx. vm_compute in Hx. apply Hx. by left.
Defined.

Definition perm_of (key : jstr) : PermissionInfo := {|
  PermissionInfo_id := key; PermissionInfo_scope := "team"; PermissionInfo_key := key; PermissionInfo_label := key;
  PermissionInfo_description := [] |}.
Lemma groupPermissions_partition_witness :
  concat (pg_permissions <$> groupPermissions (λ _ _, 0%Z) (perm_of <$> [js "team.inboxes.view"; js "team.emails.view"; js "team.inboxes.create"])
    (H := AsciiRuntime)) ≡ₚ perm_of <$> [js "team.inboxes.view"; js "team.emails.view"; js "team.inboxes.create"].
Proof. apply (groupPermissions_partition (λ _ _, 0%Z) (H := AsciiRuntime)). Defined.
