(* ===== verification/ApiKeys.v ===== *)
(** * API keys: [web/src/app/api-keys/page.tsx]

    The list with its optimistic revocation, the status of a key, and the
    create, detail and edit dialogs.  The scope picker is [Permissions]. *)

From S2P Require Import Prelude Browser Types ApiClient React Hooks Permissions.
Import Hooks.Small.

Definition EXPIRY_OPTIONS : list (jstr * jstr) :=
  [(js "No expiration", []); (js "7 days", js "168h"); (js "30 days", js "720h");
   (js "90 days", js "2160h"); (js "1 year", js "8760h")].

(** [a.split(",").map((s) => s.trim()).filter(Boolean)]. *)
Definition parse_ips (text : jstr) : list jstr := List.filter truthy (trim <$> split_on 44 text).

(** The default order of [sort]: by code units. *)
Fixpoint str_cmp (a b : jstr) : Z :=
  match a, b with
  | [], [] => 0
  | [], _ :: _ => -1
  | _ :: _, [] => 1
  | x :: a', y :: b' => if (x =? y)%N then str_cmp a' b' else if (x <? y)%N then -1 else 1
  end%Z.
Definition sort_strings (l : list jstr) : list jstr := sort_js str_cmp l.

Definition jstrs (l : list jstr) : json := JArr (JStr <$> l).

Section api_keys.
Context `{!AppEnv, !JSRuntime} (orgId teamId : jstr).

Definition keys_path : jstr := "/orgs/" ++ orgId ++ "/teams/" ++ teamId ++ "/api-keys".
Definition key_path (id : jstr) : jstr := keys_path ++ "/" ++ id.

(** ** The page *)

(** [keys] is the cache entry of the page shown. *)
Record KeysPage := {
  page : Z;
  detailKey : option APIKey;
  keys : option (PaginatedResponse APIKey)
}.
Definition set_keys (k : option (PaginatedResponse APIKey)) (s : KeysPage) : KeysPage :=
  {| page := page s; detailKey := detailKey s; keys := k |}.
Definition set_detailKey (k : option APIKey) (s : KeysPage) : KeysPage :=
  {| page := page s; detailKey := k; keys := keys s |}.

Definition load_keys (s : KeysPage) : M KeysPage (option json) :=
  api_get keys_path (Some [(js "page", show (page s)); (js "per_page", js "20")]).

Definition without_key (id : jstr) (r : PaginatedResponse APIKey) : PaginatedResponse APIKey := {|
  PaginatedResponse_data := List.filter (λ k, negb (APIKey_id k =?s id)) (PaginatedResponse_data r);
  PaginatedResponse_page := PaginatedResponse_page r;
  PaginatedResponse_per_page := PaginatedResponse_per_page r;
  PaginatedResponse_total := PaginatedResponse_total r;
  PaginatedResponse_total_pages := PaginatedResponse_total_pages r |}.

(** The context of [onMutate] is the page before it. *)
Definition revoke : optimistic KeysPage jstr (option (PaginatedResponse APIKey)) := {|
  om_fn id := api_del (key_path id) None;
  om_onMutate id :=
    s ← get_state;
    let prev := keys s in
    modify (set_keys (without_key id <$> prev));;
    mret prev;
  om_onSuccess _ := emit (EToastSuccess "API key revoked");
  om_onError err ctx :=
    match ctx with Some (Some prev) => modify (set_keys (Some prev)) | _ => mret tt end;;
    emit (EToastError (err_message err));
  om_onSettled := emit (EInvalidate "api-keys")
|}.

(** [new Date(x) < new Date()] and its negation by [>=], both false on NaN. *)
Definition past (date : jstr) (now : Z) : bool := match date_ms date with Some t => (t <? now)%Z | None => false end.
Definition not_past (date : jstr) (now : Z) : bool := match date_ms date with Some t => (now <=? t)%Z | None => false end.

Definition counts_active (now : Z) (k : APIKey) : bool :=
  APIKey_is_active k &&
  match APIKey_expires_at k with None | Some [] => true | Some d => not_past d now end.
Definition counts_inactive (now : Z) (k : APIKey) : bool :=
  negb (APIKey_is_active k) ||
  match APIKey_expires_at k with None | Some [] => false | Some d => past d now end.

Definition shown_keys (data : option (PaginatedResponse APIKey)) : list APIKey :=
  from_option PaginatedResponse_data [] data.
Definition activeCount (now : Z) (data : option (PaginatedResponse APIKey)) : nat :=
  countb (counts_active now) (shown_keys data).
Definition inactiveCount (now : Z) (data : option (PaginatedResponse APIKey)) : nat :=
  countb (counts_inactive now) (shown_keys data).

Definition middot : jstr := [32; 183; 32]%N.
Definition keys_summary (now : Z) (teamName : jstr) (data : option (PaginatedResponse APIKey)) : jstr :=
  let total := from_option PaginatedResponse_total 0%Z data in
  if (0 <? total)%Z then
    show total ++ " " ++ (if (total =? 1)%Z then "key" else "keys") ++ middot ++ show_nat (activeCount now data) ++ " active"
    ++ (if (0 <? inactiveCount now data)%nat then ", " ++ show_nat (inactiveCount now data) ++ " inactive" else [])
    ++ middot ++ "Programmatic access for " ++ teamName ++ "."
  else "Manage programmatic access for " ++ teamName ++ ".".

Inductive keys_view :=
| KNoTeam
| KForbidden
| KError
| KSkeleton
| KEmpty
| KList (l : list APIKey) (page total_pages : Z).
Definition ApiKeysPage (hasTeam isAdmin isError isLoading : bool) (s : KeysPage) : keys_view :=
  if negb hasTeam then KNoTeam
  else if negb isAdmin then KForbidden
  else if isError then KError
  else if isLoading then KSkeleton
  else match keys s with
       | Some d => if (length (PaginatedResponse_data d) =? 0)%nat then KEmpty
                   else KList (PaginatedResponse_data d) (page s) (PaginatedResponse_total_pages d)
       | None => KEmpty
       end.

(** ** The status of a key *)

Inductive key_status := Revoked | Expired | Inactive | Active.
Definition isExpired (now : Z) (k : APIKey) : bool :=
  match APIKey_expires_at k with None | Some [] => false | Some d => past d now end.
Definition isRevoked (k : APIKey) : bool := otruthy (APIKey_revoked_at k).

(** The badges of [ApiKeyCard]: four independent conditions. *)
Definition card_badges (now : Z) (k : APIKey) : list key_status :=
  let e := isExpired now k in let r := isRevoked k in let i := negb (APIKey_is_active k) in
  (if r then [Revoked] else []) ++
  (if negb r && e then [Expired] else []) ++
  (if negb r && negb e && i then [Inactive] else []) ++
  (if negb r && negb e && APIKey_is_active k then [Active] else []).
Definition dimmed (now : Z) (k : APIKey) : bool :=
  isExpired now k || isRevoked k || negb (APIKey_is_active k).

(** The badge of [KeyDetailDialog]: a chain of conditions. *)
Definition detail_badge (now : Z) (k : APIKey) : key_status :=
  if isRevoked k then Revoked else if isExpired now k then Expired
  else if APIKey_is_active k then Active else Inactive.

Definition scope_label (labels : list (jstr * jstr)) (s : jstr) : jstr := default s (map_get labels s).
Definition card_scopes (labels : list (jstr * jstr)) (k : APIKey) : list jstr * option jstr :=
  (scope_label labels <$> take 6 (APIKey_scopes k),
   if (6 <? length (APIKey_scopes k))%nat
   then Some ("+" ++ show_nat (length (APIKey_scopes k) - 6) ++ " more") else None).
Definition card_meta (now : Z) (localeNumber : Z → jstr) (k : APIKey) : list jstr :=
  ["Created " ++ toLocaleDateString (APIKey_created_at k)] ++
  [match APIKey_expires_at k with
   | None | Some [] => js "No expiration"
   | Some d => (if isExpired now k then "Expired" else "Expires") ++ " " ++ toLocaleDateString d
   end] ++
  match APIKey_request_count k with Some n => [localeNumber n ++ " requests"] | None => [] end ++
  match APIKey_allowed_ips k with
  | Some ((_ :: _) as ips) => [show_nat (length ips) ++ " IP" ++ (if (length ips =? 1)%nat then [] else js "s")]
  | _ => []
  end ++
  [match APIKey_last_used_at k with
   | None | Some [] => js "Never used"
   | Some d => "Last used " ++ toLocaleDateString d
   end].

(** ** Creating a key *)

Record CreateKey := {
  ck_name : jstr;
  ck_scopes : list jstr;
  ck_expiresIn : jstr;
  ck_allowedIps : jstr;
  ck_rawKey : option jstr;
  ck_creating : bool;
  ck_open : bool
}.
Definition create_init : CreateKey := {|
  ck_name := []; ck_scopes := []; ck_expiresIn := []; ck_allowedIps := []; ck_rawKey := None;
  ck_creating := false; ck_open := false |}.
Definition set_creating (b : bool) (s : CreateKey) : CreateKey := {|
  ck_name := ck_name s; ck_scopes := ck_scopes s; ck_expiresIn := ck_expiresIn s; ck_allowedIps := ck_allowedIps s;
  ck_rawKey := ck_rawKey s; ck_creating := b; ck_open := ck_open s |}.
Definition set_rawKey (k : option jstr) (s : CreateKey) : CreateKey := {|
  ck_name := ck_name s; ck_scopes := ck_scopes s; ck_expiresIn := ck_expiresIn s; ck_allowedIps := ck_allowedIps s;
  ck_rawKey := k; ck_creating := ck_creating s; ck_open := ck_open s |}.
Definition set_scopes (l : list jstr) (s : CreateKey) : CreateKey := {|
  ck_name := ck_name s; ck_scopes := l; ck_expiresIn := ck_expiresIn s; ck_allowedIps := ck_allowedIps s;
  ck_rawKey := ck_rawKey s; ck_creating := ck_creating s; ck_open := ck_open s |}.

Definition create_key_body (s : CreateKey) : json :=
  jobj [(js "name", Some (JStr (trim (ck_name s))));
        (js "scopes", Some (jstrs (ck_scopes s)));
        (js "expires_in", if truthy (ck_expiresIn s) && negb (ck_expiresIn s =?s "none")
                          then Some (JStr (ck_expiresIn s)) else None);
        (js "allowed_ips", if (0 <? length (parse_ips (ck_allowedIps s)))%nat
                           then Some (jstrs (parse_ips (ck_allowedIps s))) else None)].

(** [res.raw_key ?? null]. *)
Definition raw_key_of (v : option json) : option jstr := as_string v.

Definition create_key (closure : CreateKey) : M CreateKey unit :=
  if negb (truthy (trim (ck_name closure))) || (length (ck_scopes closure) =? 0)%nat then mret tt
  else
    modify (set_creating true);;
    try_finally
      (try_catch
        (res ← api_post keys_path (Some (create_key_body closure));
         emit (EInvalidate "api-keys");;
         k ← prop res "raw_key";
         modify (set_rawKey (raw_key_of k)))
        (λ err, emit (EToastError (err_message err))))
      (modify (set_creating false)).

(** Enter in the name field, and the button. *)
Definition name_keydown (key : jstr) (closure : CreateKey) : M CreateKey unit :=
  if key =?s "Enter" then create_key closure else mret tt.
Definition create_disabled (s : CreateKey) : bool :=
  negb (truthy (trim (ck_name s))) || (length (ck_scopes s) =? 0)%nat || ck_creating s.
Definition create_click (closure : CreateKey) : M CreateKey unit :=
  if create_disabled closure then mret tt else create_key closure.

Definition close (s : CreateKey) : CreateKey := {|
  ck_name := []; ck_scopes := []; ck_expiresIn := []; ck_allowedIps := []; ck_rawKey := None;
  ck_creating := ck_creating s; ck_open := false |}.
Definition onOpenChange (v : bool) (s : CreateKey) : CreateKey :=
  if v then {| ck_name := ck_name s; ck_scopes := ck_scopes s; ck_expiresIn := ck_expiresIn s;
               ck_allowedIps := ck_allowedIps s; ck_rawKey := ck_rawKey s; ck_creating := ck_creating s; ck_open := true |}
  else close s.

(** ** The detail dialog *)

Record KeyDetail := { editing : bool; rotatedKey : option jstr; rotating : bool; detail_open : bool }.
Definition set_rotated (k : option jstr) (s : KeyDetail) : KeyDetail :=
  {| editing := editing s; rotatedKey := k; rotating := rotating s; detail_open := detail_open s |}.
Definition set_rotating (b : bool) (s : KeyDetail) : KeyDetail :=
  {| editing := editing s; rotatedKey := rotatedKey s; rotating := b; detail_open := detail_open s |}.
Definition set_detail_open (b : bool) (s : KeyDetail) : KeyDetail :=
  {| editing := editing s; rotatedKey := rotatedKey s; rotating := rotating s; detail_open := b |}.

Definition handleRotate (id : jstr) : M KeyDetail unit :=
  modify (set_rotating true);;
  try_finally
    (try_catch
      (res ← api_post (key_path id ++ "/rotate") None;
       k ← prop res "raw_key";
       modify (set_rotated (raw_key_of k));;
       emit (EInvalidate "api-keys");; emit (EInvalidate "api-key-detail");;
       emit (EToastSuccess "Key rotated"))
      (λ err, emit (EToastError (err_message err))))
    (modify (set_rotating false)).

(** [onUpdated] invalidates the list, [onOpenChange(false)] closes. *)
Definition handleRevoke (id : jstr) : M KeyDetail unit :=
  try_catch
    (api_del (key_path id) None;;
     emit (EToastSuccess "API key revoked");;
     emit (EInvalidate "api-keys");;
     modify (set_detail_open false))
    (λ err, emit (EToastError (err_message err))).

Inductive detail_view :=
| DEdit
| DRawKey (k : jstr)
| DInfo (badge : key_status) (scopes : list jstr) (ips : list jstr) (actions : bool).
Definition KeyDetailDialog (now : Z) (labels : list (jstr * jstr)) (k : APIKey) (s : KeyDetail) : detail_view :=
  if editing s then DEdit
  else match rotatedKey s with
       | Some ((_ :: _) as raw) => DRawKey raw
       | _ => DInfo (detail_badge now k) (scope_label labels <$> APIKey_scopes k)
                (default [] (APIKey_allowed_ips k)) (negb (isRevoked k))
       end.

(** ** The edit dialog *)

Record EditKey := {
  ek_name : jstr;
  ek_isActive : bool;
  ek_scopes : list jstr;
  ek_allowedIps : jstr;
  ek_saving : bool;
  ek_open : bool
}.
(** The state the dialog opens with. *)
Definition edit_init (k : APIKey) : EditKey := {|
  ek_name := APIKey_name k;
  ek_isActive := APIKey_is_active k;
  ek_scopes := set_of (APIKey_scopes k);
  ek_allowedIps := join ", " (default [] (APIKey_allowed_ips k));
  ek_saving := false;
  ek_open := true
|}.
Definition set_saving (b : bool) (s : EditKey) : EditKey := {|
  ek_name := ek_name s; ek_isActive := ek_isActive s; ek_scopes := ek_scopes s;
  ek_allowedIps := ek_allowedIps s; ek_saving := b; ek_open := ek_open s |}.
Definition set_edit_open (b : bool) (s : EditKey) : EditKey := {|
  ek_name := ek_name s; ek_isActive := ek_isActive s; ek_scopes := ek_scopes s;
  ek_allowedIps := ek_allowedIps s; ek_saving := ek_saving s; ek_open := b |}.

(** The fields that changed.  [JSON.stringify] tells lists of strings apart
    exactly when they differ. *)
Definition edit_body (k : APIKey) (s : EditKey) : list (jstr * json) :=
  let newScopes := sort_strings (ek_scopes s) in
  let oldScopes := sort_strings (APIKey_scopes k) in
  let ips := parse_ips (ek_allowedIps s) in
  let oldIps := sort_strings (default [] (APIKey_allowed_ips k)) in
  (if negb (ek_name s =?s APIKey_name k) then [(js "name", JStr (trim (ek_name s)))] else []) ++
  (if negb (eqb (ek_isActive s) (APIKey_is_active k)) then [(js "is_active", JBool (ek_isActive s))] else []) ++
  (if bool_decide (newScopes ≠ oldScopes) then [(js "scopes", jstrs newScopes)] else []) ++
  (if bool_decide (sort_strings ips ≠ oldIps) then [(js "allowed_ips", jstrs ips)] else []).

(** [onSaved] of the detail dialog: leave editing, refresh both queries. *)
Definition save (k : APIKey) (closure : EditKey) : M EditKey unit :=
  modify (set_saving true);;
  try_finally
    (try_catch
      (let body := edit_body k closure in
       if (length body =? 0)%nat then modify (set_edit_open false)
       else
         api_patch (key_path (APIKey_id k)) (Some (JObj body));;
         emit (EToastSuccess "API key updated");;
         emit (EInvalidate "api-keys");; emit (EInvalidate "api-key-detail");;
         modify (set_edit_open false))
      (λ err, emit (EToastError (err_message err))))
    (modify (set_saving false)).
Definition save_disabled (s : EditKey) : bool :=
  negb (truthy (trim (ek_name s))) || (length (ek_scopes s) =? 0)%nat || ek_saving s.

End api_keys.

(** ** Sorting strings *)

Lemma str_cmp_refl a : str_cmp a a = 0%Z.
Proof. induction a as [|x a IH]; simpl; [done|]. by rw N.eqb_refl. Qed.
Lemma str_cmp_antisym a b : str_cmp b a = (- str_cmp a b)%Z.
Proof.
  revert b; induction a as [|x a IH]; intros [|y b]; simpl; try done. rw (N.eqb_sym y x).
  destruct (N.eqb_spec x y); [by subst|]. destruct (N.ltb_spec x y), (N.ltb_spec y x); try done; lia.
Qed.
Lemma str_cmp_eq a b : str_cmp a b = 0%Z → a = b.
Proof.
  revert b; induction a as [|x a IH]; intros [|y b]; simpl; try done.
  destruct (N.eqb_spec x y) as [->|]; [intros ?%IH; by f_equal|]. by destruct (N.ltb x y).
Qed.
Lemma str_cmp_trans a b c : (str_cmp a b <= 0)%Z → (str_cmp b c <= 0)%Z → (str_cmp a c <= 0)%Z.
Proof.
  revert b c; induction a as [|x a IH]; intros [|y b] [|z c]; simpl; try done.
  repeat match goal with
  | |- context [(?u =? ?v)%N] => destruct (N.eqb_spec u v)
  | |- context [(?u <? ?v)%N] => destruct (N.ltb_spec u v)
  end; subst; try done; try lia. apply IH.
Qed.

(** Sorting is canonical: two lists have the same sorted form exactly when
    they hold the same strings, equally often. *)
Lemma sort_strings_sorted l : StronglySorted (λ a b, (str_cmp a b <= 0)%Z) (sort_strings l).
Proof.
  unfold sort_strings. induction l as [|x l IH]; simpl; [constructor|].
  revert IH. generalize (sort_js str_cmp l) as k. induction k as [|y k IHk]; simpl; intros Hs; [repeat constructor|].
  apply StronglySorted_inv in Hs as [Hs Hy].
  destruct (Z.leb_spec (str_cmp x y) 0) as [Hle|Hgt].
  - constructor; [by constructor|]. constructor; [done|]. eapply Forall_impl; [done|]. simpl. intros z. by apply str_cmp_trans.
  - constructor; [by apply IHk|]. rewrite sort_insert_perm. constructor; [|done]. rw str_cmp_antisym. lia.
Qed.
Lemma sort_strings_iff l k : sort_strings l = sort_strings k ↔ l ≡ₚ k.
Proof.
  split.
  - intros E. rewrite -(sort_js_perm str_cmp l) -(sort_js_perm str_cmp k). unfold sort_strings in E. by rewrite E.
  - intros Hp. assert (Hs : sort_strings l ≡ₚ sort_strings k).
    { unfold sort_strings. by rewrite !sort_js_perm. }
    pose proof (sort_strings_sorted l) as H1. pose proof (sort_strings_sorted k) as H2.
    revert Hs H1 H2. generalize (sort_strings l) as u. generalize (sort_strings k) as v. clear.
    intros v u. revert v. induction u as [|x u IH]; intros v Hp Hu Hv.
    + by apply Permutation_nil_l in Hp.
    + destruct v as [|y v]; [by apply Permutation_nil_r in Hp|].
      apply StronglySorted_inv in Hu as [Hu Hx]. apply StronglySorted_inv in Hv as [Hv Hy].
      assert (x = y) as ->.
      { assert (Hin : x ∈ y :: v) by (rewrite -Hp; by left).
        assert (Hin' : y ∈ x :: u) by (rewrite Hp; by left).
        apply elem_of_cons in Hin as [->|Hin]; [done|]. apply elem_of_cons in Hin' as [->|Hin']; [done|].
        rewrite -> Forall_forall in Hx, Hy. specialize (Hx y Hin'). specialize (Hy x Hin). simpl in *.
        rw str_cmp_antisym in Hy. apply str_cmp_eq. lia. }
      f_equal. apply IH; [|done|done]. by apply Permutation_cons_inv in Hp.
Qed.

(** For sets: different exactly when a member differs. *)
Lemma sort_strings_set l k : NoDup l → NoDup k →
  sort_strings l ≠ sort_strings k ↔ ∃ x, ¬ (x ∈ l ↔ x ∈ k).
Proof.
  intros Hl Hk. rw sort_strings_iff. split; [|intros [x Hx] Hp; apply Hx; by rewrite Hp].
  intros Hn. destruct (decide (l ⊆ k)) as [H1|H1].
  - destruct (decide (k ⊆ l)) as [H2|H2].
    + destruct Hn. apply NoDup_Permutation; [done|done|]. intros x. split; [apply H1|apply H2].
    + apply not_list_subseteq in H2 as (x & ? & ?). exists x. tauto.
  - apply not_list_subseteq in H1 as (x & ? & ?). exists x. tauto.
Qed.

(** ** The allow list as text *)

Definition clean_ip (ip : jstr) : Prop := truthy ip = true ∧ trim ip = ip ∧ 44%N ∉ ip.

Lemma trim_space (w : jstr) : trim (32%N :: w) = trim w.
Proof. reflexivity. Qed.

Lemma parse_join_ips (ips : list jstr) : Forall clean_ip ips → parse_ips (join ", " ips) = ips.
Proof.
  intros Hc. unfold parse_ips.
  assert (Hgen : ∀ pre l, (pre = [] ∨ pre = [32%N]) → Forall clean_ip l → l ≠ [] →
    List.filter truthy (trim <$> split_on 44 (pre ++ join ", " l)) = l).
  { intros pre l Hpre Hl Hne. assert (Ht : ∀ w, trim (pre ++ w) = trim w).
    { intros w. by destruct Hpre as [->| ->]. }
    assert (Hpc : 44%N ∉ pre) by (destruct Hpre as [->| ->]; set_solver).
    revert pre Hpre Ht Hpc. induction Hl as [|ip l (H1 & H2 & H3) Hl IH]; intros pre Hpre Ht Hpc; [done|].
    destruct l as [|ip' l].
    - cbn [join]. rw split_on_none; [|set_solver]. csimpl. rw Ht H2 H1. done.
    - cbn [join]. change (ip ++ ", " ++ join ", " (ip' :: l)) with (ip ++ 44%N :: ([32%N] ++ join ", " (ip' :: l))).
      rw app_assoc split_on_app; [|set_solver]. rw fmap_cons. cbn [List.filter]. rw Ht H2 H1. f_equal.
      exact (IH ltac:(done) [32%N] ltac:(by right) ltac:(done) ltac:(set_solver)). }
  destruct ips as [|ip ips]; [done|]. exact (Hgen [] (ip :: ips) ltac:(by left) Hc ltac:(done)).
Qed.

(** ** Theorems *)

Section api_keys_theorems.
Context `{!AppEnv, !JSRuntime} (orgId teamId : jstr).

(** A key has exactly one status, the same on the card and in the dialog,
    and the card is dimmed exactly when it is not active. *)
Theorem key_badges_agree (now : Z) (k : APIKey) :
  card_badges now k = [detail_badge now k] ∧ (dimmed now k = false ↔ detail_badge now k = Active).
Proof.
  unfold card_badges, dimmed, detail_badge.
  destruct (isRevoked k), (isExpired now k), (APIKey_is_active k); cbn; naive_solver.
Qed.

(** The header's two counts add up to the keys on the page, provided the
    expiry dates are valid. *)
Theorem key_counts_partition (now : Z) (d : PaginatedResponse APIKey) :
  Forall (λ k, match APIKey_expires_at k with None | Some [] => True | Some t => is_Some (date_ms t) end)
    (PaginatedResponse_data d) →
  activeCount now (Some d) + inactiveCount now (Some d) = length (PaginatedResponse_data d).
Proof.
  intros Hv. unfold activeCount, inactiveCount. change (shown_keys (Some d)) with (PaginatedResponse_data d).
  rw -(countb_partition (counts_active now) (PaginatedResponse_data d)). f_equal.
  unfold countb. f_equal. induction Hv as [|k l Hk _ IH]; simpl; [done|]. rw IH.
  assert (counts_inactive now k = negb (counts_active now k)) as ->; [|done].
  unfold counts_inactive, counts_active, past, not_past. destruct (APIKey_is_active k); cbn; [|done].
  destruct (APIKey_expires_at k) as [[|c t]|]; try done. destruct Hk as [x ->].
  destruct (Z.ltb_spec x now), (Z.leb_spec now x); try done; lia.
Qed.

(** Revocation is optimistic and rolls back: the key disappears at once; if
    the server refuses, the page is again exactly what it was and the error is
    shown; either way the list is fetched again last. *)
Theorem revoke_rolls_back `{!OptimisticRunner} (id : jstr) (w : world KeysPage) :
  let '(r, w') := mutate_om (revoke orgId teamId) id w in
  r = inr tt ∧ last (trace (brw w')) = Some (EInvalidate "api-keys") ∧
  page (st w') = page (st w) ∧ detailKey (st w') = detailKey (st w) ∧
  match api_del (key_path orgId teamId id) None (World (brw w) (set_keys (without_key id <$> keys (st w)) (st w))) with
  | (inr _, _) => keys (st w') = without_key id <$> keys (st w)
  | (inl e, _) => keys (st w') = keys (st w) ∧ EToastError (err_message e) ∈ trace (brw w')
  end.
Proof.
  rw mutate_om_spec. cbn [om_onMutate om_fn om_onSuccess om_onError om_onSettled revoke]. run_M.
  set (w1 := World (brw w) _). unfold api_del, api_send.
  set (opts := {| o_method := _; o_headers := _; o_body := _; o_params := _ |}).
  pose proof (sf_state _ _ (session_frame_request (key_path orgId teamId id) opts w1)) as Hst.
  destruct (request (key_path orgId teamId id) opts w1) as [[e|v] w2]; cbn [snd] in Hst.
  - destruct (keys (st w)) as [prev|] eqn:Ek; step_M; rw ?Hst; cbn; rw ?last_snoc ?Ek; split_and!; rw ?Hst; cbn; try done;
      rw ?elem_of_app ?list_elem_of_singleton; try tauto; by rw Ek.
  - unfold emit, modify_browser. run_M. rw Hst. cbn. by rw last_snoc.
Qed.

(** Saving the edit dialog as it was opened sends nothing and closes it,
    for keys whose scopes are distinct and whose addresses have no stray
    spaces or commas. *)
Theorem edit_unchanged_silent (k : APIKey) (w : world EditKey) :
  NoDup (APIKey_scopes k) → Forall clean_ip (default [] (APIKey_allowed_ips k)) →
  edit_body k (edit_init k) = [] ∧
  save orgId teamId k (edit_init k) w =
    (inr tt, World (brw w) (set_saving false (set_edit_open false (set_saving true (st w))))).
Proof.
  intros Hs Hi.
  assert (Hb : edit_body k (edit_init k) = []).
  { unfold edit_body, edit_init. cbn. rw jeqb_refl eqb_reflx parse_join_ips //.
    rw !bool_decide_false //; [by intros []|].
    intros Hne. apply Hne, sort_strings_iff. apply NoDup_Permutation; [apply NoDup_set_of|done|].
    intros x. apply elem_of_set_of. }
  split; [done|]. unfold save. rw Hb. run_M. done.
Qed.

(** The edit dialog sends exactly what changed: the scopes when a scope was
    added or removed, the addresses when they differ other than in order. *)
Theorem edit_body_changes (k : APIKey) (s : EditKey) :
  NoDup (ek_scopes s) → NoDup (APIKey_scopes k) →
  (js "scopes" ∈ (edit_body k s).*1 ↔ ∃ x, ¬ (x ∈ ek_scopes s ↔ x ∈ APIKey_scopes k)) ∧
  (js "allowed_ips" ∈ (edit_body k s).*1 ↔ ¬ parse_ips (ek_allowedIps s) ≡ₚ default [] (APIKey_allowed_ips k)) ∧
  (js "name" ∈ (edit_body k s).*1 ↔ ek_name s ≠ APIKey_name k) ∧
  (js "is_active" ∈ (edit_body k s).*1 ↔ ek_isActive s ≠ APIKey_is_active k).
Proof.
  intros Hs Hk. unfold edit_body. cbv zeta.
  pose proof (sort_strings_set (ek_scopes s) (APIKey_scopes k) Hs Hk) as Hsc.
  rw -Hsc -(sort_strings_iff (parse_ips _)).
  rw !fmap_app !elem_of_app.
  destruct (jeqb (ek_name s) (APIKey_name k)) eqn:En; [apply jeqb_eq in En|apply jeqb_neq in En];
    destruct (eqb (ek_isActive s) (APIKey_is_active k)) eqn:Ea;
    [apply eqb_prop in Ea|apply eqb_false_iff in Ea|apply eqb_prop in Ea|apply eqb_false_iff in Ea];
    cbn [negb]; repeat case_bool_decide; csimpl; rw ?elem_of_nil ?list_elem_of_singleton;
    split_and!; naive_solver.
Qed.

(** While a key is being created the button is disabled, but Enter in the
    name field still submits: a second key is requested. *)
Theorem create_enter_resubmits (s : CreateKey) (w : world CreateKey) :
  truthy (trim (ck_name s)) = true → ck_scopes s ≠ [] → ck_creating s = true →
  create_click orgId teamId s w = (inr tt, w) ∧
  ∃ rest, sent_requests (snd (name_keydown orgId teamId "Enter" s w)) =
    sent_requests w ++
    build_request (keys_path orgId teamId)
      {| o_method := "POST"; o_headers := []; o_body := Some (create_key_body s); o_params := None |}
      (accessToken (brw w)) :: rest.
Proof.
  intros Hn Hs Hc. split.
  - unfold create_click, create_disabled. rw Hc orb_true_r. done.
  - unfold name_keydown. cbn [jeqb]. rw jeqb_refl. unfold create_key. rw Hn.
    destruct (ck_scopes s) as [|x l] eqn:Es; [done|]. cbn [negb orb length Nat.eqb]. run_M.
    unfold api_post, api_send.
    set (opts := {| o_method := _; o_headers := _; o_body := _; o_params := _ |}).
    destruct (request_sends_first (keys_path orgId teamId) opts (World (brw w) (set_creating true (st w)))) as [rest Hr].
    exists rest. destruct (request _ opts _) as [[e|v] w1]; cbn [snd] in Hr.
    + step_M. unfold sent_requests in *. cbn [snd brw trace log_effect]. rw ?fetches_app ?app_nil_r. exact Hr.
    + assert (Hp : ∀ f, sent_requests (snd (try_finally (try_catch (emit (EInvalidate "api-keys");;
          k ← prop v "raw_key"; modify (set_rawKey (raw_key_of k))) (λ err, emit (EToastError (err_message err))))
          (modify f) w1)) = sent_requests w1).
      { intros f. unfold try_finally, try_catch, prop. destruct v as [[| | | | | |]|]; run_M;
        unfold sent_requests; cbn [snd brw trace log_effect]; by rw ?fetches_app ?app_nil_r. }
      rw -Hr. exact (Hp (set_creating false)).
Qed.
End api_keys_theorems.

(** ** Instances *)

Definition a_key : APIKey := {|
  APIKey_id := "k1"; APIKey_team_id := "t"; APIKey_name := "CI"; APIKey_key_prefix := "bb_"; APIKey_description := None;
  APIKey_scopes := [js "team.inboxes.view"; js "team.emails.view"]; APIKey_is_active := true;
  APIKey_allowed_ips := Some [js "10.0.0.1"; js "192.168.0.0/24"]; APIKey_request_count := Some 3%Z;
  APIKey_last_used_at := None; APIKey_last_used_ip := None; APIKey_expires_at := Some (js "5000"); APIKey_revoked_at := None;
  APIKey_created_at := "0"; APIKey_created_by_email := None; APIKey_created_by_name := None; APIKey_raw_key := None |}.
Definition one_page : PaginatedResponse APIKey := {|
  PaginatedResponse_data := [a_key]; PaginatedResponse_total := 1; PaginatedResponse_page := 1;
  PaginatedResponse_per_page := 20; PaginatedResponse_total_pages := 1 |}.

Lemma a_key_scopes : NoDup (APIKey_scopes a_key).
Proof. apply (bool_decide_unpack _). vm_compute. exact I. Defined.
Lemma a_key_ips : Forall clean_ip (default [] (APIKey_allowed_ips a_key)).
Proof.
  repeat constructor; try (apply (bool_decide_unpack _); vm_compute; exact I).
Defined.

Lemma key_counts_partition_witness :
  activeCount 7000 (Some one_page) (H0 := AsciiRuntime) + inactiveCount 7000 (Some one_page) (H0 := AsciiRuntime) = 1.
Proof.
  exact (key_counts_partition 7000 one_page ltac:(repeat constructor; by eexists) (H0 := AsciiRuntime)).
Defined.

Definition edit_world : world EditKey := World (browser_on ∅ "/api-keys" []) (edit_init a_key).
Lemma edit_unchanged_silent_witness :
  fst (save "o" "t" a_key (edit_init a_key) edit_world (H := default_env)) = inr tt ∧
  sent_requests (snd (save "o" "t" a_key (edit_init a_key) edit_world (H := default_env))) = [].
Proof.
  destruct (edit_unchanged_silent "o" "t" a_key edit_world a_key_scopes a_key_ips (H := default_env)) as [_ ->].
  done.
Defined.

Definition renamed : EditKey := {|
  ek_name := "CI 2"; ek_isActive := true; ek_scopes := [js "team.emails.view"]; ek_allowedIps := "192.168.0.0/24,10.0.0.1";
  ek_saving := false; ek_open := true |}.
Lemma edit_body_changes_witness :
  js "scopes" ∈ (edit_body a_key renamed).*1 ∧ js "allowed_ips" ∉ (edit_body a_key renamed).*1.
Proof.
  destruct (edit_body_changes a_key renamed) as (Hs & Hi & _).
  - apply (bool_decide_unpack _). vm_compute. exact I.
  - exact a_key_scopes.
  - split.
    + apply Hs. exists (js "team.inboxes.view"). intros [_ Hx].
      assert (Hb : bool_decide (js "team.inboxes.view" ∈ ek_scopes renamed) = true)
        by (apply bool_decide_eq_true, Hx; by left).
      vm_compute in Hb. discriminate.
    + rw Hi. intros Hn. apply Hn, sort_strings_iff. vm_compute. reflexivity.
Defined.

Definition creating_key : CreateKey := {|
  ck_name := "CI"; ck_scopes := [js "team.inboxes.view"]; ck_expiresIn := []; ck_allowedIps := []; ck_rawKey := None;
  ck_creating := true; ck_open := true |}.
Lemma create_enter_resubmits_witness :
  length (sent_requests (snd (name_keydown "o" "t" "Enter" creating_key
    (World (browser_on ∅ "/api-keys" []) creating_key) (H := default_env)))) ≠ 0.
Proof.
  destruct (create_enter_resubmits "o" "t" creating_key (World (browser_on ∅ "/api-keys" []) creating_key)
    eq_refl ltac:(discriminate) eq_refl (H := default_env)) as [_ [rest ->]].
  discriminate.
Defined.

Definition revoke_world : world KeysPage :=
  World (browser_on ∅ "/api-keys" [answer 403 (JObj [(js "error", JStr (js "forbidden"))])])
    {| page := 1; detailKey := None; keys := Some one_page |}.
Lemma revoke_rolls_back_witness :
  keys (st (snd (mutate_om (revoke "o" "t" (H := default_env)) "k1" revoke_world (OptimisticRunner := direct_om)))) = Some one_page.
Proof.
  pose proof (revoke_rolls_back "o" "t" "k1" revoke_world (H := default_env) (H1 := direct_om)) as Hr.
  vm_compute in Hr. vm_compute. exact (proj1 (proj2 (proj2 (proj2 (proj2 Hr))))).
Defined.
