(* ===== verification/RolesTab.v ===== *)
(** * Roles and permissions: [web/src/components/settings/roles-tab.tsx]

    The role cards, the permission editor, and the create, edit and compare
    dialogs.  The helpers this file repeats from the API keys page are those
    of [Permissions], with groups known by their name. *)

From S2P Require Import Prelude Browser ApiClient React OrgStore Hooks Permissions ApiKeys.
Import Hooks.Small.

(** [\s+] replaced by [_], everywhere. *)
Fixpoint underscore_spaces (after_space : bool) (s : jstr) : jstr :=
  match s with
  | [] => []
  | c :: t =>
      if is_space c then (if after_space then [] else [95%N]) ++ underscore_spaces true t
      else c :: underscore_spaces false t
  end.

Section roles.
Context `{!AppEnv, !JSRuntime} (localeCompare : jstr → jstr → Z).

Record NamedGroup := { ng_name : jstr; ng_permissions : list PermissionInfo }.
Definition roles_groupPermissions (permissions : list PermissionInfo) : list NamedGroup :=
  (λ '(key, perms), {| ng_name := groupLabel key; ng_permissions := perms |}) <$>
  sort_js (λ a b, localeCompare a.1 b.1) (fold_left add_to_group permissions []).

(** ** The tab *)

Definition deleteRole (role : RoleInfo) : M unit unit :=
  try_catch
    (api_del ("/admin/roles/" ++ RoleInfo_id role) None;;
     emit (EToastSuccess ("Role " ++ dq ++ RoleInfo_label role ++ dq ++ " deleted"));;
     emit (EInvalidate "roles"))
    (λ err, emit (EToastError (err_message err))).

Definition plural_s (n : nat) : jstr := if (n =? 1)%nat then [] else js "s".
Definition roles_summary (r : Roles) : jstr :=
  show_nat (length (orgRoles r)) ++ " org role" ++ plural_s (length (orgRoles r)) ++ middot ++
  show_nat (length (teamRoles r)) ++ " team role" ++ plural_s (length (teamRoles r)) ++ middot ++
  show_nat (length (orgPermissions r) + length (teamPermissions r)) ++ " total permissions".

Inductive compare_scope := CompareOrg | CompareTeam.
Record RolesTab := { editingRole : option RoleInfo; compareScope : option compare_scope }.

(** What the tab shows besides its cards: the dialogs with their data. *)
Inductive roles_view :=
| RSkeleton
| RTab (orgCards teamCards : list (RoleInfo * nat)) (edit : option (RoleInfo * list PermissionInfo))
    (compare : option (list RoleInfo * list PermissionInfo)).
Definition RolesTab_view (r : Roles) (s : RolesTab) : roles_view :=
  if (length (orgRoles r) =? 0)%nat && (length (teamRoles r) =? 0)%nat then RSkeleton
  else
    RTab ((λ x, (x, length (orgPermissions r))) <$> orgRoles r)
      ((λ x, (x, length (teamPermissions r))) <$> teamRoles r)
      ((λ role, (role, if RoleInfo_scope role =?s "org" then orgPermissions r else teamPermissions r)) <$> editingRole s)
      ((λ c, match c with
             | CompareOrg => (orgRoles r, orgPermissions r)
             | CompareTeam => (teamRoles r, teamPermissions r)
             end) <$> compareScope s).

(** *** A card: count, percentage and whether it can be deleted. *)
Record role_card := { rc_count : jstr; rc_percent : Z; rc_rank : jstr; rc_system : bool; rc_deletable : bool }.
(** [Math.round(count / total * 100)]. *)
Definition permPercent (permCount total : nat) : Z :=
  if (0 <? total)%nat then ((200 * Z.of_nat permCount + Z.of_nat total) / (2 * Z.of_nat total))%Z else 0%Z.
Definition RoleCard (role : RoleInfo) (totalPermissions : nat) : role_card :=
  let permCount := length (RoleInfo_permissions role) in {|
  rc_count := show_nat permCount ++ "/" ++ show_nat totalPermissions ++ " permissions";
  rc_percent := permPercent permCount totalPermissions;
  rc_rank := "Rank " ++ show (RoleInfo_rank role);
  rc_system := RoleInfo_is_system role;
  rc_deletable := negb (RoleInfo_is_system role)
|}.

(** ** The permission editor *)

Definition editor_filter (groups : list NamedGroup) (search : jstr) : list NamedGroup :=
  if negb (truthy (trim search)) then groups
  else
    let q := toLowerCase search in
    List.filter (λ g, (0 <? length (ng_permissions g))%nat)
      ((λ g, {| ng_name := ng_name g; ng_permissions := List.filter (matches q) (ng_permissions g) |}) <$> groups).

Definition editor_group (selected collapsed : list jstr) (g : NamedGroup) : group_view := {|
  gv_name := ng_name g;
  gv_enabled := countb (λ p, set_has selected (PermissionInfo_key p)) (ng_permissions g);
  gv_total := length (ng_permissions g);
  gv_rows := if set_has collapsed (ng_name g) then []
             else (λ p, (p, set_has selected (PermissionInfo_key p))) <$> ng_permissions g;
  gv_keys := PermissionInfo_key <$> ng_permissions g
|}.
Definition PermissionEditor (permissions : list PermissionInfo) (selected collapsed : list jstr) (search : jstr)
    : picker_view :=
  let filtered := editor_filter (roles_groupPermissions permissions) search in {|
  pv_count := show_nat (length selected) ++ " of " ++ show_nat (length permissions) ++ " permissions enabled";
  pv_all := PermissionInfo_key <$> permissions;
  pv_groups := editor_group selected collapsed <$> filtered;
  pv_none := (length filtered =? 0)%nat
|}.

(** ** Creating a role *)

Record CreateRole := {
  cr_open : bool;
  cr_scope : jstr;
  cr_value : jstr;
  cr_label : jstr;
  cr_description : jstr;
  cr_rank : Z;
  cr_selected : list jstr;
  cr_saving : bool
}.
Definition cr_init : CreateRole := {|
  cr_open := false; cr_scope := "org"; cr_value := []; cr_label := []; cr_description := []; cr_rank := 1;
  cr_selected := []; cr_saving := false |}.
Definition cr_with (scope : jstr) (selected : list jstr) (s : CreateRole) : CreateRole := {|
  cr_open := cr_open s; cr_scope := scope; cr_value := cr_value s; cr_label := cr_label s;
  cr_description := cr_description s; cr_rank := cr_rank s; cr_selected := selected; cr_saving := cr_saving s |}.
Definition cr_set_saving (b : bool) (s : CreateRole) : CreateRole := {|
  cr_open := cr_open s; cr_scope := cr_scope s; cr_value := cr_value s; cr_label := cr_label s;
  cr_description := cr_description s; cr_rank := cr_rank s; cr_selected := cr_selected s; cr_saving := b |}.
Definition cr_set_text (value label description : jstr) (rank : Z) (s : CreateRole) : CreateRole := {|
  cr_open := cr_open s; cr_scope := cr_scope s; cr_value := value; cr_label := label;
  cr_description := description; cr_rank := rank; cr_selected := cr_selected s; cr_saving := cr_saving s |}.

Definition scope_permissions (org team : list PermissionInfo) (scope : jstr) : list PermissionInfo :=
  if scope =?s "org" then org else team.

Definition role_reset (s : CreateRole) : CreateRole := {|
  cr_open := cr_open s; cr_scope := "org"; cr_value := []; cr_label := []; cr_description := []; cr_rank := 1;
  cr_selected := []; cr_saving := cr_saving s |}.
Definition role_setOpen (v : bool) (s : CreateRole) : CreateRole := {|
  cr_open := v; cr_scope := cr_scope s; cr_value := cr_value s; cr_label := cr_label s;
  cr_description := cr_description s; cr_rank := cr_rank s; cr_selected := cr_selected s; cr_saving := cr_saving s |}.
Definition role_onOpenChange (v : bool) (s : CreateRole) : CreateRole :=
  let s1 := role_setOpen v s in if v then s1 else role_reset s1.
(** The scope selector. *)
Definition role_setScope (v : jstr) (s : CreateRole) : CreateRole := cr_with v [] s.

Definition role_slug (value : jstr) : jstr := underscore_spaces false (toLowerCase value).
Definition role_body (s : CreateRole) : json :=
  JObj [(js "scope", JStr (cr_scope s)); (js "value", JStr (role_slug (cr_value s)));
        (js "label", JStr (cr_label s)); (js "description", JStr (cr_description s));
        (js "rank", JNum (cr_rank s)); (js "permissions", jstrs (cr_selected s))].
Definition role_save (closure : CreateRole) : M CreateRole unit :=
  modify (cr_set_saving true);;
  try_finally
    (try_catch
      (api_post "/admin/roles" (Some (role_body closure));;
       emit (EToastSuccess "Role created");;
       modify (role_setOpen false);; modify role_reset;;
       emit (EInvalidate "roles"))
      (λ err, emit (EToastError (err_message err))))
    (modify (cr_set_saving false)).
Definition role_save_disabled (s : CreateRole) : bool :=
  negb (truthy (cr_value s)) || negb (truthy (cr_label s)) || cr_saving s.

(** What the user can do in the dialog: the editor's buttons carry keys of
    the permissions it shows. *)
Inductive role_step (org team : list PermissionInfo) : CreateRole → CreateRole → Prop :=
| rs_toggle s p : p ∈ scope_permissions org team (cr_scope s) →
    role_step org team s (cr_with (cr_scope s) (toggleScope (PermissionInfo_key p) (cr_selected s)) s)
| rs_all s ps : ps ⊆ scope_permissions org team (cr_scope s) →
    role_step org team s (cr_with (cr_scope s) (selectAllGroup (PermissionInfo_key <$> ps) (cr_selected s)) s)
| rs_none s ps :
    role_step org team s (cr_with (cr_scope s) (deselectAllGroup (PermissionInfo_key <$> ps) (cr_selected s)) s)
| rs_scope s v : role_step org team s (role_setScope v s)
| rs_text s value label description rank : role_step org team s (cr_set_text value label description rank s)
| rs_open s v : role_step org team s (role_onOpenChange v s)
| rs_saved s : role_step org team s (role_reset (role_setOpen false s))
| rs_saving s b : role_step org team s (cr_set_saving b s).

(** ** Editing a role *)

Record EditRole := { er_label : jstr; er_description : jstr; er_selected : list jstr; er_saving : bool; er_open : bool }.
Definition er_init (role : RoleInfo) : EditRole := {|
  er_label := RoleInfo_label role; er_description := RoleInfo_description role;
  er_selected := set_of (RoleInfo_permissions role); er_saving := false; er_open := true |}.
Definition er_set_saving (b : bool) (s : EditRole) : EditRole := {|
  er_label := er_label s; er_description := er_description s; er_selected := er_selected s; er_saving := b; er_open := er_open s |}.
Definition er_close (s : EditRole) : EditRole := {|
  er_label := er_label s; er_description := er_description s; er_selected := er_selected s; er_saving := er_saving s; er_open := false |}.

Definition dirty (role : RoleInfo) (s : EditRole) : bool :=
  negb (er_label s =?s RoleInfo_label role) || negb (er_description s =?s RoleInfo_description role) ||
  bool_decide (sort_strings (er_selected s) ≠ sort_strings (RoleInfo_permissions role)).

Definition edit_role_body (s : EditRole) : list (jstr * json) :=
  [(js "label", JStr (er_label s)); (js "description", JStr (er_description s)); (js "permissions", jstrs (er_selected s))].
Definition edit_role_save (role : RoleInfo) (closure : EditRole) : M EditRole unit :=
  modify (er_set_saving true);;
  try_finally
    (try_catch
      (api_patch ("/admin/roles/" ++ RoleInfo_id role) (Some (JObj (edit_role_body closure)));;
       emit (EToastSuccess (RoleInfo_label role ++ " updated"));;
       modify er_close;; emit (EInvalidate "roles"))
      (λ err, emit (EToastError (err_message err))))
    (modify (er_set_saving false)).

(** The controls of the dialog; the editor's buttons carry keys of the
    permissions it shows. *)
Definition er_text (label description : jstr) (s : EditRole) : EditRole := {|
  er_label := label; er_description := description; er_selected := er_selected s; er_saving := er_saving s; er_open := er_open s |}.
Definition er_select (keys : list jstr) (s : EditRole) : EditRole := {|
  er_label := er_label s; er_description := er_description s; er_selected := keys; er_saving := er_saving s; er_open := er_open s |}.
Inductive edit_step (permissions : list PermissionInfo) : EditRole → EditRole → Prop :=
| es_label s label : edit_step permissions s (er_text label (er_description s) s)
| es_description s description : edit_step permissions s (er_text (er_label s) description s)
| es_toggle s p : p ∈ permissions → edit_step permissions s (er_select (toggleScope (PermissionInfo_key p) (er_selected s)) s)
| es_all s ps : ps ⊆ permissions → edit_step permissions s (er_select (selectAllGroup (PermissionInfo_key <$> ps) (er_selected s)) s)
| es_none s ps : ps ⊆ permissions → edit_step permissions s (er_select (deselectAllGroup (PermissionInfo_key <$> ps) (er_selected s)) s)
| es_saving s b : edit_step permissions s (er_set_saving b s).

Record edit_view := { ev_title : jstr; ev_badge : jstr; ev_label : jstr; ev_description : jstr; ev_editor : picker_view; ev_button : option (jstr * bool) }.
Definition EditRoleDialog (role : RoleInfo) (permissions : list PermissionInfo) (collapsed : list jstr) (search : jstr) (s : EditRole) : edit_view := {|
  ev_title := "Edit: " ++ RoleInfo_label role;
  ev_badge := RoleInfo_scope role ++ "/" ++ RoleInfo_value role;
  ev_label := er_label s; ev_description := er_description s;
  ev_editor := PermissionEditor permissions (er_selected s) collapsed search;
  ev_button := if dirty role s then Some (if er_saving s then [83; 97; 118; 105; 110; 103; 8230]%N else js "Save Changes", negb (er_saving s)) else None |}.
(** Groups of the editor are folded by their name. *)
Definition toggleCollapse (name : jstr) (collapsed : list jstr) : list jstr := set_toggle collapsed name.
Definition create_role_button (s : CreateRole) : jstr * bool :=
  (if cr_saving s then [67; 114; 101; 97; 116; 105; 110; 103; 8230]%N else js "Create Role", negb (role_save_disabled s)).

(** ** Comparing roles: a row per permission, a cell per role. *)
Definition CompareDialog (roles : list RoleInfo) (permissions : list PermissionInfo)
    : list (jstr * list (PermissionInfo * list bool)) :=
  (λ g, (ng_name g,
         (λ p, (p, (λ r, set_has (RoleInfo_permissions r) (PermissionInfo_key p)) <$> roles)) <$> ng_permissions g))
  <$> roles_groupPermissions permissions.

End roles.

(** ** Theorems *)

(** A role is never created with a permission of the other scope:
    whatever is done in the dialog, the selected keys are distinct and belong
    to the permissions of the selected scope. *)
Theorem create_role_scope_safe (org team : list PermissionInfo) (s : CreateRole) :
  rtc (role_step org team) cr_init s →
  NoDup (cr_selected s) ∧
  ∀ k, k ∈ cr_selected s → k ∈ PermissionInfo_key <$> scope_permissions org team (cr_scope s).
Proof.
  revert s. apply (rtc_ind_r (λ s, NoDup (cr_selected s) ∧
    ∀ k, k ∈ cr_selected s → k ∈ PermissionInfo_key <$> scope_permissions org team (cr_scope s))).
  { cbn. split; [constructor|set_solver]. }
  intros s s' _ Hst [Hn Hk].
  destruct Hst as [s p Hp|s ps Hps|s ps|s v|s va la de ra|s v|s|s b]; cbn; try done.
  - unfold toggleScope. split; [auto with bb|]. intros k [[? _]|[_ ->]]%elem_of_set_toggle; [by apply Hk|].
    apply list_elem_of_fmap. by exists p.
  - unfold selectAllGroup. split; [auto with bb|].
    intros k [?|(p & -> & Hp)%list_elem_of_fmap]%fold_set_add_elem; [by apply Hk|].
    apply list_elem_of_fmap. exists p. split; [done|]. by apply Hps.
  - unfold deselectAllGroup. split; [auto with bb|]. intros k [? _]%fold_set_delete_elem. by apply Hk.
  - split; [constructor|set_solver].
  - destruct v; cbn; [done|]. split; [constructor|set_solver].
  - split; [constructor|set_solver].
Qed.

(** The slug of a role has no white space. *)
Theorem role_slug_no_space `{!JSRuntime} (value : jstr) (c : N) : c ∈ role_slug value → is_space c = false.
Proof.
  unfold role_slug. generalize (toLowerCase value) as s. intros s.
  assert (Hgen : ∀ b, c ∈ underscore_spaces b s → is_space c = false); [|apply Hgen].
  induction s as [|x s IH]; intros b; simpl; [set_solver|].
  destruct (is_space x) eqn:Ex.
  - intros [Hc|Hc]%elem_of_app; [|by eapply IH].
    destruct b; [set_solver|]. apply list_elem_of_singleton in Hc as ->. done.
  - intros [->|Hc]%elem_of_cons; [done|by eapply IH].
Qed.

(** The save button of the edit dialog appears exactly when the label, the
    description or the set of permissions differs from the role's; in
    particular not when the dialog has just been opened. *)
Theorem dirty_iff_changed (role : RoleInfo) (s : EditRole) :
  NoDup (er_selected s) → NoDup (RoleInfo_permissions role) →
  (dirty role s = true ↔
     er_label s ≠ RoleInfo_label role ∨ er_description s ≠ RoleInfo_description role ∨
     ∃ x, ¬ (x ∈ er_selected s ↔ x ∈ RoleInfo_permissions role)) ∧
  dirty role (er_init role) = false.
Proof.
  intros Hs Hr. unfold dirty. split.
  - rw !orb_true_iff !negb_true_iff !jeqb_neq bool_decide_eq_true sort_strings_set //. tauto.
  - cbn. rw !jeqb_refl /=. apply bool_decide_eq_false. intros Hd.
    apply sort_strings_set in Hd as [x Hx]; [|apply NoDup_set_of|done]. apply Hx, elem_of_set_of.
Qed.

(** The percentage of a card is between 0 and 100, and 100 only if at most
    a half percent of the permissions is missing. *)
Theorem permPercent_bounds (n total : nat) :
  n ≤ total → (0 <= permPercent n total <= 100)%Z ∧
  (permPercent n total = 100%Z → 200 * (total - n) ≤ total).
Proof.
  intros Hle. unfold permPercent. destruct (Nat.ltb_spec 0 total) as [Ht|Ht]; [|split; [lia|done]].
  set (q := ((200 * Z.of_nat n + Z.of_nat total) / (2 * Z.of_nat total))%Z).
  assert (Hq : (2 * Z.of_nat total * q <= 200 * Z.of_nat n + Z.of_nat total < 2 * Z.of_nat total * q + 2 * Z.of_nat total)%Z).
  { unfold q. pose proof (Z.div_mod (200 * Z.of_nat n + Z.of_nat total) (2 * Z.of_nat total) ltac:(lia)).
    pose proof (Z.mod_pos_bound (200 * Z.of_nat n + Z.of_nat total) (2 * Z.of_nat total) ltac:(lia)). lia. }
  split; [split; nia|]. intros ->. nia.
Qed.

(** ** Instances *)

Definition perm (scope key : jstr) : PermissionInfo := {|
  PermissionInfo_id := key; PermissionInfo_scope := scope; PermissionInfo_key := key;
  PermissionInfo_label := key; PermissionInfo_description := [] |}.
Lemma create_role_scope_safe_witness :
  cr_selected (role_setScope "team" (cr_with "org" (toggleScope "org.teams.view" []) cr_init)) = [] ∧
  NoDup (cr_selected (cr_with "org" (toggleScope "org.teams.view" []) cr_init)).
Proof.
  split; [reflexivity|].
  apply (create_role_scope_safe [perm "org" "org.teams.view"] []). apply rtc_once.
  exact (rs_toggle [perm "org" "org.teams.view"] [] cr_init (perm "org" "org.teams.view") ltac:(by left)).
Defined.

Lemma role_slug_no_space_witness :
  is_space 95 = false ∧ role_slug "Team  Lead" (H0 := AsciiRuntime) = js "team_lead".
Proof.
  split; [|reflexivity]. apply (role_slug_no_space "Team  Lead" 95 (H := AsciiRuntime)).
  apply (bool_decide_unpack _). vm_compute. exact I.
Defined.

Definition a_role : RoleInfo := {|
  RoleInfo_id := "r"; RoleInfo_scope := "org"; RoleInfo_value := "auditor"; RoleInfo_label := "Auditor";
  RoleInfo_description := []; RoleInfo_rank := 2; RoleInfo_is_system := false; RoleInfo_permissions := [js "org.audit.view"] |}.
Lemma dirty_iff_changed_witness : dirty a_role (er_init a_role) = false.
Proof.
  apply (dirty_iff_changed a_role (er_init a_role)); apply NoDup_singleton.
Defined.

Lemma permPercent_bounds_witness : (0 <= permPercent 199 200 <= 100)%Z.
Proof. apply (permPercent_bounds 199 200). lia. Defined.
