(* ===== verification/Ttl.v ===== *)
(** * Inbox lifetimes: the helpers of [web/src/app/page.tsx]

    Durations are the strings of Go's [time.Duration] and what a user types.
    A limit is a number of minutes or [Infinity], here [None]. *)

From S2P Require Import Prelude Regex Types.
Local Open Scope Z_scope.

Definition unit_h : N := 104.
Definition unit_m : N := 109.

(** The number captured by [(\d+)u], if the pattern matches. *)
Definition unit_value (u : N) (d : jstr) : option Z :=
  x ← exec (unit_re u) d; c ← x_cap x 1; Some (Z.of_N (digits_value c)).

Definition durationToMinutes (d : option jstr) : option Z :=
  if negb (otruthy d) then None
  else
    let d := default [] d in
    let mins := from_option (λ h, h * 60) 0 (unit_value unit_h d) + default 0 (unit_value unit_m d) in
    if mins =? 0 then None else Some mins.

Definition formatTtlLabel (ttl : jstr) : jstr :=
  let hours := default 0 (unit_value unit_h ttl) in
  let mins := default 0 (unit_value unit_m ttl) in
  if (0 <? hours) && (0 <? mins) then show hours ++ "h" ++ show mins ++ "m"
  else if 0 <? hours then show hours ++ "h"
  else if 0 <? mins then show mins ++ "m"
  else ttl.

(** [/^(?:(\d+)h)?(?:(\d+)m)?$/]. *)
Definition ttl_pattern : re :=
  rseq [RBegin; ropt (RSeq (RGroup 1 (rplus rdigit)) (rchar unit_h));
        ropt (RSeq (RGroup 2 (rplus rdigit)) (rchar unit_m)); REnd].

Definition validateTtl (value : jstr) (maxMins : option Z) : option jstr :=
  if negb (truthy (trim value)) then Some (js "TTL is required")
  else
    match exec ttl_pattern (trim value) with
    | None => Some (js "Use format like 10m, 1h, or 2h30m")
    | Some m =>
        if negb (otruthy (x_cap m 1)) && negb (otruthy (x_cap m 2))
        then Some (js "Use format like 10m, 1h, or 2h30m")
        else
          let hours := if otruthy (x_cap m 1) then Z.of_N (digits_value (default [] (x_cap m 1))) else 0 in
          let mins := if otruthy (x_cap m 2) then Z.of_N (digits_value (default [] (x_cap m 2))) else 0 in
          let totalMins := hours * 60 + mins in
          if totalMins <? 1 then Some (js "Minimum is 1m")
          else if 1440 <? totalMins then Some (js "Maximum is 24h")
          else
            match maxMins with
            | Some mx =>
                if mx <? totalMins then
                  let maxH := mx / 60 in
                  let maxM := mx mod 60 in
                  let maxLabel :=
                    if 0 <? maxH
                    then if 0 <? maxM then show maxH ++ "h" ++ show maxM ++ "m" else show maxH ++ "h"
                    else show mx ++ "m" in
                  Some ("Exceeds domain limit of " ++ maxLabel)
                else None
            | None => None
            end
    end.

Record preset := Preset { preset_mins : Z; preset_value : jstr }.
#[export] Instance preset_eq_dec : EqDecision preset.
Proof. solve_decision. Defined.
Definition ALL_PRESETS : list preset :=
  [Preset 10 "10m"; Preset 30 "30m"; Preset 60 "1h"; Preset 360 "6h"; Preset 720 "12h"; Preset 1440 "24h"].

(** [p.mins <= maxMins]. *)
Definition within (n : Z) (maxMins : option Z) : bool :=
  match maxMins with Some mx => n <=? mx | None => true end.

Definition availablePresets (maxMins : option Z) : list preset :=
  List.filter (λ p, within (preset_mins p) maxMins) ALL_PRESETS.

(** [Math.abs(a - mins) < Math.abs(b - mins)]; against [Infinity] never. *)
Definition closer (a b : Z) (mins : option Z) : bool :=
  match mins with Some m => Z.abs (a - m) <? Z.abs (b - m) | None => false end.

Definition pick_closer (mins : option Z) (prev curr : preset) : preset :=
  if closer (preset_mins curr) (preset_mins prev) mins then curr else prev.

(** The preset selected when an assignment is chosen (the effect on
    [selected?.default_ttl] and [maxMins]). *)
Definition initialPreset (defaultTtl : option jstr) (maxMins : option Z) : jstr :=
  if negb (otruthy defaultTtl) then "1h"
  else
    let mins := durationToMinutes defaultTtl in
    let closest := fold_left (pick_closer mins) (availablePresets maxMins) (Preset 10 "10m") in
    jor (preset_value closest) "1h".

(** ** What a lifetime is

    [ttl_text hs ms] is the text with the hours [hs] and the minutes [ms],
    either of which may be missing. *)
Definition part (digits : option jstr) (u : N) : jstr :=
  match digits with Some d => d ++ [u] | None => [] end.
Definition ttl_text (hs ms : option jstr) : jstr := part hs unit_h ++ part ms unit_m.
Definition digits_ok (d : option jstr) : Prop :=
  match d with Some w => w ≠ [] ∧ Forall (λ c, is_digit c = true) w | None => True end.
Definition num (d : option jstr) : Z := from_option (λ w, Z.of_N (digits_value w)) 0 d.
Definition ttl_minutes (hs ms : option jstr) : Z := num hs * 60 + num ms.

Lemma take_while_run u w (t : jstr) :
  Forall (λ c, is_digit c = true) w → is_digit u = false →
  take_while is_digit (w ++ u :: t) = w ∧ drop_while is_digit (w ++ u :: t) = u :: t.
Proof. intros Hw Hu. induction Hw as [|c w Hc _ [IH1 IH2]]; simpl; [by rw Hu|]. by rw Hc IH1 IH2. Qed.

(** The decomposition of a text into hours and minutes is unique: it can be
    read off the text. *)
Definition read_minutes (s : jstr) : option jstr :=
  match drop_while is_digit s with [] => None | _ :: _ => Some (take_while is_digit s) end.
Definition read_ttl (s : jstr) : option jstr * option jstr :=
  match drop_while is_digit s with
  | [] => (None, None)
  | u :: r => if (u =? unit_h)%N then (Some (take_while is_digit s), read_minutes r)
              else (None, Some (take_while is_digit s))
  end.

Lemma read_ttl_text hs ms : digits_ok hs → digits_ok ms → read_ttl (ttl_text hs ms) = (hs, ms).
Proof.
  intros Hh Hm. unfold read_ttl, read_minutes, ttl_text.
  destruct hs as [h|], ms as [m|]; cbn [part digits_ok] in *; try done;
    rw ?app_nil_r ?app_nil_l -?app_assoc; cbn [app].
  - destruct (take_while_run unit_h h (m ++ [unit_m])) as [-> ->]; [naive_solver|done|].
    destruct (take_while_run unit_m m []) as [-> ->]; [naive_solver|done|]. done.
  - destruct (take_while_run unit_h h []) as [-> ->]; [naive_solver|done|]. done.
  - destruct (take_while_run unit_m m []) as [-> ->]; [naive_solver|done|]. done.
Qed.

Lemma ttl_text_inj hs ms hs' ms' :
  digits_ok hs → digits_ok ms → digits_ok hs' → digits_ok ms' →
  ttl_text hs ms = ttl_text hs' ms' → hs = hs' ∧ ms = ms'.
Proof.
  intros ???? E. assert (Hr : read_ttl (ttl_text hs ms) = read_ttl (ttl_text hs' ms')) by (by rw E).
  rw !read_ttl_text // in Hr. by simplify_eq.
Qed.

(** *** The pattern accepts exactly these texts *)

Lemma rmatch_digits_unit i u s e :
  rmatch (RSeq (RGroup i (rplus rdigit)) (rchar u)) s e →
  ∃ w, digits_ok (Some w) ∧ m_rest s = w ++ u :: m_rest e ∧ m_caps e = (i, w) :: m_caps s ∧
       m_prev e = Some u.
Proof.
  intros Hm. inversion Hm as [| |a b ? s1 ? H1 H2| | | | | | | |]; simplify_eq.
  inversion H1 as [| | | | | | |j a ? s2 H3| | |]; simplify_eq.
  inversion H2 as [|p c t s0 Ht Hp| | | | | | | | |]; simplify_eq. cbn in *. bool_to_prop; subst.
  inversion H3 as [| |a b ? s3 ? H4 H5| | | | | | | |]; simplify_eq.
  inversion H4 as [|q c' t' s4 Ht' Hp'| | | | | | | | |]; simplify_eq.
  pose proof (rmatch_plus_cls _ _ _ H5) as [HF HC]. pose proof (rmatch_consumed _ _ _ H5) as Hc. cbn in *.
  assert (Hw : consumed s s2 = c' :: consumed (Mst (Some c') t' (m_caps s)) s2).
  { apply consumed_spec. by rw Ht' {1}Hc. }
  exists (consumed s s2). rw Hw HC. split_and!; [done|by constructor| |done|done].
  rw Ht'. cbn. f_equal. by rw {1}Hc Ht.
Qed.

Lemma ttl_pattern_sound s e :
  rmatch ttl_pattern s e → m_caps s = [] →
  ∃ hs ms, digits_ok hs ∧ digits_ok ms ∧ m_rest s = ttl_text hs ms ∧ cap e 1 = hs ∧ cap e 2 = ms.
Proof.
  intros Hm Hs. inversion Hm as [| |a b ? s1 ? H1 H2| | | | | | | |]; simplify_eq.
  inversion H1; simplify_eq.
  inversion H2 as [| |a b ? s2 ? H3 H4| | | | | | | |]; simplify_eq.
  inversion H4 as [| |a b ? s3 ? H5 H6| | | | | | | |]; simplify_eq.
  inversion H6 as [| | | | | | | | |? He|]; simplify_eq. unfold cap, ttl_text.
  inversion H3 as [| | |a b ? ? H7|a b ? ? H7| | | | | |]; simplify_eq;
  inversion H5 as [| | |a b ? ? H8|a b ? ? H8| | | | | |]; simplify_eq.
  - apply rmatch_digits_unit in H7 as (h & Hh & Eh & Ch & _), H8 as (m & Hmm & Em & Cm & _).
    exists (Some h), (Some m). rw Cm Ch Eh Em He -app_assoc. done.
  - apply rmatch_digits_unit in H7 as (h & Hh & Eh & Ch & _). inversion H8; simplify_eq.
    exists (Some h), None. rw Ch Eh He Hs app_nil_r. done.
  - apply rmatch_digits_unit in H8 as (m & Hmm & Em & Cm & _). inversion H7; simplify_eq.
    exists None, (Some m). rw Cm Em He Hs. done.
  - inversion H7; inversion H8; simplify_eq. exists None, None. rw Hs He. done.
Qed.

Lemma digits_unit_match i u prev w t caps :
  digits_ok (Some w) →
  rmatch (RSeq (RGroup i (rplus rdigit)) (rchar u)) (Mst prev (w ++ u :: t) caps)
    (Mst (Some u) t ((i, w) :: caps)).
Proof.
  intros [Hne Hw]. destruct w as [|c w]; [done|]. apply Forall_cons in Hw as [Hc Hw].
  eapply M_seq.
  - eapply M_group. eapply M_seq; [by eapply M_cls|]. cbn. by apply rmatch_star_all.
  - cbn. unfold set_cap; cbn.
    assert (consumed (Mst prev (c :: w ++ u :: t) caps) (Mst (from_option Some (Some c) (last w)) (u :: t) caps)
      = c :: w) as -> by (by apply consumed_spec).
    eapply (M_cls _ u t (Mst _ _ _)); [done|]. by apply N.eqb_eq.
Qed.

Lemma ttl_pattern_complete hs ms :
  digits_ok hs → digits_ok ms → ∃ e, rmatch ttl_pattern (Mst None (ttl_text hs ms) []) e.
Proof.
  intros Hh Hm. unfold ttl_text, ttl_pattern.
  assert (H1 : ∃ p1 c1, rmatch (ropt (RSeq (RGroup 1 (rplus rdigit)) (rchar unit_h)))
    (Mst None (part hs unit_h ++ part ms unit_m) []) (Mst p1 (part ms unit_m) c1)).
  { destruct hs as [h|]; cbn [part].
    - do 2 eexists. apply M_alt_l. rw -app_assoc. by apply digits_unit_match.
    - do 2 eexists. apply M_alt_r. constructor. }
  destruct H1 as (p1 & c1 & H1).
  assert (H2 : ∃ p2 c2, rmatch (ropt (RSeq (RGroup 2 (rplus rdigit)) (rchar unit_m)))
    (Mst p1 (part ms unit_m) c1) (Mst p2 [] c2)).
  { destruct ms as [m|]; cbn [part].
    - do 2 eexists. apply M_alt_l. by apply digits_unit_match.
    - do 2 eexists. apply M_alt_r. constructor. }
  destruct H2 as (p2 & c2 & H2). eexists. repeat (eapply M_seq); eauto; by constructor.
Qed.

(** The whole-string match and its groups. *)
Lemma exec_ttl_pattern s :
  match exec ttl_pattern s with
  | Some m => ∃ hs ms, digits_ok hs ∧ digits_ok ms ∧ s = ttl_text hs ms ∧ x_cap m 1 = hs ∧ x_cap m 2 = ms
  | None => ∀ hs ms, digits_ok hs → digits_ok ms → s ≠ ttl_text hs ms
  end.
Proof.
  destruct (exec ttl_pattern s) as [x|] eqn:E; unfold exec in E.
  - apply exec_from_sound in E as (u & -> & _ & Hp & Hc & Hm). cbn in Hp.
    assert (u = []) as ->.
    { inversion Hm as [| |a b ? s1 ? H1 H2| | | | | | | |]; simplify_eq.
      inversion H1 as [| | | | | | | |? Hb| |]; simplify_eq. rw Hp in Hb.
      destruct u as [|c u]; [done|]. destruct (last (c :: u)) eqn:El; [done|]. by apply last_None in El. }
    by apply (ttl_pattern_sound _ _ Hm Hc).
  - intros hs ms Hh Hm ->. destruct (ttl_pattern_complete hs ms Hh Hm) as [e He].
    destruct (exec_from_complete ttl_pattern 0 None (ttl_text hs ms) [] (ttl_text hs ms) e) as [y Hy];
      [done|done|congruence].
Qed.

(** *** Reading a unit out of a text *)

Lemma unit_value_find u d :
  is_digit u = false → unit_value u d = (λ w, Z.of_N (digits_value w)) <$> find_unit u d.
Proof.
  intros Hu. unfold unit_value. pose proof (exec_unit_re u d Hu) as H.
  destruct (exec (unit_re u) d) as [x|], (find_unit u d) as [w|]; cbn in H |- *; simplify_eq; [|done].
  by rw H.
Qed.

Lemma find_unit_skip u w v t :
  Forall (λ c, is_digit c = true) w → is_digit v = false → v ≠ u →
  find_unit u (w ++ v :: t) = find_unit u t.
Proof.
  intros Hw Hv Hne. induction Hw as [|c w Hc Hw IH]; cbn [app find_unit].
  - by rw Hv.
  - destruct (take_while_run v w t Hw Hv) as [_ ->]. rw Hc bool_decide_eq_false_2 //=. congruence.
Qed.

Lemma find_unit_hit u w t :
  digits_ok (Some w) → is_digit u = false → find_unit u (w ++ u :: t) = Some w.
Proof.
  intros [Hne Hw] Hu. destruct w as [|c w]; [done|]. apply Forall_cons in Hw as [Hc Hw].
  cbn [app find_unit]. destruct (take_while_run u w t Hw Hu) as [-> ->]. by rw Hc bool_decide_eq_true_2.
Qed.

Lemma unit_value_hours hs ms t :
  digits_ok hs → digits_ok ms → find_unit unit_h t = None →
  default 0 (unit_value unit_h (ttl_text hs ms ++ t)) = num hs.
Proof.
  intros Hh Hm Ht. rw unit_value_find // /ttl_text -app_assoc.
  destruct hs as [h|]; cbn [part]; [by rw -app_assoc find_unit_hit|].
  destruct ms as [m|]; cbn [part app]; [|by rw Ht].
  rw -app_assoc find_unit_skip // ?Ht //. by destruct Hm.
Qed.

Lemma unit_value_minutes hs ms t :
  digits_ok hs → digits_ok ms → find_unit unit_m t = None →
  default 0 (unit_value unit_m (ttl_text hs ms ++ t)) = num ms.
Proof.
  intros Hh Hm Ht. rw unit_value_find // /ttl_text -app_assoc.
  assert (H2 : find_unit unit_m (part ms unit_m ++ t) = ms).
  { destruct ms as [m|]; cbn [part app]; [by rw -app_assoc find_unit_hit|done]. }
  destruct hs as [h|]; cbn [part]; [|by rw H2; destruct ms].
  rw -app_assoc find_unit_skip //; [by rw H2; destruct ms|by destruct Hh].
Qed.

Lemma ttl_text_nonempty hs ms : 0 < ttl_minutes hs ms → ttl_text hs ms ≠ [].
Proof.
  intros Hpos [E1 E2]%app_eq_nil. destruct hs as [h|]; [by destruct h|].
  destruct ms as [m|]; [by destruct m|]. by unfold ttl_minutes in Hpos.
Qed.
Lemma num_falsy d : otruthy d = false → num d = 0.
Proof. by destruct d as [[|c w]|]. Qed.

Lemma durationToMinutes_text hs ms t :
  digits_ok hs → digits_ok ms → find_unit unit_h t = None → find_unit unit_m t = None →
  0 < ttl_minutes hs ms →
  durationToMinutes (Some (ttl_text hs ms ++ t)) = Some (ttl_minutes hs ms).
Proof.
  intros Hh Hm Hth Htm Hpos. unfold durationToMinutes.
  assert (Hne : truthy (ttl_text hs ms ++ t) = true).
  { apply truthy_nonempty. intros [E _]%app_eq_nil. by apply ttl_text_nonempty in Hpos. }
  cbn [otruthy]. rw Hne. cbn [negb]. change (default [] (Some (ttl_text hs ms ++ t))) with (ttl_text hs ms ++ t).
  cbv zeta.
  pose proof (unit_value_hours hs ms t Hh Hm Hth) as H1.
  pose proof (unit_value_minutes hs ms t Hh Hm Htm) as H2. rw H2.
  assert (from_option (λ h, h * 60) 0 (unit_value unit_h (ttl_text hs ms ++ t)) = num hs * 60) as ->.
  { rw -H1. by destruct (unit_value unit_h _). }
  fold (ttl_minutes hs ms). destruct (Z.eqb_spec (ttl_minutes hs ms) 0); [lia|done].
Qed.

(** ** Theorems *)

Lemma num_truthy d : digits_ok d → (if otruthy d then Z.of_N (digits_value (default [] d)) else 0) = num d.
Proof. by destruct d as [[|c w]|]. Qed.

(** When a lifetime is accepted. *)
Lemma validateTtl_iff (value : jstr) (maxMins : option Z) :
  validateTtl value maxMins = None ↔
  ∃ hs ms, digits_ok hs ∧ digits_ok ms ∧ trim value = ttl_text hs ms ∧
    1 <= ttl_minutes hs ms <= 1440 ∧ within (ttl_minutes hs ms) maxMins = true.
Proof.
  unfold validateTtl, within. pose proof (exec_ttl_pattern (trim value)) as Hx. split.
  - destruct (truthy (trim value)); [|done]. cbn [negb].
    destruct (exec ttl_pattern (trim value)) as [m|]; [|done].
    destruct Hx as (hs & ms & Hh & Hm & E & -> & ->). rw !num_truthy //.
    case_match; [done|]. fold (ttl_minutes hs ms). cbv zeta. intros Hv. exists hs, ms.
    repeat case_match; bool_to_prop; try done; split_and!; try done; lia.
  - intros (hs & ms & Hh & Hm & E & Hr & Hw).
    assert (truthy (trim value) = true) as ->.
    { rw E. apply truthy_nonempty. by apply ttl_text_nonempty; lia. }
    cbn [negb]. destruct (exec ttl_pattern (trim value)) as [m|]; [|by destruct (Hx hs ms Hh Hm)].
    destruct Hx as (hs' & ms' & Hh' & Hm' & E' & -> & ->).
    destruct (ttl_text_inj hs ms hs' ms') as [<- <-]; [done..|congruence|].
    rw !num_truthy //. fold (ttl_minutes hs ms). cbv zeta.
    destruct (negb (otruthy hs) && negb (otruthy ms)) eqn:Eb.
    { bool_to_prop. unfold ttl_minutes in Hr. rw !num_falsy // in Hr. lia. }
    rw (proj2 (Z.ltb_ge _ _)); [|lia]. rw (proj2 (Z.ltb_ge _ _)); [|lia].
    destruct maxMins as [mx|]; [|done]. bool_to_prop. by rw (proj2 (Z.ltb_ge _ _)).
Qed.

(** A lifetime is accepted exactly when, trimmed, it is hours and minutes
    in digits, at least one of them given, between one minute and 24 hours
    and within the domain's limit. *)
Theorem validateTtl_accepts (value : jstr) (maxMins : option Z) :
  validateTtl value maxMins = None ↔
  ∃ hs ms, digits_ok hs ∧ digits_ok ms ∧ trim value = ttl_text hs ms ∧
    1 <= ttl_minutes hs ms <= 1440 ∧ within (ttl_minutes hs ms) maxMins = true.
Proof. apply validateTtl_iff. Qed.

(** The reader used for limits and the validator agree on what an accepted
    lifetime amounts to. *)
Theorem validateTtl_minutes (value : jstr) (maxMins : option Z) :
  validateTtl value maxMins = None →
  ∃ n, durationToMinutes (Some (trim value)) = Some n ∧ 1 <= n <= 1440 ∧ within n maxMins = true.
Proof.
  intros (hs & ms & Hh & Hm & -> & Hr & Hw)%validateTtl_iff.
  exists (ttl_minutes hs ms). split_and!; try done; try lia.
  rw -(app_nil_r (ttl_text hs ms)). apply durationToMinutes_text; try done. lia.
Qed.

(** Go's rendering of a whole number of minutes, [time.Duration.String]. *)
Definition go_duration (n : Z) : jstr :=
  ttl_text (if 60 <=? n then Some (dec (Z.to_N (n / 60))) else None) (Some (dec (Z.to_N (n mod 60)))) ++ "0s".

Lemma dec_ok n : digits_ok (Some (dec n)).
Proof. split; [apply dec_nonempty|apply dec_digits]. Qed.
Lemma num_dec n : 0 <= n → num (Some (dec (Z.to_N n))) = n.
Proof. intros Hn. cbn. rw digits_value_dec. lia. Qed.

Lemma go_duration_minutes n :
  0 < n → ttl_minutes (if 60 <=? n then Some (dec (Z.to_N (n / 60))) else None)
                      (Some (dec (Z.to_N (n mod 60)))) = n.
Proof.
  intros Hn. unfold ttl_minutes. pose proof (Z.mod_pos_bound n 60 ltac:(lia)).
  pose proof (Z.div_mod n 60 ltac:(lia)).
  rw num_dec; [|lia]. destruct (Z.leb_spec 60 n).
  - rw num_dec; [lia|]. apply Z.div_pos; lia.
  - cbn. rw Z.mod_small; lia.
Qed.

(** A limit the server sends as a Go duration of whole minutes is read back
    exactly, whatever its size. *)
Theorem durationToMinutes_go (n : Z) :
  0 < n → durationToMinutes (Some (go_duration n)) = Some n.
Proof.
  intros Hn. unfold go_duration.
  rw durationToMinutes_text; rw ?go_duration_minutes //; [|apply dec_ok].
  by case_match; [apply dec_ok|].
Qed.

Lemma show_nonneg n : 0 <= n → show n = dec (Z.to_N n).
Proof. intros Hn. unfold show. by rw (proj2 (Z.ltb_ge n 0) Hn). Qed.

Definition short_hours (n : Z) : option jstr := if 0 <? n / 60 then Some (dec (Z.to_N (n / 60))) else None.
Definition short_minutes (n : Z) : option jstr :=
  if 0 <? n mod 60 then Some (dec (Z.to_N (n mod 60))) else None.

Lemma short_ok n : digits_ok (short_hours n) ∧ digits_ok (short_minutes n).
Proof. unfold short_hours, short_minutes. split; case_match; try done; apply dec_ok. Qed.

Lemma short_total n : 0 < n → ttl_minutes (short_hours n) (short_minutes n) = n.
Proof.
  intros Hn. unfold ttl_minutes, short_hours, short_minutes.
  pose proof (Z.mod_pos_bound n 60 ltac:(lia)). pose proof (Z.div_mod n 60 ltac:(lia)).
  pose proof (Z.div_pos n 60 ltac:(lia) ltac:(lia)).
  destruct (Z.ltb_spec 0 (n / 60)), (Z.ltb_spec 0 (n mod 60)); rw ?num_dec; cbn; lia.
Qed.

(** The label drops the seconds and the parts that are zero. *)
Lemma formatTtlLabel_go n :
  0 < n → formatTtlLabel (go_duration n) = ttl_text (short_hours n) (short_minutes n).
Proof.
  intros Hn. unfold formatTtlLabel, go_duration.
  set (hs := if 60 <=? n then _ else _). set (ms := Some (dec (Z.to_N (n mod 60)))).
  assert (Hh : digits_ok hs) by (unfold hs; case_match; [apply dec_ok|done]).
  rw (unit_value_hours hs ms (js "0s")) // ?(unit_value_minutes hs ms (js "0s")) //; [|apply dec_ok..].
  pose proof (Z.mod_pos_bound n 60 ltac:(lia)). pose proof (Z.div_mod n 60 ltac:(lia)).
  assert (num ms = n mod 60) as -> by (unfold ms; rw num_dec //; lia).
  assert (num hs = n / 60) as ->.
  { unfold hs. destruct (Z.leb_spec 60 n); [rw num_dec //; apply Z.div_pos; lia|].
    cbn. rw Z.div_small //. lia. }
  pose proof (Z.div_pos n 60 ltac:(lia) ltac:(lia)).
  unfold ttl_text, short_hours, short_minutes.
  rw (show_nonneg (n / 60)) // (show_nonneg (n mod 60)); [|lia].
  destruct (Z.ltb_spec 0 (n / 60)), (Z.ltb_spec 0 (n mod 60)); cbn [andb part]; try lia;
    rw -?app_assoc ?app_nil_r //.
Qed.

Lemma digit_not_space c : is_digit c = true → is_space c = false.
Proof.
  unfold is_digit, in_range. intros H. bool_to_prop. unfold is_space, in_range.
  rw !orb_false_iff !andb_false_iff !N.leb_gt bool_decide_eq_false.
  split_and!; [lia..|]. rw !not_elem_of_cons. split_and!; try lia. set_solver.
Qed.

Lemma trim_ttl_text hs ms : digits_ok hs → digits_ok ms → trim (ttl_text hs ms) = ttl_text hs ms.
Proof.
  intros Hh Hm.
  assert (Hall : Forall (λ c, is_space c = false) (ttl_text hs ms)).
  { unfold ttl_text. apply Forall_app_2; [destruct hs as [w|]|destruct ms as [w|]]; cbn [part]; try done;
      apply Forall_app_2; try (by constructor); eapply Forall_impl; [apply Hh|..|apply Hm|];
      apply digit_not_space. }
  apply trim_id; intros c t E; rw E in Hall; [by inversion Hall|].
  apply Forall_app in Hall as [_ Hall]. by inversion Hall.
Qed.

(** Printing and reading lifetimes are inverse: the label shown for a
    server duration of one minute to a day is a lifetime the form accepts,
    and it stands for the same number of minutes. *)
Theorem ttl_label_roundtrip (n : Z) :
  1 <= n <= 1440 →
  validateTtl (formatTtlLabel (go_duration n)) None = None ∧
  durationToMinutes (Some (formatTtlLabel (go_duration n))) = Some n.
Proof.
  intros Hn. rw formatTtlLabel_go; [|lia]. destruct (short_ok n) as [Hh Hm].
  pose proof (short_total n ltac:(lia)) as Ht. split.
  - apply validateTtl_iff. exists (short_hours n), (short_minutes n).
    rw trim_ttl_text // Ht. done.
  - rw -(app_nil_r (ttl_text _ _)) durationToMinutes_text ?Ht //. lia.
Qed.

(** Every preset is a lifetime the form would accept, and its number of
    minutes is the one the reader computes from its value. *)
Theorem presets_consistent (p : preset) :
  p ∈ ALL_PRESETS →
  validateTtl (preset_value p) None = None ∧ durationToMinutes (Some (preset_value p)) = Some (preset_mins p).
Proof.
  revert p. apply Forall_forall. unfold ALL_PRESETS. repeat constructor.
Qed.

(** The preset chosen for a default is no farther from it than any preset
    the domain allows. *)
Lemma closest_spec m (l : list preset) b :
  let r := fold_left (pick_closer (Some m)) l b in
  r ∈ b :: l ∧ Forall (λ p, Z.abs (preset_mins r - m) <= Z.abs (preset_mins p - m)) (b :: l).
Proof.
  revert b; induction l as [|x l IH]; intros b; cbn [fold_left].
  - split; [set_solver|]. constructor; [lia|constructor].
  - unfold pick_closer at 2 4, closer. destruct (Z.ltb_spec (Z.abs (preset_mins x - m)) (Z.abs (preset_mins b - m))).
    + destruct (IH x) as [Hin HF]. split; [set_solver|].
      inversion HF; subst. constructor; [lia|done].
    + destruct (IH b) as [Hin HF]. split; [set_solver|].
      inversion HF; subst. constructor; [done|]. constructor; [lia|done].
Qed.

(** The preselected lifetime is one of the presets, and when the domain
    allows ten minutes and has a default, it is within the domain's limit and
    none the domain allows is closer to the default. *)
Theorem initialPreset_closest (defaultTtl : jstr) (maxMins : option Z) (m : Z) :
  durationToMinutes (Some defaultTtl) = Some m → within 10 maxMins = true →
  ∃ p, p ∈ availablePresets maxMins ∧ initialPreset (Some defaultTtl) maxMins = preset_value p ∧
    Forall (λ q, Z.abs (preset_mins p - m) <= Z.abs (preset_mins q - m)) (availablePresets maxMins).
Proof.
  intros Hd H10. unfold initialPreset.
  assert (Ht : otruthy (Some defaultTtl) = true).
  { unfold durationToMinutes in Hd. by destruct (otruthy (Some defaultTtl)). }
  rw Ht. cbn [negb]. rw Hd. cbv zeta.
  destruct (closest_spec m (availablePresets maxMins) (Preset 10 "10m")) as [Hin HF].
  set (p := fold_left _ _ _) in *.
  assert (H0 : Preset 10 "10m" ∈ availablePresets maxMins).
  { unfold availablePresets. apply elem_of_List_filter. split; [left|done]. }
  exists p. assert (Hp : p ∈ availablePresets maxMins).
  { apply elem_of_cons in Hin as [E|]; [by rw E|done]. }
  split_and!; [done| |by inversion HF].
  assert (truthy (preset_value p) = true) as Htr.
  { apply elem_of_List_filter in Hp as [Hp _]. revert Hp. generalize p. apply Forall_forall.
    unfold ALL_PRESETS. repeat constructor. }
  unfold jor. by rw Htr.
Qed.

(** The preselected lifetime can exceed the domain's limit: with a limit of
    thirty minutes and no default it is one hour, which the validator itself
    rejects. *)
Theorem initialPreset_exceeds_limit :
  initialPreset None (Some 30) = js "1h" ∧
  validateTtl (initialPreset None (Some 30)) (Some 30) = Some (js "Exceeds domain limit of 30m").
Proof. vm_compute. done. Qed.

Lemma validateTtl_minutes_witness :
  ∃ n, durationToMinutes (Some (trim " 2h30m ")) = Some n ∧ 1 <= n <= 1440 ∧ within n (Some 180) = true.
Proof. apply (validateTtl_minutes " 2h30m " (Some 180)). vm_compute. reflexivity. Defined.
Lemma durationToMinutes_go_witness : durationToMinutes (Some (go_duration 4325)) = Some 4325.
Proof. apply durationToMinutes_go. reflexivity. Defined.
Lemma ttl_label_roundtrip_witness :
  durationToMinutes (Some (formatTtlLabel (go_duration 150))) = Some 150.
Proof. apply ttl_label_roundtrip. split; discriminate. Defined.
Lemma presets_consistent_witness : durationToMinutes (Some (js "6h")) = Some 360.
Proof. apply (presets_consistent (Preset 360 "6h")). apply (bool_decide_unpack _). vm_compute. exact I. Defined.
Lemma initialPreset_closest_witness :
  ∃ p, p ∈ availablePresets (Some 120) ∧ initialPreset (Some (js "45m0s")) (Some 120) = preset_value p ∧
    Forall (λ q, Z.abs (preset_mins p - 45) <= Z.abs (preset_mins q - 45)) (availablePresets (Some 120)).
Proof. apply initialPreset_closest; vm_compute; reflexivity. Defined.
