(* ===== verification/Home.v ===== *)
(** * The home page: [web/src/app/page.tsx]

    [RootPage], the inbox list of [HomePage] with its polling, selection and
    bulk actions, the [QuickCreateCard] form, and the derived values of an
    inbox card.  Translated texts ([useTranslations]) come from the function
    [t]. *)

From Stdlib Require Import QArith_base.
From S2P Require Import Prelude Regex Browser Types ApiClient React Ttl.
Local Close Scope Q_scope.

(** ** RootPage *)
Inductive root_view := RootNothing | RootHome | RootLanding.
Definition RootPage (loading : bool) (user : option json) : root_view :=
  if loading then RootNothing else if user then RootHome else RootLanding.

Section home.
Context `{!AppEnv, !JSRuntime} (t : jstr → jstr).

Definition greeting (hour : Z) : jstr :=
  if (hour <? 12)%Z then t "goodMorning"
  else if (hour <? 18)%Z then t "goodAfternoon" else t "goodEvening".

(** *** State *)
Record HomeState := {
  page : Z;
  searchInput : jstr;
  search : jstr;
  selectedIds : list jstr
}.
Definition home_init : HomeState := {| page := 1; searchInput := []; search := []; selectedIds := [] |}.

Definition set_page (p : Z) (s : HomeState) : HomeState :=
  {| page := p; searchInput := searchInput s; search := search s; selectedIds := selectedIds s |}.
Definition set_searchInput (v : jstr) (s : HomeState) : HomeState :=
  {| page := page s; searchInput := v; search := search s; selectedIds := selectedIds s |}.
Definition set_selected (ids : list jstr) (s : HomeState) : HomeState :=
  {| page := page s; searchInput := searchInput s; search := search s; selectedIds := ids |}.

(** The timer of the search box, 300 ms after the last keystroke. *)
Definition apply_search (s : HomeState) : HomeState :=
  {| page := 1; searchInput := searchInput s; search := trim (searchInput s); selectedIds := selectedIds s |}.

Definition inboxParams (s : HomeState) : list (jstr * jstr) :=
  [(js "page", show (page s)); (js "per_page", js "12"); (js "status", js "active")] ++
  (if truthy (search s) then [(js "search", search s)] else []).

Definition load_inboxes (s : HomeState) : M HomeState (option json) :=
  api_get "/inboxes" (Some (inboxParams s)).

(** *** Polling *)

(** [Math.min(...)] of time differences, [None] being [NaN]. *)
Definition min_nan (l : list (option Z)) : option Z :=
  match l with
  | [] => None
  | x :: l' => fold_left (λ acc y, match acc, y with Some a, Some b => Some (Z.min a b) | _, _ => None end) l' x
  end.

(** Milliseconds to the next refetch; [None] is [false], no polling. *)
Definition refetchInterval (inboxes : option (list Inbox)) (now : Z) : option Z :=
  match inboxes with
  | None | Some [] => None
  | Some l =>
      match min_nan ((λ ib, (λ x, x - now)%Z <$> date_ms (Inbox_expires_at ib)) <$> l) with
      | Some soonestMs =>
          if (soonestMs <=? 0)%Z then Some 5000%Z
          else if (soonestMs <=? 2 * 60000)%Z then Some 15000%Z
          else if (soonestMs <=? 10 * 60000)%Z then Some 30000%Z
          else Some 60000%Z
      | None => Some 60000%Z
      end
  end.

(** *** Actions on one inbox *)
Definition extend : mutation HomeState jstr := {|
  mutationFn id := api_post ("/inboxes/" ++ id ++ "/extend") (Some (JObj []));
  onSuccess _ := emit (EInvalidate "home-inboxes");; emit (EToastSuccess (t "extendedBy1h"));
  onError err :=
    if is_api_status err 404
    then emit (EInvalidate "home-inboxes");; emit (EToastError (t "inboxExpired"))
    else emit (EToastError (err_message err))
|}.

Definition remove : mutation HomeState jstr := {|
  mutationFn id := api_del ("/inboxes/" ++ id) None;
  onSuccess _ :=
    emit (EInvalidate "home-inboxes");; emit (EInvalidate "notifications");;
    emit (EToastSuccess (t "inboxDeleted"));
  onError err :=
    if is_api_status err 404
    then emit (EInvalidate "home-inboxes");; emit (EToastSuccess (t "inboxDeleted"))
    else emit (EToastError (err_message err))
|}.

(** *** Bulk actions *)
Definition bulkDelete (closure : HomeState) : M HomeState unit :=
  if (length (selectedIds closure) =? 0)%nat then mret tt
  else
    let ids := selectedIds closure in
    try_catch
      (allSettled ((λ id, api_del ("/inboxes/" ++ id) None) <$> ids);;
       emit (EInvalidate "home-inboxes");;
       emit (EToastSuccess (show_nat (length ids) ++ " inbox" ++ plural (length ids) [] "es" ++ " deleted"));;
       modify (set_selected []))
      (λ err, emit (EToastError (err_message err))).

Definition bulkRenew (closure : HomeState) : M HomeState unit :=
  if (length (selectedIds closure) =? 0)%nat then mret tt
  else
    let ids := selectedIds closure in
    try_catch
      (results ← allSettled ((λ id, api_post ("/inboxes/" ++ id ++ "/extend") (Some (JObj []))) <$> ids);
       let failed := List.filter rejected results in
       let expired := List.filter (rejected_with 404) failed in
       emit (EInvalidate "home-inboxes");;
       (if (0 <? length expired)%nat && (length expired =? length failed)%nat
        then emit (EToastError (show_nat (length expired) ++ " inbox" ++ plural (length expired) [] "es"
                                ++ " already expired"))
        else if (0 <? length failed)%nat
        then emit (EToastError (show_nat (length failed) ++ " inbox" ++ plural (length failed) [] "es"
                                ++ " failed to renew"))
        else emit (EToastSuccess (show_nat (length ids) ++ " inbox" ++ plural (length ids) [] "es" ++ " renewed")));;
       modify (set_selected []))
      (λ err, emit (EToastError (err_message err))).

Definition toggleSelect (id : jstr) (s : HomeState) : HomeState := set_selected (set_toggle (selectedIds s) id) s.

(** *** What the list shows *)
Record query := { q_data : option (PaginatedResponse Inbox); q_isLoading : bool; q_isError : bool }.

Definition shown_inboxes (q : query) : list Inbox :=
  from_option PaginatedResponse_data [] (q_data q).
Definition hasInboxes (q : query) : bool := (0 <? length (shown_inboxes q))%nat.
Definition showInboxSection (q : query) (s : HomeState) : bool :=
  q_isLoading q || q_isError q || negb (search s =?s []) || hasInboxes q.

Inductive home_list :=
| HError (message : jstr)
| HSkeleton
| HEmpty (message : jstr)
| HRows (l : list (Inbox * bool)) (bulkBar : option nat) (pagination : option (Z * Z))
| HCards (l : list (Inbox * bool)) (bulkBar : option nat) (pagination : option (Z * Z)).

Definition home_section (q : query) (s : HomeState) : option home_list :=
  if negb (showInboxSection q s) then None
  else Some (
    if q_isError q then HError "Failed to load inboxes"
    else if q_isLoading q then HSkeleton
    else if (length (shown_inboxes q) =? 0)%nat then
      HEmpty (if truthy (search s) then "No inboxes match " ++ dq ++ search s ++ dq ++ "." else "No inboxes yet.")
    else
      let bulkBar := if (0 <? length (selectedIds s))%nat then Some (length (selectedIds s)) else None in
      let items := (λ ib, (ib, set_has (selectedIds s) (Inbox_id ib))) <$> shown_inboxes q in
      let pagination := match q_data q with
        | Some d => if (1 <? PaginatedResponse_total_pages d)%Z
                    then Some (page s, PaginatedResponse_total_pages d) else None
        | None => None end in
      if (7 <=? length (shown_inboxes q))%nat then HRows items bulkBar pagination
      else HCards items bulkBar pagination).

(** ** Quick create *)

Record QuickCreate := {
  assignmentId : jstr;
  alias : jstr;
  ttlPreset : jstr;
  customTtl : jstr;
  ttlError : option jstr;
  showAdvanced : bool;
  creating : bool;
  createdInbox : option json;
  copied : bool
}.
Definition quick_init : QuickCreate := {|
  assignmentId := []; alias := []; ttlPreset := []; customTtl := []; ttlError := None;
  showAdvanced := false; creating := false; createdInbox := None; copied := false |}.

Definition set_ttlError (e : option jstr) (q : QuickCreate) : QuickCreate := {|
  assignmentId := assignmentId q; alias := alias q; ttlPreset := ttlPreset q; customTtl := customTtl q;
  ttlError := e; showAdvanced := showAdvanced q; creating := creating q;
  createdInbox := createdInbox q; copied := copied q |}.
Definition set_creating (b : bool) (q : QuickCreate) : QuickCreate := {|
  assignmentId := assignmentId q; alias := alias q; ttlPreset := ttlPreset q; customTtl := customTtl q;
  ttlError := ttlError q; showAdvanced := showAdvanced q; creating := b;
  createdInbox := createdInbox q; copied := copied q |}.
Definition set_createdInbox (j : option json) (q : QuickCreate) : QuickCreate := {|
  assignmentId := assignmentId q; alias := alias q; ttlPreset := ttlPreset q; customTtl := customTtl q;
  ttlError := ttlError q; showAdvanced := showAdvanced q; creating := creating q;
  createdInbox := j; copied := copied q |}.
Definition set_copied (b : bool) (q : QuickCreate) : QuickCreate := {|
  assignmentId := assignmentId q; alias := alias q; ttlPreset := ttlPreset q; customTtl := customTtl q;
  ttlError := ttlError q; showAdvanced := showAdvanced q; creating := creating q;
  createdInbox := createdInbox q; copied := b |}.
Definition set_assignment (id : jstr) (q : QuickCreate) : QuickCreate := {|
  assignmentId := id; alias := alias q; ttlPreset := ttlPreset q; customTtl := customTtl q;
  ttlError := ttlError q; showAdvanced := showAdvanced q; creating := creating q;
  createdInbox := createdInbox q; copied := copied q |}.
Definition set_ttlPreset (v : jstr) (q : QuickCreate) : QuickCreate := {|
  assignmentId := assignmentId q; alias := alias q; ttlPreset := v; customTtl := customTtl q;
  ttlError := ttlError q; showAdvanced := showAdvanced q; creating := creating q;
  createdInbox := createdInbox q; copied := copied q |}.

(** The effect that selects the first assignment once they are loaded. *)
Definition select_first (assignments : option (list DomainAssignment)) (q : QuickCreate) : QuickCreate :=
  match assignments with
  | Some (a :: _) => if negb (truthy (assignmentId q)) then set_assignment (DomainAssignment_id a) q else q
  | _ => q
  end.

Definition selected_assignment (assignments : option (list DomainAssignment)) (q : QuickCreate)
    : option DomainAssignment :=
  l ← assignments; List.find (λ a, DomainAssignment_id a =?s assignmentId q) l.

Definition quick_maxMins (assignments : option (list DomainAssignment)) (q : QuickCreate) : option Z :=
  durationToMinutes (selected_assignment assignments q ≫= DomainAssignment_max_ttl).

(** The effect that preselects a lifetime when the assignment changes. *)
Definition preselect (assignments : option (list DomainAssignment)) (q : QuickCreate) : QuickCreate :=
  set_ttlPreset (initialPreset (selected_assignment assignments q ≫= DomainAssignment_default_ttl)
                               (quick_maxMins assignments q)) q.

Definition ttl (q : QuickCreate) : jstr := if ttlPreset q =?s "custom" then customTtl q else ttlPreset q.

Definition handleCustomTtlChange (value : jstr) (maxMins : option Z) (q : QuickCreate) : QuickCreate := {|
  assignmentId := assignmentId q; alias := alias q; ttlPreset := ttlPreset q; customTtl := value;
  ttlError := if truthy (trim value) then validateTtl value maxMins else None;
  showAdvanced := showAdvanced q; creating := creating q;
  createdInbox := createdInbox q; copied := copied q |}.

Definition isCustomInvalid (q : QuickCreate) : bool :=
  (ttlPreset q =?s "custom") && (otruthy (ttlError q) || negb (truthy (trim (customTtl q)))).

Definition create_body (q : QuickCreate) : json :=
  jobj [(js "domain_assignment_id", Some (JStr (assignmentId q)));
        (js "alias", if truthy (alias q) then Some (JStr (alias q)) else None);
        (js "ttl", Some (JStr (ttl q)))].

Definition create (closure : QuickCreate) (maxMins : option Z) : M QuickCreate unit :=
  if negb (truthy (assignmentId closure)) || negb (truthy (ttl closure)) then mret tt
  else
    let error := if ttlPreset closure =?s "custom" then validateTtl (customTtl closure) maxMins else None in
    if otruthy error then modify (set_ttlError error)
    else
      modify (set_creating true);;
      try_finally
        (try_catch
          (res ← api_post "/inboxes" (Some (create_body closure));
           modify (set_createdInbox res);;
           emit (EInvalidate "home-inboxes");;
           emit (EInvalidate "inboxes"))
          (λ err,
            let msg := err_message err in
            if includes (toLowerCase msg) "ttl" then modify (set_ttlError (Some msg))
            else emit (EToastError msg)))
        (modify (set_creating false)).

(** The keyboard shortcut [n]. *)
Definition quick_keydown (e : key_event) (closure : QuickCreate) (maxMins : option Z) : M QuickCreate unit :=
  if typing_tag (targetTag e) then mret tt
  else when ((key e =?s "n") && negb (ctrlKey e) && negb (metaKey e) && negb (altKey e)
             && (truthy (assignmentId closure) && negb (creating closure) && negb (isCustomInvalid closure)
                 && match createdInbox closure with None => true | Some _ => false end))
         (create closure maxMins).

(** [full_address || address] of the created inbox. *)
Definition created_address (j : json) : jstr :=
  jor (default [] (as_string (jfield j "full_address"))) (default [] (as_string (jfield j "address"))).

Definition copyAddress (closure : QuickCreate) : M QuickCreate unit :=
  match createdInbox closure with
  | None => mret tt
  | Some j =>
      emit (EClipboard (created_address j));;
      modify (set_copied true);;
      emit (EToastSuccess "Copied!");;
      emit (ETimeout 2000) (* setCopied(false) *)
  end.

Definition reset (q : QuickCreate) : QuickCreate := {|
  assignmentId := assignmentId q; alias := []; ttlPreset := ttlPreset q; customTtl := customTtl q;
  ttlError := ttlError q; showAdvanced := false; creating := creating q;
  createdInbox := None; copied := false |}.

(** ** An inbox in the list *)

Definition randomLocal (bytes : list N) : jstr :=
  let chars : jstr := js "abcdefghijklmnopqrstuvwxyz0123456789" in
  (λ b, nth (N.to_nat (b mod 36)) chars 0%N) <$> bytes.

Definition inbox_address (ib : Inbox) : jstr := jor (Inbox_full_address ib) (Inbox_address ib).
Definition hasUnread (ib : Inbox) : bool := (0 <? Inbox_unread_count ib)%Z.
Definition isEmpty (ib : Inbox) : bool := (Inbox_email_count ib =? 0)%Z.

(** [x < y] of numbers that may be [NaN]. *)
Definition lt_nan (x : option Z) (y : Z) : bool := match x with Some v => (v <? y)%Z | None => false end.

Definition expiringSoon (ib : Inbox) (now : Z) : bool :=
  Inbox_is_active ib && lt_nan ((λ x, x - now)%Z <$> date_ms (Inbox_expires_at ib)) (10 * 60 * 1000).

(** The elapsed share of an inbox's life, clamped to a percentage. Dates that
    do not parse or coincide give no number. *)
Definition progressPct (ib : Inbox) (now : Z) : option Q :=
  if negb (Inbox_is_active ib) then Some (100 # 1)%Q
  else
    match date_ms (Inbox_expires_at ib), date_ms (Inbox_created_at ib) with
    | Some ex, Some cr =>
        if (ex - cr =? 0)%Z then None
        else
          let r := ((inject_Z (now - cr) / inject_Z (ex - cr)) * (100 # 1))%Q in
          let lo := if Qle_bool r 0 then 0%Q else r in
          Some (if Qle_bool lo (100 # 1) then lo else (100 # 1)%Q)
    | _, _ => None
    end.

(** What is left of a positive time span. *)
Definition remaining_label (diff : Z) : jstr :=
  let h := (diff / 3600000)%Z in
  let m := (diff mod 3600000 / 60000)%Z in
  if (24 <? h)%Z then show (h / 24) ++ "d " ++ show (h mod 24) ++ "h"
  else if (0 <? h)%Z then show h ++ "h " ++ show m ++ "m"
  else show m ++ "m".
Definition with_total (remaining : jstr) (totalTtl : option jstr) : jstr :=
  if otruthy totalTtl then remaining ++ " / " ++ formatTtlLabel (default [] totalTtl) else remaining.

Definition ExpiryLabel (expiresAt : jstr) (totalTtl : option jstr) (now : Z) : jstr :=
  match date_ms expiresAt with
  | None => with_total "NaNm" totalTtl
  | Some ex =>
      let diff := (ex - now)%Z in
      if (diff <=? 0)%Z then
        let ago := Z.abs diff in
        if (ago <? 3600000)%Z then show (ago / 60000) ++ "m ago"
        else if (ago <? 86400000)%Z then show (ago / 3600000) ++ "h ago"
        else show (ago / 86400000) ++ "d ago"
      else with_total (remaining_label diff) totalTtl
  end.

(** ** Theorems *)

(** The wait for a given time to the first expiry. *)
Definition poll_for (soonest : Z) : Z :=
  if (soonest <=? 0)%Z then 5000%Z
  else if (soonest <=? 2 * 60000)%Z then 15000%Z
  else if (soonest <=? 10 * 60000)%Z then 30000%Z else 60000%Z.

Lemma min_nan_some (f : Inbox → Z) ib l :
  ∃ m, min_nan ((λ x, Some (f x)) <$> ib :: l) = Some m ∧
       (∀ x, x ∈ ib :: l → (m <= f x)%Z) ∧ ∃ x, x ∈ ib :: l ∧ f x = m.
Proof.
  cbn. revert ib. induction l as [|y l IH]; intros ib; cbn.
  - exists (f ib). split_and!; [done| |exists ib; set_solver].
    intros x Hx. assert (x = ib) as -> by set_solver. lia.
  - destruct (Z.le_ge_cases (f ib) (f y)) as [Hle|Hle].
    + rw Z.min_l //. destruct (IH ib) as (m & -> & Hm & x & Hx & Ex). exists m. split_and!; [done| |].
      * intros z [->|[->|Hz]%elem_of_cons]%elem_of_cons; [apply Hm; set_solver| |apply Hm; set_solver].
        etrans; [apply (Hm ib); set_solver|done].
      * exists x. set_solver.
    + rw Z.min_r //. destruct (IH y) as (m & -> & Hm & x & Hx & Ex). exists m. split_and!; [done| |].
      * intros z [->|[->|Hz]%elem_of_cons]%elem_of_cons; [|apply Hm; set_solver|apply Hm; set_solver].
        etrans; [apply (Hm y); set_solver|lia].
      * exists x. set_solver.
Qed.

(** The polling interval follows the inbox that expires first: five seconds
    once it has expired, and otherwise fifteen or thirty seconds or a minute as
    its expiry is within two minutes, within ten, or later. *)
Theorem refetchInterval_spec (ib : Inbox) (l : list Inbox) (expires : Inbox → Z) (now : Z) :
  (∀ x, x ∈ ib :: l → date_ms (Inbox_expires_at x) = Some (expires x)) →
  ∃ x, x ∈ ib :: l ∧ (∀ y, y ∈ ib :: l → (expires x <= expires y)%Z) ∧
    refetchInterval (Some (ib :: l)) now = Some (poll_for (expires x - now)).
Proof.
  intros Hd. unfold refetchInterval.
  assert ((λ x, (λ z, z - now)%Z <$> date_ms (Inbox_expires_at x)) <$> ib :: l =
          (λ x, Some (expires x - now)%Z) <$> ib :: l) as ->.
  { apply list_fmap_ext. intros i x Hx. rw Hd //. by eapply list_elem_of_lookup_2. }
  destruct (min_nan_some (λ x, expires x - now)%Z ib l) as (m & -> & Hm & x & Hx & <-).
  exists x. split_and!; [done| |].
  - intros y Hy. specialize (Hm y Hy). lia.
  - unfold poll_for. by repeat case_match.
Qed.

(** What a bulk renewal of [n] inboxes with [f] failures, [e] of them 404, is
    reported as. *)
Definition renew_report (n f e : nat) : effect :=
  if (f =? 0)%nat then EToastSuccess (show_nat n ++ " inbox" ++ plural n [] "es" ++ " renewed")
  else if (e =? f)%nat
  then EToastError (show_nat f ++ " inbox" ++ plural f [] "es" ++ " already expired")
  else EToastError (show_nat f ++ " inbox" ++ plural f [] "es" ++ " failed to renew").

Lemma filter_filter_rejected {A} z (rs : list (jserr + A)) :
  List.filter (rejected_with z) (List.filter rejected rs) = List.filter (rejected_with z) rs.
Proof. induction rs as [|[e|a] rs IH]; simpl; [done| |done]. by rw IH. Qed.

(** Bulk renewal makes one call per selected inbox and reports what
    happened: success when no call failed, expiry when all failures were 404,
    failure otherwise, with the right counts; then the list is refreshed and
    the selection cleared. *)
Theorem bulkRenew_reports (s : HomeState) (w : world HomeState) :
  selectedIds s ≠ [] →
  ∃ rs w1,
    allSettled ((λ id, api_post ("/inboxes/" ++ id ++ "/extend") (Some (JObj []))) <$> selectedIds s) w
      = (inr rs, w1) ∧ length rs = length (selectedIds s) ∧
    bulkRenew s w =
      (inr tt, World (log_effect (renew_report (length (selectedIds s)) (countb rejected rs) (countb (rejected_with 404) rs))
                       (log_effect (EInvalidate "home-inboxes") (brw w1))) (set_selected [] (st w1))).
Proof.
  intros Hs. destruct (allSettled_total ((λ id, api_post ("/inboxes/" ++ id ++ "/extend") (Some (JObj [])))
    <$> selectedIds s) w) as (rs & w1 & E & Hl).
  exists rs, w1. rw length_fmap in Hl. split_and!; [done|done|].
  unfold bulkRenew. destruct (selectedIds s) as [|id ids] eqn:Ei; [done|]. cbn [length Nat.eqb]. run_M. rw E.
  rw filter_filter_rejected. unfold renew_report, countb.
  assert (He : length (List.filter (rejected_with 404) rs) ≤ length (List.filter rejected rs)).
  { clear. induction rs as [|[e|a] rs IH]; simpl; [done| |done]. destruct (is_api_status e 404); simpl; lia. }
  destruct (length (List.filter rejected rs)) as [|f]; cbn [Nat.eqb Nat.ltb Nat.leb].
  - assert (length (List.filter (rejected_with 404) rs) = 0) as -> by lia. done.
  - destruct (Nat.eqb_spec (length (List.filter (rejected_with 404) rs)) (S f)) as [->|Hne]; [done|].
    rw andb_false_r. done.
Qed.

(** Bulk deletion does not look at the outcomes: it reports all inboxes as
    deleted and clears the selection even if every call failed. *)
Theorem bulkDelete_reports_success (s : HomeState) (w : world HomeState) :
  selectedIds s ≠ [] →
  let '(r, w') := bulkDelete s w in
  let n := length (selectedIds s) in
  r = inr tt ∧ selectedIds (st w') = [] ∧
  last (trace (brw w')) = Some (EToastSuccess (show_nat n ++ " inbox" ++ plural n [] "es" ++ " deleted")).
Proof.
  intros Hs. destruct (allSettled_total ((λ id, api_del ("/inboxes/" ++ id) None)
    <$> selectedIds s) w) as (rs & w1 & E & Hl).
  unfold bulkDelete. destruct (selectedIds s) as [|id ids] eqn:Ei; [done|]. cbn [length Nat.eqb]. run_M. rw E.
  step_M. split_and!; [done|done|]. cbn [trace]. by rw last_snoc.
Qed.

Lemma validateTtl_message v mx e : validateTtl v mx = Some e → truthy e = true.
Proof. unfold validateTtl. repeat case_match; intros [= <-]; done. Qed.

(** The form sends a request exactly when an assignment and a lifetime are
    chosen and a custom lifetime is valid; otherwise nothing goes out, and an
    invalid custom lifetime is reported in place. *)
Theorem create_guarded (q : QuickCreate) (maxMins : option Z) (w : world QuickCreate) :
  let invalid := (ttlPreset q =?s "custom") && bool_decide (validateTtl (customTtl q) maxMins ≠ None) in
  if negb (truthy (assignmentId q)) || negb (truthy (ttl q)) then create q maxMins w = (inr tt, w)
  else if invalid
  then create q maxMins w = (inr tt, World (brw w) (set_ttlError (validateTtl (customTtl q) maxMins) (st w)))
  else ∃ rest, sent_requests (snd (create q maxMins w)) =
         sent_requests w ++
         build_request "/inboxes" {| o_method := "POST"; o_headers := []; o_body := Some (create_body q); o_params := None |}
           (accessToken (brw w)) :: rest.
Proof.
  cbv zeta. unfold create. destruct (negb _ || _); [done|].
  assert (Ho : otruthy (if ttlPreset q =?s "custom" then validateTtl (customTtl q) maxMins else None) =
    (ttlPreset q =?s "custom") && bool_decide (validateTtl (customTtl q) maxMins ≠ None)).
  { destruct (ttlPreset q =?s "custom"); [|done].
    destruct (validateTtl (customTtl q) maxMins) as [e|] eqn:Ev; cbn; [|done].
    apply validateTtl_message in Ev. by rw Ev. }
  cbv zeta. rw Ho. destruct (ttlPreset q =?s "custom"); cbn [andb].
  1: destruct (bool_decide (validateTtl (customTtl q) maxMins ≠ None)); [done|].
  all: run_M; unfold api_post, api_send;
    destruct (request_sends_first "/inboxes"
      {| o_method := "POST"; o_headers := []; o_body := Some (create_body q); o_params := None |}
      (World (brw w) (set_creating true (st w)))) as [rest Hr];
    destruct (request _ _ _) as [[e|j] w1]; cbn [snd] in Hr;
    [destruct (includes (toLowerCase (err_message e)) "ttl")|]; step_M; exists rest;
    unfold sent_requests in *; cbn [snd brw trace log_effect]; rw ?fetches_app ?app_nil_r; exact Hr.
Qed.

(** A custom lifetime with surrounding spaces passes validation but is sent
    as typed, spaces included. *)
Theorem create_sends_untrimmed (q : QuickCreate) :
  ttlPreset q = js "custom" → customTtl q = js " 45m " →
  validateTtl (customTtl q) None = None ∧ ttl q = js " 45m " ∧
  jfield (create_body q) "ttl" = Some (JStr (js " 45m ")).
Proof.
  intros Hp Hc. unfold create_body, jobj, ttl. rw Hp Hc. split_and!; [by vm_compute|done|].
  destruct (truthy (alias q)); done.
Qed.

(** Selecting works like a set: toggling an inbox changes its membership
    and no other's, and never lists an inbox twice. *)
Theorem toggleSelect_spec (s : HomeState) (id x : jstr) :
  NoDup (selectedIds s) →
  NoDup (selectedIds (toggleSelect id s)) ∧
  (x ∈ selectedIds (toggleSelect id s) ↔ if decide (x = id) then x ∉ selectedIds s else x ∈ selectedIds s).
Proof.
  intros Hn. cbn. split; [auto with bb|]. rw elem_of_set_toggle. case_decide; naive_solver.
Qed.

End home.

(** ** Instances *)

Definition inbox_until (id expires : jstr) : Inbox := {|
  Inbox_id := id; Inbox_domain_assignment_id := []; Inbox_domain_id := []; Inbox_created_by := [];
  Inbox_address := id; Inbox_full_address := []; Inbox_is_active := true; Inbox_expires_at := expires;
  Inbox_created_at := "0"; Inbox_original_ttl := None; Inbox_domain_name := None; Inbox_email_count := 0;
  Inbox_unread_count := 0 |}.

Lemma refetchInterval_spec_witness :
  refetchInterval (Some [inbox_until "a" "900000"; inbox_until "b" "60000"]) 0 (H0 := AsciiRuntime) = Some 15000%Z.
Proof.
  destruct (refetchInterval_spec (inbox_until "a" "900000") [inbox_until "b" "60000"]
    (λ x, default 0%Z (date_ms (Inbox_expires_at x) (JSRuntime := AsciiRuntime))) 0 (H0 := AsciiRuntime))
    as (x & Hx & Hmin & ->).
  - intros x Hx. apply elem_of_cons in Hx as [->|Hx]; [reflexivity|].
    apply list_elem_of_singleton in Hx as ->. reflexivity.
  - apply elem_of_cons in Hx as [->|Hx].
    + specialize (Hmin (inbox_until "b" "60000") ltac:(right; by left)). by vm_compute in Hmin.
    + apply list_elem_of_singleton in Hx as ->. reflexivity.
Defined.

Definition two_selected : HomeState := {| page := 1; searchInput := []; search := []; selectedIds := [js "a"; js "b"] |}.
Definition renew_world : world HomeState :=
  World (browser_on ∅ "/" [answer 200 (JObj []); answer 404 (JObj [(js "error", JStr (js "gone"))])]) two_selected.
Lemma bulkRenew_reports_witness :
  last (trace (brw (snd (bulkRenew two_selected renew_world (H := default_env))))) =
  Some (EToastError (js "1 inbox already expired")).
Proof.
  destruct (bulkRenew_reports two_selected renew_world ltac:(discriminate) (H := default_env))
    as (rs & w1 & E & _ & ->). vm_compute in E. injection E as <- <-. vm_compute. reflexivity.
Defined.

Lemma bulkDelete_reports_success_witness :
  last (trace (brw (snd (bulkDelete two_selected
    (World (browser_on ∅ "/" [answer 500 JNull; answer 500 JNull]) two_selected) (H := default_env))))) =
  Some (EToastSuccess (js "2 inboxes deleted")).
Proof.
  pose proof (bulkDelete_reports_success two_selected
    (World (browser_on ∅ "/" [answer 500 JNull; answer 500 JNull]) two_selected)
    ltac:(discriminate) (H := default_env)) as Hd.
  destruct (bulkDelete two_selected _) as [r w']. exact (proj2 (proj2 Hd)).
Defined.

Definition picked : QuickCreate := {|
  assignmentId := "d"; alias := []; ttlPreset := "1h"; customTtl := []; ttlError := None; showAdvanced := false;
  creating := false; createdInbox := None; copied := false |}.
Lemma create_guarded_witness :
  ∃ rest, sent_requests (snd (create picked None (World (browser_on ∅ "/" []) picked)
    (H := default_env) (H0 := AsciiRuntime))) =
  build_request "/inboxes" {| o_method := "POST"; o_headers := []; o_body := Some (create_body picked); o_params := None |}
    None (H := default_env) :: rest.
Proof.
  exact (create_guarded picked None (World (browser_on ∅ "/" []) picked) (H := default_env) (H0 := AsciiRuntime)).
Defined.
