(* ===== verification/InboxPage.v ===== *)
(** * The inbox page: [web/src/app/inboxes/[id]/page.tsx],
    [web/src/components/inbox/] and [web/src/components/pagination.tsx]

    The countdown, the actions on an inbox and its mails, keyboard navigation,
    the list grouped by date, and the preview of a mail with its protection
    against remote content. *)

From S2P Require Import Prelude Browser Types ApiClient React Lib Mail Ttl Notifications.
Import Lib.RelativeTime Mail.EmailHtml Mail.VerificationCode.

(** ** Pagination *)
Record pagination := { pg_label : jstr; prev_disabled : bool; next_disabled : bool }.
Definition Pagination (page totalPages : Z) : option pagination :=
  if (totalPages <=? 1)%Z then None
  else Some {| pg_label := "Page " ++ show page ++ " of " ++ show totalPages;
               prev_disabled := (page <=? 1)%Z; next_disabled := (totalPages <=? page)%Z |}.
Inductive page_click := Previous | Next.
(** The page after a click; a disabled button does nothing. *)
Definition paginate (page totalPages : Z) (c : page_click) : Z :=
  match Pagination page totalPages with
  | None => page
  | Some p => match c with
              | Previous => if prev_disabled p then page else (page - 1)%Z
              | Next => if next_disabled p then page else (page + 1)%Z
              end
  end.

(** ** Countdown *)
Record countdown := { remaining : jstr; urgent : bool }.
Definition time_left (diff : Z) : jstr :=
  let h := (diff / 3600000)%Z in
  let m := ((diff mod 3600000) / 60000)%Z in
  let s := ((diff mod 60000) / 1000)%Z in
  if (0 <? h)%Z then show h ++ "h " ++ show m ++ "m " ++ show s ++ "s" else show m ++ "m " ++ show s ++ "s".
Definition Countdown (diff : Z) : countdown :=
  if (diff <=? 0)%Z then {| remaining := "Expired"; urgent := true |}
  else {| remaining := time_left diff; urgent := (diff <? 600000)%Z |}.

Section inbox_page.
Context `{!AppEnv, !JSRuntime} (id : jstr).

(** ** The page *)
Record InboxState := {
  selectedEmailId : option jstr;
  search : jstr;
  page : Z;
  copied : bool
}.
Definition inbox_init : InboxState := {| selectedEmailId := None; search := []; page := 1; copied := false |}.
Definition select (e : option jstr) (s : InboxState) : InboxState :=
  {| selectedEmailId := e; search := search s; page := page s; copied := copied s |}.
Definition set_copied (b : bool) (s : InboxState) : InboxState :=
  {| selectedEmailId := selectedEmailId s; search := search s; page := page s; copied := b |}.
Definition onSearchChange (v : jstr) (s : InboxState) : InboxState :=
  {| selectedEmailId := selectedEmailId s; search := v; page := 1; copied := copied s |}.

(** The two effects that leave the page. *)
Definition inactive_effect (inbox : option Inbox) : M InboxState unit :=
  match inbox with
  | Some ib => when (negb (Inbox_is_active ib))
                 (emit (EToastError "This inbox has expired");; emit (EReplace "/"))
  | None => mret tt
  end.
Definition error_effect (inboxError : bool) : M InboxState unit :=
  when inboxError (emit (EToastError "This inbox has expired or was deleted");; emit (EReplace "/")).

Definition load_emails (debouncedSearch : jstr) (s : InboxState) : M InboxState (option json) :=
  api_get ("/inboxes/" ++ id ++ "/emails")
    (Some ([(js "page", show (page s)); (js "per_page", js "30")] ++
           (if truthy debouncedSearch then [(js "q", debouncedSearch)] else []))).

Definition toast_error {S} (err : jserr) : M S unit := emit (EToastError (err_message err)).

Definition extend : mutation InboxState unit := {|
  mutationFn _ := api_post ("/inboxes/" ++ id ++ "/extend") (Some (JObj []));
  onSuccess _ := emit (EInvalidate "inbox");; emit (EToastSuccess "Inbox renewed");
  onError := toast_error
|}.
(** [toggleRead] has no [onError]. *)
Definition toggleRead : mutation InboxState (jstr * bool) := {|
  mutationFn '(emailId, is_read) := api_patch ("/emails/" ++ emailId) (Some (JObj [(js "is_read", JBool is_read)]));
  onSuccess _ := emit (EInvalidate "emails");; emit (EInvalidate "email");
  onError _ := mret tt
|}.
Definition deleteEmail : mutation InboxState jstr := {|
  mutationFn emailId := api_del ("/emails/" ++ emailId) None;
  onSuccess _ := emit (EInvalidate "emails");; modify (select None);; emit (EToastSuccess "Email deleted");
  onError := toast_error
|}.
Definition deleteInbox : mutation InboxState unit := {|
  mutationFn _ := api_del ("/inboxes/" ++ id) None;
  onSuccess _ := emit (EInvalidate "notifications");; emit (EToastSuccess "Inbox deleted");; emit (EPush "/");
  onError := toast_error
|}.
Definition markAllRead (closure : InboxState) : mutation InboxState unit := {|
  mutationFn _ := api_post ("/inboxes/" ++ id ++ "/emails/mark-all-read") (Some (JObj []));
  onSuccess data :=
    emit (EInvalidate "emails");; emit (EInvalidate "inbox");;
    when (bool_decide (is_Some (selectedEmailId closure))) (emit (EInvalidate "email"));;
    marked ← prop data "marked";
    emit (EToastSuccess ("Marked " ++ from_option json_to_string (js "undefined") marked ++ " email" ++
      (match marked with Some (JNum 1) => [] | _ => js "s" end) ++ " as read"));
  onError := toast_error
|}.
Definition onNewEmail : M InboxState unit :=
  emit (EInvalidate "emails");; emit (EInvalidate "inbox");; emit (EToastSuccess "New email received").

Definition copyAddress (inbox : option Inbox) : M InboxState unit :=
  match inbox with
  | None => mret tt
  | Some ib => emit (EClipboard (jor (Inbox_full_address ib) (Inbox_address ib)));;
               modify (set_copied true);; emit (EToastSuccess "Copied!");; emit (ETimeout 1500)
  end.

(** ** Keyboard navigation *)

Fixpoint find_index (emails : list EmailSummary) (sel : option jstr) : Z :=
  match emails with
  | [] => -1
  | e :: t => if bool_decide (Some (EmailSummary_id e) = sel) then 0
              else let i := find_index t sel in if (i =? -1)%Z then -1 else i + 1
  end%Z.
(** [emails[i]?.id ?? null]. *)
Definition id_at (emails : list EmailSummary) (i : Z) : option jstr :=
  if (i <? 0)%Z then None else EmailSummary_id <$> emails !! Z.to_nat i.
Definition nav_keydown (emails : list EmailSummary) (key targetTag : jstr) (s : InboxState) : InboxState :=
  if (targetTag =?s "INPUT") || (targetTag =?s "TEXTAREA") then s
  else
    let idx := find_index emails (selectedEmailId s) in
    let n := Z.of_nat (length emails) in
    if (key =?s "j") || (key =?s "ArrowDown") then
      select (id_at emails (if (idx <? n - 1)%Z then idx + 1 else 0)%Z) s
    else if (key =?s "k") || (key =?s "ArrowUp") then
      select (id_at emails (if (0 <? idx)%Z then idx - 1 else n - 1)%Z) s
    else if key =?s "Escape" then select None s
    else s.

(** ** The list *)

Definition is_sep (c : N) : bool := bool_decide (c ∈ [46; 95; 45]%N).
Definition senderName (email : jstr) : jstr :=
  title_case false ((λ c, if is_sep c then 32%N else c) <$> default [] (head (split_on 64 email))).

(** The local calendar: midnight of the day of an instant, its year, and the
    two formats of [toLocaleDateString] the list uses. *)
Context (startOfDay : Z → Z) (yearOf : Z → Z) (weekday : jstr → jstr) (shortDate : jstr → bool → jstr).

Definition dateLabel (dateStr : jstr) (now : Z) : jstr :=
  let today := startOfDay now in
  let yesterday := (today - 86400000)%Z in
  match date_ms dateStr with
  | None => shortDate dateStr true            (* Invalid Date: every comparison fails *)
  | Some d =>
      let emailDate := startOfDay d in
      if (emailDate =? today)%Z then "Today"
      else if (emailDate =? yesterday)%Z then "Yesterday"
      else if (now - emailDate <? 7 * 86400000)%Z then weekday dateStr
      else shortDate dateStr (negb (yearOf now =? yearOf d)%Z)
  end.

Record EmailGroup := { eg_label : jstr; eg_emails : list EmailSummary }.

(** [groups[groups.length - 1].emails.push(e)]; [None] when there is none. *)
Fixpoint push_last (groups : list EmailGroup) (e : EmailSummary) : option (list EmailGroup) :=
  match groups with
  | [] => None
  | [g] => Some [{| eg_label := eg_label g; eg_emails := eg_emails g ++ [e] |}]
  | g :: t => (λ t', g :: t') <$> push_last t e
  end.
Fixpoint group_emails (now : Z) (emails : list EmailSummary) (currentLabel : jstr) (groups : list EmailGroup)
    : option (list EmailGroup) :=
  match emails with
  | [] => Some groups
  | e :: rest =>
      let label := dateLabel (EmailSummary_received_at e) now in
      let groups' := if label =?s currentLabel then groups else groups ++ [{| eg_label := label; eg_emails := [] |}] in
      push_last groups' e ≫= group_emails now rest label
  end.
Definition groupByDate (now : Z) (emails : list EmailSummary) : option (list EmailGroup) :=
  group_emails now emails [] [].

Record email_row := { er_initial : jstr; er_name : jstr; er_unread : bool; er_time : jstr; er_subject : jstr; er_selected : bool }.
Definition EmailRow (now : Z) (selectedId : option jstr) (e : EmailSummary) : email_row := {|
  er_initial := toUpperCase (take 1 (EmailSummary_from_address e));
  er_name := senderName (EmailSummary_from_address e);
  er_unread := negb (EmailSummary_is_read e);
  er_time := timeAgo (EmailSummary_received_at e) now;
  er_subject := jor (default [] (EmailSummary_subject e)) "(no subject)";
  er_selected := bool_decide (selectedId = Some (EmailSummary_id e)) |}.

Inductive list_view :=
| LError
| LSkeleton
| LEmpty (hasSearch : bool)
| LGroups (l : list (jstr * list email_row)) (p : option pagination).
Definition EmailList (now : Z) (emails : list EmailSummary) (totalPages : Z) (isLoading isError : bool) (s : InboxState)
    : option list_view :=
  groups ← groupByDate now emails;
  Some (
    if isError then LError
    else if isLoading then LSkeleton
    else if (length emails =? 0)%nat then LEmpty (truthy (search s))
    else LGroups ((λ g, (eg_label g, EmailRow now (selectedEmailId s) <$> eg_emails g)) <$> groups)
           (if (1 <? totalPages)%Z then Pagination (page s) totalPages else None)).

(** ** The preview of a mail *)

(** [showRemote] and the tab are state of the component; [seenEmailId] tells
    that another mail is shown. *)
Record PreviewState := {
  activeTab : jstr;
  showRemote : bool;
  seenEmailId : jstr;
  codeCopied : bool
}.
(** [!!email.body_html]. *)
Definition hasHtml (e : Email) : bool := otruthy (Email_body_html e).
Definition preview_mount (e : Email) : PreviewState := {|
  activeTab := if hasHtml e then js "html" else js "text"; showRemote := false; seenEmailId := Email_id e;
  codeCopied := false |}.
(** The state updates during render, when the mail is another one. *)
Definition preview_adjust (e : Email) (s : PreviewState) : PreviewState :=
  if Email_id e =?s seenEmailId s then s
  else {| activeTab := activeTab s; showRemote := false; seenEmailId := Email_id e; codeCopied := false |}.
Definition loadImages (s : PreviewState) : PreviewState :=
  {| activeTab := activeTab s; showRemote := true; seenEmailId := seenEmailId s; codeCopied := codeCopied s |}.
Definition setActiveTab (t : jstr) (s : PreviewState) : PreviewState :=
  {| activeTab := t; showRemote := showRemote s; seenEmailId := seenEmailId s; codeCopied := codeCopied s |}.

(** [[email.subject, email.body_text].filter(Boolean).join(" ")]; the separator
    is two blanks. *)
Definition code_text (e : Email) : jstr :=
  join "  " (List.filter truthy [default [] (Email_subject e); default [] (Email_body_text e)]).
Definition verificationCode (e : Email) : option jstr := extractVerificationCode (code_text e).

Inductive preview_body :=
| PHtml (doc : jstr) (remoteBlocked : bool)
| PText (text : jstr)
| PHeaders
| PNothing.
Definition preview_body_of (e : Email) (s : PreviewState) : preview_body :=
  if (activeTab s =?s "html") && hasHtml e then
    let html := default [] (Email_body_html e) in
    PHtml (buildSandboxedHtml html (negb (showRemote s))) (negb (showRemote s) && hasRemoteContent html)
  else if activeTab s =?s "text" then PText (jor (default [] (Email_body_text e)) "(empty body)")
  else if activeTab s =?s "headers" then PHeaders
  else PNothing.
(** What is on screen for a mail: React renders again after the adjustment. *)
Definition EmailPreview (e : Email) (s : PreviewState) : PreviewState * preview_body :=
  let s' := preview_adjust e s in (s', preview_body_of e s').

(** *** Attachments *)

Definition file_request (url : jstr) (token : option jstr) : http_request := {|
  rq_url := url; rq_method := "GET";
  rq_headers := if otruthy token then [(js "Authorization", "Bearer " ++ default [] token)] else [];
  rq_body := None; rq_credentials := false |}.

(** The state is [downloading].  The blob of a response is downloaded through
    an object URL, [blob]; [blob_ok] tells whether its body could be read. *)
Definition download (emailId : jstr) (a : Attachment) (blob_ok : bool) : M bool unit :=
  modify (λ _, true);;
  try_finally
    (try_catch
      (res ← api_get ("/emails/" ++ emailId ++ "/attachments/" ++ Attachment_id a) None;
       u ← prop res "url";
       match u with
       | Some (JStr url) =>
           if negb (startsWith url "http://") && negb (startsWith url "https://")
           then emit (EToastError "Invalid download URL")
           else if includes url "/api/v1/files" then
             token ← getAccessToken;
             resp ← fetch (file_request url token);
             if negb (rs_ok resp) then emit (EToastError "Failed to download")
             else if blob_ok then emit (EDownload "blob" (Attachment_filename a))
             else throw (PlainError "Failed to fetch")
           else emit (EDownload url (Attachment_filename a))
       | _ => throw (PlainError "res.url.startsWith is not a function")
       end)
      (λ _, emit (EToastError "Failed to download")))
    (modify (λ _, false)).

(** [Math.round(size / 1024)]. *)
Definition attachment_size (a : Attachment) : jstr :=
  let sizeKB := ((2 * Attachment_size_bytes a + 1024) / 2048)%Z in
  if (0 <? sizeKB)%Z then show sizeKB ++ "KB" else show (Attachment_size_bytes a) ++ "B".

End inbox_page.

(** ** Theorems *)

(** Paging never leaves the range of pages. *)
Theorem paginate_in_range (page totalPages : Z) (c : page_click) :
  (1 <= page <= totalPages)%Z → (1 <= paginate page totalPages c <= totalPages)%Z.
Proof.
  intros Hp. unfold paginate, Pagination. destruct (Z.leb_spec totalPages 1); [done|]. cbn.
  destruct c; [destruct (Z.leb_spec page 1)|destruct (Z.leb_spec totalPages page)]; lia.
Qed.

Lemma find_index_at (l : list EmailSummary) (i : nat) (e : EmailSummary) :
  NoDup (EmailSummary_id <$> l) → l !! i = Some e → find_index l (Some (EmailSummary_id e)) = Z.of_nat i.
Proof.
  revert i; induction l as [|x l IH]; intros i Hn Hi; [done|]. rw fmap_cons in Hn.
  apply NoDup_cons in Hn as [Hx Hn]. destruct i as [|i]; simpl in *.
  - simplify_eq. by rw bool_decide_true.
  - rw bool_decide_false.
    + rw (IH i) //. destruct (Z.eqb_spec (Z.of_nat i) (-1)); lia.
    + intros [= E]. apply Hx. rw E. apply list_elem_of_fmap. exists e. split; [done|]. by eapply list_elem_of_lookup_2.
Qed.
Lemma id_at_nat (l : list EmailSummary) (i : Z) (n : nat) e :
  i = Z.of_nat n → l !! n = Some e → id_at l i = Some (EmailSummary_id e).
Proof. intros -> Hn. unfold id_at. destruct (Z.ltb_spec (Z.of_nat n) 0); [lia|]. rw Nat2Z.id Hn. done. Qed.

(** Down and up are inverse and cyclic: from the mail at position [i] down
    selects the next one, the first after the last, and up then returns to
    it. *)
Theorem navigation_cycles (l : list EmailSummary) (i : nat) (e : EmailSummary) (s : InboxState) :
  NoDup (EmailSummary_id <$> l) → l !! i = Some e → selectedEmailId s = Some (EmailSummary_id e) →
  let down := nav_keydown l "j" "BODY" s in
  selectedEmailId down = EmailSummary_id <$> l !! (S i mod length l) ∧
  selectedEmailId (nav_keydown l "k" "BODY" down) = Some (EmailSummary_id e).
Proof.
  intros Hn Hi Hs. cbv zeta. pose proof (lookup_lt_Some _ _ _ Hi) as Hlt.
  assert (Hj : ∀ st0, selectedEmailId (nav_keydown l "j" "BODY" st0) =
    id_at l (if (find_index l (selectedEmailId st0) <? Z.of_nat (length l) - 1)%Z
             then find_index l (selectedEmailId st0) + 1 else 0)%Z) by done.
  assert (Hk : ∀ st0, selectedEmailId (nav_keydown l "k" "BODY" st0) =
    id_at l (if (0 <? find_index l (selectedEmailId st0))%Z
             then find_index l (selectedEmailId st0) - 1 else Z.of_nat (length l) - 1)%Z) by done.
  rw Hk Hj Hs (find_index_at l i e) //.
  destruct (Z.ltb_spec (Z.of_nat i) (Z.of_nat (length l) - 1)) as [Hl|Hl].
  - destruct (lookup_lt_is_Some_2 l (S i)) as [e' He']; [lia|].
    rw Nat.mod_small; [|lia]. rw (id_at_nat l _ (S i) e'); [|lia|done]. rw He'. split; [done|].
    rw (find_index_at l (S i) e') //. destruct (Z.ltb_spec 0 (Z.of_nat (S i))); [|lia]. apply (id_at_nat l _ i); [lia|done].
  - assert (Hlen : S i = length l) by lia. rw Hlen Nat.Div0.mod_same.
    destruct (lookup_lt_is_Some_2 l 0) as [e0 He0]; [lia|].
    rw (id_at_nat l 0 0 e0) // He0. split; [done|].
    rw (find_index_at l 0 e0) //. change (0 <? Z.of_nat 0)%Z with false. cbv iota. apply (id_at_nat l _ i); [lia|done].
Qed.

Section list_theorems.
Context `{!JSRuntime} (startOfDay yearOf : Z → Z) (weekday : jstr → jstr) (shortDate : jstr → bool → jstr).

Lemma push_last_snoc groups g e :
  push_last (groups ++ [g]) e = Some (groups ++ [{| eg_label := eg_label g; eg_emails := eg_emails g ++ [e] |}]).
Proof.
  induction groups as [|h t IH]; [done|]. cbn. rw IH. by destruct t.
Qed.

(** Every group holds mails, all with its label. *)
Definition labels_ok (now : Z) (groups : list EmailGroup) : Prop :=
  Forall (λ g, eg_emails g ≠ [] ∧
    Forall (λ e, dateLabel startOfDay yearOf weekday shortDate (EmailSummary_received_at e) now = eg_label g) (eg_emails g)) groups.
(** Neighbours have different labels. *)
Definition labels_change (groups : list EmailGroup) : Prop :=
  ∀ i g h, groups !! i = Some g → groups !! S i = Some h → eg_label g ≠ eg_label h.
Lemma labels_change_relabel gs g h :
  eg_label h = eg_label g → labels_change (gs ++ [g]) → labels_change (gs ++ [h]).
Proof.
  intros E Hc i a b Ha Hb.
  assert (Hrel : ∀ j x, (gs ++ [h]) !! j = Some x → ∃ y, (gs ++ [g]) !! j = Some y ∧ eg_label y = eg_label x).
  { intros j x [Hx|[Hj Hx]]%lookup_app_Some; [exists x; split; [by apply lookup_app_l_Some|done]|].
    destruct (j - length gs) as [|k] eqn:Ek; [|done]. cbn in Hx. simplify_eq.
    exists g. split; [|done]. rw lookup_app_r //. by rw Ek. }
  destruct (Hrel _ _ Ha) as (a' & Ha' & <-), (Hrel _ _ Hb) as (b' & Hb' & <-). by eapply Hc.
Qed.
Lemma labels_change_snoc groups h :
  labels_change groups → (∀ g, last groups = Some g → eg_label g ≠ eg_label h) → labels_change (groups ++ [h]).
Proof.
  intros Hc Hl i a b Ha [Hb|[Hj Hb]]%lookup_app_Some.
  { apply (Hc i); [|done]. apply lookup_lt_Some in Hb. rw lookup_app_l in Ha; [done|lia]. }
  destruct (S i - length groups) as [|k] eqn:Ek; [|done]. cbn in Hb. simplify_eq.
  apply Hl. rw last_lookup. rw lookup_app_l in Ha; [|lia]. rw -Ha. f_equal. lia.
Qed.

(** What the loop keeps: [currentLabel] is the label of the last group. *)
Record group_inv (now : Z) (cur : jstr) (groups : list EmailGroup) : Prop := {
  gi_cur : (groups = [] ∧ cur = []) ∨ (∃ gs g, groups = gs ++ [g] ∧ cur = eg_label g);
  gi_labels : labels_ok now groups;
  gi_change : labels_change groups
}.
Lemma group_step now cur groups e :
  let label := dateLabel startOfDay yearOf weekday shortDate (EmailSummary_received_at e) now in
  label ≠ [] → group_inv now cur groups →
  ∃ groups', push_last (if label =?s cur then groups else groups ++ [{| eg_label := label; eg_emails := [] |}]) e
    = Some groups' ∧ group_inv now label groups' ∧
    concat (eg_emails <$> groups') = concat (eg_emails <$> groups) ++ [e].
Proof.
  intros label Hlab [Hcur Hok Hch]. destruct (label =?s cur) eqn:El.
  - apply jeqb_eq in El. destruct Hcur as [[-> ->]|(gs & g & -> & ->)]; [done|].
    rw push_last_snoc. eexists. split_and!; [done| |].
    + split; [right; by eexists _, _| |by apply (labels_change_relabel gs g)].
      apply Forall_app in Hok as [H1 H2]. apply Forall_app. split; [done|]. apply Forall_singleton. cbn.
      apply Forall_singleton in H2 as [_ H2]. split; [by destruct (eg_emails g)|].
      apply Forall_app. split; [done|]. by apply Forall_singleton.
    + rw !fmap_app !concat_app /= !app_nil_r. by rw app_assoc.
  - apply jeqb_neq in El. rw push_last_snoc. eexists. split_and!; [done| |by rw fmap_app concat_app].
    split; [right; by eexists _, _| |].
    + apply Forall_app. split; [done|]. apply Forall_singleton. cbn. split; [done|]. by apply Forall_singleton.
    + apply labels_change_snoc; [done|]. intros g Hg. cbn. intros E.
      destruct Hcur as [[-> ->]|(gs & g' & -> & ->)]; [done|]. rw last_snoc in Hg. by simplify_eq.
Qed.

(** The list shows every mail once and in order, each under the label of
    its date, in groups that are not empty; a new group starts exactly where
    the label changes. *)
Theorem groupByDate_spec (now : Z) (emails : list EmailSummary) :
  (∀ e, e ∈ emails → dateLabel startOfDay yearOf weekday shortDate (EmailSummary_received_at e) now ≠ []) →
  ∃ groups, groupByDate startOfDay yearOf weekday shortDate now emails = Some groups ∧
    concat (eg_emails <$> groups) = emails ∧ labels_ok now groups ∧ labels_change groups.
Proof.
  intros Hne. unfold groupByDate.
  assert (Hgen : ∀ cur groups, group_inv now cur groups →
    ∃ groups', group_emails startOfDay yearOf weekday shortDate now emails cur groups = Some groups' ∧
      concat (eg_emails <$> groups') = concat (eg_emails <$> groups) ++ emails ∧
      labels_ok now groups' ∧ labels_change groups').
  2: { destruct (Hgen [] []) as (gs & E & Hc & Hl); [|by exists gs]. split; [by left|constructor|by intros ?]. }
  induction emails as [|e emails IH]; intros cur groups Hinv.
  { exists groups. destruct Hinv. by rw app_nil_r. }
  cbn [group_emails].
  destruct (group_step now cur groups e) as (gs & -> & Hinv' & Hcat); [apply Hne; by left|done|].
  cbn [mbind option_bind].
  destruct (IH ltac:(intros x Hx; apply Hne; by right) _ gs Hinv') as (gs' & E & Hc & Hok').
  exists gs'. split_and!; [done| |apply Hok'|apply Hok']. rw Hc Hcat. by rw -app_assoc.
Qed.
End list_theorems.

(** C19: remote content is blocked in every mail the reader turns to, also when
    images were loaded in the mail before: the document shown is built with
    blocking on. *)
Theorem preview_blocks_new_mail (e : Email) (s : PreviewState) :
  Email_id e ≠ seenEmailId s →
  showRemote (fst (EmailPreview e s)) = false ∧
  ∀ doc blocked, snd (EmailPreview e s) = PHtml doc blocked →
    doc = buildSandboxedHtml (default [] (Email_body_html e)) true ∧
    blocked = hasRemoteContent (default [] (Email_body_html e)).
Proof.
  intros Hne. unfold EmailPreview, preview_adjust. rw (proj2 (jeqb_neq _ _) Hne). cbn. split; [done|].
  intros doc blocked. unfold preview_body_of. cbn. destruct ((activeTab s =?s "html") && hasHtml e).
  - by intros [= <- <-].
  - by repeat case_match.
Qed.

Section download_theorems.
Context `{!AppEnv}.

(** The last thing a download does, and what it sent before. *)
Definition download_end (fn : jstr) (x : effect) : Prop :=
  (∃ m, x = EToastError m) ∨
  (∃ href, x = EDownload href fn ∧
    (href = js "blob" ∨ startsWith href "http://" = true ∨ startsWith href "https://" = true)).
Definition file_fetches (pre : list effect) : Prop :=
  pre = [] ∨ ∃ url token, pre = [EFetch (file_request url token)] ∧ includes url "/api/v1/files" = true.

Lemma download_ends_at_once fn t t' m :
  t' = t ++ [EToastError m] →
  ∃ pre x, t' = t ++ pre ++ [x] ∧ file_fetches pre ∧ download_end fn x.
Proof. intros ->. exists [], (EToastError m). split_and!; [done|by left|left; by eexists]. Qed.

(** After the call that asks for its address a download ends in exactly one
    saved file or one message, never in an exception, and is no longer marked
    as running; only http and https addresses are followed, and the token goes
    out only in a request for the server's files. *)
Theorem download_spec (emailId : jstr) (a : Attachment) (blob_ok : bool) (w : world bool) :
  let w1 := snd (api_get ("/emails/" ++ emailId ++ "/attachments/" ++ Attachment_id a) None (World (brw w) true)) in
  let '(r, w') := download emailId a blob_ok w in
  r = inr tt ∧ st w' = false ∧
  ∃ pre x, trace (brw w') = trace (brw w1) ++ pre ++ [x] ∧ file_fetches pre ∧ download_end (Attachment_filename a) x.
Proof.
  unfold download. unfold try_finally at 1, try_catch at 1, modify, mbind, M_bind. cbn [brw st].
  destruct (api_get _ None _) as [[err|res] w1]; cbn [fst snd].
  { split_and!; [done|done|]. by eapply download_ends_at_once. }
  assert (Ep : snd (prop res "url" w1) = w1) by (unfold prop; by repeat case_match).
  destruct (prop res "url" w1) as [[err|u] w2]; cbn in Ep; subst w2.
  { split_and!; [done|done|]. by eapply download_ends_at_once. }
  destruct u as [[| | | |url| |]|]; try (split_and!; [done|done|]; by eapply download_ends_at_once).
  destruct (negb _ && negb _) eqn:Eh; [split_and!; [done|done|]; by eapply download_ends_at_once|].
  destruct (includes url "/api/v1/files") eqn:Ei; cbn.
  - unfold fetch, getAccessToken, get_browser, mbind, mret, M_bind, M_ret. cbn. destruct (net (brw w1) _ _) as [resp|m]; cbn.
    + destruct (rs_ok _), blob_ok; cbn; (split_and!; [done|done|]);
        eexists [_], _; (split; [by rw -app_assoc|]); (split; [by right; eexists _, _|]); unfold download_end; naive_solver.
    + split_and!; [done|done|]. eexists [_], _; (split; [by rw -app_assoc|]).
      split; [by right; eexists _, _|left; by eexists].
  - split_and!; [done|done|]. eexists [], _. split; [done|]. split; [by left|]. right. eexists. split; [done|].
    right. destruct (startsWith url "http://"), (startsWith url "https://"); auto.
Qed.
End download_theorems.

(** The tab is not adjusted: after a mail with an HTML part, a mail without
    one shows nothing at all. *)
Theorem preview_blank_after_html (e e' : Email) :
  hasHtml e = true → hasHtml e' = false → Email_id e' ≠ Email_id e →
  snd (EmailPreview e' (preview_mount e)) = PNothing ∧
  (snd (EmailPreview e' (preview_mount e')) ≠ PNothing).
Proof.
  intros H1 H2 Hne. unfold EmailPreview, preview_adjust, preview_mount. cbn.
  rw (proj2 (jeqb_neq _ _) Hne) jeqb_refl H1 H2. unfold preview_body_of. cbn. rw H2. done.
Qed.

(** ** Instances *)

Definition summary_at (id received : jstr) : EmailSummary := {|
  EmailSummary_id := id; EmailSummary_from_address := "a@b.test"; EmailSummary_subject := None; EmailSummary_snippet := [];
  EmailSummary_has_attachments := false; EmailSummary_is_read := false; EmailSummary_size_bytes := 1;
  EmailSummary_received_at := received |}.
Definition mail_with (id : jstr) (html : option jstr) : Email := {|
  Email_id := id; Email_inbox_id := []; Email_from_address := []; Email_to_address := []; Email_subject := None;
  Email_body_text := Some (js "hello"); Email_body_html := html; Email_has_attachments := false; Email_size_bytes := 1;
  Email_is_read := false; Email_received_at := []; Email_attachments := None |}.

Definition two_mails : list EmailSummary := [summary_at "a" "5"; summary_at "b" "86400001"].
Lemma navigation_cycles_witness :
  selectedEmailId (nav_keydown two_mails "j" "BODY" (select (Some (js "b")) inbox_init)) = Some (js "a").
Proof.
  refine (proj1 (navigation_cycles two_mails 1 (summary_at "b" "86400001") (select (Some (js "b")) inbox_init) _ _ _));
    [|reflexivity|reflexivity].
  apply (bool_decide_unpack _). vm_compute. exact I.
Defined.

(** Days in UTC, as a calendar for the instances. *)
Definition utc_day (ms : Z) : Z := (ms - ms mod 86400000)%Z.
Lemma groupByDate_spec_witness :
  ∃ groups, groupByDate utc_day (λ _, 1970%Z) (λ d, d) (λ d _, d) 86400002 two_mails (H0 := AsciiRuntime) = Some groups ∧
    concat (eg_emails <$> groups) = two_mails ∧ (eg_label <$> groups) = [js "Yesterday"; js "Today"].
Proof.
  destruct (groupByDate_spec utc_day (λ _, 1970%Z) (λ d, d) (λ d _, d) 86400002 two_mails (H := AsciiRuntime))
    as (gs & E & Hc & _).
  - intros e He. apply elem_of_cons in He as [->|He]; [discriminate|]. apply list_elem_of_singleton in He as ->. discriminate.
  - exists gs. split; [exact E|]. split; [exact Hc|]. vm_compute in E. injection E as <-. reflexivity.
Defined.

Definition tracked : Email := mail_with "2" (Some (js "<img src='https://t.test/p.gif'>")).
Lemma preview_blocks_new_mail_witness :
  showRemote (fst (EmailPreview tracked (loadImages (preview_mount (mail_with "1" (Some (js "<p>"))))))) = false.
Proof.
  exact (proj1 (preview_blocks_new_mail tracked (loadImages (preview_mount (mail_with "1" (Some (js "<p>")))))
    ltac:(discriminate))).
Defined.
Lemma preview_blank_after_html_witness :
  snd (EmailPreview (mail_with "1" None) (preview_mount tracked)) = PNothing.
Proof.
  exact (proj1 (preview_blank_after_html tracked (mail_with "1" None) eq_refl eq_refl ltac:(discriminate))).
Defined.
