(* ===== verification/SignIn.v ===== *)
(** * Signing in: the pages [login], [register], [forgot-password],
    [reset-password] and [verify-email] of [web/src/app], and
    [web/src/components/session-conflict-dialog.tsx]

    The login page drives the authentication store: its programs run the
    store's actions on the part [auth] of the page state.  After every event
    the page renders; the dialog for a session conflict adjusts its own state
    while it renders. *)

From S2P Require Import Prelude Regex Browser Types ApiClient AuthStore React Lib PasswordPolicy.
Import Lib.SafeRedirect.

(** The character U+2026. *)
Definition ellipsis : jstr := [8230%N].

(** ** Addresses *)

(** [/^[^\s@]+@[^\s@]+\.[^\s@]+$/], the same on the three pages that ask for an
    address. *)
Definition addr_char (c : N) : bool := negb (is_space c) && negb (c =? 64)%N.
Definition emailRegex : re :=
  rseq [RBegin; rplus (RCls addr_char); rchar 64; rplus (RCls addr_char); rchar 46; rplus (RCls addr_char); REnd].
(** The error [validateEmail] shows when the field is left; empty is none. *)
Definition validateEmail (email : jstr) : jstr :=
  if truthy email && negb (test emailRegex email) then "Please enter a valid email address" else [].

(** ** Single sign-on providers *)

Record SSOStatusProvider := { sp_name : jstr; sp_type : jstr; sp_label : jstr; sp_enabled : bool }.
Record SSOStatus := {
  sso_enabled : bool;
  allow_registration : bool;
  enforce_sso : option bool;
  password_policy : option PasswordPolicy;
  sso_providers : option (list SSOStatusProvider)
}.

(** ** The dialog for a session conflict *)

(** The list the dialog shows: the array of its props, or one it received
    itself.  Arrays are compared by identity, so the two are different; the
    store replaces its conflict only while no dialog is open. *)
Inductive session_list := FromProps | FromAnswer (v : option json).
Record DialogState := {
  d_pendingToken : option json;
  d_sessions : session_list;
  resolving : option jstr
}.
Definition dialog_mount (c : SessionConflictState) : DialogState :=
  {| d_pendingToken := pendingToken c; d_sessions := FromProps; resolving := None |}.

Definition set_pendingToken (t : option json) (d : DialogState) : DialogState :=
  {| d_pendingToken := t; d_sessions := d_sessions d; resolving := resolving d |}.
Definition set_sessions (l : session_list) (d : DialogState) : DialogState :=
  {| d_pendingToken := d_pendingToken d; d_sessions := l; resolving := resolving d |}.
Definition set_resolving (r : option jstr) (d : DialogState) : DialogState :=
  {| d_pendingToken := d_pendingToken d; d_sessions := d_sessions d; resolving := r |}.

(** The updates during render. *)
Definition dialog_render (c : SessionConflictState) (d : DialogState) : DialogState :=
  let idle := bool_decide (resolving d = None) in
  let d1 := if negb (bool_decide (pendingToken c = d_pendingToken d)) && idle
            then set_pendingToken (pendingToken c) d else d in
  match d_sessions d1 with
  | FromAnswer _ => if idle then set_sessions FromProps d1 else d1
  | FromProps => d1
  end.
(** The list on screen. *)
Definition shown_sessions (c : SessionConflictState) (d : DialogState) : option json :=
  match d_sessions d with FromProps => conflictSessions c | FromAnswer v => v end.

Section session_rows.
Context `{!JSRuntime}.
(** [UAParser] is a package: the names it finds in a user agent. *)
Context (ua_browser ua_os ua_os_version ua_device : jstr → option jstr).

Definition parseUserAgent (ua : option jstr) : jstr * jstr * jstr :=
  match ua with
  | Some ((_ :: _) as u) =>
      (jor (default [] (ua_browser u)) "Unknown browser",
       if otruthy (ua_os u)
       then default [] (ua_os u) ++ (if otruthy (ua_os_version u) then " " ++ default [] (ua_os_version u) else [])
       else "Unknown OS",
       jor (default [] (ua_device u)) "desktop")
  | _ => (js "Unknown browser", js "Unknown OS", js "desktop")
  end.

Definition formatRelativeTime (dateStr : jstr) (now : Z) : jstr :=
  match date_ms dateStr with
  | None => toLocaleDateString dateStr
  | Some date =>
      let diffMs := (now - date)%Z in
      let diffMins := (diffMs / 60000)%Z in
      let diffHours := (diffMs / 3600000)%Z in
      let diffDays := (diffMs / 86400000)%Z in
      if (diffMins <? 1)%Z then "Just now"
      else if (diffMins <? 60)%Z then show diffMins ++ "m ago"
      else if (diffHours <? 24)%Z then show diffHours ++ "h ago"
      else if (diffDays <? 7)%Z then show diffDays ++ "d ago"
      else toLocaleDateString dateStr
  end.

Record session_row := { sr_device : jstr; sr_title : jstr; sr_ip : jstr; sr_active : jstr; sr_created : jstr;
                        sr_disabled : bool; sr_button : jstr }.
Definition session_card (now : Z) (d : DialogState) (s : Session) : session_row :=
  let '(browser, os, device) := parseUserAgent (Session_user_agent s) in {|
    sr_device := device; sr_title := browser ++ " " ++ [183%N] ++ " " ++ os;
    sr_ip := default (js "Unknown IP") (Session_ip_address s);
    sr_active := "Active " ++ formatRelativeTime (Session_last_used_at s) now;
    sr_created := "Created " ++ toLocaleDateString (Session_created_at s);
    sr_disabled := bool_decide (resolving d ≠ None);
    sr_button := if bool_decide (resolving d = Some (Session_id s)) then "Signing out" ++ ellipsis else "Sign Out & Continue" |}.
End session_rows.

(** ** The login page *)

Record LoginState := {
  lg_email : jstr;
  lg_emailError : jstr;
  lg_password : jstr;
  lg_showPassword : bool;
  lg_loading : bool;
  ssoLoading : option jstr;
  auth : AuthState;
  sessionStorage : gmap jstr jstr;
  dialog : option DialogState
}.
Definition with_loading (b : bool) (s : LoginState) : LoginState :=
  {| lg_email := lg_email s; lg_emailError := lg_emailError s; lg_password := lg_password s;
     lg_showPassword := lg_showPassword s; lg_loading := b; ssoLoading := ssoLoading s; auth := auth s;
     sessionStorage := sessionStorage s; dialog := dialog s |}.
Definition with_auth (a : AuthState) (s : LoginState) : LoginState :=
  {| lg_email := lg_email s; lg_emailError := lg_emailError s; lg_password := lg_password s;
     lg_showPassword := lg_showPassword s; lg_loading := lg_loading s; ssoLoading := ssoLoading s; auth := a;
     sessionStorage := sessionStorage s; dialog := dialog s |}.
Definition with_sessionStorage (f : gmap jstr jstr → gmap jstr jstr) (s : LoginState) : LoginState :=
  {| lg_email := lg_email s; lg_emailError := lg_emailError s; lg_password := lg_password s;
     lg_showPassword := lg_showPassword s; lg_loading := lg_loading s; ssoLoading := ssoLoading s; auth := auth s;
     sessionStorage := f (sessionStorage s); dialog := dialog s |}.
Definition with_dialog (f : option DialogState → option DialogState) (s : LoginState) : LoginState :=
  {| lg_email := lg_email s; lg_emailError := lg_emailError s; lg_password := lg_password s;
     lg_showPassword := lg_showPassword s; lg_loading := lg_loading s; ssoLoading := ssoLoading s; auth := auth s;
     sessionStorage := sessionStorage s; dialog := f (dialog s) |}.
Definition with_emailError (e : jstr) (s : LoginState) : LoginState :=
  {| lg_email := lg_email s; lg_emailError := e; lg_password := lg_password s;
     lg_showPassword := lg_showPassword s; lg_loading := lg_loading s; ssoLoading := ssoLoading s; auth := auth s;
     sessionStorage := sessionStorage s; dialog := dialog s |}.

(** An action of the store, on the store's part of the page state. *)
Definition in_auth {A} (m : M AuthState A) : M LoginState A := λ w,
  let '(r, w') := m (World (brw w) (auth (st w))) in (r, World (brw w') (with_auth (st w') (st w))).

(** The dialog is mounted while the store holds a conflict. *)
Definition login_render (s : LoginState) : LoginState :=
  with_dialog (λ d, (λ c, dialog_render c (default (dialog_mount c) d)) <$> sessionConflict (auth s)) s.

Definition login_blur (s : LoginState) : LoginState := with_emailError (validateEmail (lg_email s)) s.
Definition login_onEmail (v : jstr) (s : LoginState) : LoginState :=
  {| lg_email := v; lg_emailError := []; lg_password := lg_password s;
     lg_showPassword := lg_showPassword s; lg_loading := lg_loading s; ssoLoading := ssoLoading s; auth := auth s;
     sessionStorage := sessionStorage s; dialog := dialog s |}.

Section login_page.
Context `{!AppEnv}.
(** [searchParams.get("redirect")], and [window.location.search]. *)
Context (redirectParam : option jstr) (search : jstr).

(** [closure] is the state of the render the handler belongs to. *)
Definition handleSubmit (closure : LoginState) : M LoginState unit :=
  modify (with_loading true);;
  try_finally
    (try_catch
      (in_auth (login (lg_email closure) (lg_password closure));;
       s ← get_state;
       match sessionConflict (auth s) with
       | Some _ => mret tt
       | None => emit (EPush (safeRedirect redirectParam))
       end)
      (λ err, emit (EToastError (err_message err))))
    (modify (with_loading false)).

Definition handleConflictResolved : M LoginState unit :=
  in_auth clearSessionConflict;;
  in_auth fetchMe;;
  emit (EPush (safeRedirect redirectParam)).
Definition handleConflictClose : M LoginState unit := in_auth clearSessionConflict.

Definition resolve_body (token : option json) (sessionId : jstr) : json :=
  jobj [(js "pending_token", token); (js "revoke_session_id", Some (JStr sessionId));
        (js "use_cookie", Some (JBool true))].

(** The two outcomes of the call of [handleRevoke]. *)
Definition revoke_accept (res : option json) : M LoginState unit :=
  tokens ← prop res "tokens";
  t ← prop tokens "access_token";
  setAccessToken (token_of t);;
  setSessionHint true;;
  prop res "user";;
  handleConflictResolved.
Definition revoke_failed (err : jserr) : M LoginState unit :=
  match err with
  | ApiError _ status data =>
      if (status =? 409)%Z then
        p ← prop data "pending_token";
        modify (with_dialog (fmap (set_pendingToken p)));;
        l ← prop data "sessions";
        modify (with_dialog (fmap (set_sessions (FromAnswer l))));;
        emit (EToastError "Session list changed. Please choose again.")
      else if (status =? 401)%Z then
        emit (EToastError "Your session has expired. Please log in again.");; handleConflictClose
      else
        emit (EToastError "Failed to resolve session conflict. Please try logging in again.");;
        handleConflictClose
  | PlainError _ =>
      emit (EToastError "An unexpected error occurred. Please try again.");; handleConflictClose
  end.
(** [handleRevoke] of the dialog with the page's callbacks; [d] is the state
    of the render the handler belongs to.  [onResolved] is not awaited, so
    [setResolving(null)] may come before its last part, when the dialog is
    already gone. *)
Definition handleRevoke (d : DialogState) (sessionId : jstr) : M LoginState unit :=
  modify (with_dialog (fmap (set_resolving (Some sessionId))));;
  try_finally
    (try_catch
      (res ← api_post "/auth/login/resolve" (Some (resolve_body (d_pendingToken d) sessionId));
       revoke_accept res)
      revoke_failed)
    (modify (with_dialog (fmap (set_resolving None)))).

(** The effect that completes single sign-on.  [hash] holds the parameters of
    the fragment, [None] when there is none. *)
Definition sso_exchange (ssoCode : jstr) : M LoginState unit :=
  b ← get_browser;
  emit (EHistory (pathname b));;
  try_catch
    (res ← api_post "/auth/sso/exchange" (Some (JObj [(js "code", JStr ssoCode); (js "use_cookie", JBool true)]));
     t ← prop res "access_token";
     setAccessToken (token_of t);;
     setSessionHint true;;
     s ← get_state;
     match sessionStorage s !! js "pending_invite_token" with
     | Some ((_ :: _) as pendingInvite) =>
         modify (with_sessionStorage (delete (js "pending_invite_token")));;
         in_auth fetchMe;;
         emit (EReplace ("/invite?token=" ++ pendingInvite))
     | _ => in_auth fetchMe;; emit (EReplace (safeRedirect redirectParam))
     end)
    (λ _, emit (EToastError "SSO login failed: code expired or invalid. Please try again.")).

Definition sso_conflict (ssoConflictToken : jstr) : M LoginState unit :=
  b ← get_browser;
  emit (EHistory (pathname b ++ search));;
  try_catch
    (res ← api_get "/auth/login/pending-sessions" (Some [(js "token", ssoConflictToken)]);
     ss ← prop res "sessions";
     l ← prop res "limit";
     modify (λ s, with_auth {| user := user (auth s); loading := loading (auth s);
       sessionConflict := Some {| pendingToken := Some (JStr ssoConflictToken); conflictSessions := ss; limit := l |} |} s))
    (λ _, emit (EToastError "Session conflict expired. Please try again.")).

Definition sso_effect (ssoCode : option jstr) (hash : option (list (jstr * jstr))) : M LoginState unit :=
  if otruthy ssoCode then sso_exchange (default [] ssoCode)
  else
    match hash with
    | None => mret tt
    | Some params =>
        if otruthy (map_get params (js "error")) then
          emit (EToastError "Sign-in failed");; b ← get_browser; emit (EHistory (pathname b ++ search))
        else if bool_decide (map_get params (js "session_conflict") = Some (js "true")) &&
                otruthy (map_get params (js "pending_token"))
        then sso_conflict (default [] (map_get params (js "pending_token")))
        else mret tt
    end.

(** What the page offers. *)
Record login_view := {
  lv_description : jstr;
  lv_providers : list (jstr * jstr * bool);      (* address, label, disabled *)
  lv_password_form : option (jstr * bool);       (* label of the button, disabled *)
  lv_register_link : bool
}.
Definition enabled_providers (sso : option SSOStatus) : list SSOStatusProvider :=
  List.filter sp_enabled (default [] (sso ≫= sso_providers)).
Definition provider_button (s : LoginState) (p : SSOStatusProvider) : jstr * jstr * bool :=
  let busy := bool_decide (ssoLoading s = Some (sp_name p)) in
  (API_BASE ++ "/auth/sso/" ++ sp_name p,
   if busy then "Redirecting to " ++ sp_label p ++ ellipsis else "Sign in with " ++ sp_label p, busy).
Definition LoginPage (sso : option SSOStatus) (s : LoginState) : login_view :=
  let ssoEnabled := from_option sso_enabled false sso in
  let enforceSSO := default false (sso ≫= enforce_sso) in {|
    lv_description := if enforceSSO then "Sign in with SSO to continue" else "Enter your credentials to continue";
    lv_providers := if ssoEnabled then provider_button s <$> enabled_providers sso else [];
    lv_password_form := if enforceSSO then None
                        else Some (if lg_loading s then js "Signing in" ++ ellipsis else js "Sign in", lg_loading s);
    lv_register_link := negb enforceSSO && from_option allow_registration true sso |}.

End login_page.

(** ** The other pages *)

(** *** Registration *)
Record RegisterState := {
  rg_email : jstr;
  rg_emailError : jstr;
  rg_password : jstr;
  confirmPassword : jstr;
  confirmTouched : bool;
  rg_showPassword : bool;
  rg_showConfirm : bool;
  displayName : jstr;
  agreed : bool;
  rg_loading : bool;
  rg_auth : AuthState
}.
Definition rg_with_loading (b : bool) (s : RegisterState) : RegisterState :=
  {| rg_email := rg_email s; rg_emailError := rg_emailError s; rg_password := rg_password s;
     confirmPassword := confirmPassword s; confirmTouched := confirmTouched s; rg_showPassword := rg_showPassword s;
     rg_showConfirm := rg_showConfirm s; displayName := displayName s; agreed := agreed s; rg_loading := b;
     rg_auth := rg_auth s |}.
Definition rg_with_auth (a : AuthState) (s : RegisterState) : RegisterState :=
  {| rg_email := rg_email s; rg_emailError := rg_emailError s; rg_password := rg_password s;
     confirmPassword := confirmPassword s; confirmTouched := confirmTouched s; rg_showPassword := rg_showPassword s;
     rg_showConfirm := rg_showConfirm s; displayName := displayName s; agreed := agreed s; rg_loading := rg_loading s;
     rg_auth := a |}.
Definition rg_in_auth {A} (m : M AuthState A) : M RegisterState A := λ w,
  let '(r, w') := m (World (brw w) (rg_auth (st w))) in (r, World (brw w') (rg_with_auth (st w') (st w))).

Definition passwordsMismatch (s : RegisterState) : bool := confirmTouched s && negb (confirmPassword s =?s rg_password s).
Definition passwordsMatch (s : RegisterState) : bool :=
  confirmTouched s && truthy (confirmPassword s) && (confirmPassword s =?s rg_password s).
Definition register_disabled (s : RegisterState) : bool := rg_loading s || negb (agreed s) || passwordsMismatch s.

Section other_pages.
Context `{!AppEnv}.

Definition registration_effect {S} (sso : option SSOStatus) : M S unit :=
  match sso with
  | Some x => when (negb (allow_registration x)) (emit (EReplace "/login"))
  | None => mret tt
  end.

Definition register_submit (redirectParam : option jstr) (closure : RegisterState) : M RegisterState unit :=
  if negb (rg_password closure =?s confirmPassword closure) then mret tt
  else
    modify (rg_with_loading true);;
    try_finally
      (try_catch
        (rg_in_auth (register (rg_email closure) (rg_password closure) (displayName closure) None);;
         emit (EPush (jor (default [] redirectParam) "/")))
        (λ err, emit (EToastError (err_message err))))
      (modify (rg_with_loading false)).

Record register_view := {
  rv_providers : list (jstr * jstr);             (* address, label *)
  rv_requirements : option (list (jstr * bool)); (* the popover of the policy *)
  rv_strength : option PasswordStrength;
  rv_mismatch : bool;
  rv_match : bool;
  rv_button : jstr * bool
}.
Definition register_sso_href (p : SSOStatusProvider) : jstr := "/api/v1/auth/sso/" ++ sp_name p.
(** [None] while the status loads ([Some None]: nothing is rendered when
    registration is closed). *)
Definition RegisterPage (sso : option SSOStatus) (isLoading : bool) (s : RegisterState) : option (option register_view) :=
  let policy := sso ≫= password_policy in
  let requirements := passwordRequirements (rg_password s) policy in
  let strength := passwordStrength requirements in
  if negb (from_option allow_registration true sso) then Some None
  else if isLoading then None
  else Some (Some {|
    rv_providers := if from_option sso_enabled false sso
                    then (λ p, (register_sso_href p, "Continue with " ++ sp_label p)) <$> enabled_providers sso else [];
    rv_requirements := (λ _, (λ r, (label r, met r)) <$> requirements) <$> policy;
    rv_strength := if bool_decide (is_Some policy) && truthy (rg_password s)
                   then Some strength else None;
    rv_mismatch := passwordsMismatch s;
    rv_match := passwordsMatch s;
    rv_button := (if rg_loading s then "Creating account" ++ ellipsis else js "Create account", register_disabled s) |}).

(** *** A forgotten password *)
Record ForgotState := { fp_email : jstr; fp_emailError : jstr; fp_sent : bool; fp_loading : bool }.
Definition forgot_submit (closure : ForgotState) : M ForgotState unit :=
  modify (λ s, {| fp_email := fp_email s; fp_emailError := fp_emailError s; fp_sent := fp_sent s; fp_loading := true |});;
  try_finally
    (try_catch
      (api_post "/auth/forgot-password" (Some (JObj [(js "email", JStr (fp_email closure))]));;
       modify (λ s, {| fp_email := fp_email s; fp_emailError := fp_emailError s; fp_sent := true; fp_loading := fp_loading s |}))
      (λ err, emit (EToastError (err_message err))))
    (modify (λ s, {| fp_email := fp_email s; fp_emailError := fp_emailError s; fp_sent := fp_sent s; fp_loading := false |})).

(** *** A new password *)
Record ResetState := { rp_password : jstr; rp_confirm : jstr; rp_loading : bool }.
Definition reset_submit (token : jstr) (closure : ResetState) : M ResetState unit :=
  if negb (rp_password closure =?s rp_confirm closure) then emit (EToastError "Passwords don't match")
  else if (length (rp_password closure) <? 8)%nat then emit (EToastError "Password must be at least 8 characters")
  else
    modify (λ s, {| rp_password := rp_password s; rp_confirm := rp_confirm s; rp_loading := true |});;
    try_finally
      (try_catch
        (api_post "/auth/reset-password"
           (Some (JObj [(js "token", JStr token); (js "new_password", JStr (rp_password closure))]));;
         emit (EToastSuccess "Password reset successfully");;
         emit (EPush "/login"))
        (λ err, emit (EToastError (err_message err))))
      (modify (λ s, {| rp_password := rp_password s; rp_confirm := rp_confirm s; rp_loading := false |})).

(** *** Confirming an address *)
Inductive verify_status := Verifying | Verified | VerifyFailed.
Definition verify_init (token : option jstr) : verify_status := if otruthy token then Verifying else VerifyFailed.
Definition verify_effect (token : option jstr) : M verify_status unit :=
  when (otruthy token)
    (try_catch (api_get ("/auth/verify-email/" ++ default [] token) None;; modify (λ _, Verified))
       (λ _, modify (λ _, VerifyFailed))).
(** The timer of the second effect; its callback goes to the login page. *)
Definition verify_timer (s : verify_status) : option Z := match s with Verified => Some 3000%Z | _ => None end.
Definition verify_redirect : M verify_status unit := emit (EReplace "/login").

End other_pages.

(** ** Theorems *)

(** What the pattern for addresses stands for. *)
Definition address_shape (s : jstr) : Prop :=
  ∃ a b c, s = a ++ [64%N] ++ b ++ [46%N] ++ c ∧
    Forall (λ w, w ≠ [] ∧ Forall (λ x, addr_char x = true) w) [a; b; c].

Lemma emailRegex_shape (s : jstr) : test emailRegex s = true ↔ address_shape s.
Proof.
  rw test_iff. unfold emailRegex, address_shape. cbn [rseq]. split.
  - intros (u & t & e & -> & Hm).
    apply rmatch_seq_inv in Hm as (s0 & H0 & Hm).
    apply rmatch_seq_inv in Hm as (s1 & H1%rmatch_plus_word & Hm).
    apply rmatch_seq_inv in Hm as (s2 & H2%rmatch_char_inv & Hm).
    apply rmatch_seq_inv in Hm as (s3 & H3%rmatch_plus_word & Hm).
    apply rmatch_seq_inv in Hm as (s4 & H4%rmatch_char_inv & Hm).
    apply rmatch_seq_inv in Hm as (s5 & H5%rmatch_plus_word & Hm).
    assert (m_rest s5 = []) as Hend by (by inversion Hm).
    inversion H0 as [| | | | | | | |s' Hp| |]; subst. cbn in Hp. apply last_None in Hp as ->.
    destruct H1 as (a & Ha & Fa & Ea), H3 as (b & Hb & Fb & Eb), H5 as (c & Hc & Fc & Ec).
    exists a, b, c. split; [|by repeat constructor]. cbn in *. by rw Ea H2 Eb H4 Ec Hend app_nil_r.
  - intros (a & b & c & -> & Hw). exists [], (a ++ [64%N] ++ b ++ [46%N] ++ c). cbn.
    inversion Hw as [|? ? [Ha Fa] Hw1]; subst. inversion Hw1 as [|? ? [Hb Fb] Hw2]; subst.
    inversion Hw2 as [|? ? [Hc Fc] _]; subst.
    destruct (rmatch_word_plus addr_char None a (64%N :: b ++ 46%N :: c) [] Ha Fa) as [p1 M1].
    destruct (rmatch_word_plus addr_char (Some 64%N) b (46%N :: c) [] Hb Fb) as [p2 M2].
    destruct (rmatch_word_plus addr_char (Some 46%N) c [] [] Hc Fc) as [p3 M3]. rw app_nil_r in M3.
    eexists. split; [done|]. eapply M_seq; [by apply M_begin|]. eapply M_seq; [exact M1|].
    eapply M_seq; [by eapply M_cls|]. eapply M_seq; [exact M2|]. eapply M_seq; [by eapply M_cls|].
    eapply M_seq; [exact M3|]. by apply M_end.
Qed.

(** The pattern of the address fields accepts exactly one character @ with
    something before it and a dot with something on both sides after it, all
    without blanks and further @. *)
Theorem emailRegex_spec (s : jstr) : test emailRegex s = true ↔ address_shape s.
Proof. apply emailRegex_shape. Qed.

Section login_theorems.
Context `{!AppEnv} (redirectParam : option jstr).

(** [fetchMe] never throws and leaves a conflict alone. *)
Lemma fetchMe_keeps (w : world AuthState) :
  fst (fetchMe w) = inr tt ∧ sessionConflict (st (snd (fetchMe w))) = sessionConflict (st w).
Proof.
  unfold fetchMe, getAccessToken, hasSession, setAccessToken, setSessionHint. run_M.
  destruct (negb _ && negb _); [done|].
  pose proof (sf_state _ _ (session_frame_request (S:=AuthState) "/auth/me"
    {| o_method := "GET"; o_headers := []; o_body := None; o_params := None |} w)) as Hs.
  unfold api_get. destruct (request _ _ w) as [[e|u] w1]; cbn [snd] in Hs; [|by cbn; rw Hs].
  destruct (is_api_status e 401 || is_api_status e 403); cbn; [|by rw Hs].
  destruct (has_window (brw w1)); cbn; by rw Hs.
Qed.

Lemma handleConflictResolved_run (w : world LoginState) :
  let '(r, w') := handleConflictResolved redirectParam w in
  r = inr tt ∧ sessionConflict (auth (st w')) = None ∧ last (trace (brw w')) = Some (EPush (safeRedirect redirectParam)).
Proof.
  unfold handleConflictResolved, in_auth, clearSessionConflict. run_M. cbn.
  set (w1 := World _ _). destruct (fetchMe_keeps w1) as [Hr Hc].
  destruct (fetchMe w1) as [r w2]; cbn in *; subst r. cbn. by rw Hc last_snoc.
Qed.

Definition resolve_call (d : DialogState) (sid : jstr) (w : world LoginState) : (jserr + option json) * world LoginState :=
  api_post "/auth/login/resolve" (Some (resolve_body (d_pendingToken d) sid))
    (World (brw w) (with_dialog (fmap (set_resolving (Some sid))) (st w))).
Lemma resolve_call_state d sid w :
  st (snd (resolve_call d sid w)) = with_dialog (fmap (set_resolving (Some sid))) (st w).
Proof. exact (sf_state _ _ (session_frame_request _ _ _)). Qed.

Lemma revoke_failed_closes (err : jserr) (w : world LoginState) :
  (∀ m data, err ≠ ApiError m 409 data) →
  ∃ w' m, revoke_failed err w = (inr tt, w') ∧ sessionConflict (auth (st w')) = None ∧
    last (trace (brw w')) = Some (EToastError m).
Proof.
  intros Hne. unfold revoke_failed, handleConflictClose, in_auth, clearSessionConflict. run_M.
  destruct err as [m status data|m]; [destruct (Z.eqb_spec status 409) as [->|_]; [by edestruct Hne|];
    destruct (status =? 401)%Z|]; eexists _, _; (split_and!; [done|done|]); by rw last_snoc.
Qed.
Lemma prop_cases {S} v k (w : world S) : (∃ m, prop v k w = (inl (PlainError m), w)) ∨ (∃ x, prop v k w = (inr x, w)).
Proof. unfold prop. destruct v as [[]|]; eauto. Qed.
Lemma setSessionHint_run {S} (w : world S) : ∃ w', setSessionHint true w = (inr tt, w').
Proof. unfold setSessionHint. run_M. destruct (has_window _); eauto. Qed.
Lemma revoke_accept_cases (res : option json) (w : world LoginState) :
  (∃ m w', revoke_accept redirectParam res w = (inl (PlainError m), w')) ∨
  (∃ w', revoke_accept redirectParam res w = (inr tt, w') ∧ sessionConflict (auth (st w')) = None ∧
     last (trace (brw w')) = Some (EPush (safeRedirect redirectParam))).
Proof.
  unfold revoke_accept, mbind, M_bind.
  destruct (prop_cases res "tokens" w) as [[m ->]|[x ->]]; [left; eauto|].
  destruct (prop_cases x "access_token" w) as [[m ->]|[t ->]]; [left; eauto|].
  unfold setAccessToken, modify_browser. set (w2 := World _ _).
  destruct (setSessionHint_run w2) as [w3 ->].
  destruct (prop_cases res "user" w3) as [[m ->]|[u ->]]; [left; eauto|].
  right. pose proof (handleConflictResolved_run w3) as Hr.
  destruct (handleConflictResolved _ w3) as [r w']. exists w'. naive_solver.
Qed.

(** A choice in the dialog that is not answered with 409 ends the conflict:
    the handler does not throw, the dialog closes, and the page is left for
    the checked redirect or the failure is shown. *)
Theorem handleRevoke_ends (d : DialogState) (sid : jstr) (w : world LoginState) :
  (∀ m data, fst (resolve_call d sid w) ≠ inl (ApiError m 409 data)) →
  let '(r, w') := handleRevoke redirectParam d sid w in
  r = inr tt ∧ sessionConflict (auth (st w')) = None ∧ dialog (login_render (st w')) = None ∧
  (last (trace (brw w')) = Some (EPush (safeRedirect redirectParam)) ∨
   ∃ m, last (trace (brw w')) = Some (EToastError m)).
Proof.
  unfold handleRevoke. unfold try_finally at 1, try_catch at 1, modify, mbind, M_bind. cbn [brw st].
  change (api_post _ _ _) with (resolve_call d sid w).
  assert (Hend : ∀ err w1, (∀ m data, err ≠ ApiError m 409 data) →
    let '(r, w') := (let (r, w') := revoke_failed err w1 in
                     (r, World (brw w') (with_dialog (fmap (set_resolving None)) (st w')))) in
    r = inr tt ∧ sessionConflict (auth (st w')) = None ∧ dialog (login_render (st w')) = None ∧
    (last (trace (brw w')) = Some (EPush (safeRedirect redirectParam)) ∨
     ∃ m, last (trace (brw w')) = Some (EToastError m))).
  { intros err w1 Herr. destruct (revoke_failed_closes err w1 Herr) as (w' & m & -> & Hc & Ht).
    unfold login_render. cbn. rw Hc. cbn. split_and!; eauto. }
  destruct (resolve_call d sid w) as [[err|res] w1]; cbn [fst]; intros Hne.
  { apply Hend. intros m data ->. by apply (Hne m data). }
  destruct (revoke_accept_cases res w1) as [(m & w' & ->)|(w' & -> & Hc & Ht)]; [by apply Hend|].
  unfold login_render. cbn. rw Hc. cbn. split_and!; eauto.
Qed.

(** The answer 409 says that the sessions have changed and carries a new
    token and list, but the dialog drops them: once the handler has ended, the
    render that follows puts back the token and the list it was opened with. *)
Theorem handleRevoke_conflict_stale (d : DialogState) (sid m : jstr) (o : list (jstr * json)) (c : SessionConflictState)
    (w : world LoginState) :
  sessionConflict (auth (st w)) = Some c → is_Some (dialog (st w)) →
  fst (resolve_call d sid w) = inl (ApiError m 409 (Some (JObj o))) →
  let '(r, w') := handleRevoke redirectParam d sid w in
  r = inr tt ∧ dialog (login_render (st w')) = Some (dialog_mount c) ∧
  last (trace (brw w')) = Some (EToastError "Session list changed. Please choose again.").
Proof.
  intros Hc [d0 Hd] Hcall. unfold handleRevoke. unfold try_finally at 1, try_catch at 1, modify, mbind, M_bind. cbn [brw st].
  change (api_post _ _ _) with (resolve_call d sid w). pose proof (resolve_call_state d sid w) as Hst.
  destruct (resolve_call d sid w) as [r w1]. cbn [fst snd] in Hcall, Hst. subst r. unfold revoke_failed. run_M. cbn. rw last_snoc.
  split_and!; [done| |done]. unfold login_render. cbn. rw Hst. cbn. rw Hc Hd. cbn. f_equal.
  unfold dialog_render. cbn. case_bool_decide as E; [|done]. unfold dialog_mount. by rw E.
Qed.

(** A login attempt always ends with the form usable again and does not
    throw; the page is left only without a conflict, and then for the checked
    redirect; a failure is shown; and what was typed is kept. *)
Theorem handleSubmit_settles (s : LoginState) (w : world LoginState) :
  let '(r, w') := handleSubmit redirectParam s w in
  let '(lr, lw) := login (lg_email s) (lg_password s) (World (brw w) (auth (st w))) in
  r = inr tt ∧ lg_loading (st w') = false ∧ auth (st w') = st lw ∧
  lg_email (st w') = lg_email (st w) ∧ lg_password (st w') = lg_password (st w) ∧
  trace (brw w') = trace (brw lw) ++
    match lr, sessionConflict (st lw) with
    | inl err, _ => [EToastError (err_message err)]
    | inr _, Some _ => []
    | inr _, None => [EPush (safeRedirect redirectParam)]
    end.
Proof.
  unfold handleSubmit, in_auth. run_M. cbn.
  destruct (login _ _ _) as [[e|u] lw]; cbn; [done|]. destruct (sessionConflict (st lw)); cbn; [|done].
  by rw app_nil_r.
Qed.

(** Registration does not check its redirect: after a successful
    registration the page is sent to the parameter as it stands, also where
    the login page would not follow it. *)
Theorem register_redirect_unchecked (url : jstr) (s : RegisterState) (w : world RegisterState) :
  rg_password s = confirmPassword s → truthy url = true → startsWith url "/" = false →
  fst (register (rg_email s) (rg_password s) (displayName s) None (World (brw w) (rg_auth (st w)))) = inr tt →
  last (trace (brw (snd (register_submit (Some url) s w)))) = Some (EPush url) ∧ safeRedirect (Some url) = "/".
Proof.
  intros Hp Ht Hs Hr. unfold register_submit, rg_in_auth. rw Hp jeqb_refl. cbn [negb]. run_M. cbn [st brw rg_auth rg_with_loading]. rw -Hp.
  destruct (register _ _ _ _ _) as [r lw]; cbn in Hr; subst r. cbn. rw last_snoc Hs.
  destruct url; [done|]. done.
Qed.

(** The form for a new password calls the server exactly when the two
    entries agree and have eight characters; otherwise it only explains. *)
Theorem reset_guarded (token : jstr) (s : ResetState) (w : world ResetState) :
  if (rp_password s =?s rp_confirm s) && (8 <=? length (rp_password s))%nat
  then ∃ rest, sent_requests (snd (reset_submit token s w)) = sent_requests w ++
    build_request "/auth/reset-password" {| o_method := "POST"; o_headers := [];
      o_body := Some (JObj [(js "token", JStr token); (js "new_password", JStr (rp_password s))]); o_params := None |}
      (accessToken (brw w)) :: rest
  else ∃ m, reset_submit token s w = (inr tt, World (log_effect (EToastError m) (brw w)) (st w)).
Proof.
  unfold reset_submit. destruct (rp_password s =?s rp_confirm s); cbn [negb andb]; [|by eexists].
  rw Nat.ltb_antisym. destruct (8 <=? length (rp_password s))%nat; cbn [negb]; [|by eexists].
  run_M. unfold api_post, api_send.
  match goal with |- context [request ?p ?o ?x] => destruct (request_sends_first p o x) as [rest Hr]; exists rest end.
  destruct (request _ _ _) as [[e|j] w1]; cbn [snd] in Hr; unfold sent_requests in *; cbn [snd brw trace log_effect];
    rw ?fetches_app ?app_nil_r; exact Hr.
Qed.
End login_theorems.

(** ** Instances *)

Definition old_conflict : SessionConflictState := {|
  pendingToken := Some (JStr "pt1"); conflictSessions := Some (JArr []); limit := Some (JNum 3) |}.
Definition in_conflict : LoginState := {|
  lg_email := "a@b.test"; lg_emailError := []; lg_password := "pw"; lg_showPassword := false; lg_loading := false;
  ssoLoading := None; auth := {| user := None; loading := false; sessionConflict := Some old_conflict |};
  sessionStorage := ∅; dialog := Some (dialog_mount old_conflict) |}.
Definition conflict_world (answers : list fetch_result) : world LoginState :=
  World (browser_on ∅ "/login" answers) in_conflict.

Lemma handleRevoke_ends_witness :
  sessionConflict (auth (st (snd (handleRevoke None (dialog_mount old_conflict) "s1"
    (conflict_world [answer 200 login_answer]) (H := default_env))))) = None.
Proof.
  pose proof (handleRevoke_ends None (dialog_mount old_conflict) "s1" (conflict_world [answer 200 login_answer])
    ltac:(intros m data; vm_compute; discriminate) (H := default_env)) as Hx.
  destruct (handleRevoke None _ "s1" _) as [r w']. exact (proj1 (proj2 Hx)).
Defined.

(** The server offers the token [pt2]; the dialog goes on with [pt1]. *)
Definition changed_answer : list (jstr * json) := [(js "pending_token", JStr "pt2"); (js "sessions", JArr [JNull])].
Lemma handleRevoke_conflict_stale_witness :
  d_pendingToken <$> dialog (login_render (st (snd (handleRevoke None (dialog_mount old_conflict) "s1"
    (conflict_world [answer 409 (JObj changed_answer)]) (H := default_env))))) = Some (Some (JStr "pt1")).
Proof.
  pose proof (handleRevoke_conflict_stale None (dialog_mount old_conflict) "s1" [] changed_answer old_conflict
    (conflict_world [answer 409 (JObj changed_answer)]) eq_refl ltac:(by eexists) ltac:(vm_compute; reflexivity)
    (H := default_env)) as Hx.
  destruct (handleRevoke None _ "s1" _) as [r w']. rewrite (proj1 (proj2 Hx)). reflexivity.
Defined.

Definition filled_in : RegisterState := {|
  rg_email := "a@b.test"; rg_emailError := []; rg_password := "pw"; confirmPassword := "pw"; confirmTouched := true;
  rg_showPassword := false; rg_showConfirm := false; displayName := "A"; agreed := true; rg_loading := false;
  rg_auth := auth_init |}.
Lemma register_redirect_unchecked_witness :
  last (trace (brw (snd (register_submit (Some (js "https://evil.test")) filled_in
    (World (browser_on ∅ "/register" [answer 200 login_answer]) filled_in) (H := default_env))))) =
  Some (EPush (js "https://evil.test")).
Proof.
  refine (proj1 (register_redirect_unchecked (js "https://evil.test") filled_in
    (World (browser_on ∅ "/register" [answer 200 login_answer]) filled_in) eq_refl eq_refl eq_refl _ (H := default_env))).
  vm_compute. reflexivity.
Defined.
