(* ===== verification/UsersTab.v ===== *)
(** * Users, members and invitations:
    [web/src/components/settings/unified-users-tab.tsx]

    The list that merges platform users with the members of an organisation,
    the dialog of one user, the dialogs that invite one or many people, and
    the rows of pending invitations. *)

From S2P Require Import Prelude Regex Browser Types ApiClient React OrgStore Hooks ApiKeys RolesTab InboxPage SignIn.
Import Hooks.Small.

(** ** The merged list *)

Record MergedUser := {
  mu : User;
  org_role : option jstr;
  membership_id : option jstr;
  member_created_at : option jstr
}.
Definition role_set (u : MergedUser) : bool := otruthy (org_role u).

Definition memberMap (members : list Membership) : list (jstr * Membership) :=
  fold_left (λ m x, map_set m (Membership_user_id x) x) members [].

Definition with_last_login (u : User) (l : option jstr) : User := {|
  User_id := User_id u; User_email := User_email u; User_display_name := User_display_name u;
  User_sso_provider := User_sso_provider u; User_is_system_admin := User_is_system_admin u;
  User_email_verified := User_email_verified u; User_timezone := User_timezone u;
  User_date_format := User_date_format u; User_time_format := User_time_format u;
  User_auth_method_lock := User_auth_method_lock u; User_max_sessions := User_max_sessions u;
  User_last_login_at := l; User_created_at := User_created_at u; User_updated_at := User_updated_at u |}.
Definition merge_user (m : option Membership) (u : User) : MergedUser := {|
  mu := with_last_login u (if otruthy (User_last_login_at u) then User_last_login_at u else m ≫= Membership_last_login_at);
  org_role := Membership_role <$> m;
  membership_id := Membership_id <$> m;
  member_created_at := Membership_created_at <$> m |}.
Definition member_as_user (m : Membership) : MergedUser := {|
  mu := {| User_id := Membership_user_id m; User_email := default [] (Membership_email m);
           User_display_name := default [] (Membership_display_name m); User_sso_provider := None;
           User_is_system_admin := false; User_email_verified := true; User_timezone := None; User_date_format := None;
           User_time_format := None; User_auth_method_lock := None; User_max_sessions := None;
           User_last_login_at := Membership_last_login_at m; User_created_at := Membership_created_at m;
           User_updated_at := Membership_created_at m |};
  org_role := Some (Membership_role m);
  membership_id := Some (Membership_id m);
  member_created_at := Some (Membership_created_at m) |}.

(** [users] and [members] are the loaded pages of the two lists. *)
Definition allUsers (isAdmin : bool) (users : list User) (members : list Membership) : list MergedUser :=
  if isAdmin then (λ u, merge_user (map_get (memberMap members) (User_id u)) u) <$> users
  else member_as_user <$> members.

Inductive user_filter := FAll | FMembers | FNonMembers | FUnverified | FAdmin.
#[export] Instance user_filter_eq_dec : EqDecision user_filter.
Proof. solve_decision. Defined.

Record UsersState := { u_page : Z; membersPage : Z; u_search : jstr; u_filter : user_filter }.
Definition users_init : UsersState := {| u_page := 1; membersPage := 1; u_search := []; u_filter := FAll |}.

Definition matchesFilter (f : user_filter) (u : MergedUser) : bool :=
  match f with
  | FAll => true
  | FMembers => role_set u
  | FNonMembers => negb (role_set u)
  | FUnverified => negb (User_email_verified (mu u))
  | FAdmin => User_is_system_admin (mu u)
  end.

Section users.
Context `{!AppEnv, !JSRuntime} (orgId : jstr).

Definition matchesSearch (search : jstr) (u : MergedUser) : bool :=
  let q := toLowerCase search in
  negb (truthy q) || includes (toLowerCase (User_email (mu u))) q ||
  includes (toLowerCase (User_display_name (mu u))) q || includes (toLowerCase (User_id (mu u))) q.
Definition filtered (s : UsersState) (l : list MergedUser) : list MergedUser :=
  List.filter (λ u, matchesSearch (u_search s) u && matchesFilter (u_filter s) u) l.

Definition memberCount (l : list MergedUser) : nat := countb role_set l.
Definition nonMemberCount (l : list MergedUser) : nat := countb (λ u, negb (role_set u)) l.
Definition unverifiedCount (l : list MergedUser) : nat := countb (λ u, negb (User_email_verified (mu u))) l.

Definition users_timeAgo (date : jstr) (now : Z) : jstr :=
  match date_ms date with
  | None => "NaNd ago"
  | Some t =>
      let mins := ((now - t) / 60000)%Z in
      if (mins <? 60)%Z then show mins ++ "m ago"
      else let hrs := (mins / 60)%Z in
        if (hrs <? 24)%Z then show hrs ++ "h ago" else show (hrs / 24)%Z ++ "d ago"
  end.

(** *** What can be done on the page

    The number of pages of the users' list, and of the members' list. *)
Inductive users_event := SetPage (n : Z) | SetMembersPage (n : Z) | SetSearch (v : jstr) | ClickFilter (f : user_filter) | ClearAll.
Definition users_enabled (isAdmin : bool) (userPages memberPages : Z) (e : users_event) : bool :=
  match e with
  | SetPage _ => isAdmin && (1 <? userPages)%Z
  | SetMembersPage _ => negb isAdmin && (1 <? memberPages)%Z
  | ClickFilter FNonMembers | ClickFilter FUnverified => isAdmin
  | ClickFilter FAdmin => false                      (* no control sets this filter *)
  | _ => true
  end.
(** The summary's buttons toggle their filter; the first one sets it to all. *)
Definition users_update (e : users_event) (s : UsersState) : UsersState :=
  match e with
  | SetPage n => {| u_page := n; membersPage := membersPage s; u_search := u_search s; u_filter := u_filter s |}
  | SetMembersPage n => {| u_page := u_page s; membersPage := n; u_search := u_search s; u_filter := u_filter s |}
  | SetSearch v => {| u_page := u_page s; membersPage := membersPage s; u_search := v; u_filter := u_filter s |}
  | ClickFilter f => {| u_page := u_page s; membersPage := membersPage s; u_search := u_search s;
                        u_filter := if bool_decide (u_filter s = f) then FAll else f |}
  | ClearAll => {| u_page := u_page s; membersPage := membersPage s; u_search := []; u_filter := FAll |}
  end.
Inductive users_step (isAdmin : bool) : UsersState → UsersState → Prop :=
| users_step_intro userPages memberPages e s :
    users_enabled isAdmin userPages memberPages e = true → users_step isAdmin s (users_update e s).

(** The request for the members' page. *)
Definition load_members {S} (s : UsersState) : M S (option json) :=
  api_get ("/orgs/" ++ orgId ++ "/members") (Some [(js "page", show (membersPage s)); (js "per_page", js "100")]).

(** *** Actions of a row *)

Definition changeRole : mutation unit (jstr * jstr) := {|
  mutationFn '(userId, role) := api_patch ("/orgs/" ++ orgId ++ "/members/" ++ userId) (Some (JObj [(js "role", JStr role)]));
  onSuccess _ := emit (EInvalidate "org-members");; emit (EToastSuccess "Role updated");
  onError := toast_error
|}.
(** Revoking the sessions may fail, silently. *)
Definition deactivate_calls {S} (userId : jstr) : M S (option json) :=
  api_post ("/orgs/" ++ orgId ++ "/members/" ++ userId ++ "/deactivate") None;;
  try_catch (api_del ("/admin/users/" ++ userId ++ "/sessions") None;; mret None) (λ _, mret None).
Definition deactivateUser : mutation unit jstr := {|
  mutationFn := deactivate_calls;
  onSuccess _ := emit (EInvalidate "org-members");; emit (EInvalidate "admin-users");; emit (EToastSuccess "User deactivated");
  onError := toast_error
|}.
Definition deleteUser : mutation unit jstr := {|
  mutationFn userId := api_del ("/admin/users/" ++ userId) None;
  onSuccess _ := emit (EInvalidate "admin-users");; emit (EInvalidate "org-members");; emit (EToastSuccess "User deleted");
  onError := toast_error
|}.
Definition forceLogout : mutation unit jstr := {|
  mutationFn userId := api_del ("/admin/users/" ++ userId ++ "/sessions") None;
  onSuccess _ := emit (EToastSuccess "All sessions revoked");
  onError := toast_error
|}.

Inductive role_cell := RoleSelect (value : jstr) (options : list (jstr * jstr)) | RoleBadge (r : jstr) | NotAMember.
Record user_row := {
  ur_initial : jstr; ur_name : jstr; ur_you : bool; ur_admin : bool; ur_role : role_cell;
  ur_auth : option jstr; ur_status : option bool; ur_active : jstr; ur_joined : jstr;
  ur_deactivate : bool; ur_logout : bool; ur_delete : bool
}.
Definition users_row (now : Z) (roles : Roles) (me : option jstr) (isAdmin canManageMembers canInvite : bool)
    (u : MergedUser) : user_row :=
  let isYou := bool_decide (me = Some (User_id (mu u))) in {|
    ur_initial := toUpperCase (take 1 (jor (User_display_name (mu u)) (User_email (mu u))));
    ur_name := jor (User_display_name (mu u)) [8212%N];
    ur_you := isYou;
    ur_admin := User_is_system_admin (mu u);
    ur_role := if role_set u then
                 if canManageMembers
                 then RoleSelect (default [] (org_role u)) ((λ r, (RoleInfo_value r, RoleInfo_label r)) <$> orgRoles roles)
                 else RoleBadge (default [] (org_role u))
               else NotAMember;
    ur_auth := if isAdmin then Some (default (js "Password") (User_sso_provider (mu u))) else None;
    ur_status := if isAdmin then Some (User_email_verified (mu u)) else None;
    ur_active := match User_last_login_at (mu u) with Some ((_ :: _) as d) => users_timeAgo d now | _ => "Never" end;
    ur_joined := toLocaleDateString (User_created_at (mu u));
    ur_deactivate := negb isYou && role_set u && canInvite;
    ur_logout := negb isYou && isAdmin;
    ur_delete := negb isYou && isAdmin |}.

End users.

(** ** The dialog of a user *)

Record UserDetail := {
  ud_open : bool;
  ud_displayName : jstr;
  isAdminFlag : bool;
  verified : bool;
  ud_timezone : jstr;
  ud_dateFormat : jstr;
  ud_timeFormat : jstr;
  ud_saving : bool;
  ud_copied : bool;
  authMethodLock : jstr;
  migratePasswordOpen : bool;
  migratePassword : jstr;
  migrating : bool;
  maxSessions : jstr
}.
Definition lock_of (u : User) : jstr := default (js "any") (User_auth_method_lock u).
(** [u.max_sessions != null ? String(u.max_sessions) : ""]. *)
Definition max_sessions_of (u : User) : jstr := from_option show [] (mjoin (User_max_sessions u)).
(** [onOpenChange]: opening reads the user again. *)
Definition detail_onOpenChange (u : User) (v : bool) (s : UserDetail) : UserDetail :=
  if v then {|
    ud_open := true; ud_displayName := User_display_name u; isAdminFlag := User_is_system_admin u;
    verified := User_email_verified u; ud_timezone := default [] (User_timezone u);
    ud_dateFormat := default [] (User_date_format u); ud_timeFormat := default [] (User_time_format u);
    ud_saving := ud_saving s; ud_copied := false; authMethodLock := lock_of u; migratePasswordOpen := false;
    migratePassword := []; migrating := migrating s; maxSessions := max_sessions_of u |}
  else {|
    ud_open := false; ud_displayName := ud_displayName s; isAdminFlag := isAdminFlag s; verified := verified s;
    ud_timezone := ud_timezone s; ud_dateFormat := ud_dateFormat s; ud_timeFormat := ud_timeFormat s;
    ud_saving := ud_saving s; ud_copied := ud_copied s; authMethodLock := authMethodLock s;
    migratePasswordOpen := migratePasswordOpen s; migratePassword := migratePassword s; migrating := migrating s;
    maxSessions := maxSessions s |}.

Definition ud_dirty (u : User) (s : UserDetail) : bool :=
  negb (ud_displayName s =?s User_display_name u) || negb (eqb (isAdminFlag s) (User_is_system_admin u)) ||
  negb (eqb (verified s) (User_email_verified u)) || negb (ud_timezone s =?s default [] (User_timezone u)) ||
  negb (ud_dateFormat s =?s default [] (User_date_format u)) || negb (ud_timeFormat s =?s default [] (User_time_format u)) ||
  negb (authMethodLock s =?s lock_of u) || negb (maxSessions s =?s max_sessions_of u).

Section user_detail.
Context `{!AppEnv, !JSRuntime} (orgId : jstr).
(** [Number(s)] where [s] is not a plain decimal integer. *)
Context (other_number : jstr → json).
Definition Number (s : jstr) : json :=
  if truthy s && forallb is_digit s then JNum (Z.of_N (digits_value s)) else other_number s.

Definition set_detail_open (b : bool) (s : UserDetail) : UserDetail := {|
  ud_open := b; ud_displayName := ud_displayName s; isAdminFlag := isAdminFlag s; verified := verified s;
  ud_timezone := ud_timezone s; ud_dateFormat := ud_dateFormat s; ud_timeFormat := ud_timeFormat s;
  ud_saving := ud_saving s; ud_copied := ud_copied s; authMethodLock := authMethodLock s;
  migratePasswordOpen := migratePasswordOpen s; migratePassword := migratePassword s; migrating := migrating s;
  maxSessions := maxSessions s |}.
Definition set_detail_saving (b : bool) (s : UserDetail) : UserDetail := {|
  ud_open := ud_open s; ud_displayName := ud_displayName s; isAdminFlag := isAdminFlag s; verified := verified s;
  ud_timezone := ud_timezone s; ud_dateFormat := ud_dateFormat s; ud_timeFormat := ud_timeFormat s;
  ud_saving := b; ud_copied := ud_copied s; authMethodLock := authMethodLock s;
  migratePasswordOpen := migratePasswordOpen s; migratePassword := migratePassword s; migrating := migrating s;
  maxSessions := maxSessions s |}.
Definition set_detail_migrating (b : bool) (s : UserDetail) : UserDetail := {|
  ud_open := ud_open s; ud_displayName := ud_displayName s; isAdminFlag := isAdminFlag s; verified := verified s;
  ud_timezone := ud_timezone s; ud_dateFormat := ud_dateFormat s; ud_timeFormat := ud_timeFormat s;
  ud_saving := ud_saving s; ud_copied := ud_copied s; authMethodLock := authMethodLock s;
  migratePasswordOpen := migratePasswordOpen s; migratePassword := migratePassword s; migrating := b;
  maxSessions := maxSessions s |}.
Definition set_detail_migratePassword (o : bool) (p : jstr) (s : UserDetail) : UserDetail := {|
  ud_open := ud_open s; ud_displayName := ud_displayName s; isAdminFlag := isAdminFlag s; verified := verified s;
  ud_timezone := ud_timezone s; ud_dateFormat := ud_dateFormat s; ud_timeFormat := ud_timeFormat s;
  ud_saving := ud_saving s; ud_copied := ud_copied s; authMethodLock := authMethodLock s;
  migratePasswordOpen := o; migratePassword := p; migrating := migrating s;
  maxSessions := maxSessions s |}.

(** The fields [save] sends: [undefined] ones are left out of the JSON. *)
Definition admin_patch (u : User) (s : UserDetail) : list (jstr * json) :=
  (if negb (ud_displayName s =?s User_display_name u) then [(js "display_name", JStr (ud_displayName s))] else []) ++
  (if negb (eqb (isAdminFlag s) (User_is_system_admin u)) then [(js "is_system_admin", JBool (isAdminFlag s))] else []) ++
  (if negb (eqb (verified s) (User_email_verified u)) then [(js "email_verified", JBool (verified s))] else []) ++
  (if negb (authMethodLock s =?s lock_of u)
   then [(js "auth_method_lock", if authMethodLock s =?s "any" then JNull else JStr (authMethodLock s))] else []) ++
  (if negb (maxSessions s =?s max_sessions_of u)
   then [(js "max_sessions", if truthy (maxSessions s) then Number (maxSessions s) else JNull)] else []).
Definition me_patch (u : User) (s : UserDetail) : list (jstr * json) :=
  (if negb (ud_displayName s =?s User_display_name u) then [(js "display_name", JStr (ud_displayName s))] else []) ++
  (if negb (ud_timezone s =?s default [] (User_timezone u)) then [(js "timezone", JStr (ud_timezone s))] else []) ++
  (if negb (ud_dateFormat s =?s default [] (User_date_format u)) then [(js "date_format", JStr (ud_dateFormat s))] else []) ++
  (if negb (ud_timeFormat s =?s default [] (User_time_format u)) then [(js "time_format", JStr (ud_timeFormat s))] else []).
Definition save_call {S} (isAdmin : bool) (u : User) (s : UserDetail) : M S (option json) :=
  if isAdmin then api_patch ("/admin/users/" ++ User_id u) (Some (JObj (admin_patch u s)))
  else api_patch "/auth/me" (Some (JObj (me_patch u s))).
Definition user_save (isAdmin : bool) (u : User) (closure : UserDetail) : M UserDetail unit :=
  modify (set_detail_saving true);;
  try_finally
    (try_catch
      (save_call isAdmin u closure;;
       emit (EInvalidate "admin-users");; emit (EInvalidate "org-members");;
       emit (EToastSuccess "User updated");;
       modify (set_detail_open false))
      toast_error)
    (modify (set_detail_saving false)).

Definition user_name (u : User) : jstr := jor (User_display_name u) (User_email u).
(** The actions of the dialog that end it: a call, two lists to load again, a
    message. *)
Definition closing_action (call : M UserDetail (option json)) (k1 k2 message : jstr) : M UserDetail unit :=
  try_catch
    (call;; emit (EInvalidate k1);; emit (EInvalidate k2);; emit (EToastSuccess message);; modify (set_detail_open false))
    toast_error.
Definition addToOrg (u : User) : M UserDetail unit :=
  closing_action (api_post ("/orgs/" ++ orgId ++ "/members/add")
      (Some (JObj [(js "user_id", JStr (User_id u)); (js "role", JStr "member")])))
    "org-members" "admin-users" (user_name u ++ " added to organization").
Definition deactivateFromOrg (u : User) : M UserDetail unit :=
  closing_action (deactivate_calls orgId (User_id u)) "org-members" "admin-users" (user_name u ++ " deactivated").
Definition forceLogoutUser (u : User) : M UserDetail unit :=
  try_catch
    (api_del ("/admin/users/" ++ User_id u ++ "/sessions") None;; emit (EInvalidate "admin-users");;
     emit (EToastSuccess ("All sessions revoked for " ++ user_name u)))
    toast_error.
Definition detail_deleteUser (u : User) : M UserDetail unit :=
  closing_action (api_del ("/admin/users/" ++ User_id u) None) "admin-users" "org-members" (User_email u ++ " deleted").
Definition migrateToSSO (u : User) : M UserDetail unit :=
  modify (set_detail_migrating true);;
  try_finally
    (closing_action (api_post ("/admin/users/" ++ User_id u ++ "/migrate-auth") (Some (JObj [(js "target", JStr "sso")])))
       "admin-users" "org-members" (user_name u ++ " migrated to SSO"))
    (modify (set_detail_migrating false)).
Definition migrateToPassword (u : User) (closure : UserDetail) : M UserDetail unit :=
  if negb (truthy (migratePassword closure)) then mret tt
  else
    modify (set_detail_migrating true);;
    try_finally
      (try_catch
        (api_post ("/admin/users/" ++ User_id u ++ "/migrate-auth")
           (Some (JObj [(js "target", JStr "password"); (js "new_password", JStr (migratePassword closure))]));;
         emit (EInvalidate "admin-users");; emit (EInvalidate "org-members");;
         emit (EToastSuccess (user_name u ++ " migrated to password auth"));;
         modify (set_detail_migratePassword false []);;
         modify (set_detail_open false))
        toast_error)
      (modify (set_detail_migrating false)).
Definition copyId (u : User) : M UserDetail unit :=
  emit (EClipboard (User_id u));;
  modify (λ s, {| ud_open := ud_open s; ud_displayName := ud_displayName s; isAdminFlag := isAdminFlag s; verified := verified s;
    ud_timezone := ud_timezone s; ud_dateFormat := ud_dateFormat s; ud_timeFormat := ud_timeFormat s;
    ud_saving := ud_saving s; ud_copied := true; authMethodLock := authMethodLock s;
    migratePasswordOpen := migratePasswordOpen s; migratePassword := migratePassword s; migrating := migrating s;
    maxSessions := maxSessions s |});;
  emit (ETimeout 2000).

(** The parts of the dialog that depend on who looks at whom. *)
Record detail_view := {
  dv_badges : list jstr;
  dv_lock : jstr;
  dv_add : bool;
  dv_deactivate : bool;
  dv_formats : bool;
  dv_admin_controls : bool;
  dv_admin_switch_disabled : bool;
  dv_danger : bool;
  dv_save : option (jstr * bool)
}.
Definition UserDetailDialog (u : MergedUser) (isYou isAdmin : bool) (s : UserDetail) : detail_view := {|
  dv_badges :=
    [if role_set u then default [] (org_role u) else js "Not a member"] ++
    (if User_is_system_admin (mu u) then [js "System Admin"] else []) ++
    [if User_email_verified (mu u) then js "Verified" else js "Unverified"; default (js "Password") (User_sso_provider (mu u))] ++
    (match User_auth_method_lock (mu u) with
     | Some ((_ :: _) as l) => if l =?s "any" then [] else [if l =?s "sso" then js "SSO Locked" else js "Password Locked"]
     | _ => []
     end) ++
    (if isYou then [js "You"] else []);
  dv_lock := if bool_decide (User_auth_method_lock (mu u) = Some (js "sso")) then "SSO Only"
             else if bool_decide (User_auth_method_lock (mu u) = Some (js "password")) then "Password Only" else "Any Method";
  dv_add := negb (role_set u);
  dv_deactivate := role_set u && negb isYou;
  dv_formats := isAdmin || isYou;
  dv_admin_controls := isAdmin;
  dv_admin_switch_disabled := isYou;
  dv_danger := isAdmin && negb isYou;
  dv_save := if ud_dirty (mu u) s
             then Some (if ud_saving s then "Saving" ++ ellipsis else js "Save Changes", ud_saving s) else None |}.

End user_detail.

(** ** Invitations *)

(** What the two dialogs share: the role, the allowed ways to sign in and the
    teams. *)
Record TeamAssignmentRow := { ta_team_id : jstr; ta_team_role : jstr }.
Record InviteForm := {
  if_role : jstr;
  authAny : bool;
  authPassword : bool;
  authSSO : list (jstr * bool);
  teamAssignments : list TeamAssignmentRow
}.
Definition form_init : InviteForm :=
  {| if_role := "member"; authAny := true; authPassword := false; authSSO := []; teamAssignments := [] |}.

Definition buildAllowedAuth (ssoProviders : list SSOStatusProvider) (f : InviteForm) : list jstr :=
  if authAny f then [js "any"]
  else
    let methods :=
      (if authPassword f then [js "password"] else []) ++
      ((λ p, "sso:" ++ sp_name p) <$> List.filter (λ p, default false (map_get (authSSO f) (sp_name p))) ssoProviders) in
    if (0 <? length methods)%nat then methods else [js "any"].

Definition with_teams (l : list TeamAssignmentRow) (f : InviteForm) : InviteForm :=
  {| if_role := if_role f; authAny := authAny f; authPassword := authPassword f; authSSO := authSSO f; teamAssignments := l |}.
Definition used_teams (f : InviteForm) : list jstr := ta_team_id <$> teamAssignments f.
Definition addTeamAssignment (teams : list Team) (f : InviteForm) : InviteForm :=
  match List.find (λ t, negb (bool_decide (Team_id t ∈ used_teams f))) teams with
  | Some available => with_teams (teamAssignments f ++ [{| ta_team_id := Team_id available; ta_team_role := "member" |}]) f
  | None => f
  end.
Fixpoint remove_nth {A} (i : nat) (l : list A) : list A :=
  match l, i with
  | [], _ => []
  | _ :: t, O => t
  | x :: t, S i' => x :: remove_nth i' t
  end.
Definition removeTeamAssignment (i : nat) (f : InviteForm) : InviteForm := with_teams (remove_nth i (teamAssignments f)) f.
Inductive assignment_field := TeamId | TeamRole.
Definition set_field (fld : assignment_field) (v : jstr) (r : TeamAssignmentRow) : TeamAssignmentRow :=
  match fld with
  | TeamId => {| ta_team_id := v; ta_team_role := ta_team_role r |}
  | TeamRole => {| ta_team_id := ta_team_id r; ta_team_role := v |}
  end.
Definition updateTeamAssignment (i : nat) (fld : assignment_field) (v : jstr) (f : InviteForm) : InviteForm :=
  with_teams (alter (set_field fld v) i (teamAssignments f)) f.
(** The teams the select of a row offers. *)
Definition team_options (teams : list Team) (f : InviteForm) (r : TeamAssignmentRow) : list Team :=
  List.filter (λ t, (Team_id t =?s ta_team_id r) || negb (bool_decide (Team_id t ∈ used_teams f))) teams.
Definition canAddTeam (teams : list Team) (f : InviteForm) : bool :=
  (0 <? length teams)%nat && (length (teamAssignments f) <? length teams)%nat.

Inductive form_event :=
| PickRole (r : jstr)
| SwitchAny (v : bool)
| SwitchPassword (v : bool)
| SwitchSSO (name : jstr) (v : bool)
| AddTeam
| RemoveTeam (i : nat)
| PickTeam (i : nat) (id : jstr)
| PickTeamRole (i : nat) (r : jstr).
(** The controls: the switches of single methods are disabled under "any". *)
Definition form_enabled (teams : list Team) (ssoProviders : list SSOStatusProvider) (f : InviteForm) (e : form_event) : bool :=
  match e with
  | SwitchPassword _ => negb (authAny f)
  | SwitchSSO name _ => negb (authAny f) && bool_decide (name ∈ sp_name <$> ssoProviders)
  | AddTeam => canAddTeam teams f
  | RemoveTeam i | PickTeamRole i _ => (i <? length (teamAssignments f))%nat
  | PickTeam i id => match teamAssignments f !! i with
                     | Some r => bool_decide (id ∈ Team_id <$> team_options teams f r)
                     | None => false
                     end
  | _ => true
  end.
Definition form_update (teams : list Team) (e : form_event) (f : InviteForm) : InviteForm :=
  match e with
  | PickRole r => {| if_role := r; authAny := authAny f; authPassword := authPassword f; authSSO := authSSO f;
                     teamAssignments := teamAssignments f |}
  | SwitchAny v => {| if_role := if_role f; authAny := v; authPassword := if v then false else authPassword f;
                      authSSO := if v then [] else authSSO f; teamAssignments := teamAssignments f |}
  | SwitchPassword v => {| if_role := if_role f; authAny := authAny f; authPassword := v; authSSO := authSSO f;
                           teamAssignments := teamAssignments f |}
  | SwitchSSO name v => {| if_role := if_role f; authAny := authAny f; authPassword := authPassword f;
                           authSSO := map_set (authSSO f) name v; teamAssignments := teamAssignments f |}
  | AddTeam => addTeamAssignment teams f
  | RemoveTeam i => removeTeamAssignment i f
  | PickTeam i id => updateTeamAssignment i TeamId id f
  | PickTeamRole i r => updateTeamAssignment i TeamRole r f
  end.
Inductive form_step (teams : list Team) (ssoProviders : list SSOStatusProvider) : InviteForm → InviteForm → Prop :=
| form_step_intro e f : form_enabled teams ssoProviders f e = true → form_step teams ssoProviders f (form_update teams e f).

(** [/^[^\s@]+@L(\.L)*\.[a-zA-Z]{2,}$/] with
    [L = [a-zA-Z0-9]([a-zA-Z0-9-]*[a-zA-Z0-9])?]. *)
Definition host_label : re :=
  RSeq (RCls is_alnum) (ropt (RSeq (RStar (RCls (λ c, is_alnum c || (c =? 45)%N))) (RCls is_alnum))).
Definition invite_pattern : re :=
  rseq [RBegin; rplus (RCls addr_char); rchar 64; host_label; RStar (RSeq (rchar 46) host_label); rchar 46;
        RCls is_alpha; rplus (RCls is_alpha); REnd].
Definition emailValid (email : jstr) : bool := test invite_pattern email.

Section invites.
Context `{!AppEnv, !JSRuntime} (orgId : jstr).

Definition assignments_json (f : InviteForm) : list (jstr * json) :=
  if (0 <? length (teamAssignments f))%nat
  then [(js "team_assignments", JArr ((λ ta, JObj [(js "team_id", JStr (ta_team_id ta)); (js "team_role", JStr (ta_team_role ta))])
                                        <$> teamAssignments f))]
  else [].

(** *** One invitation *)
Record InviteDialog := { iv_email : jstr; iv_form : InviteForm; iv_open : bool; iv_sending : bool }.
Definition iv_reset (s : InviteDialog) : InviteDialog :=
  {| iv_email := []; iv_form := form_init; iv_open := iv_open s; iv_sending := iv_sending s |}.
Definition iv_set_open (b : bool) (s : InviteDialog) : InviteDialog :=
  {| iv_email := iv_email s; iv_form := iv_form s; iv_open := b; iv_sending := iv_sending s |}.
Definition iv_set_sending (b : bool) (s : InviteDialog) : InviteDialog :=
  {| iv_email := iv_email s; iv_form := iv_form s; iv_open := iv_open s; iv_sending := b |}.
Definition invite_onOpenChange (v : bool) (s : InviteDialog) : InviteDialog :=
  let s' := iv_set_open v s in if v then s' else iv_reset s'.
Definition invite_payload (ssoProviders : list SSOStatusProvider) (s : InviteDialog) : json :=
  JObj ([(js "email", JStr (iv_email s)); (js "org_role", JStr (if_role (iv_form s)));
         (js "allowed_auth", jstrs (buildAllowedAuth ssoProviders (iv_form s)))] ++ assignments_json (iv_form s)).
Definition invite (ssoProviders : list SSOStatusProvider) (closure : InviteDialog) : M InviteDialog unit :=
  if negb (truthy (iv_email closure)) || negb (emailValid (iv_email closure)) then mret tt
  else
    modify (iv_set_sending true);;
    try_finally
      (try_catch
        (api_post ("/orgs/" ++ orgId ++ "/invites") (Some (invite_payload ssoProviders closure));;
         emit (EToastSuccess ("Invite sent to " ++ iv_email closure));;
         emit (EInvalidate "org-invites");;
         modify (iv_set_open false);;
         modify iv_reset)
        toast_error)
      (modify (iv_set_sending false)).
Definition invite_keydown (ssoProviders : list SSOStatusProvider) (key : jstr) (closure : InviteDialog) : M InviteDialog unit :=
  when (key =?s "Enter") (invite ssoProviders closure).
Definition invite_disabled (s : InviteDialog) : bool :=
  negb (truthy (iv_email s)) || negb (emailValid (iv_email s)) || iv_sending s.

(** *** Many invitations *)

Definition is_sep (c : N) : bool := bool_decide (c ∈ [10; 44; 59]%N).
(** [s.split(/[\n,;]+/)]. *)
Fixpoint split_seps (after_sep : bool) (s : jstr) : list jstr :=
  match s with
  | [] => [[]]
  | c :: t =>
      if is_sep c then (if after_sep then split_seps true t else [] :: split_seps true t)
      else match split_seps false t with
           | w :: ws => (c :: w) :: ws
           | [] => [[c]]
           end
  end.
Definition parseEmails (emailsText : jstr) : list jstr := List.filter truthy (trim <$> split_seps false emailsText).

Record BulkInvite := { bi_open : bool; emailsText : jstr; bi_form : InviteForm; bi_sending : bool; bi_result : option json }.
Definition bulk_reset (s : BulkInvite) : BulkInvite :=
  {| bi_open := bi_open s; emailsText := []; bi_form := form_init; bi_sending := bi_sending s; bi_result := None |}.
Definition bulk_onOpenChange (v : bool) (s : BulkInvite) : BulkInvite :=
  let s' := {| bi_open := v; emailsText := emailsText s; bi_form := bi_form s; bi_sending := bi_sending s; bi_result := bi_result s |} in
  if v then s' else bulk_reset s'.
Definition bulk_set (sending : bool) (result : option json) (s : BulkInvite) : BulkInvite :=
  {| bi_open := bi_open s; emailsText := emailsText s; bi_form := bi_form s; bi_sending := sending; bi_result := result |}.
Definition bulk_payload (ssoProviders : list SSOStatusProvider) (s : BulkInvite) : json :=
  JObj ([(js "emails", jstrs (parseEmails (emailsText s))); (js "org_role", JStr (if_role (bi_form s)));
         (js "allowed_auth", jstrs (buildAllowedAuth ssoProviders (bi_form s)))] ++ assignments_json (bi_form s)).
(** [res.created] is a number of the answer. *)
Definition sendBulk (ssoProviders : list SSOStatusProvider) (closure : BulkInvite) : M BulkInvite unit :=
  if (length (parseEmails (emailsText closure)) =? 0)%nat then mret tt
  else
    modify (bulk_set true None);;
    try_finally
      (try_catch
        (res ← api_post ("/orgs/" ++ orgId ++ "/invites/bulk") (Some (bulk_payload ssoProviders closure));
         modify (λ s, bulk_set (bi_sending s) res s);;
         emit (EInvalidate "org-invites");;
         created ← prop res "created";
         match created with
         | Some (JNum n) =>
             when (0 <? n)%Z (emit (EToastSuccess (show n ++ " invite" ++ (if (n =? 1)%Z then [] else js "s") ++ " sent")))
         | _ => mret tt
         end)
        toast_error)
      (modify (λ s, bulk_set false (bi_result s) s)).
Definition bulk_disabled (s : BulkInvite) : bool :=
  let n := length (parseEmails (emailsText s)) in (n =? 0)%nat || (100 <? n)%nat || bi_sending s.

(** *** Pending invitations *)

Definition revoke_invite (inv : Invite) : mutation bool unit := {|
  mutationFn _ := api_del ("/orgs/" ++ orgId ++ "/invites/" ++ Invite_id inv) None;
  onSuccess _ := emit (EInvalidate "org-invites");; emit (EToastSuccess "Invite revoked");
  onError := toast_error
|}.
Definition resend_payload (inv : Invite) : json :=
  JObj [(js "email", JStr (Invite_email inv)); (js "org_role", JStr (Invite_org_role inv))].
(** The state is [resending]. *)
Definition resend (inv : Invite) : M bool unit :=
  modify (λ _, true);;
  try_finally
    (try_catch
      (api_post ("/orgs/" ++ orgId ++ "/invites") (Some (resend_payload inv));;
       emit (EInvalidate "org-invites");; emit (EToastSuccess ("Invite resent to " ++ Invite_email inv)))
      toast_error)
    (modify (λ _, false)).
(** [Math.max(0, Math.ceil((expires - now) / 86400000))]. *)
Definition daysLeft (expires now : Z) : Z := Z.max 0 (- ((now - expires) / 86400000)).
Definition expiry_label (expires now : Z) : jstr :=
  if (0 <? daysLeft expires now)%Z then "Expires in " ++ show (daysLeft expires now) ++ "d" else "Expiring today".
Definition team_badges (inv : Invite) : list jstr :=
  match Invite_team_assignments inv with
  | Some ((_ :: _) as l) =>
      (λ ta, InviteTeamAssignment_team_name ta ++ middot ++ InviteTeamAssignment_team_role ta) <$> l
  | _ => match Invite_team_name inv with
         | Some ((_ :: _) as n) => [n ++ match Invite_team_role inv with Some ((_ :: _) as r) => middot ++ r | _ => [] end]
         | _ => []
         end
  end.
Record invite_row := { ir_initial : jstr; ir_email : jstr; ir_expiry : jstr; ir_role : jstr; ir_teams : list jstr; ir_resending : bool }.
(** [shortDate] is the month and day of the creation; [None]: the date of
    expiry is invalid, and the comparison fails. *)
Definition PendingInviteRow (shortDate : jstr → jstr) (now : Z) (inv : Invite) (resending : bool) : invite_row := {|
  ir_initial := toUpperCase (take 1 (Invite_email inv));
  ir_email := Invite_email inv;
  ir_expiry := from_option (λ e, expiry_label e now) (js "Expiring today") (date_ms (Invite_expires_at inv)) ++ middot ++
               "Sent " ++ shortDate (Invite_created_at inv);
  ir_role := Invite_org_role inv;
  ir_teams := team_badges inv;
  ir_resending := resending |}.

End invites.

(** ** Theorems *)

(** *** The merged list *)

Lemma map_get_fold_notin members acc id :
  id ∉ Membership_user_id <$> members →
  map_get (fold_left (λ m x, map_set m (Membership_user_id x) x) members acc) id = map_get acc id.
Proof.
  revert acc. induction members as [|x l IH]; intros acc Hn; [done|]. cbn. rw fmap_cons in Hn.
  apply not_elem_of_cons in Hn as [Hx Hn]. rw IH //. by apply map_get_set_ne.
Qed.
Lemma memberMap_get (members : list Membership) (m : Membership) :
  NoDup (Membership_user_id <$> members) → m ∈ members → map_get (memberMap members) (Membership_user_id m) = Some m.
Proof.
  unfold memberMap. generalize (@nil (jstr * Membership)) as acc.
  induction members as [|x l IH]; intros acc Hn Hm; [by apply elem_of_nil in Hm|].
  rw fmap_cons in Hn. apply NoDup_cons in Hn as [Hx Hn]. cbn. apply elem_of_cons in Hm as [->|Hm].
  - rw map_get_fold_notin //. apply map_get_set_eq.
  - by apply IH.
Qed.

(** For an administrator the list shows every loaded user once and in order,
    with the role of the membership that is loaded for it, and with none when
    none is loaded. *)
Theorem allUsers_admin_roles (users : list User) (members : list Membership) :
  NoDup (Membership_user_id <$> members) →
  User_id ∘ mu <$> allUsers true users members = User_id <$> users ∧
  ∀ i u v, users !! i = Some u → allUsers true users members !! i = Some v →
    (∀ m, m ∈ members → Membership_user_id m = User_id u → org_role v = Some (Membership_role m)) ∧
    (User_id u ∉ Membership_user_id <$> members → org_role v = None).
Proof.
  intros Hn. unfold allUsers. split.
  { by rw -list_fmap_compose. }
  intros i u v Hu Hv. rw list_lookup_fmap Hu in Hv. injection Hv as <-. cbn. split.
  - intros m Hm <-. by rw memberMap_get.
  - intros Hnot. by rw map_get_fold_notin.
Qed.

(** An administrator never sees more than the first page of members: no
    control changes the page, so that a user whose membership is on a later
    page is listed as no member and offered to be added again. *)
Theorem admin_first_members_page (s : UsersState) (users : list User) (members : list Membership) (u : User) :
  rtc (users_step true) users_init s → u ∈ users → User_id u ∉ Membership_user_id <$> members →
  membersPage s = 1%Z ∧
  ∃ v, v ∈ allUsers true users members ∧ User_id (mu v) = User_id u ∧ role_set v = false ∧
       ∀ d, dv_add (UserDetailDialog v false true d) = true.
Proof.
  intros Hs Hu Hn. split.
  - assert (Hinv : ∀ a b, rtc (users_step true) a b → membersPage b = membersPage a).
    { induction 1 as [|a b c [up mp e a' He] _ IH]; [done|]. rw IH. by destruct e. }
    by rw (Hinv _ _ Hs).
  - eexists. split; [apply list_elem_of_fmap; eexists; by split|]. unfold role_set. cbn.
    assert (map_get (memberMap members) (User_id u) = None) as -> by (by apply map_get_fold_notin).
    split_and!; [done..|]. by intros d.
Qed.

(** *** The dialog of a user *)

Section detail_theorems.
Context `{!AppEnv} (other_number : jstr → json).

Lemma opt_field (b : bool) (k : jstr) (v : json) (x : jstr) :
  x ∈ (if b then [(k, v)] else []).*1 ↔ b = true ∧ x = k.
Proof. destruct b; cbn; [rw list_elem_of_singleton|rw elem_of_nil]; naive_solver. Qed.

(** Saving as an administrator sends exactly the fields that changed. *)
Theorem admin_patch_exact (u : User) (s : UserDetail) :
  let keys := (admin_patch other_number u s).*1 in
  (js "display_name" ∈ keys ↔ ud_displayName s ≠ User_display_name u) ∧
  (js "is_system_admin" ∈ keys ↔ isAdminFlag s ≠ User_is_system_admin u) ∧
  (js "email_verified" ∈ keys ↔ verified s ≠ User_email_verified u) ∧
  (js "auth_method_lock" ∈ keys ↔ authMethodLock s ≠ lock_of u) ∧
  (js "max_sessions" ∈ keys ↔ maxSessions s ≠ max_sessions_of u).
Proof.
  cbv zeta. unfold admin_patch. rw !fmap_app.
  assert (Heq : ∀ a b : bool, negb (eqb a b) = true ↔ a ≠ b) by (intros [] []; naive_solver).
  assert (Hj : ∀ a b : jstr, negb (a =?s b) = true ↔ a ≠ b).
  { intros a b. rw negb_true_iff. apply jeqb_neq. }
  split_and!; rw !elem_of_app !opt_field ?Hj ?Heq; naive_solver.
Qed.

(** An edit of the time zone or of the formats by an administrator can be
    saved and is reported as saved, but nothing of it is sent. *)
Theorem admin_format_edits_lost (u : User) (s : UserDetail) :
  ud_displayName s = User_display_name u → isAdminFlag s = User_is_system_admin u →
  verified s = User_email_verified u → authMethodLock s = lock_of u → maxSessions s = max_sessions_of u →
  ud_timezone s ≠ default [] (User_timezone u) →
  ud_dirty u s = true ∧ admin_patch other_number u s = [].
Proof.
  intros H1 H2 H3 H4 H5 Hz. unfold ud_dirty, admin_patch.
  rw H1 H2 H3 H4 H5 !jeqb_refl !eqb_reflx (proj2 (jeqb_neq _ _) Hz). split; [|done]. by rw !orb_true_r.
Qed.

(** Without the rights of an administrator, saving the dialog of any user
    changes the profile of whoever is signed in. *)
Theorem member_edit_hits_own_profile (u : User) (s : UserDetail) (w : world UserDetail) :
  ∃ rest, sent_requests (snd (user_save other_number false u s w)) = sent_requests w ++
    build_request "/auth/me" {| o_method := "PATCH"; o_headers := []; o_body := Some (JObj (me_patch u s)); o_params := None |}
      (accessToken (brw w)) :: rest.
Proof.
  unfold user_save, save_call, toast_error, api_patch, api_send. run_M.
  match goal with |- context [request ?p ?o ?x] => destruct (request_sends_first p o x) as [rest Hr]; exists rest end.
  destruct (request _ _ _) as [[e|j] w1]; cbn [snd] in Hr; unfold sent_requests in *; cbn [snd brw trace log_effect];
    rw ?fetches_app ?app_nil_r; exact Hr.
Qed.
End detail_theorems.

(** Opening the dialog starts from the user: nothing is to be saved. *)
Lemma detail_open_clean (u : User) (s : UserDetail) other_number :
  let s' := detail_onOpenChange u true s in
  ud_dirty u s' = false ∧ admin_patch other_number u s' = [] ∧ me_patch u s' = [].
Proof.
  cbv zeta. unfold ud_dirty, admin_patch, me_patch. cbn. rw !jeqb_refl !eqb_reflx. done.
Qed.

(** *** Invitations *)

Lemma remove_nth_sublist {A} i (l : list A) : remove_nth i l `sublist_of` l.
Proof.
  revert i; induction l as [|x l IH]; intros [|i]; cbn; [done|done|by apply sublist_cons|by apply sublist_skip].
Qed.
Lemma remove_nth_fmap {A B} (f : A → B) i l : f <$> remove_nth i l = remove_nth i (f <$> l).
Proof. revert i; induction l as [|x l IH]; intros [|i]; cbn; [done..|]. by rw IH. Qed.
Lemma fmap_alter_role (i : nat) v (l : list TeamAssignmentRow) : ta_team_id <$> alter (set_field TeamRole v) i l = ta_team_id <$> l.
Proof. revert i; induction l as [|x l IH]; intros [|i]; cbn; [done..|]. by f_equal; apply IH. Qed.
Lemma fmap_alter_team (i : nat) v (l : list TeamAssignmentRow) :
  i < length l → ta_team_id <$> alter (set_field TeamId v) i l = <[i := v]> (ta_team_id <$> l).
Proof. revert i; induction l as [|x l IH]; intros [|i] Hi; cbn in *; [lia|lia|done|]. f_equal. apply IH. lia. Qed.
Lemma NoDup_insert_fresh {A} (l : list A) i x y :
  NoDup l → l !! i = Some y → x = y ∨ x ∉ l → NoDup (<[i := x]> l).
Proof.
  intros Hn Hi [->|Hx]; [by rw list_insert_id|].
  rw insert_take_drop; [|by eapply lookup_lt_Some]. rw -(take_drop_middle l i y Hi) in Hn Hx.
  apply NoDup_app in Hn as (H1 & H2 & H3). apply NoDup_cons in H3 as [H4 H5].
  apply not_elem_of_app in Hx as [Hx1 Hx2]. apply not_elem_of_cons in Hx2 as [_ Hx2].
  apply NoDup_app. split_and!; [done| |by apply NoDup_cons].
  intros z Hz Hz'. apply elem_of_cons in Hz' as [->|Hz']; [done|]. apply (H2 z Hz). by right.
Qed.

Section form_theorems.
Context (teams : list Team) (providers : list SSOStatusProvider).

(** The teams chosen are different teams of the organisation. *)
Definition teams_ok (f : InviteForm) : Prop := NoDup (used_teams f) ∧ used_teams f ⊆ Team_id <$> teams.

Lemma addTeam_spec f :
  teams_ok f → NoDup (Team_id <$> teams) → canAddTeam teams f = true →
  ∃ t, t ∈ teams ∧ Team_id t ∉ used_teams f ∧
    teamAssignments (addTeamAssignment teams f) = teamAssignments f ++ [{| ta_team_id := Team_id t; ta_team_role := "member" |}].
Proof.
  intros [Hn Hsub] Ht Hcan. unfold addTeamAssignment. destruct (List.find _ teams) as [t|] eqn:E.
  - apply List.find_some in E as [Hin Hu]. exists t. split_and!; [by apply list_elem_of_In| |done].
    by destruct (bool_decide_reflect (Team_id t ∈ used_teams f)).
  - exfalso. unfold canAddTeam in Hcan. apply andb_prop in Hcan as [_ Hlt]. apply Nat.ltb_lt in Hlt.
    assert (Hall : Team_id <$> teams ⊆ used_teams f).
    { intros x Hx. apply list_elem_of_fmap in Hx as (t & -> & Hin). apply list_elem_of_In in Hin.
      pose proof (List.find_none _ _ E t Hin) as Hf. cbn in Hf. by destruct (bool_decide_reflect (Team_id t ∈ used_teams f)). }
    pose proof (submseteq_length _ _ (NoDup_submseteq _ _ Ht Hall)) as Hlen.
    unfold used_teams in Hlen. rw !length_fmap in Hlen. lia.
Qed.
Lemma teams_ok_pick f i r id :
  teams_ok f → teamAssignments f !! i = Some r → id ∈ Team_id <$> team_options teams f r →
  teams_ok (updateTeamAssignment i TeamId id f).
Proof.
  intros [Hn Hsub] Hi Hid. apply list_elem_of_fmap in Hid as (t & -> & Hin).
  unfold team_options in Hin. apply elem_of_List_filter_any in Hin as [Hin Ho].
  unfold teams_ok, used_teams. cbn. rw fmap_alter_team; [|by eapply lookup_lt_Some].
  assert (Hl : used_teams f !! i = Some (ta_team_id r)) by (unfold used_teams; by rw list_lookup_fmap Hi).
  split.
  - eapply NoDup_insert_fresh; [done|exact Hl|]. apply orb_prop in Ho as [Ho|Ho]; [left; by apply jeqb_eq|right].
    by destruct (bool_decide_reflect (Team_id t ∈ used_teams f)).
  - intros x Hx. apply list_elem_of_lookup in Hx as [j Hj]. rw list_lookup_insert_Some in Hj.
    destruct Hj as [(_ & <- & _)|(_ & Hj)]; [apply list_elem_of_fmap; by exists t|].
    apply Hsub. by eapply list_elem_of_lookup_2.
Qed.

(** Whatever is clicked, an invitation assigns a person to different teams
    of the organisation, at most once to each, and the button that adds a
    team is shown only when there is one left to add. *)
Theorem invite_teams_distinct (f : InviteForm) :
  NoDup (Team_id <$> teams) → rtc (form_step teams providers) form_init f →
  teams_ok f ∧
  (canAddTeam teams f = true → length (teamAssignments (addTeamAssignment teams f)) = S (length (teamAssignments f))).
Proof.
  intros Ht Hr.
  assert (Hok : teams_ok f).
  { assert (Hi : teams_ok form_init) by (split; [constructor|by intros x Hx%elem_of_nil]).
    induction Hr as [|a b c [e a' He] _ IH]; [done|]. apply IH. clear IH.
    destruct e as [r|v|v|n v| |i|i id|i r]; try exact Hi; cbn in He.
    - destruct (addTeam_spec a' Hi Ht He) as (t & Hin & Hu & E). destruct Hi as [Hn Hsub].
      unfold teams_ok, used_teams. cbn. rw E fmap_app. split.
      + apply NoDup_app. split_and!; [done| |apply NoDup_singleton].
        intros x Hx Hx'. apply list_elem_of_singleton in Hx' as ->. by apply Hu.
      + intros x Hx. apply elem_of_app in Hx as [Hx|Hx]; [by apply Hsub|].
        apply list_elem_of_singleton in Hx as ->. apply list_elem_of_fmap. by exists t.
    - destruct Hi as [Hn Hsub]. unfold teams_ok, used_teams. cbn. rw remove_nth_fmap.
      pose proof (remove_nth_sublist i (used_teams a')) as Hs. split; [by eapply sublist_NoDup|].
      intros x Hx. apply Hsub. by eapply elem_of_sublist.
    - destruct (teamAssignments a' !! i) as [r|] eqn:E; [|done]. apply bool_decide_eq_true in He.
      by eapply teams_ok_pick.
    - unfold teams_ok, used_teams. cbn. rw fmap_alter_role. exact Hi. }
  split; [done|]. intros Hc. destruct (addTeam_spec f Hok Ht Hc) as (t & _ & _ & ->). rw length_app. cbn. lia.
Qed.

(** The methods sent are never empty; they are exactly the ones switched on,
    except that none at all stands for any: switching everything off opens
    the invitation to every method. *)
Theorem buildAllowedAuth_spec (f : InviteForm) (x : jstr) :
  let chosen := (authPassword f = true ∧ x = js "password") ∨
                (∃ p, p ∈ providers ∧ map_get (authSSO f) (sp_name p) = Some true ∧ x = "sso:" ++ sp_name p) in
  let nothing := authPassword f = false ∧ ∀ p, p ∈ providers → map_get (authSSO f) (sp_name p) ≠ Some true in
  x ∈ buildAllowedAuth providers f ↔
  (authAny f = true ∧ x = js "any") ∨ (authAny f = false ∧ (chosen ∨ (nothing ∧ x = js "any"))).
Proof.
  cbv zeta. unfold buildAllowedAuth. destruct (authAny f); [rw list_elem_of_singleton; naive_solver|].
  assert (Hx : ∀ x, x ∈ (λ p, "sso:" ++ sp_name p) <$> List.filter (λ p, default false (map_get (authSSO f) (sp_name p))) providers
    ↔ ∃ p, p ∈ providers ∧ map_get (authSSO f) (sp_name p) = Some true ∧ x = "sso:" ++ sp_name p).
  { intros y. rw list_elem_of_fmap. setoid_rewrite elem_of_List_filter_any. split.
    - intros (p & -> & Hp & Hd). exists p. by destruct (map_get _ _) as [[]|].
    - intros (p & Hp & Hd & ->). exists p. by rw Hd. }
  set (l := _ <$> _) in Hx |- *. destruct (authPassword f).
  { cbn. rw elem_of_cons Hx. naive_solver. }
  cbn [app]. clearbody l. destruct l as [|y l]; cbn.
  - rw list_elem_of_singleton. assert (Hno : ∀ p, p ∈ providers → map_get (authSSO f) (sp_name p) ≠ Some true).
    { intros p Hp Hd. assert ("sso:" ++ sp_name p ∈ @nil jstr) as Hin%elem_of_nil; [|done]. apply Hx. naive_solver. }
    naive_solver.
  - rw Hx. assert (Hex : ∃ p, p ∈ providers ∧ map_get (authSSO f) (sp_name p) = Some true).
    { destruct (proj1 (Hx y)) as (p & ? & ? & _); [by left|]. eauto. }
    naive_solver.
Qed.
End form_theorems.

(** *** Addresses of invitations *)

Lemma alnum_addr c : is_alnum c || (c =? 45)%N || (c =? 46)%N = true → addr_char c = true.
Proof.
  intros Hc. assert (Hr : (c < 128)%N).
  { revert Hc. unfold is_alnum, is_alpha, is_upper, is_lower, is_digit, in_range.
    rw !orb_true_iff !andb_true_iff !N.leb_le !N.eqb_eq. lia. }
  assert (Hall : forallb (λ n, implb (is_alnum n || (n =? 45)%N || (n =? 46)%N) (addr_char n)) (N.of_nat <$> seq 0 128) = true)
    by (vm_compute; reflexivity).
  apply forallb_True_iff in Hall. rw Forall_forall in Hall.
  assert (Hin : c ∈ N.of_nat <$> seq 0 128).
  { apply list_elem_of_fmap. exists (N.to_nat c). split; [by rw N2Nat.id|]. apply elem_of_seq. lia. }
  specialize (Hall c Hin). by rw Hc in Hall.
Qed.

Lemma host_label_classes : classes_ok (λ c, addr_char c = true) host_label.
Proof.
  cbn [classes_ok host_label ropt]. split_and!; try done; intros x Hx; apply alnum_addr; by rw Hx ?orb_true_r.
Qed.
Lemma host_label_word s s' :
  rmatch host_label s s' → ∃ w, w ≠ [] ∧ Forall (λ c, addr_char c = true) w ∧ m_rest s = w ++ m_rest s'.
Proof.
  intros Hm. apply rmatch_seq_inv in Hm as (s1 & H1 & H2).
  inversion H1 as [|q d t s0 Hd Hdc| | | | | | | | |]; subst.
  apply (rmatch_classes (λ c, addr_char c = true)) in H2 as (w & E & F).
  - exists (d :: w). cbn in E. split_and!; [done| |by rw Hd E]. constructor; [|done]. apply alnum_addr. by rw Hdc.
  - apply (proj2 host_label_classes).
Qed.
Lemma more_labels_word s s' :
  rmatch (RStar (RSeq (rchar 46) host_label)) s s' → ∃ w, Forall (λ c, addr_char c = true) w ∧ m_rest s = w ++ m_rest s'.
Proof.
  intros Hm. apply (rmatch_classes (λ c, addr_char c = true)) in Hm as (w & E & F); [by exists w|].
  split; [|apply host_label_classes]. intros x Hx. by apply N.eqb_eq in Hx as <-.
Qed.

(** The pattern of the invitation form is stricter than the one of the login
    pages: what it accepts is an address there. *)
Theorem emailValid_address (s : jstr) : emailValid s = true → test emailRegex s = true.
Proof.
  intros Hv. apply emailRegex_shape. unfold emailValid in Hv. apply test_iff in Hv as (u & t & e & -> & Hm).
  unfold invite_pattern in Hm. cbn [rseq] in Hm.
  apply rmatch_seq_inv in Hm as (s0 & H0 & Hm).
  apply rmatch_seq_inv in Hm as (s1 & (a & Ha & Fa & Ea)%rmatch_plus_word & Hm).
  apply rmatch_seq_inv in Hm as (s2 & H2%rmatch_char_inv & Hm).
  apply rmatch_seq_inv in Hm as (s3 & (b & Hb & Fb & Eb)%host_label_word & Hm).
  apply rmatch_seq_inv in Hm as (s4 & (b' & Fb' & Eb')%more_labels_word & Hm).
  apply rmatch_seq_inv in Hm as (s5 & H5%rmatch_char_inv & Hm).
  apply rmatch_seq_inv in Hm as (s6 & H6 & Hm).
  apply rmatch_seq_inv in Hm as (s7 & (c & Hc & Fc & Ec)%rmatch_plus_word & Hm).
  assert (m_rest s7 = []) as Hend by (by inversion Hm).
  inversion H0 as [| | | | | | | |s' Hp| |]; subst. cbn in Hp, Ea. apply last_None in Hp as ->.
  inversion H6 as [|q x t' s0 Ht Hx| | | | | | | | |]; subst. cbn in Ec.
  exists a, (b ++ b'), (x :: c). split.
  { by rw /= H2 Eb Eb' H5 Ht Ec Hend app_nil_r -app_assoc. }
  apply Forall_cons. split; [done|]. apply Forall_cons. split; [split; [by destruct b|by apply Forall_app]|].
  apply Forall_singleton. split; [done|]. apply Forall_cons. assert (Hal : ∀ y, is_alpha y = true → addr_char y = true).
  { intros y Hy. apply alnum_addr. unfold is_alnum. by rw Hy. }
  split; [by apply Hal|]. by eapply Forall_impl.
Qed.

(** *** Lists of addresses *)

Lemma split_seps_cons b s : split_seps b s ≠ [].
Proof. revert b; induction s as [|c s IH]; intros b; cbn; [done|]. by repeat case_match. Qed.
Lemma split_seps_no_sep b s w : w ∈ split_seps b s → Forall (λ c, is_sep c = false) w.
Proof.
  revert b w; induction s as [|c s IH]; intros b w; cbn.
  { intros ->%list_elem_of_singleton. constructor. }
  destruct (is_sep c) eqn:Ec.
  - destruct b; [apply IH|]. intros [->|Hw]%elem_of_cons; [constructor|by eapply IH].
  - destruct (split_seps false s) as [|v vs] eqn:E; [by edestruct split_seps_cons|].
    assert (Hv : ∀ x, x ∈ v :: vs → Forall (λ c, is_sep c = false) x) by (intros x; rw -E; apply IH).
    intros [->|Hw]%elem_of_cons; [|apply Hv; by right]. constructor; [done|]. apply Hv. by left.
Qed.
Lemma split_seps_word w b t :
  Forall (λ c, is_sep c = false) w → w ≠ [] → split_seps b (w ++ 10%N :: t) = w :: split_seps true t.
Proof.
  intros Hw. revert b. induction Hw as [|c w Hc Hw IH]; intros b Hne; [done|]. cbn. rw Hc.
  destruct w as [|d w]; [done|]. by rw IH.
Qed.
Lemma split_seps_last w b : Forall (λ c, is_sep c = false) w → split_seps b w = [w].
Proof. intros Hw. revert b. induction Hw as [|c w Hc Hw IH]; intros b; [done|]. cbn. by rw Hc IH. Qed.

(** An entry as it is meant to be typed. *)
Definition plain_entry (e : jstr) : Prop := e ≠ [] ∧ trim e = e ∧ Forall (λ c, is_sep c = false) e.

(** The addresses read from the text are never empty, carry no blanks around
    them and no separator, and entries written one per line are read back as
    they are, in order and with repetitions. *)
Theorem parseEmails_spec (text : jstr) (l : list jstr) :
  Forall (λ e, e ≠ [] ∧ trim e = e ∧ Forall (λ c, is_sep c = false) e) (parseEmails text) ∧
  (Forall plain_entry l → parseEmails (join [10%N] l) = l).
Proof.
  split.
  - unfold parseEmails. apply Forall_forall. intros e He. apply elem_of_List_filter_any in He as [He Ht].
    apply list_elem_of_fmap in He as (w & -> & Hw). split_and!; [by apply truthy_nonempty|apply trim_trim|].
    apply split_seps_no_sep in Hw. destruct (trim_factor w) as (u & v & E). rw E in Hw.
    apply Forall_app in Hw as [_ Hw]. by apply Forall_app in Hw as [Hw _].
  - intros Hl. unfold parseEmails.
    assert (Hs : ∀ b, l ≠ [] → split_seps b (join [10%N] l) = l).
    { induction Hl as [|e l (Hne & Htr & Hsep) Hl IH]; intros b Hn; [done|].
      destruct l as [|e' l]; [by apply split_seps_last|].
      change (join [10%N] (e :: e' :: l)) with (e ++ [10%N] ++ join [10%N] (e' :: l)). cbn [app].
      rw split_seps_word //. by rw IH. }
    destruct l as [|e l]; [done|]. rw Hs //. clear Hs. induction Hl as [|x l' (Hne & Htr & _) Hl IH]; [done|].
    cbn. rw Htr. destruct x; [done|]. cbn. by rw IH.
Qed.

(** *** Expiry *)

(** The label for the last day is never shown on the last day: it appears
    exactly when the invitation has expired. *)
Theorem expiring_today_expired (expires now : Z) :
  expiry_label expires now = js "Expiring today" ↔ (expires <= now)%Z.
Proof.
  unfold expiry_label, daysLeft.
  assert (Hd : (0 < Z.max 0 (- ((now - expires) / 86400000)) ↔ now < expires)%Z).
  { pose proof (Z.div_mod (now - expires) 86400000 ltac:(lia)). pose proof (Z.mod_pos_bound (now - expires) 86400000 ltac:(lia)). lia. }
  destruct (Z.ltb_spec 0 (Z.max 0 (- ((now - expires) / 86400000)))); [|split; [lia|done]].
  split; [|lia]. generalize (show (Z.max 0 (- ((now - expires) / 86400000))) ++ js "d") as t. intros t E. by vm_compute in E.
Qed.

(** *** Deactivation *)

(** Deactivating a user succeeds whether or not the sessions could be
    revoked, although the confirmation promises that they are. *)
Theorem deactivate_ignores_sessions `{!AppEnv} {S} (orgId userId : jstr) (w w1 : world S) (v : option json) :
  api_post ("/orgs/" ++ orgId ++ "/members/" ++ userId ++ "/deactivate") None w = (inr v, w1) →
  fst (deactivate_calls orgId userId w) = inr None.
Proof.
  intros Hp. unfold deactivate_calls. run_M. rw Hp. by destruct (api_del _ None w1) as [[e|x] w2].
Qed.

(** ** Instances *)

Definition a_user (id name : jstr) : User := {|
  User_id := id; User_email := id ++ "@b.test"; User_display_name := name; User_sso_provider := None;
  User_is_system_admin := false; User_email_verified := true; User_timezone := None; User_date_format := None;
  User_time_format := None; User_auth_method_lock := None; User_max_sessions := None; User_last_login_at := None;
  User_created_at := "0"; User_updated_at := "0" |}.
Definition a_membership (userId role : jstr) : Membership := {|
  Membership_id := "m" ++ userId; Membership_user_id := userId; Membership_role := role; Membership_email := None;
  Membership_display_name := None; Membership_created_at := "0"; Membership_last_login_at := None |}.
Definition some_members : list Membership := [a_membership "1" "owner"; a_membership "2" "member"].
Definition some_users : list User := [a_user "2" "B"; a_user "3" "C"].

Lemma allUsers_admin_roles_witness :
  org_role <$> allUsers true some_users some_members !! 0 = Some (Some (js "member")).
Proof.
  destruct (allUsers_admin_roles some_users some_members ltac:(apply (bool_decide_unpack _); vm_compute; exact I)) as [_ Hr].
  destruct (Hr 0 (a_user "2" "B") (merge_user (Some (a_membership "2" "member")) (a_user "2" "B")) eq_refl
    ltac:(vm_compute; reflexivity)) as [Hm _].
  change (Some (org_role (merge_user (Some (a_membership "2" "member")) (a_user "2" "B"))) = Some (Some (js "member"))).
  rewrite (Hm (a_membership "2" "member") ltac:(right; by left) eq_refl). reflexivity.
Defined.

Lemma admin_first_members_page_witness :
  membersPage (users_update (SetPage 2) users_init) = 1%Z ∧
  ∃ v, v ∈ allUsers true some_users some_members ∧ User_id (mu v) = js "3" ∧ role_set v = false.
Proof.
  destruct (admin_first_members_page (users_update (SetPage 2) users_init) some_users some_members (a_user "3" "C"))
    as [Hp (v & Hv & Hi & Hr & _)].
  - apply rtc_once. by apply (users_step_intro true 3 1 (SetPage 2)).
  - right. by left.
  - apply (bool_decide_unpack _). vm_compute. exact I.
  - split; [exact Hp|]. by exists v.
Defined.

Definition opened (u : User) (timezone : jstr) : UserDetail := {|
  ud_open := true; ud_displayName := User_display_name u; isAdminFlag := User_is_system_admin u;
  verified := User_email_verified u; ud_timezone := timezone; ud_dateFormat := []; ud_timeFormat := []; ud_saving := false;
  ud_copied := false; authMethodLock := lock_of u; migratePasswordOpen := false; migratePassword := []; migrating := false;
  maxSessions := max_sessions_of u |}.
Lemma admin_format_edits_lost_witness :
  ud_dirty (a_user "2" "B") (opened (a_user "2" "B") "Europe/Paris") = true ∧
  admin_patch (λ _, JNull) (a_user "2" "B") (opened (a_user "2" "B") "Europe/Paris") = [].
Proof.
  apply (admin_format_edits_lost (λ _, JNull) (a_user "2" "B") (opened (a_user "2" "B") "Europe/Paris"));
    [reflexivity..|discriminate].
Defined.

Definition a_team (id : jstr) : Team := {|
  Team_id := id; Team_org_id := []; Team_name := id; Team_slug := id; Team_settings := None; Team_created_at := "0";
  Team_member_count := 0; Team_domain_count := 0; Team_active_inboxes := 0 |}.
Definition two_teams : list Team := [a_team "t1"; a_team "t2"].
Lemma invite_teams_distinct_witness :
  used_teams (addTeamAssignment two_teams (addTeamAssignment two_teams form_init)) = [js "t1"; js "t2"] ∧
  teams_ok two_teams (addTeamAssignment two_teams (addTeamAssignment two_teams form_init)).
Proof.
  split; [reflexivity|].
  refine (proj1 (invite_teams_distinct two_teams [] _ _ _)).
  - apply (bool_decide_unpack _). vm_compute. exact I.
  - eapply rtc_l; [by apply (form_step_intro two_teams [] AddTeam)|].
    eapply rtc_once. by apply (form_step_intro two_teams [] AddTeam).
Defined.

Lemma emailValid_address_witness : test emailRegex (js "a.b@mail.example.org") = true.
Proof. apply emailValid_address. vm_compute. reflexivity. Defined.

Lemma parseEmails_spec_witness : parseEmails (join [10%N] [js "a@b.c"; js "d@e.f"]) = [js "a@b.c"; js "d@e.f"].
Proof.
  refine (proj2 (parseEmails_spec [] [js "a@b.c"; js "d@e.f"]) _).
  repeat constructor; try discriminate; vm_compute; reflexivity.
Defined.

Lemma deactivate_ignores_sessions_witness :
  fst (deactivate_calls (S := unit) "o" "u" (World (browser_on ∅ "/settings" [answer 200 (JObj []); answer 403 (JObj [])]) tt)
    (H := default_env)) = inr None.
Proof.
  exact (deactivate_ignores_sessions (S := unit) "o" "u"
    (World (browser_on ∅ "/settings" [answer 200 (JObj []); answer 403 (JObj [])]) tt) _ _ eq_refl (H := default_env)).
Defined.
