(* ===== verification/Domains.v ===== *)
(** * Domains: [web/src/app/domains/page.tsx] and
    [web/src/app/domains/[domainId]/page.tsx]

    The list with its filters, orders and counts, the dialogs that add and
    delete a domain, and the page of one domain. *)

From S2P Require Import Prelude Regex Browser Types ApiClient React Lib ApiKeys RolesTab InboxPage SignIn.
Import Lib.RelativeTime.

(** ** Names *)

Definition is_ldh (c : N) : bool := is_lower c || is_digit c || (c =? 45)%N.
Definition is_ld (c : N) : bool := is_lower c || is_digit c.

(** [s.replace(/^https?:\/\//, "")]. *)
Definition strip_scheme (s : jstr) : jstr :=
  if startsWith s "https://" then drop 8 s else if startsWith s "http://" then drop 7 s else s.
(** [s.replace(/^www\./, "")]. *)
Definition strip_www (s : jstr) : jstr := if startsWith s "www." then drop 4 s else s.
(** [s.replace(/\/.*$/, "")]: from the first slash that has no line end behind
    it. *)
Definition line_end (c : N) : bool := bool_decide (c ∈ [10; 13; 8232; 8233]%N).
Fixpoint strip_path (s : jstr) : jstr :=
  match s with
  | [] => []
  | c :: t => if (c =? 47)%N && forallb (λ x, negb (line_end x)) t then [] else c :: strip_path t
  end.

(** [/^[a-z]{2,}$/] and [/^[a-z0-9]([a-z0-9-]*[a-z0-9])?$/]. *)
Definition tld_re : re := rseq [RBegin; RCls is_lower; rplus (RCls is_lower); REnd].
Definition label_re : re :=
  rseq [RBegin; RCls is_ld; ropt (RSeq (RStar (RCls is_ldh)) (RCls is_ld)); REnd].

Fixpoint check_labels (labels : list jstr) : option jstr :=
  match labels with
  | [] => None
  | label :: rest =>
      if (length label =? 0)%nat || (63 <? length label)%nat then Some (js "Each label must be 1-63 characters")
      else if negb (test label_re label)
      then Some (js "Labels must be alphanumeric (hyphens allowed, not at start/end)")
      else check_labels rest
  end.
Definition validateDomain (input : jstr) : option jstr :=
  if negb (truthy input) then None
  else if (253 <? length input)%nat then Some (js "Domain too long (max 253 characters)")
  else if negb (includes input ".") then Some (js "Domain must contain at least one dot")
  else
    let labels := split_on 46 input in
    let tld := default [] (last labels) in
    if negb (test tld_re tld) then Some (js "Invalid TLD: must be at least 2 letters")
    else check_labels labels.

(** ** The list *)

Inductive status_filter := SAll | SVerified | SPending.
Inductive sort_option := NameAsc | NameDesc | Newest | Oldest | MostInboxes.
Record DomainsState := { dm_page : Z; dm_search : jstr; statusFilter : status_filter; dm_sort : sort_option }.
Definition domains_init : DomainsState := {| dm_page := 1; dm_search := []; statusFilter := SAll; dm_sort := Newest |}.

Definition fullyVerified (d : Domain) : bool := Domain_mx_verified d && Domain_txt_verified d.
Definition verifiedCount (l : list Domain) : nat := countb fullyVerified l.
Definition pendingCount (l : list Domain) : nat := length l - verifiedCount l.
Definition totalInboxes (l : list Domain) : Z := sumZ (Domain_active_inboxes <$> l).

Section domains.
Context `{!AppEnv, !JSRuntime} (localeCompare : jstr → jstr → Z).

Definition sanitizeDomain (input : jstr) : jstr := strip_path (strip_www (strip_scheme (toLowerCase (trim input)))).

(** A difference of dates; with an invalid one it is NaN, which sorts as 0. *)
Definition date_diff (a b : jstr) : Z :=
  match date_ms a, date_ms b with Some x, Some y => (x - y)%Z | _, _ => 0%Z end.
Definition domain_cmp (o : sort_option) (a b : Domain) : Z :=
  match o with
  | NameAsc => localeCompare (Domain_domain_name a) (Domain_domain_name b)
  | NameDesc => localeCompare (Domain_domain_name b) (Domain_domain_name a)
  | Newest => date_diff (Domain_created_at b) (Domain_created_at a)
  | Oldest => date_diff (Domain_created_at a) (Domain_created_at b)
  | MostInboxes => (Domain_active_inboxes b - Domain_active_inboxes a)%Z
  end.
Definition domain_matches (s : DomainsState) (d : Domain) : bool :=
  (negb (truthy (dm_search s)) || includes (toLowerCase (Domain_domain_name d)) (toLowerCase (dm_search s))) &&
  match statusFilter s with
  | SAll => true
  | SVerified => fullyVerified d
  | SPending => negb (Domain_mx_verified d) || negb (Domain_txt_verified d)
  end.
Definition filteredDomains (s : DomainsState) (l : list Domain) : list Domain :=
  sort_js (domain_cmp (dm_sort s)) (List.filter (domain_matches s) l).
(** The number beside a status. *)
Definition status_count (f : status_filter) (l : list Domain) : nat :=
  match f with SAll => length l | SVerified => verifiedCount l | SPending => pendingCount l end.

Definition domains_summary (total : Z) (l : list Domain) : jstr :=
  if (0 <? total)%Z then
    show total ++ " " ++ (if (total =? 1)%Z then "domain" else "domains") ++ middot ++ show_nat (verifiedCount l) ++
    " verified, " ++ show_nat (pendingCount l) ++ " pending" ++ middot ++ show (totalInboxes l) ++ " active " ++
    (if (totalInboxes l =? 1)%Z then "inbox" else "inboxes")
  else "Add a domain to start receiving email.".

Record domain_row := { dr_name : jstr; dr_verified : bool; dr_mx : bool; dr_txt : bool; dr_active : Z; dr_created : Z;
                       dr_added : jstr; dr_verify : option bool }.
(** The row of the table and of the small screen. *)
Definition DomainTableRow (now : Z) (verifying : bool) (d : Domain) : domain_row := {|
  dr_name := Domain_domain_name d; dr_verified := fullyVerified d; dr_mx := Domain_mx_verified d;
  dr_txt := Domain_txt_verified d; dr_active := Domain_active_inboxes d; dr_created := Domain_inboxes_created_count d;
  dr_added := timeAgo (Domain_created_at d) now;
  dr_verify := if fullyVerified d then None else Some verifying |}.

Inductive domains_view :=
| DNoOrg | DForbidden | DError | DSkeleton
| DEmpty (title : jstr) (add : bool)
| DRows (rows : list domain_row) (p : option pagination).
Definition DomainsPage (now : Z) (hasOrg isAdmin isError isLoading : bool) (verifying : option jstr) (l : list Domain)
    (totalPages : option Z) (s : DomainsState) : domains_view :=
  if negb hasOrg then DNoOrg
  else if negb isAdmin then DForbidden
  else if isError then DError
  else if isLoading then DSkeleton
  else if (length (filteredDomains s l) =? 0)%nat then
    DEmpty (if truthy (dm_search s) then "No matching domains" else "No domains yet") (negb (truthy (dm_search s)))
  else DRows ((λ d, DomainTableRow now (bool_decide (verifying = Some (Domain_id d))) d) <$> filteredDomains s l)
         (Pagination (dm_page s) (default 1%Z totalPages)).

Definition verify_domain (orgId : jstr) : mutation DomainsState jstr := {|
  mutationFn id := api_post ("/orgs/" ++ orgId ++ "/domains/" ++ id ++ "/verify") None;
  onSuccess _ := emit (EInvalidate "domains");; emit (EToastSuccess "DNS verification triggered");
  onError := toast_error
|}.
Definition remove_domain (orgId : jstr) : mutation DomainsState jstr := {|
  mutationFn id := api_del ("/orgs/" ++ orgId ++ "/domains/" ++ id ++ "?force=true") None;
  onSuccess _ := emit (EInvalidate "domains");; emit (EToastSuccess "Domain removed");
  onError := toast_error
|}.

(** *** Deleting *)

Record DeleteDomain := { dd_open : bool; confirmText : jstr; expanded : bool }.
Definition delete_onOpenChange (v : bool) (s : DeleteDomain) : DeleteDomain :=
  if v then {| dd_open := true; confirmText := confirmText s; expanded := expanded s |}
  else {| dd_open := false; confirmText := []; expanded := false |}.
(** [handleDelete] of the enabled button: whether [onConfirm] is called. *)
Definition delete_click (d : Domain) (s : DeleteDomain) : bool * DeleteDomain :=
  if negb (confirmText s =?s Domain_domain_name d) then (false, s)
  else (true, {| dd_open := false; confirmText := []; expanded := expanded s |}).

(** *** Adding *)

Record AddDomain := { rawInput : jstr; ad_open : bool; adding : bool }.
Definition ad_domain (s : AddDomain) : jstr := sanitizeDomain (rawInput s).
Definition ad_error (s : AddDomain) : option jstr := if truthy (ad_domain s) then validateDomain (ad_domain s) else None.
Definition isValid (s : AddDomain) : bool := truthy (ad_domain s) && bool_decide (ad_error s = None).
Definition add_onOpenChange (v : bool) (s : AddDomain) : AddDomain :=
  {| rawInput := if v then rawInput s else []; ad_open := v; adding := adding s |}.
Definition handleAdd (orgId : jstr) (closure : AddDomain) : M AddDomain unit :=
  if negb (isValid closure) then mret tt
  else
    modify (λ s, {| rawInput := rawInput s; ad_open := ad_open s; adding := true |});;
    try_finally
      (try_catch
        (api_post ("/orgs/" ++ orgId ++ "/domains") (Some (JObj [(js "domain_name", JStr (ad_domain closure))]));;
         emit (EInvalidate "domains");;
         emit (EToastSuccess "Domain added. Configure DNS records to verify.");;
         modify (λ s, {| rawInput := []; ad_open := false; adding := adding s |}))
        toast_error)
      (modify (λ s, {| rawInput := rawInput s; ad_open := ad_open s; adding := false |})).
(** The hint below the field. *)
Definition added_as (s : AddDomain) : option jstr :=
  if truthy (rawInput s) && negb (ad_domain s =?s toLowerCase (trim (rawInput s))) then Some (ad_domain s) else None.

(** *** The two dialogs on the screen *)

Record ImpactInbox := { ii_id : jstr; ii_address : jstr; ii_full_address : jstr; ii_created_by_email : jstr; ii_email_count : Z; ii_expires_at : jstr }.
Record DomainImpact := { im_active_inboxes : Z; im_total_emails : Z; im_inboxes : list ImpactInbox }.
(** The address that is asked for the impact while the dialog is open. *)
Definition impact_query (orgId : option jstr) (d : Domain) (s : DeleteDomain) : option jstr :=
  match orgId with
  | Some o => if dd_open s then Some ("/orgs/" ++ o ++ "/domains/" ++ Domain_id d ++ "/impact") else None
  | None => None
  end.
Inductive impact_view :=
| IVLoading
| IVWarning (text button : jstr) (rows : option (list (jstr * jstr * Z * jstr)))
| IVClear (text : jstr)
| IVNone.
Definition impact_row (i : ImpactInbox) : jstr * jstr * Z * jstr :=
  (ii_address i, ii_created_by_email i, ii_email_count i, toLocaleDateString (ii_expires_at i)).
Definition impact_part (isLoading : bool) (impact : option DomainImpact) (s : DeleteDomain) : impact_view :=
  if isLoading then IVLoading
  else match impact with
  | None => IVNone
  | Some m =>
      if (0 <? im_active_inboxes m)%Z then
        IVWarning ("This domain has " ++ show (im_active_inboxes m) ++ " active inbox" ++ (if (im_active_inboxes m =? 1)%Z then [] else js "es")
                   ++ " receiving email (" ++ show (im_total_emails m) ++ " total email" ++ (if (im_total_emails m =? 1)%Z then [] else js "s") ++ ")")
          ((if expanded s then "Hide" else "Show") ++ " affected inboxes")
          (if expanded s then Some (impact_row <$> im_inboxes m) else None)
      else IVClear "No active inboxes on this domain"
  end.
Record delete_view := { dv_trigger : jstr; dv_title : jstr; dv_impact : impact_view; dv_label : jstr; dv_placeholder : jstr; dv_enabled : bool }.
Definition DeleteDomainDialog (isLoading : bool) (impact : option DomainImpact) (d : Domain) (s : DeleteDomain) : delete_view := {|
  dv_trigger := "Delete " ++ Domain_domain_name d;
  dv_title := "Delete " ++ Domain_domain_name d;
  dv_impact := impact_part isLoading impact s;
  dv_label := "Type " ++ Domain_domain_name d ++ " to confirm deletion";
  dv_placeholder := Domain_domain_name d;
  dv_enabled := confirmText s =?s Domain_domain_name d |}.
Definition delete_type (t : jstr) (s : DeleteDomain) : DeleteDomain := {| dd_open := dd_open s; confirmText := t; expanded := expanded s |}.
Definition delete_expand (s : DeleteDomain) : DeleteDomain := {| dd_open := dd_open s; confirmText := confirmText s; expanded := negb (expanded s) |}.

Record add_view := { av_mark : option bool; av_hint : option jstr; av_error : option jstr; av_button : jstr; av_enabled : bool }.
Definition AddDomainDialog (s : AddDomain) : add_view := {|
  av_mark := if truthy (ad_domain s) then Some (isValid s) else None;
  av_hint := ("Will be added as: " ++.) <$> added_as s;
  av_error := ad_error s;
  av_button := if adding s then [65; 100; 100; 105; 110; 103; 8230]%N else js "Add Domain";
  av_enabled := isValid s && negb (adding s) |}.
Definition add_type (t : jstr) (s : AddDomain) : AddDomain := {| rawInput := t; ad_open := ad_open s; adding := adding s |}.
Definition add_keydown (orgId key : jstr) (closure : AddDomain) : M AddDomain unit :=
  if key =?s "Enter" then handleAdd orgId closure else mret tt.
Definition add_click (orgId : jstr) (closure : AddDomain) : M AddDomain unit :=
  if av_enabled (AddDomainDialog closure) then handleAdd orgId closure else mret tt.

(** ** The page of a domain *)

Definition needsPoll (d : option Domain) : bool :=
  match d with Some d => negb (Domain_mx_verified d) || negb (Domain_txt_verified d) | None => false end.
(** The interval of the polling effect, in milliseconds. *)
Definition poll_interval (d : option Domain) : option Z := if needsPoll d then Some 30000%Z else None.

Definition verify_one (orgId domainId : jstr) : mutation unit unit := {|
  mutationFn _ := api_post ("/orgs/" ++ orgId ++ "/domains/" ++ domainId ++ "/verify") None;
  onSuccess _ := emit (EInvalidate "domain");; emit (EToastSuccess "Verification triggered");
  onError := toast_error
|}.

(** The assignments of the domain, one call per team; [order] is the order in
    which the calls complete.  A team that cannot be read is skipped. *)
Definition find_assignment (domainId : jstr) (data : option json) : option json :=
  match data with
  | Some (JArr l) => List.find (λ a, bool_decide (jfield a "domain_id" = Some (JStr domainId))) l
  | _ => None
  end.
Fixpoint load_assignments {S} (orgId domainId : jstr) (order : list Team) : M S (list (Team * json)) :=
  match order with
  | [] => mret []
  | team :: rest =>
      mine ← try_catch
        (res ← api_get ("/orgs/" ++ orgId ++ "/teams/" ++ Team_id team ++ "/domains") (Some [(js "per_page", js "200")]);
         data ← prop res "data";
         mret (from_option (λ a, [(team, a)]) [] (find_assignment domainId data)))
        (λ _, mret []);
      others ← load_assignments orgId domainId rest;
      mret (mine ++ others)
  end.

Record dns_record := { dn_title : jstr; dn_description : jstr; dn_verified : bool; dn_records : list (jstr * jstr) }.
Definition mx_card (d : Domain) : dns_record := {|
  dn_title := "MX Record";
  dn_description := if fullyVerified d then "Routing email to " ++ Domain_domain_name d
                    else "Routes incoming email for " ++ Domain_domain_name d;
  dn_verified := Domain_mx_verified d;
  dn_records := [(js "Type", js "MX"); (js "Host", Domain_domain_name d); (js "Priority", js "10");
                 (js "Value", jor (default [] (Domain_mx_target d)) "mail.burnerbyte.com")] |}.
Definition txt_card (d : Domain) : dns_record := {|
  dn_title := "TXT Record";
  dn_description := if fullyVerified d then "Domain ownership confirmed" else "Verifies domain ownership";
  dn_verified := Domain_txt_verified d;
  dn_records := [(js "Type", js "TXT"); (js "Host", Domain_domain_name d);
                 (js "Value", default [] (Domain_verification_record d))] |}.
(** [verifiedCount] of the page. *)
Definition records_verified (d : option Domain) : nat :=
  match d with Some d => countb id [Domain_mx_verified d; Domain_txt_verified d] | None => 0 end.

(** *** Settings *)

Record DomainSettingsCard := { attachments : jstr; ds_saving : bool }.
Definition attachments_of (d : Domain) : jstr :=
  default (js "inherit") (Domain_settings d ≫= DomainSettings_attachments_enabled).
Definition settings_mount (d : Domain) : DomainSettingsCard := {| attachments := attachments_of d; ds_saving := false |}.
Definition ds_dirty (d : Domain) (s : DomainSettingsCard) : bool := negb (attachments s =?s attachments_of d).
Definition settings_save (orgId : jstr) (d : Domain) (closure : DomainSettingsCard) : M DomainSettingsCard unit :=
  modify (λ s, {| attachments := attachments s; ds_saving := true |});;
  try_finally
    (try_catch
      (api_patch ("/orgs/" ++ orgId ++ "/domains/" ++ Domain_id d)
         (Some (JObj [(js "settings", JObj [(js "attachments_enabled", JStr (attachments closure))])]));;
       emit (EInvalidate "domain");; emit (EToastSuccess "Domain settings updated"))
      toast_error)
    (modify (λ s, {| attachments := attachments s; ds_saving := false |})).


(** The select of the card and its button. *)
Definition attachment_options : list (jstr * jstr) :=
  [(js "inherit", js "Inherit from org"); (js "enabled", js "Enabled"); (js "disabled", js "Disabled")].
Definition settings_button (d : Domain) (s : DomainSettingsCard) : option (jstr * bool) :=
  if ds_dirty d s then Some (if ds_saving s then [83; 97; 118; 105; 110; 103; 8230]%N else js "Save Settings", negb (ds_saving s)) else None.

(** *** The whole page *)

(** A card with the state of its records; instructions are shown while pending. *)
Definition DnsRecordCard (r : dns_record) : jstr * jstr * bool * list (jstr * jstr) :=
  (if dn_verified r then js "Verified" else js "Pending", dn_description r, negb (dn_verified r), dn_records r).
(** The value copied; a timer takes the mark back. *)
Definition CopyableValue (value : jstr) : M bool unit := emit (EClipboard value);; modify (λ _, true);; emit (EToastSuccess "Copied");; emit (ETimeout 2000).
Definition team_word (n : Z) : jstr := if (n =? 1)%Z then "team" else "teams".
Definition domain_figures (now : Z) (d : Domain) : jstr :=
  show (Domain_active_inboxes d) ++ " active" ++ middot ++ show (Domain_inboxes_created_count d) ++ " created" ++ middot
  ++ show (Domain_team_count d) ++ " " ++ team_word (Domain_team_count d) ++ middot ++ "Added " ++ timeAgo (Domain_created_at d) now
  ++ (if otruthy (Domain_dns_last_checked_at d)
      then middot ++ "DNS checked " ++ timeAgo (default [] (Domain_dns_last_checked_at d)) now else []).
Definition assigned_row (x : Team * DomainAssignment) : jstr * jstr * jstr * jstr :=
  let '(team, a) := x in
  (toUpperCase (take 1 (Team_name team)), Team_name team,
   show (Team_member_count team) ++ " " ++ (if (Team_member_count team =? 1)%Z then "member" else "members"), DomainAssignment_access_level a).
Inductive assigned_view := AVLoading | AVNone | AVRows (rows : list (jstr * jstr * jstr * jstr)).
Definition assigned_teams (isLoading : bool) (data : option (list (Team * DomainAssignment))) : nat * assigned_view :=
  (from_option length 0 data,
   if isLoading then AVLoading
   else match data with None | Some [] => AVNone | Some l => AVRows (assigned_row <$> l) end).
(** The buttons that check the records: in the header, below them, and after
    the last check of verified ones. *)
Record dns_actions := { da_header : bool; da_below : bool; da_auto : bool; da_recheck : option jstr }.
Definition dns_buttons (now : Z) (d : Domain) : dns_actions := {|
  da_header := negb (fullyVerified d);
  da_below := negb (fullyVerified d);
  da_auto := negb (fullyVerified d) && needsPoll (Some d);
  da_recheck := if fullyVerified d && otruthy (Domain_dns_last_checked_at d)
                then Some ("Last verified " ++ timeAgo (default [] (Domain_dns_last_checked_at d)) now) else None |}.
Definition domain_heading (d : Domain) : jstr * jstr :=
  if fullyVerified d then ("Your DNS records for " ++ Domain_domain_name d ++ " are correctly configured.", js "All records verified")
  else ("Add these records to your DNS provider for " ++ Domain_domain_name d ++ ".", show_nat (records_verified (Some d)) ++ " of 2 verified").
Definition domain_details (d : Domain) : list (jstr * jstr) :=
  [(js "Domain ID", Domain_id d); (js "Created", toLocaleDateString (Domain_created_at d));
   (js "MX Target", jor (default [] (Domain_mx_target d)) [8212%N])].
Record domain_page := {
  dg_name : jstr; dg_badge : jstr; dg_figures : jstr; dg_heading : jstr * jstr; dg_cards : list dns_record;
  dg_actions : dns_actions; dg_details : list (jstr * jstr)
}.
Inductive domain_view := DVNoOrg | DVError (message : jstr) | DVLoading | DVBlank | DVDomain (p : domain_page).
Definition DomainDetailPage (now : Z) (hasOrg isError isLoading : bool) (domain : option Domain) : domain_view :=
  if negb hasOrg then DVNoOrg
  else if isError then DVError "Failed to load domain"
  else match domain with
  | Some d => DVDomain {|
      dg_name := Domain_domain_name d;
      dg_badge := if fullyVerified d then "Verified" else "Setup required";
      dg_figures := domain_figures now d;
      dg_heading := domain_heading d;
      dg_cards := [mx_card d; txt_card d];
      dg_actions := dns_buttons now d;
      dg_details := domain_details d |}
  | None => if isLoading then DVLoading else DVBlank
  end.

End domains.

(** ** Theorems *)

(** *** Names *)

Definition label_shape (l : jstr) : Prop :=
  ∃ c w, l = c :: w ∧ is_ld c = true ∧ Forall (λ x, is_ldh x = true) w ∧ (∀ d, last l = Some d → is_ld d = true).
Definition tld_shape (l : jstr) : Prop := 2 ≤ length l ∧ Forall (λ x, is_lower x = true) l.

Lemma is_ld_ldh c : is_ld c = true → is_ldh c = true.
Proof. unfold is_ld, is_ldh. intros ->. done. Qed.
Lemma rmatch_cls_inv p s s' : rmatch (RCls p) s s' → ∃ c, m_rest s = c :: m_rest s' ∧ p c = true.
Proof. inversion 1 as [|q c t s0 Ht Hp| | | | | | | | |]; simplify_eq. by exists c. Qed.

(** A pattern between the anchors is tried at the start only. *)
Lemma test_anchored r l :
  test (RSeq RBegin r) l = true ↔ ∃ e, rmatch r (Mst None l []) e.
Proof.
  rw test_iff. split.
  - intros (u & t & e & -> & Hm). apply rmatch_seq_inv in Hm as (s0 & H0 & Hm).
    inversion H0 as [| | | | | | | |s' Hp| |]; subst. cbn in Hp. pose proof (proj1 (last_None u) Hp) as ->. by exists e.
  - intros [e He]. exists [], l, e. split; [done|]. eapply M_seq; [by apply M_begin|exact He].
Qed.

Lemma tld_re_spec l : test tld_re l = true ↔ tld_shape l.
Proof.
  unfold tld_re, tld_shape. cbn [rseq]. rw test_anchored. split.
  - intros [e Hm]. apply rmatch_seq_inv in Hm as (s1 & (c & E1 & Hc)%rmatch_cls_inv & Hm).
    apply rmatch_seq_inv in Hm as (s2 & (w & Hw & Fw & E2)%rmatch_plus_word & Hm).
    assert (Hend : m_rest s2 = []) by (by inversion Hm). cbn in E1. rw E1 E2 Hend app_nil_r.
    split; [destruct w; [done|cbn; lia]|by constructor].
  - intros [Hl Hf]. destruct l as [|c [|d w]]; [cbn in Hl; lia..|]. apply Forall_cons in Hf as [Hc Hw].
    destruct (rmatch_word_plus is_lower (Some c) (d :: w) [] [] ltac:(done) Hw) as [p Hm]. rw app_nil_r in Hm.
    eexists. eapply M_seq; [by eapply M_cls|]. eapply M_seq; [exact Hm|by apply M_end].
Qed.
Lemma label_re_spec l : test label_re l = true ↔ label_shape l.
Proof.
  unfold label_re, label_shape. cbn [rseq]. rw test_anchored. split.
  - intros [e Hm]. apply rmatch_seq_inv in Hm as (s1 & (c & E1 & Hc)%rmatch_cls_inv & Hm).
    apply rmatch_seq_inv in Hm as (s2 & Ho & Hm). assert (Hend : m_rest s2 = []) by (by inversion Hm). cbn in E1.
    inversion Ho as [| | |a b s s' Ha|a b s s' Hb| | | | | |]; subst.
    + apply rmatch_seq_inv in Ha as (s3 & Hs & (d & E3 & Hd)%rmatch_cls_inv).
      pose proof (rmatch_consumed _ _ _ Hs) as Es. apply rmatch_plus_cls in Hs as [Fs _].
      set (w := consumed s1 s3) in *. exists c, (w ++ [d]). rw Es E3 Hend. split_and!; [done|done| |].
      * apply Forall_app. split; [done|]. apply Forall_singleton. by apply is_ld_ldh.
      * intros x. rw app_comm_cons last_snoc. by intros [= <-].
    + inversion Hb; subst. exists c, []. rw Hend. split_and!; [done|done|constructor|]. by intros x [= <-].
  - intros (c & w & -> & Hc & Hw & Hlast). destruct w as [|x w _] using rev_ind.
    + eexists. eapply M_seq; [by eapply M_cls|]. eapply M_seq; [apply M_alt_r, M_eps|by apply M_end].
    + apply Forall_app in Hw as [Hw _]. specialize (Hlast x). rw app_comm_cons last_snoc in Hlast.
      eexists. eapply M_seq; [by eapply M_cls|]. eapply M_seq.
      { apply M_alt_l. eapply M_seq; [by apply rmatch_star_all|]. eapply M_cls; [done|by apply Hlast]. }
      by apply M_end.
Qed.

Lemma split_join (labels : list jstr) :
  labels ≠ [] → Forall (λ l, 46%N ∉ l) labels → split_on 46 (join [46%N] labels) = labels.
Proof.
  intros Hne Hf. induction Hf as [|l labels Hl Hf IH]; [done|]. destruct labels as [|l' labels].
  - cbn. by apply split_on_none.
  - change (join [46%N] (l :: l' :: labels)) with (l ++ 46%N :: join [46%N] (l' :: labels)).
    rw split_on_app //. by rw IH.
Qed.
Lemma check_labels_spec labels :
  check_labels labels = None ↔ Forall (λ l, length l ≤ 63 ∧ label_shape l) labels.
Proof.
  induction labels as [|l labels IH]; [done|]. cbn [check_labels]. rw Forall_cons -IH -label_re_spec.
  destruct (Nat.eqb_spec (length l) 0) as [E|E]; cbn [orb].
  { split; [done|]. intros [[_ Ht] _]. apply label_re_spec in Ht as (c & w & -> & _). done. }
  destruct (Nat.ltb_spec 63 (length l)); [split; [done|lia]|].
  destruct (test label_re l); cbn [negb]; naive_solver lia.
Qed.

(** What a domain name is. *)
Definition domain_shape (d : jstr) : Prop :=
  length d ≤ 253 ∧
  ∃ labels, d = join [46%N] labels ∧ 2 ≤ length labels ∧
    Forall (λ l, length l ≤ 63 ∧ label_shape l) labels ∧ (∀ t, last labels = Some t → tld_shape t).

Lemma label_no_dot l : label_shape l → 46%N ∉ l.
Proof.
  intros (c & w & -> & Hc & Hw & _) Hin. apply is_ld_ldh in Hc.
  assert (Hf : Forall (λ x, is_ldh x = true) (c :: w)) by (by constructor).
  rw Forall_forall in Hf. specialize (Hf _ Hin). done.
Qed.
Lemma includes_dot_split d : includes d "." = true ↔ 2 ≤ length (split_on 46 d).
Proof.
  rw includes_app. split.
  - intros (u & v & ->). destruct (split_on 46 (u ++ "." ++ v)) as [|a [|b l]] eqn:E; [by edestruct split_on_nonempty| |cbn; lia].
    exfalso. pose proof (join_split_on 46 (u ++ "." ++ v)) as Hj. rw E in Hj. cbn in Hj.
    assert (Hno : ∀ x, x ∈ split_on 46 (u ++ "." ++ v) → 46%N ∉ x) by (intros x; apply split_on_piece).
    apply (Hno a); [rw E; by left|]. rw Hj. apply elem_of_app. right. by left.
  - intros Hl. pose proof (join_split_on 46 d) as Hj. destruct (split_on 46 d) as [|a [|b l]]; [cbn in Hl; lia..|].
    exists a, (join [46%N] (b :: l)). by rw -Hj.
Qed.

(** A name is accepted exactly when it has at most 253 characters and at
    least two labels of at most 63 letters, digits and inner hyphens, the
    last one of two letters or more. *)
Theorem validateDomain_spec (d : jstr) : d ≠ [] → validateDomain d = None ↔ domain_shape d.
Proof.
  intros Hne. unfold validateDomain, domain_shape. rw (proj2 (truthy_nonempty d) Hne). cbn [negb].
  destruct (Nat.ltb_spec 253 (length d)) as [Hlen|Hlen]; [split; [done|lia]|].
  split.
  - destruct (includes d ".") eqn:Ed; [|done]. cbn [negb]. destruct (test tld_re _) eqn:Et; [|done]. cbn [negb].
    intros Hc. split; [done|]. exists (split_on 46 d). split_and!; [by rw join_split_on|by apply includes_dot_split|by apply check_labels_spec|].
    intros t Hl. rw Hl in Et. by apply tld_re_spec.
  - intros (_ & labels & -> & H2 & Hf & Ht). assert (Hs : split_on 46 (join [46%N] labels) = labels).
    { apply split_join; [by intros ->; cbn in H2; lia|]. eapply Forall_impl; [exact Hf|]. intros l [_ Hl]. by apply label_no_dot. }
    rw (proj2 (includes_dot_split _)); [|by rw Hs]. cbn [negb]. rw Hs.
    destruct (last labels) as [t|] eqn:El; [|apply last_None in El; subst; cbn in H2; lia].
    rw (proj2 (tld_re_spec _) (Ht t eq_refl)). by apply check_labels_spec.
Qed.

(** *** Addresses pasted as URLs *)

Definition name_char (c : N) : bool := is_ldh c || (c =? 46)%N.
Definition graphic (c : N) : Prop := (33 <= c <= 126)%N.

Lemma graphic_plain c : graphic c → is_space c = false ∧ line_end c = false.
Proof.
  unfold graphic. intros Hc. unfold is_space, line_end, in_range. rw !bool_decide_false; try (rw !elem_of_cons elem_of_nil; lia).
  split; [|done]. destruct (N.leb_spec 9 c), (N.leb_spec c 13), (N.leb_spec 8192 c); cbn; try done; lia.
Qed.
Lemma name_char_graphic c : name_char c = true → graphic c ∧ ascii_lower c = c ∧ c ≠ 47%N ∧ c ≠ 58%N.
Proof.
  unfold name_char, is_ldh, graphic, ascii_lower, is_lower, is_upper, is_digit, in_range.
  rw !orb_true_iff !andb_true_iff !N.leb_le !N.eqb_eq. intros Hc.
  destruct (N.leb_spec 65 c), (N.leb_spec c 90); cbn; split_and!; try done; lia.
Qed.
Lemma domain_chars d : domain_shape d → Forall (λ c, name_char c = true) d.
Proof.
  intros (_ & labels & -> & _ & Hf & _). induction Hf as [|l labels [_ Hl] Hf IH]; [constructor|].
  assert (Hc : Forall (λ c, name_char c = true) l).
  { destruct Hl as (c & w & -> & Hc & Hw & _). apply is_ld_ldh in Hc. constructor.
    - unfold name_char. by rw Hc.
    - eapply Forall_impl; [exact Hw|]. intros x Hx. unfold name_char. by rw Hx. }
  destruct labels as [|l' labels]; [done|].
  change (join [46%N] (l :: l' :: labels)) with (l ++ [46%N] ++ join [46%N] (l' :: labels)).
  apply Forall_app. split; [done|]. apply Forall_app. split; [|exact IH]. by apply Forall_singleton.
Qed.
Lemma domain_has_dot d : domain_shape d → 46%N ∈ d.
Proof.
  intros (_ & labels & -> & H2 & _). destruct labels as [|a [|b l]]; [cbn in H2; lia..|].
  change (join [46%N] (a :: b :: l)) with (a ++ [46%N] ++ join [46%N] (b :: l)). set_solver.
Qed.
(** The first character that is none of a name ends the name. *)
Lemma take_name d t :
  Forall (λ c, name_char c = true) d → (∀ c u, t = c :: u → name_char c = false) → take_while name_char (d ++ t) = d.
Proof.
  intros Hd Ht. induction Hd as [|c d Hc Hd IH]; cbn; [|by rw Hc IH].
  destruct t as [|c u]; [done|]. cbn. by rw (Ht c u eq_refl).
Qed.
Lemma strip_path_name d t :
  Forall (λ c, name_char c = true) d → t = [] ∨ (∃ p, t = 47%N :: p ∧ Forall (λ c, line_end c = false) p) →
  strip_path (d ++ t) = d.
Proof.
  intros Hd Ht. induction Hd as [|c d Hc Hd IH]; cbn.
  - destruct Ht as [->|(p & -> & Hp)]; [done|]. cbn.
    rw (proj2 (forallb_True_iff (λ x, negb (line_end x)) p)); [done|]. eapply Forall_impl; [exact Hp|]. by intros x ->.
  - apply name_char_graphic in Hc as (_ & _ & H47 & _). destruct (N.eqb_spec c 47); [done|]. by rw IH.
Qed.
(** A name and what follows is not taken for a scheme. *)
Lemma no_scheme d t p :
  Forall (λ c, name_char c = true) d → (∀ c u, t = c :: u → name_char c = false) → 46%N ∈ d →
  46%N ∉ take_while name_char p → (∃ a b, p = a ++ 58%N :: b) → startsWith (d ++ t) p = false.
Proof.
  intros Hd Ht Hdot Hp [a [b ->]]. destruct (startsWith (d ++ t) _) eqn:E; [|done]. exfalso.
  apply startsWith_app in E as [u E]. apply (f_equal (take_while name_char)) in E. rw take_name // in E. subst d.
  apply Hp. clear -Hdot. rw -app_assoc /= in Hdot. induction a as [|x a IH]; cbn in *; [by apply elem_of_nil in Hdot|].
  destruct (name_char x); [|by apply elem_of_nil in Hdot]. apply elem_of_cons in Hdot as [->|Hin]; [by left|right; by apply IH].
Qed.
Lemma strip_scheme_url sch rest :
  sch ∈ [js "http://"; js "https://"] → strip_scheme (sch ++ rest) = rest.
Proof.
  rw !elem_of_cons elem_of_nil. intros [->|[->|[]]]; unfold strip_scheme.
  - assert (startsWith (js "http://" ++ rest) "https://" = false) as -> by done. by rw startsWith_refl_app.
  - by rw startsWith_refl_app.
Qed.

Lemma strip_scheme_name d t :
  Forall (λ c, name_char c = true) d → (∀ c u, t = c :: u → name_char c = false) → 46%N ∈ d → strip_scheme (d ++ t) = d ++ t.
Proof.
  intros Hd Ht Hdot. unfold strip_scheme.
  rw (no_scheme d t "https://") //; [|by vm_compute; set_solver|by exists (js "https"), (js "//")].
  rw (no_scheme d t "http://") //; [by vm_compute; set_solver|by exists (js "http"), (js "//")].
Qed.
Lemma strip_www_name d t :
  Forall (λ c, name_char c = true) d → (∀ c u, t = c :: u → name_char c = false) → startsWith d "www." = false →
  strip_www (d ++ t) = d ++ t.
Proof.
  intros Hd Ht Hw. unfold strip_www. destruct (startsWith (d ++ t) "www.") eqn:E; [|done]. exfalso.
  apply startsWith_app in E as [u E]. apply (f_equal (take_while name_char)) in E. rw take_name // in E.
  change (take_while name_char (js "www." ++ u)) with (js "www." ++ take_while name_char u) in E.
  by rw E startsWith_refl_app in Hw.
Qed.
Lemma graphic_lower c : graphic c → graphic (ascii_lower c).
Proof.
  unfold graphic, ascii_lower, is_upper, in_range. intros Hc.
  destruct (N.leb_spec 65 c), (N.leb_spec c 90); cbn; lia.
Qed.

Section name_theorems.
Context `{!JSRuntime}.

(** A domain pasted with a scheme, with www and with a path is reduced to the
    domain itself. *)
Theorem sanitizeDomain_url (d sch www path : jstr) :
  domain_shape d → startsWith d "www." = false →
  sch ∈ [[]; js "http://"; js "https://"] → www ∈ [[]; js "www."] →
  path = [] ∨ (∃ p, path = 47%N :: p ∧ Forall graphic p) →
  sanitizeDomain (sch ++ www ++ d ++ path) = d.
Proof.
  intros Hd Hw Hsch Hwww Hpath. unfold sanitizeDomain.
  pose proof (domain_chars d Hd) as Hc. pose proof (domain_has_dot d Hd) as Hdot.
  assert (Hlow : ascii_lower <$> d = d).
  { clear -Hc. induction Hc as [|c d Hc _ IH]; [done|]. rw fmap_cons IH. by apply name_char_graphic in Hc as (_ & -> & _). }
  assert (Hgp : Forall graphic path).
  { destruct Hpath as [->|(p & -> & Hp)]; constructor; [by unfold graphic|done]. }
  assert (Hg : Forall graphic (sch ++ www ++ d ++ path)).
  { rw !Forall_app. split_and!; [| | |done].
    - rw !elem_of_cons elem_of_nil in Hsch. destruct Hsch as [->|[->|[->|[]]]]; [constructor|..];
        apply (bool_decide_unpack _); vm_compute; exact I.
    - rw !elem_of_cons elem_of_nil in Hwww. destruct Hwww as [->|[->|[]]]; [constructor|];
        apply (bool_decide_unpack _); vm_compute; exact I.
    - eapply Forall_impl; [exact Hc|]. intros c Hcc. by apply name_char_graphic. }
  rw trim_id.
  2: { intros c t E. rw E in Hg. apply Forall_cons in Hg as [Hg _]. by apply graphic_plain. }
  2: { intros c t E. rw E in Hg. apply Forall_app in Hg as [_ Hg]. apply Forall_cons in Hg as [Hg _]. by apply graphic_plain. }
  rw toLowerCase_ascii; [|by eapply Forall_impl; [exact Hg|unfold graphic; cbn; lia]].
  rw !fmap_app Hlow. set (path' := ascii_lower <$> path).
  assert (Hp' : path' = [] ∨ ∃ p, path' = 47%N :: p ∧ Forall (λ c, line_end c = false) p).
  { destruct Hpath as [->|(p & -> & Hp)]; [by left|right]. eexists. split; [done|]. apply Forall_fmap.
    eapply Forall_impl; [exact Hp|]. intros c Hgc. by apply graphic_lower, graphic_plain in Hgc as [_ ?]. }
  assert (Hst : ∀ c u, path' = c :: u → name_char c = false).
  { intros c u E. destruct Hp' as [Ep|(p & Ep & _)]; rw Ep in E; by simplify_eq. }
  trans (strip_path (strip_www (d ++ path'))); [f_equal|by rw strip_www_name // strip_path_name].
  assert (Hs : ∀ rest, strip_scheme ((ascii_lower <$> sch) ++ rest) = rest ∨ sch = []).
  { intros rest. apply list_elem_of_In in Hsch as [<-|[<-|[<-|[]]]]; [by right|left; by apply (strip_scheme_url (js "http://")); set_solver
      |left; by apply (strip_scheme_url (js "https://")); set_solver]. }
  apply list_elem_of_In in Hwww as [<-|[<-|[]]].
  - destruct (Hs (d ++ path')) as [E| ->]; [by rw E|]. cbn [fmap list_fmap app]. by rw strip_scheme_name.
  - assert (Ew : strip_www (js "www." ++ d ++ path') = strip_www (d ++ path')) by (by rw (strip_www_name d path')).
    destruct (Hs (js "www." ++ d ++ path')) as [E| ->]; [by rw E|exact Ew].
Qed.
End name_theorems.

(** *** The dialogs *)

(** Everything that happens in the dialog of a domain. *)
Inductive delete_step (d : Domain) : DeleteDomain → DeleteDomain → Prop :=
| delete_opened v s : delete_step d s (delete_onOpenChange v s)
| delete_typed t s : dd_open s = true → delete_step d s (delete_type t s)
| delete_expanded s : dd_open s = true → delete_step d s (delete_expand s)
| delete_clicked s : dd_open s = true → delete_step d s (delete_click d s).2.

(** However the dialog was used before, it is opened without a confirmation,
    so that a domain is deleted only after its name was typed in the dialog
    that is open. *)
Theorem delete_typed_anew (d : Domain) (s : DeleteDomain) :
  rtc (delete_step d) {| dd_open := false; confirmText := []; expanded := false |} s → dd_open s = false → confirmText s = [].
Proof.
  revert s. apply (rtc_ind_r (λ s, dd_open s = false → confirmText s = []) (R := delete_step d)); [done|].
  intros s s' _ Hs IH Hc. destruct Hs as [v s|t s Ho|s Ho|s Ho].
  - destruct v; [discriminate Hc|done].
  - cbn in *. congruence.
  - cbn in *. congruence.
  - unfold delete_click in *. destruct (negb _); cbn in *; [congruence|done].
Qed.

(** The dialog that adds a domain: the tick is shown exactly for the names that
    can be sent, the cross exactly with a message, and the button sends
    exactly when it shows the tick and nothing is under way. *)
Theorem add_view_consistent `{!AppEnv, !JSRuntime} (s : AddDomain) :
  let v := AddDomainDialog s in
  (av_mark v = Some true ↔ isValid s = true) ∧
  (av_mark v = Some false ↔ is_Some (av_error v)) ∧
  (av_enabled v = true ↔ av_mark v = Some true ∧ adding s = false).
Proof.
  intros v. unfold v, AddDomainDialog, isValid, ad_error. cbn. destruct (truthy (ad_domain s)); cbn [andb].
  - destruct (validateDomain (ad_domain s)); cbn; split_and!; try (by split); destruct (adding s); cbn; split; try done; by intros [? ?].
  - split_and!; split; try done; by intros [? ?].
Qed.

(** *** The list *)

Section list_theorems.
Context `{!JSRuntime} (localeCompare : jstr → jstr → Z).

(** The list holds exactly the domains that match, ordered by date or by
    inboxes as chosen; and without a search the number beside the status is
    the number of rows. *)
Theorem filteredDomains_spec (s : DomainsState) (l : list Domain) (at_ : Domain → Z) :
  (∀ d, d ∈ l → date_ms (Domain_created_at d) = Some (at_ d)) →
  filteredDomains localeCompare s l ≡ₚ List.filter (domain_matches s) l ∧
  match dm_sort s with
  | Newest => StronglySorted (λ a b, at_ b <= at_ a)%Z (filteredDomains localeCompare s l)
  | Oldest => StronglySorted (λ a b, at_ a <= at_ b)%Z (filteredDomains localeCompare s l)
  | MostInboxes => StronglySorted (λ a b, Domain_active_inboxes b <= Domain_active_inboxes a)%Z (filteredDomains localeCompare s l)
  | _ => True
  end ∧
  (dm_search s = [] → length (filteredDomains localeCompare s l) = status_count (statusFilter s) l).
Proof.
  intros Hat. split_and!; [apply sort_js_perm| |].
  - assert (Hin : ∀ d, d ∈ List.filter (domain_matches s) l → date_ms (Domain_created_at d) = Some (at_ d)).
    { intros d Hd. apply elem_of_List_filter_any in Hd as [Hd _]. by apply Hat. }
    unfold filteredDomains. destruct (dm_sort s); try done.
    + apply (sort_js_sorted _ at_). intros a b Ha Hb. cbn. unfold date_diff. by rw !Hin.
    + assert (Hs : StronglySorted (λ a b, (- at_ b <= - at_ a)%Z) (sort_js (domain_cmp localeCompare Oldest) (List.filter (domain_matches s) l))).
      { apply (sort_js_sorted _ (λ d, - at_ d)%Z). intros a b Ha Hb. cbn. unfold date_diff. rw !Hin //. lia. }
      by apply (StronglySorted_weaken _ _ _ Hs); cbn; lia.
    + by apply (sort_js_sorted _ Domain_active_inboxes).
  - intros Hs. unfold filteredDomains. rewrite sort_js_perm.
    change (length (List.filter ?p ?x)) with (countb p x). unfold domain_matches. rw Hs. cbn [truthy negb orb andb].
    pose proof (countb_partition fullyVerified l) as Hp. destruct (statusFilter s); cbn.
    + unfold countb. by rw List_filter_true.
    + done.
    + unfold pendingCount, verifiedCount. rw -Hp.
      assert (countb (λ d, negb (Domain_mx_verified d) || negb (Domain_txt_verified d)) l =
        countb (λ x, negb (fullyVerified x)) l) as ->.
      { unfold countb. f_equal. apply List.filter_ext. intros d. unfold fullyVerified. by rw negb_andb. }
      lia.
Qed.

(** A status that no loaded domain has is shown as an organisation without
    domains, and the pages cannot be turned. *)
Theorem empty_status_shown_as_none (now : Z) (verifying : option jstr) (l : list Domain) (pages : option Z) (s : DomainsState) :
  Forall (λ d, fullyVerified d = true) l → dm_search s = [] → statusFilter s = SPending →
  DomainsPage localeCompare now true true false false verifying l pages s = DEmpty "No domains yet" true.
Proof.
  intros Hv Hs Hp. unfold DomainsPage. cbn [negb].
  assert (filteredDomains localeCompare s l = []) as ->; [|by rw Hs].
  unfold filteredDomains. rw List_filter_false; [done|]. intros d Hd. rw Forall_forall in Hv. specialize (Hv d Hd).
  unfold domain_matches. rw Hs Hp. cbn. unfold fullyVerified in Hv. by rw -negb_andb Hv.
Qed.
End list_theorems.

(** Polling goes on exactly until both records are verified. *)
Lemma poll_until_verified (d : Domain) : poll_interval (Some d) = None ↔ fullyVerified d = true.
Proof. unfold poll_interval, needsPoll, fullyVerified. by destruct (Domain_mx_verified d), (Domain_txt_verified d). Qed.

(** The page of a domain asks again every 30 seconds exactly while it says that
    setup is required and offers the check, and counts less than two records;
    a check of verified records is offered once they have been checked. *)
Theorem domain_page_polls `{!AppEnv, !JSRuntime} (now : Z) (isLoading : bool) (d : Domain) :
  ∃ p, DomainDetailPage now true false isLoading (Some d) = DVDomain p ∧
    (poll_interval (Some d) = Some 30000%Z ↔ dg_badge p = js "Setup required") ∧
    (poll_interval (Some d) = Some 30000%Z ↔ da_below (dg_actions p) = true) ∧
    (poll_interval (Some d) = Some 30000%Z ↔ records_verified (Some d) < 2) ∧
    (da_recheck (dg_actions p) ≠ None → poll_interval (Some d) = None).
Proof.
  eexists. split; [done|]. cbn. unfold poll_interval, needsPoll, fullyVerified, countb.
  destruct (Domain_mx_verified d), (Domain_txt_verified d); cbn; split_and!; try done; try (split; [done|lia]); try (split; [lia|done]); by split.
Qed.

(** Loading the teams of a domain never fails, whatever the calls answer, and
    lists each team at most once and only teams that were asked. *)
Theorem load_assignments_total `{!AppEnv} {S} (orgId domainId : jstr) (order : list Team) (w : world S) :
  ∃ l w', load_assignments orgId domainId order w = (inr l, w') ∧ (fst <$> l) `sublist_of` order.
Proof.
  revert w. induction order as [|t order IH]; intros w; [by exists [], w|]. cbn [load_assignments].
  unfold mbind at 1, M_bind at 1.
  match goal with |- context [try_catch ?m ?h w] => destruct (try_catch m h w) as [r w1] eqn:E;
    assert (Hr : ∃ mine, r = inr mine ∧ (mine = [] ∨ ∃ a, mine = [(t, a)])) end.
  { revert E. unfold try_catch, mbind, M_bind, mret, M_ret. cbv beta.
    destruct (api_get _ _ w) as [[e|res] w2]; [intros [= <- <-]; eauto|].
    destruct (prop res "data" w2) as [[e|data] w3]; [intros [= <- <-]; eauto|].
    intros [= <- <-]. destruct (find_assignment domainId data); cbn; eauto 6. }
  destruct Hr as (mine & -> & Hm). unfold mbind, M_bind, mret, M_ret. destruct (IH w1) as (l & w' & -> & Hl).
  eexists _, _. split; [done|]. rw fmap_app. destruct Hm as [->|[a ->]]; cbn; [by apply sublist_cons|by apply sublist_skip].
Qed.

(** ** Instances *)

Lemma validateDomain_spec_witness : domain_shape (js "mail.example.org").
Proof. apply validateDomain_spec; [discriminate|]. vm_compute. reflexivity. Defined.

Lemma sanitizeDomain_url_witness :
  sanitizeDomain (js "https://" ++ "www." ++ "example.org" ++ "/Path?q") (H0 := AsciiRuntime) = js "example.org".
Proof.
  apply (sanitizeDomain_url (js "example.org") (js "https://") (js "www.") (js "/Path?q") (H := AsciiRuntime)).
  - split; [vm_compute; lia|]. exists [js "example"; js "org"]. split; [reflexivity|]. split; [vm_compute; lia|]. split.
    + repeat constructor; try (vm_compute; lia); (apply label_re_spec; vm_compute; reflexivity).
    + intros t [= <-]. apply tld_re_spec. vm_compute. reflexivity.
  - reflexivity.
  - right. right. by left.
  - right. by left.
  - right. exists (js "Path?q"). split; [reflexivity|]. apply (bool_decide_unpack _). vm_compute. exact I.
Defined.

Definition a_domain (name created : jstr) (ok : bool) (inboxes : Z) : Domain := {|
  Domain_id := name; Domain_org_id := []; Domain_domain_name := name; Domain_mx_verified := ok; Domain_txt_verified := true;
  Domain_verification_record := None; Domain_mx_target := None; Domain_dns_last_checked_at := None; Domain_settings := None;
  Domain_created_at := created; Domain_active_inboxes := inboxes; Domain_inboxes_created_count := inboxes;
  Domain_team_count := 0 |}.
Definition two_domains : list Domain := [a_domain "a.org" "5" true 1; a_domain "b.org" "7" false 3].
Lemma filteredDomains_spec_witness :
  length (filteredDomains (λ _ _, 0%Z) domains_init two_domains (H0 := AsciiRuntime)) = 2.
Proof.
  refine (proj2 (proj2 (filteredDomains_spec (λ _ _, 0%Z) domains_init two_domains
    (λ d, default 0%Z (date_ms (Domain_created_at d) (JSRuntime := AsciiRuntime))) _ (H := AsciiRuntime))) eq_refl).
  intros d Hd. apply elem_of_cons in Hd as [->|Hd]; [reflexivity|]. apply list_elem_of_singleton in Hd as ->. reflexivity.
Defined.

Lemma empty_status_shown_as_none_witness :
  DomainsPage (λ _ _, 0%Z) 0 true true false false None [a_domain "a.org" "5" true 1] (Some 9%Z)
    {| dm_page := 1; dm_search := []; statusFilter := SPending; dm_sort := Newest |} (H0 := AsciiRuntime) = DEmpty "No domains yet" true.
Proof.
  apply (empty_status_shown_as_none (λ _ _, 0%Z) 0 None [a_domain "a.org" "5" true 1] (Some 9%Z)
    {| dm_page := 1; dm_search := []; statusFilter := SPending; dm_sort := Newest |} (H := AsciiRuntime)); [|reflexivity..].
  by repeat constructor.
Defined.
