(* ===== verification/Teams.v ===== *)
(** * Teams: [web/src/app/teams/page.tsx]

    The list of teams, the dialog that creates one with its search for
    members, and the tabs of a team: members, domains and settings. *)

From S2P Require Import Prelude Regex Browser Types ApiClient React OrgStore Hooks Lib ApiKeys RolesTab InboxPage SignIn Domains.
Import Hooks.Small Lib.RelativeTime.

(** ** The list *)

Record TeamsState := { selectedTeam : option Team; tm_search : jstr }.
Definition totalMembers (l : list Team) : Z := sumZ (Team_member_count <$> l).
Definition teamInboxes (l : list Team) : Z := sumZ (Team_active_inboxes <$> l).

(** *** Slugs: [[^a-z0-9\s-]] removed, then [\s+] and [-+] replaced by a hyphen. *)
Definition slug_keeps (c : N) : bool := is_lower c || is_digit c || is_space c || (c =? 45)%N.
(** Runs of characters of [p] replaced by one hyphen; [b]: the last one
    belonged to a run. *)
Fixpoint hyphen_runs (p : N → bool) (b : bool) (s : jstr) : jstr :=
  match s with
  | [] => []
  | c :: t => if p c then (if b then [] else [45%N]) ++ hyphen_runs p true t else c :: hyphen_runs p false t
  end.

Section teams.
Context `{!AppEnv, !JSRuntime}.

Definition team_slug (name : jstr) : jstr :=
  hyphen_runs (λ c, (c =? 45)%N) false (hyphen_runs is_space false (List.filter slug_keeps (toLowerCase (trim name)))).
Definition nameValid (name : jstr) : bool := (2 <=? length (trim name))%nat.
Definition isDuplicate (existing : list jstr) (name : jstr) : bool :=
  existsb (λ t, toLowerCase t =?s toLowerCase (trim name)) existing.

Definition filteredTeams (search : jstr) (l : list Team) : list Team :=
  if truthy search
  then List.filter (λ t, includes (toLowerCase (Team_name t)) (toLowerCase search) ||
                         includes (toLowerCase (Team_slug t)) (toLowerCase search)) l
  else l.
Definition teams_summary (l : list Team) : jstr :=
  if (0 <? length l)%nat then
    show_nat (length l) ++ " " ++ (if (length l =? 1)%nat then "team" else "teams") ++ middot ++
    show (totalMembers l) ++ " " ++ (if (totalMembers l =? 1)%Z then "member" else "members") ++ middot ++
    show (teamInboxes l) ++ " active " ++ (if (teamInboxes l =? 1)%Z then "inbox" else "inboxes")
  else "Organize your domains and inboxes by team.".

Record team_row := { tr_initial : jstr; tr_name : jstr; tr_slug : jstr; tr_members : Z; tr_domains : Z; tr_inboxes : Z; tr_created : jstr }.
Definition TeamTableRow (now : Z) (t : Team) : team_row := {|
  tr_initial := toUpperCase (take 1 (Team_name t)); tr_name := Team_name t; tr_slug := Team_slug t;
  tr_members := Team_member_count t; tr_domains := Team_domain_count t; tr_inboxes := Team_active_inboxes t;
  tr_created := timeAgo (Team_created_at t) now |}.
Inductive teams_view :=
| TNoOrg | TForbidden
| TDetail (t : Team) (settings : bool)
| TSkeleton | TError
| TEmpty (create : bool)
| TList (searchField : bool) (rows : list team_row).       (* no rows: no team matches *)
Definition TeamsPage (now : Z) (hasOrg isOrgMember isAdmin isLoading isError : bool) (l : list Team) (s : TeamsState) : teams_view :=
  if negb hasOrg then TNoOrg
  else if negb isOrgMember then TForbidden
  else match selectedTeam s with
       | Some t => TDetail t isAdmin
       | None =>
           if isLoading then TSkeleton else if isError then TError
           else if (length l =? 0)%nat then TEmpty isAdmin
           else TList (6 <? length l)%nat (TeamTableRow now <$> filteredTeams (tm_search s) l)
       end.
(** The row's key handler. *)
Definition row_keydown (key : jstr) (t : Team) (s : TeamsState) : TeamsState :=
  if (key =?s "Enter") || (key =?s " ") then {| selectedTeam := Some t; tm_search := tm_search s |} else s.

(** ** Creating a team *)

Record member_row := { mr_email : jstr; mr_name : jstr; mr_role : jstr }.
Record suggestion := { sg_user_id : jstr; sg_email : jstr; sg_name : jstr }.
#[export] Instance suggestion_eq_dec : EqDecision suggestion.
Proof. solve_decision. Defined.
Record domain_choice := { dc_id : jstr; dc_name : jstr; accessLevel : jstr }.
Record CreateTeam := {
  ct_name : jstr;
  ct_description : jstr;
  ct_open : bool;
  ct_creating : bool;
  initialMembers : list member_row;
  memberSearch : jstr;
  suggestions : list suggestion;
  showSuggestions : bool;
  suggestionsLoading : bool;
  selectedDomains : list domain_choice;
  domainSearch : jstr
}.
Definition ct_init : CreateTeam := {|
  ct_name := []; ct_description := []; ct_open := false; ct_creating := false; initialMembers := []; memberSearch := [];
  suggestions := []; showSuggestions := false; suggestionsLoading := false; selectedDomains := []; domainSearch := [] |}.
Definition set_members (l : list member_row) (s : CreateTeam) : CreateTeam := {|
  ct_name := ct_name s; ct_description := ct_description s; ct_open := ct_open s; ct_creating := ct_creating s;
  initialMembers := l; memberSearch := memberSearch s; suggestions := suggestions s; showSuggestions := showSuggestions s;
  suggestionsLoading := suggestionsLoading s; selectedDomains := selectedDomains s; domainSearch := domainSearch s |}.
Definition set_search (q : jstr) (s : CreateTeam) : CreateTeam := {|
  ct_name := ct_name s; ct_description := ct_description s; ct_open := ct_open s; ct_creating := ct_creating s;
  initialMembers := initialMembers s; memberSearch := q; suggestions := suggestions s; showSuggestions := showSuggestions s;
  suggestionsLoading := suggestionsLoading s; selectedDomains := selectedDomains s; domainSearch := domainSearch s |}.
Definition set_suggestions (l : list suggestion) (show_ loading : bool) (s : CreateTeam) : CreateTeam := {|
  ct_name := ct_name s; ct_description := ct_description s; ct_open := ct_open s; ct_creating := ct_creating s;
  initialMembers := initialMembers s; memberSearch := memberSearch s; suggestions := l; showSuggestions := show_;
  suggestionsLoading := loading; selectedDomains := selectedDomains s; domainSearch := domainSearch s |}.
Definition set_domains (l : list domain_choice) (q : jstr) (s : CreateTeam) : CreateTeam := {|
  ct_name := ct_name s; ct_description := ct_description s; ct_open := ct_open s; ct_creating := ct_creating s;
  initialMembers := initialMembers s; memberSearch := memberSearch s; suggestions := suggestions s; showSuggestions := showSuggestions s;
  suggestionsLoading := suggestionsLoading s; selectedDomains := l; domainSearch := q |}.
Definition set_creating_team (b : bool) (s : CreateTeam) : CreateTeam := {|
  ct_name := ct_name s; ct_description := ct_description s; ct_open := ct_open s; ct_creating := b;
  initialMembers := initialMembers s; memberSearch := memberSearch s; suggestions := suggestions s; showSuggestions := showSuggestions s;
  suggestionsLoading := suggestionsLoading s; selectedDomains := selectedDomains s; domainSearch := domainSearch s |}.

Definition emails_of (s : CreateTeam) : list jstr := mr_email <$> initialMembers s.
Definition addMember (x : suggestion) (s : CreateTeam) : CreateTeam :=
  set_suggestions [] false (suggestionsLoading s)
    (set_search [] (set_members (initialMembers s ++ [{| mr_email := sg_email x; mr_name := sg_name x; mr_role := "member" |}]) s)).
Definition removeMember (email : jstr) (s : CreateTeam) : CreateTeam :=
  set_members (List.filter (λ m, negb (mr_email m =?s email)) (initialMembers s)) s.
Definition changeMemberRole (email role : jstr) (s : CreateTeam) : CreateTeam :=
  set_members ((λ m, if mr_email m =?s email then {| mr_email := mr_email m; mr_name := mr_name m; mr_role := role |} else m)
               <$> initialMembers s) s.

(** *** The search for members

    The effect starts a timer of 300 ms whenever the text or [searchMembers]
    change, the latter with the members chosen.  [timer] holds the query and
    the members [searchMembers] closes over; [inflight] holds these members
    for each call that has not been answered. *)
Record search_sys := Search { form : CreateTeam; timer : option (jstr * list jstr); inflight : list (list jstr) }.
Definition arm (f : CreateTeam) : option (jstr * list jstr) := Some (memberSearch f, emails_of f).
Inductive search_event :=
| Type_ (q : jstr)
| Fire
| Answer (i : nat) (results : list suggestion)
| AnswerError (i : nat)
| Pick (x : suggestion)
| Drop (email : jstr)
| SetRole (email role : jstr)
| ClickOutside
| Focus.
Definition drop_call (i : nat) (l : list (list jstr)) : list (list jstr) := take i l ++ drop (S i) l.
(** [None]: the event cannot happen. *)
Definition search_step (e : search_event) (s : search_sys) : option search_sys :=
  let f := form s in
  match e with
  | Type_ q => let f' := set_search q f in Some (Search f' (arm f') (inflight s))
  | Fire => match timer s with
            | None => None
            | Some (q, added) =>
                if negb (truthy q) then Some (Search (set_suggestions [] false (suggestionsLoading f) f) None (inflight s))
                else Some (Search (set_suggestions (suggestions f) (showSuggestions f) true f) None (inflight s ++ [added]))
            end
  | Answer i results =>
      added ← inflight s !! i;
      Some (Search (set_suggestions (List.filter (λ r, negb (bool_decide (sg_email r ∈ added))) results) true false f)
              (timer s) (drop_call i (inflight s)))
  | AnswerError i =>
      inflight s !! i ≫= λ _,
      Some (Search (set_suggestions [] (showSuggestions f) false f) (timer s) (drop_call i (inflight s)))
  | Pick x => if showSuggestions f && negb (suggestionsLoading f) && bool_decide (x ∈ suggestions f)
              then let f' := addMember x f in Some (Search f' (arm f') (inflight s)) else None
  | Drop email => let f' := removeMember email f in Some (Search f' (arm f') (inflight s))
  | SetRole email r => let f' := changeMemberRole email r f in Some (Search f' (arm f') (inflight s))
  | ClickOutside => Some (Search (set_suggestions (suggestions f) false (suggestionsLoading f) f) (timer s) (inflight s))
  | Focus => Some (Search (set_suggestions (suggestions f) (showSuggestions f || (0 <? length (suggestions f))%nat)
                             (suggestionsLoading f) f) (timer s) (inflight s))
  end.
Definition search_init : search_sys := Search ct_init (Some ([], [])) [].
Fixpoint search_run (es : list search_event) (s : search_sys) : option search_sys :=
  match es with [] => Some s | e :: es' => search_step e s ≫= search_run es' end.

(** *** Domains *)
Definition verifiedDomains (l : list Domain) : list Domain := List.filter fullyVerified l.
Definition availableDomains (l : list Domain) (s : CreateTeam) : list Domain :=
  List.filter (λ d, negb (existsb (λ c, dc_id c =?s Domain_id d) (selectedDomains s))) (verifiedDomains l).
Definition filteredAvailable (l : list Domain) (s : CreateTeam) : list Domain :=
  if truthy (domainSearch s)
  then List.filter (λ d, includes (toLowerCase (Domain_domain_name d)) (toLowerCase (domainSearch s))) (availableDomains l s)
  else availableDomains l s.
(** The domains offered as buttons. *)
Definition domain_chips (l : list Domain) (s : CreateTeam) : list Domain :=
  if truthy (domainSearch s) || (length (filteredAvailable l s) <=? 6)%nat then take 8 (filteredAvailable l s) else [].
Inductive domain_event := AddDomainChip (d : Domain) | RemoveChoice (id : jstr) | SetAccess (id level : jstr) | SearchDomain (q : jstr).
Definition domain_enabled (l : list Domain) (s : CreateTeam) (e : domain_event) : Prop :=
  match e with AddDomainChip d => d ∈ domain_chips l s | _ => True end.
Definition domain_update (e : domain_event) (s : CreateTeam) : CreateTeam :=
  match e with
  | AddDomainChip d => set_domains (selectedDomains s ++ [{| dc_id := Domain_id d; dc_name := Domain_domain_name d; accessLevel := "full" |}]) [] s
  | RemoveChoice id => set_domains (List.filter (λ c, negb (dc_id c =?s id)) (selectedDomains s)) (domainSearch s) s
  | SetAccess id lv => set_domains ((λ c, if dc_id c =?s id then {| dc_id := dc_id c; dc_name := dc_name c; accessLevel := lv |} else c)
                                    <$> selectedDomains s) (domainSearch s) s
  | SearchDomain q => set_domains (selectedDomains s) q s
  end.
Inductive domain_step (l : list Domain) : CreateTeam → CreateTeam → Prop :=
| domain_step_intro e s : domain_enabled l s e → domain_step l s (domain_update e s).

(** *** Sending *)
Definition team_payload (s : CreateTeam) : json :=
  JObj ([(js "name", JStr (trim (ct_name s)))] ++
        (if truthy (trim (ct_description s)) then [(js "description", JStr (trim (ct_description s)))] else []) ++
        (if (0 <? length (initialMembers s))%nat
         then [(js "members", JArr ((λ m, JObj [(js "email", JStr (mr_email m)); (js "role", JStr (mr_role m))]) <$> initialMembers s))]
         else []) ++
        (if (0 <? length (selectedDomains s))%nat
         then [(js "domains", JArr ((λ d, JObj [(js "domain_id", JStr (dc_id d)); (js "access_level", JStr (accessLevel d))]) <$> selectedDomains s))]
         else [])).
Definition ct_success (s : CreateTeam) : CreateTeam := {|
  ct_name := []; ct_description := []; ct_open := false; ct_creating := ct_creating s; initialMembers := [];
  memberSearch := memberSearch s; suggestions := suggestions s; showSuggestions := showSuggestions s;
  suggestionsLoading := suggestionsLoading s; selectedDomains := []; domainSearch := domainSearch s |}.
Definition ct_onOpenChange (v : bool) (s : CreateTeam) : CreateTeam := {|
  ct_name := if v then ct_name s else []; ct_description := if v then ct_description s else []; ct_open := v;
  ct_creating := ct_creating s; initialMembers := if v then initialMembers s else [];
  memberSearch := if v then memberSearch s else []; suggestions := suggestions s; showSuggestions := showSuggestions s;
  suggestionsLoading := suggestionsLoading s; selectedDomains := if v then selectedDomains s else [];
  domainSearch := if v then domainSearch s else [] |}.
Definition create_team (orgId : jstr) (closure : CreateTeam) : M CreateTeam unit :=
  if negb (nameValid (ct_name closure)) then mret tt
  else
    modify (set_creating_team true);;
    try_finally
      (try_catch
        (api_post ("/orgs/" ++ orgId ++ "/teams") (Some (team_payload closure));;
         emit (EInvalidate "teams");;
         emit (EStore "fetchTeams" orgId);;
         emit (EToastSuccess "Team created");;
         modify ct_success)
        toast_error)
      (modify (set_creating_team false)).
Definition create_team_disabled (existing : list jstr) (s : CreateTeam) : bool :=
  negb (nameValid (ct_name s)) || isDuplicate existing (ct_name s) || ct_creating s.
Definition create_team_keydown (orgId : jstr) (existing : list jstr) (key : jstr) (closure : CreateTeam) : M CreateTeam unit :=
  when ((key =?s "Enter") && negb (isDuplicate existing (ct_name closure)) && nameValid (ct_name closure))
    (create_team orgId closure).
Definition create_team_label (s : CreateTeam) : jstr :=
  let m := length (initialMembers s) in let d := length (selectedDomains s) in
  if ct_creating s then "Creating" ++ ellipsis
  else "Create Team" ++ (if (0 <? m)%nat || (0 <? d)%nat then js " with" else []) ++
    (if (0 <? m)%nat then " " ++ show_nat m ++ " member" ++ plural_s m else []) ++
    (if (0 <? m)%nat && (0 <? d)%nat then js " and" else []) ++
    (if (0 <? d)%nat then " " ++ show_nat d ++ " domain" ++ plural_s d else []).

(** ** The tabs of a team *)

(** *** Members *)

Record MembersTab := {
  addOpen : bool;
  memberEmail : jstr;
  mt_role : jstr;
  mt_search : jstr;
  mt_suggestions : list suggestion;
  mt_show : bool;
  mt_loading : bool;
  mt_timer : option jstr                 (* the query of the timer that runs *)
}.
Definition mt_update (email role : jstr) (sugg : list suggestion) (sh ld : bool) (t : option jstr) (s : MembersTab) : MembersTab := {|
  addOpen := addOpen s; memberEmail := email; mt_role := role; mt_search := mt_search s; mt_suggestions := sugg;
  mt_show := sh; mt_loading := ld; mt_timer := t |}.
(** Changing the text starts the timer. *)
Definition mt_type (q : jstr) (s : MembersTab) : MembersTab :=
  mt_update q (mt_role s) (mt_suggestions s) (mt_show s) (mt_loading s) (Some q) s.
(** The timer after the text is cleared. *)
Definition cleared_timer (s : MembersTab) : option jstr := if truthy (memberEmail s) then Some [] else mt_timer s.
Definition selectSuggestion (x : suggestion) (s : MembersTab) : MembersTab :=
  mt_update (sg_email x) (mt_role s) [] false (mt_loading s)
    (if memberEmail s =?s sg_email x then mt_timer s else Some (sg_email x)) s.
(** The timer fires, and the call is answered with [results] or fails. *)
Definition searchMembers (results : option (list suggestion)) (s : MembersTab) : M MembersTab unit :=
  match mt_timer s with
  | None => mret tt
  | Some q =>
      if negb (truthy q) then modify (λ s, mt_update (memberEmail s) (mt_role s) [] false (mt_loading s) None s)
      else match results with
           | Some l => modify (λ s, mt_update (memberEmail s) (mt_role s) l true false None s)
           | None => modify (λ s, mt_update (memberEmail s) (mt_role s) [] (mt_show s) false None s);;
                     emit (EToastError "Failed to search members")
           end
  end.
Definition mt_onOpenChange (v : bool) (s : MembersTab) : MembersTab :=
  if v then {| addOpen := true; memberEmail := memberEmail s; mt_role := mt_role s; mt_search := mt_search s;
               mt_suggestions := mt_suggestions s; mt_show := mt_show s; mt_loading := mt_loading s; mt_timer := mt_timer s |}
  else {| addOpen := false; memberEmail := []; mt_role := "member"; mt_search := mt_search s; mt_suggestions := [];
          mt_show := false; mt_loading := mt_loading s; mt_timer := cleared_timer s |}.

Definition team_path (orgId teamId : jstr) : jstr := "/orgs/" ++ orgId ++ "/teams/" ++ teamId.
Definition tab_addMember (orgId teamId : jstr) (closure : MembersTab) : mutation MembersTab unit := {|
  mutationFn _ := api_post (team_path orgId teamId ++ "/members")
                    (Some (JObj [(js "email", JStr (memberEmail closure)); (js "role", JStr (mt_role closure))]));
  onSuccess _ := emit (EInvalidate "team-members");; emit (EToastSuccess "Member added");;
                 modify (λ s, {| addOpen := false; memberEmail := []; mt_role := "member"; mt_search := mt_search s;
                   mt_suggestions := mt_suggestions s; mt_show := mt_show s; mt_loading := mt_loading s;
                   mt_timer := cleared_timer s |});
  onError := toast_error
|}.
Definition tab_changeRole (orgId teamId : jstr) : mutation MembersTab (jstr * jstr) := {|
  mutationFn '(uid, role) := api_patch (team_path orgId teamId ++ "/members/" ++ uid) (Some (JObj [(js "role", JStr role)]));
  onSuccess _ := emit (EInvalidate "team-members");; emit (EInvalidate "teams");; emit (EToastSuccess "Role updated");
  onError := toast_error
|}.
Definition tab_removeMember (orgId teamId : jstr) : mutation MembersTab jstr := {|
  mutationFn uid := api_del (team_path orgId teamId ++ "/members/" ++ uid) None;
  onSuccess _ := emit (EInvalidate "team-members");; emit (EInvalidate "teams");; emit (EToastSuccess "Member removed");
  onError := toast_error
|}.
Definition filteredMembers (search : jstr) (l : list Membership) : list Membership :=
  if truthy search
  then List.filter (λ m, includes (toLowerCase (default [] (Membership_display_name m))) (toLowerCase search) ||
                         includes (toLowerCase (default [] (Membership_email m))) (toLowerCase search)) l
  else l.
Definition members_summary (l : list Membership) : jstr :=
  let leads := countb (λ m, Membership_role m =?s "lead") l in
  show_nat (length l) ++ " " ++ (if (length l =? 1)%nat then "member" else "members") ++
  (if (0 <? leads)%nat then middot ++ show_nat leads ++ " " ++ (if (leads =? 1)%nat then "lead" else "leads") else []).

(** *** Domains *)

Definition accessLabel (level : jstr) : jstr :=
  if level =?s "full" then "Full" else if level =?s "create_inbox" then "Create inbox"
  else if level =?s "read_only" then "Read only" else level.
Record AssignmentsTab := { assignOpen : bool; selectedDomain : jstr; at_search : jstr }.
Definition assign (orgId teamId : jstr) : mutation AssignmentsTab jstr := {|
  mutationFn domainId := api_post (team_path orgId teamId ++ "/domains")
                           (Some (JObj [(js "domain_id", JStr domainId); (js "access_level", JStr "full")]));
  onSuccess _ := emit (EInvalidate "domain-assignments");; emit (EInvalidate "teams");; emit (EToastSuccess "Domain assigned");;
                 modify (λ s, {| assignOpen := false; selectedDomain := []; at_search := at_search s |});
  onError := toast_error
|}.
Definition unassign (orgId teamId : jstr) : mutation AssignmentsTab jstr := {|
  mutationFn domainId := api_del (team_path orgId teamId ++ "/domains/" ++ domainId ++ "?force=true") None;
  onSuccess _ := emit (EInvalidate "domain-assignments");; emit (EInvalidate "teams");; emit (EToastSuccess "Domain unassigned");
  onError := toast_error
|}.
Definition assignable (assignments : list DomainAssignment) (domains : list Domain) : list Domain :=
  List.filter (λ d, negb (bool_decide (Domain_id d ∈ DomainAssignment_domain_id <$> assignments)) && Domain_mx_verified d &&
                    Domain_txt_verified d) domains.
Definition filteredAssignments (search : jstr) (l : list DomainAssignment) : list DomainAssignment :=
  if truthy search
  then List.filter (λ a, includes (toLowerCase (default [] (DomainAssignment_domain_name a))) (toLowerCase search)) l
  else l.

(** The dialog that removes an assignment. *)
Record Unassign := { ua_open : bool; ua_text : jstr }.
Inductive unassign_event := UTrigger | UDismiss | UCancel | UType (v : jstr) | UConfirm.
Definition assignment_name (a : DomainAssignment) : jstr :=
  jor (default [] (DomainAssignment_domain_name a)) (DomainAssignment_domain_id a).
(** The new state, and whether the domain is removed.  Escape and the close
    button go through [onOpenChange]; the cancel button does not. *)
Definition unassign_step (a : DomainAssignment) (loading : bool) (e : unassign_event) (s : Unassign) : Unassign * bool :=
  match e with
  | UTrigger => ({| ua_open := true; ua_text := ua_text s |}, false)
  | UDismiss => ({| ua_open := false; ua_text := [] |}, false)
  | UCancel => if negb (ua_open s) || loading then (s, false) else ({| ua_open := false; ua_text := ua_text s |}, false)
  | UType v => if negb (ua_open s) || loading then (s, false) else ({| ua_open := true; ua_text := v |}, false)
  | UConfirm => if negb (ua_open s) || loading || negb (ua_text s =?s assignment_name a) then (s, false)
                else ({| ua_open := false; ua_text := [] |}, true)
  end.

(** *** Settings *)

Record TeamSettingsTab := { ts_name : jstr; ts_attachments : jstr; maxTTL : jstr; ts_saving : bool }.
Definition team_attachments (t : Team) : jstr := default (js "inherit") (Team_settings t ≫= TeamSettings_attachments_enabled).
Definition team_maxTTL (t : Team) : jstr := default [] (Team_settings t ≫= TeamSettings_max_inbox_ttl).
Definition ts_mount (t : Team) : TeamSettingsTab :=
  {| ts_name := Team_name t; ts_attachments := team_attachments t; maxTTL := team_maxTTL t; ts_saving := false |}.
Definition ts_dirty (t : Team) (s : TeamSettingsTab) : bool :=
  negb (ts_name s =?s Team_name t) || negb (ts_attachments s =?s team_attachments t) || negb (maxTTL s =?s team_maxTTL t).
(** [/^\d+[smh]$/]. *)
Definition ttl_re : re := rseq [RBegin; rplus rdigit; rone_of "smh"; REnd].
Definition ttlValid (s : TeamSettingsTab) : bool := negb (truthy (maxTTL s)) || test ttl_re (maxTTL s).
Definition ts_set_saving (b : bool) (s : TeamSettingsTab) : TeamSettingsTab :=
  {| ts_name := ts_name s; ts_attachments := ts_attachments s; maxTTL := maxTTL s; ts_saving := b |}.
Definition ts_save (orgId : jstr) (t : Team) (closure : TeamSettingsTab) : M TeamSettingsTab unit :=
  if negb (truthy (trim (ts_name closure))) then emit (EToastError "Name is required")
  else
    modify (ts_set_saving true);;
    try_finally
      (try_catch
        (api_patch (team_path orgId (Team_id t))
           (Some (JObj [(js "name", JStr (trim (ts_name closure)));
                        (js "settings", JObj [(js "attachments_enabled", JStr (ts_attachments closure));
                                              (js "max_inbox_ttl", if truthy (maxTTL closure) then JStr (maxTTL closure) else JNull)])]));;
         emit (EInvalidate "teams");; emit (EStore "fetchTeams" orgId);; emit (EToastSuccess "Team updated"))
        toast_error)
      (modify (ts_set_saving false)).
Definition ts_disabled (t : Team) (s : TeamSettingsTab) : bool :=
  ts_saving s || negb (ts_dirty t s) || (truthy (maxTTL s) && negb (ttlValid s)).

(** Deleting the team leaves its page. *)
Definition deleteTeam (orgId : jstr) (t : Team) : M TeamsState unit :=
  try_catch
    (api_del (team_path orgId (Team_id t)) None;;
     emit (EInvalidate "teams");; emit (EStore "fetchTeams" orgId);;
     modify (λ s, {| selectedTeam := None; tm_search := tm_search s |});;
     emit (EToastSuccess "Team deleted"))
    toast_error.

End teams.

(** ** Theorems *)

Lemma hyphen_runs_chars p b s q :
  (∀ c, q c = true → p c = false → is_ldh c = true) → Forall (λ c, q c = true) s → Forall (λ c, is_ldh c = true) (hyphen_runs p b s).
Proof.
  intros Hq Hs. revert b. induction Hs as [|c s Hc Hs IH]; intros b; cbn; [constructor|].
  destruct (p c) eqn:Ep; [|constructor; [by apply Hq|apply IH]]. apply Forall_app. split; [|apply IH].
  destruct b; repeat constructor.
Qed.
(** No two hyphens in a row. *)
Fixpoint single_hyphens (s : jstr) : Prop :=
  match s with
  | c :: ((d :: _) as t) => ¬ (c = 45%N ∧ d = 45%N) ∧ single_hyphens t
  | _ => True
  end.
Lemma hyphen_runs_single b s :
  single_hyphens (hyphen_runs (λ c, (c =? 45)%N) b s) ∧
  (b = true → head (hyphen_runs (λ c, (c =? 45)%N) b s) ≠ Some 45%N).
Proof.
  revert b. induction s as [|c s IH]; intros b; cbn; [done|].
  destruct (N.eqb_spec c 45) as [->|Hc].
  - destruct (IH true) as [H1 H2]. specialize (H2 eq_refl). destruct b; cbn; [by split|]. split; [|done].
    destruct (hyphen_runs _ true s) as [|d t]; [done|]. split; [|done]. intros [_ ->]. by apply H2.
  - destruct (IH false) as [H1 _]. split; [|intros _ [= ->]; done].
    destruct (hyphen_runs _ false s) as [|d t]; [done|]. split; [|done]. by intros [-> _].
Qed.

Section team_theorems.
Context `{!JSRuntime}.

(** The slug shown for a team holds only lower-case letters, digits and single
    hyphens. *)
Theorem team_slug_shape (name : jstr) :
  Forall (λ c, is_ldh c = true) (team_slug name) ∧ single_hyphens (team_slug name).
Proof.
  unfold team_slug. split; [|apply hyphen_runs_single].
  apply (hyphen_runs_chars _ _ _ is_ldh); [done|].
  apply (hyphen_runs_chars _ _ _ slug_keeps).
  - intros c Hk Hs. unfold slug_keeps in Hk. unfold is_ldh. rw Hs orb_false_r in Hk. done.
  - apply Forall_forall. intros c Hc. by apply elem_of_List_filter_any in Hc as [_ Hc].
Qed.

(** *** Members of a new team *)

(** An answer is fresh when no one was added since its call. *)
Definition fresh_event (e : search_event) (s : search_sys) : Prop :=
  match e with
  | Answer i _ => ∀ added, inflight s !! i = Some added → emails_of (form s) ⊆ added
  | _ => True
  end.
Inductive fresh_step : search_sys → search_sys → Prop :=
| fresh_step_intro e s s' : fresh_event e s → search_step e s = Some s' → fresh_step s s'.
(** Nobody is chosen twice, and nobody chosen is suggested. *)
Definition members_ok (s : search_sys) : Prop :=
  NoDup (emails_of (form s)) ∧ ∀ x, x ∈ suggestions (form s) → sg_email x ∉ emails_of (form s).

Lemma removeMember_emails email s : emails_of (removeMember email s) `sublist_of` emails_of s.
Proof.
  unfold emails_of, removeMember. cbn. induction (initialMembers s) as [|m l IH]; cbn; [done|].
  destruct (mr_email m =?s email); cbn; [by apply sublist_cons|by apply sublist_skip].
Qed.
Lemma changeMemberRole_emails email role s : emails_of (changeMemberRole email role s) = emails_of s.
Proof.
  unfold emails_of, changeMemberRole. cbn. rw -list_fmap_compose. apply list_fmap_ext. intros _ m _. cbn. by case_match.
Qed.
Lemma fresh_step_ok s s' : fresh_step s s' → members_ok s → members_ok s'.
Proof.
  intros [e a b Hf He] [Hn Hs]. destruct e as [q| |i rs|i|x|em|em r| |]; cbn in He.
  - by simplify_eq.
  - destruct (timer a) as [[q added]|]; [|done]. destruct (truthy q); cbn in He; simplify_eq; [by split|].
    split; [done|]. by intros x Hx%elem_of_nil.
  - destruct (inflight a !! i) as [added|] eqn:Ei; [|done]. cbn in He. simplify_eq. split; [done|]. cbn. intros x Hx.
    apply elem_of_List_filter_any in Hx as [_ Hx]. intros Hin. specialize (Hf added Ei). apply Hf in Hin.
    by rw bool_decide_true in Hx.
  - destruct (inflight a !! i); [|done]. cbn in He. simplify_eq. split; [done|]. by intros x Hx%elem_of_nil.
  - destruct (_ && bool_decide (x ∈ suggestions (form a))) eqn:E; [|done]. simplify_eq.
    apply andb_prop in E as [_ Hx%bool_decide_eq_true]. split; [|by intros y Hy%elem_of_nil].
    unfold emails_of. cbn. rw fmap_app. apply NoDup_app. split_and!; [done| |apply NoDup_singleton].
    intros y Hy ->%list_elem_of_singleton. by apply (Hs x Hx).
  - simplify_eq. pose proof (removeMember_emails em (form a)) as Hsub. split; [by eapply sublist_NoDup|].
    intros y Hy Hin. apply (Hs y Hy). by eapply elem_of_sublist.
  - simplify_eq. unfold members_ok. cbn [form]. rw changeMemberRole_emails. by split.
  - by simplify_eq.
  - by simplify_eq.
Qed.

(** As long as answers come for the current choice of members, nobody is
    chosen twice and nobody chosen is suggested again. *)
Theorem fresh_answers_distinct (s : search_sys) : rtc fresh_step search_init s → members_ok s.
Proof.
  assert (Hi : members_ok search_init) by (split; [constructor|by intros x Hx%elem_of_nil]).
  intros Hr. induction Hr as [|a b c Hab _ IH]; [done|]. apply IH. by eapply fresh_step_ok.
Qed.

Definition alice : suggestion := {| sg_user_id := "u1"; sg_email := "al@b.test"; sg_name := "Al" |}.
(** An answer that comes late is not discarded: it suggests a person who was
    added in the meantime, who can then be added a second time. *)
Theorem late_answer_adds_twice :
  ∃ s, search_run [Type_ "a"; Fire; Type_ "al"; Fire; Answer 1 [alice]; Pick alice; Answer 0 [alice]; Pick alice]
         search_init = Some s ∧ ¬ NoDup (emails_of (form s)).
Proof.
  eexists. split; [vm_compute; reflexivity|]. cbn. intros Hn. apply NoDup_cons in Hn as [Hn _]. apply Hn. by left.
Qed.

(** *** Domains of a new team *)

Definition choices_ok (l : list Domain) (s : CreateTeam) : Prop :=
  NoDup (dc_id <$> selectedDomains s) ∧
  ∀ c, c ∈ selectedDomains s → ∃ d, d ∈ l ∧ fullyVerified d = true ∧ Domain_id d = dc_id c.

Lemma chips_available l s d : d ∈ domain_chips l s → d ∈ availableDomains l s.
Proof.
  unfold domain_chips, filteredAvailable. intros Hd. destruct (_ || _); [|by apply elem_of_nil in Hd].
  assert (Hd' : d ∈ (if truthy (domainSearch s)
    then List.filter (λ x, includes (toLowerCase (Domain_domain_name x)) (toLowerCase (domainSearch s))) (availableDomains l s)
    else availableDomains l s)) by (eapply elem_of_sublist; [exact Hd|apply sublist_take]).
  destruct (truthy (domainSearch s)); [|done]. by apply elem_of_List_filter_any in Hd' as [Hd' _].
Qed.
Lemma available_fresh l s d :
  d ∈ availableDomains l s → d ∈ l ∧ fullyVerified d = true ∧ Domain_id d ∉ dc_id <$> selectedDomains s.
Proof.
  intros Hd. apply elem_of_List_filter_any in Hd as [Hd Hn]. apply elem_of_List_filter_any in Hd as [Hd Hv].
  split_and!; [done|done|]. intros Hin. apply list_elem_of_fmap in Hin as (c & E & Hc).
  apply negb_true_iff in Hn. assert (Hex : existsb (λ c, dc_id c =?s Domain_id d) (selectedDomains s) = true); [|congruence].
  apply List.existsb_exists. exists c. split; [by apply list_elem_of_In|]. rw E. apply jeqb_refl.
Qed.

(** Whatever is clicked, a new team is given different domains, all of them
    verified domains of the organisation. *)
Theorem team_domains_distinct (l : list Domain) (s : CreateTeam) :
  rtc (domain_step l) ct_init s → choices_ok l s.
Proof.
  assert (Hi : choices_ok l ct_init) by (split; [constructor|by intros c Hc%elem_of_nil]).
  intros Hr. induction Hr as [|a b c [e x He] _ IH]; [done|]. apply IH. clear IH. destruct Hi as [Hn Hv].
  destruct e as [d|id|id lv|q]; unfold choices_ok; cbn; [| | |done].
  - apply chips_available, available_fresh in He as (Hd & Hver & Hid). rw fmap_app. split.
    + apply NoDup_app. split_and!; [done| |apply NoDup_singleton]. by intros y Hy ->%list_elem_of_singleton.
    + intros y [Hy|Hy]%elem_of_app; [by apply Hv|]. apply list_elem_of_singleton in Hy as ->. by exists d.
  - split.
    + eapply sublist_NoDup; [exact Hn|]. induction (selectedDomains x) as [|y k IH]; cbn; [done|].
      apply NoDup_cons in Hn as [_ Hn]. specialize (IH Hn ltac:(intros z Hz; apply Hv; by right)).
      destruct (dc_id y =?s id); cbn; [by apply sublist_cons|by apply sublist_skip].
    + intros y Hy. apply elem_of_List_filter_any in Hy as [Hy _]. by apply Hv.
  - assert (Hids : dc_id <$> ((λ c0, if dc_id c0 =?s id then {| dc_id := dc_id c0; dc_name := dc_name c0; accessLevel := lv |} else c0)
      <$> selectedDomains x) = dc_id <$> selectedDomains x).
    { rw -list_fmap_compose. apply list_fmap_ext. intros _ y _. cbn. by case_match. }
    split; [by rw Hids|]. intros y Hy. apply list_elem_of_fmap in Hy as (z & -> & Hz).
    destruct (Hv z Hz) as (d & ? & ? & ?). exists d. split_and!; [done|done|]. by case_match.
Qed.
End team_theorems.

(** *** The tabs *)

(** Choosing a suggestion changes the text, which is searched for in turn:
    the answer opens the list again. *)
Theorem selection_reopens_list (x : suggestion) (s : MembersTab) (results : list suggestion) (w : world MembersTab) :
  memberEmail s ≠ sg_email x → sg_email x ≠ [] → st w = selectSuggestion x s →
  mt_show (st (snd (searchMembers (Some results) (st w) w))) = true.
Proof.
  intros Hne Hx Hst. rw Hst. unfold searchMembers, selectSuggestion. cbn. rw (proj2 (jeqb_neq _ _) Hne).
  rw (proj2 (truthy_nonempty _) Hx). done.
Qed.

(** Cancelling the removal of a domain keeps the confirmation that was typed:
    opened again, the dialog removes the domain without asking. *)
Theorem cancel_keeps_confirmation (a : DomainAssignment) (s : Unassign) :
  let s1 := fst (unassign_step a false UTrigger s) in
  let s2 := fst (unassign_step a false (UType (assignment_name a)) s1) in
  let s3 := fst (unassign_step a false UCancel s2) in
  let s4 := fst (unassign_step a false UTrigger s3) in
  ua_open s3 = false ∧ snd (unassign_step a false UConfirm s4) = true ∧
  snd (unassign_step a false UConfirm (fst (unassign_step a false UTrigger (fst (unassign_step a false UDismiss s2))))) =
    (assignment_name a =?s []).
Proof.
  cbn. rw jeqb_refl. split_and!; [done|done|]. unfold jeqb. repeat case_bool_decide; cbn; congruence.
Qed.

(** The form of a team stays changed after it was saved, and keeps the old
    name in view, since the page holds the team as it was when it was opened. *)
Theorem saved_team_stays_dirty `{!AppEnv} (orgId : jstr) (t : Team) (s : TeamSettingsTab) (w : world TeamSettingsTab) :
  st w = s → ts_dirty t s = true → ts_dirty t (st (snd (ts_save orgId t s w))) = true.
Proof.
  intros Hw Hd. unfold ts_save. destruct (truthy (trim (ts_name s))); cbn [negb]; [|by cbn; rw Hw]. run_M.
  pose proof (sf_state _ _ (session_frame_request (S:=TeamSettingsTab) (team_path orgId (Team_id t))
    {| o_method := "PATCH"; o_headers := []; o_body := Some (JObj [(js "name", JStr (trim (ts_name s)));
                        (js "settings", JObj [(js "attachments_enabled", JStr (ts_attachments s));
                                              (js "max_inbox_ttl", if truthy (maxTTL s) then JStr (maxTTL s) else JNull)])]); o_params := None |}
    (World (brw w) (ts_set_saving true (st w))))) as Hs.
  unfold api_patch, api_send, toast_error. run_M. destruct (request _ _ _) as [[e|v] w1]; cbn [snd] in Hs; cbn; rw Hs Hw; exact Hd.
Qed.

(** A limit for the lifetime of inboxes is a number and one unit; in
    particular compound lifetimes, which the inbox form accepts, are refused. *)
Theorem ttl_re_spec (s : jstr) :
  test ttl_re s = true ↔ ∃ n u, s = n ++ [u] ∧ n ≠ [] ∧ Forall (λ c, is_digit c = true) n ∧ u ∈ js "smh".
Proof.
  unfold ttl_re. cbn [rseq]. rw test_anchored. split.
  - intros [e Hm]. apply rmatch_seq_inv in Hm as (s1 & (n & Hn & Fn & E1)%rmatch_plus_word & Hm).
    apply rmatch_seq_inv in Hm as (s2 & (u & E2 & Hu)%rmatch_cls_inv & Hm).
    assert (Hend : m_rest s2 = []) by (by inversion Hm). cbn in E1. exists n, u.
    split_and!; [by rw E1 E2 Hend|done|done|by apply bool_decide_eq_true in Hu].
  - intros (n & u & -> & Hn & Fn & Hu). destruct (rmatch_word_plus is_digit None n [u] [] Hn Fn) as [p Hm].
    eexists. eapply M_seq; [exact Hm|]. eapply M_seq; [eapply M_cls; [done|by apply bool_decide_eq_true]|by apply M_end].
Qed.

(** ** Instances *)

Lemma fresh_answers_distinct_witness :
  ∃ s, search_run [Type_ "al"; Fire; Answer 0 [alice]; Pick alice] search_init = Some s ∧ members_ok s.
Proof.
  eexists. split; [vm_compute; reflexivity|]. apply fresh_answers_distinct.
  eapply rtc_l; [by apply (fresh_step_intro (Type_ "al"))|]. eapply rtc_l; [by apply (fresh_step_intro Fire)|].
  eapply rtc_l; [apply (fresh_step_intro (Answer 0 [alice])); [|reflexivity]|].
  { intros added [= <-] x Hx. by apply elem_of_nil in Hx. }
  eapply rtc_once. apply (fresh_step_intro (Pick alice)); [done|]. vm_compute. reflexivity.
Defined.

Definition one_verified : list Domain := [a_domain "a.org" "5" true 1].
Lemma team_domains_distinct_witness :
  choices_ok one_verified (domain_update (AddDomainChip (a_domain "a.org" "5" true 1)) ct_init).
Proof.
  apply (team_domains_distinct (H := AsciiRuntime)). apply rtc_once.
  apply (domain_step_intro (H0 := AsciiRuntime)). cbn. by left.
Defined.

Definition tab_now : MembersTab := {| addOpen := true; memberEmail := "al"; mt_role := "member"; mt_search := []; mt_suggestions := [alice];
  mt_show := true; mt_loading := false; mt_timer := None |}.
Lemma selection_reopens_list_witness :
  mt_show (st (snd (searchMembers (Some [alice]) (selectSuggestion alice tab_now)
    (World (browser_on ∅ "/teams" []) (selectSuggestion alice tab_now))))) = true.
Proof.
  apply (selection_reopens_list alice tab_now [alice] (World (browser_on ∅ "/teams" []) (selectSuggestion alice tab_now)));
    [discriminate|discriminate|reflexivity].
Defined.

Definition some_team : Team := {|
  Team_id := "t"; Team_org_id := []; Team_name := "Ops"; Team_slug := "ops"; Team_settings := None; Team_created_at := "0";
  Team_member_count := 0; Team_domain_count := 0; Team_active_inboxes := 0 |}.
Definition renamed_team : TeamSettingsTab := {| ts_name := "Dev"; ts_attachments := "inherit"; maxTTL := []; ts_saving := false |}.
Lemma saved_team_stays_dirty_witness :
  ts_dirty some_team (st (snd (ts_save "o" some_team renamed_team
    (World (browser_on ∅ "/teams" [answer 200 (JObj [])]) renamed_team) (H := default_env)))) = true.
Proof.
  apply (saved_team_stays_dirty "o" some_team renamed_team
    (World (browser_on ∅ "/teams" [answer 200 (JObj [])]) renamed_team) (H := default_env)); reflexivity.
Defined.
