(* ===== verification/Webhooks.v ===== *)
(** * The webhooks page

    [app/webhooks/page.tsx]: the list with its optimistic removal, the status
    of a webhook, delivery logs, and the dialogs that create and edit one.
    The removal is also modelled with several calls in flight at once. *)

From S2P Require Import Prelude Browser Types ApiClient React Lib ApiKeys.
Import RelativeTime.

(** A literal of the source in which single quotes stand for double quotes. *)
Definition quoted (s : string) : jstr := (λ c, if (c =? 39)%N then 34%N else c) <$> js s.

Record event_info := { ev_key : jstr; ev_label : jstr; ev_description : jstr; ev_example : jstr }.
Definition EVENT_INFO : list event_info := [
  {| ev_key := "email.received"; ev_label := "Email Received";
     ev_description := "Fires when a new email arrives at any inbox in this team.";
     ev_example := quoted "{ 'email_id': '...', 'inbox_id': '...', 'from': 'sender@example.com', 'subject': '...' }" |};
  {| ev_key := "inbox.created"; ev_label := "Inbox Created";
     ev_description := "Fires when a new temporary inbox is created by a team member.";
     ev_example := quoted "{ 'inbox_id': '...', 'address': 'abc@domain.com', 'domain_assignment_id': '...' }" |};
  {| ev_key := "inbox.expired"; ev_label := "Inbox Expired";
     ev_description := "Fires when an inbox reaches its TTL and expires.";
     ev_example := quoted "{ 'inbox_id': '...', 'address': 'abc@domain.com', 'expired_at': '...' }" |}].

Section webhooks.
Context `{!AppEnv, !JSRuntime} (orgId teamId : jstr).

Definition isValidWebhookUrl (url : jstr) : bool :=
  if negb (truthy url) then false
  else match url_protocol url with Some p => p =?s "https:" | None => false end.

Definition hooks_path : jstr := "/orgs/" ++ orgId ++ "/teams/" ++ teamId ++ "/webhooks".
Definition hook_path (id : jstr) : jstr := hooks_path ++ "/" ++ id.

(** ** The page *)

(** [hooks] is the cache entry of the page shown. *)
Record WebhooksPage := {
  page : Z;
  expandedId : option jstr;
  hooks : option (PaginatedResponse Webhook)
}.
Definition set_hooks (h : option (PaginatedResponse Webhook)) (s : WebhooksPage) : WebhooksPage :=
  {| page := page s; expandedId := expandedId s; hooks := h |}.
Definition onToggleExpand (id : jstr) (s : WebhooksPage) : WebhooksPage :=
  {| page := page s; expandedId := if bool_decide (expandedId s = Some id) then None else Some id; hooks := hooks s |}.
Definition load_hooks (s : WebhooksPage) : M WebhooksPage (option json) :=
  api_get hooks_path (Some [(js "page", show (page s)); (js "per_page", js "20")]).

Definition toggle : mutation WebhooksPage (jstr * bool) := {|
  mutationFn '(id, active) := api_patch (hook_path id) (Some (JObj [(js "active", JBool active)]));
  onSuccess _ := emit (EInvalidate "webhooks");
  onError err := emit (EToastError (err_message err))
|}.

Definition without_hook (id : jstr) (r : PaginatedResponse Webhook) : PaginatedResponse Webhook := {|
  PaginatedResponse_data := List.filter (λ k, negb (Webhook_id k =?s id)) (PaginatedResponse_data r);
  PaginatedResponse_page := PaginatedResponse_page r;
  PaginatedResponse_per_page := PaginatedResponse_per_page r;
  PaginatedResponse_total := PaginatedResponse_total r;
  PaginatedResponse_total_pages := PaginatedResponse_total_pages r |}.
(** [if (ctx?.prev) qc.setQueryData(ctx.key, ctx.prev)]. *)
Definition roll_back {A} (prev now : option A) : option A := match prev with Some p => Some p | None => now end.
Definition remove : optimistic WebhooksPage jstr (option (PaginatedResponse Webhook)) := {|
  om_fn id := api_del (hook_path id) None;
  om_onMutate id :=
    s ← get_state;
    let prev := hooks s in
    modify (set_hooks (without_hook id <$> prev));;
    mret prev;
  om_onSuccess _ := emit (EToastSuccess "Webhook deleted");
  om_onError err ctx :=
    modify (λ s, set_hooks (roll_back (default None ctx) (hooks s)) s);;
    emit (EToastError (err_message err));
  om_onSettled := emit (EInvalidate "webhooks")
|}.

Definition hook_list (data : option (PaginatedResponse Webhook)) : list Webhook := from_option PaginatedResponse_data [] data.
Definition hooks_summary (teamName : jstr) (data : option (PaginatedResponse Webhook)) : jstr :=
  let total := from_option PaginatedResponse_total 0%Z data in
  let active := countb Webhook_active (hook_list data) in
  let failing := countb (λ w, (0 <? Webhook_failure_count w)%Z) (hook_list data) in
  if (0 <? total)%Z then
    show total ++ " " ++ (if (total =? 1)%Z then "webhook" else "webhooks") ++ middot ++ show_nat active ++ " active"
    ++ (if (0 <? failing)%nat then ", " ++ show_nat failing ++ " failing" else []) ++ middot ++ teamName
  else "HTTP callbacks for events in " ++ teamName ++ ".".

(** ** The status of a webhook *)

Inductive hook_status := Disabled | Failing | Healthy | NoDeliveries.
Definition ok_status (s : option Z) : bool := match s with Some n => (200 <=? n)%Z && (n <? 300)%Z | None => false end.
Definition WebhookStatusBadge (w : Webhook) : hook_status :=
  if negb (Webhook_active w) then Disabled
  else if (0 <? Webhook_failure_count w)%Z then Failing
  else if ok_status (Webhook_last_status w) then Healthy
  else NoDeliveries.
(** The banner of the edit dialog. *)
Definition status_banner (w : Webhook) : jstr :=
  match WebhookStatusBadge w with
  | Disabled => "Disabled"
  | Failing => "Failing (" ++ show (Webhook_failure_count w) ++ " consecutive)"
  | Healthy => "Healthy"
  | NoDeliveries => "No deliveries yet"
  end.
(** The tint of the icon. *)
Definition endpoint_tint (w : Webhook) : jstr :=
  if Webhook_active w then if (0 <? Webhook_failure_count w)%Z then "text-destructive" else "text-primary"
  else "text-muted-foreground".
(** [e.split(".")[1]], which is not shown when undefined. *)
Definition short_event (e : jstr) : option jstr := split_on 46 e !! 1%nat.

Record hook_row := {
  hr_url : jstr; hr_dimmed : bool; hr_tint : jstr; hr_status : hook_status;
  hr_events : list (option jstr); hr_last : option (jstr * option (Z * bool)); hr_expanded : bool
}.
Definition WebhookTableRow (now : Z) (expanded : bool) (w : Webhook) : hook_row := {|
  hr_url := Webhook_url w;
  hr_dimmed := negb (Webhook_active w);
  hr_tint := endpoint_tint w;
  hr_status := WebhookStatusBadge w;
  hr_events := short_event <$> Webhook_events w;
  hr_last := match Webhook_last_attempt_at w with
             | None | Some [] => None
             | Some d => Some (timeAgo d now,
                 match Webhook_last_status w with
                 | Some n => if (n =? 0)%Z then None else Some (n, ok_status (Some n))
                 | None => None
                 end)
             end;
  hr_expanded := expanded
|}.
(** The narrow layout shows the same, with the time of the last attempt alone. *)
Definition WebhookMobileRow (now : Z) (expanded : bool) (w : Webhook) : hook_row :=
  let r := WebhookTableRow now expanded w in
  {| hr_url := hr_url r; hr_dimmed := hr_dimmed r; hr_tint := hr_tint r; hr_status := hr_status r;
     hr_events := hr_events r; hr_last := (λ '(t, _), (t, None)) <$> hr_last r; hr_expanded := expanded |}.

Inductive hooks_view :=
| WNoTeam
| WForbidden
| WError
| WSkeleton
| WEmpty
| WList (rows : list hook_row) (page total_pages : Z).
Definition WebhooksPage_view (now : Z) (hasTeam canManage isSystemAdmin isError isLoading : bool) (s : WebhooksPage) : hooks_view :=
  if negb hasTeam then WNoTeam
  else if negb (canManage || isSystemAdmin) then WForbidden
  else if isError then WError
  else if isLoading then WSkeleton
  else match hooks s with
       | Some d =>
           if (length (PaginatedResponse_data d) =? 0)%nat then WEmpty
           else WList ((λ w, WebhookTableRow now (bool_decide (expandedId s = Some (Webhook_id w))) w) <$> PaginatedResponse_data d)
                  (page s) (PaginatedResponse_total_pages d)
       | None => WEmpty
       end.

(** *** Statistics and deliveries *)

(** Numbers with a fraction are given by numerator and denominator. *)
Record frac := { fnum : Z; fden : positive }.
Record WebhookStats := {
  total_deliveries : Z; success_count : Z; stats_failures : Z; success_rate : frac; avg_response_time_ms : frac;
  last_delivery_at : option jstr
}.
Definition at_least (f : frac) (n : Z) : bool := (n * Z.pos (fden f) <=? fnum f)%Z.
(** [f.toFixed(1)] of a number that is not negative, and [Math.round]. *)
Definition toFixed1 (f : frac) : jstr :=
  let k := ((20 * fnum f + Z.pos (fden f)) / (2 * Z.pos (fden f)))%Z in show (k / 10) ++ "." ++ show (k mod 10).
Definition math_round (f : frac) : Z := ((2 * fnum f + Z.pos (fden f)) / (2 * Z.pos (fden f)))%Z.
Definition stats_line (stats : option WebhookStats) : list (jstr * jstr) :=
  match stats with
  | Some st =>
      if (0 <? total_deliveries st)%Z then
        [(show (total_deliveries st) ++ " deliveries", []);
         (toFixed1 (success_rate st) ++ "% success",
          if at_least (success_rate st) 95 then js "text-success"
          else if at_least (success_rate st) 80 then js "text-warning" else js "text-destructive");
         (show (math_round (avg_response_time_ms st)) ++ "ms avg", [])]
        ++ (if (0 <? stats_failures st)%Z then [(show (stats_failures st) ++ " failed", js "text-destructive")] else [])
      else []
  | None => []
  end.

Record DeliveryLog := {
  log_id : jstr; log_event : jstr; response_status : option Z; response_time_ms : option Z; log_success : bool;
  attempt : Z; log_created_at : jstr
}.
Record log_row := { lr_time : jstr; lr_event : option jstr; lr_status : jstr; lr_tint : jstr; lr_latency : jstr; lr_ok : bool }.
Definition delivery_row (now : Z) (l : DeliveryLog) : log_row := {|
  lr_time := timeAgo (log_created_at l) now;
  lr_event := short_event (log_event l);
  lr_status := match response_status l with Some n => show n | None => js "timeout" end;
  lr_tint := match response_status l with
             | Some n => if (n =? 0)%Z then "text-muted-foreground"
                         else if ok_status (Some n) then "text-success" else "text-destructive"
             | None => "text-muted-foreground"
             end;
  lr_latency := match response_time_ms l with Some n => show n ++ "ms" | None => [8212%N] end;
  lr_ok := log_success l
|}.
Inductive deliveries_view :=
| DLoading
| DError
| DNone
| DRows (rows : list log_row) (pager : option (Z * Z)).
Definition DeliveryLogPanel (now : Z) (isLoading isError : bool) (data : option (PaginatedResponse DeliveryLog)) (logPage : Z) : deliveries_view :=
  if isLoading then DLoading
  else if isError then DError
  else match data with
       | Some d =>
           if (length (PaginatedResponse_data d) =? 0)%nat then DNone
           else DRows (delivery_row now <$> PaginatedResponse_data d)
                  (if (1 <? PaginatedResponse_total_pages d)%Z then Some (logPage, PaginatedResponse_total_pages d) else None)
       | None => DNone
       end.
Definition load_deliveries {S} (webhookId : jstr) (logPage : Z) : M S (option json) :=
  api_get (hook_path webhookId ++ "/deliveries") (Some [(js "page", show logPage); (js "per_page", js "10")]).

(** ** Creating and editing *)

Definition url_error (url : jstr) : bool := (0 <? length url)%nat && negb (isValidWebhookUrl url).
(** [EventSelector]: a card per event with its switch, and the hint. *)
Definition EventSelector (events : list jstr) : list (event_info * bool) * bool :=
  ((λ info, (info, set_has events (ev_key info))) <$> EVENT_INFO, (length events =? 0)%nat).
(** [toggleEvent]. *)
Definition toggleEvent (event : jstr) (events : list jstr) : list jstr :=
  if set_has events event then List.filter (λ e, negb (e =?s event)) events else events ++ [event].

Record HookForm := { url : jstr; events : list jstr; open : bool; busy : bool; secret : option jstr }.
Definition form_init : HookForm :=
  {| url := []; events := [js "email.received"]; open := false; busy := false; secret := None |}.
Definition with_busy (b : bool) (s : HookForm) : HookForm :=
  {| url := url s; events := events s; open := open s; busy := b; secret := secret s |}.
Definition with_secret (x : option jstr) (s : HookForm) : HookForm :=
  {| url := url s; events := events s; open := open s; busy := busy s; secret := x |}.
Definition with_open (b : bool) (s : HookForm) : HookForm :=
  {| url := url s; events := events s; open := b; busy := busy s; secret := secret s |}.
Definition with_url (u : jstr) (s : HookForm) : HookForm :=
  {| url := u; events := events s; open := open s; busy := busy s; secret := secret s |}.
Definition with_events (f : list jstr → list jstr) (s : HookForm) : HookForm :=
  {| url := url s; events := f (events s); open := open s; busy := busy s; secret := secret s |}.
Definition canSubmit (s : HookForm) : bool :=
  isValidWebhookUrl (url s) && (0 <? length (events s))%nat && negb (busy s).
Definition hook_body (s : HookForm) : json := JObj [(js "url", JStr (url s)); (js "events", jstrs (events s))].

Definition create_hook (closure : HookForm) : M HookForm unit :=
  if negb (canSubmit closure) then mret tt
  else
    modify (with_busy true);;
    try_finally
      (try_catch
        (res ← api_post hooks_path (Some (hook_body closure));
         emit (EInvalidate "webhooks");;
         x ← prop res "secret";
         modify (with_secret (as_string x)))
        (λ err, emit (EToastError (err_message err))))
      (modify (with_busy false)).
Definition copySecret (s : HookForm) : M HookForm unit :=
  match secret s with
  | Some ((_ :: _) as x) => emit (EClipboard x);; emit (EToastSuccess "Secret copied")
  | _ => mret tt
  end.
Definition close_form (s : HookForm) : HookForm :=
  {| url := []; events := [js "email.received"]; open := false; busy := busy s; secret := None |}.
Definition create_onOpenChange (v : bool) (s : HookForm) : HookForm := if v then with_open true s else close_form s.

(** The edit dialog has the same cells but the secret. *)
Definition edit_mount (w : Webhook) : HookForm :=
  {| url := Webhook_url w; events := Webhook_events w; open := false; busy := false; secret := None |}.
Definition edit_onOpenChange (w : Webhook) (v : bool) (s : HookForm) : HookForm :=
  if v then {| url := Webhook_url w; events := Webhook_events w; open := true; busy := busy s; secret := secret s |}
  else with_open false s.
Definition save_hook (w : Webhook) (closure : HookForm) : M HookForm unit :=
  if negb (canSubmit closure) then mret tt
  else
    modify (with_busy true);;
    try_finally
      (try_catch
        (_ ← api_patch (hook_path (Webhook_id w)) (Some (hook_body closure));
         emit (EInvalidate "webhooks");;
         emit (EToastSuccess "Webhook updated");;
         modify (with_open false))
        (λ err, emit (EToastError (err_message err))))
      (modify (with_busy false)).
Inductive create_view := CreateForm (urlError : bool) (disabled : bool) (label : jstr) | CreatedSecret (s : jstr).
Definition CreateWebhookDialog (s : HookForm) : create_view :=
  match secret s with
  | Some ((_ :: _) as x) => CreatedSecret x
  | _ => CreateForm (url_error (url s)) (negb (canSubmit s)) (if busy s then "Creating" ++ [8230%N] else "Create Webhook")
  end.

(** *** The parts of the two dialogs *)

(** A card: label, key, description, the switch, the button and the example. *)
Record event_card := { ec_label : jstr; ec_key : jstr; ec_description : jstr; ec_switch : bool * jstr; ec_button : jstr; ec_example : option jstr }.
Definition EventCard (info : event_info) (selected showExample : bool) : event_card := {|
  ec_label := ev_label info; ec_key := ev_key info; ec_description := ev_description info;
  ec_switch := (selected, "Subscribe to " ++ ev_label info);
  ec_button := (if showExample then "Hide" else "Show") ++ " example payload";
  ec_example := if showExample then Some (ev_example info) else None |}.
Definition UrlInput (url : jstr) : jstr * option jstr :=
  (url, if url_error url then Some (js "URL must use https:// (required for signature verification)") else None).
Record edit_hook_view := {
  eh_banner : jstr; eh_url : jstr * option jstr; eh_events : list (event_info * bool) * bool; eh_button : jstr; eh_disabled : bool
}.
Definition EditWebhookDialog (w : Webhook) (s : HookForm) : edit_hook_view := {|
  eh_banner := status_banner w; eh_url := UrlInput (url s); eh_events := EventSelector (events s);
  eh_button := if busy s then "Saving" ++ [8230%N] else "Save Changes"; eh_disabled := negb (canSubmit s) |}.
End webhooks.

(** ** Only complete webhooks are sent *)

Section hook_theorems.
Context `{!AppEnv, !JSRuntime} (orgId teamId : jstr).

(** What can happen to a form between two submissions. *)
Inductive form_step : HookForm → HookForm → Prop :=
| step_url u s : form_step s (with_url u s)
| step_toggle info s : info ∈ EVENT_INFO → form_step s (with_events (toggleEvent (ev_key info)) s)
| step_open v s : form_step s (create_onOpenChange v s)
| step_busy b s : form_step s (with_busy b s)
| step_secret x s : form_step s (with_secret x s).

Definition known_events (l : list jstr) : Prop := NoDup l ∧ l ⊆ ev_key <$> EVENT_INFO.
Lemma toggleEvent_known info l : info ∈ EVENT_INFO → known_events l → known_events (toggleEvent (ev_key info) l).
Proof.
  intros Hi [Hd Hs]. unfold toggleEvent, set_has. case_bool_decide as Hin; split.
  - by apply NoDup_ListNoDup, List.NoDup_filter, NoDup_ListNoDup.
  - intros x. rw list_elem_of_In filter_In -list_elem_of_In. intros [Hx _]. by apply Hs.
  - apply NoDup_app. split_and!; [done| |apply NoDup_singleton]. intros x Hx ->%list_elem_of_singleton. done.
  - intros x [Hx| ->%list_elem_of_singleton]%elem_of_app; [by apply Hs|]. by apply list_elem_of_fmap_2.
Qed.
Lemma form_known s : rtc form_step form_init s → known_events (events s).
Proof.
  assert (Hi : known_events (events form_init)).
  { split; [apply NoDup_singleton|]. intros x ->%list_elem_of_singleton. by left. }
  intros Hs. eapply (rtc_ind_r (λ s, known_events (events s))); [exact Hi| |exact Hs].
  intros y z _ Hyz IH. destruct Hyz as [|info s0 Hin| [] | |]; try done; try exact Hi. by apply toggleEvent_known.
Qed.

(** What the server is sent for a form: an address with https, and at least
    one event, all different and all known. *)
Definition complete_hook (s : HookForm) (r : http_request) : Prop :=
  rq_body r = Some (hook_body s) ∧ url_protocol (url s) = Some (js "https:") ∧ events s ≠ [] ∧ known_events (events s).
(** Whatever is typed and switched in the dialog, the only thing it ever
    sends (apart from the renewal of the session) is a webhook with an https
    address and one or more different, known events; while one is being
    created nothing is sent. *)
Theorem create_hook_sends (s : HookForm) (w : world HookForm) :
  rtc form_step form_init s →
  ∃ l, sent_requests (snd (create_hook orgId teamId s w)) = sent_requests w ++ l ∧
    Forall (λ r, is_refresh r ∨ complete_hook s r) l ∧ (busy s = true → l = []).
Proof.
  intros Hs%form_known. unfold create_hook. destruct (canSubmit s) eqn:Hc; cbn [negb].
  2: { exists []. by rw app_nil_r. }
  unfold canSubmit in Hc. bool_to_prop. unfold isValidWebhookUrl in *.
  destruct (truthy (url s)); [|done]. cbn in *. destruct (url_protocol (url s)) as [p|] eqn:Eu; [|done].
  match goal with E : (p =?s _) = true |- _ => apply jeqb_eq in E as -> end.
  set (P := λ r, is_refresh r ∨ complete_hook s r).
  assert (Hq : preserves (S := HookForm) (only_sends P) (api_post (hooks_path orgId teamId) (Some (hook_body s)))).
  { apply only_sends_request; [|by left]. intros token. right. split_and!; [done|done| |done].
    intros En. match goal with Hl : 0 < length _ |- _ => rewrite En in Hl; cbn in Hl; lia end. }
  match goal with |- context [snd (?m w)] => assert (Hp : preserves (only_sends P) m) by preserve end.
  destruct (Hp w) as (l & E & Hl). exists l. split_and!; [done|done|]. intros Hb. congruence.
Qed.
End hook_theorems.

(** ** Removals in flight

    The cache entry of the page while several removals and the reload of the
    list overlap.  [onMutate] cancels a reload, [onSettled] starts one (and
    replaces the one under way), as React Query documents; a reload reads the
    list at some moment and delivers it later.  The server answers the page
    with [server]; a removal may bring any other list in its place, since the
    next webhooks move up.  A call may also fail after the server has removed
    the webhook, when the answer is lost. *)

Record removal := { rm_id : jstr; rm_prev : option (PaginatedResponse Webhook); rm_done : bool }.
Inductive reload := Idle | Sent | Read (l : PaginatedResponse Webhook) | Failed.
Record cache_sys := CacheSys {
  server : PaginatedResponse Webhook;
  cached : option (PaginatedResponse Webhook);
  inflight : list removal;
  reloading : reload
}.
Inductive cache_step : cache_sys → cache_sys → Prop :=
| cs_mutate id s :
    cache_step s (CacheSys (server s) (without_hook id <$> cached s)
      (inflight s ++ [{| rm_id := id; rm_prev := cached s; rm_done := false |}]) Idle)
| cs_process s pre x post l :
    inflight s = pre ++ x :: post → rm_done x = false → Forall (λ h, Webhook_id h ≠ rm_id x) (PaginatedResponse_data l) →
    cache_step s (CacheSys l (cached s)
      (pre ++ {| rm_id := rm_id x; rm_prev := rm_prev x; rm_done := true |} :: post) (reloading s))
| cs_success s pre x post :
    inflight s = pre ++ x :: post → rm_done x = true →
    cache_step s (CacheSys (server s) (cached s) (pre ++ post) Sent)
| cs_failure s pre x post :
    inflight s = pre ++ x :: post →
    cache_step s (CacheSys (server s) (roll_back (rm_prev x) (cached s)) (pre ++ post) Sent)
| cs_read s : reloading s = Sent → cache_step s (CacheSys (server s) (cached s) (inflight s) (Read (server s)))
| cs_deliver s l : reloading s = Read l → cache_step s (CacheSys (server s) (Some l) (inflight s) Idle)
| cs_fail s : reloading s = Sent → cache_step s (CacheSys (server s) (cached s) (inflight s) Failed).

(** The two changes of the cache are those of [remove]. *)
Lemma remove_onMutate `{!AppEnv} orgId teamId id (w : world WebhooksPage) :
  om_onMutate (remove orgId teamId) id w =
    (inr (hooks (st w)), World (brw w) (set_hooks (without_hook id <$> hooks (st w)) (st w))).
Proof. done. Qed.
Lemma remove_onError `{!AppEnv} orgId teamId err prev (w : world WebhooksPage) :
  hooks (st (snd (om_onError (remove orgId teamId) err (Some prev) w))) = roll_back prev (hooks (st w)).
Proof. done. Qed.

Definition settled (s : cache_sys) : Prop := inflight s = [] ∧ reloading s = Idle.
Definition cache_ok (s : cache_sys) : Prop :=
  inflight s = [] →
  match reloading s with Idle => cached s = Some (server s) | Read l => l = server s | Sent | Failed => True end.
Lemma cache_ok_step s s' : cache_step s s' → cache_ok s → cache_ok s'.
Proof.
  destruct 1 as [id s|s pre x post l E _ _|s pre x post E _|s pre x post E|s E|s l E|s E];
    unfold cache_ok; cbn; intros Hok Hi; try done.
  - by destruct (inflight s).
  - by destruct pre.
  - specialize (Hok Hi). rewrite E in Hok. by subst.
Qed.
Lemma cache_settles s : reloading s ≠ Failed → ∃ s', rtc cache_step s s' ∧ settled s'.
Proof.
  assert (Hl : ∀ s, inflight s = [] → reloading s ≠ Failed → ∃ s', rtc cache_step s s' ∧ settled s').
  { intros t Hi Hf. destruct (reloading t) as [| |l|] eqn:Er; [by exists t| | |done].
    - eexists. split; [eapply rtc_l; [by apply cs_read|eapply rtc_once; by apply cs_deliver]|by split].
    - eexists. split; [eapply rtc_once; by apply cs_deliver|by split]. }
  remember (inflight s) as k eqn:Ek. revert s Ek. induction k as [|x k IH]; intros s Ek Hf; symmetry in Ek; [by apply Hl|].
  destruct (IH (CacheSys (server s) (roll_back (rm_prev x) (cached s)) k Sent)) as (s' & Hs & Hq); [done|done|].
  exists s'. split; [|done]. eapply rtc_l; [|done]. by apply (cs_failure s [] x k).
Qed.
(** C21: however removals, their failures and reloads of the list overlap, once
    all of them are over the list shown is the one of the server, also when
    a failed removal put back a list that had become old; and as long as no
    reload has failed the page can always get there. *)
Theorem remove_converges (l : PaginatedResponse Webhook) (s : cache_sys) :
  rtc cache_step (CacheSys l (Some l) [] Idle) s →
  (settled s → cached s = Some (server s)) ∧
  (reloading s ≠ Failed → ∃ s', rtc cache_step s s' ∧ settled s' ∧ cached s' = Some (server s')).
Proof.
  assert (Hi : ∀ t, rtc cache_step (CacheSys l (Some l) [] Idle) t → cache_ok t).
  { intros t Ht. apply (rtc_ind_r (R := cache_step) cache_ok (CacheSys l (Some l) [] Idle)); [by intros _| |exact Ht].
    intros y z _ Hyz. by apply cache_ok_step. }
  assert (Hset : ∀ t, cache_ok t → settled t → cached t = Some (server t)).
  { intros t Hok [E1 E2]. specialize (Hok E1). by rewrite E2 in Hok. }
  intros Hs. split; [by apply Hset, Hi|]. intros Hf. destruct (cache_settles s Hf) as (s' & Hs' & Hq).
  exists s'. split_and!; [done|done|]. apply Hset; [|done]. apply Hi. by etrans.
Qed.

(** ** Instances *)

Definition a_hook (id : jstr) : Webhook := {|
  Webhook_id := id; Webhook_team_id := "t"; Webhook_url := "https://example.org/in"; Webhook_events := [js "inbox.created"];
  Webhook_active := true; Webhook_failure_count := 0; Webhook_last_status := None; Webhook_last_attempt_at := None;
  Webhook_created_at := [] |}.
Definition two_hooks : PaginatedResponse Webhook := {|
  PaginatedResponse_data := [a_hook "a"; a_hook "b"]; PaginatedResponse_total := 2; PaginatedResponse_page := 1;
  PaginatedResponse_per_page := 20; PaginatedResponse_total_pages := 1 |}.
Lemma create_hook_sends_witness :
  let s := with_events (toggleEvent (js "inbox.created")) (with_url (js "https://example.org/in") form_init) in
  (length (sent_requests (snd (create_hook (H := default_env) (H0 := AsciiRuntime) "o" "t" s (World (browser_on ∅ "/webhooks" [answer 201 (JObj [])]) s)))) = 1)%nat
  ∧ known_events (events s).
Proof.
  intros s. set (w := World (browser_on ∅ "/webhooks" [answer 201 (JObj [])]) s).
  assert (Hs : rtc form_step form_init s).
  { eapply rtc_l; [apply (step_url (js "https://example.org/in"))|]. apply rtc_once.
    refine (step_toggle (List.nth 1 EVENT_INFO (Build_event_info [] [] [] [])) _ _). right. left. }
  destruct (create_hook_sends (H := default_env) (H0 := AsciiRuntime) "o" "t" s w Hs) as (l & E & Hl & _).
  split; [vm_compute; reflexivity|].
  destruct l as [|r l]; [vm_compute in E; discriminate|]. inversion Hl as [|? ? [[leg Hr]|Hr] _]; subst.
  - exfalso. vm_compute in E. discriminate.
  - exact (proj2 (proj2 (proj2 Hr))).
Defined.
Lemma remove_converges_witness :
  ∃ s', rtc cache_step (CacheSys two_hooks (without_hook "a" <$> Some two_hooks) [{| rm_id := "a"; rm_prev := Some two_hooks; rm_done := false |}] Idle) s' ∧
    cached s' = Some (server s').
Proof.
  destruct (remove_converges two_hooks (CacheSys two_hooks (without_hook "a" <$> Some two_hooks) [{| rm_id := "a"; rm_prev := Some two_hooks; rm_done := false |}] Idle))
    as [_ (s' & Hs & _ & Hc)].
  - apply rtc_once. apply (cs_mutate (js "a") (CacheSys two_hooks (Some two_hooks) [] Idle)).
  - discriminate.
  - by exists s'.
Defined.
