(* ===== verification/Json.v ===== *)
(** * [JSON.stringify] and dates in ISO format

    Two functions of the language that the audit page builds on: the text of a
    JSON value, with and without indentation, and [toISOString].  The text is
    shown to determine the value ([stringify_inj]), which is what a
    comparison of texts relies on. *)

From S2P Require Import Prelude Browser.

(** ** Texts of JSON values *)

Definition hex_lower (n : N) : N := if (n <? 10)%N then (48 + n)%N else (87 + n)%N.
Definition unicode_escape (c : N) : jstr :=
  [92; 117; hex_lower (c / 4096); hex_lower (c / 256 mod 16); hex_lower (c / 16 mod 16); hex_lower (c mod 16)]%N.
Definition is_high (c : N) : bool := in_range 55296 56319 c.
Definition is_low (c : N) : bool := in_range 56320 57343 c.
(** A code unit that is not part of a surrogate pair. *)
Definition quote_unit (c : N) : jstr :=
  if (c =? 8)%N then [92; 98]%N
  else if (c =? 9)%N then [92; 116]%N
  else if (c =? 10)%N then [92; 110]%N
  else if (c =? 12)%N then [92; 102]%N
  else if (c =? 13)%N then [92; 114]%N
  else if (c =? 34)%N then [92; 34]%N
  else if (c =? 92)%N then [92; 92]%N
  else if (c <? 32)%N || is_high c || is_low c then unicode_escape c
  else [c].
Fixpoint quote_units (s : jstr) : jstr :=
  match s with
  | [] => []
  | h :: t =>
      match t with
      | l :: t' => if is_high h && is_low l then h :: l :: quote_units t' else quote_unit h ++ quote_units t
      | [] => quote_unit h
      end
  end.
Definition quote (s : jstr) : jstr := 34%N :: quote_units s ++ [34%N].

Fixpoint stringify (j : json) : jstr :=
  match j with
  | JNull => "null"
  | JBool b => if b then "true" else "false"
  | JNum n => show n
  | JDec d => decimal_text d
  | JStr s => quote s
  | JArr l => 91%N :: join "," (List.map stringify l) ++ [93%N]
  | JObj l => 123%N :: join "," (List.map (λ '(k, v), quote k ++ 58%N :: stringify v) l) ++ [125%N]
  end.

(** [JSON.stringify(j, null, 2)]; [ind] is the indentation of the line. *)
Fixpoint stringify_2 (ind : jstr) (j : json) : jstr :=
  let ind' := ind ++ [32; 32]%N in
  let block (o c : N) (items : list jstr) :=
    match items with
    | [] => [o; c]
    | _ => [o; 10%N] ++ ind' ++ join ([44; 10]%N ++ ind') items ++ [10%N] ++ ind ++ [c]
    end in
  match j with
  | JArr l => block 91%N 93%N (List.map (stringify_2 ind') l)
  | JObj l => block 123%N 125%N (List.map (λ '(k, v), quote k ++ [58; 32]%N ++ stringify_2 ind' v) l)
  | _ => stringify j
  end.

(** ** Dates

    The calendar of ECMAScript: days since 1970-01-01 are turned into year,
    month and day by counting in cycles of 400 years that start in March. *)

Definition civil (days : Z) : Z * Z * Z :=
  let z := (days + 719468)%Z in
  let era := (z / 146097)%Z in
  let doe := (z mod 146097)%Z in
  let yoe := ((doe - doe / 1460 + doe / 36524 - doe / 146096) / 365)%Z in
  let doy := (doe - (365 * yoe + yoe / 4 - yoe / 100))%Z in
  let mp := ((5 * doy + 2) / 153)%Z in
  let d := (doy - (153 * mp + 2) / 5 + 1)%Z in
  let m := (if mp <? 10 then mp + 3 else mp - 9)%Z in
  ((yoe + era * 400 + (if m <=? 2 then 1 else 0))%Z, m, d).

Definition pad (width : nat) (n : Z) : jstr :=
  let s := show n in replicate (width - length s) 48%N ++ s.
Definition iso_year (y : Z) : jstr :=
  if (0 <=? y)%Z && (y <=? 9999)%Z then pad 4 y
  else (if (y <? 0)%Z then [45%N] else [43%N]) ++ pad 6 (Z.abs y).
(** [new Date(t).toISOString()]: it throws on [NaN] and out of the range of dates. *)
Definition toISOString (t : option Z) : jserr + jstr :=
  match t with
  | Some t =>
      if (Z.abs t <=? 8640000000000000)%Z then
        let '(y, m, d) := civil (t / 86400000) in
        let ms := (t mod 86400000)%Z in
        inr (iso_year y ++ "-" ++ pad 2 m ++ "-" ++ pad 2 d ++ "T" ++ pad 2 (ms / 3600000) ++ ":"
             ++ pad 2 (ms / 60000 mod 60) ++ ":" ++ pad 2 (ms / 1000 mod 60) ++ "." ++ pad 3 (ms mod 1000) ++ "Z")
      else inl (PlainError "Invalid time value")
  | None => inl (PlainError "Invalid time value")
  end.

Example iso_2024 : toISOString (Some 1709210096789%Z) = inr (js "2024-02-29T12:34:56.789Z").
Proof. vm_compute. reflexivity. Qed.
Example iso_1969 : toISOString (Some (-1)%Z) = inr (js "1969-12-31T23:59:59.999Z").
Proof. vm_compute. reflexivity. Qed.
Example iso_first : toISOString (Some (-8640000000000000)%Z) = inr (js "-271821-04-20T00:00:00.000Z").
Proof. vm_compute. reflexivity. Qed.
Example quote_control : quote [10; 1; 55357; 56832; 55357]%N = (dq ++ "\n\u0001" ++ [55357; 56832]%N ++ "\ud83d" ++ dq)%list.
Proof. vm_compute. reflexivity. Qed.

#[global] Arguments stringify_2 : simpl never.
#[global] Arguments toISOString : simpl never.
#[global] Arguments quote_unit : simpl never.

(** ** Strings can be read back *)

Definition hex_value (c : N) : N := if (c <? 58)%N then (c - 48)%N else (c - 87)%N.
Definition unescape (c : N) : N :=
  if (c =? 98)%N then 8%N else if (c =? 116)%N then 9%N else if (c =? 110)%N then 10%N
  else if (c =? 102)%N then 12%N else if (c =? 114)%N then 13%N else c.
Definition push (c : N) (r : option (jstr * jstr)) : option (jstr * jstr) := prod_map (cons c) id <$> r.
(** The string that ends at the next closing quote, and the text after it. *)
Fixpoint unquote (t : jstr) : option (jstr * jstr) :=
  match t with
  | [] => None
  | c :: t1 =>
      if (c =? 34)%N then Some ([], t1)
      else if (c =? 92)%N then
        match t1 with
        | e :: t2 =>
            if (e =? 117)%N then
              match t2 with
              | a :: b :: c' :: d :: t3 =>
                  push (4096 * hex_value a + 256 * hex_value b + 16 * hex_value c' + hex_value d)%N (unquote t3)
              | _ => None
              end
            else push (unescape e) (unquote t2)
        | [] => None
        end
      else push c (unquote t1)
  end.

Lemma hex_value_lower n : (n < 16)%N → hex_value (hex_lower n) = n.
Proof.
  intros H. unfold hex_value, hex_lower.
  destruct (N.ltb_spec n 10); [destruct (N.ltb_spec (48 + n) 58)|destruct (N.ltb_spec (87 + n) 58)]; lia.
Qed.
Lemma hex_digits c : (c < 65536)%N →
  (4096 * (c / 4096) + 256 * (c / 256 mod 16) + 16 * (c / 16 mod 16) + c mod 16)%N = c.
Proof. intros H. zify. Z.to_euclidean_division_equations. lia. Qed.
Lemma unquote_escape c t : (c < 65536)%N → unquote (unicode_escape c ++ t) = push c (unquote t).
Proof.
  intros H. unfold unicode_escape. cbn -[hex_value hex_lower N.div N.modulo N.mul N.add].
  rw !hex_value_lower; [by rw hex_digits|zify; Z.to_euclidean_division_equations; lia..].
Qed.
Lemma unquote_literal c t : c ≠ 34%N → c ≠ 92%N → unquote (c :: t) = push c (unquote t).
Proof. intros H1 H2. cbn. by rw (proj2 (N.eqb_neq c 34)) // (proj2 (N.eqb_neq c 92)). Qed.
Lemma unquote_unit c t : unquote (quote_unit c ++ t) = push c (unquote t).
Proof.
  unfold quote_unit. repeat case_match; try match goal with E : (_ =? _)%N = true |- _ => apply N.eqb_eq in E; by subst end.
  - apply unquote_escape. unfold is_high, is_low, in_range in *. match goal with E : _ || _ = true |- _ => rw !orb_true_iff !andb_true_iff !N.ltb_lt !N.leb_le in E; lia end.
  - apply unquote_literal; by apply N.eqb_neq.
Qed.
Lemma unquote_units s t : unquote (quote_units s ++ 34%N :: t) = Some (s, t).
Proof.
  induction s as [s IH] using (well_founded_induction (well_founded_ltof _ (@length N))). unfold ltof in IH.
  destruct s as [|h [|l s]]; [done|by cbn [quote_units]; rw unquote_unit|].
  cbn [quote_units]. destruct (is_high h && is_low l) eqn:E.
  - cbn [app]. unfold is_high, is_low, in_range in E. rw !andb_true_iff !N.leb_le in E.
    rw !unquote_literal; [|lia..]. rw IH; [done|cbn; lia].
  - rw -app_assoc unquote_unit. change (quote_units (l :: s)) with (quote_units (l :: s)).
    rw (IH (l :: s)); [done|cbn; lia].
Qed.

(** ** Texts determine values *)

Section json_induction.
Context (P : json → Prop).
Hypotheses (Hnull : P JNull) (Hbool : ∀ b, P (JBool b)) (Hnum : ∀ n, P (JNum n)) (Hdec : ∀ d, P (JDec d)) (Hstr : ∀ s, P (JStr s))
  (Harr : ∀ l, Forall P l → P (JArr l)) (Hobj : ∀ l, Forall (λ kv, P (kv.2)) l → P (JObj l)).
Fixpoint json_nested_ind (j : json) : P j :=
  match j with
  | JNull => Hnull
  | JBool b => Hbool b
  | JNum n => Hnum n
  | JDec d => Hdec d
  | JStr s => Hstr s
  | JArr l => Harr l ((fix go l : Forall P l :=
      match l with [] => Forall_nil_2 _ | x :: l' => Forall_cons_2 _ _ _ (json_nested_ind x) (go l') end) l)
  | JObj l => Hobj l ((fix go l : Forall (λ kv, P (kv.2)) l :=
      match l with [] => Forall_nil_2 _ | x :: l' => Forall_cons_2 _ _ _ (json_nested_ind (x.2)) (go l') end) l)
  end.
End json_induction.

(** What may follow a value: nothing, a comma or a closing bracket. *)
Definition delimited (r : jstr) : Prop := match r with [] => True | c :: _ => c = 44%N ∨ c = 93%N ∨ c = 125%N end.
(** The first character of a text tells the kind of the value. *)
Definition json_kind (j : json) : N :=
  match j with JNull => 0 | JBool true => 1 | JBool false => 2 | JNum _ | JDec _ => 3 | JStr _ => 4 | JArr _ => 5 | JObj _ => 6 end%N.
Definition char_kind (c : N) : N :=
  if (c =? 110)%N then 0%N else if (c =? 116)%N then 1%N else if (c =? 102)%N then 2%N
  else if (c =? 45)%N || is_digit c then 3%N else if (c =? 34)%N then 4%N
  else if (c =? 91)%N then 5%N else if (c =? 123)%N then 6%N else 7%N.

Lemma digit_kind c : is_digit c = true → char_kind c = 3%N.
Proof.
  intros E. unfold char_kind. rw E orb_true_r. unfold is_digit, in_range in E. bool_to_prop.
  repeat case_match; bool_to_prop; lia || done.
Qed.
Lemma show_head n : ∃ c t, show n = c :: t ∧ char_kind c = 3%N.
Proof.
  unfold show. case_match; [by exists 45%N, (dec (Z.to_N (- n)))|].
  pose proof (dec_digits (Z.to_N n)) as Hd. pose proof (dec_nonempty (Z.to_N n)) as Hn.
  destruct (dec (Z.to_N n)) as [|c t]; [done|]. exists c, t. split; [done|]. apply digit_kind. by inversion Hd.
Qed.
Lemma digit_char_digit d : is_digit (digit_char d) = true.
Proof. by destruct d. Qed.
Lemma decimal_head d : ∃ c t, decimal_text d = c :: t ∧ char_kind c = 3%N.
Proof.
  destruct d as [[] ip fr|[] d fr ex]; cbn; try (by eexists _, _); [|eexists _, _; split; [reflexivity|apply digit_kind, digit_char_digit]].
  pose proof (dec_digits ip) as Hd. pose proof (dec_nonempty ip) as Hn. destruct (dec ip) as [|c t]; [done|].
  eexists c, _. split; [done|]. apply digit_kind. by inversion Hd.
Qed.
Lemma stringify_head j : ∃ c t, stringify j = c :: t ∧ char_kind c = json_kind j.
Proof. destruct j as [|[]|n|d|s|l|l]; try apply show_head; try apply decimal_head; eexists _, _; by split. Qed.
Lemma stringify_kind j j' r r' : stringify j ++ r = stringify j' ++ r' → json_kind j = json_kind j'.
Proof.
  destruct (stringify_head j) as (c & t & -> & <-), (stringify_head j') as (c' & t' & -> & <-).
  intros E. by simplify_list_eq.
Qed.
Lemma stringify_not j c t r : char_kind c = 7%N → stringify j ++ r ≠ c :: t.
Proof.
  destruct (stringify_head j) as (c' & t' & -> & Hk). intros Hc E. simplify_list_eq.
  rewrite Hk in Hc. by destruct j as [|[]|n|d|s|l|l].
Qed.

(** The characters of numbers; none of them ends a value. *)
Definition number_char (c : N) : bool := is_digit c || bool_decide (c ∈ [43; 45; 46; 101]%N).
Lemma number_chars_delimited (a b r r' : jstr) :
  Forall (λ c, number_char c = true) a → Forall (λ c, number_char c = true) b → delimited r → delimited r' →
  a ++ r = b ++ r' → a = b ∧ r = r'.
Proof.
  intros Ha. revert b. induction Ha as [|x a Hx _ IH]; intros b Hb Hr Hr' E.
  - destruct Hb as [|y b Hy _]; [done|]. simpl in E. subst r. destruct Hr as [->|[->| ->]]; done.
  - destruct Hb as [|y b Hy Hb]; simpl in E.
    + subst r'. destruct Hr' as [->|[->| ->]]; done.
    + injection E as -> E. destruct (IH b Hb Hr Hr' E) as [-> ->]. done.
Qed.
Lemma digit_number_char c : is_digit c = true → number_char c = true.
Proof. intros E. unfold number_char. by rw E. Qed.
Lemma dec_number_chars n : Forall (λ c, number_char c = true) (dec n).
Proof. eapply Forall_impl; [apply dec_digits|]. apply digit_number_char. Qed.
Lemma show_number_chars n : Forall (λ c, number_char c = true) (show n).
Proof. unfold show. case_match; [constructor; [done|]|]; apply dec_number_chars. Qed.
Lemma digits_number_chars l : Forall (λ c, number_char c = true) (digit_char <$> l).
Proof. apply Forall_fmap, Forall_forall. intros d _. apply digit_number_char, digit_char_digit. Qed.
Lemma decimal_number_chars d : Forall (λ c, number_char c = true) (decimal_text d).
Proof.
  assert (Hs : ∀ b, Forall (λ c, number_char c = true) (sign_text b)) by (intros []; repeat constructor).
  destruct d as [neg ip fr|neg d fr ex]; cbn; rw ?Forall_app ?Forall_cons.
  - split_and!; [apply Hs|apply dec_number_chars|done|apply digits_number_chars].
  - split_and!; [apply Hs|apply digit_number_char, digit_char_digit| |done|].
    + unfold frac_text. case_decide; [done|]. constructor; [done|apply digits_number_chars].
    + unfold exponent_text. case_match; [|constructor; [done|]]; apply show_number_chars.
Qed.
Lemma show_inj (n m : Z) : show n = show m → n = m.
Proof.
  intros E. assert (Hm : ∀ k, ∃ c t, dec k = c :: t ∧ is_digit c = true).
  { intros k. pose proof (dec_digits k) as Hd. pose proof (dec_nonempty k). destruct Hd as [|c t Hc]; [done|by exists c, t]. }
  unfold show in E. destruct (Z.ltb_spec n 0), (Z.ltb_spec m 0).
  - injection E as E%dec_inj. lia.
  - destruct (Hm (Z.to_N m)) as (c & t & Ed & Hc). rewrite Ed in E. injection E as <- _. done.
  - destruct (Hm (Z.to_N n)) as (c & t & Ed & Hc). rewrite Ed in E. injection E as -> _. done.
  - apply dec_inj in E. lia.
Qed.
(** Texts with the same separator, which occurs in neither first part. *)
Lemma split_at (c : N) (a a' b b' : jstr) : c ∉ a → c ∉ a' → a ++ c :: b = a' ++ c :: b' → a = a' ∧ b = b'.
Proof.
  revert a'. induction a as [|x a IH]; intros [|y a'] H1 H2 E; simplify_list_eq; [done|set_solver..|].
  destruct (IH a') as [-> ->]; [set_solver..|done|done].
Qed.
Lemma not_digits c l : is_digit c = false → Forall (λ x, is_digit x = true) l → c ∉ l.
Proof. rw Forall_forall. intros Hc Hl Hin. specialize (Hl c Hin). cbn in Hl. congruence. Qed.
Lemma digits_all l : Forall (λ c, is_digit c = true) (digit_char <$> l).
Proof. apply Forall_fmap, Forall_forall. intros d _. apply digit_char_digit. Qed.
Lemma not_signed c neg l : is_digit c = false → c ≠ 45%N → Forall (λ x, is_digit x = true) l → c ∉ sign_text neg ++ l.
Proof. intros Hc Hn Hl. pose proof (not_digits c l Hc Hl). destruct neg; cbn; set_solver. Qed.
Lemma signed_inj neg neg' (l l' : jstr) :
  Forall (λ x, is_digit x = true) l → Forall (λ x, is_digit x = true) l' → sign_text neg ++ l = sign_text neg' ++ l' → neg = neg' ∧ l = l'.
Proof.
  intros Hl Hl' E. destruct neg, neg'; cbn in E; simplify_eq; try done; exfalso.
  - inversion Hl'; congruence || done.
  - inversion Hl; congruence || done.
Qed.
Lemma digit_chars_inj (l l' : list digit) : digit_char <$> l = digit_char <$> l' → l = l'.
Proof. apply list_fmap_eq_inj. intros x y. by destruct x, y. Qed.
Lemma show_signed n : ∃ neg l, show n = sign_text neg ++ l ∧ Forall (λ x, is_digit x = true) l.
Proof. unfold show. case_match; [exists true|exists false]; eexists; (split; [reflexivity|apply dec_digits]). Qed.
Lemma mantissa_no_e neg d fr : 101%N ∉ sign_text neg ++ digit_char d :: frac_text fr.
Proof.
  assert (Hd : 101%N ∉ digit_char <$> fr) by (apply not_digits; [done|apply digits_all]).
  assert (Hc : 101%N ≠ digit_char d) by (by destruct d).
  unfold frac_text. destruct neg; case_decide; cbn; set_solver.
Qed.
Lemma mantissa_inj neg neg' d d' fr fr' :
  sign_text neg ++ digit_char d :: frac_text fr = sign_text neg' ++ digit_char d' :: frac_text fr' → neg = neg' ∧ d = d' ∧ fr = fr'.
Proof.
  intros E. assert (neg = neg' ∧ digit_char d :: frac_text fr = digit_char d' :: frac_text fr') as [-> E'].
  { destruct neg, neg'; cbn in E; [split; [done|injection E as E1 E2; by rw E1 E2]| | |done]; exfalso; injection E as E; [by destruct d'|by destruct d]. }
  injection E' as Ed Ef. assert (d = d') as -> by (by destruct d, d'). split_and!; [done..|].
  unfold frac_text in Ef. repeat case_decide; simplify_eq; [done|]. by apply digit_chars_inj.
Qed.
Lemma exponent_inj x y : exponent_text x = exponent_text y → x = y.
Proof.
  unfold exponent_text. destruct (Z.ltb_spec x 0), (Z.ltb_spec y 0); intros E.
  - by apply show_inj. - exfalso. unfold show in E. destruct (x <? 0)%Z eqn:Ex; [done|bool_to_prop; lia].
  - exfalso. unfold show in E. destruct (y <? 0)%Z eqn:Ey; [done|bool_to_prop; lia].
  - injection E as E. by apply show_inj.
Qed.
(** Which of the two separators a number has tells its form. *)
Lemma fraction_no_e neg ip fr : 101%N ∉ decimal_text (Fraction neg ip fr).
Proof.
  cbn. rw app_assoc. assert (Hd : 101%N ∉ digit_char <$> fr) by (apply not_digits; [done|apply digits_all]).
  assert (Hs : 101%N ∉ sign_text neg ++ dec ip) by (apply not_signed; [done..|apply dec_digits]). set_solver.
Qed.
Lemma decimal_inj d d' : decimal_text d = decimal_text d' → d = d'.
Proof.
  intros E. destruct d as [neg ip fr|neg d fr ex], d' as [neg' ip' fr'|neg' d' fr' ex'].
  - cbn in E. rw !app_assoc in E. apply split_at in E as [E1 E2]; [|apply not_signed; [done..|apply dec_digits]|apply not_signed; [done..|apply dec_digits]].
    apply signed_inj in E1 as [-> ->%dec_inj]; [|apply dec_digits..]. by apply digit_chars_inj in E2 as ->.
  - exfalso. apply (fraction_no_e neg ip fr). rw E. cbn. set_solver.
  - exfalso. apply (fraction_no_e neg' ip' fr'). rw -E. cbn. set_solver.
  - apply split_at in E as [(-> & -> & ->)%mantissa_inj ->%exponent_inj]; [done|apply mantissa_no_e..].
Qed.
Lemma show_not_decimal n d : show n ≠ decimal_text d.
Proof.
  destruct (show_signed n) as (neg & l & -> & Hl). intros E.
  assert (H1 : 46%N ∉ sign_text neg ++ l) by (by apply not_signed).
  assert (H2 : 101%N ∉ sign_text neg ++ l) by (by apply not_signed).
  rewrite E in H1, H2. destruct d; cbn in H1, H2; set_solver.
Qed.
Lemma quote_delimited s s' r r' : quote s ++ r = quote s' ++ r' → s = s' ∧ r = r'.
Proof.
  unfold quote. intros E. injection E as E. rewrite -!app_assoc in E.
  pose proof (unquote_units s r) as H1. pose proof (unquote_units s' r') as H2. simpl in E. rewrite E H2 in H1.
  by simplify_eq.
Qed.

(** Items of an array or object, written by [f]. *)
Definition more_items {A} (f : A → jstr) (l : list A) : jstr := l ≫= λ x, 44%N :: f x.
Lemma join_items {A} (f : A → jstr) x (l : list A) : join "," (List.map f (x :: l)) = f x ++ more_items f l.
Proof.
  revert x. induction l as [|y l IH]; intros x; [cbn; by rw app_nil_r|].
  change (join "," (List.map f (x :: y :: l))) with (f x ++ [44%N] ++ join "," (List.map f (y :: l))). by rw IH.
Qed.
Lemma items_delimited {A} (f : A → jstr) (close : N) l l' r r' :
  close = 93%N ∨ close = 125%N →
  (∀ x u t, f x ++ u ≠ close :: t) →
  Forall (λ x, ∀ y u u', delimited u → delimited u' → f x ++ u = f y ++ u' → x = y ∧ u = u') l →
  join "," (List.map f l) ++ close :: r = join "," (List.map f l') ++ close :: r' → l = l' ∧ r = r'.
Proof.
  intros Hc Hn Hf.
  assert (Hd : ∀ k t, delimited (more_items f k ++ close :: t)).
  { intros [|x k] t; [|by left]. right. destruct Hc as [->| ->]; auto. }
  assert (Ht : ∀ k k', Forall (λ x, ∀ y u u', delimited u → delimited u' → f x ++ u = f y ++ u' → x = y ∧ u = u') k →
    more_items f k ++ close :: r = more_items f k' ++ close :: r' → k = k' ∧ r = r').
  { intros k k' Hk. revert k'. induction Hk as [|x k Hx _ IH]; intros [|y k'] E; cbn in E.
    - by simplify_eq. - exfalso. destruct Hc as [->| ->]; done. - exfalso. destruct Hc as [->| ->]; done.
    - injection E as E. rewrite -!app_assoc in E. apply Hx in E as [-> E]; [|apply Hd..].
      apply IH in E as [-> ->]. done. }
  destruct Hf as [|x l Hx Hl], l' as [|y l'].
  - intros E. by simplify_eq/=.
  - rw join_items. intros E. simpl in E. rewrite -app_assoc in E. by apply symmetry, Hn in E.
  - rw join_items. intros E. simpl in E. rewrite -app_assoc in E. by apply Hn in E.
  - rw !join_items. intros E. rewrite -!app_assoc in E. apply Hx in E as [-> E]; [|apply Hd..].
    apply Ht in E as [-> ->]; done.
Qed.

Lemma stringify_delimited j : ∀ j' r r', delimited r → delimited r' →
  stringify j ++ r = stringify j' ++ r' → j = j' ∧ r = r'.
Proof.
  induction j as [|b|n|d|s|l IH|l IH] using json_nested_ind; intros j' r r' Hr Hr' E;
    pose proof (stringify_kind _ _ _ _ E) as Hk.
  - destruct j' as [|[]|n'|d'|s'|l'|l']; try done. by simplify_list_eq.
  - destruct b, j' as [|[]|n'|d'|s'|l'|l']; try done; by simplify_list_eq.
  - destruct j' as [|[]|n'|d'|s'|l'|l']; try done; cbn [stringify] in E.
    + destruct (number_chars_delimited _ _ _ _ (show_number_chars _) (show_number_chars _) Hr Hr' E) as [->%show_inj ->]. done.
    + destruct (number_chars_delimited _ _ _ _ (show_number_chars _) (decimal_number_chars _) Hr Hr' E) as [[]%show_not_decimal _].
  - destruct j' as [|[]|n'|d'|s'|l'|l']; try done; cbn [stringify] in E.
    + destruct (number_chars_delimited _ _ _ _ (decimal_number_chars _) (show_number_chars _) Hr Hr' E) as [[]%symmetry%show_not_decimal _].
    + destruct (number_chars_delimited _ _ _ _ (decimal_number_chars _) (decimal_number_chars _) Hr Hr' E) as [->%decimal_inj ->]. done.
  - destruct j' as [|[]|n'|d'|s'|l'|l']; try done. destruct (quote_delimited _ _ _ _ E) as [-> ->]. done.
  - destruct j' as [|[]|n'|d'|s'|l'|l']; try done. cbn [stringify] in E. injection E as E. rewrite -!app_assoc in E.
    apply items_delimited in E as [-> ->]; [done|by left| |done]. intros x u t. by apply stringify_not.
  - destruct j' as [|[]|n'|d'|s'|l'|l']; try done. cbn [stringify] in E. injection E as E. rewrite -!app_assoc in E.
    apply items_delimited in E as [-> ->]; [done|by right|by intros [k v] u t|].
    eapply Forall_impl; [exact IH|]. intros [k v] Hv [k' v'] u u' Hu Hu' E'. rewrite -!(app_assoc (quote _)) in E'.
    apply quote_delimited in E' as [-> E']. injection E' as E'. simpl in Hv. by apply Hv in E' as [-> ->].
Qed.
(** Different values have different texts. *)
Lemma stringify_inj j j' : stringify j = stringify j' → j = j'.
Proof.
  intros E. apply (stringify_delimited j j' [] []); [done|done|]. by rw !app_nil_r.
Qed.

(** ** Expressions that throw, without effects *)

#[export] Instance res_ret : MRet (sum jserr) := λ A a, inr a.
#[export] Instance res_bind : MBind (sum jserr) := λ A B f r, match r with inr a => f a | inl e => inl e end.
Definition lift {S A} (r : jserr + A) : M S A := λ w, (r, w).
(** [v.key] on a value of a JSON answer. *)
Definition jprop (v : json) (key : jstr) : jserr + option json :=
  match v with
  | JNull => inl (PlainError ("Cannot read properties of null (reading '" ++ key ++ "')"))
  | j => inr (jfield j key)
  end.
(** [a ?? b] and [a || b]. *)
Definition nullish (a : option json) (b : json) : json :=
  match a with None | Some JNull => b | Some v => v end.
Definition js_or (a b : option json) : option json := if json_truthy a then a else b.
(** [Object.entries]; of an array, with its indices as keys. *)
Definition object_entries (j : json) : list (jstr * json) :=
  match j with JObj l => l | JArr l => imap (λ i x, (show (Z.of_nat i), x)) l | _ => [] end.

#[global] Arguments stringify : simpl never.
#[global] Arguments quote : simpl never.
