(* ===== verification/AuditLog.v ===== *)
(** * The audit page

    [app/audit/page.tsx]: the filters and what they send, the export of the
    whole log as CSV, page by page, and the entries with their details.

    The answers of the export are handled as the JSON values they are: the
    code reads fields of them and calls methods on them, which throws where
    they are not what it expects. *)

From S2P Require Import Prelude Browser Types ApiClient Lib Json.

(** ** Constants *)

Definition RESOURCE_LABELS : list (jstr * jstr) := [
  (js "user", js "User"); (js "org", js "Organization"); (js "team", js "Team"); (js "domain", js "Domain");
  (js "domain_assignment", js "Domain Assignment"); (js "inbox", js "Inbox"); (js "email", js "Email");
  (js "webhook", js "Webhook"); (js "api_key", js "API Key")].
Definition RESOURCE_TYPES : list jstr :=
  js <$> ["user"; "org"; "team"; "domain"; "domain_assignment"; "inbox"; "email"; "webhook"; "api_key"]%string.
Definition RESOURCE_ICONS : list (jstr * jstr) := [
  (js "user", js "User"); (js "org", js "Shield"); (js "team", js "Users"); (js "domain", js "Globe");
  (js "domain_assignment", js "Globe"); (js "inbox", js "Inbox"); (js "email", js "Mail");
  (js "webhook", js "Webhook"); (js "api_key", js "Key")].

Record action_color := { bg : jstr; text : jstr; border : jstr }.
Definition tone (t : jstr) : action_color :=
  {| bg := "bg-" ++ t ++ "/10"; text := "text-" ++ t; border := "border-" ++ t ++ "/20" |}.
Definition DEFAULT_ACTION_COLOR : action_color :=
  {| bg := "bg-muted"; text := "text-muted-foreground"; border := "border-border" |}.
Definition ACTION_COLORS : list (jstr * action_color) := [
  (js "created", tone "success"); (js "updated", tone "info"); (js "deleted", tone "destructive");
  (js "revoked", tone "destructive"); (js "verified", tone "success"); (js "login", tone "primary");
  (js "logout", DEFAULT_ACTION_COLOR); (js "invited", tone "primary"); (js "accepted", tone "success");
  (js "migrated", tone "info"); (js "archived", DEFAULT_ACTION_COLOR); (js "restored", tone "success");
  (js "transferred", tone "info")].
Definition getActionColor (action : jstr) : action_color :=
  from_option snd DEFAULT_ACTION_COLOR (List.find (λ '(key, _), includes action key) ACTION_COLORS).

Definition QUICK_FILTERS : list (jstr * jstr) := [
  (js "Created", js "created"); (js "Updated", js "updated"); (js "Deleted", js "deleted");
  (js "Login", js "login"); (js "Invited", js "invited"); (js "Settings", js "settings")].

(** ** The CSV text *)

Definition newline : jstr := [10%N].
Definition csv_header : jstr := "Time,Actor,Action,Resource Type,Resource ID,IP Address,Details".
(** Quotes are doubled, and the whole is put between quotes. *)
Definition csv_quote (v : jstr) : jstr := dq ++ (v ≫= λ c, if (c =? 34)%N then [34; 34]%N else [c]) ++ dq.
Definition csv_row (fields : list jstr) : jstr := join "," (csv_quote <$> fields).
Definition csv_document (rows : list (list jstr)) : jstr := csv_header ++ newline ++ join newline (csv_row <$> rows).

Section audit.
Context `{!AppEnv, !JSRuntime}.

(** [new Date(v)] *)
Definition new_date (v : option json) : option Z :=
  match v with
  | None => None
  | Some JNull => Some 0%Z
  | Some (JBool b) => Some (if b then 1%Z else 0%Z)
  | Some (JNum n) => Some n
  | Some v => date_ms (json_to_string v)
  end.
(** [v], with the empty string for null, on which [replace] is called. *)
Definition csv_field (v : option json) : jserr + jstr :=
  match v with
  | None | Some JNull => inr []
  | Some (JStr s) => inr s
  | Some _ => inl (PlainError "replace is not a function")
  end.
Definition csv_fields (e : json) : jserr + list jstr :=
  created_at ← jprop e "created_at";
  time ← toISOString (new_date created_at);
  let get k := jfield e k in
  mapM csv_field
    [Some (JStr time); js_or (get "actor_email") (get "actor_id"); get "action"; get "resource_type"; get "resource_id";
     js_or (get "ip_address") (Some (JStr []));
     Some (JStr (if json_truthy (get "metadata") then from_option stringify [] (get "metadata") else []))].
(** The text of the file. *)
Definition csv_text (entries : json) : jserr + jstr :=
  match entries with
  | JArr l => rows ← mapM csv_fields l; mret (csv_document rows)
  | _ => inl (PlainError "entries.map is not a function")
  end.
(** The link to the blob is represented by the content of the blob. *)
Definition exportCSV {S} (now : Z) (entries : json) : M S unit :=
  content ← lift (csv_text entries);
  today ← lift (toISOString (Some now));
  emit (EDownload content ("audit-log-" ++ slice today 0 10 ++ ".csv"));;
  emit (EToastSuccess "CSV exported").

(** ** The page *)

Inductive audit_scope := ScopeOrg | ScopePlatform.
Record AuditPage := {
  action : jstr;
  actorEmail : jstr;
  resource : jstr;
  resourceName : jstr;
  dateFrom : jstr;
  dateTo : jstr;
  page : Z;
  exporting : bool;
  scope : audit_scope
}.
Definition audit_init : AuditPage := {|
  action := []; actorEmail := []; resource := []; resourceName := []; dateFrom := []; dateTo := [];
  page := 1; exporting := false; scope := ScopeOrg |}.
Definition set_exporting (b : bool) (s : AuditPage) : AuditPage := {|
  action := action s; actorEmail := actorEmail s; resource := resource s; resourceName := resourceName s;
  dateFrom := dateFrom s; dateTo := dateTo s; page := page s; exporting := b; scope := scope s |}.

Definition opt_param (k v : jstr) : list (jstr * jstr) := if truthy v then [(k, v)] else [].
(** The six filters; the dates are read by [new Date], as a whole day. *)
Definition date_param (k v parsed : jstr) : jserr + list (jstr * jstr) :=
  if truthy v then t ← toISOString (date_ms parsed); mret [(k, t)] else mret [].
Definition filter_params (s : AuditPage) : jserr + list (jstr * jstr) :=
  from ← date_param "date_from" (dateFrom s) (dateFrom s);
  to ← date_param "date_to" (dateTo s) (dateTo s ++ "T23:59:59");
  mret (opt_param "action" (action s) ++ opt_param "actor_email" (actorEmail s) ++
        opt_param "resource_type" (resource s) ++ opt_param "resource_name" (resourceName s) ++ from ++ to).
Definition audit_params (s : AuditPage) : jserr + list (jstr * jstr) :=
  filters ← filter_params s; mret ([(js "page", show (page s)); (js "per_page", js "50")] ++ filters).
Definition org_audit (orgId : jstr) : jstr := "/orgs/" ++ orgId ++ "/audit".
Definition auditPath (orgId : option jstr) (s : AuditPage) : jstr :=
  match scope s with ScopePlatform => js "/admin/audit" | ScopeOrg => org_audit (default [] orgId) end.
Definition audit_enabled (orgId : option jstr) (s : AuditPage) : bool :=
  match scope s with ScopePlatform => true | ScopeOrg => bool_decide (is_Some orgId) end.
Definition hasFilters (s : AuditPage) : bool :=
  truthy (action s) || truthy (actorEmail s) || truthy (resource s) || truthy (resourceName s) ||
  truthy (dateFrom s) || truthy (dateTo s).

(** What the user can do to the filters; [OrgLost] is the effect that runs
    when there is no organisation. *)
Inductive audit_event :=
| TypeAction (v : jstr)
| TypeActor (v : jstr)
| PickResource (v : jstr)
| TypeName (v : jstr)
| PickFrom (v : jstr)
| PickTo (v : jstr)
| DatePreset (days : Z)
| QuickFilter (v : jstr)
| ClearFilters
| PickScope (v : audit_scope)
| GoPage (p : Z)
| OrgLost.

(** [minus_days now n] is [now] with its local date set back by [n] days. *)
Context (minus_days : Z → Z → Z) (now : Z).
Definition set_filters (a ae r rn df dt : jstr) (p : Z) (sc : audit_scope) (s : AuditPage) : AuditPage := {|
  action := a; actorEmail := ae; resource := r; resourceName := rn; dateFrom := df; dateTo := dt;
  page := p; exporting := exporting s; scope := sc |}.
Definition preset_from (days : Z) : jstr :=
  match toISOString (Some (minus_days now days)) with inr t => slice t 0 10 | inl _ => [] end.
Definition audit_step (ev : audit_event) (s : AuditPage) : AuditPage :=
  let set a ae r rn df dt := set_filters a ae r rn df dt 1 (scope s) s in
  let a := action s in let ae := actorEmail s in let r := resource s in
  let rn := resourceName s in let df := dateFrom s in let dt := dateTo s in
  match ev with
  | TypeAction v => set v ae r rn df dt
  | TypeActor v => set a v r rn df dt
  | PickResource v => set a ae (if v =?s "all" then [] else v) rn df dt
  | TypeName v => set a ae r v df dt
  | PickFrom v => set a ae r rn v dt
  | PickTo v => set a ae r rn df v
  | DatePreset days => set a ae r rn (preset_from days) []
  | QuickFilter v => set (if a =?s v then [] else v) ae r rn df dt
  | ClearFilters => set [] [] [] [] [] []
  | PickScope v => set_filters a ae r rn df dt 1 v s
  | GoPage p => set_filters a ae r rn df dt p (scope s) s
  | OrgLost => set_filters a ae r rn df dt (page s) ScopePlatform s
  end.

(** ** The export *)

(** [all.concat(x)]. *)
Definition concat_js (all x : json) : jserr + json :=
  match all with
  | JArr l => inr (JArr (l ++ match x with JArr k => k | v => [v] end))
  | JStr s => inr (JStr (s ++ json_to_string x))
  | _ => inl (PlainError "all.concat is not a function")
  end.
Definition export_page {S} (orgId : jstr) (filters : list (jstr * jstr)) (p : Z) : M S (option json) :=
  api_get (org_audit orgId) (Some (filters ++ [(js "page", show p); (js "per_page", js "100")])).
(** The pages from [p] on, [n] of them. *)
Fixpoint more_pages {S} (orgId : jstr) (filters : list (jstr * jstr)) (n : nat) (p : Z) (all : json) : M S json :=
  match n with
  | O => mret all
  | Datatypes.S n' =>
      res ← export_page orgId filters p;
      data ← prop res "data";
      all' ← lift (concat_js all (nullish data (JArr [])));
      more_pages orgId filters n' (p + 1) all'
  end.
(** The number of pages, which the server sends as a number. *)
Definition page_count (v : option json) : Z := match nullish v (JNum 1) with JNum n => n | _ => 0%Z end.
Definition exportAll (currentOrg : option jstr) (closure : AuditPage) : M AuditPage unit :=
  match currentOrg with
  | None => mret tt
  | Some orgId =>
      modify (set_exporting true);;
      try_finally
        (try_catch
          (filters ← lift (filter_params closure);
           first ← export_page orgId filters 1;
           data ← prop first "data";
           pages ← prop first "total_pages";
           all ← more_pages orgId filters (Z.to_nat (page_count pages - 1)) 2 (nullish data (JArr []));
           exportCSV now all)
          (λ _, emit (EToastError "Failed to export audit log")))
        (modify (set_exporting false))
  end.
Definition export_disabled (data : option (PaginatedResponse AuditEntry)) (s : AuditPage) : bool :=
  match data with Some d => (length (PaginatedResponse_data d) =? 0)%nat | None => true end || exporting s.

(** ** What is shown *)

Definition label_of (t : jstr) : jstr := jor (default [] (map_get RESOURCE_LABELS t)) t.
(** The number of different values, [undefined] being one of them. *)
Definition distinct {A} `{!EqDecision A} (l : list A) : nat := length (set_of l).
Definition middle_dot : jstr := [32; 183; 32]%N.
Definition count_of (n : nat) (one many : jstr) : jstr := show (Z.of_nat n) ++ " " ++ (if (n =? 1)%nat then one else many).
Definition audit_summary (data : option (PaginatedResponse AuditEntry)) (s : AuditPage) : jstr :=
  let total := from_option PaginatedResponse_total 0%Z data in
  let entries := from_option PaginatedResponse_data [] data in
  if (0 <? total)%Z then
    show total ++ " " ++ (if (total =? 1)%Z then "entry" else "entries") ++ (if hasFilters s then js " (filtered)" else [])
    ++ middle_dot ++ count_of (distinct (AuditEntry_action <$> entries)) "action" "actions"
    ++ ", " ++ count_of (distinct (AuditEntry_actor_email <$> entries)) "actor" "actors" ++ " on this page"
  else match scope s with
       | ScopePlatform => js "Platform-level events (sign-ups, logins, sessions) with no owning organization."
       | ScopeOrg => js "Track all actions across your organization."
       end.

Definition getActorInitial (e : AuditEntry) : jstr :=
  match AuditEntry_actor_email e with
  | Some (c :: _) => toUpperCase [c]
  | _ => js "S"
  end.
Record audit_row := {
  ar_icon : jstr;
  ar_color : action_color;
  ar_action : jstr;
  ar_resource : jstr;
  ar_id : jstr;
  ar_initial : jstr;
  ar_actor : jstr;
  ar_ip : option jstr;
  ar_time : jstr;
  ar_title : jstr;
  ar_line : bool * bool          (* the line above and below the dot *)
}.
Definition AuditRow (e : AuditEntry) (isFirst isLast : bool) : audit_row := {|
  ar_icon := default (js "Shield") (map_get RESOURCE_ICONS (AuditEntry_resource_type e));
  ar_color := getActionColor (AuditEntry_action e);
  ar_action := AuditEntry_action e;
  ar_resource := label_of (AuditEntry_resource_type e) ++ " / ";
  ar_id := slice (AuditEntry_resource_id e) 0 8;
  ar_initial := getActorInitial e;
  ar_actor := jor (default [] (AuditEntry_actor_email e))
                (if truthy (AuditEntry_actor_id e) then slice (AuditEntry_actor_id e) 0 8 else "system");
  ar_ip := if otruthy (AuditEntry_ip_address e) then AuditEntry_ip_address e else None;
  ar_time := RelativeTime.timeAgo (AuditEntry_created_at e) now;
  ar_title := toLocaleString (AuditEntry_created_at e);
  ar_line := (negb isFirst, negb isLast)
|}.
Inductive audit_view :=
| ANoOrg
| AForbidden
| AError
| ASkeleton
| AEmpty (description : jstr)
| AList (rows : list audit_row) (page total_pages : Z).
Definition audit_view_of (hasOrg isAdmin canView isError isLoading : bool)
    (data : option (PaginatedResponse AuditEntry)) (s : AuditPage) : audit_view :=
  if negb hasOrg && negb isAdmin then ANoOrg
  else if negb (canView || isAdmin) then AForbidden
  else if isError then AError
  else if isLoading then ASkeleton
  else match data with
       | Some d =>
           let n := length (PaginatedResponse_data d) in
           if (n =? 0)%nat then AEmpty (if hasFilters s then "Try adjusting your filters." else "Actions will appear here as they happen.")
           else AList (imap (λ i e, AuditRow e (i =? 0)%nat (i =? n - 1)%nat) (PaginatedResponse_data d))
                  (page s) (PaginatedResponse_total_pages d)
       | None => AEmpty (if hasFilters s then "Try adjusting your filters." else "Actions will appear here as they happen.")
       end.
(** A key press on an entry. *)
Definition row_key (k : jstr) (expanded : bool) : bool :=
  if (k =?s "Enter") || (k =?s " ") then negb expanded else expanded.

(** The button next to a field. *)
Definition copyToClipboard {S} (text : jstr) : M S unit := emit (EClipboard text);; emit (EToastSuccess "Copied to clipboard").

(** *** Details of an entry *)

Definition dash : jstr := [8212%N].
Definition formatMetadataValue (value : option json) : jstr :=
  match value with
  | None | Some JNull => dash
  | Some (JBool b) => if b then "Yes" else "No"
  | Some ((JArr _ | JObj _) as v) => stringify_2 [] v
  | Some v => json_to_string v
  end.
Definition is_object (v : option json) : bool := match v with Some (JArr _ | JObj _) => true | _ => false end.
Definition isBeforeAfterMetadata (metadata : list (jstr * json)) : bool :=
  is_object (map_get metadata "before") && is_object (map_get metadata "after").

(** [JSON.stringify(a) !== JSON.stringify(b)]; of [undefined] it is [undefined]. *)
Definition json_differs (a b : option json) : bool := bool_decide (stringify <$> a ≠ stringify <$> b).
Definition allKeys (before after : json) : list jstr :=
  set_of ((object_entries before).*1 ++ (object_entries after).*1).
Definition prop_of (j : json) (k : jstr) : option json := map_get (object_entries j) k.
Definition changedKeys (before after : json) : list jstr :=
  List.filter (λ k, json_differs (prop_of before k) (prop_of after k)) (allKeys before after).
(** [key.replace(/_/g, " ")]. *)
Definition spaced (k : jstr) : jstr := (λ c, if (c =? 95)%N then 32%N else c) <$> k.

Inductive metadata_view :=
| DiffNone
| DiffRows (rows : list (jstr * jstr * jstr))
| MetadataRows (rows : list (jstr * jstr)).
Definition BeforeAfterDiff (before after : json) : metadata_view :=
  match changedKeys before after with
  | [] => DiffNone
  | ks => DiffRows ((λ k, (spaced k, formatMetadataValue (prop_of before k), formatMetadataValue (prop_of after k))) <$> ks)
  end.
Definition MetadataTable (metadata : list (jstr * json)) : metadata_view :=
  MetadataRows ((λ '(k, v), (spaced k, match v with JArr _ | JObj _ => stringify_2 [] v | _ => formatMetadataValue (Some v) end)) <$> metadata).
Definition metadata_view_of (e : AuditEntry) : option metadata_view :=
  match AuditEntry_metadata e with
  | Some ((_ :: _) as m) =>
      Some (if isBeforeAfterMetadata m
            then BeforeAfterDiff (default JNull (map_get m "before")) (default JNull (map_get m "after"))
            else MetadataTable m)
  | _ => None
  end.
Definition ExpandedDetails (e : AuditEntry) : list (jstr * jstr) * option metadata_view :=
  ([(js "Actor", jor (default [] (AuditEntry_actor_email e)) (AuditEntry_actor_id e));
    (js "Resource ID", AuditEntry_resource_id e);
    (js "IP Address", jor (default [] (AuditEntry_ip_address e)) dash);
    (js "Timestamp", toLocaleString (AuditEntry_created_at e));
    (js "Resource Type", label_of (AuditEntry_resource_type e));
    (js "Action", AuditEntry_action e)],
   metadata_view_of e).
End audit.

(** ** Reading CSV

    A reader for the format of RFC 4180, the reference for the text that is
    exported: fields are bare or quoted, a quote inside quotes is doubled,
    records end at a line feed. *)

Inductive csv_mode := AtStart | Bare | InQuotes | AfterQuote.
Fixpoint csv_go (m : csv_mode) (field : jstr) (row : list jstr) (s : jstr) : option (list (list jstr)) :=
  match s with
  | [] => match m with
          | InQuotes => None
          | AtStart => match row with [] => Some [] | _ => Some [rev ([] :: row)] end
          | _ => Some [rev (rev field :: row)]
          end
  | c :: t =>
      match m with
      | InQuotes => if (c =? 34)%N then csv_go AfterQuote field row t else csv_go InQuotes (c :: field) row t
      | _ =>
          if (c =? 44)%N then csv_go AtStart [] (rev field :: row) t
          else if (c =? 10)%N then cons (rev (rev field :: row)) <$> csv_go AtStart [] [] t
          else if (c =? 34)%N then
            match m with
            | AtStart => csv_go InQuotes [] row t
            | AfterQuote => csv_go InQuotes (34%N :: field) row t
            | _ => None
            end
          else match m with AfterQuote => None | _ => csv_go Bare (c :: field) row t end
      end
  end.
Definition csv_read (s : jstr) : option (list (list jstr)) := csv_go AtStart [] [] s.
Definition header_fields : list jstr :=
  js <$> ["Time"; "Actor"; "Action"; "Resource Type"; "Resource ID"; "IP Address"; "Details"]%string.

Definition csv_escape (v : jstr) : jstr := v ≫= λ c, if (c =? 34)%N then [34; 34]%N else [c].
Lemma csv_quoted v field row t :
  csv_go InQuotes field row (csv_escape v ++ 34%N :: t) = csv_go AfterQuote (rev v ++ field) row t.
Proof.
  revert field; induction v as [|c v IH]; intros field; [done|]. unfold csv_escape. rw bind_cons. fold (csv_escape v).
  destruct (N.eqb_spec c 34) as [->|Hc]; rw -app_assoc.
  - change (csv_go InQuotes (34%N :: field) row (csv_escape v ++ 34%N :: t) = csv_go AfterQuote (rev (34%N :: v) ++ field) row t).
    rw IH. cbn [rev]. by rw -app_assoc.
  - cbn [csv_go app]. rw (proj2 (N.eqb_neq c 34)) // IH. cbn [rev]. by rw -app_assoc.
Qed.
(** A row after its first fields [pre], which are reversed; at its end the
    text is empty or goes on with a line feed. *)
Lemma csv_read_row fields : ∀ pre t rest, fields ≠ [] →
  (t = [] ∧ rest = Some [] ∨ ∃ u, t = 10%N :: u ∧ rest = csv_read u) →
  csv_go AtStart [] pre (csv_row fields ++ t) = cons (rev pre ++ fields) <$> rest.
Proof.
  induction fields as [|f fields IH]; intros pre t rest Hn Ht; [done|]. clear Hn.
  assert (Hq : ∀ u, csv_go AtStart [] pre (csv_quote f ++ u) = csv_go AfterQuote (rev f) pre u).
  { intros u. unfold csv_quote, dq. rw -!app_assoc. cbn [app csv_go N.eqb Pos.eqb].
    rw csv_quoted app_nil_r. done. }
  destruct fields as [|g fields].
  - change (csv_row [f]) with (csv_quote f). rw Hq. destruct Ht as [[-> ->]|(u & -> & ->)];
      cbn [csv_go]; rw rev_involutive; cbn [rev]; done.
  - change (csv_row (f :: g :: fields)) with (csv_quote f ++ [44%N] ++ csv_row (g :: fields)).
    rw -(app_assoc (csv_quote f)) Hq. cbn [app csv_go N.eqb Pos.eqb]. rw rev_involutive.
    rw (IH (f :: pre) t rest); [|done|done]. cbn [rev]. by rw -app_assoc.
Qed.
Lemma csv_read_rows rows : Forall (λ r, r ≠ []) rows → csv_read (join newline (csv_row <$> rows)) = Some rows.
Proof.
  induction 1 as [|r rows Hr Hrows IH]; [done|]. destruct rows as [|r' rows].
  - change (join newline (csv_row <$> [r])) with (csv_row r). rw -(app_nil_r (csv_row r)).
    by rw /csv_read (csv_read_row r [] [] (Some [])); [|done|by left].
  - change (join newline (csv_row <$> r :: r' :: rows)) with (csv_row r ++ newline ++ join newline (csv_row <$> r' :: rows)).
    unfold csv_read. rw (csv_read_row r [] _ (csv_read (join newline (csv_row <$> r' :: rows)))); [by rw IH|done|].
    right. by eexists.
Qed.
Lemma csv_read_header t : csv_read (csv_header ++ newline ++ t) = cons header_fields <$> csv_read t.
Proof. reflexivity. Qed.
Lemma csv_document_read rows : Forall (λ r, r ≠ []) rows → csv_read (csv_document rows) = Some (header_fields :: rows).
Proof. intros Hr. unfold csv_document. by rw csv_read_header csv_read_rows. Qed.

(** ** The export is complete *)

Lemma mapM_res {A B} (f : A → jserr + B) (l : list A) (k : list B) :
  mapM f l = inr k → Forall2 (λ x y, f x = inr y) l k.
Proof.
  revert k; induction l as [|x l IH]; intros k; cbn; [intros [= <-]; constructor|].
  unfold mbind, res_bind, mret, res_ret. destruct (f x) as [e|y] eqn:E; [done|].
  destruct (mapM f l) as [e|k'] eqn:E'; [done|]. intros [= <-]. constructor; [done|by apply IH].
Qed.
Lemma csv_fields_length `{!JSRuntime} e fields : csv_fields e = inr fields → length fields = 7%nat.
Proof.
  unfold csv_fields, mbind, res_bind. destruct (jprop e _) as [?|created]; [done|].
  destruct (toISOString _) as [?|time]; [done|]. intros E. apply mapM_res, Forall2_length in E. done.
Qed.
Lemma csv_text_read `{!JSRuntime} l rows : mapM csv_fields l = inr rows →
  csv_text (JArr l) = inr (csv_document rows) ∧ csv_read (csv_document rows) = Some (header_fields :: rows).
Proof.
  intros E. split; [cbn; by rw E|]. apply csv_document_read, Forall_forall. intros r Hr.
  apply mapM_res in E. apply list_elem_of_lookup in Hr as [i Hi].
  destruct (Forall2_lookup_r _ _ _ _ _ E Hi) as (e & _ & He). apply csv_fields_length in He. by destruct r.
Qed.

Section export.
Context `{!AppEnv, !JSRuntime} (minus_days : Z → Z → Z) (now : Z) (orgId : jstr).

Definition export_request (filters : list (jstr * jstr)) (p : nat) (token : option jstr) : http_request :=
  build_request (org_audit orgId) {| o_method := "GET"; o_headers := []; o_body := None;
    o_params := Some (filters ++ [(js "page", show (Z.of_nat p)); (js "per_page", js "100")]) |} token.
Definition total_pages (l : list json) : nat := (length l + 99) / 100.
Definition page_answer (l : list json) (p : nat) : json :=
  JObj [(js "data", JArr (take 100 (drop (100 * (p - 1)) l))); (js "total", JNum (Z.of_nat (length l)));
        (js "page", JNum (Z.of_nat p)); (js "per_page", JNum 100); (js "total_pages", JNum (Z.of_nat (total_pages l)))].
(** A server that holds the log [l] answers each page. *)
Definition serves (l : list json) (filters : list (jstr * jstr)) (b : browser) : Prop :=
  ∀ k p, (1 ≤ p ≤ Nat.max 1 (total_pages l))%nat →
    net b k (export_request filters p (accessToken b)) = answer 200 (page_answer l p).

Definition after_pages {S} (filters : list (jstr * jstr)) (ps : list nat) (w : world S) : world S :=
  foldl (λ w p, after_fetch (export_request filters p (accessToken (brw w))) w) w ps.

Lemma export_page_ok {S} l filters p (w : world S) :
  serves l filters (brw w) → (1 ≤ p ≤ Nat.max 1 (total_pages l))%nat →
  export_page orgId filters (Z.of_nat p) w =
    (inr (Some (page_answer l p)), after_fetch (export_request filters p (accessToken (brw w))) w).
Proof.
  intros Hs Hp. unfold export_page, api_get. rw request_eq. cbv zeta. fold (export_request filters p (accessToken (brw w))).
  by rw (Hs (sent (brw w)) p Hp).
Qed.
Lemma serves_after {S} l filters r (w : world S) : serves l filters (brw w) → serves l filters (brw (after_fetch r w)).
Proof. done. Qed.

Lemma prop_page {S} l p k (w : world S) : prop (Some (page_answer l p)) k w = (inr (jfield (page_answer l p) k), w).
Proof. done. Qed.
Lemma page_data l p : jfield (page_answer l p) "data" = Some (JArr (take 100 (drop (100 * (p - 1)) l))).
Proof. reflexivity. Qed.
Lemma page_totals l p : jfield (page_answer l p) "total_pages" = Some (JNum (Z.of_nat (total_pages l))).
Proof. reflexivity. Qed.

Lemma more_pages_ok {S} l filters n : ∀ p (w : world S),
  serves l filters (brw w) → (1 ≤ p)%nat → (p + n - 1 ≤ total_pages l)%nat →
  more_pages orgId filters n (Z.of_nat p) (JArr (take (100 * (p - 1)) l)) w =
    (inr (JArr (take (100 * (p + n - 1)) l)), after_pages filters (seq p n) w).
Proof.
  induction n as [|n IH]; intros p w Hs Hp Hn; cbn [more_pages seq after_pages foldl].
  - unfold mret, M_ret. by rw (_ : (p + 0 - 1 = p - 1)%nat); [|lia].
  - unfold mbind, M_bind, lift. rw (export_page_ok l) //; [|lia]. rw prop_page page_data. cbn [nullish concat_js].
    rw take_take_drop (_ : (Z.of_nat p + 1)%Z = Z.of_nat (Datatypes.S p)); [|lia]. rw (_ : (100 * (p - 1) + 100 = 100 * (Datatypes.S p - 1))%nat); [|lia].
    rw IH; [|done|lia|lia]. by rw (_ : (Datatypes.S p + n = p + Datatypes.S n)%nat); [|lia].
Qed.

Lemma total_pages_bound l : (length l ≤ 100 * total_pages l)%nat.
Proof. unfold total_pages. pose proof (Nat.div_mod_eq (length l + 99) 100). pose proof (Nat.mod_upper_bound (length l + 99) 100). lia. Qed.

(** The trace of a run of requests. *)
Lemma after_pages_trace {S} filters ps (w : world S) :
  trace (brw (after_pages filters ps w)) = trace (brw w) ++ ((λ p, EFetch (export_request filters p (accessToken (brw w)))) <$> ps).
Proof.
  revert w; induction ps as [|p ps IH]; intros w; cbn [after_pages foldl fmap list_fmap]; [by rw app_nil_r|].
  fold (after_pages filters ps (after_fetch (export_request filters p (accessToken (brw w))) w)). rw IH. cbn. by rw -app_assoc.
Qed.
Lemma after_pages_st {S} filters ps (w : world S) : st (after_pages filters ps w) = st w.
Proof. revert w; induction ps as [|p ps IH]; intros w; [done|]. by rw /= IH. Qed.

(** All pages, from the first answer on. *)
Lemma export_fetches l filters (w : world AuditPage) : serves l filters (brw w) →
  let pages := seq 1 (Nat.max 1 (total_pages l)) in
  (first ← export_page orgId filters 1;
   data ← prop first "data";
   pages ← prop first "total_pages";
   more_pages orgId filters (Z.to_nat (page_count pages - 1)) 2 (nullish data (JArr []))) w =
  (inr (JArr l), after_pages filters pages w).
Proof.
  intros Hs pages. unfold mbind, M_bind. rw (export_page_ok l filters 1) //; [|lia]. rw !prop_page page_data page_totals.
  cbn [nullish page_count]. rw (_ : Z.to_nat (Z.of_nat (total_pages l) - 1) = (total_pages l - 1)%nat); [|lia].
  pose proof (total_pages_bound l) as Hb. change (100 * (1 - 1))%nat with 0%nat. rw drop_0.
  change (take 100 l) with (take (100 * (2 - 1)) l).
  destruct (decide (total_pages l ≤ 1)%nat) as [H1|H1].
  - subst pages. rw (_ : (total_pages l - 1 = 0)%nat); [|lia]. rw (_ : Nat.max 1 (total_pages l) = 1%nat); [|lia].
    cbn [more_pages]. unfold mret, M_ret. rw take_ge; [done|lia].
  - rw (more_pages_ok l filters _ 2) //; [|lia|lia]. rw take_ge; [|lia]. f_equal.
    subst pages. by rw (_ : Nat.max 1 (total_pages l) = Datatypes.S (total_pages l - 1)); [|lia].
Qed.

(** C20: with a server that holds a log, the export asks for every page once and
    in order, and downloads one file; read as CSV, the file is the header and
    one row for each entry of the log, in order. *)
Theorem exportAll_complete (l : list json) (filters : list (jstr * jstr)) (rows : list (list jstr)) (today : jstr)
    (s : AuditPage) (w : world AuditPage) :
  serves l filters (brw w) → filter_params s = inr filters → mapM csv_fields l = inr rows →
  toISOString (Some now) = inr today →
  ∃ file w', exportAll now (Some orgId) s w = (inr tt, w') ∧ st w' = set_exporting false (st w) ∧
    trace (brw w') = trace (brw w) ++
      ((λ p, EFetch (export_request filters p (accessToken (brw w)))) <$> seq 1 (Nat.max 1 (total_pages l))) ++
      [EDownload file ("audit-log-" ++ slice today 0 10 ++ ".csv"); EToastSuccess "CSV exported"] ∧
    csv_read file = Some (header_fields :: rows) ∧ length rows = length l.
Proof.
  intros Hs Hf Hr Ht. destruct (csv_text_read l rows Hr) as [Hc Hd].
  set (w1 := World (brw w) (set_exporting true (st w))).
  pose proof (export_fetches l filters w1 Hs) as He. revert He. unfold exportAll, try_finally, try_catch, exportCSV, lift, modify.
  unfold mbind, M_bind. fold w1. rw Hf. cbv beta zeta.
  destruct (export_page _ _ _ w1) as [[e|first] w2]; [done|].
  destruct (prop first "data" w2) as [[e|data] w3]; [done|].
  destruct (prop first "total_pages" w3) as [[e|pages] w4]; [done|].
  intros ->. rw Hc Ht. eexists _, _. split; [done|]. split; [by rw /= after_pages_st|].
  split; [|split; [exact Hd|symmetry; eapply Forall2_length, mapM_res, Hr]].
  cbn. rw after_pages_trace -!app_assoc. done.
Qed.

(** The export never throws and leaves the page as it was, whatever the
    server answers. *)
Lemma more_pages_frame filters n : ∀ p all, preserves (S := AuditPage) session_frame (more_pages orgId filters n p all).
Proof.
  induction n as [|n IH]; intros p all; cbn [more_pages]; unfold export_page; preserve.
Qed.
Theorem exportAll_settles (s : AuditPage) (w : world AuditPage) :
  ∃ w', exportAll now (Some orgId) s w = (inr tt, w') ∧ st w' = set_exporting false (st w).
Proof.
  unfold exportAll, try_finally, modify. unfold mbind at 1, M_bind at 1. set (w1 := World (brw w) (set_exporting true (st w))).
  match goal with |- context [try_catch ?m ?h w1] => assert (Hp : preserves (S := AuditPage) session_frame m) end.
  { unfold export_page, exportCSV. preserve; try apply more_pages_frame; intros w'; reflexivity. }
  specialize (Hp w1). unfold try_catch.
  match type of Hp with session_frame _ (snd ?m) => destruct m as [[e|[]] w2] end; cbn in Hp |- *;
    eexists; (split; [done|]); cbn; by rw (sf_state _ _ Hp).
Qed.
End export.

(** ** Differences *)

Lemma map_get_none {V} (l : list (jstr * V)) k : k ∉ l.*1 → map_get l k = None.
Proof.
  induction l as [|[k' v] l IH]; [done|]. cbn. intros Hk. apply not_elem_of_cons in Hk as [? Hk].
  rw decide_False //. by apply IH.
Qed.
Lemma json_differs_spec a b : json_differs a b = true ↔ a ≠ b.
Proof.
  unfold json_differs. rw bool_decide_eq_true. split; [congruence|]. intros Hn E. apply Hn.
  destruct a as [a|], b as [b|]; try done. injection E as E. by apply stringify_inj in E as ->.
Qed.
(** The fields shown as changed are exactly the ones whose value differs
    before and after, or that are present on one side only, each shown once. *)
Theorem changedKeys_spec (before after : json) :
  NoDup (changedKeys before after) ∧
  ∀ k, k ∈ changedKeys before after ↔ prop_of before k ≠ prop_of after k.
Proof.
  unfold changedKeys. split; [apply NoDup_ListNoDup, List.NoDup_filter, NoDup_ListNoDup, NoDup_set_of|].
  intros k. rw list_elem_of_In filter_In -list_elem_of_In json_differs_spec. split; [tauto|]. intros Hn. split; [|done].
  unfold allKeys. rw elem_of_set_of elem_of_app.
  destruct (decide (k ∈ (object_entries before).*1)) as [|H1]; [by left|].
  destruct (decide (k ∈ (object_entries after).*1)) as [|H2]; [by right|].
  destruct Hn. unfold prop_of. by rw !map_get_none.
Qed.

(** ** Filters *)

Definition filters_of (s : AuditPage) : list jstr :=
  [action s; actorEmail s; resource s; resourceName s; dateFrom s; dateTo s].
(** Whatever changes a filter also goes back to the first page. *)
Theorem filters_reset_page (minus_days : Z → Z → Z) (now : Z) (ev : audit_event) (s : AuditPage) :
  let s' := audit_step minus_days now ev s in
  filters_of s' ≠ filters_of s ∨ (∃ v, ev = PickScope v) → page s' = 1%Z.
Proof. destruct ev; cbn; intros [?|[? ?]]; done. Qed.

(** A day is read in two time zones: the start as UTC, as dates without a time
    are, the end as local time.  [offset] is what local time is ahead of UTC. *)
Theorem day_window_skewed `{!JSRuntime} (d : jstr) (utc offset : Z) (s : AuditPage) :
  date_ms d = Some utc → date_ms (d ++ "T23:59:59") = Some (utc + 86399000 - offset)%Z →
  dateFrom s = d → dateTo s = d → truthy d = true → (Z.abs utc <= 8640000000000000 - 200000000)%Z → (Z.abs offset <= 86400000)%Z →
  ∃ from to, toISOString (Some utc) = inr from ∧ toISOString (Some (utc + 86399000 - offset)%Z) = inr to ∧
    filter_params s = inr (opt_param "action" (action s) ++ opt_param "actor_email" (actorEmail s) ++
      opt_param "resource_type" (resource s) ++ opt_param "resource_name" (resourceName s) ++
      [(js "date_from", from)] ++ [(js "date_to", to)]).
Proof.
  intros Hu Hl Hf Ht Hd H1 H2. unfold filter_params, date_param. rw Hf Ht Hd Hu Hl.
  unfold toISOString. rw !(proj2 (Z.leb_le _ _)); [|lia..].
  destruct (civil (utc / _)) as [[y m] dd], (civil ((utc + _ - _) / _)) as [[y' m'] dd'].
  by eexists _, _.
Qed.

(** ** Instances *)

Definition a_log : list json := [
  JObj [(js "created_at", JStr "1709210096789"); (js "actor_email", JStr "a@b.test"); (js "action", JStr "domain.created");
        (js "resource_type", JStr "domain"); (js "resource_id", JStr "d1"); (js "metadata", JObj [(js "name", JStr "x.test")])];
  JObj [(js "created_at", JStr "1709210096790"); (js "actor_id", JStr "u1"); (js "action", JStr "domain.deleted");
        (js "resource_type", JStr "domain"); (js "resource_id", JStr "d1"); (js "ip_address", JStr "10.0.0.1")]].
Definition log_browser : browser :=
  Browser true (Some (js "t")) ∅ "/audit" (λ _ _, answer 200 (page_answer a_log 1)) 0 [].
Lemma exportAll_complete_witness :
  ∃ file w', exportAll (H := default_env) (H0 := AsciiRuntime) 1709210096791 (Some (js "o")) audit_init (World log_browser audit_init) = (inr tt, w') ∧
    last (trace (brw w')) = Some (EToastSuccess "CSV exported") ∧
    (length <$> csv_read file) = Some 3%nat.
Proof.
  destruct (exportAll_complete (H := default_env) (H0 := AsciiRuntime) 1709210096791 "o" a_log []
    ltac:(let r := eval vm_compute in (mapM (csv_fields (H0 := AsciiRuntime)) a_log) in match r with inr ?rows => exact rows end)
    (js "2024-02-29T12:34:56.791Z") audit_init (World log_browser audit_init)) as (file & w' & E & _ & Ht & Hr & _).
  - intros k p Hp. assert (p = 1%nat) as -> by (vm_compute in Hp; lia). reflexivity.
  - reflexivity.
  - vm_compute. reflexivity.
  - vm_compute. reflexivity.
  - exists file, w'. split; [exact E|]. split; [rewrite Ht; reflexivity|rewrite Hr; reflexivity].
Defined.
Lemma day_window_skewed_witness :
  ∃ from to, toISOString (Some 1709164800000%Z) = inr from ∧ toISOString (Some 1709240399000%Z) = inr to ∧ from ≠ to.
Proof.
  set (rt := {| toLowerCase s := ascii_lower <$> s; toUpperCase s := s; toLocaleDateString s := s; toLocaleString s := s;
    url_protocol s := None; toLowerCase_ascii s H := eq_refl;
    date_ms s := if s =?s "2024-02-29" then Some 1709164800000%Z else Some 1709240399000%Z |} : JSRuntime).
  destruct (day_window_skewed (H := rt) "2024-02-29" 1709164800000 10800000
    (set_filters [] [] [] [] "2024-02-29" "2024-02-29" 1 ScopeOrg audit_init)) as (from & to & E1 & E2 & _);
    try reflexivity; try lia.
  exists from, to. split; [exact E1|]. split; [exact E2|]. intros ->. rewrite -E1 in E2. vm_compute in E2. discriminate.
Defined.
Lemma filters_reset_page_witness : page (audit_step (λ n _, n) 0 (TypeAction "login")
  (set_filters [] [] [] [] [] [] 4 ScopeOrg audit_init)) = 1%Z.
Proof. apply (filters_reset_page (λ n _, n) 0 (TypeAction "login") (set_filters [] [] [] [] [] [] 4 ScopeOrg audit_init)). left. discriminate. Defined.
