(* ===== verification/SettingsGeneral.v ===== *)
(** * The settings page: organisation and platform

    [app/settings/page.tsx] without the single sign-on tab: which tabs there
    are, the organisation form with its automatic saving, as a step relation
    over timers and calls together with the handlers of
    [internal/service/org_service.go] that store what is sent, the deletion of
    an organisation, and the cards of the system tab.

    The settings of an organisation are handled as the JSON object they are,
    since the form compares their texts. *)

From S2P Require Import Prelude Browser Types ApiClient React Json Webhooks.

(** ** The tabs *)

Inductive settings_view := SForbidden | SNoOrg | STabs (tabs : list jstr) (first : jstr).
Definition SettingsPage (hasOrg canManage isSystemAdmin : bool) : settings_view :=
  if negb (canManage || isSystemAdmin) then SForbidden
  else if negb hasOrg && negb isSystemAdmin then SNoOrg
  else STabs ((if hasOrg then [js "general"; js "users"] else []) ++
              (if isSystemAdmin then [js "roles"; js "sso"; js "overview"] else []))
             (if hasOrg then "general" else "overview").

(** ** The organisation form *)

Record OrgForm := { f_name : jstr; f_logo : jstr; f_settings : list (jstr * json) }.
(** The organisation as the store or the server has it. *)
Record OrgView := { o_name : jstr; o_logo : option jstr; o_settings : list (jstr * json) }.
Definition form_of (o : OrgView) : OrgForm :=
  {| f_name := o_name o; f_logo := default [] (o_logo o); f_settings := o_settings o |}.
Definition dirty (f : OrgForm) (o : OrgView) : bool :=
  negb (f_name f =?s o_name o) || negb (f_logo f =?s default [] (o_logo o)) ||
  negb (stringify (JObj (f_settings f)) =?s stringify (JObj (o_settings o))).
(** [set(key, val)]. *)
Definition set_setting (key : jstr) (v : json) (f : OrgForm) : OrgForm :=
  {| f_name := f_name f; f_logo := f_logo f; f_settings := map_set (f_settings f) key v |}.
(** The fields of the form as it is drawn, with their defaults. *)
Record policy_view := {
  pv_attachments : bool; pv_enforce_sso : bool; pv_default_ttl : jstr; pv_max_ttl : jstr; pv_renewal : jstr;
  pv_fixed : option jstr
}.
Definition as_bool (v : option json) (d : bool) : bool := match v with Some (JBool b) => b | _ => d end.
Definition policies (f : OrgForm) : policy_view :=
  let get k := map_get (f_settings f) (js k) in
  {| pv_attachments := as_bool (get "attachments_enabled"%string) true;
     pv_enforce_sso := as_bool (get "enforce_sso"%string) false;
     pv_default_ttl := default [] (as_string (get "default_inbox_ttl"%string));
     pv_max_ttl := default [] (as_string (get "max_inbox_ttl"%string));
     pv_renewal := default (js "original") (as_string (get "renewal_policy"%string));
     pv_fixed := if bool_decide (as_string (get "renewal_policy"%string) = Some (js "fixed"))
                 then Some (default [] (as_string (get "renewal_ttl"%string))) else None |}.

(** What is sent: the logo only when there is one. *)
Definition org_patch (f : OrgForm) : json :=
  jobj [(js "name", Some (JStr (f_name f))); (js "logo_url", if truthy (f_logo f) then Some (JStr (f_logo f)) else None)].

Section calls.
Context `{!AppEnv} (orgId : jstr).

Definition org_path : jstr := "/orgs/" ++ orgId.
(** The two calls of a save; [onSaved] reloads the organisations. *)
Definition save_calls {S} (f : OrgForm) : M S unit :=
  _ ← api_patch org_path (Some (org_patch f));
  _ ← api_put (org_path ++ "/settings") (Some (JObj (f_settings f)));
  emit (EStore "fetchOrgs" []).
Definition save {S} (setSaving : bool → S → S) (f : OrgForm) : M S unit :=
  modify (setSaving true);;
  try_finally
    (try_catch (save_calls f;; emit (EToastSuccess "Settings saved")) (λ err, emit (EToastError (err_message err))))
    (modify (setSaving false)).

Inductive autosave_status := AutoIdle | AutoSaving | AutoSaved.
(** What the timer of the automatic save runs. *)
Definition autosave {S} (setStatus : autosave_status → S → S) (f : OrgForm) : M S unit :=
  modify (setStatus AutoSaving);;
  try_catch
    (save_calls f;; modify (setStatus AutoSaved);; emit (ETimeout 2000))
    (λ _, modify (setStatus AutoIdle)).

(** *** Deleting the organisation *)

Record DangerZone := { dz_open : bool; dz_confirm : jstr; dz_password : jstr; dz_deleting : bool; dz_error : jstr }.
Definition dz_set (open deleting : bool) (error : jstr) (s : DangerZone) : DangerZone :=
  {| dz_open := open; dz_confirm := dz_confirm s; dz_password := dz_password s; dz_deleting := deleting; dz_error := error |}.
Definition dz_onOpenChange (v : bool) (s : DangerZone) : DangerZone :=
  if v then dz_set true (dz_deleting s) (dz_error s) s
  else {| dz_open := false; dz_confirm := []; dz_password := []; dz_deleting := dz_deleting s; dz_error := [] |}.
Definition dz_disabled (orgName : jstr) (isSSO : bool) (s : DangerZone) : bool :=
  negb (dz_confirm s =?s orgName) || (negb isSSO && negb (truthy (dz_password s))) || dz_deleting s.
Definition delete_body (isSSO : bool) (s : DangerZone) : json :=
  JObj [(js "password", JStr (if isSSO then [] else dz_password s))].
Definition handleDelete (orgName : jstr) (isSSO : bool) (closure : DangerZone) : M DangerZone unit :=
  if negb (dz_confirm closure =?s orgName) then
    modify (λ s, dz_set (dz_open s) (dz_deleting s) "Organization name does not match." s)
  else if negb isSSO && negb (truthy (dz_password closure)) then
    modify (λ s, dz_set (dz_open s) (dz_deleting s) "Password is required." s)
  else
    modify (λ s, dz_set (dz_open s) (dz_deleting s) [] s);;
    modify (λ s, dz_set (dz_open s) true (dz_error s) s);;
    try_finally
      (try_catch
        (_ ← api_send "DELETE" org_path (Some (delete_body isSSO closure));
         emit (EToastSuccess "Organization deleted");;
         modify (λ s, dz_set false (dz_deleting s) (dz_error s) s);;
         emit (EStore "fetchOrgs" []);;
         emit (ELocation "/"))
        (λ err, modify (λ s, dz_set (dz_open s) (dz_deleting s) (err_message err) s)))
      (modify (λ s, dz_set (dz_open s) false (dz_error s) s)).
End calls.

(** ** The server *)

(** [net/url.Parse]: scheme, host, and whether there are credentials. *)
Record url_parts := { u_scheme : jstr; u_host : jstr; u_user : bool }.
Class GoURLParse := { url_Parse : jstr → option url_parts }.

Section org_service.
Context `{!GoURLParse}.

Definition validateLogoURL (raw : jstr) : option jstr :=
  match url_Parse raw with
  | None => Some (js "invalid logo URL")
  | Some u =>
      if negb (u_scheme u =?s "https") then Some (js "logo URL must use https")
      else if negb (truthy (u_host u)) then Some (js "logo URL must have a host")
      else if u_user u then Some (js "logo URL must not contain credentials")
      else None
  end.
(** [UpdateOrg], for what the page sends: the name always, the logo unless it
    is empty; [None] is a refusal. *)
Definition UpdateOrg (f : OrgForm) (o : OrgView) : option OrgView :=
  if truthy (f_logo f) then
    match validateLogoURL (f_logo f) with
    | Some _ => None
    | None => Some {| o_name := f_name f; o_logo := Some (f_logo f); o_settings := o_settings o |}
    end
  else Some {| o_name := f_name f; o_logo := o_logo o; o_settings := o_settings o |}.
End org_service.

(** The fields of [OrgSettings], in their order, with their types, and whether
    [UpdateSettings] takes them over. *)
Inductive setting_type := SBool | SText | SInt.
Definition setting_fields : list (jstr * (setting_type * bool)) := [
  (js "attachments_enabled", (SBool, true)); (js "default_inbox_ttl", (SText, true)); (js "max_inbox_ttl", (SText, true));
  (js "max_attachment_size_mb", (SInt, true)); (js "max_domains", (SInt, true)); (js "max_teams", (SInt, true));
  (js "max_inboxes_per_domain", (SInt, true)); (js "enforce_sso", (SBool, true));
  (js "renewal_policy", (SText, false)); (js "renewal_ttl", (SText, false))].
(** A field that is absent or [null] is no value. *)
Definition given (sent : list (jstr * json)) (k : jstr) : option json :=
  match map_get sent k with Some JNull | None => None | Some v => Some v end.
(** What can be decoded, and is at least 1 if it is a quota. *)
Definition setting_accepted (t : setting_type) (v : json) : bool :=
  match t, v with SBool, JBool _ | SText, JStr _ => true | SInt, JNum n => (1 <=? n)%Z && (n <? 2 ^ 63)%Z | _, _ => false end.
Definition merged (sent old : list (jstr * json)) (k : jstr) (kept : bool) : option json :=
  if kept then match given sent k with Some v => Some v | None => map_get old k end else map_get old k.
Definition merge_settings (sent old : list (jstr * json)) : list (jstr * json) :=
  omap (λ '(k, (_, kept)), pair k <$> merged sent old k kept) setting_fields.
(** [UpdateSettings] with the decoding of its handler; [None] is a refusal. *)
Definition UpdateSettings (sent : list (jstr * json)) (o : OrgView) : option OrgView :=
  if forallb (λ '(k, (t, _)), from_option (setting_accepted t) true (given sent k)) setting_fields
  then Some {| o_name := o_name o; o_logo := o_logo o; o_settings := merge_settings sent (o_settings o) |}
  else None.

(** ** The automatic save as a system

    [form] is what the tab shows and [org] its property, the organisation of
    the store; [srv] is what the server stores.  [onSaved] reloads the list of
    organisations but not the current one, so [org] stays what it was when the
    application was started.  An edit replaces the timer (or stops it when the
    form is again what was loaded); the timer starts a save with the values it
    was set with; a save makes two calls, one after the other.  A call can be
    refused or get lost, before or after the server has stored what it
    carries.  Leaving the tab stops the timer, and coming back starts with
    [org] again. *)

Inductive save_stage := Patching | Putting.
Record auto_sys := AutoSys {
  form : OrgForm;
  org : OrgView;
  srv : OrgView;
  timer : option OrgForm;
  saves : list (OrgForm * save_stage)
}.
Definition auto_init (o : OrgView) : auto_sys := AutoSys (form_of o) o o None [].
(** The second effect: its timer for a form that is shown with [o]. *)
Definition arm (f : OrgForm) (o : OrgView) : option OrgForm := if dirty f o then Some f else None.

Section autosave.
Context `{!GoURLParse}.

Definition store_call (f : OrgForm) (stage : save_stage) (o : OrgView) : option OrgView :=
  match stage with Patching => UpdateOrg f o | Putting => UpdateSettings (f_settings f) o end.
(** What happens by itself. *)
Inductive own_step : auto_sys → auto_sys → Prop :=
| as_fire f s : timer s = Some f → own_step s (AutoSys (form s) (org s) (srv s) None (saves s ++ [(f, Patching)]))
| as_patched s pre f post o : saves s = pre ++ (f, Patching) :: post → store_call f Patching (srv s) = Some o →
    own_step s (AutoSys (form s) (org s) o (timer s) (pre ++ (f, Putting) :: post))
| as_put s pre f post o : saves s = pre ++ (f, Putting) :: post → store_call f Putting (srv s) = Some o →
    own_step s (AutoSys (form s) (org s) o (timer s) (pre ++ post))
| as_failed s pre x post : saves s = pre ++ x :: post → own_step s (AutoSys (form s) (org s) (srv s) (timer s) (pre ++ post))
| as_lost s pre f stage post o : saves s = pre ++ (f, stage) :: post → store_call f stage (srv s) = Some o →
    own_step s (AutoSys (form s) (org s) o (timer s) (pre ++ post)).
Inductive auto_step : auto_sys → auto_sys → Prop :=
| as_edit f s : f ≠ form s → auto_step s (AutoSys f (org s) (srv s) (arm f (org s)) (saves s))
| as_click s : dirty (form s) (org s) = true →
    auto_step s (AutoSys (form s) (org s) (srv s) (timer s) (saves s ++ [(form s, Patching)]))
| as_remount s : auto_step s (AutoSys (form_of (org s)) (org s) (srv s) None (saves s))
| as_own s s' : own_step s s' → auto_step s s'.

(** Runs in which every save is over before the next one begins, as when the
    two calls take less than two seconds, and in which no call fails and the
    tab is not left. *)
Inductive calm_step : auto_sys → auto_sys → Prop :=
| calm_edit f s : f ≠ form s → calm_step s (AutoSys f (org s) (srv s) (arm f (org s)) (saves s))
| calm_click s : dirty (form s) (org s) = true → saves s = [] →
    calm_step s (AutoSys (form s) (org s) (srv s) (timer s) [(form s, Patching)])
| calm_fire f s : timer s = Some f → saves s = [] → calm_step s (AutoSys (form s) (org s) (srv s) None [(f, Patching)])
| calm_patched s f o : saves s = [(f, Patching)] → store_call f Patching (srv s) = Some o →
    calm_step s (AutoSys (form s) (org s) o (timer s) [(f, Putting)])
| calm_put s f o : saves s = [(f, Putting)] → store_call f Putting (srv s) = Some o →
    calm_step s (AutoSys (form s) (org s) o (timer s) []).
End autosave.

(** ** The system tab *)

(** [n.toFixed(digits)] of a number that is not negative. *)
Definition toFixed (digits : nat) (f : frac) : jstr :=
  let p := (10 ^ Z.of_nat digits)%Z in
  let k := ((2 * p * fnum f + Z.pos (fden f)) / (2 * Z.pos (fden f)))%Z in
  show (k / p) ++ "." ++ pad digits (k mod p).
Definition formatBytes (bytes : Z) : jstr :=
  if (bytes <? 1024)%Z then show bytes ++ " B"
  else if (bytes <? 1024 * 1024)%Z then toFixed 1 {| fnum := bytes; fden := 1024 |} ++ " KB"
  else if (bytes <? 1024 * 1024 * 1024)%Z then toFixed 1 {| fnum := bytes; fden := 1024 * 1024 |} ++ " MB"
  else toFixed 2 {| fnum := bytes; fden := 1024 * 1024 * 1024 |} ++ " GB".

(** A figure of the overview with its link; [localeNumber] is [toLocaleString]. *)
Definition overview_stats (localeNumber : Z → jstr) (d : SystemStats) : list (jstr * jstr * option jstr) := [
  (js "Users", localeNumber (SystemStats_total_users d), None);
  (js "Teams", localeNumber (SystemStats_total_teams d), Some (js "/teams"));
  (js "Domains", localeNumber (SystemStats_total_domains d), Some (js "/domains"));
  (js "Active Inboxes", localeNumber (SystemStats_active_inboxes d), Some (js "/"));
  (js "Total Created", localeNumber (SystemStats_total_inboxes_created d), None);
  (js "Total Emails", localeNumber (SystemStats_total_emails d), Some (js "/analytics"));
  (js "Storage", formatBytes (SystemStats_storage_used_bytes d), None);
  (js "Active Sessions", localeNumber (SystemStats_total_sessions d), Some (js "/profile/sessions"));
  (js "Webhooks", localeNumber (SystemStats_total_webhooks d), None);
  (js "API Keys", localeNumber (SystemStats_total_api_keys d), None)].
Inductive overview_view := OError | OSkeleton | ONothing | OStats (l : list (jstr * jstr * option jstr)).
Definition OverviewTab (localeNumber : Z → jstr) (isError isLoading : bool) (data : option SystemStats) : overview_view :=
  if isError then OError
  else if isLoading then OSkeleton
  else match data with Some d => OStats (overview_stats localeNumber d) | None => ONothing end.
Definition AboutSection (version : option jstr) : jstr := default [8212%N] version.

(** *** Platform settings

    The form is the object that is sent; every control writes one field. *)

Definition TIMEZONES : list jstr := js <$>
  ["UTC"; "America/New_York"; "America/Chicago"; "America/Denver"; "America/Los_Angeles"; "Europe/London"; "Europe/Berlin";
   "Europe/Paris"; "Asia/Amman"; "Asia/Dubai"; "Asia/Tokyo"; "Asia/Shanghai"; "Australia/Sydney"]%string.
Inductive control :=
| Toggle
| NumberBox (fallback : Z)                 (* [Number(v) || fallback] *)
| SessionsBox                              (* [Math.max(1, Math.min(100, Number(v) || 1))] *)
| TextBox
| Choice (options : list jstr).
Definition platform_controls : list (jstr * control) := [
  (js "allow_registration", Toggle); (js "email_verification", Toggle);
  (js "password_min_length", NumberBox 8); (js "password_require_upper", Toggle); (js "password_require_lower", Toggle);
  (js "password_require_number", Toggle); (js "password_require_special", Toggle);
  (js "lockout_max_attempts", NumberBox 5); (js "lockout_duration_mins", NumberBox 15);
  (js "timezone", Choice TIMEZONES);
  (js "date_format", Choice (js <$> ["YYYY-MM-DD"; "DD/MM/YYYY"; "MM/DD/YYYY"]%string));
  (js "time_format", Choice (js <$> ["24h"; "12h"]%string));
  (js "default_inbox_ttl", TextBox); (js "max_inbox_ttl", TextBox);
  (js "max_attachment_size_mb", NumberBox 0); (js "max_domains", NumberBox 0); (js "max_teams", NumberBox 0);
  (js "max_inboxes_per_domain", NumberBox 0); (js "max_sessions_per_user", SessionsBox); (js "demo_enabled", Toggle)].
Definition platform_default : list (jstr * json) := [
  (js "allow_registration", JBool true); (js "email_verification", JBool true);
  (js "password_min_length", JNum 8); (js "password_require_upper", JBool true); (js "password_require_lower", JBool true);
  (js "password_require_number", JBool true); (js "password_require_special", JBool true);
  (js "lockout_max_attempts", JNum 5); (js "lockout_duration_mins", JNum 15);
  (js "timezone", JStr "UTC"); (js "date_format", JStr "YYYY-MM-DD"); (js "time_format", JStr "24h");
  (js "default_inbox_ttl", JStr []); (js "max_inbox_ttl", JStr []);
  (js "max_attachment_size_mb", JNum 0); (js "max_domains", JNum 0); (js "max_teams", JNum 0);
  (js "max_inboxes_per_domain", JNum 0); (js "max_sessions_per_user", JNum 5); (js "demo_enabled", JBool false)].

(** The numbers of JavaScript that an input can give. *)
Inductive number := Int (n : Z) | Dec (d : decimal).
Definition jnumber (x : number) : json := match x with Int n => JNum n | Dec d => JDec d end.
(** Comparison with a small integer. *)
Definition decimal_lt (d : decimal) (n : Z) : bool :=
  match d with
  | Fraction neg ip _ => if neg then (- Z.of_N ip <=? n)%Z else (Z.of_N ip <? n)%Z
  | Scientific neg _ _ ex => if (ex <? 0)%Z then (if neg then (0 <=? n)%Z else (1 <=? n)%Z) else neg
  end.
Definition number_lt (x : number) (n : Z) : bool := match x with Int m => (m <? n)%Z | Dec d => decimal_lt d n end.
(** What the user enters; [INum] is the value of [Number(e.target.value)], and
    [None] its [NaN]. *)
Inductive input := IBool (b : bool) | INum (n : option number) | IText (s : jstr).
(** [n || d]. *)
Definition num_or (n : option number) (d : Z) : number :=
  match n with Some (Int v) => Int (if (v =? 0)%Z then d else v) | Some (Dec x) => Dec x | None => Int d end.
(** [Math.min(n, x)] and [Math.max(n, x)]. *)
Definition math_min (n : Z) (x : number) : number := if number_lt x n then x else Int n.
Definition math_max (n : Z) (x : number) : number := if number_lt x n then Int n else x.
Definition control_value (c : control) (i : input) : option json :=
  match c, i with
  | Toggle, IBool b => Some (JBool b)
  | NumberBox d, INum n => Some (jnumber (num_or n d))
  | SessionsBox, INum n => Some (jnumber (math_max 1 (math_min 100 (num_or n 1))))
  | TextBox, IText s | Choice _, IText s => Some (JStr s)
  | _, _ => None
  end.
(** The values that can be picked: a select calls back with one of its items. *)
Definition offered (key : jstr) (i : input) : bool :=
  match map_get platform_controls key, i with Some (Choice options), IText s => set_has options s | _, _ => true end.
Definition platform_input (key : jstr) (i : input) (f : list (jstr * json)) : list (jstr * json) :=
  match map_get platform_controls key with
  | Some c => match control_value c i with Some v => map_set f key v | None => f end
  | None => f
  end.
Record PlatformCard := { p_form : list (jstr * json); p_saving : bool }.
Definition p_set_saving (b : bool) (s : PlatformCard) : PlatformCard := {| p_form := p_form s; p_saving := b |}.
(** The effect that runs when the data changes. *)
Definition platform_sync (data : list (jstr * json)) (s : PlatformCard) : PlatformCard := {| p_form := data; p_saving := p_saving s |}.
Definition platform_save `{!AppEnv} (closure : PlatformCard) : M PlatformCard unit :=
  modify (p_set_saving true);;
  try_finally
    (try_catch
      (_ ← api_put "/admin/platform" (Some (JObj (p_form closure)));
       emit (EInvalidate "admin-platform");;
       emit (EToastSuccess "Platform settings saved"))
      (λ err, emit (EToastError (err_message err))))
    (modify (p_set_saving false)).
Inductive demo_note := DemoOff | DemoUnconfigured | DemoActive | DemoUnknown.
Definition demo_view (data : option (list (jstr * json))) (f : list (jstr * json)) : demo_note :=
  if negb (as_bool (map_get f (js "demo_enabled")) false) then DemoOff
  else match data with
       | Some d => if as_bool (map_get d (js "demo_configured")) false then DemoActive else DemoUnconfigured
       | None => DemoUnknown
       end.

(** *** Service health *)

Record service := { sv_name : jstr; sv_status : option json; sv_latency : option json }.
(** The format with [services], or else the flat one, with a status per name. *)
Definition health_services (data : option json) : list service * jstr :=
  match data with
  | Some d =>
      match jfield d "services" with
      | Some ((JObj _ | JArr _) as services) =>
          ((λ '(k, v), {| sv_name := k; sv_status := jfield v "status"; sv_latency := jfield v "latency" |}) <$> object_entries services,
           default [] (as_string (jfield d "uptime")))
      | _ => ((λ '(k, v), {| sv_name := k; sv_status := Some (JStr (json_to_string v)); sv_latency := Some (JStr [8212%N]) |})
                <$> List.filter (λ '(k, _), negb (k =?s "services") && negb (k =?s "uptime")) (object_entries d), [])
      end
  | None => ([], [])
  end.
Definition service_ok (s : service) : bool := bool_decide (sv_status s = Some (JStr "ok")).
Definition allHealthy (l : list service) : bool := forallb service_ok l.
Record health_view := { hv_title : jstr; hv_badge : jstr; hv_success : bool; hv_uptime : jstr }.
Definition health_banner (data : option json) : option health_view :=
  let '(l, uptime) := health_services data in
  match l with
  | [] => None
  | _ => Some {| hv_title := if allHealthy l then "All systems operational" else "Service degradation detected";
                 hv_badge := show_nat (countb service_ok l) ++ "/" ++ show_nat (length l) ++ " healthy";
                 hv_success := allHealthy l; hv_uptime := uptime |}
  end.
Definition SERVICE_ICONS : list (jstr * jstr) :=
  [(js "postgres", js "Database"); (js "redis", js "Database"); (js "storage", js "HardDrive"); (js "minio", js "HardDrive")].
Definition service_row (s : service) : jstr * jstr * jstr :=
  (default (js "Database") (map_get SERVICE_ICONS (sv_name s)), sv_name s,
   if service_ok s then js "Connected" else from_option json_to_string [] (sv_status s)).

(** *** Mail and storage *)

Record test_result := { tr_success : bool; tr_message : jstr; tr_time : option jstr }.
Definition result_of (v : option json) : test_result :=
  let get k := from_option (λ j, jfield j k) None v in
  {| tr_success := json_truthy (get "success"); tr_message := default [] (as_string (get "message"));
     tr_time := as_string (get "response_time") |}.

Record MailForm := { m_host : jstr; m_port : jstr; m_username : jstr; m_password : jstr; m_from : jstr; m_tls : bool }.
Record MailerSection := { m_form : option MailForm; m_saving : bool; m_testing : bool; m_result : option test_result }.
Record MailerConfig := { mc_host : jstr; mc_port : Z; mc_username : jstr; mc_from : jstr; mc_tls : bool; mc_has_password : bool }.
Definition mailer_sync (d : MailerConfig) (s : MailerSection) : MailerSection := {|
  m_form := Some {| m_host := mc_host d; m_port := if (mc_port d =? 0)%Z then [] else show (mc_port d);
                    m_username := mc_username d; m_password := []; m_from := mc_from d; m_tls := mc_tls d |};
  m_saving := m_saving s; m_testing := m_testing s; m_result := m_result s |}.
Definition with_m_form (f : option MailForm) (s : MailerSection) : MailerSection :=
  {| m_form := f; m_saving := m_saving s; m_testing := m_testing s; m_result := m_result s |}.
Definition with_m_saving (b : bool) (s : MailerSection) : MailerSection :=
  {| m_form := m_form s; m_saving := b; m_testing := m_testing s; m_result := m_result s |}.
Definition with_m_test (b : bool) (r : option test_result) (s : MailerSection) : MailerSection :=
  {| m_form := m_form s; m_saving := m_saving s; m_testing := b; m_result := r |}.
(** [e.target.value.replace(/[^0-9]/g, "")]. *)
Definition port_digits (v : jstr) : jstr := List.filter is_digit v.
Definition mailer_body (f : MailForm) : json :=
  JObj [(js "host", JStr (trim (m_host f))); (js "port", JNum (Z.of_N (digits_value (m_port f))));
        (js "username", JStr (trim (m_username f))); (js "password", JStr (m_password f));
        (js "from", JStr (trim (m_from f))); (js "tls", JBool (m_tls f))].
Definition no_password (f : MailForm) : MailForm := {|
  m_host := m_host f; m_port := m_port f; m_username := m_username f; m_password := []; m_from := m_from f; m_tls := m_tls f |}.
Section infra.
Context `{!AppEnv}.
Definition mailer_save (closure : MailerSection) : M MailerSection unit :=
  match m_form closure with
  | None => mret tt
  | Some f =>
      modify (with_m_saving true);;
      try_finally
        (try_catch
          (_ ← api_put "/admin/config/mailer" (Some (mailer_body f));
           emit (EToastSuccess "SMTP settings saved");;
           modify (with_m_form (Some (no_password f)));;
           emit (EInvalidate "mailer-config"))
          (λ err, emit (EToastError (err_message err))))
        (modify (with_m_saving false))
  end.
(** Both sections test the saved configuration the same way. *)
Definition run_test {S} (path : jstr) (set_test : bool → option test_result → S → S) (set_done : S → S) : M S unit :=
  modify (set_test true None);;
  try_finally
    (try_catch
      (res ← api_post path (Some (JObj []));
       modify (set_test true (Some (result_of res))))
      (λ err, modify (set_test true (Some {| tr_success := false; tr_message := err_message err; tr_time := None |}))))
    (modify set_done).
Definition mailer_test : M MailerSection unit :=
  run_test "/admin/infra/test-smtp" with_m_test (λ s, with_m_test false (m_result s) s).

Record StorageForm := { s_endpoint : jstr; s_accessKey : jstr; s_secretKey : jstr; s_useSSL : bool }.
Record StorageConfig := { sc_endpoint : jstr; sc_access_key : jstr; sc_bucket : jstr; sc_use_ssl : bool; sc_has_secret_key : bool }.
Record StorageSection := { s_form : option StorageForm; s_saving : bool; s_testing : bool; s_result : option test_result }.
Definition storage_sync (d : StorageConfig) (s : StorageSection) : StorageSection := {|
  s_form := Some {| s_endpoint := sc_endpoint d; s_accessKey := sc_access_key d; s_secretKey := []; s_useSSL := sc_use_ssl d |};
  s_saving := s_saving s; s_testing := s_testing s; s_result := s_result s |}.
Definition with_s_form (f : option StorageForm) (s : StorageSection) : StorageSection :=
  {| s_form := f; s_saving := s_saving s; s_testing := s_testing s; s_result := s_result s |}.
Definition with_s_saving (b : bool) (s : StorageSection) : StorageSection :=
  {| s_form := s_form s; s_saving := b; s_testing := s_testing s; s_result := s_result s |}.
Definition with_s_test (b : bool) (r : option test_result) (s : StorageSection) : StorageSection :=
  {| s_form := s_form s; s_saving := s_saving s; s_testing := b; s_result := r |}.
Definition storage_body (f : StorageForm) : json :=
  JObj [(js "endpoint", JStr (trim (s_endpoint f))); (js "access_key", JStr (trim (s_accessKey f)));
        (js "secret_key", JStr (s_secretKey f)); (js "use_ssl", JBool (s_useSSL f))].
Definition no_secret (f : StorageForm) : StorageForm :=
  {| s_endpoint := s_endpoint f; s_accessKey := s_accessKey f; s_secretKey := []; s_useSSL := s_useSSL f |}.
Definition storage_save (closure : StorageSection) : M StorageSection unit :=
  match s_form closure with
  | None => mret tt
  | Some f =>
      modify (with_s_saving true);;
      try_finally
        (try_catch
          (_ ← api_put "/admin/config/storage" (Some (storage_body f));
           emit (EToastSuccess "Storage settings saved");;
           modify (with_s_form (Some (no_secret f)));;
           emit (EInvalidate "storage-config");;
           emit (EInvalidate "admin-health"))
          (λ err, emit (EToastError (err_message err))))
        (modify (with_s_saving false))
  end.
Definition storage_test : M StorageSection unit :=
  run_test "/admin/infra/test-storage" with_s_test (λ s, with_s_test false (s_result s) s).
Definition storage_save_disabled (s : StorageSection) : bool :=
  s_saving s || match s_form s with Some f => negb (truthy (s_endpoint f)) || negb (truthy (s_accessKey f)) | None => true end.
Definition storage_test_disabled (s : StorageSection) : bool :=
  s_testing s || s_saving s || match s_form s with Some f => negb (truthy (s_endpoint f)) | None => true end.
Definition mailer_test_disabled (s : MailerSection) : bool := m_testing s || m_saving s.
End infra.

(** ** The automatic save *)

Lemma dirty_spec f o : dirty f o = false ↔ f = form_of o.
Proof.
  unfold dirty. rw !orb_false_iff !negb_false_iff !jeqb_eq. destruct f as [n l st]; unfold form_of; cbn [f_name f_logo f_settings]. split.
  - intros [[-> ->] E]. apply stringify_inj in E. by injection E as ->.
  - by intros [= -> -> ->].
Qed.
Lemma arm_none f o : arm f o = None ↔ f = form_of o.
Proof. unfold arm. rw -dirty_spec. by destruct (dirty f o). Qed.
Lemma arm_some f o g : arm f o = Some g → g = f ∧ f ≠ form_of o.
Proof. unfold arm. rw -dirty_spec. destruct (dirty f o); [|done]. intros [= <-]. done. Qed.
(** What the form shows is stored: the name, the logo unless it is empty, and
    the settings that the server takes over. *)
Definition identity_stored (f : OrgForm) (o : OrgView) : Prop :=
  o_name o = f_name f ∧ (f_logo f ≠ [] → o_logo o = Some (f_logo f)).
Definition stored (f : OrgForm) (o : OrgView) : Prop :=
  identity_stored f o ∧
  ∀ k v, k ∈ [js "attachments_enabled"; js "default_inbox_ttl"; js "max_inbox_ttl"; js "max_attachment_size_mb"; js "max_domains"; js "max_teams";
              js "max_inboxes_per_domain"; js "enforce_sso"] →
    map_get (f_settings f) k = Some v → v ≠ JNull → map_get (o_settings o) k = Some v.

Lemma map_get_omap {A B} (g : jstr → A → option B) (l : list (jstr * A)) k : NoDup l.*1 →
  map_get (omap (λ '(k, a), pair k <$> g k a) l) k = a ← map_get l k; g k a.
Proof.
  induction l as [|[k' a] l IH]; [done|]. cbn. intros [Hk Hl]%NoDup_cons.
  assert (Hn : k = k' → map_get l k = None).
  { intros ->. destruct (map_get l k') eqn:E; [|done]. apply map_get_elem in E; [|done]. destruct Hk. apply list_elem_of_fmap. by exists (k', a0). }
  destruct (g k' a) as [b|] eqn:E; cbn; case_decide as Ek; subst; cbn; [done|by apply IH| |by apply IH].
  by rw IH // Hn.
Qed.
Lemma merge_get sent old k : map_get (merge_settings sent old) k = x ← map_get setting_fields k; merged sent old k x.2.
Proof.
  unfold merge_settings. rewrite -(map_get_omap (λ k (x : setting_type * bool), merged sent old k x.2) setting_fields k).
  - f_equal.
  - apply (bool_decide_eq_true_1 (NoDup setting_fields.*1)). vm_compute. reflexivity.
Qed.

Section autosave_theorems.
Context `{!GoURLParse}.

Lemma UpdateOrg_stored f o o' : UpdateOrg f o = Some o' → identity_stored f o'.
Proof.
  unfold UpdateOrg. destruct (truthy (f_logo f)) eqn:E; [case_match; [done|]|]; intros [= <-]; split; cbn; try done.
  intros Hn. by apply truthy_nonempty in Hn; rw Hn in E.
Qed.
Lemma UpdateSettings_stored f o o' : identity_stored f o → UpdateSettings (f_settings f) o = Some o' → stored f o'.
Proof.
  intros Hi. unfold UpdateSettings. case_match; [|done]. intros [= <-]. split; [exact Hi|]. cbn [o_settings]. intros k v Hk Hv Hn.
  rw merge_get. assert (Hg : given (f_settings f) k = Some v) by (unfold given; rw Hv; by destruct v).
  assert (Hf : ∃ t, map_get setting_fields k = Some (t, true)).
  { rw !elem_of_cons elem_of_nil in Hk. repeat destruct Hk as [->|Hk]; [by eexists..|done]. }
  destruct Hf as [t ->]. cbn. by rw Hg.
Qed.

(** What holds of calm runs. *)
Record calm_inv (s : auto_sys) : Prop := {
  ci_timer g : timer s = Some g → g = form s;
  ci_saves : match saves s with
    | [] => timer s = None → dirty (form s) (org s) = true → stored (form s) (srv s)
    | [(f, stage)] => (timer s = None → dirty (form s) (org s) = true → f = form s) ∧ (stage = Putting → identity_stored f (srv s))
    | _ => False
    end
}.
Lemma calm_inv_step s s' : calm_step s s' → calm_inv s → calm_inv s'.
Proof.
  destruct 1 as [f s Hf|s Hd E|f s Ht E|s f o E Ho|s f o E Ho]; intros [Hg Hs]; split; cbn; rw ?E in Hs; try done.
  - intros g Ea. by apply arm_some in Ea as [-> _].
  - assert (Hd : arm f (org s) = None → dirty f (org s) = true → False) by (intros E1%arm_none E2; apply not_false_iff_true in E2; by apply E2, dirty_spec).
    destruct (saves s) as [|[g stage] [|]]; [intros; by destruct Hd| |done]. split; [intros; by destruct Hd|apply Hs].
  - split; [|done]. intros _ _. by apply Hg.
  - split; [apply Hs|]. intros _. by eapply UpdateOrg_stored.
  - intros Ht Hd. destruct Hs as [Hs Hi]. rw -(Hs Ht Hd). by eapply UpdateSettings_stored; [apply Hi|].
Qed.
(** The steps that are still to come by themselves. *)
Definition stage_work (x : OrgForm * save_stage) : nat := match x.2 with Patching => 2 | Putting => 1 end.
Definition work (s : auto_sys) : nat := (if timer s then 3 else 0) + sum_list (stage_work <$> saves s).
Lemma own_step_work s s' : own_step s s' → work s' < work s.
Proof.
  destruct 1 as [f s E|s pre f post o E _|s pre f post o E _|s pre [f stage] post E|s pre f stage post o E _]; unfold work; cbn [timer saves];
    rw E ?fmap_app ?sum_list_with_app; try (rw !sum_list_app); cbn; try (destruct stage; cbn); lia.
Qed.
Lemma own_step_enabled s : timer s ≠ None ∨ saves s ≠ [] → ∃ s', own_step s s'.
Proof.
  intros Hp. destruct (timer s) as [f|] eqn:Et; [eexists; by apply (as_fire f)|]. destruct (saves s) as [|x l] eqn:Es; [by destruct Hp|].
  eexists. by apply (as_failed s [] x l).
Qed.

(** C22: while every save is over before the next one begins, no call fails and the
    tab is not left, the automatic save stores what is shown: whenever nothing
    is pending and the form differs from the organisation as it was loaded,
    the server has its name, its logo unless that was emptied, and every
    setting it takes over; the two settings on renewal are not among them, and
    a form that is set back to what was loaded is not sent.  Whatever happens,
    what is pending is over after finitely many steps, and as long as
    something is pending one can be made. *)
Theorem autosave_persists (o : OrgView) (s : auto_sys) :
  rtc calm_step (auto_init o) s →
  (saves s = [] → timer s = None → form s ≠ form_of o → stored (form s) (srv s)) ∧
  (timer s ≠ None ∨ saves s ≠ [] → ∃ s', own_step s s') ∧
  (∀ n s', nsteps own_step n s s' → n ≤ 3 + 2 * length (saves s)).
Proof.
  intros Hr. split_and!; [|apply own_step_enabled|].
  - apply (rtc_ind_r (R := calm_step) (λ s, org s = o ∧ calm_inv s) (auto_init o)) in Hr.
    + destruct Hr as [Ho [_ Hs]]. intros E Ht Hd. rw E in Hs. apply Hs; [done|]. apply not_false_iff_true. by rw dirty_spec Ho.
    + split; [done|]. split; [done|]. cbn. intros _. by rw (proj2 (dirty_spec (form_of o) o) eq_refl).
    + intros y z _ Hyz [Ho Hi]. split; [by destruct Hyz|by eapply calm_inv_step].
  - intros n s' Hn. assert (Hb : ∀ t t', nsteps own_step n t t' → n + work t' ≤ work t).
    { clear. induction n as [|n IH]; intros t t' Hn; inversion Hn; subst; [cbn; lia|].
      match goal with H1 : own_step _ _, H2 : nsteps _ _ _ _ |- _ => apply own_step_work in H1; apply IH in H2; lia end. }
    specialize (Hb _ _ Hn). assert (Hw : sum_list (stage_work <$> saves s) ≤ 2 * length (saves s)).
    { clear. induction (saves s) as [|[f []] l IH]; cbn in *; lia. }
    unfold work in Hb. destruct (timer s); lia.
Qed.

(** ** What the automatic save does not do *)

(** A logo that was set once cannot be removed on this page: whatever is
    edited and saved, the server keeps one. *)
Lemma store_call_logo f stage o o' : store_call f stage o = Some o' → otruthy (o_logo o) = true → otruthy (o_logo o') = true.
Proof.
  destruct stage; cbn.
  - unfold UpdateOrg. destruct (truthy (f_logo f)) eqn:E; [case_match; [done|]|]; by intros [= <-].
  - unfold UpdateSettings. case_match; [|done]. by intros [= <-].
Qed.
Lemma server_invariant (P : OrgView → Prop) (o : OrgView) (s : auto_sys) :
  (∀ f stage x y, store_call f stage x = Some y → P x → P y) → P o → rtc auto_step (auto_init o) s → P (srv s).
Proof.
  intros Hp Ho Hs. apply (rtc_ind_r (R := auto_step) (λ s, P (srv s)) (auto_init o)); [done| |exact Hs].
  intros y z _ Hyz IH. destruct Hyz as [| | |? ? Hyz]; try done. destruct Hyz; cbn; try done; by eapply Hp.
Qed.
Theorem logo_stays (o : OrgView) (s : auto_sys) :
  otruthy (o_logo o) = true → rtc auto_step (auto_init o) s → otruthy (o_logo (srv s)) = true.
Proof. apply (server_invariant (λ o, otruthy (o_logo o) = true)). apply store_call_logo. Qed.

(** The settings on renewal are sent and never stored. *)
Theorem renewal_not_stored (o : OrgView) (s : auto_sys) (k : jstr) :
  k ∈ [js "renewal_policy"; js "renewal_ttl"] → rtc auto_step (auto_init o) s → map_get (o_settings (srv s)) k = map_get (o_settings o) k.
Proof.
  intros Hk. apply (server_invariant (λ x, map_get (o_settings x) k = map_get (o_settings o) k)); [|done].
  intros f [] x y; cbn.
  - unfold UpdateOrg. repeat case_match; by intros [= <-].
  - unfold UpdateSettings. case_match; [|done]. intros [= <-] <-. cbn [o_settings]. rw merge_get.
    rw !elem_of_cons elem_of_nil in Hk. by destruct Hk as [->|[->|[]]].
Qed.

(** One edit and its save, when nothing else is going on. *)
Lemma one_save f s o1 o2 :
  saves s = [] → f ≠ form s → dirty f (org s) = true → UpdateOrg f (srv s) = Some o1 → UpdateSettings (f_settings f) o1 = Some o2 →
  rtc auto_step s (AutoSys f (org s) o2 None []).
Proof.
  intros Es Hf Hd H1 H2. eapply rtc_l; [by apply (as_edit f)|]. unfold arm. rw Hd Es.
  eapply rtc_l; [by apply as_own, (as_fire f)|]. cbn. eapply rtc_l; [by apply as_own, (as_patched _ [] f [] o1)|]. cbn.
  eapply rtc_l; [by apply as_own, (as_put _ [] f [] o2)|]. apply rtc_refl.
Qed.
Lemma saved_name f o o1 o2 : UpdateOrg f o = Some o1 → UpdateSettings (f_settings f) o1 = Some o2 → o_name o2 = f_name f.
Proof. intros H1%UpdateOrg_stored H2. destruct H1 as [<- _]. unfold UpdateSettings in H2. case_match; by simplify_eq. Qed.

(** An edit that is undone after it was saved: the form is what was loaded, the
    bar is gone, nothing is pending, and the server keeps the edit. *)
Theorem undo_not_sent (o o1 o2 : OrgView) (f : OrgForm) :
  f ≠ form_of o → UpdateOrg f o = Some o1 → UpdateSettings (f_settings f) o1 = Some o2 →
  ∃ s, rtc auto_step (auto_init o) s ∧ saves s = [] ∧ timer s = None ∧ form s = form_of o ∧ dirty (form s) (org s) = false ∧
    o_name (srv s) = f_name f.
Proof.
  intros Hf H1 H2. assert (Hd : dirty f o = true) by (apply not_false_iff_true; by rw dirty_spec).
  exists (AutoSys (form_of o) o o2 None []). split.
  - etrans; [by apply (one_save f (auto_init o) o1 o2)|]. cbn. eapply rtc_once.
    rewrite -{2}(proj2 (arm_none (form_of o) o) eq_refl). by apply (as_edit (form_of o)).
  - split_and!; [done..|by apply dirty_spec|by eapply saved_name].
Qed.

(** The tab is left and opened again after a save: it shows the organisation as
    it was before, and the next edit of something else stores the old name. *)
Theorem remount_restores_name (o o1 o2 o3 o4 : OrgView) (f g : OrgForm) :
  f ≠ form_of o → UpdateOrg f o = Some o1 → UpdateSettings (f_settings f) o1 = Some o2 →
  g ≠ form_of o → f_name g = o_name o → UpdateOrg g o2 = Some o3 → UpdateSettings (f_settings g) o3 = Some o4 →
  ∃ s, rtc auto_step (auto_init o) s ∧ saves s = [] ∧ timer s = None ∧ form s = g ∧ o_name (srv s) = o_name o.
Proof.
  intros Hf H1 H2 Hg Hn H3 H4. assert (Hd : ∀ x, x ≠ form_of o → dirty x o = true) by (intros x Hx; apply not_false_iff_true; by rw dirty_spec).
  exists (AutoSys g o o4 None []). split_and!; [|done..|rw -Hn; by eapply saved_name].
  etrans; [by apply (one_save f (auto_init o) o1 o2); [..|apply Hd| |]|]. eapply rtc_l; [apply as_remount|]. cbn.
  by apply (one_save g (AutoSys (form_of o) o o2 None []) o3 o4); [..|apply Hd| |].
Qed.

(** Two saves that overlap, as when the calls take longer than two seconds:
    the server may store the older form last, and nothing is pending then. *)
Theorem overlapping_saves_disagree (o o1 o2 o3 o4 : OrgView) (f g : OrgForm) :
  f ≠ form_of o → g ≠ form_of o → g ≠ f →
  UpdateOrg g o = Some o1 → UpdateOrg f o1 = Some o2 → UpdateSettings (f_settings g) o2 = Some o3 → UpdateSettings (f_settings f) o3 = Some o4 →
  ∃ s, rtc auto_step (auto_init o) s ∧ saves s = [] ∧ timer s = None ∧ form s = g ∧ o_name (srv s) = f_name f.
Proof.
  intros Hf Hg Hne H1 H2 H3 H4. assert (Hd : ∀ x, x ≠ form_of o → dirty x o = true) by (intros x Hx; apply not_false_iff_true; by rw dirty_spec).
  exists (AutoSys g o o4 None []). split_and!; [|done..|].
  - eapply rtc_l; [by apply (as_edit f)|]. unfold arm. cbn. rw (Hd f Hf). eapply rtc_l; [by apply as_own, (as_fire f)|]. cbn.
    eapply rtc_l; [by apply (as_edit g)|]. unfold arm. cbn. rw (Hd g Hg). eapply rtc_l; [by apply as_own, (as_fire g)|]. cbn.
    eapply rtc_l; [by apply as_own, (as_patched _ [(f, Patching)] g [] o1)|]. cbn.
    eapply rtc_l; [by apply as_own, (as_patched _ [] f [(g, Putting)] o2)|]. cbn.
    eapply rtc_l; [by apply as_own, (as_put _ [(f, Putting)] g [] o3)|]. cbn.
    eapply rtc_l; [by apply as_own, (as_put _ [] f [] o4)|]. apply rtc_refl.
  - apply UpdateOrg_stored in H2 as [<- _]. unfold UpdateSettings in H3, H4. repeat case_match; by simplify_eq.
Qed.
End autosave_theorems.

(** ** The platform form is well typed *)

Inductive field_type := TBool | TNum | TStr.
Definition control_type (c : control) : field_type :=
  match c with Toggle => TBool | NumberBox _ | SessionsBox => TNum | TextBox | Choice _ => TStr end.
Definition has_type (t : field_type) (v : json) : Prop :=
  match t, v with TBool, JBool _ => True | TNum, (JNum _ | JDec _) => True | TStr, JStr _ => True | _, _ => False end.
(** The fields that [platformSettings] of the server declares, with its types. *)
Definition well_typed (f : list (jstr * json)) : Prop :=
  Forall (λ '(k, c), ∃ v, map_get f k = Some v ∧ has_type (control_type c) v) platform_controls.
Lemma control_value_type c i v : control_value c i = Some v → has_type (control_type c) v.
Proof.
  assert (Hn : ∀ x, has_type TNum (jnumber x)) by (by intros []).
  destruct c, i; cbn; try done; intros [= <-]; by try apply Hn.
Qed.
Lemma platform_input_typed key i f : well_typed f → well_typed (platform_input key i f).
Proof.
  unfold platform_input. intros Hf. destruct (map_get platform_controls key) as [c|] eqn:Ec; [|done].
  destruct (control_value c i) as [v|] eqn:Ev; [|done]. apply control_value_type in Ev.
  unfold well_typed. apply Forall_forall. intros [k c'] Hk.
  destruct (decide (key = k)) as [<-|Hne].
  - exists v. rw map_get_set_eq. split; [done|]. enough (c' = c) as -> by done.
    apply map_get_elem in Hk; [congruence|]. apply (bool_decide_eq_true_1 (NoDup platform_controls.*1)). vm_compute. reflexivity.
  - rw map_get_set_ne //. unfold well_typed in Hf. rewrite -> Forall_forall in Hf. exact (Hf (k, c') Hk).
Qed.
Inductive platform_step : list (jstr * json) → list (jstr * json) → Prop :=
| ps_input key i f : platform_step f (platform_input key i f)
| ps_sync data f : well_typed data → platform_step f data.
(** A number from [lo] to [hi]. *)
Definition between (lo hi : Z) (x : number) : Prop := number_lt x lo = false ∧ (x = Int hi ∨ number_lt x hi = true).
Lemma math_clamped lo hi x : (lo <= hi)%Z → between lo hi (math_max lo (math_min hi x)).
Proof.
  intros Hl. unfold between, math_max, math_min. destruct (number_lt x hi) eqn:Eh.
  - destruct (number_lt x lo) eqn:El; [|by auto]. cbn. split; [lia|]. destruct (Z.ltb_spec lo hi); [by right|left; f_equal; lia].
  - cbn. destruct (Z.ltb_spec hi lo); [lia|]. split; [cbn; lia|by left].
Qed.
Lemma num_or_nonzero n d : d ≠ 0%Z → jnumber (num_or n d) ≠ JNum 0.
Proof. intros Hd. destruct n as [[v|x]|]; cbn; [|done|congruence]. destruct (Z.eqb_spec v 0); congruence. Qed.
(** C23: whatever is entered in the platform settings, fractions and huge numbers
    included, and whatever settings with the declared kinds of values the
    server sends in between, the object that is saved has every field the
    server declares, as a boolean, a number or a text; a limit of sessions that
    is entered is a number from 1 to 100, not necessarily whole, and a number
    entered in a box whose fallback is not zero is not zero. *)
Theorem platform_form_typed (f : list (jstr * json)) :
  rtc platform_step platform_default f →
  well_typed f ∧
  (∀ n, ∃ x, map_get (platform_input "max_sessions_per_user" (INum n) f) (js "max_sessions_per_user") = Some (jnumber x) ∧ between 1 100 x) ∧
  (∀ key d n, map_get platform_controls key = Some (NumberBox d) → d ≠ 0%Z → map_get (platform_input key (INum n) f) key ≠ Some (JNum 0)).
Proof.
  intros Hf. split_and!.
  - apply (rtc_ind_r (R := platform_step) well_typed platform_default); [| |exact Hf].
    + unfold well_typed, platform_controls. repeat (constructor; [eexists; split; [reflexivity|exact I]|]). constructor.
    + intros y z _ Hyz IH. destruct Hyz; [by apply platform_input_typed|done].
  - intros n. exists (math_max 1 (math_min 100 (num_or n 1))). split; [|by apply math_clamped].
    change (platform_input "max_sessions_per_user" (INum n) f)
      with (map_set f (js "max_sessions_per_user") (jnumber (math_max 1 (math_min 100 (num_or n 1))))). apply map_get_set_eq.
  - intros key d n Hk Hd. unfold platform_input. rw Hk. cbn. rw map_get_set_eq. intros [= E]. by eapply num_or_nonzero.
Qed.

(** ** Other parts of the tab *)

(** The banner says that all is well exactly when the badge counts all. *)
Theorem health_banner_consistent (data : option json) (v : health_view) :
  health_banner data = Some v →
  let l := (health_services data).1 in
  hv_success v = true ↔ countb service_ok l = length l.
Proof.
  unfold health_banner. destruct (health_services data) as [l uptime]. destruct l as [|s l]; [done|].
  intros [= <-]. cbn [fst hv_success]. exact (forallb_countb service_ok (s :: l)).
Qed.

Section settings_theorems.
Context `{!AppEnv} (orgId : jstr).

(** The organisation is deleted only when its name was typed, and with the
    password of the account unless it signs in elsewhere: otherwise nothing is
    sent and the reason is shown. *)
Theorem handleDelete_guarded (orgName : jstr) (isSSO : bool) (s : DangerZone) (w : world DangerZone) :
  if (dz_confirm s =?s orgName) && (isSSO || truthy (dz_password s)) then
    ∃ l, sent_requests (snd (handleDelete orgId orgName isSSO s w)) = sent_requests w ++ l ∧
      Forall (λ r, is_refresh r ∨ rq_method r = js "DELETE" ∧ rq_body r = Some (delete_body isSSO s)) l ∧
      dz_deleting (st (snd (handleDelete orgId orgName isSSO s w))) = false
  else
    ∃ m, m ≠ [] ∧ handleDelete orgId orgName isSSO s w =
      (inr tt, World (brw w) (dz_set (dz_open (st w)) (dz_deleting (st w)) m (st w))).
Proof.
  unfold handleDelete. destruct (dz_confirm s =?s orgName); cbn [negb andb].
  2: { eexists. split; [|reflexivity]. done. }
  destruct isSSO, (truthy (dz_password s)); cbn [negb andb orb]; try (eexists; split; [|reflexivity]; done).
  all: set (P := λ r, is_refresh r ∨ rq_method r = js "DELETE" ∧ rq_body r = Some (delete_body _ s)).
  all: match goal with |- context [api_send ?m ?p ?b] =>
    assert (Hq : preserves (S := DangerZone) (only_sends P) (api_send m p b)) by (apply only_sends_request; [by right|by left]) end.
  all: match goal with |- context [sent_requests (snd (?m ?x)) = _] =>
    assert (Hp : preserves (only_sends P) m) by preserve; destruct (Hp x) as (l & E & Hl) end.
  all: exists l; split_and!; [exact E|exact Hl|].
  all: unfold try_finally, try_catch, modify, mbind, M_bind; destruct (api_send _ _ _ _) as [[e|v] w1]; reflexivity.
Qed.

(** Saving the mail settings puts back the form as it was when saving began:
    what was typed in the meantime is dropped. *)
Theorem mailer_save_drops_edits (closure : MailerSection) (f : MailForm) (w : world MailerSection) :
  m_form closure = Some f →
  let '(r, w') := mailer_save closure w in
  r = inr tt ∧ m_saving (st w') = false ∧
  match api_put "/admin/config/mailer" (Some (mailer_body f)) (World (brw w) (with_m_saving true (st w))) with
  | (inr _, _) => m_form (st w') = Some (no_password f)
  | (inl _, _) => m_form (st w') = m_form (st w)
  end.
Proof.
  intros Hf. unfold mailer_save. rw Hf. unfold try_finally, try_catch, modify, mbind, M_bind.
  match goal with |- context [api_put ?p ?b ?x] => pose proof (api_send_st (js "PUT") p b x) as Hst; unfold api_put;
    destruct (api_send (js "PUT") p b x) as [[e|v] w1] end; cbn in *.
  - by rw Hst.
  - done.
Qed.
End settings_theorems.

(** ** Instances *)

(** Every address is an https one without credentials. *)
Definition HttpsOnly : GoURLParse := {| url_Parse _ := Some {| u_scheme := "https"; u_host := "h"; u_user := false |} |}.
Definition an_org : OrgView := {| o_name := "Acme"; o_logo := Some (js "https://acme.test/l.png"); o_settings := [] |}.
Definition renamed_form : OrgForm := {| f_name := "Acme Ltd"; f_logo := "https://acme.test/l.png"; f_settings := [(js "enforce_sso", JBool true)] |}.
Definition other_form : OrgForm := {| f_name := "Acme"; f_logo := "https://acme.test/new.png"; f_settings := [] |}.
Definition renamed_org : OrgView :=
  {| o_name := "Acme Ltd"; o_logo := Some (js "https://acme.test/l.png"); o_settings := [(js "enforce_sso", JBool true)] |}.
Lemma autosave_persists_witness : stored renamed_form renamed_org.
Proof.
  destruct (autosave_persists (H := HttpsOnly) an_org (AutoSys renamed_form an_org renamed_org None [])) as [Hs _].
  - eapply rtc_l; [by apply (calm_edit renamed_form)|]. eapply rtc_l; [by apply (calm_fire renamed_form)|].
    eapply rtc_l; [apply (calm_patched _ renamed_form {| o_name := "Acme Ltd"; o_logo := Some (js "https://acme.test/l.png"); o_settings := [] |}); reflexivity|].
    eapply rtc_l; [apply (calm_put _ renamed_form renamed_org); reflexivity|]. apply rtc_refl.
  - apply Hs; done.
Defined.
Lemma logo_stays_witness : otruthy (o_logo (srv (AutoSys renamed_form an_org an_org (Some renamed_form) []))) = true.
Proof.
  apply (logo_stays (H := HttpsOnly) an_org); [reflexivity|]. apply rtc_once. by apply (as_edit renamed_form (auto_init an_org)).
Defined.
Lemma renewal_not_stored_witness :
  map_get (o_settings (srv (AutoSys renamed_form an_org an_org (Some renamed_form) []))) (js "renewal_policy") = None.
Proof.
  apply (renewal_not_stored (H := HttpsOnly) an_org); [by left|]. apply rtc_once. by apply (as_edit renamed_form (auto_init an_org)).
Defined.
Lemma undo_not_sent_witness : ∃ s, rtc (auto_step (H := HttpsOnly)) (auto_init an_org) s ∧ form s = form_of an_org ∧ o_name (srv s) = js "Acme Ltd".
Proof.
  destruct (undo_not_sent (H := HttpsOnly) an_org {| o_name := "Acme Ltd"; o_logo := Some (js "https://acme.test/l.png"); o_settings := [] |} renamed_org renamed_form)
    as (s & Hs & _ & _ & Hf & _ & Hn); [discriminate|reflexivity|reflexivity|]. by exists s.
Defined.
Lemma remount_restores_name_witness : ∃ s, rtc (auto_step (H := HttpsOnly)) (auto_init an_org) s ∧ form s = other_form ∧ o_name (srv s) = js "Acme".
Proof.
  destruct (remount_restores_name (H := HttpsOnly) an_org {| o_name := "Acme Ltd"; o_logo := Some (js "https://acme.test/l.png"); o_settings := [] |} renamed_org
    {| o_name := "Acme"; o_logo := Some (js "https://acme.test/new.png"); o_settings := [(js "enforce_sso", JBool true)] |}
    {| o_name := "Acme"; o_logo := Some (js "https://acme.test/new.png"); o_settings := [(js "enforce_sso", JBool true)] |} renamed_form other_form)
    as (s & Hs & _ & _ & Hf & Hn); [discriminate|reflexivity|reflexivity|discriminate|reflexivity|reflexivity|reflexivity|]. by exists s.
Defined.
Lemma overlapping_saves_disagree_witness :
  ∃ s, rtc (auto_step (H := HttpsOnly)) (auto_init an_org) s ∧ form s = other_form ∧ o_name (srv s) = js "Acme Ltd".
Proof.
  destruct (overlapping_saves_disagree (H := HttpsOnly) an_org {| o_name := "Acme"; o_logo := Some (js "https://acme.test/new.png"); o_settings := [] |}
    {| o_name := "Acme Ltd"; o_logo := Some (js "https://acme.test/l.png"); o_settings := [] |}
    {| o_name := "Acme Ltd"; o_logo := Some (js "https://acme.test/l.png"); o_settings := [] |} renamed_org renamed_form other_form)
    as (s & Hs & _ & _ & Hf & Hn); [discriminate|discriminate|discriminate|reflexivity|reflexivity|reflexivity|reflexivity|]. by exists s.
Defined.
Lemma platform_form_typed_witness : well_typed (platform_input "max_teams" (INum (Some (Dec (Fraction false 1 [D5])))) platform_default).
Proof. apply platform_form_typed. apply rtc_once. constructor. Defined.
Lemma health_banner_consistent_witness :
  let d := Some (JObj [(js "postgres", JStr "ok"); (js "redis", JStr "down")]) in
  hv_success (default {| hv_title := []; hv_badge := []; hv_success := true; hv_uptime := [] |} (health_banner d)) = true ↔
  countb service_ok (health_services d).1 = length (health_services d).1.
Proof. intros d. apply (health_banner_consistent d). reflexivity. Defined.
Definition a_mail : MailForm :=
  {| m_host := "smtp.test"; m_port := "587"; m_username := []; m_password := "s"; m_from := "a@b.test"; m_tls := true |}.
Lemma mailer_save_drops_edits_witness :
  m_form (st (snd (mailer_save (H := default_env) {| m_form := Some a_mail; m_saving := false; m_testing := false; m_result := None |}
    (World (browser_on ∅ "/settings" [answer 200 (JObj [])]) {| m_form := None; m_saving := false; m_testing := false; m_result := None |})))) =
  Some (no_password a_mail).
Proof.
  pose proof (mailer_save_drops_edits (H := default_env) {| m_form := Some a_mail; m_saving := false; m_testing := false; m_result := None |} a_mail
    (World (browser_on ∅ "/settings" [answer 200 (JObj [])]) {| m_form := None; m_saving := false; m_testing := false; m_result := None |}) eq_refl) as Hr.
  vm_compute in Hr. vm_compute. exact (proj2 (proj2 Hr)).
Defined.
