(* ===== verification/SsoTab.v ===== *)
(** * The single sign-on tab of the settings

    [SSOProvidersTab] of [app/settings/page.tsx] with its cards, the preview of
    an address and the mappings of mail domains to teams.

    The provider that is edited is an object whose fields may be undefined;
    undefined fields are left out of what is sent. *)

From S2P Require Import Prelude Regex Browser Types ApiClient React Lib Json Domains.
Import Sso.

Abbreviation jsobj := (list (jstr * option json)).
(** [{ ...o, [key]: val }] and [o.key]. *)
Definition obj_set (key : jstr) (v : option json) (o : jsobj) : jsobj := map_set o key v.
Definition obj_get (o : jsobj) (key : jstr) : option json := default None (map_get o key).
Definition obj_str (o : jsobj) (key : jstr) : option jstr := as_string (obj_get o key).

Definition emptyProvider : jsobj := [
  (js "name", Some (JStr [])); (js "provider_type", Some (JStr "google")); (js "client_id", Some (JStr []));
  (js "client_secret", Some (JStr [])); (js "redirect_url", Some (JStr [])); (js "issuer_url", Some (JStr []));
  (js "tenant_id", Some (JStr [])); (js "auto_provision", Some (JBool false)); (js "default_org_role", Some (JStr "member"));
  (js "default_team_role", Some (JStr "member")); (js "default_team_id", Some (JStr [])); (js "allowed_domains", Some (JStr []));
  (js "claim_mappings", Some (JArr [])); (js "custom_claims", Some (JArr [])); (js "enabled", Some (JBool true))].

Record SSOTestResult := { t_success : bool; t_endpoint : jstr; t_message : jstr; t_response_time : jstr }.
Record SsoState := {
  editing : option jsobj;
  sso_saving : bool;
  testResults : list (jstr * SSOTestResult);
  sso_testing : option jstr;
  sso_deleting : option jstr;
  touched : list jstr;
  errors : list (jstr * jstr);
  lastEditingId : option jstr
}.
Definition sso_init : SsoState := {|
  editing := None; sso_saving := false; testResults := []; sso_testing := None; sso_deleting := None;
  touched := []; errors := []; lastEditingId := None |}.
Definition set_form (e : option jsobj) (t : list jstr) (er : list (jstr * jstr)) (l : option jstr) (s : SsoState) : SsoState := {|
  editing := e; sso_saving := sso_saving s; testResults := testResults s; sso_testing := sso_testing s;
  sso_deleting := sso_deleting s; touched := t; errors := er; lastEditingId := l |}.
Definition set_saving (b : bool) (s : SsoState) : SsoState := {|
  editing := editing s; sso_saving := b; testResults := testResults s; sso_testing := sso_testing s;
  sso_deleting := sso_deleting s; touched := touched s; errors := errors s; lastEditingId := lastEditingId s |}.
Definition set_tests (r : list (jstr * SSOTestResult)) (t d : option jstr) (s : SsoState) : SsoState := {|
  editing := editing s; sso_saving := sso_saving s; testResults := r; sso_testing := t;
  sso_deleting := d; touched := touched s; errors := errors s; lastEditingId := lastEditingId s |}.

Section sso_tab.
Context `{!AppEnv, !JSRuntime}.

(** ** The form of a provider *)

Definition validateForm (o : jsobj) : list (jstr * jstr) :=
  validateSSOProviderForm {| name := obj_str o "name"; client_id := obj_str o "client_id";
    client_secret := obj_str o "client_secret"; redirect_url := obj_str o "redirect_url" |}.
Definition setEditing (e : option jsobj) (s : SsoState) : SsoState := set_form e (touched s) (errors s) (lastEditingId s) s.
Definition handleFieldChange (key : jstr) (val : json) (s : SsoState) : SsoState :=
  match editing s with
  | None => s
  | Some prev => let updated := obj_set key (Some val) prev in
                 set_form (Some updated) (touched s) (validateForm updated) (lastEditingId s) s
  end.
Definition handleFieldBlur (key : jstr) (s : SsoState) : SsoState :=
  set_form (editing s) (set_add (touched s) key)
    (match editing s with Some e => validateForm e | None => errors s end) (lastEditingId s) s.
(** [set], for the fields that are not checked. *)
Definition set_field (key : jstr) (val : option json) (s : SsoState) : SsoState :=
  match editing s with None => s | Some f => setEditing (Some (obj_set key val f)) s end.
Definition isFormValid (s : SsoState) : bool :=
  match editing s with Some e => (length (validateForm e) =? 0)%nat | None => false end.
Definition editingId (s : SsoState) : option jstr :=
  match editing s with Some e => Some (default (js "__new__") (obj_str e "id")) | None => None end.
(** What a render adjusts. *)
Definition sso_adjust (s : SsoState) : SsoState :=
  if bool_decide (editingId s = lastEditingId s) then s
  else match editing s with
       | Some _ => set_form (editing s) [] [] (editingId s) s
       | None => set_form (editing s) (touched s) (errors s) (editingId s) s
       end.
(** [touched.key && errors.key && ...]. *)
Definition shown_error (key : jstr) (s : SsoState) : option jstr :=
  if set_has (touched s) key then map_get (errors s) key else None.

(** *** Claim mappings *)

Abbreviation claim := (list (jstr * option json)).
Definition empty_claim : claim :=
  [(js "claim_name", Some (JStr [])); (js "claim_value", Some (JStr [])); (js "org_role", Some (JStr "member"));
   (js "team_id", Some (JStr [])); (js "team_role", Some (JStr []))].
Definition add_claim (l : list claim) : list claim := l ++ [empty_claim].
(** [filter((_, idx) => idx !== i)]. *)
Definition remove_claim (i : nat) (l : list claim) : list claim := delete i l.
(** [mappings[i] = { ...mappings[i], [key]: v }] for a row that is shown. *)
Definition change_claim (i : nat) (key v : jstr) (l : list claim) : list claim := alter (obj_set key (Some (JStr v))) i l.
Definition claim_text (m : claim) : jstr :=
  let get k := default [] (obj_str m (js k)) in
  get "claim_name"%string ++ "=" ++ get "claim_value"%string ++ [32; 8594; 32]%N ++ "org:" ++ get "org_role"%string
  ++ (if truthy (get "team_id"%string) then ", team:" ++ get "team_role"%string else []).

(** *** Calls *)

Definition provider_id (e : jsobj) : jstr := default [] (obj_str e "id").
Definition handleSave (closure : SsoState) : M SsoState unit :=
  match editing closure with
  | None => mret tt
  | Some e =>
      modify (set_saving true);;
      try_finally
        (try_catch
          (_ ← (if truthy (provider_id e) then api_put ("/admin/sso/providers/" ++ provider_id e) (Some (jobj e))
                else api_post "/admin/sso/providers" (Some (jobj e)));
           emit (EInvalidate "admin-sso-providers");;
           modify (setEditing None);;
           emit (EToastSuccess (if truthy (provider_id e) then "Provider updated" else "Provider created")))
          (λ err, emit (EToastError (err_message err))))
        (modify (set_saving false))
  end.
Definition save_click (closure : SsoState) : M SsoState unit :=
  if sso_saving closure || negb (isFormValid closure) then mret tt else handleSave closure.

Record SSOProviderData := {
  sp_id : jstr; sp_name : jstr; sp_provider_type : jstr; sp_redirect_url : jstr; sp_enabled : bool; sp_auto_provision : bool;
  sp_allowed_domains : option jstr; sp_claims : option (list claim); sp_linked : option Z; sp_created_at : jstr;
  sp_object : jsobj                        (* the whole object, as the server sent it *)
}.
Definition test_result_of (v : option json) : SSOTestResult :=
  let get k := from_option (λ j, jfield j k) None v in
  let text k := default [] (as_string (get k)) in
  {| t_success := json_truthy (get "success"); t_endpoint := text "endpoint"; t_message := text "message";
     t_response_time := text "response_time" |}.
Definition handleTest (p : SSOProviderData) : M SsoState unit :=
  modify (λ s, set_tests (testResults s) (Some (sp_id p)) (sso_deleting s) s);;
  try_finally
    (try_catch
      (res ← api_post "/admin/sso/test" (Some (jobj (sp_object p)));
       modify (λ s, set_tests (map_set (testResults s) (sp_id p) (test_result_of res)) (sso_testing s) (sso_deleting s) s))
      (λ err, modify (λ s, set_tests (map_set (testResults s) (sp_id p)
         {| t_success := false; t_endpoint := []; t_message := err_message err; t_response_time := [] |}) (sso_testing s) (sso_deleting s) s)))
    (modify (λ s, set_tests (testResults s) None (sso_deleting s) s)).
Definition handleDelete (p : SSOProviderData) : M SsoState unit :=
  modify (λ s, set_tests (testResults s) (sso_testing s) (Some (sp_id p)) s);;
  try_finally
    (try_catch
      (_ ← api_del ("/admin/sso/providers/" ++ sp_id p) None;
       emit (EInvalidate "admin-sso-providers");;
       emit (EToastSuccess ("Provider " ++ dq ++ sp_name p ++ dq ++ " deleted")))
      (λ err, emit (EToastError (err_message err))))
    (modify (λ s, set_tests (testResults s) (sso_testing s) None s)).

(** ** A provider *)

Definition providerTypeLabel (type : jstr) : jstr :=
  if type =?s "github" then "GitHub"
  else if type =?s "google" then "Google"
  else if type =?s "azure" then "Azure AD"
  else if type =?s "okta" then "Okta"
  else if type =?s "oidc" then "OIDC"
  else toUpperCase (take 1 type) ++ drop 1 type.
Definition providerColors : list (jstr * jstr) := [
  (js "github", js "bg-foreground text-background"); (js "google", js "bg-info/10 text-info");
  (js "azure", js "bg-info/10 text-info"); (js "okta", js "bg-primary/10 text-primary"); (js "oidc", js "bg-primary/10 text-primary")].
Definition allowedDomainsList (p : SSOProviderData) : list jstr :=
  match sp_allowed_domains p with
  | None | Some [] => []
  | Some d => List.filter truthy (trim <$> split_on 44 d)
  end.
Record provider_card := {
  pc_icon : jstr; pc_badge : jstr; pc_type : jstr; pc_meta : jstr; pc_domains : list jstr; pc_provision : jstr;
  pc_claims : list jstr; pc_result : option (jstr * jstr)
}.
Definition ProviderCard (mappings : nat) (tests : list (jstr * SSOTestResult)) (p : SSOProviderData) : provider_card := {|
  pc_icon := if sp_enabled p then default (js "bg-success/10 text-success") (map_get providerColors (sp_provider_type p))
             else "bg-muted text-muted-foreground";
  pc_badge := if sp_enabled p then "Enabled" else "Disabled";
  pc_type := providerTypeLabel (sp_provider_type p);
  pc_meta := show (default 0%Z (sp_linked p)) ++ " linked users" ++ [32; 183; 32]%N ++ "Created " ++ toLocaleDateString (sp_created_at p)
             ++ (if (0 <? mappings)%nat then [32; 183; 32]%N ++ show_nat mappings ++ " domain mapping" ++ (if (mappings =? 1)%nat then [] else js "s") else []);
  pc_domains := (λ d, "@" ++ d) <$> allowedDomainsList p;
  pc_provision := if sp_auto_provision p then "Auto-provision on" else "Auto-provision off";
  pc_claims := claim_text <$> default [] (sp_claims p);
  pc_result := (λ r, (if t_success r then js "Connection successful" else js "Connection failed",
                      t_message r ++ t_endpoint r ++ (if truthy (t_response_time r) then "(" ++ t_response_time r ++ ")" else [])))
               <$> map_get tests (sp_id p)
|}.
Definition handleCopyUrl {S} (setCopied : bool → S → S) (p : SSOProviderData) : M S unit :=
  if negb (truthy (sp_redirect_url p)) then mret tt
  else emit (EClipboard (sp_redirect_url p));; modify (setCopied true);; emit (EToastSuccess "Redirect URL copied");; emit (ETimeout 2000).

(** ** Mail domains *)

(** [/^[a-zA-Z0-9]([a-zA-Z0-9-]*[a-zA-Z0-9])?(\.[a-zA-Z0-9]([a-zA-Z0-9-]*[a-zA-Z0-9])?)*\.[a-zA-Z]{2,}$/]. *)
Definition is_alnum_hyphen (c : N) : bool := is_alnum c || (c =? 45)%N.
Definition host_label : re := RSeq (RCls is_alnum) (ropt (RSeq (RStar (RCls is_alnum_hyphen)) (RCls is_alnum))).
Definition host_re : re :=
  rseq [RBegin; host_label; RStar (RSeq (rchar 46) host_label); rchar 46; RCls is_alpha; rplus (RCls is_alpha); REnd].

Record MappingForm := { mf_domain : jstr; mf_team_id : jstr; mf_team_role : jstr; mf_org_role : jstr }.
Definition emptyMappingForm : MappingForm := {| mf_domain := []; mf_team_id := []; mf_team_role := "member"; mf_org_role := "member" |}.
Record SSODomainMapping := { dm_id : jstr; dm_domain : jstr; dm_org_role : jstr; dm_team_id : jstr; dm_team_role : jstr; dm_team_name : option jstr }.
Record MappingsState := {
  addingMapping : bool; editingMappingId : option jstr; mapping_form : MappingForm; mapping_saving : bool; deletingId : option jstr
}.
Definition domainValid (f : MappingForm) : bool := test host_re (mf_domain f).
Definition set_mapping (a : bool) (e : option jstr) (f : MappingForm) (s : MappingsState) : MappingsState :=
  {| addingMapping := a; editingMappingId := e; mapping_form := f; mapping_saving := mapping_saving s; deletingId := deletingId s |}.
Definition set_busy (b : bool) (d : option jstr) (s : MappingsState) : MappingsState :=
  {| addingMapping := addingMapping s; editingMappingId := editingMappingId s; mapping_form := mapping_form s; mapping_saving := b; deletingId := d |}.
Definition startAdd (teams : list Team) (s : MappingsState) : MappingsState :=
  set_mapping true None {| mf_domain := []; mf_team_id := from_option Team_id [] (head teams); mf_team_role := "member"; mf_org_role := "member" |} s.
Definition startEdit (m : SSODomainMapping) (s : MappingsState) : MappingsState :=
  set_mapping false (Some (dm_id m))
    {| mf_domain := dm_domain m; mf_team_id := dm_team_id m; mf_team_role := dm_team_role m; mf_org_role := dm_org_role m |} s.
Definition cancelForm (s : MappingsState) : MappingsState := set_mapping false None emptyMappingForm s.
Definition mapping_body (f : MappingForm) : json :=
  JObj [(js "domain", JStr (mf_domain f)); (js "team_id", JStr (mf_team_id f)); (js "team_role", JStr (mf_team_role f)); (js "org_role", JStr (mf_org_role f))].
Definition mappings_path (providerId : jstr) : jstr := "/admin/sso/providers/" ++ providerId ++ "/domain-mappings".
Definition handleSaveMapping (providerId : jstr) (closure : MappingsState) : M MappingsState unit :=
  let f := mapping_form closure in
  if negb (truthy (mf_domain f)) || negb (truthy (mf_team_id f)) then mret tt
  else
    modify (λ s, set_busy true (deletingId s) s);;
    try_finally
      (try_catch
        ((if otruthy (editingMappingId closure)
          then (_ ← api_put (mappings_path providerId ++ "/" ++ default [] (editingMappingId closure)) (Some (mapping_body f));
                emit (EToastSuccess "Domain mapping updated"))
          else (_ ← api_post (mappings_path providerId) (Some (mapping_body f));
                emit (EToastSuccess "Domain mapping created")));;
         emit (EInvalidate "sso-domain-mappings");;
         modify cancelForm)
        (λ err, emit (EToastError (err_message err))))
      (modify (λ s, set_busy false (deletingId s) s)).
Definition mapping_click (providerId : jstr) (closure : MappingsState) : M MappingsState unit :=
  let f := mapping_form closure in
  if negb (truthy (mf_domain f)) || negb (domainValid f) || negb (truthy (mf_team_id f)) || mapping_saving closure
  then mret tt else handleSaveMapping providerId closure.
Definition handleDeleteMapping (providerId mappingId : jstr) : M MappingsState unit :=
  modify (λ s, set_busy (mapping_saving s) (Some mappingId) s);;
  try_finally
    (try_catch
      (_ ← api_del (mappings_path providerId ++ "/" ++ mappingId) None;
       emit (EInvalidate "sso-domain-mappings");;
       emit (EToastSuccess "Domain mapping deleted"))
      (λ err, emit (EToastError (err_message err))))
    (modify (λ s, set_busy (mapping_saving s) None s)).
(** A mapping in a list, and the rule of a preview. *)
Definition mapping_text (m : SSODomainMapping) : jstr * jstr * jstr :=
  ("@" ++ dm_domain m, jor (default [] (dm_team_name m)) (slice (dm_team_id m) 0 8) ++ [32; 183; 32]%N ++ dm_team_role m, "org: " ++ dm_org_role m).

(** *** The preview of an address, in a dialog and below the mappings *)

Record Preview := { pv_email : jstr; pv_loading : bool; pv_result : option json }.
Definition handlePreview (providerName : jstr) (closure : Preview) : M Preview unit :=
  if negb (truthy (pv_email closure)) then mret tt
  else
    modify (λ s, {| pv_email := pv_email s; pv_loading := true; pv_result := None |});;
    try_finally
      (try_catch
        (res ← api_post "/admin/sso/domain-mappings/preview"
                 (Some (JObj [(js "email", JStr (pv_email closure)); (js "provider", JStr providerName)]));
         modify (λ s, {| pv_email := pv_email s; pv_loading := pv_loading s; pv_result := res |}))
        (λ err, emit (EToastError (err_message err))))
      (modify (λ s, {| pv_email := pv_email s; pv_loading := false; pv_result := pv_result s |})).
Definition preview_keydown (providerName k : jstr) (closure : Preview) : M Preview unit :=
  if k =?s "Enter" then handlePreview providerName closure else mret tt.
Definition preview_disabled (s : Preview) : bool := negb (truthy (pv_email s)) || pv_loading s.
End sso_tab.

(** ** Names of mail domains *)

Definition host_label_shape (l : jstr) : Prop :=
  ∃ c w, l = c :: w ∧ is_alnum c = true ∧ Forall (λ x, is_alnum_hyphen x = true) w ∧ (∀ d, last l = Some d → is_alnum d = true).
Definition host_tld_shape (l : jstr) : Prop := 2 ≤ length l ∧ Forall (λ x, is_alpha x = true) l.
Definition dotted (labels : list jstr) : jstr := labels ≫= λ l, 46%N :: l.

Lemma alnum_hyphen c : is_alnum c = true → is_alnum_hyphen c = true.
Proof. unfold is_alnum_hyphen. by intros ->. Qed.
Lemma host_label_sound s s' : rmatch host_label s s' → ∃ l, host_label_shape l ∧ m_rest s = l ++ m_rest s'.
Proof.
  intros Hm. apply rmatch_seq_inv in Hm as (s1 & (c & E1 & Hc)%rmatch_cls_inv & Ho).
  inversion Ho as [| | |a b u u' Ha|a b u u' Hb| | | | | |]; subst.
  - apply rmatch_seq_inv in Ha as (s3 & Hs & (d & E3 & Hd)%rmatch_cls_inv).
    pose proof (rmatch_consumed _ _ _ Hs) as Es. apply rmatch_plus_cls in Hs as [Fs _].
    set (w := consumed s1 s3) in *. exists (c :: w ++ [d]). rw E1 Es E3. cbn [app]. rw -app_assoc. split; [|done].
    exists c, (w ++ [d]). split_and!; [done|done| |].
    + apply Forall_app. split; [done|]. apply Forall_singleton. by apply alnum_hyphen.
    + intros x. rw app_comm_cons last_snoc. by intros [= <-].
  - inversion Hb; subst. exists [c]. split; [|done]. exists c, []. split_and!; [done|done|constructor|]. by intros x [= <-].
Qed.
Lemma host_label_complete l prev t caps :
  host_label_shape l → ∃ prev', rmatch host_label (Mst prev (l ++ t) caps) (Mst prev' t caps).
Proof.
  intros (c & w & -> & Hc & Hw & Hlast). destruct w as [|x w _] using rev_ind.
  - eexists. eapply M_seq; [by eapply M_cls|apply M_alt_r, M_eps].
  - apply Forall_app in Hw as [Hw _]. specialize (Hlast x). rw app_comm_cons last_snoc in Hlast.
    cbn [app]. rw -app_assoc. eexists. eapply M_seq; [by eapply M_cls|]. apply M_alt_l.
    eapply M_seq; [by apply rmatch_star_all|]. eapply M_cls; [done|by apply Hlast].
Qed.
Lemma dotted_sound s s' : rmatch (RStar (RSeq (rchar 46) host_label)) s s' →
  ∃ labels, Forall host_label_shape labels ∧ m_rest s = dotted labels ++ m_rest s'.
Proof.
  remember (RStar (RSeq (rchar 46) host_label)) as r eqn:Er. intros Hm. revert Er.
  induction Hm as [| | | | |a s|a s s1 s2 H1 _ _ H2 IH| | | |]; intros Er; try done; injection Er as ->.
  - by exists [].
  - apply rmatch_seq_inv in H1 as (s0 & E0%rmatch_char_inv & (l & Hl & E1)%host_label_sound).
    destruct (IH eq_refl) as (labels & Hf & E2). exists (l :: labels). split; [by constructor|].
    rw E0 E1 E2. unfold dotted. rw bind_cons. cbn. by rw -app_assoc.
Qed.
Lemma dotted_complete labels prev t caps : Forall host_label_shape labels →
  ∃ prev', rmatch (RStar (RSeq (rchar 46) host_label)) (Mst prev (dotted labels ++ t) caps) (Mst prev' t caps).
Proof.
  intros Hf. revert prev. induction Hf as [|l labels Hl _ IH]; intros prev; [eexists; apply M_star_nil|].
  unfold dotted. rw bind_cons -app_assoc. fold (dotted labels). cbn [app].
  destruct (host_label_complete l (Some 46%N) (dotted labels ++ t) caps Hl) as [p1 H1]. destruct (IH p1) as [p2 H2].
  exists p2. eapply M_star_cons; [eapply M_seq; [by eapply M_cls|exact H1]| |exact H2]. cbn. rw !length_app. lia.
Qed.
(** A mail domain is accepted exactly when it is two or more labels between
    dots: letters, digits and inner hyphens, and last two or more letters. *)
Theorem domainValid_spec (f : MappingForm) :
  domainValid f = true ↔
  ∃ l labels tld, host_label_shape l ∧ Forall host_label_shape labels ∧ host_tld_shape tld ∧
    mf_domain f = l ++ dotted labels ++ 46%N :: tld.
Proof.
  unfold domainValid, host_re. cbn [rseq]. rw test_anchored. split.
  - intros [e Hm]. apply rmatch_seq_inv in Hm as (s1 & (l & Hl & E1)%host_label_sound & Hm).
    apply rmatch_seq_inv in Hm as (s2 & (labels & Hf & E2)%dotted_sound & Hm).
    apply rmatch_seq_inv in Hm as (s3 & E3%rmatch_char_inv & Hm).
    apply rmatch_seq_inv in Hm as (s4 & (c & E4 & Hc)%rmatch_cls_inv & Hm).
    apply rmatch_seq_inv in Hm as (s5 & (w & Hw & Fw & E5)%rmatch_plus_word & Hm).
    assert (Hend : m_rest s5 = []) by (by inversion Hm). cbn in E1. exists l, labels, (c :: w).
    split_and!; [done|done| |by rw E1 E2 E3 E4 E5 Hend app_nil_r].
    split; [destruct w; [done|cbn; lia]|by constructor].
  - intros (l & labels & tld & Hl & Hf & [Ht Ha] & ->). destruct tld as [|c [|d w]]; [cbn in Ht; lia..|].
    apply Forall_cons in Ha as [Hc Ha].
    destruct (host_label_complete l None (dotted labels ++ 46%N :: c :: d :: w) [] Hl) as [p1 H1].
    destruct (dotted_complete labels p1 (46%N :: c :: d :: w) [] Hf) as [p2 H2].
    destruct (rmatch_word_plus is_alpha (Some c) (d :: w) [] [] ltac:(done) Ha) as [p3 H3]. rw app_nil_r in H3.
    eexists. eapply M_seq; [exact H1|]. eapply M_seq; [exact H2|]. eapply M_seq; [by eapply M_cls|].
    eapply M_seq; [by eapply M_cls|]. eapply M_seq; [exact H3|by apply M_end].
Qed.

(** ** Errors of the form *)

Definition checked_keys : list jstr := js <$> ["name"; "client_id"; "client_secret"; "redirect_url"]%string.
Section sso_theorems.
Context `{!AppEnv, !JSRuntime}.

Lemma validateForm_set key v o : key ∉ checked_keys → validateForm (obj_set key v o) = validateForm o.
Proof.
  intros Hk. unfold validateForm. f_equal. unfold obj_str, obj_get, obj_set.
  assert (Hne : ∀ k, k ∈ checked_keys → map_get (map_set o key v) k = map_get o k).
  { intros k Hin. rw map_get_set_ne //. intros ->. done. }
  f_equal; rw Hne //; match goal with |- ?P => apply (bool_decide_eq_true_1 P) end; vm_compute; reflexivity.
Qed.

(** Events on the tab, each followed by a render.  A form is opened for a new
    provider, or for another one than the one that is open. *)
Inductive sso_step : SsoState → SsoState → Prop :=
| st_change k v s : k ∈ checked_keys → sso_step s (sso_adjust (handleFieldChange k v s))
| st_blur k s : k ∈ checked_keys → sso_step s (sso_adjust (handleFieldBlur k s))
| st_set k v s : k ∉ checked_keys → k ≠ js "id" → sso_step s (sso_adjust (set_field k v s))
| st_open e s : editingId (setEditing (Some e) s) ≠ editingId s → sso_step s (sso_adjust (setEditing (Some e) s))
| st_close s : sso_step s (sso_adjust (setEditing None s)).

Definition fresh_errors (s : SsoState) : Prop :=
  lastEditingId s = editingId s ∧ ∀ e, editing s = Some e → touched s = [] ∨ errors s = validateForm e.
Lemma adjust_same s : lastEditingId s = editingId s → sso_adjust s = s.
Proof. intros E. unfold sso_adjust. by rw bool_decide_true. Qed.
Lemma id_kept k v e : k ≠ js "id" → obj_str (obj_set k v e) "id" = obj_str e "id".
Proof. intros Hk. unfold obj_str, obj_get, obj_set. by rw map_get_set_ne. Qed.
Lemma checked_not_id k : k ∈ checked_keys → k ≠ js "id".
Proof. intros Hk ->. revert Hk. apply (bool_decide_eq_false_1 (js "id" ∈ checked_keys)). vm_compute. reflexivity. Qed.
Lemma fresh_errors_step s s' : sso_step s s' → fresh_errors s → fresh_errors s'.
Proof.
  destruct 1 as [k v s Hk|k s Hk|k v s Hk Hid|e s Hne|s]; intros [El Hf].
  - apply checked_not_id in Hk. unfold handleFieldChange. destruct (editing s) as [e|] eqn:Ee.
    + rw adjust_same; [|unfold editingId in *; cbn; rw Ee in El; by rw id_kept].
      split; [unfold editingId in *; cbn; rw Ee in El; by rw id_kept|]. cbn. intros e' [= <-]. by right.
    + rw adjust_same //. by split; [|rw Ee].
  - rw adjust_same; [|exact El]. split; [exact El|]. cbn. intros e Ee. right. by rw Ee.
  - unfold set_field. destruct (editing s) as [e|] eqn:Ee; [|by rw adjust_same; [split; [done|by rw Ee]|done]].
    rw adjust_same; [|unfold editingId in *; cbn; rw Ee in El; by rw id_kept].
    split; [unfold editingId in *; cbn; rw Ee in El; by rw id_kept|]. cbn. intros e' [= <-].
    rw validateForm_set //. by apply Hf.
  - unfold sso_adjust. rw bool_decide_false; [|by rw /= El]. split; [done|]. cbn. by left.
  - unfold sso_adjust. case_bool_decide as Eb; cbn; (split; [done|by intros e]).
Qed.
(** A message is shown under a field exactly when the field was left or
    edited since the form was opened and its present value is wrong. *)
Theorem sso_errors_current (s : SsoState) (e : jsobj) (k : jstr) :
  rtc sso_step sso_init s → editing s = Some e →
  shown_error k s = if set_has (touched s) k then map_get (validateForm e) k else None.
Proof.
  intros Hs Ee. assert (Hf : fresh_errors s).
  { apply (rtc_ind_r (R := sso_step) fresh_errors sso_init); [by split| |exact Hs]. intros y z _ Hyz. by apply fresh_errors_step. }
  unfold shown_error. destruct Hf as [_ Hf]. by destruct (Hf e Ee) as [->| ->].
Qed.

(** Opening the provider that is already open again keeps the messages of the
    abandoned edit, although the form is valid. *)
Theorem sso_reopen_stale (e : jsobj) :
  validateForm e = [] →
  let s1 := sso_adjust (handleFieldBlur "client_id" (sso_adjust (handleFieldChange "client_id" (JStr []) (sso_adjust (setEditing (Some e) sso_init))))) in
  let s2 := sso_adjust (setEditing (Some e) s1) in
  editing s2 = Some e ∧ isFormValid s2 = true ∧ shown_error "client_id" s2 = Some (js "Client ID is required").
Proof.
  intros Hv s1 s2.
  set (e' := obj_set "client_id" (Some (JStr [])) e).
  assert (Hid : obj_str e' "id" = obj_str e "id") by (by apply id_kept).
  assert (E1 : s1 = set_form (Some e') [js "client_id"] (validateForm e') (Some (default (js "__new__") (obj_str e "id"))) sso_init).
  { subst s1. unfold sso_adjust at 3. rw bool_decide_false; [|done]. cbn [editing setEditing set_form].
    unfold handleFieldChange. cbn [editing set_form]. fold e'. rw (adjust_same (set_form _ _ _ _ _)); [|unfold editingId; cbn; by rw Hid].
    unfold handleFieldBlur. cbn [editing set_form touched errors lastEditingId]. rw adjust_same; [done|unfold editingId; cbn; by rw Hid]. }
  assert (E2 : s2 = set_form (Some e) [js "client_id"] (validateForm e') (Some (default (js "__new__") (obj_str e "id"))) sso_init).
  { subst s2. rw E1. rw adjust_same; done. }
  rw E2. split; [done|]. split; [unfold isFormValid; cbn; by rw Hv|]. unfold shown_error. cbn [touched errors set_form].
  rw (_ : set_has [js "client_id"] (js "client_id") = true); [|done].
  assert (Hc : obj_str e' "client_id" = Some []) by (unfold obj_str, obj_get, e', obj_set; by rw map_get_set_eq).
  unfold validateForm, validateSSOProviderForm. cbn [name client_id client_secret redirect_url]. rw Hc.
  destruct (blank (obj_str e' "name")); reflexivity.
Qed.

(** The button saves only a provider whose form has no error, and one at a
    time: whatever it sends carries such a provider. *)
Theorem sso_save_sends_valid (s : SsoState) (w : world SsoState) :
  ∃ l, sent_requests (snd (save_click s w)) = sent_requests w ++ l ∧
    (l ≠ [] → sso_saving s = false ∧ ∃ e, editing s = Some e ∧ validateForm e = [] ∧
      Forall (λ r, is_refresh r ∨ rq_body r = Some (jobj e) ∧ rq_method r = (if truthy (provider_id e) then js "PUT" else js "POST")) l).
Proof.
  unfold save_click. destruct (sso_saving s || negb (isFormValid s)) eqn:E; [exists []; by rw app_nil_r|].
  bool_to_prop. unfold isFormValid, handleSave in *. destruct (editing s) as [e|]; [|done]. bool_to_prop.
  set (P := λ r, is_refresh r ∨ rq_body r = Some (jobj e) ∧ rq_method r = (if truthy (provider_id e) then js "PUT" else js "POST")).
  assert (Hq : preserves (S := SsoState) (only_sends P)
    (if truthy (provider_id e) then api_put ("/admin/sso/providers/" ++ provider_id e) (Some (jobj e))
     else api_post "/admin/sso/providers" (Some (jobj e)))).
  { unfold P. destruct (truthy (provider_id e)); (apply only_sends_request; [intros token; right; done|by left]). }
  match goal with |- context [sent_requests (snd (?m w))] => assert (Hp : preserves (only_sends P) m) by preserve end.
  destruct (Hp w) as (l & El & Hl). exists l. split; [done|]. intros _. split; [done|]. exists e. split_and!; [done| |done].
  apply nil_length_inv. done.
Qed.
End sso_theorems.

(** ** Instances *)

Definition a_provider : jsobj := [
  (js "id", Some (JStr "p1")); (js "name", Some (JStr "corp")); (js "client_id", Some (JStr "c"));
  (js "client_secret", Some (JStr "s")); (js "redirect_url", Some (JStr "https://x.test/cb"))].
Lemma sso_errors_current_witness :
  let s := sso_adjust (handleFieldBlur (H0 := AsciiRuntime) "name" (sso_adjust (setEditing (Some emptyProvider) sso_init))) in
  shown_error "name" s = Some (js "Name is required").
Proof.
  intros s. rewrite (sso_errors_current (H0 := AsciiRuntime) s emptyProvider "name"); [vm_compute; reflexivity| |reflexivity].
  eapply rtc_l; [apply (st_open (H0 := AsciiRuntime) emptyProvider); discriminate|]. apply rtc_once. apply st_blur.
  apply (bool_decide_eq_true_1 (js "name" ∈ checked_keys)). vm_compute. reflexivity.
Defined.
Lemma sso_reopen_stale_witness :
  let s1 := sso_adjust (handleFieldBlur (H0 := AsciiRuntime) "client_id" (sso_adjust (handleFieldChange (H0 := AsciiRuntime) "client_id" (JStr []) (sso_adjust (setEditing (Some a_provider) sso_init))))) in
  shown_error "client_id" (sso_adjust (setEditing (Some a_provider) s1)) = Some (js "Client ID is required").
Proof. apply (sso_reopen_stale (H0 := AsciiRuntime) a_provider). vm_compute. reflexivity. Defined.
