(* ===== verification/SetupWizard.v ===== *)
(** * The setup wizard: [web/src/app/setup/page.tsx]

    Nine steps, of which five are required; the fields of a step can be edited
    while it is shown, its Next button waits for the step's check, and the last
    step sends everything.

    The abstract specification is a form without steps that refuses to be sent
    while a required section does not pass; the wizard refines it. *)

From S2P Require Import Prelude Regex Browser ApiClient React Json PasswordPolicy SignIn Domains.

(** ** Steps *)

Inductive step_key := KAdmin | KOrg | KSmtp | KStorage | KDomain | KTeam | KBranding | KInvites | KReview.
#[export] Instance step_key_eq_dec : EqDecision step_key.
Proof. solve_decision. Defined.
Record step_info := { s_key : step_key; s_label : jstr; s_required : bool }.
Definition STEPS : list step_info := [
  {| s_key := KAdmin; s_label := "Admin Account"; s_required := true |};
  {| s_key := KOrg; s_label := "Organization"; s_required := true |};
  {| s_key := KSmtp; s_label := "Outbound Email"; s_required := true |};
  {| s_key := KStorage; s_label := "Object Storage"; s_required := false |};
  {| s_key := KDomain; s_label := "Domain"; s_required := true |};
  {| s_key := KTeam; s_label := "Team"; s_required := false |};
  {| s_key := KBranding; s_label := "Branding"; s_required := false |};
  {| s_key := KInvites; s_label := "Invite Users"; s_required := false |};
  {| s_key := KReview; s_label := "Review & Finish"; s_required := true |}].

(** ** What is filled in *)

Record AdminData := { ad_email : jstr; ad_password : jstr; ad_display_name : jstr }.
Record OrgData := { og_name : jstr; og_slug : jstr; og_logo_url : jstr }.
Record SmtpData := {
  sm_host : jstr; sm_port : Z; sm_username : jstr; sm_password : jstr; sm_from_address : jstr; sm_from_name : jstr
}.
Record StorageData := {
  sg_provider : jstr; sg_endpoint : jstr; sg_access_key : jstr; sg_secret_key : jstr; sg_bucket : jstr; sg_region : jstr;
  sg_use_ssl : bool
}.
Record InviteData := { iv_email : jstr; iv_role : jstr }.
Record SetupData := {
  admin : AdminData;
  org : OrgData;
  smtp : SmtpData;
  storage_cfg : option StorageData;
  domain_name : jstr;
  team : option jstr;                      (* its name *)
  branding : option jstr;                  (* its logo_url *)
  invites : list InviteData
}.
Definition initialData : SetupData := {|
  admin := {| ad_email := []; ad_password := []; ad_display_name := [] |};
  org := {| og_name := []; og_slug := []; og_logo_url := [] |};
  smtp := {| sm_host := []; sm_port := 587; sm_username := []; sm_password := []; sm_from_address := []; sm_from_name := [] |};
  storage_cfg := None; domain_name := []; team := None; branding := None; invites := []
|}.
Definition with_admin (a : AdminData) (d : SetupData) : SetupData := {|
  admin := a; org := org d; smtp := smtp d; storage_cfg := storage_cfg d; domain_name := domain_name d; team := team d;
  branding := branding d; invites := invites d |}.
Definition with_org (o : OrgData) (d : SetupData) : SetupData := {|
  admin := admin d; org := o; smtp := smtp d; storage_cfg := storage_cfg d; domain_name := domain_name d; team := team d;
  branding := branding d; invites := invites d |}.
Definition with_smtp (x : SmtpData) (d : SetupData) : SetupData := {|
  admin := admin d; org := org d; smtp := x; storage_cfg := storage_cfg d; domain_name := domain_name d; team := team d;
  branding := branding d; invites := invites d |}.
Definition with_storage_cfg (x : StorageData) (d : SetupData) : SetupData := {|
  admin := admin d; org := org d; smtp := smtp d; storage_cfg := Some x; domain_name := domain_name d; team := team d;
  branding := branding d; invites := invites d |}.
Definition with_domain (x : jstr) (d : SetupData) : SetupData := {|
  admin := admin d; org := org d; smtp := smtp d; storage_cfg := storage_cfg d; domain_name := x; team := team d;
  branding := branding d; invites := invites d |}.
Definition with_team (x : option jstr) (d : SetupData) : SetupData := {|
  admin := admin d; org := org d; smtp := smtp d; storage_cfg := storage_cfg d; domain_name := domain_name d; team := x;
  branding := branding d; invites := invites d |}.
Definition with_branding (x : jstr) (d : SetupData) : SetupData := {|
  admin := admin d; org := org d; smtp := smtp d; storage_cfg := storage_cfg d; domain_name := domain_name d; team := team d;
  branding := Some x; invites := invites d |}.
Definition with_invites (x : list InviteData) (d : SetupData) : SetupData := {|
  admin := admin d; org := org d; smtp := smtp d; storage_cfg := storage_cfg d; domain_name := domain_name d; team := team d;
  branding := branding d; invites := x |}.

(** ** The state of the page *)

Record ConnResult := { cr_success : bool; cr_message : jstr; cr_response_time : jstr }.
Record ConnTest := { ct_testing : bool; ct_result : option ConnResult }.
Record WizardState := {
  checking : bool;
  passwordPolicy : option PasswordPolicy;
  step : nat;
  data : SetupData;
  submitting : bool;
  healthStatus : option (bool * bool);     (* postgres, redis *)
  datastores : option (jstr * jstr);
  smtpTest : ConnTest;
  storageTest : ConnTest
}.
Definition no_test : ConnTest := {| ct_testing := false; ct_result := None |}.
Definition wizard_init : WizardState := {|
  checking := true; passwordPolicy := None; step := 0; data := initialData; submitting := false; healthStatus := None;
  datastores := None; smtpTest := no_test; storageTest := no_test |}.
Definition set_checking (b : bool) (s : WizardState) : WizardState := {|
  checking := b; passwordPolicy := passwordPolicy s; step := step s; data := data s; submitting := submitting s;
  healthStatus := healthStatus s; datastores := datastores s; smtpTest := smtpTest s; storageTest := storageTest s |}.
Definition set_policy (p : option PasswordPolicy) (s : WizardState) : WizardState := {|
  checking := checking s; passwordPolicy := p; step := step s; data := data s; submitting := submitting s;
  healthStatus := healthStatus s; datastores := datastores s; smtpTest := smtpTest s; storageTest := storageTest s |}.
Definition set_step (n : nat) (s : WizardState) : WizardState := {|
  checking := checking s; passwordPolicy := passwordPolicy s; step := n; data := data s; submitting := submitting s;
  healthStatus := healthStatus s; datastores := datastores s; smtpTest := smtpTest s; storageTest := storageTest s |}.
Definition set_data (d : SetupData) (s : WizardState) : WizardState := {|
  checking := checking s; passwordPolicy := passwordPolicy s; step := step s; data := d; submitting := submitting s;
  healthStatus := healthStatus s; datastores := datastores s; smtpTest := smtpTest s; storageTest := storageTest s |}.
Definition set_submitting (b : bool) (s : WizardState) : WizardState := {|
  checking := checking s; passwordPolicy := passwordPolicy s; step := step s; data := data s; submitting := b;
  healthStatus := healthStatus s; datastores := datastores s; smtpTest := smtpTest s; storageTest := storageTest s |}.
Definition set_infra (h : option (bool * bool)) (d : option (jstr * jstr)) (s : WizardState) : WizardState := {|
  checking := checking s; passwordPolicy := passwordPolicy s; step := step s; data := data s; submitting := submitting s;
  healthStatus := h; datastores := d; smtpTest := smtpTest s; storageTest := storageTest s |}.
Definition set_conn (a b : ConnTest) (s : WizardState) : WizardState := {|
  checking := checking s; passwordPolicy := passwordPolicy s; step := step s; data := data s; submitting := submitting s;
  healthStatus := healthStatus s; datastores := datastores s; smtpTest := a; storageTest := b |}.

(** ** Checks and navigation *)

(** The check of a step, [canNext] of the step that is shown. *)
Definition section_ok (policy : option PasswordPolicy) (k : step_key) (d : SetupData) : bool :=
  match k with
  | KAdmin => truthy (ad_display_name (admin d)) && test emailRegex (ad_email (admin d))
              && passwordMeetsPolicy (ad_password (admin d)) policy
  | KOrg => truthy (og_name (org d))
  | KSmtp => truthy (sm_host (smtp d)) && negb (sm_port (smtp d) =? 0)%Z && truthy (sm_from_address (smtp d))
  | KDomain => truthy (domain_name d)
  | _ => true
  end.
Definition currentStep (s : WizardState) : step_info :=
  default {| s_key := KReview; s_label := []; s_required := true |} (STEPS !! step s).
Definition current_key (s : WizardState) : step_key := s_key (currentStep s).
Definition isLast (s : WizardState) : bool := (step s =? length STEPS - 1)%nat.
Definition canNext (s : WizardState) : bool := section_ok (passwordPolicy s) (current_key s) (data s).
Definition next (s : WizardState) : WizardState := if (step s <? length STEPS - 1)%nat then set_step (step s + 1) s else s.
Definition prev (s : WizardState) : WizardState := if (0 <? step s)%nat then set_step (step s - 1) s else s.
(** The buttons: Next, Skip, Back and the circles of the indicator. *)
Definition next_click (s : WizardState) : WizardState := if isLast s || negb (canNext s) then s else next s.
Definition skip_click (s : WizardState) : WizardState := if s_required (currentStep s) || isLast s then s else next s.
Definition prev_click (s : WizardState) : WizardState := if (step s =? 0)%nat then s else prev s.
Definition jump (i : nat) (s : WizardState) : WizardState := if (i <? step s)%nat then set_step i s else s.

(** ** Editing *)

Section wizard.
Context `{!AppEnv, !JSRuntime}.

(** A change of a field; each belongs to the step that shows the field. *)
Inductive edit :=
| EdDisplayName (v : jstr) | EdEmail (v : jstr) | EdPassword (v : jstr)
| EdOrgName (v : jstr) | EdSlug (v : jstr) | EdOrgLogo (v : jstr)
| EdHost (v : jstr) | EdPort (n : Z) | EdUsername (v : jstr) | EdSmtpPassword (v : jstr) | EdFrom (v : jstr) | EdFromName (v : jstr)
| EdProvider (v : jstr) | EdEndpoint (v : jstr) | EdBucket (v : jstr) | EdAccessKey (v : jstr) | EdSecretKey (v : jstr)
| EdRegion (v : jstr) | EdSsl (b : bool)
| EdDomain (v : jstr)
| EdTeam (v : jstr)
| EdLogo (v : jstr)
| EdAddInvite | EdInviteEmail (i : nat) (v : jstr) | EdInviteRole (i : nat) (v : jstr) | EdRemoveInvite (i : nat).
Definition edit_key (e : edit) : step_key :=
  match e with
  | EdDisplayName _ | EdEmail _ | EdPassword _ => KAdmin
  | EdOrgName _ | EdSlug _ | EdOrgLogo _ => KOrg
  | EdHost _ | EdPort _ | EdUsername _ | EdSmtpPassword _ | EdFrom _ | EdFromName _ => KSmtp
  | EdProvider _ | EdEndpoint _ | EdBucket _ | EdAccessKey _ | EdSecretKey _ | EdRegion _ | EdSsl _ => KStorage
  | EdDomain _ => KDomain
  | EdTeam _ => KTeam
  | EdLogo _ => KBranding
  | EdAddInvite | EdInviteEmail _ _ | EdInviteRole _ _ | EdRemoveInvite _ => KInvites
  end.
Definition edit_admin (e : edit) (a : AdminData) : AdminData :=
  match e with
  | EdDisplayName v => {| ad_email := ad_email a; ad_password := ad_password a; ad_display_name := v |}
  | EdEmail v => {| ad_email := v; ad_password := ad_password a; ad_display_name := ad_display_name a |}
  | EdPassword v => {| ad_email := ad_email a; ad_password := v; ad_display_name := ad_display_name a |}
  | _ => a
  end.
Definition edit_org (e : edit) (o : OrgData) : OrgData :=
  match e with
  | EdOrgName v => {| og_name := v; og_slug := og_slug o; og_logo_url := og_logo_url o |}
  | EdSlug v => {| og_name := og_name o; og_slug := v; og_logo_url := og_logo_url o |}
  | EdOrgLogo v => {| og_name := og_name o; og_slug := og_slug o; og_logo_url := v |}
  | _ => o
  end.
Definition edit_smtp (e : edit) (x : SmtpData) : SmtpData :=
  let '(Build_SmtpData h p u w f n) := x in
  match e with
  | EdHost v => Build_SmtpData v p u w f n
  | EdPort v => Build_SmtpData h v u w f n
  | EdUsername v => Build_SmtpData h p v w f n
  | EdSmtpPassword v => Build_SmtpData h p u v f n
  | EdFrom v => Build_SmtpData h p u w v n
  | EdFromName v => Build_SmtpData h p u w f v
  | _ => x
  end.
(** What the storage step shows while nothing is stored. *)
Definition storage_default : StorageData := {|
  sg_provider := "minio"; sg_endpoint := []; sg_access_key := []; sg_secret_key := []; sg_bucket := "burnerbyte"; sg_region := [];
  sg_use_ssl := false |}.
Definition shown_storage (d : SetupData) : StorageData := default storage_default (storage_cfg d).
Definition edit_storage (e : edit) (x : StorageData) : StorageData :=
  let '(Build_StorageData p n a k b r u) := x in
  match e with
  | EdProvider v => Build_StorageData v n a k b r u
  | EdEndpoint v => Build_StorageData p v a k b r u
  | EdAccessKey v => Build_StorageData p n v k b r u
  | EdSecretKey v => Build_StorageData p n a v b r u
  | EdBucket v => Build_StorageData p n a k v r u
  | EdRegion v => Build_StorageData p n a k b v u
  | EdSsl v => Build_StorageData p n a k b r v
  | _ => x
  end.
(** [invites[i] = { ...invites[i], ... }] for a row that is shown. *)
Definition edit_invites (e : edit) (l : list InviteData) : list InviteData :=
  match e with
  | EdAddInvite => l ++ [{| iv_email := []; iv_role := "member" |}]
  | EdInviteEmail i v => alter (λ x, {| iv_email := v; iv_role := iv_role x |}) i l
  | EdInviteRole i v => alter (λ x, {| iv_email := iv_email x; iv_role := v |}) i l
  | EdRemoveInvite i => delete i l
  | _ => l
  end.
Definition apply_edit (e : edit) (d : SetupData) : SetupData :=
  match edit_key e with
  | KAdmin => with_admin (edit_admin e (admin d)) d
  | KOrg => with_org (edit_org e (org d)) d
  | KSmtp => with_smtp (edit_smtp e (smtp d)) d
  | KStorage => with_storage_cfg (edit_storage e (shown_storage d)) d
  | KDomain => match e with EdDomain v => with_domain (sanitizeDomain v) d | _ => d end
  | KTeam => match e with EdTeam v => with_team (if truthy v then Some v else None) d | _ => d end
  | KBranding => match e with EdLogo v => with_branding v d | _ => d end
  | KInvites => with_invites (edit_invites e (invites d)) d
  | KReview => d
  end.
(** The inputs that exist: those of the step, the region only with S3, the rows
    of the list, the items of the two selects. *)
Definition edit_offered (s : WizardState) (e : edit) : bool :=
  bool_decide (edit_key e = current_key s) &&
  match e with
  | EdProvider v => bool_decide (v ∈ [js "minio"; js "s3"])
  | EdRegion _ => sg_provider (shown_storage (data s)) =?s "s3"
  | EdInviteEmail i _ | EdRemoveInvite i => (i <? length (invites (data s)))%nat
  | EdInviteRole i v => (i <? length (invites (data s)))%nat && bool_decide (v ∈ [js "admin"; js "member"])
  | _ => true
  end.

(** The hints below the inputs. *)
Definition email_hint (d : SetupData) : bool := truthy (ad_email (admin d)) && negb (test emailRegex (ad_email (admin d))).
Definition domain_hint (d : SetupData) : option jstr :=
  if negb (truthy (domain_name d)) then None
  else if includes (domain_name d) "." then Some (js "Valid domain format")
  else Some (js "Domain must contain at least one dot (e.g., mail.example.com)").

(** ** Calls *)

(** [err instanceof ApiError ? err.message : fallback]. *)
Definition api_message_or (fallback : jstr) (e : jserr) : jstr :=
  match e with ApiError m _ _ => m | PlainError _ => fallback end.

Definition text_of (v : option json) (k : jstr) : jstr := default [] (as_string (from_option (λ j, jfield j k) None v)).
(** [res.datastores ?? null]. *)
Definition datastores_of (v : option json) : option (jstr * jstr) :=
  match v with None | Some JNull => None | Some _ => Some (text_of v "postgres", text_of v "redis") end.
Definition check_status : M WizardState unit :=
  try_catch
    (res ← api_get "/setup/status" None;
     completed ← prop res "completed";
     if json_truthy completed then emit (EReplace "/login")
     else
       d ← prop res "datastores";
       modify (λ s, set_infra (healthStatus s) (datastores_of d) s);;
       modify (set_checking false))
    (λ _, modify (set_checking false)).

(** A policy as its type says; anything falsy is no policy. *)
Definition policy_of (v : option json) : option PasswordPolicy :=
  if negb (json_truthy v) then None
  else
    let get k := from_option (λ j, jfield j k) None v in
    Some {| min_length := match get "min_length" with Some (JNum n) => n | _ => 0%Z end;
            require_uppercase := json_truthy (get "require_uppercase"); require_lowercase := json_truthy (get "require_lowercase");
            require_number := json_truthy (get "require_number"); require_special := json_truthy (get "require_special") |}.
Definition load_policy : M WizardState unit :=
  try_catch
    (res ← api_get "/auth/sso-status" None;
     p ← prop res "password_policy";
     modify (set_policy (policy_of p)))
    (λ _, modify (set_policy None)).

Definition readyz_request : http_request := {|
  rq_url := API_ORIGIN ++ "/readyz"; rq_method := "GET"; rq_headers := []; rq_body := None; rq_credentials := false |}.
Definition check_health : M WizardState unit :=
  try_catch
    (r ← fetch readyz_request;
     j ← read_json r;
     pg ← prop (Some j) "postgres";
     rd ← prop (Some j) "redis";
     modify (λ s, set_infra (Some (bool_decide (pg = Some (JStr "ok")), bool_decide (rd = Some (JStr "ok")))) (datastores s) s))
    (λ _, modify (λ s, set_infra None (datastores s) s)).

Definition conn_result_of (v : option json) : ConnResult :=
  {| cr_success := json_truthy (from_option (λ j, jfield j "success") None v);
     cr_message := text_of v "message"; cr_response_time := text_of v "response_time" |}.
Definition conn_failed (e : jserr) : ConnResult := {| cr_success := false; cr_message := err_message e; cr_response_time := [] |}.
Definition finished (r : ConnResult) : ConnTest := {| ct_testing := false; ct_result := Some r |}.
Definition started : ConnTest := {| ct_testing := true; ct_result := None |}.
Definition set_smtpTest (t : ConnTest) (s : WizardState) : WizardState := set_conn t (storageTest s) s.
Definition set_storageTest (t : ConnTest) (s : WizardState) : WizardState := set_conn (smtpTest s) t s.

Definition smtp_test_body (x : SmtpData) : json := JObj [
  (js "host", JStr (sm_host x)); (js "port", JNum (sm_port x)); (js "username", JStr (sm_username x));
  (js "password", JStr (sm_password x)); (js "tls", JBool (sm_port x =? 465)%Z)].
Definition testSMTP (closure : WizardState) : M WizardState unit :=
  modify (set_smtpTest started);;
  try_catch
    (res ← api_post "/setup/test-smtp" (Some (smtp_test_body (smtp (data closure))));
     modify (set_smtpTest (finished (conn_result_of res))))
    (λ err, modify (set_smtpTest (finished (conn_failed err)))).
Definition testSMTP_click (closure : WizardState) : M WizardState unit :=
  let x := smtp (data closure) in
  if truthy (sm_host x) && (0 <? sm_port x)%Z && negb (ct_testing (smtpTest closure)) && bool_decide (current_key closure = KSmtp)
  then testSMTP closure else mret tt.

Definition storage_test_body (x : StorageData) : json := JObj [
  (js "endpoint", JStr (sg_endpoint x)); (js "access_key", JStr (sg_access_key x)); (js "secret_key", JStr (sg_secret_key x));
  (js "bucket", JStr (jor (sg_bucket x) "burnerbyte")); (js "use_ssl", JBool (sg_use_ssl x))].
Definition testStorage (closure : WizardState) : M WizardState unit :=
  match storage_cfg (data closure) with
  | None => mret tt
  | Some x =>
      if negb (truthy (sg_endpoint x)) then mret tt
      else
        modify (set_storageTest started);;
        try_catch
          (res ← api_post "/setup/test-storage" (Some (storage_test_body x));
           modify (set_storageTest (finished (conn_result_of res))))
          (λ err, modify (set_storageTest (finished (conn_failed err))))
  end.
Definition testStorage_click (closure : WizardState) : M WizardState unit :=
  if truthy (sg_endpoint (shown_storage (data closure))) && negb (ct_testing (storageTest closure))
     && bool_decide (current_key closure = KStorage)
  then testStorage closure else mret tt.
(** What is shown of a test. *)
Definition test_text (t : ConnTest) : option (jstr * jstr) :=
  (λ r, (if cr_success r then js "Connection successful" else js "Connection failed",
         cr_message r ++ (if truthy (cr_response_time r) then " (" ++ cr_response_time r ++ ")" else []))) <$> ct_result t.

(** *** Sending *)

Definition admin_json (a : AdminData) : json :=
  JObj [(js "email", JStr (ad_email a)); (js "password", JStr (ad_password a)); (js "display_name", JStr (ad_display_name a))].
(** [s || undefined]. *)
Definition or_undefined (s : jstr) : option json := if truthy s then Some (JStr s) else None.
Definition org_json (o : OrgData) : json :=
  jobj [(js "name", Some (JStr (og_name o))); (js "slug", or_undefined (og_slug o)); (js "logo_url", or_undefined (og_logo_url o))].
Definition smtp_json (x : SmtpData) : json := JObj [
  (js "host", JStr (sm_host x)); (js "port", JNum (sm_port x)); (js "username", JStr (sm_username x));
  (js "password", JStr (sm_password x)); (js "from_address", JStr (sm_from_address x)); (js "from_name", JStr (sm_from_name x))].
Definition storage_json (x : StorageData) : json := JObj [
  (js "provider", JStr (sg_provider x)); (js "endpoint", JStr (sg_endpoint x)); (js "access_key", JStr (sg_access_key x));
  (js "secret_key", JStr (sg_secret_key x)); (js "bucket", JStr (sg_bucket x)); (js "region", JStr (sg_region x));
  (js "use_ssl", JBool (sg_use_ssl x))].
Definition invite_json (i : InviteData) : json := JObj [(js "email", JStr (iv_email i)); (js "role", JStr (iv_role i))].
Definition sent_invites (d : SetupData) : list InviteData := List.filter (λ i, truthy (iv_email i)) (invites d).
Definition payload_entries (d : SetupData) : list (jstr * option json) := [
  (js "admin", Some (admin_json (admin d)));
  (js "org", Some (org_json (org d)));
  (js "smtp", Some (smtp_json (smtp d)));
  (js "domain", Some (JObj [(js "domain_name", JStr (domain_name d))]));
  (js "team", if otruthy (team d) then Some (JObj [(js "name", JStr (default [] (team d)))]) else None);
  (js "storage", x ← storage_cfg d; if truthy (sg_endpoint x) then Some (storage_json x) else None);
  (js "branding", if otruthy (branding d) then Some (jobj [(js "logo_url", or_undefined (default [] (branding d)))]) else None);
  (js "invites", if (0 <? length (invites d))%nat then Some (JArr (invite_json <$> sent_invites d)) else None);
  (js "use_cookie", Some (JBool true))].
Definition payload (d : SetupData) : json := jobj (payload_entries d).
Definition submit (closure : WizardState) : M WizardState unit :=
  modify (set_submitting true);;
  try_finally
    (try_catch
      (res ← api_post "/setup/complete" (Some (payload (data closure)));
       tokens ← prop res "tokens";
       t ← prop tokens "access_token";
       setAccessToken (token_of t);;
       setSessionHint true;;
       emit (EToastSuccess ("Setup complete! Redirecting" ++ ellipsis));;
       emit (ETimeout 1000))
      (λ err, emit (EToastError (api_message_or "Setup failed" err))))
    (modify (set_submitting false)).
(** What the timer does. *)
Definition submit_timeout : M WizardState unit := emit (ELocation "/inboxes").
Definition submit_click (closure : WizardState) : M WizardState unit :=
  if isLast closure && negb (submitting closure) then submit closure else mret tt.

(** ** The review *)

Record review_row := { rr_label : jstr; rr_value : jstr; rr_detail : option jstr }.
Definition review_required (d : SetupData) : list review_row := [
  {| rr_label := "Admin"; rr_value := ad_display_name (admin d); rr_detail := Some (ad_email (admin d)) |};
  {| rr_label := "Organization"; rr_value := og_name (org d); rr_detail := if truthy (og_slug (org d)) then Some (og_slug (org d)) else None |};
  {| rr_label := "Outbound SMTP"; rr_value := sm_host (smtp d) ++ ":" ++ show (sm_port (smtp d));
     rr_detail := Some ("From: " ++ sm_from_address (smtp d)) |};
  {| rr_label := "Domain"; rr_value := domain_name d; rr_detail := None |}].
Definition review_optional (d : SetupData) : list review_row :=
  (match storage_cfg d with
   | Some x => if truthy (sg_endpoint x)
               then [{| rr_label := "Storage"; rr_value := toUpperCase (sg_provider x) ++ [32; 8212; 32]%N ++ sg_endpoint x; rr_detail := None |}]
               else []
   | None => [] end) ++
  (if otruthy (team d) then [{| rr_label := "Team"; rr_value := default [] (team d); rr_detail := None |}] else []) ++
  (if otruthy (branding d) then [{| rr_label := "Logo"; rr_value := default [] (branding d); rr_detail := None |}] else []) ++
  (let n := length (sent_invites d) in
   if (0 <? n)%nat then [{| rr_label := "Invites"; rr_value := show_nat n ++ " user" ++ (if (1 <? n)%nat then js "s" else []); rr_detail := None |}] else []).
Definition step_counter (s : WizardState) : jstr := "Step " ++ show_nat (step s + 1) ++ " of " ++ show_nat (length STEPS).
Definition infra_banner (s : WizardState) : option jstr :=
  (λ '(pg, rd), if pg && rd then js "Infrastructure ready" else js "Infrastructure issue detected") <$> healthStatus s.

(** ** Runs of the wizard *)

(** What happens on the page: the answers of the three effects, and what the
    user does once the page is shown. *)
Inductive action :=
| AStatus | APolicy | AHealth | ATimer
| AEdit (e : edit) | ANext | ASkip | APrev | AJump (i : nat)
| ATestSMTP | ATestStorage | ASubmit.
Definition user_action (a : action) : bool :=
  match a with AStatus | APolicy | AHealth | ATimer => false | _ => true end.
Definition perform (a : action) : M WizardState unit :=
  s ← get_state;
  if checking s && user_action a then mret tt
  else match a with
       | AStatus => check_status
       | APolicy => load_policy
       | AHealth => check_health
       | ATimer => submit_timeout
       | AEdit e => if edit_offered s e then modify (set_data (apply_edit e (data s))) else mret tt
       | ANext => modify next_click
       | ASkip => modify skip_click
       | APrev => modify prev_click
       | AJump i => modify (jump i)
       | ATestSMTP => testSMTP_click s
       | ATestStorage => testStorage_click s
       | ASubmit => submit_click s
       end.
Inductive wizard_step : world WizardState → world WizardState → Prop :=
| Wizard_step a w : wizard_step w (snd (perform a w)).

(** The bodies that were sent to the server to complete the setup. *)
Definition complete_url : jstr := API_BASE ++ "/setup/complete".
Definition submitted_of (l : list http_request) : list json :=
  omap (λ r, if rq_url r =?s complete_url then rq_body r else None) l.
Definition submitted (w : world WizardState) : list json := submitted_of (sent_requests w).

(** ** The specification

    A form without steps.  It can be filled in freely and knows the policy of
    passwords that was last heard of, none at first.  Its account can be
    checked, against that policy, and has to be checked again once it was
    changed.  The form may be sent, with what it holds, while the account is
    checked and nothing required is missing; a call that finds the session
    expired is sent again, so the server sees it once or twice. *)
Record Form := { f_data : SetupData; f_policy : option PasswordPolicy; f_checked : bool; f_sent : list json }.
Definition account_ok (policy : option PasswordPolicy) (a : AdminData) : Prop :=
  ad_display_name a ≠ [] ∧ address_shape (ad_email a) ∧ password_allowed policy (ad_password a).
Definition filled_in (k : step_key) (d : SetupData) : Prop :=
  match k with
  | KOrg => og_name (org d) ≠ []
  | KSmtp => sm_host (smtp d) ≠ [] ∧ sm_port (smtp d) ≠ 0%Z ∧ sm_from_address (smtp d) ≠ []
  | KDomain => domain_name d ≠ []
  | _ => True
  end.
Definition form_complete (f : Form) : Prop := f_checked f = true ∧ ∀ k, filled_in k (f_data f).
Inductive form_step : Form → Form → Prop :=
| Form_wait f : form_step f f
| Form_account d f : form_step f {| f_data := d; f_policy := f_policy f; f_checked := false; f_sent := f_sent f |}
| Form_edit d f : admin d = admin (f_data f) →
    form_step f {| f_data := d; f_policy := f_policy f; f_checked := f_checked f; f_sent := f_sent f |}
| Form_policy p f : form_step f {| f_data := f_data f; f_policy := p; f_checked := f_checked f; f_sent := f_sent f |}
| Form_check f : account_ok (f_policy f) (admin (f_data f)) →
    form_step f {| f_data := f_data f; f_policy := f_policy f; f_checked := true; f_sent := f_sent f |}
| Form_send n f : 1 ≤ n ≤ 2 → form_complete f →
    form_step f {| f_data := f_data f; f_policy := f_policy f; f_checked := f_checked f;
                   f_sent := f_sent f ++ replicate n (payload (f_data f)) |}.
Definition form_init : Form := {| f_data := initialData; f_policy := None; f_checked := false; f_sent := [] |}.

(** The two side by side: with every step of the wizard the form makes one, and
    then shows the same data, knows the same policy and has sent the same. *)
Definition same_form (w : world WizardState) (f : Form) : Prop :=
  f_data f = data (st w) ∧ f_policy f = passwordPolicy (st w) ∧ f_sent f = submitted w.
Inductive side_by_side : world WizardState * Form → world WizardState * Form → Prop :=
| Side_by_side w w' f f' : wizard_step w w' → form_step f f' → same_form w' f' → side_by_side (w, f) (w', f').

(** How the wizard keeps to it: the steps behind the user have passed. *)
Record implements (w : world WizardState) (f : Form) : Prop := {
  im_same : same_form w f;
  im_range : step (st w) < length STEPS;
  im_checked : 0 < step (st w) → f_checked f = true;
  im_passed i x : STEPS !! i = Some x → i < step (st w) → filled_in (s_key x) (f_data f)
}.

(** *** What the handlers leave alone *)

(** [policy]: the policy too. *)
Record page_frame (policy : bool) (w w' : world WizardState) : Prop := {
  pf_data : data (st w') = data (st w);
  pf_step : step (st w') = step (st w);
  pf_policy : policy = true → passwordPolicy (st w') = passwordPolicy (st w);
  pf_sent : submitted w' = submitted w
}.
#[local] Instance page_frame_preorder b : PreOrder (page_frame b).
Proof. split; [by intros w; split|]. intros w1 w2 w3 [? ? H1 ?] [? ? H2 ?]. split; try congruence. intros Hb. by rw H2 // H1. Qed.
Lemma submitted_app l k : submitted_of (l ++ k) = submitted_of l ++ submitted_of k.
Proof. apply omap_app. Qed.
Lemma submitted_other l : Forall (λ r, rq_url r ≠ complete_url) l → submitted_of l = [].
Proof. unfold submitted_of. induction 1 as [|r l Hr _ IH]; [done|]. cbn. rw (proj2 (jeqb_neq _ _) Hr) IH //. Qed.
Lemma only_sends_submitted (w w' : world WizardState) :
  only_sends (λ r, rq_url r ≠ complete_url) w w' → submitted w' = submitted w.
Proof. intros (l & E & Hl). unfold submitted. by rw E submitted_app (submitted_other l) // app_nil_r. Qed.
Lemma refresh_url legacy : rq_url (refresh_request legacy) ≠ complete_url.
Proof. intros E%app_inv_head. vm_compute in E. discriminate. Qed.
Lemma page_frame_request b path opts :
  (∀ token, rq_url (build_request path opts token) ≠ complete_url) → preserves (page_frame b) (request path opts).
Proof.
  intros Hu w. pose proof (request_st path opts w) as E. split; [by rw E|by rw E|by intros _; rw E|].
  apply only_sends_submitted. apply only_sends_request; [done|]. intros r [legacy ->]. apply refresh_url.
Qed.
Lemma path_differs (path : jstr) : path ≠ js "/setup/complete" → API_BASE ++ path ++ [] ≠ complete_url.
Proof. intros Hp E%app_inv_head. apply Hp. by rw -E app_nil_r. Qed.
Lemma page_frame_get b path : path ≠ js "/setup/complete" → preserves (page_frame b) (api_get path None).
Proof. intros Hp. apply page_frame_request. intros token. by apply path_differs. Qed.
Lemma page_frame_send b m path body : path ≠ js "/setup/complete" → preserves (page_frame b) (api_send m path body).
Proof. intros Hp. apply page_frame_request. intros token. by apply path_differs. Qed.
Lemma page_frame_emit b e : (∀ r, e ≠ EFetch r) → preserves (page_frame b) (emit e).
Proof. intros He w. split; [done..|]. apply only_sends_submitted. by apply only_sends_emit. Qed.
Lemma page_frame_modify b f :
  (∀ s, data (f s) = data s ∧ step (f s) = step s ∧ (b = true → passwordPolicy (f s) = passwordPolicy s)) → preserves (page_frame b) (modify f).
Proof. intros Hf w. destruct (Hf (st w)) as (? & ? & ?). by split. Qed.
Lemma page_frame_browser b f : (∀ x, trace (f x) = trace x) → preserves (page_frame b) (modify_browser f).
Proof. intros Hf w. split; [done..|]. unfold submitted, sent_requests. cbn. by rw Hf. Qed.
Lemma page_frame_fetch b r : rq_url r ≠ complete_url → preserves (page_frame b) (fetch r).
Proof.
  intros Hr w. assert (page_frame b w (after_fetch r w)).
  { split; [done..|]. apply only_sends_submitted. exists [r]. rw sent_after_fetch. split; [done|by constructor]. }
  unfold fetch. by case_match.
Qed.
#[local] Hint Extern 2 (preserves (page_frame _) (api_get _ None)) => (apply page_frame_get; discriminate) : frame.
#[local] Hint Extern 2 (preserves (page_frame _) (api_post _ _)) => (apply page_frame_send; discriminate) : frame.
#[local] Hint Extern 2 (preserves (page_frame _) (emit _)) => (apply page_frame_emit; discriminate) : frame.
#[local] Hint Extern 2 (preserves (page_frame _) (modify _)) => (apply page_frame_modify; done) : frame.
#[local] Hint Extern 2 (preserves (page_frame _) (setAccessToken _)) => (apply page_frame_browser; done) : frame.
#[local] Hint Extern 2 (preserves (page_frame _) (storage_set _ _)) => (apply page_frame_browser; done) : frame.
#[local] Hint Extern 2 (preserves (page_frame _) (storage_remove _)) => (apply page_frame_browser; done) : frame.
Lemma check_status_frame : preserves (page_frame true) check_status.
Proof. unfold check_status. preserve. Qed.
Lemma load_policy_frame : preserves (page_frame false) load_policy.
Proof. unfold load_policy. preserve. Qed.
Lemma readyz_url : rq_url readyz_request ≠ complete_url.
Proof.
  intros E%(f_equal last). cbn [rq_url readyz_request] in E. unfold complete_url in E. rw !last_app in E.
  vm_compute in E. discriminate.
Qed.
Lemma check_health_frame : preserves (page_frame true) check_health.
Proof. unfold check_health. pose proof (page_frame_fetch true _ readyz_url). preserve. Qed.
Lemma testSMTP_frame c : preserves (page_frame true) (testSMTP_click c).
Proof. unfold testSMTP_click, testSMTP. preserve. Qed.
Lemma testStorage_frame c : preserves (page_frame true) (testStorage_click c).
Proof. unfold testStorage_click, testStorage. preserve. Qed.
(** *** Sending *)

Lemma submitted_bodies path opts token :
  path = js "/setup/complete" → o_params opts = None → submitted_of [build_request path opts token] = option_list (o_body opts).
Proof.
  intros -> Ho. unfold submitted_of. cbn. rw Ho app_nil_r. fold complete_url. rw jeqb_refl. by destruct (o_body opts).
Qed.
Lemma complete_sends body (w : world WizardState) :
  ∃ n, 1 ≤ n ≤ 2 ∧ submitted (snd (api_post "/setup/complete" (Some body) w)) = submitted w ++ replicate n body.
Proof.
  destruct (request_sends (S := WizardState) "/setup/complete"
    {| o_method := "POST"; o_headers := []; o_body := Some body; o_params := None |} w) as (l & E & Hl & _).
  unfold submitted, api_post, api_send. rw E submitted_app.
  assert (Hr : ∀ legacy, submitted_of [refresh_request legacy] = []) by (intros; apply submitted_other; repeat constructor; apply refresh_url).
  destruct Hl as [->|[->|[token ->]]].
  - exists 1. split; [lia|]. f_equal. by apply submitted_bodies.
  - exists 1. split; [lia|]. f_equal. rw (submitted_app [_] [_]) Hr submitted_bodies //.
  - exists 2. split; [lia|]. f_equal. rw (submitted_app [_] [_; _]) (submitted_app [_] [_]) Hr !submitted_bodies //.
Qed.
Lemma submit_sends (c : WizardState) (w : world WizardState) :
  ∃ n w1, 1 ≤ n ≤ 2 ∧ submitted w1 = submitted w ++ replicate n (payload (data c)) ∧
    data (st w1) = data (st w) ∧ step (st w1) = step (st w) ∧ passwordPolicy (st w1) = passwordPolicy (st w) ∧
    page_frame true w1 (snd (submit c w)).
Proof.
  set (w0 := World (brw w) (set_submitting true (st w))).
  destruct (complete_sends (payload (data c)) w0) as (n & Hn & E).
  pose proof (api_send_st "POST" "/setup/complete" (Some (payload (data c))) w0) as Est.
  exists n, (snd (api_post "/setup/complete" (Some (payload (data c))) w0)).
  split; [done|]. split; [done|]. unfold api_post in *. rw Est. split_and!; [done..|].
  unfold submit. unfold mbind at 1, M_bind at 1. cbn [modify]. fold w0. unfold api_post.
  apply (preserves_after (page_frame true)); [unfold setSessionHint|..]; preserve.
Qed.

(** ** The simulation *)

(** What the checks of the steps stand for. *)
Lemma section_ok_spec policy k d :
  section_ok policy k d = true ↔ match k with KAdmin => account_ok policy (admin d) | _ => filled_in k d end.
Proof.
  unfold account_ok.
  destruct k; cbn -[test passwordMeetsPolicy]; rw ?andb_true_iff ?truthy_nonempty ?emailRegex_shape ?passwordMeetsPolicy_allowed;
    rw ?negb_true_iff ?Z.eqb_neq; tauto.
Qed.
Lemma filled_in_edit e d k : k ≠ edit_key e → filled_in k d → filled_in k (apply_edit e d).
Proof. unfold apply_edit. by destruct e; destruct k. Qed.
Lemma admin_edit e d : edit_key e ≠ KAdmin → admin (apply_edit e d) = admin d.
Proof. unfold apply_edit. by destruct e. Qed.
Lemma STEPS_keys i j x y : STEPS !! i = Some x → STEPS !! j = Some y → s_key x = s_key y → i = j.
Proof.
  intros Hi Hj E. assert (Hk : NoDup (s_key <$> STEPS)) by (apply (bool_decide_unpack _); vm_compute; done).
  eapply NoDup_lookup; [done| |]; rewrite list_lookup_fmap; [by rewrite Hi|rewrite Hj; cbn; by f_equal].
Qed.
Lemma current_lookup s : step s < length STEPS → STEPS !! step s = Some (currentStep s).
Proof. intros Hs. unfold currentStep. destruct (lookup_lt_is_Some_2 STEPS (step s) Hs) as [x ->]. done. Qed.
Lemma current_admin s : step s < length STEPS → current_key s = KAdmin → step s = 0.
Proof. intros Hs Hk. eapply (STEPS_keys _ 0 _ _ (current_lookup _ Hs) eq_refl). done. Qed.
Lemma all_passed w f : implements w f → isLast (st w) = true → form_complete f.
Proof.
  intros [_ _ Hc Hp] Hl. unfold isLast in Hl. bool_to_prop. split; [apply Hc; cbn in *; lia|].
  assert (Hi : ∀ i x, STEPS !! i = Some x → i < length STEPS - 1 → filled_in (s_key x) (f_data f)).
  { intros i x Hx Hlt. apply (Hp i x Hx). lia. }
  pose proof (Hi 1 _ eq_refl ltac:(cbn; lia)). pose proof (Hi 2 _ eq_refl ltac:(cbn; lia)). pose proof (Hi 4 _ eq_refl ltac:(cbn; lia)).
  by intros [].
Qed.
(** With the check passed, or without one, the next step may be shown. *)
Lemma implements_next w f :
  implements w f → isLast (st w) = false → section_ok (passwordPolicy (st w)) (current_key (st w)) (data (st w)) = true →
  ∃ f', form_step f f' ∧ implements (World (brw w) (next (st w))) f'.
Proof.
  intros [(Hd & Hp & Hs) Hr Hc Hi] Hl Hok%section_ok_spec. unfold isLast in Hl. bool_to_prop.
  unfold next. rw (proj2 (Nat.ltb_lt (step (st w)) (length STEPS - 1))); [|lia].
  assert (Hpass : ∀ i x, STEPS !! i = Some x → i < step (st w) + 1 → filled_in (s_key x) (f_data f)).
  { intros i x Hx Hlt. destruct (decide (i = step (st w))) as [->|Hne]; [|apply (Hi i x Hx); lia].
    rewrite current_lookup // in Hx. injection Hx as <-. fold (current_key (st w)). rw Hd. by destruct (current_key (st w)). }
  destruct (decide (current_key (st w) = KAdmin)) as [Ek|Ek].
  - eexists. split; [apply Form_check; rw Hd Hp; by rw Ek in Hok|]. by split; [|cbn [st step set_step]; lia|..].
  - exists f. split; [apply Form_wait|]. split; [done|cbn [st step set_step]; lia| |done]. intros _. apply Hc.
    destruct (step (st w)) eqn:E; [|lia]. destruct Ek. unfold current_key, currentStep. by rw E.
Qed.
Lemma implements_back w f n : implements w f → n ≤ step (st w) → implements (World (brw w) (set_step n (st w))) f.
Proof.
  intros [Hsame Hr Hc Hi] Hn. split; [done| | |]; cbn [st step set_step]; [lia|intros Hl; apply Hc; lia|].
  intros i x Hx Hl. apply (Hi i x Hx). lia.
Qed.
Lemma implements_edit w f e :
  implements w f → edit_offered (st w) e = true →
  ∃ f', form_step f f' ∧ implements (World (brw w) (set_data (apply_edit e (data (st w))) (st w))) f'.
Proof.
  intros [(Hd & Hp & Hs) Hr Hc Hi] He. unfold edit_offered in He. bool_to_prop.
  assert (Hpass : ∀ i x, STEPS !! i = Some x → i < step (st w) → filled_in (s_key x) (apply_edit e (data (st w)))).
  { intros i x Hx Hl. apply filled_in_edit; [|rw -Hd; by apply (Hi i)]. intros Ek.
    assert (i = step (st w)); [|lia]. eapply STEPS_keys; [done|by apply current_lookup|]. fold (current_key (st w)). congruence. }
  destruct (decide (edit_key e = KAdmin)) as [Ea|Ea].
  - assert (step (st w) = 0) by (apply current_admin; [done|congruence]).
    eexists. split; [apply (Form_account (apply_edit e (data (st w))))|]. split; [done|done|cbn [st step set_data]; lia|done].
  - eexists. split; [apply (Form_edit (apply_edit e (data (st w)))); rw Hd; by apply admin_edit|]. by split.
Qed.
Lemma implements_frame w w' f : implements w f → page_frame true w w' → implements w' f.
Proof.
  intros [(Hd & Hp & Hs) Hr Hc Hi] [Fd Fs Fp Ft]. split; [|by rw Fs|by rw Fs|by rw Fs].
  split_and!; [congruence|by rw Fp|congruence].
Qed.
Lemma skip_ok s : s_required (currentStep s) = false → section_ok (passwordPolicy s) (current_key s) (data s) = true.
Proof.
  assert (Hf : Forall (λ x, s_required x = false → ∀ p d, section_ok p (s_key x) d = true) STEPS) by (repeat constructor; done).
  unfold current_key, currentStep. destruct (STEPS !! step s) as [x|] eqn:E; [|done]. cbn [default from_option id].
  intros Hr. by apply (proj1 (Forall_lookup _ _) Hf (step s)).
Qed.
Lemma wizard_simulates w w' f :
  wizard_step w w' → implements w f → ∃ f', form_step f f' ∧ implements w' f'.
Proof.
  intros [a w0] Hi. unfold perform. unfold mbind, M_bind. cbn [get_state].
  assert (stay : ∀ w1, page_frame true w0 w1 → ∃ f', form_step f f' ∧ implements w1 f').
  { intros w1 Hw. exists f. split; [apply Form_wait|by eapply implements_frame]. }
  assert (pure : ∀ t, implements (World (brw w0) t) f → ∃ f', form_step f f' ∧ implements (World (brw w0) t) f').
  { intros t Ht. exists f. by split; [apply Form_wait|]. }
  assert (same : ∃ f', form_step f f' ∧ implements (World (brw w0) (st w0)) f') by (apply pure; by destruct w0).
  destruct (checking (st w0) && user_action a); [by apply stay|].
  destruct a as [| | | |e| | | |i| | |].
  - apply stay, check_status_frame.
  - pose proof (load_policy_frame w0) as [Fd Fs _ Ft]. set (w1 := snd (load_policy w0)) in *. destruct Hi as [(Hd & Hp & Hs) Hr Hc Hi].
    eexists. split; [apply (Form_policy (passwordPolicy (st w1)))|]. split; [split_and!; cbn; congruence|by rw Fs|by rw Fs|by rw Fs].
  - apply stay, check_health_frame.
  - apply stay, page_frame_emit. discriminate.
  - destruct (edit_offered (st w0) e) eqn:E; [|by apply stay]. by apply implements_edit.
  - cbn [modify snd]. unfold next_click. destruct (isLast _ || negb (canNext (st w0))) eqn:E; [done|].
    bool_to_prop. by apply implements_next.
  - cbn [modify snd]. unfold skip_click. destruct (s_required _ || isLast _) eqn:E; [done|].
    bool_to_prop. apply implements_next; [done..|by apply skip_ok].
  - cbn [modify snd]. unfold prev_click, prev. destruct (step (st w0) =? 0), (0 <? step (st w0)); try done.
    apply pure, implements_back; [done|lia].
  - cbn [modify snd]. unfold jump. destruct (i <? step (st w0)) eqn:E; [|done]. bool_to_prop. apply pure, implements_back; [done|lia].
  - apply stay, testSMTP_frame.
  - apply stay, testStorage_frame.
  - unfold submit_click. destruct (isLast (st w0) && negb (submitting (st w0))) eqn:E; [|by apply stay]. bool_to_prop.
    destruct (submit_sends (st w0) w0) as (n & w1 & Hn & Es & E1 & E2 & E3 & Hf).
    eexists. split; [apply (Form_send n); [done|by eapply all_passed]|].
    destruct Hi as [(Hd & Hp & Hs) Hr Hc Hi]. eapply implements_frame; [|exact Hf].
    split; [split_and!; cbn; congruence|by rw E2|by rw E2|by rw E2].
Qed.
Lemma wizard_implements b w :
  sent_requests (World b wizard_init) = [] → rtc wizard_step (World b wizard_init) w →
  ∃ f, rtc side_by_side (World b wizard_init, form_init) (w, f) ∧ implements w f.
Proof.
  intros Hb. apply (rtc_ind_r (R := wizard_step)
    (λ w, ∃ f, rtc side_by_side (World b wizard_init, form_init) (w, f) ∧ implements w f) (World b wizard_init)).
  - exists form_init. split; [done|]. split; [|cbn; lia..]. split_and!; [done..|]. unfold submitted. by rw Hb.
  - intros y z _ Hyz (f & Hf & Hi). destruct (wizard_simulates _ _ _ Hyz Hi) as (f' & Hf' & Hi'). exists f'. split; [|done].
    eapply rtc_r; [exact Hf|]. by constructor; [..|apply Hi'].
Qed.
(** C24: the wizard refines a form without steps: whatever the user edits, skips,
    goes back to and sends, and in whatever order the answers of the server
    arrive, with each step of the wizard the form can make one that leads to
    the same data, the same known policy and the same bodies sent to complete
    the setup.  The form can be sent only while nothing required is missing and
    its account, with a name, an address and a password that the policy known
    at that moment allows, was checked after it was last changed; on the last
    step that is so. *)
Theorem wizard_refines_form (b : browser) (w : world WizardState) :
  sent_requests (World b wizard_init) = [] → rtc wizard_step (World b wizard_init) w →
  ∃ f, rtc side_by_side (World b wizard_init, form_init) (w, f) ∧ (isLast (st w) = true → form_complete f).
Proof.
  intros Hb Hw. destruct (wizard_implements b w Hb Hw) as (f & Hf & Hi). exists f. split; [done|]. by apply all_passed.
Qed.

(** *** The review and what is sent *)

Definition review_shows (d : SetupData) (label : jstr) : bool := existsb (λ r, rr_label r =?s label) (review_optional d).
Definition payload_has (d : SetupData) (k : jstr) : bool := bool_decide (jfield (payload d) k ≠ None).
Lemma jobj_field (l : list (jstr * option json)) k : NoDup l.*1 → jfield (jobj l) k = default None (map_get l k).
Proof.
  unfold jobj. cbn [jfield]. induction l as [|[k' v] l IH]; cbn; [done|]. intros [Hk Hl]%NoDup_cons.
  destruct v as [v|]; cbn; [case_decide; [done|by apply IH]|]. rewrite IH //.
  case_decide as Ek; [subst k'|done]. cbn. assert (Hn : map_get l k = None); [|by rewrite Hn].
  destruct (map_get l k) eqn:E; [|done]. destruct Hk. apply map_get_elem in E; [|done]. apply list_elem_of_fmap. by exists (k, o).
Qed.
Lemma payload_keys d : ∀ k v, map_get (payload_entries d) k = Some v → jfield (payload d) k = v.
Proof. intros k v E. unfold payload. rewrite jobj_field; [by rewrite E|]. apply (bool_decide_unpack _). vm_compute. done. Qed.
(** The review lists exactly what will be sent: a row for storage, a team or a
    logo if and only if the payload has it, and the number of invitations that
    are sent. *)
Theorem review_matches_payload (d : SetupData) :
  review_shows d "Storage" = payload_has d "storage" ∧
  review_shows d "Team" = payload_has d "team" ∧
  review_shows d "Logo" = payload_has d "branding" ∧
  (review_shows d "Invites" = false → default (JArr []) (jfield (payload d) "invites") = JArr []) ∧
  (review_shows d "Invites" = true → ∃ l, jfield (payload d) "invites" = Some (JArr l) ∧
     {| rr_label := "Invites"; rr_value := show_nat (length l) ++ " user" ++ (if (1 <? length l)%nat then js "s" else []); rr_detail := None |}
       ∈ review_optional d).
Proof.
  unfold payload_has.
  rewrite (payload_keys d (js "storage") _ eq_refl) (payload_keys d (js "team") _ eq_refl)
    (payload_keys d (js "branding") _ eq_refl) (payload_keys d (js "invites") _ eq_refl).
  unfold review_shows, review_optional.
  assert (Hn : sent_invites d = [] ∨ 0 < length (sent_invites d) ∧ 0 < length (invites d)).
  { unfold sent_invites. destruct (invites d) as [|i l]; [by left|]. destruct (List.filter _ _); [by left|right; cbn; lia]. }
  destruct Hn as [->|[Hs Hi]]; [|rewrite (proj2 (Nat.ltb_lt _ _) Hs) (proj2 (Nat.ltb_lt _ _) Hi)];
    destruct (storage_cfg d) as [x|]; [destruct (truthy (sg_endpoint x)) eqn:Ex| |destruct (truthy (sg_endpoint x)) eqn:Ex|];
    destruct (otruthy (team d)), (otruthy (branding d)); cbn [mbind option_bind]; rewrite ?Ex;
    (split_and!; [reflexivity..| |]; intros E; try (vm_compute in E; discriminate); clear E;
     first [by destruct (invites d)|eexists; split; [reflexivity|]; rewrite length_fmap; set_solver]).
Qed.

(** Skip leaves what was typed: a storage endpoint is sent although the step
    says that skipping uses the environment instead. *)
Theorem skip_keeps_storage (s : WizardState) (x : StorageData) :
  current_key s = KStorage → storage_cfg (data s) = Some x → truthy (sg_endpoint x) = true →
  step (skip_click s) = step s + 1 ∧ jfield (payload (data (skip_click s))) "storage" = Some (storage_json x).
Proof.
  unfold current_key. intros Hk Hx He.
  assert (E : step s = 3).
  { unfold currentStep in Hk. destruct (STEPS !! step s) as [y|] eqn:Ey; [|done]. by eapply (STEPS_keys _ 3 _ _ Ey eq_refl). }
  unfold skip_click, isLast, next, currentStep. rw E. split; [cbn; lia|].
  rewrite (payload_keys _ (js "storage") _ eq_refl). cbn. by rewrite Hx /= He.
Qed.

(** *** Sequences of actions *)
Definition run_actions (l : list action) (w : world WizardState) : world WizardState := foldl (λ w a, snd (perform a w)) w l.
Lemma wizard_run l w : rtc wizard_step w (run_actions l w).
Proof. revert w. induction l as [|a l IH]; intros w; [done|]. eapply rtc_l; [apply (Wizard_step a)|apply IH]. Qed.
End wizard.

(** ** Instances *)

Definition strict_policy : json := JObj [(js "min_length", JNum 12); (js "require_uppercase", JBool true)].
Definition setup_answers : list fetch_result := [
  answer 200 (JObj [(js "completed", JBool false)]);
  answer 200 (JObj [(js "password_policy", strict_policy)]);
  answer 201 (JObj [(js "tokens", JObj [(js "access_token", JStr "at")])])].
Definition setup_page : world WizardState := World (browser_on ∅ "/setup" setup_answers) wizard_init.
(** The policy arrives once the first step is left. *)
Definition hasty_setup : list action := [
  AStatus; AEdit (EdDisplayName "Ada"); AEdit (EdEmail "ada@example.org"); AEdit (EdPassword "x"); ANext; APolicy;
  AEdit (EdOrgName "Acme"); ANext; AEdit (EdHost "smtp.example.org"); AEdit (EdFrom "noreply@example.org"); ANext; ASkip;
  AEdit (EdDomain "localhost"); ANext; ASkip; ASkip; ASkip; ASubmit].
Definition setup_done : world WizardState := run_actions (H := default_env) (H0 := AsciiRuntime) hasty_setup setup_page.

(** The first step is checked against the policy known when it is left; a policy
    that arrives later is not applied, and the password is sent.  The domain has
    no dot: the hint calls it wrong and the step accepts it. *)
Theorem late_policy_not_applied :
  rtc (wizard_step (H := default_env) (H0 := AsciiRuntime)) setup_page setup_done ∧
  is_Some (passwordPolicy (st setup_done)) ∧
  passwordMeetsPolicy (ad_password (admin (data (st setup_done)))) (passwordPolicy (st setup_done)) = false ∧
  domain_hint (data (st setup_done)) = Some (js "Domain must contain at least one dot (e.g., mail.example.com)") ∧
  submitted (H := default_env) setup_done = [payload (data (st setup_done))] ∧
  accessToken (brw setup_done) = Some (js "at").
Proof.
  split; [apply wizard_run|]. split; [vm_compute; by eexists|]. split_and!; vm_compute; reflexivity.
Qed.
Lemma wizard_refines_form_witness :
  ∃ f, rtc (side_by_side (H := default_env) (H0 := AsciiRuntime)) (setup_page, form_init) (setup_done, f) ∧
    submitted (H := default_env) setup_done ≠ [] ∧ form_complete f.
Proof.
  destruct (wizard_refines_form (H := default_env) (H0 := AsciiRuntime) (browser_on ∅ "/setup" setup_answers) setup_done)
    as (f & Hf & Hc).
  - reflexivity.
  - apply (wizard_run (H := default_env) (H0 := AsciiRuntime) hasty_setup setup_page).
  - exists f. split; [exact Hf|]. split; [vm_compute; discriminate|]. apply Hc. vm_compute. reflexivity.
Defined.
