(* ===== verification/Invitation.v ===== *)
(** * Invitations: [web/src/app/invite/page.tsx]

    The page shows an invitation, signs its reader in or up, and accepts it on
    its own as soon as somebody is signed in.  Acceptance is a call that the
    effect starts and does not await; the second half of the file lets it
    overlap with everything else that happens to the page. *)

From S2P Require Import Prelude Browser Types ApiClient AuthStore React SignIn.

Record InvitePreview := {
  ip_email : jstr;
  ip_org_name : jstr;
  ip_org_role : jstr;
  ip_allowed_auth : option (list jstr);
  ip_team_assignments : option (list InviteTeamAssignment)
}.
Inductive invite_status := ILoading | IAuth | IAccepting | IAccepted | IMismatch | IError.
#[export] Instance invite_status_eq_dec : EqDecision invite_status.
Proof. solve_decision. Defined.
Inductive invite_mode := ModeLogin | ModeRegister.

Record InviteState := {
  iv_status : invite_status;
  iv_errorMsg : jstr;
  iv_mode : invite_mode;
  acceptingRef : bool;
  iv_password : jstr;
  iv_displayName : jstr;
  iv_submitting : bool;
  iv_auth : AuthState;
  iv_orgs : option json;                   (* the organisations of the store *)
  iv_session : gmap jstr jstr              (* sessionStorage *)
}.
Definition invite_init : InviteState := {|
  iv_status := ILoading; iv_errorMsg := []; iv_mode := ModeRegister; acceptingRef := false; iv_password := []; iv_displayName := [];
  iv_submitting := false; iv_auth := auth_init; iv_orgs := None; iv_session := ∅ |}.
Definition set_status (x : invite_status) (s : InviteState) : InviteState := {|
  iv_status := x; iv_errorMsg := iv_errorMsg s; iv_mode := iv_mode s; acceptingRef := acceptingRef s; iv_password := iv_password s;
  iv_displayName := iv_displayName s; iv_submitting := iv_submitting s; iv_auth := iv_auth s; iv_orgs := iv_orgs s; iv_session := iv_session s |}.
Definition set_error (m : jstr) (s : InviteState) : InviteState := {|
  iv_status := IError; iv_errorMsg := m; iv_mode := iv_mode s; acceptingRef := acceptingRef s; iv_password := iv_password s;
  iv_displayName := iv_displayName s; iv_submitting := iv_submitting s; iv_auth := iv_auth s; iv_orgs := iv_orgs s; iv_session := iv_session s |}.
Definition set_accepting (b : bool) (s : InviteState) : InviteState := {|
  iv_status := iv_status s; iv_errorMsg := iv_errorMsg s; iv_mode := iv_mode s; acceptingRef := b; iv_password := iv_password s;
  iv_displayName := iv_displayName s; iv_submitting := iv_submitting s; iv_auth := iv_auth s; iv_orgs := iv_orgs s; iv_session := iv_session s |}.
Definition set_form (m : invite_mode) (p n : jstr) (b : bool) (s : InviteState) : InviteState := {|
  iv_status := iv_status s; iv_errorMsg := iv_errorMsg s; iv_mode := m; acceptingRef := acceptingRef s; iv_password := p;
  iv_displayName := n; iv_submitting := b; iv_auth := iv_auth s; iv_orgs := iv_orgs s; iv_session := iv_session s |}.
Definition set_stores (a : AuthState) (o : option json) (x : gmap jstr jstr) (s : InviteState) : InviteState := {|
  iv_status := iv_status s; iv_errorMsg := iv_errorMsg s; iv_mode := iv_mode s; acceptingRef := acceptingRef s; iv_password := iv_password s;
  iv_displayName := iv_displayName s; iv_submitting := iv_submitting s; iv_auth := a; iv_orgs := o; iv_session := x |}.
Definition set_submitting (b : bool) (s : InviteState) : InviteState := set_form (iv_mode s) (iv_password s) (iv_displayName s) b s.
Definition set_mode (m : invite_mode) (s : InviteState) : InviteState := set_form m (iv_password s) (iv_displayName s) (iv_submitting s) s.
Definition set_auth (a : AuthState) (s : InviteState) : InviteState := set_stores a (iv_orgs s) (iv_session s) s.

(** What a render is given: the address and the two queries. *)
Record InviteEnv := {
  token : option jstr;
  preview : option InvitePreview;
  previewError : option jserr;
  previewLoading : bool;
  sso : option SSOStatus
}.

(** ** Which ways to sign in are offered *)

Definition isAuthAllowed (allowedAuth : option (list jstr)) (method : jstr) : bool :=
  match allowedAuth with
  | None | Some [] => true
  | Some l => set_has l (js "any") || set_has l method
  end.
Definition allowedAuth (e : InviteEnv) : option (list jstr) := preview e ≫= ip_allowed_auth.
Definition showAllAuth (e : InviteEnv) : bool :=
  match allowedAuth e with None | Some [] => true | Some l => set_has l (js "any") end.
Definition showPasswordForm (e : InviteEnv) : bool := showAllAuth e || isAuthAllowed (allowedAuth e) "password".
Definition allSSOProviders (e : InviteEnv) : list SSOStatusProvider := List.filter sp_enabled (default [] (sso e ≫= sso_providers)).
Definition visibleSSOProviders (e : InviteEnv) : list SSOStatusProvider :=
  if showAllAuth e then allSSOProviders e
  else List.filter (λ p, isAuthAllowed (allowedAuth e) ("sso:" ++ sp_name p)) (allSSOProviders e).
Definition ssoEnabled (e : InviteEnv) : bool := from_option sso_enabled false (sso e).
Definition showSSO (e : InviteEnv) : bool := ssoEnabled e && (0 <? length (visibleSSOProviders e))%nat.
Definition enforceSSO (e : InviteEnv) : bool := default false (sso e ≫= enforce_sso).
Definition allowReg (e : InviteEnv) : bool := from_option allow_registration true (sso e).

(** The card of the form: the password form with its button and whether the
    other mode is offered, the providers, the note that there is no way in. *)
Record auth_view := {
  av_title : jstr;
  av_teams : list jstr;
  av_password_form : option (jstr * bool * bool);
  av_providers : list jstr;
  av_no_method : bool
}.
Definition auth_card (e : InviteEnv) (s : InviteState) : auth_view := {|
  av_title := "Join " ++ from_option ip_org_name [] (preview e);
  av_teams := (λ t, InviteTeamAssignment_team_name t ++ [32; 183; 32]%N ++ InviteTeamAssignment_team_role t)
              <$> default [] (preview e ≫= ip_team_assignments);
  av_password_form :=
    if showPasswordForm e && negb (enforceSSO e)
    then Some (match iv_mode s with ModeRegister => js "Create account & join" | ModeLogin => js "Sign in & join" end,
               iv_submitting s, match iv_mode s with ModeRegister => true | ModeLogin => allowReg e end)
    else None;
  av_providers := if showSSO e then (λ p, "Continue with " ++ sp_label p) <$> visibleSSOProviders e else [];
  av_no_method := negb (showPasswordForm e) && negb (showSSO e)
|}.
(** What is shown; the card of the form is the last choice. *)
Inductive invite_view := VSpinner | VFailed (m : jstr) | VMismatch (invited signed_in : option jstr) | VJoining (org : jstr) | VWelcome (org role : jstr) | VAuth (c : auth_view).
Definition user_email (s : InviteState) : option jstr := as_string (u ← user (iv_auth s); jfield u "email").
Definition InvitePage (e : InviteEnv) (s : InviteState) : invite_view :=
  if bool_decide (iv_status s = ILoading) || loading (iv_auth s) then VSpinner
  else match iv_status s with
       | IError => VFailed (jor (iv_errorMsg s) "This invite link is invalid or has expired.")
       | IMismatch => VMismatch (ip_email <$> preview e) (user_email s)
       | IAccepting => VJoining (from_option ip_org_name (js "the organization") (preview e))
       | IAccepted => VWelcome (from_option ip_org_name [] (preview e)) (from_option ip_org_role [] (preview e))
       | _ => VAuth (auth_card e s)
       end.

Section invitation.
Context `{!AppEnv, !JSRuntime}.

(** ** Effects and handlers *)

(** The reasons a preview or an acceptance is refused for. *)
Definition mentions (m sub : jstr) : bool := includes (toLowerCase m) sub.
Definition preview_error_effect (err : option jserr) (s : InviteState) : InviteState :=
  match err with
  | None => s
  | Some err =>
      let msg := err_message err in
      set_error (if mentions msg "expired" then "This invite has expired. Please ask the admin to send a new one."
                 else if mentions msg "accepted" then "This invite has already been accepted."
                 else "This invite link is invalid or has expired.") s
  end.
(** The effect that decides; the flag says that it starts an acceptance. *)
Definition decide_state (e : InviteEnv) (s : InviteState) : InviteState * bool :=
  if loading (iv_auth s) || previewLoading e then (s, false)
  else if negb (otruthy (token e)) then (set_error "No invite token found." s, false)
  else match previewError e, preview e with
       | Some _, _ | None, None => (s, false)
       | None, Some _ =>
           match user (iv_auth s) with
           | Some _ => if acceptingRef s then (s, false) else (set_status IAccepting (set_accepting true s), true)
           | None => (set_status IAuth s, false)
           end
       end.

Definition accept_failed (err : jserr) (s : InviteState) : InviteState :=
  let msg := err_message err in
  if mentions msg "email mismatch" || mentions msg "different email" then set_status IMismatch s
  else set_error (if mentions msg "expired" then "This invite has expired."
                  else if mentions msg "not found" then "This invite is no longer valid."
                  else msg) s.
(** [fetchOrgs] of the store. *)
Definition fetch_orgs : M InviteState unit :=
  res ← api_get "/orgs" None;
  d ← prop res "data";
  modify (λ s, set_stores (iv_auth s) (match d with None | Some JNull => Some (JArr []) | v => v end) (iv_session s) s).
Definition acceptInvite (e : InviteEnv) : M InviteState unit :=
  try_catch
    (_ ← api_post ("/invites/" ++ default (js "null") (token e) ++ "/accept") None;
     fetch_orgs;;
     modify (set_status IAccepted);;
     emit (EToastSuccess "Welcome to the organization!"))
    (λ err, modify (accept_failed err)).
Definition decide_effect (e : InviteEnv) : M InviteState unit :=
  s ← get_state;
  modify (λ s, fst (decide_state e s));;
  if snd (decide_state e s) then acceptInvite e else mret tt.
(** The redirection after three seconds, and the timer behind it. *)
Definition REDIRECT_DELAY_MS : Z := 3000.
Definition accepted_effect (s : InviteState) : M InviteState unit :=
  if bool_decide (iv_status s = IAccepted) then emit (ETimeout REDIRECT_DELAY_MS) else mret tt.
Definition accepted_timeout : M InviteState unit := emit (EReplace "/").

Definition in_store {A} : M AuthState A → M InviteState A := zoom iv_auth set_auth.
Definition handleSubmit (e : InviteEnv) (closure : InviteState) : M InviteState unit :=
  match preview e with
  | None => mret tt
  | Some p =>
      modify (set_submitting true);;
      try_catch
        (match iv_mode closure with
         | ModeRegister => in_store (register (ip_email p) (iv_password closure) (iv_displayName closure) (token e))
         | ModeLogin => in_store (login (ip_email p) (iv_password closure))
         end)
        (λ err,
          let msg := err_message err in
          (match iv_mode closure with
           | ModeRegister =>
               if mentions msg "already registered"
               then modify (set_mode ModeLogin);; emit (EToastError "This email already has an account. Please sign in instead.")
               else emit (EToastError msg)
           | ModeLogin => emit (EToastError msg)
           end);;
          modify (set_submitting false))
  end.
(** The button of the form; the inputs are required. *)
Definition submit_click (e : InviteEnv) (closure : InviteState) : M InviteState unit :=
  if iv_submitting closure || negb (truthy (iv_password closure))
     || match iv_mode closure with ModeRegister => negb (truthy (iv_displayName closure)) | ModeLogin => false end
  then mret tt else handleSubmit e closure.
Definition handleSSO (e : InviteEnv) (providerName : jstr) : M InviteState unit :=
  (if otruthy (token e)
   then modify (λ s, set_stores (iv_auth s) (iv_orgs s) (<[js "pending_invite_token" := default [] (token e)]> (iv_session s)) s)
   else mret tt);;
  emit (ELocation (API_BASE ++ "/auth/sso/" ++ providerName)).
Definition pending_effect (e : InviteEnv) : M InviteState unit :=
  s ← get_state;
  match user (iv_auth s), otruthy (token e) with
  | Some _, false =>
      match iv_session s !! js "pending_invite_token" with
      | Some ((_ :: _) as pending) =>
          modify (λ s, set_stores (iv_auth s) (iv_orgs s) (delete (js "pending_invite_token") (iv_session s)) s);;
          emit (ELocation ("/invite?token=" ++ pending))
      | _ => mret tt
      end
  | _, _ => mret tt
  end.
Definition handleLogoutAndRetry : M InviteState unit :=
  in_store logout;;
  modify (set_accepting false);;
  modify (set_status IAuth).

(** ** Acceptance among everything else

    [pending] acceptances are under way, [made] were started and [retries]
    times the reader signed out to try again.  Renders may find any new answer
    of the queries and any change of the session; the two effects run after
    each. *)
Record invite_sys := InviteSys { page : InviteState; pending : nat; made : nat; retries : nat }.
Definition after_render (e : InviteEnv) (x : invite_sys) : invite_sys :=
  let '(s, go) := decide_state e (preview_error_effect (previewError e) (page x)) in
  InviteSys s (pending x + Nat.b2n go) (made x + Nat.b2n go) (retries x).
Inductive invite_step : invite_sys → invite_sys → Prop :=
| is_render e a x : invite_step x (after_render e (InviteSys (set_auth a (page x)) (pending x) (made x) (retries x)))
| is_accepted s p m r : invite_step (InviteSys s (S p) m r) (InviteSys (set_status IAccepted s) p m r)
| is_failed err s p m r : invite_step (InviteSys s (S p) m r) (InviteSys (accept_failed err s) p m r)
| is_form md pw nm b x : invite_step x (InviteSys (set_form md pw nm b (page x)) (pending x) (made x) (retries x))
| is_retry a x : iv_status (page x) = IMismatch →
    invite_step x (InviteSys (set_status IAuth (set_accepting false (set_auth a (page x)))) (pending x) (made x) (S (retries x))).

Lemma decide_starts e s :
  snd (decide_state e s) = true ↔
  loading (iv_auth s) = false ∧ previewLoading e = false ∧ otruthy (token e) = true ∧ previewError e = None ∧
  is_Some (preview e) ∧ is_Some (user (iv_auth s)) ∧ acceptingRef s = false.
Proof.
  unfold decide_state. destruct (loading (iv_auth s)), (previewLoading e), (otruthy (token e)), (previewError e), (preview e),
    (user (iv_auth s)), (acceptingRef s); cbn; rw ?is_Some_alt; intuition congruence.
Qed.
Definition invite_inv (x : invite_sys) : Prop :=
  pending x ≤ 1 ∧ (pending x = 1 → acceptingRef (page x) = true ∧ iv_status (page x) ≠ IMismatch) ∧
  made x ≤ retries x + Nat.b2n (acceptingRef (page x)).
Lemma decide_ref e s : acceptingRef (fst (decide_state e s)) = acceptingRef s || snd (decide_state e s).
Proof. unfold decide_state. repeat case_match; cbn; rw ?orb_false_r //; by rw orb_true_r. Qed.
Lemma decide_mismatch e s : iv_status (fst (decide_state e s)) = IMismatch → iv_status s = IMismatch ∧ snd (decide_state e s) = false.
Proof. unfold decide_state. repeat case_match; cbn; try done. Qed.
Lemma error_effect_frame err s :
  acceptingRef (preview_error_effect err s) = acceptingRef s ∧ (iv_status (preview_error_effect err s) = IMismatch → iv_status s = IMismatch).
Proof. by destruct err. Qed.
Lemma accept_failed_ref err s : acceptingRef (accept_failed err s) = acceptingRef s.
Proof. unfold accept_failed. by case_match. Qed.
Lemma invite_inv_step x y : invite_step x y → invite_inv x → invite_inv y.
Proof.
  intros Hs (H1 & H2 & H3). destruct Hs as [e a x|s p m r|err s p m r|md pw nm b x|a x Hm]; cbn in *.
  - unfold after_render. cbn [page pending made retries]. set (s := preview_error_effect (previewError e) (set_auth a (page x))).
    destruct (error_effect_frame (previewError e) (set_auth a (page x))) as [Er Em]. fold s in Er, Em. cbn in Er, Em.
    pose proof (decide_ref e s) as Hr. pose proof (decide_mismatch e s) as Hd. pose proof (decide_starts e s) as Hg.
    destruct (decide_state e s) as [s' go]. cbn in *. unfold invite_inv. cbn.
    destruct go; cbn in *.
    + destruct (proj1 Hg eq_refl) as (_ & _ & _ & _ & _ & _ & Hf). rw -Er Hf in H2 H3. rw Hr orb_true_r.
      assert (pending x = 0) as -> by (destruct (pending x) as [|[]]; [done|by destruct (H2 eq_refl)|lia]).
      split_and!; [lia|intros _; split; [done|]; intros E; by destruct (Hd E)|cbn in *; lia].
    + rw Hr orb_false_r Er !Nat.add_0_r. split_and!; [done| |done]. intros Hp. destruct (H2 Hp) as [? Hn]. split; [done|].
      intros E. apply Hn, Em. by apply Hd.
  - split_and!; cbn; [lia|lia|done].
  - rw /invite_inv /= accept_failed_ref. split_and!; [lia|lia|done].
  - by split_and!.
  - assert (pending x = 0) as E by (destruct (pending x) as [|[]]; [done|by destruct (H2 eq_refl)|lia]).
    split_and!; cbn; [lia|lia|]. destruct (acceptingRef (page x)); cbn in H3; lia.
Qed.
(** C25: however renders, answers and attempts to sign in overlap, at most one
    acceptance is under way, there is at most one more than there were
    attempts with another account, and the effect starts one exactly when an
    invitation is loaded, somebody is signed in and none was started. *)
Theorem accept_exclusive (e : InviteEnv) (x : invite_sys) :
  rtc invite_step (InviteSys invite_init 0 0 0) x →
  pending x ≤ 1 ∧ made x ≤ retries x + 1 ∧
  (snd (decide_state e (page x)) = true ↔
     loading (iv_auth (page x)) = false ∧ previewLoading e = false ∧ otruthy (token e) = true ∧ previewError e = None ∧
     is_Some (preview e) ∧ is_Some (user (iv_auth (page x))) ∧ acceptingRef (page x) = false).
Proof.
  intros Hx. assert (Hi : invite_inv x).
  { revert Hx. apply (rtc_ind_r (R := invite_step) invite_inv (InviteSys invite_init 0 0 0)); [by split_and!; cbn; [lia| |lia]|].
    intros y z _ Hyz. by apply invite_inv_step. }
  destruct Hi as (H1 & _ & H3). split_and!; [done|destruct (acceptingRef (page x)); cbn in H3; lia|apply decide_starts].
Qed.

(** ** Ways in *)

Lemma set_has_spec (l : list jstr) x : set_has l x = true ↔ x ∈ l.
Proof. unfold set_has. apply bool_decide_eq_true. Qed.
(** What an invitation permits: everything without a list, or with any in it. *)
Definition permits (l : option (list jstr)) (m : jstr) : Prop :=
  match l with None | Some [] => True | Some l => js "any" ∈ l ∨ m ∈ l end.
Lemma isAuthAllowed_spec l m : isAuthAllowed l m = true ↔ permits l m.
Proof. destruct l as [[|x l]|]; cbn [isAuthAllowed permits]; [done| |done]. by rw orb_true_iff !set_has_spec. Qed.
Lemma showAllAuth_permits e m : showAllAuth e = true → permits (allowedAuth e) m.
Proof. unfold showAllAuth. destruct (allowedAuth e) as [[|x l]|]; cbn [permits]; [done| |done]. rw set_has_spec. by left. Qed.
(** The form offers a password exactly when the invitation permits one and
    single sign-on is not enforced, and exactly the enabled providers that the
    invitation permits. *)
Theorem offered_methods (e : InviteEnv) (s : InviteState) :
  (is_Some (av_password_form (auth_card e s)) ↔ permits (allowedAuth e) "password" ∧ enforceSSO e = false) ∧
  (∀ p, p ∈ visibleSSOProviders e ↔
     p ∈ default [] (sso e ≫= sso_providers) ∧ sp_enabled p = true ∧ permits (allowedAuth e) ("sso:" ++ sp_name p)).
Proof.
  split.
  - cbn [auth_card av_password_form]. unfold showPasswordForm. rw -isAuthAllowed_spec.
    assert (Ha : showAllAuth e = true → isAuthAllowed (allowedAuth e) "password" = true) by (intros; by apply isAuthAllowed_spec, showAllAuth_permits).
    rw is_Some_alt. destruct (showAllAuth e), (isAuthAllowed (allowedAuth e) "password"), (enforceSSO e); cbn; intuition congruence.
  - intros p. unfold visibleSSOProviders. destruct (showAllAuth e) eqn:E.
    + unfold allSSOProviders. rw elem_of_List_filter_any. pose proof (showAllAuth_permits e ("sso:" ++ sp_name p) E). tauto.
    + unfold allSSOProviders. rw !elem_of_List_filter_any isAuthAllowed_spec. tauto.
Qed.
(** With single sign-on enforced and no provider to show, a card that permits a
    password is empty: neither form nor provider, and no note either. *)
Theorem empty_card (e : InviteEnv) (s : InviteState) :
  enforceSSO e = true → showPasswordForm e = true → showSSO e = false →
  av_password_form (auth_card e s) = None ∧ av_providers (auth_card e s) = [] ∧ av_no_method (auth_card e s) = false.
Proof. intros H1 H2 H3. cbn. by rw H1 H2 H3. Qed.

(** ** Answers that go wrong *)

(** A login that meets the session limit is not an error for the handler: no
    message is shown, and the button stays disabled with nobody signed in. *)
Theorem submit_conflict_sticks (e : InviteEnv) (p : InvitePreview) (c : InviteState) (m : jstr) (o : list (jstr * json)) (w : world InviteState) w1 :
  preview e = Some p → iv_mode c = ModeLogin →
  api_post "/auth/login" (Some (login_body (ip_email p) (iv_password c))) (World (brw w) (iv_auth (st w)))
    = (inl (ApiError m 409 (Some (JObj o))), w1) →
  let '(r, w') := submit_click e (set_submitting false c) w in
  r = inr tt ∧ (truthy (iv_password c) = true →
    iv_submitting (st w') = true ∧ user (iv_auth (st w')) = user (st w1) ∧ brw w' = brw w1).
Proof.
  intros Hp Hm Ha. unfold submit_click. cbn [iv_submitting set_submitting set_form iv_mode iv_password iv_displayName orb]. rw Hm orb_false_r.
  destruct (truthy (iv_password c)) eqn:Ht; cbn [negb]; [|done].
  unfold handleSubmit. rw Hp. cbn [iv_mode set_submitting set_form iv_password]. rw Hm.
  unfold mbind, M_bind, try_catch, modify, in_store, zoom. cbn [brw st iv_auth set_submitting set_form].
  by rw (login_conflict _ _ _ _ _ _ Ha).
Qed.
(** An acceptance the server made counts as failed when the list of
    organisations cannot be loaded after it. *)
Theorem accepted_reported_failed (e : InviteEnv) (r : option json) (err : jserr) (w w1 w2 : world InviteState) :
  api_post ("/invites/" ++ default (js "null") (token e) ++ "/accept") None w = (inr r, w1) →
  api_get "/orgs" None w1 = (inl err, w2) →
  acceptInvite e w = (inr tt, World (brw w2) (accept_failed err (st w2))) ∧ iv_status (accept_failed err (st w2)) ∈ [IError; IMismatch].
Proof.
  intros Ha Ho. split; [|unfold accept_failed; case_match; cbn; set_solver].
  unfold acceptInvite, fetch_orgs, try_catch, mbind, M_bind. by rw Ha Ho.
Qed.
(** Signing out to try again leaves the page: the store goes to the login page,
    which knows nothing of the invitation. *)
Theorem retry_leaves_page (w : world InviteState) :
  has_window (brw w) = true →
  let '(r, w') := handleLogoutAndRetry w in
  r = inr tt ∧ last (trace (brw w')) = Some (ELocation "/login") ∧ iv_session (st w') = iv_session (st w) ∧
  user (iv_auth (st w')) = None.
Proof.
  intros Hw. unfold handleLogoutAndRetry, in_store, zoom, mbind, M_bind.
  pose proof (logout_state (World (brw w) (iv_auth (st w))) Hw) as Hl. destruct (logout _) as [r w']. by destruct Hl as (-> & Hu & _ & _ & Ht).
Qed.
End invitation.

(** ** Instances *)

Definition an_invite : InviteEnv := {|
  token := Some (js "t"); preview := Some {| ip_email := "a@b.c"; ip_org_name := "Acme"; ip_org_role := "member";
    ip_allowed_auth := None; ip_team_assignments := None |};
  previewError := None; previewLoading := false; sso := None |}.
Definition signed_in_auth : AuthState := {| user := Some (JObj []); loading := false; sessionConflict := None |}.
Definition joining : invite_sys := after_render (H0 := AsciiRuntime) an_invite (InviteSys (set_auth signed_in_auth invite_init) 0 0 0).
Lemma accept_exclusive_witness :
  pending joining = 1 ∧ made joining ≤ retries joining + 1 ∧ snd (decide_state an_invite (page joining)) = false.
Proof.
  destruct (accept_exclusive (H0 := AsciiRuntime) an_invite joining) as (_ & Hm & _).
  - apply rtc_once. apply (is_render (H0 := AsciiRuntime) an_invite signed_in_auth (InviteSys invite_init 0 0 0)).
  - split; [reflexivity|]. split; [exact Hm|reflexivity].
Defined.
Lemma submit_conflict_sticks_witness :
  let s := set_form ModeLogin (js "pw") [] false invite_init in
  iv_submitting (st (snd (submit_click (H := default_env) (H0 := AsciiRuntime) an_invite s
    (World (browser_on ∅ "/invite" [answer 409 (JObj [])]) s)))) = true.
Proof.
  intros s. set (w := World (browser_on ∅ "/invite" [answer 409 (JObj [])]) s).
  pose proof (submit_conflict_sticks (H := default_env) (H0 := AsciiRuntime) an_invite _ s [] [] w
    (snd (api_post (H := default_env) "/auth/login" (Some (login_body "a@b.c" "pw")) (World (brw w) (iv_auth s)))) eq_refl eq_refl) as H.
  specialize (H ltac:(vm_compute; reflexivity)). change (set_submitting false s) with s in H.
  destruct (submit_click (H := default_env) (H0 := AsciiRuntime) an_invite s w) as [r w']. destruct H as [_ H].
  exact (proj1 (H eq_refl)).
Defined.
