(* ===== verification/Onboarding.v ===== *)
(** * Onboarding: [web/src/app/onboarding/page.tsx]

    Five steps that create an organisation, a domain, a team and an inbox, each
    with a call of its own; later steps use what earlier ones created. *)

From S2P Require Import Prelude Browser ApiClient React.

Definition STEPS : list jstr := js <$> ["Organization"; "Domain"; "Team"; "Inbox"; "Done"]%string.

(** Answers are kept as the server sent them; [None] is null or undefined. *)
Record OnboardingState := {
  step : nat;
  busy : bool;
  org : option json;
  domainId : option json;
  domainName : option json;
  verificationRecord : option json;
  team : option json;
  assignmentId : option json;
  inboxAddress : option json;
  orgName : jstr;
  domainInput : jstr;
  teamName : jstr;
  copied : bool
}.
Definition onboarding_init : OnboardingState := {|
  step := 0; busy := false; org := None; domainId := None; domainName := Some (JStr []); verificationRecord := Some (JStr []);
  team := None; assignmentId := None; inboxAddress := None; orgName := []; domainInput := []; teamName := []; copied := false |}.
Definition set_step (n : nat) (s : OnboardingState) : OnboardingState := {|
  step := n; busy := busy s; org := org s; domainId := domainId s; domainName := domainName s; verificationRecord := verificationRecord s;
  team := team s; assignmentId := assignmentId s; inboxAddress := inboxAddress s; orgName := orgName s; domainInput := domainInput s;
  teamName := teamName s; copied := copied s |}.
Definition set_busy (b : bool) (s : OnboardingState) : OnboardingState := {|
  step := step s; busy := b; org := org s; domainId := domainId s; domainName := domainName s; verificationRecord := verificationRecord s;
  team := team s; assignmentId := assignmentId s; inboxAddress := inboxAddress s; orgName := orgName s; domainInput := domainInput s;
  teamName := teamName s; copied := copied s |}.
Definition set_org (o : option json) (s : OnboardingState) : OnboardingState := {|
  step := step s; busy := busy s; org := o; domainId := domainId s; domainName := domainName s; verificationRecord := verificationRecord s;
  team := team s; assignmentId := assignmentId s; inboxAddress := inboxAddress s; orgName := orgName s; domainInput := domainInput s;
  teamName := teamName s; copied := copied s |}.
Definition set_domain (i n r : option json) (s : OnboardingState) : OnboardingState := {|
  step := step s; busy := busy s; org := org s; domainId := i; domainName := n; verificationRecord := r;
  team := team s; assignmentId := assignmentId s; inboxAddress := inboxAddress s; orgName := orgName s; domainInput := domainInput s;
  teamName := teamName s; copied := copied s |}.
Definition set_team (t : option json) (s : OnboardingState) : OnboardingState := {|
  step := step s; busy := busy s; org := org s; domainId := domainId s; domainName := domainName s; verificationRecord := verificationRecord s;
  team := t; assignmentId := assignmentId s; inboxAddress := inboxAddress s; orgName := orgName s; domainInput := domainInput s;
  teamName := teamName s; copied := copied s |}.
Definition set_results (a i : option json) (s : OnboardingState) : OnboardingState := {|
  step := step s; busy := busy s; org := org s; domainId := domainId s; domainName := domainName s; verificationRecord := verificationRecord s;
  team := team s; assignmentId := a; inboxAddress := i; orgName := orgName s; domainInput := domainInput s;
  teamName := teamName s; copied := copied s |}.
Definition set_inputs (o d t : jstr) (s : OnboardingState) : OnboardingState := {|
  step := step s; busy := busy s; org := org s; domainId := domainId s; domainName := domainName s; verificationRecord := verificationRecord s;
  team := team s; assignmentId := assignmentId s; inboxAddress := inboxAddress s; orgName := o; domainInput := d;
  teamName := t; copied := copied s |}.
Definition set_copied (b : bool) (s : OnboardingState) : OnboardingState := {|
  step := step s; busy := busy s; org := org s; domainId := domainId s; domainName := domainName s; verificationRecord := verificationRecord s;
  team := team s; assignmentId := assignmentId s; inboxAddress := inboxAddress s; orgName := orgName s; domainInput := domainInput s;
  teamName := teamName s; copied := b |}.

Section onboarding.
Context `{!AppEnv}.

(** A handler between [setBusy(true)] and [finally], with its error message. *)
Definition guarded (m : M OnboardingState unit) : M OnboardingState unit :=
  modify (set_busy true);;
  try_finally (try_catch m (λ err, emit (EToastError (err_message err)))) (modify (set_busy false)).
(** A value in a template. *)
Definition shown (v : option json) : jstr := from_option json_to_string (js "undefined") v.

Definition createOrg (c : OnboardingState) : M OnboardingState unit :=
  guarded (res ← api_post "/orgs" (Some (JObj [(js "name", JStr (orgName c))]));
           modify (set_org res);;
           modify (set_step 1)).
(** [org!.id] throws when there is no organisation. *)
Definition addDomain (c : OnboardingState) : M OnboardingState unit :=
  guarded (id ← prop (org c) "id";
           res ← api_post ("/orgs/" ++ shown id ++ "/domains") (Some (JObj [(js "domain_name", JStr (domainInput c))]));
           i ← prop res "id";
           n ← prop res "domain_name";
           v ← prop res "verification_record";
           modify (set_domain i n (if json_truthy v then v else Some (JStr [])));;
           modify (set_step 2)).
Definition assign_domain (c : OnboardingState) (t : option json) : M OnboardingState unit :=
  id ← prop (org c) "id";
  tid ← prop t "id";
  res ← api_post ("/orgs/" ++ shown id ++ "/teams/" ++ shown tid ++ "/domains")
          (Some (jobj [(js "domain_id", domainId c); (js "access_level", Some (JStr "full"))]));
  a ← prop res "id";
  modify (λ s, set_results a (inboxAddress s) s).
Definition createTeam (c : OnboardingState) : M OnboardingState unit :=
  guarded (id ← prop (org c) "id";
           res ← api_post ("/orgs/" ++ shown id ++ "/teams") (Some (JObj [(js "name", JStr (teamName c))]));
           t ← prop res "team";
           modify (set_team t);;
           when (json_truthy (domainId c)) (assign_domain c t);;
           modify (set_step 3)).
Definition createInbox (c : OnboardingState) : M OnboardingState unit :=
  if negb (json_truthy (assignmentId c)) then modify (set_step 4)
  else guarded (res ← api_post "/inboxes" (Some (jobj [(js "domain_assignment_id", assignmentId c); (js "ttl", Some (JStr "1h"))]));
                a ← prop res "full_address";
                modify (λ s, set_results (assignmentId s) a s);;
                modify (set_step 4)).
(** The store's actions are effects here: they load the organisations and the
    teams and set the current ones. *)
Definition finish (c : OnboardingState) : M OnboardingState unit :=
  guarded (all ← api_get "/orgs" None;
           _ ← prop all "data";
           when (json_truthy (org c)) (emit (EStore "setCurrentOrg" (shown (o ← org c; jfield o "id"))));;
           when (json_truthy (org c))
             (id ← prop (org c) "id";
              ts ← api_get ("/orgs/" ++ shown id ++ "/teams") None;
              _ ← prop ts "data";
              when (json_truthy (team c)) (emit (EStore "setCurrentTeam" (shown (t ← team c; jfield t "id")))));;
           emit (EPush "/")).
Definition copyRecord (c : OnboardingState) : M OnboardingState unit :=
  emit (EClipboard (shown (verificationRecord c)));;
  modify (set_copied true);;
  emit (EToastSuccess "Copied");;
  emit (ETimeout 2000).
Definition copied_timeout : M OnboardingState unit := modify (set_copied false).
(** Somebody with an organisation has nothing to do here. *)
Definition org_effect (currentOrg : bool) : M OnboardingState unit := when currentOrg (emit (EReplace "/")).

(** Somebody who may not create an organisation waits for an invitation; the
    button loads the organisations again (and says so). *)
Definition check_again : M OnboardingState unit := emit (EStore "fetchOrgs" []).

(** *** What the steps say *)
Definition step_description (n : nat) : jstr :=
  match n with
  | 0 => "Create your organization to get started"
  | 1 => "Add a domain to receive temporary emails"
  | 2 => "Create a team to organize your inboxes"
  | 3 => "Create your first temporary inbox"
  | 4 => "You're all set!"
  | _ => []
  end.
Definition inbox_note (s : OnboardingState) : jstr :=
  if json_truthy (assignmentId s) then "Create your first temporary inbox to start receiving emails."
  else "No domain was configured. You can set one up later in Settings.".
(** The organisation, the domain and the team of the last step. *)
Definition done_summary (s : OnboardingState) : list jstr :=
  if negb (json_truthy (org s)) then []
  else shown (o ← org s; jfield o "name")
       :: (if json_truthy (domainName s) then [shown (domainName s)] else [])
       ++ (if json_truthy (team s) then [shown (t ← team s; jfield t "name")] else []).

(** *** Buttons and keys of the steps *)
Inductive action :=
| ATyping (o d t : jstr)
| ACreateOrg (enter : bool) | AAddDomain (enter : bool) | ACreateTeam (enter : bool) | ACreateInbox
| ABack | ASkip | AContinue | AFinish | ACopy.
Definition perform (is_system_admin : bool) (a : action) : M OnboardingState unit :=
  s ← get_state;
  (* Enter asks for the text only, the button also that nothing is running *)
  let ok (enter : bool) (text : jstr) := truthy text && (enter || negb (busy s)) in
  match a, step s with
  | ATyping o d t, _ => modify (set_inputs o d t)
  | ACreateOrg e, 0 => when (is_system_admin && ok e (orgName s)) (createOrg s)
  | AAddDomain e, 1 => when (ok e (domainInput s)) (addDomain s)
  | ACreateTeam e, 2 => when (ok e (teamName s)) (createTeam s)
  | ACreateInbox, 3 => when (json_truthy (assignmentId s) && negb (busy s)) (createInbox s)
  | AContinue, 3 => when (negb (json_truthy (assignmentId s))) (modify (set_step 4))
  | ABack, (S n as k) => when ((k <=? 3)%nat && negb (busy s)) (modify (set_step n))
  | ASkip, k => when ((1 <=? k)%nat && (k <=? 3)%nat && negb (busy s)) (modify (set_step (S k)))
  | ACopy, 2 => when (json_truthy (verificationRecord s)) (copyRecord s)
  | AFinish, 4 => when (negb (busy s)) (finish s)
  | _, _ => mret tt
  end.
Inductive onboarding_step : world OnboardingState → world OnboardingState → Prop :=
| Onboarding_step admin a w : onboarding_step w (snd (perform admin a w)).

(** ** The organisation is known *)

(** What the code relies on: a new organisation is answered with its record. *)
Definition org_record (v : option json) : Prop := ∃ l id, v = Some (JObj l) ∧ map_get l (js "id") = Some (JStr id).
Definition answers_record (b : browser) : Prop :=
  ∀ n r res, rq_method r = "POST" → rq_url r = API_BASE ++ "/orgs" → net b n r = Responded res → rs_ok res = true →
    (rs_status res =? 204)%Z = false ∧ rs_content_length res ≠ Some (js "0") ∧ org_record (rs_json res).

Record org_frame (w w' : world OnboardingState) : Prop := {
  of_org : org (st w') = org (st w);
  of_net : net (brw w') = net (brw w)
}.
#[local] Instance org_frame_preorder : PreOrder org_frame.
Proof. split; [by intros w|]. intros w1 w2 w3 [] []. split; congruence. Qed.
Lemma org_frame_request path opts : preserves org_frame (request path opts).
Proof. intros w. destruct (session_frame_request path opts w) as [E1 _ _ E2 _ _ _]. split; [by rw E1|done]. Qed.
Lemma org_frame_get path params : preserves org_frame (api_get path params).
Proof. apply org_frame_request. Qed.
Lemma org_frame_post path body : preserves org_frame (api_post path body).
Proof. apply org_frame_request. Qed.
Lemma org_frame_emit e : preserves org_frame (emit e).
Proof. by intros w. Qed.
Lemma org_frame_modify f : (∀ s, org (f s) = org s) → preserves org_frame (modify f).
Proof. intros Hf w. split; [apply Hf|done]. Qed.
#[local] Hint Resolve org_frame_get org_frame_post org_frame_emit : frame.
#[local] Hint Extern 2 (preserves org_frame (modify _)) => (apply org_frame_modify; done) : frame.
Lemma addDomain_frame c : preserves org_frame (addDomain c).
Proof. unfold addDomain, guarded. preserve. Qed.
Lemma createTeam_frame c : preserves org_frame (createTeam c).
Proof. unfold createTeam, guarded, assign_domain. preserve. Qed.
Lemma createInbox_frame c : preserves org_frame (createInbox c).
Proof. unfold createInbox, guarded. preserve. Qed.
Lemma finish_frame c : preserves org_frame (finish c).
Proof. unfold finish, guarded. preserve. Qed.
Lemma copyRecord_frame c : preserves org_frame (copyRecord c).
Proof. unfold copyRecord. preserve. Qed.

Lemma created_record body (w w' : world OnboardingState) v :
  answers_record (brw w) → api_post "/orgs" body w = (inr v, w') → org_record v.
Proof.
  intros Ha E. apply request_result in E as (n & tk & res & Hn & Hf).
  assert (Hu : rq_url (build_request "/orgs" {| o_method := "POST"; o_headers := []; o_body := body; o_params := None |} tk) = API_BASE ++ "/orgs")
    by (cbn; by rw app_nil_r).
  pose proof (λ Hm, Ha n _ res Hm Hu Hn) as Hr. specialize (Hr eq_refl).
  specialize (Hf w). unfold ApiClient.finish in Hf. destruct (rs_ok res) eqn:Hok; cbn [negb] in Hf.
  2: { unfold mbind, M_bind, mret, M_ret, prop, throw in Hf. by destruct (default _ _). }
  destruct (Hr eq_refl) as (H204 & Hl & l & id & Hj & Hid). rw H204 bool_decide_eq_false_2 // in Hf. cbn [orb] in Hf.
  unfold read_json in Hf. rw Hj in Hf. cbn in Hf. injection Hf as <-. by exists l, id.
Qed.
Definition org_known (b : browser) (w : world OnboardingState) : Prop :=
  net (brw w) = net b ∧ (1 ≤ step (st w) → org_record (org (st w))).
Lemma createOrg_known b c w : answers_record b → step (st w) = 0 → org_known b w → org_known b (snd (createOrg c w)).
Proof.
  intros Ha H0 [Hn _]. set (w0 := World (brw w) (set_busy true (st w))).
  set (body := Some (JObj [(js "name", JStr (orgName c))])).
  assert (Ha0 : answers_record (brw w0)) by (intros n r res; cbn; rw Hn; apply Ha).
  pose proof (org_frame_post "/orgs" body w0) as [_ En].
  pose proof (api_send_st "POST" "/orgs" body w0) as Est.
  unfold createOrg, guarded. unfold mbind at 1, M_bind at 1. cbn [modify]. fold w0 body.
  unfold try_finally, try_catch, mbind, M_bind. change (api_send "POST" "/orgs" body w0) with (api_post "/orgs" body w0) in Est.
  destruct (api_post "/orgs" body w0) as [[e|v] w1] eqn:E.
  - cbn in En, Est. split; cbn; [congruence|]. rw Est. cbn. lia.
  - pose proof (created_record _ _ _ _ Ha0 E). cbn in En. split; cbn; [congruence|done].
Qed.
Lemma org_known_frame b w w' : org_known b w → 1 ≤ step (st w) → org_frame w w' → org_known b w'.
Proof. intros [Hn Ho] Hs [Eo En]. split; [congruence|]. intros _. rw Eo. by apply Ho. Qed.
Lemma org_known_step b w w' : answers_record b → onboarding_step w w' → org_known b w → org_known b w'.
Proof.
  intros Ha [admin a w0] Hk. unfold perform. unfold mbind, M_bind. cbn [get_state].
  assert (Hw : ∀ c m, (c = true → org_known b (snd (m w0))) → org_known b (snd (when c m w0))).
  { intros [] m Hm; [by apply Hm|done]. }
  assert (Hf : ∀ m : M OnboardingState unit, preserves org_frame m → 1 ≤ step (st w0) → org_known b (snd (m w0))).
  { intros m Hm Hs. eapply org_known_frame; [done|done|apply Hm]. }
  assert (Hm : ∀ n, 1 ≤ step (st w0) → org_known b (snd (modify (set_step n) w0))).
  { intros n. apply Hf. by apply org_frame_modify. }
  destruct a as [o d t|e|e|e| | | | | |]; [destruct Hk as [Hn Ho]; by split| | | | | | | | |].
  all: destruct (step (st w0)) as [|[|[|[|[|k]]]]] eqn:Es; try done.
  all: apply Hw; intros Hc; lazymatch goal with
    | |- org_known _ (snd (createOrg _ _)) => by apply createOrg_known
    | |- org_known _ (snd (modify _ _)) => first [discriminate|apply Hm; lia]
    | _ => idtac end.
  all: apply Hf; [|lia].
  - apply addDomain_frame.
  - apply createTeam_frame.
  - apply createInbox_frame.
  - apply finish_frame.
  - apply copyRecord_frame.
Qed.
(** Past its first step the page knows the organisation it created, so that
    the ids it reads from it exist, if the server answers a creation with the
    record. *)
Theorem onboarding_org_known (b : browser) (w : world OnboardingState) :
  answers_record b → rtc onboarding_step (World b onboarding_init) w → 1 ≤ step (st w) →
  ∃ id, prop (org (st w)) "id" w = (inr (Some (JStr id)), w).
Proof.
  intros Ha Hw Hs. assert (Hk : org_known b w).
  { revert Hw. apply (rtc_ind_r (R := onboarding_step) (org_known b) (World b onboarding_init)); [by split; [|cbn; lia]|].
    intros y z _ Hyz. by apply org_known_step. }
  destruct Hk as [_ Ho]. destruct (Ho Hs) as (l & id & -> & Hid). exists id. cbn. by rw Hid.
Qed.
Definition run_steps (l : list action) (w : world OnboardingState) : world OnboardingState :=
  foldl (λ w a, snd (perform true a w)) w l.
Lemma onboarding_run l w : rtc onboarding_step w (run_steps l w).
Proof. revert w. induction l as [|a l IH]; intros w; [done|]. eapply rtc_l; [apply (Onboarding_step true a)|apply IH]. Qed.
(** Enter asks only for a name: while an organisation is being created it
    creates another one. *)
Theorem enter_ignores_busy (w : world OnboardingState) :
  step (st w) = 0 → truthy (orgName (st w)) = true → perform true (ACreateOrg true) w = createOrg (st w) w.
Proof. intros H0 Ht. unfold perform, mbind, M_bind. cbn [get_state]. by rw H0 Ht. Qed.
End onboarding.

(** ** Instances *)

Definition a_record (id : jstr) : json := JObj [(js "id", JStr id)].
(** The organisation and the domain are created; so is the team, but the domain
    cannot be assigned to it. *)
Definition team_half_made : world OnboardingState :=
  World (browser_on ∅ "/onboarding" [answer 201 (a_record "o"); answer 201 (a_record "d"); answer 201 (JObj [(js "team", a_record "t")]);
    answer 500 (JObj []); answer 201 (JObj [(js "team", a_record "u")]); answer 201 (a_record "a")]) onboarding_init.
Definition twice : list action :=
  [ATyping "Acme" "mail.example.org" "Core"; ACreateOrg false; AAddDomain false; ACreateTeam false; ACreateTeam false].
(** A team whose domain could not be assigned stays, and trying again creates a
    second one of the same name. *)
Theorem team_created_twice :
  let w := run_steps (H := default_env) twice team_half_made in
  rtc (onboarding_step (H := default_env)) team_half_made w ∧ step (st w) = 3 ∧
  countb (λ r, (rq_url r =?s (API_BASE (H := default_env) ++ "/orgs/o/teams")) && (rq_method r =?s "POST")) (sent_requests w) = 2.
Proof. split; [apply onboarding_run|]. split; vm_compute; reflexivity. Qed.
Lemma onboarding_org_known_witness :
  let w := run_steps (H := default_env) [ATyping "Acme" [] []; ACreateOrg false]
    (World (Browser true None ∅ "/onboarding" (λ _ _, answer 201 (a_record "o")) 0 []) onboarding_init) in
  ∃ id, prop (org (st w)) "id" w = (inr (Some (JStr id)), w).
Proof.
  intros w. apply (onboarding_org_known (H := default_env) (Browser true None ∅ "/onboarding" (λ _ _, answer 201 (a_record "o")) 0 []) w).
  - intros n r res _ _ E _. injection E as <-. split; [reflexivity|]. split; [discriminate|]. by exists [(js "id", JStr "o")], (js "o").
  - apply onboarding_run.
  - vm_compute. lia.
Defined.
