(* ===== verification/Profile.v ===== *)
(** * The profile pages: [web/src/app/profile/page.tsx], its sessions and
    delete pages, and the page of one mail [web/src/app/email/[emailId]/page.tsx]

    Each card keeps its own state; the store of the session is part of it where
    a card signs the user out. *)

From S2P Require Import Prelude Regex Browser Types ApiClient AuthStore React PasswordPolicy SsoTab SignIn Hooks.
Import Hooks.DateFormat.

Section profile.
Context `{!AppEnv, !JSRuntime}.

(** ** The page *)

(** Addresses are not empty, so that [email[0]] exists. *)
Definition initials (u : User) : jstr :=
  jor (if truthy (trim (User_display_name u))
       then take 2 (toUpperCase (join [] (take 1 <$> List.filter truthy (split_on 32 (trim (User_display_name u))))))
       else toUpperCase (take 1 (User_email u))) "?".
Definition isSSO (u : User) : bool := otruthy (User_sso_provider u).
Definition hidePassword (sso : option SSOStatus) (u : User) : bool := isSSO u || default false (sso ≫= enforce_sso).
Definition password_note (sso : option SSOStatus) (u : User) : jstr :=
  if default false (sso ≫= enforce_sso) then "Password changes are disabled. Your organization requires SSO."
  else "Managed by " ++ default [] (User_sso_provider u) ++ ". Change it through your identity provider.".
Definition profile_title (u : User) : jstr := jor (trim (User_display_name u)) (User_email u).
Definition profile_badges (u : User) : list jstr :=
  (if User_is_system_admin u then [js "System Admin"] else []) ++ (if User_email_verified u then [js "Verified"] else []).
(** What single sign-on reports when it comes back to the page. *)
Definition link_effect {S} (params : list (jstr * jstr)) : M S unit :=
  b ← get_browser;
  (if otruthy (map_get params (js "sso_linked"))
   then emit (EToastSuccess (default [] (map_get params (js "sso_linked")) ++ " account linked successfully"));;
        emit (EHistory (pathname b));; emit (EInvalidate "sso-identities")
   else mret tt);;
  (if otruthy (map_get params (js "sso_error"))
   then emit (EToastError "Couldn't link account");; emit (EHistory (pathname b))
   else mret tt).

(** *** The name *)

Record ProfileForm := { pf_displayName : jstr; pf_saving : bool }.
Definition profile_form (u : User) : ProfileForm := {| pf_displayName := User_display_name u; pf_saving := false |}.
Definition profile_dirty (u : User) (s : ProfileForm) : bool := negb (pf_displayName s =?s User_display_name u).
Definition pf_set_saving (b : bool) (s : ProfileForm) : ProfileForm := {| pf_displayName := pf_displayName s; pf_saving := b |}.
Definition profile_save (c : ProfileForm) : M ProfileForm unit :=
  if negb (truthy (trim (pf_displayName c))) then emit (EToastError "Display name is required")
  else
    modify (pf_set_saving true);;
    try_finally
      (try_catch
        (_ ← api_patch "/auth/me" (Some (JObj [(js "display_name", JStr (trim (pf_displayName c)))]));
         emit (EToastSuccess "Profile updated");;
         emit (EStore "fetchMe" []))
        (λ err, emit (EToastError (err_message err))))
      (modify (pf_set_saving false)).
Definition profile_save_click (u : User) (c : ProfileForm) : M ProfileForm unit :=
  if profile_dirty u c && negb (pf_saving c) then profile_save c else mret tt.

(** *** The password *)

Record PasswordCard := { currentPassword : jstr; newPassword : jstr; pw_confirm : jstr; changing : bool; pw_auth : AuthState }.
Definition pw_set_changing (b : bool) (s : PasswordCard) : PasswordCard :=
  {| currentPassword := currentPassword s; newPassword := newPassword s; pw_confirm := pw_confirm s; changing := b; pw_auth := pw_auth s |}.
Definition pw_set_auth (a : AuthState) (s : PasswordCard) : PasswordCard :=
  {| currentPassword := currentPassword s; newPassword := newPassword s; pw_confirm := pw_confirm s; changing := changing s; pw_auth := a |}.
Definition pw_valid (s : PasswordCard) : bool :=
  (0 <? length (currentPassword s))%nat && (8 <=? length (newPassword s))%nat && (newPassword s =?s pw_confirm s).
Definition pw_mismatch (s : PasswordCard) : bool := (0 <? length (pw_confirm s))%nat && negb (newPassword s =?s pw_confirm s).
Definition pw_too_short (s : PasswordCard) : bool := (0 <? length (newPassword s))%nat && (length (newPassword s) <? 8)%nat.
Definition pw_meter (s : PasswordCard) : option (Z * jstr) :=
  let n := length (newPassword s) in
  if negb (8 <=? n)%nat then None
  else Some (if (12 <=? n)%nat then (100%Z, js "Strong") else if (10 <=? n)%nat then (66%Z, js "Fair") else (33%Z, js "Weak")).
Definition handleChange (c : PasswordCard) : M PasswordCard unit :=
  if negb (pw_valid c) then mret tt
  else
    modify (pw_set_changing true);;
    try_catch
      (_ ← api_put "/auth/me/password" (Some (JObj [(js "current_password", JStr (currentPassword c)); (js "new_password", JStr (newPassword c))]));
       emit (EToastSuccess ("Password changed. Signing out" ++ ellipsis));;
       emit (ETimeout 1500))
      (λ err, emit (EToastError (err_message err));; modify (pw_set_changing false)).
Definition change_click (c : PasswordCard) : M PasswordCard unit := if changing c || negb (pw_valid c) then mret tt else handleChange c.
(** The timer. *)
Definition change_timeout : M PasswordCard unit := zoom pw_auth pw_set_auth logout.

(** *** Date and time *)

Definition TIMEZONES : list jstr := js <$> [
  "UTC"; "America/New_York"; "America/Chicago"; "America/Denver"; "America/Los_Angeles"; "Europe/London"; "Europe/Berlin";
  "Europe/Paris"; "Asia/Amman"; "Asia/Dubai"; "Asia/Tokyo"; "Asia/Shanghai"; "Australia/Sydney"]%string.
Definition timezone_label (t : jstr) : jstr := (λ c, if (c =? 95)%N then 32%N else c) <$> t.
Record DateTimeCard := { dt_fields : DateTimeSettings; dt_saving : bool }.
Definition datetime_init : DateTimeCard :=
  {| dt_fields := {| timezone := []; date_format := []; time_format := [] |}; dt_saving := false |}.
(** The effect runs when one of the three values of the settings changed. *)
Definition datetime_sync (settings : option DateTimeSettings) (s : DateTimeCard) : DateTimeCard :=
  match settings with Some x => {| dt_fields := x; dt_saving := dt_saving s |} | None => s end.
Definition datetime_dirty (settings : option DateTimeSettings) (s : DateTimeCard) : bool :=
  match settings with
  | None => false
  | Some x => negb (timezone (dt_fields s) =?s timezone x) || negb (date_format (dt_fields s) =?s date_format x)
              || negb (time_format (dt_fields s) =?s time_format x)
  end.
Definition dt_set_saving (b : bool) (s : DateTimeCard) : DateTimeCard := {| dt_fields := dt_fields s; dt_saving := b |}.
Definition datetime_save (c : DateTimeCard) : M DateTimeCard unit :=
  modify (dt_set_saving true);;
  try_finally
    (try_catch
      (_ ← api_patch "/auth/me" (Some (JObj [(js "timezone", JStr (timezone (dt_fields c)));
             (js "date_format", JStr (date_format (dt_fields c))); (js "time_format", JStr (time_format (dt_fields c)))]));
       emit (EInvalidate "datetime-settings");;
       emit (EToastSuccess "Preferences saved"))
      (λ err, emit (EToastError (err_message err))))
    (modify (dt_set_saving false)).

(** *** Connected accounts *)

Record SSOIdentity := { id_id : jstr; id_provider : jstr; id_email : jstr }.
Definition providers (sso : option SSOStatus) : list SSOStatusProvider := List.filter sp_enabled (default [] (sso ≫= sso_providers)).
Definition unlinkedProviders (sso : option SSOStatus) (identities : option (list SSOIdentity)) : list SSOStatusProvider :=
  List.filter (λ p, negb (set_has (set_of (id_provider <$> default [] identities)) (sp_name p))) (providers sso).
Definition canUnlink (sso : option SSOStatus) : bool := negb (default false (sso ≫= enforce_sso)).
Definition identity_label (sso : option SSOStatus) (i : SSOIdentity) : jstr :=
  match List.find (λ p, sp_name p =?s id_provider i) (providers sso) with
  | Some mp => sp_label mp
  | None => providerTypeLabel (id_provider i)
  end.
Definition handleUnlink (provider : jstr) : M (option jstr) unit :=
  modify (λ _, Some provider);;
  try_finally
    (try_catch
      (_ ← api_del ("/auth/me/sso/" ++ provider) None;
       emit (EInvalidate "sso-identities");;
       emit (EToastSuccess (provider ++ " unlinked")))
      (λ err, emit (EToastError (err_message err))))
    (modify (λ _, None)).
Definition unlink_click (sso : option SSOStatus) (unlinking : option jstr) (i : SSOIdentity) : M (option jstr) unit :=
  if bool_decide (unlinking = Some (id_provider i)) || negb (canUnlink sso) then mret tt else handleUnlink (id_provider i).
Definition link_click {S} (p : SSOStatusProvider) : M S unit := emit (ELocation (API_BASE ++ "/auth/sso/" ++ sp_name p ++ "?intent=link")).
(** The rows: label, address, whether the button is disabled; then the providers
    that can be linked.  Without providers the card is not shown. *)
Definition ConnectedAccountsCard (sso : option SSOStatus) (identities : option (list SSOIdentity)) (unlinking : option jstr)
    : option (list (jstr * jstr * bool) * list jstr) :=
  if negb (from_option sso_enabled false sso) || (length (providers sso) =? 0)%nat then None
  else Some ((λ i, (identity_label sso i, id_email i, bool_decide (unlinking = Some (id_provider i)) || negb (canUnlink sso)))
               <$> default [] identities, sp_label <$> unlinkedProviders sso identities).

(** ** Sessions *)

Section sessions.
(** [UAParser] belongs to a library. *)
Context (ua_browser ua_os ua_os_version ua_device : jstr → option jstr).

(** [new Date(a.last_used_at) > new Date(b.last_used_at) ? a : b]. *)
Definition later (a b : Session) : Session :=
  match date_ms (Session_last_used_at a), date_ms (Session_last_used_at b) with
  | Some x, Some y => if (y <? x)%Z then a else b
  | _, _ => b
  end.
(** [sessions.reduce(...)], for a list that is not empty. *)
Definition current_session (l : list Session) : option Session :=
  match l with [] => None | x :: t => Some (fold_left later t x) end.
Definition isCurrent (l : list Session) (s : Session) : bool :=
  (0 <? length l)%nat && bool_decide (Some (Session_id s) = Session_id <$> current_session l).

Record SessionsState := { revokeAllOpen : bool; revokeConfirmText : jstr; ss_auth : AuthState }.
Definition revoke : mutation SessionsState jstr := {|
  mutationFn id := api_del ("/auth/sessions/" ++ id) None;
  onSuccess _ := emit (EInvalidate "sessions");; emit (EToastSuccess "Session revoked");
  onError err := emit (EToastError (err_message err)) |}.
Definition revokeAll : mutation SessionsState unit := {|
  mutationFn _ := api_del "/auth/sessions" None;
  onSuccess _ := emit (EToastSuccess ("All sessions revoked " ++ [8212%N] ++ " signing out" ++ ellipsis));; emit (ETimeout 1000);
  onError err := emit (EToastError (err_message err)) |}.
Definition set_dialog (o : bool) (t : jstr) (s : SessionsState) : SessionsState :=
  {| revokeAllOpen := o; revokeConfirmText := t; ss_auth := ss_auth s |}.
Definition revokeAll_timeout : M SessionsState unit :=
  zoom ss_auth (λ a s, {| revokeAllOpen := revokeAllOpen s; revokeConfirmText := revokeConfirmText s; ss_auth := a |}) logout.
Definition open_revokeAll (s : SessionsState) : SessionsState := set_dialog true [] s.
Definition onOpenChange (v : bool) (s : SessionsState) : SessionsState := set_dialog v (if v then revokeConfirmText s else []) s.
(** [pending] is [revokeAll.isPending]. *)
Definition revokeAll_click `{!MutationRunner} (pending : bool) (c : SessionsState) : M SessionsState unit :=
  if negb (revokeAllOpen c) || negb (revokeConfirmText c =?s "REVOKE") || pending then mret tt
  else mutate revokeAll tt;; modify (λ s, set_dialog false (revokeConfirmText s) s).
Definition revoke_click `{!MutationRunner} (l : list Session) (s : Session) : M SessionsState unit :=
  if isCurrent l s then mret tt else mutate revoke (Session_id s).

Definition session_count (l : option (list Session)) : jstr :=
  match l with
  | None => []
  | Some l => show_nat (length l) ++ " session" ++ (if (length l =? 1)%nat then [] else js "s") ++ " active."
  end.
Record session_line := { sl_device : jstr; sl_title : jstr; sl_via : option jstr; sl_ip : jstr; sl_active : jstr; sl_expires : jstr; sl_current : bool }.
Definition session_row_of (l : list Session) (s : Session) : session_line :=
  let '(browser, os, device) := parseUserAgent ua_browser ua_os ua_os_version ua_device (Session_user_agent s) in {|
    sl_device := device; sl_title := browser ++ [32; 183; 32]%N ++ os;
    sl_via := if otruthy (Session_sso_provider_name s) then (λ n, "via " ++ n) <$> Session_sso_provider_name s else None;
    sl_ip := default [8212%N] (Session_ip_address s);
    sl_active := if truthy (Session_last_used_at s) then toLocaleString (Session_last_used_at s) else [8212%N];
    sl_expires := toLocaleDateString (Session_expires_at s);
    sl_current := isCurrent l s |}.
End sessions.

(** ** Deleting the account *)

Record DeleteState := { dl_password : jstr; dl_confirm : jstr; deleting : bool; dl_auth : AuthState }.
Definition dl_set_deleting (b : bool) (s : DeleteState) : DeleteState :=
  {| dl_password := dl_password s; dl_confirm := dl_confirm s; deleting := b; dl_auth := dl_auth s |}.
Definition dl_set_auth (a : AuthState) (s : DeleteState) : DeleteState :=
  {| dl_password := dl_password s; dl_confirm := dl_confirm s; deleting := deleting s; dl_auth := a |}.
Definition canSubmit (u : User) (s : DeleteState) : bool :=
  (dl_confirm s =?s "DELETE") && (isSSO u || (0 <? length (dl_password s))%nat).
Definition delete_body (u : User) (s : DeleteState) : json := JObj [(js "password", JStr (if isSSO u then [] else dl_password s))].
(** [logout] is not awaited; it is the last thing that happens. *)
Definition handleDelete (u : User) (c : DeleteState) : M DeleteState unit :=
  if negb (canSubmit u c) then mret tt
  else
    modify (dl_set_deleting true);;
    try_finally
      (try_catch
        (_ ← api_del "/auth/me" (Some (delete_body u c));
         emit (EToastSuccess "Account deleted");;
         zoom dl_auth dl_set_auth logout)
        (λ err, emit (EToastError (err_message err))))
      (modify (dl_set_deleting false)).

(** ** The page of a mail *)

Definition email_toggleRead {S} (emailId : jstr) : mutation S bool := {|
  mutationFn is_read := api_patch ("/emails/" ++ emailId) (Some (JObj [(js "is_read", JBool is_read)]));
  onSuccess _ := emit (EInvalidate "email");
  onError _ := mret tt |}.
Definition email_delete {S} (emailId : jstr) : mutation S unit := {|
  mutationFn _ := api_del ("/emails/" ++ emailId) None;
  onSuccess _ := emit EBack;
  onError err := emit (EToastError (err_message err)) |}.
Definition email_back {S} (e : Email) : M S unit := emit (EPush ("/inboxes/" ++ Email_inbox_id e)).

(** ** Which session is the current one *)

Definition used (s : Session) : Z := default 0%Z (date_ms (Session_last_used_at s)).
Definition dated (s : Session) : Prop := is_Some (date_ms (Session_last_used_at s)).
Lemma later_spec a b : dated a → dated b → later a b = if (used b <? used a)%Z then a else b.
Proof. unfold later, used. by intros [x ->] [y ->]. Qed.
Lemma fold_later_spec l x :
  Forall dated (x :: l) → fold_left later l x ∈ x :: l ∧ Forall (λ t, (used t ≤ used (fold_left later l x))%Z) (x :: l).
Proof.
  revert x. induction l as [|y l IH]; intros x Hd; [split; [by left|by repeat constructor]|].
  apply Forall_cons in Hd as [Hx Hd]. pose proof Hd as Hd'. apply Forall_cons in Hd' as [Hy Hl].
  cbn [fold_left]. rewrite (later_spec x y Hx Hy). destruct (Z.ltb_spec (used y) (used x)) as [Hlt|Hge].
  - destruct (IH x) as [Hi Hm]; [by constructor|]. apply Forall_cons in Hm as [Hm1 Hm2].
    split; [set_solver|]. apply Forall_cons. split; [done|]. apply Forall_cons. split; [lia|done].
  - destruct (IH y Hd) as [Hi Hm]. apply Forall_cons in Hm as [Hm1 Hm2]. split; [set_solver|]. apply Forall_cons. split; [lia|]. apply Forall_cons. by split.
Qed.
(** Of sessions with different ids and dates that can be read exactly one is
    marked as the current one, it is one of those used last, and all others
    can be revoked. *)
Theorem current_session_unique `{!MutationRunner} (l : list Session) :
  l ≠ [] → NoDup (Session_id <$> l) → Forall dated l →
  ∃ s, s ∈ l ∧ isCurrent l s = true ∧ (∀ t, t ∈ l → (used t ≤ used s)%Z) ∧
    ∀ t, t ∈ l → t ≠ s → isCurrent l t = false ∧ revoke_click l t = mutate revoke (Session_id t).
Proof.
  intros Hl Hn Hd. destruct l as [|x l]; [done|]. destruct (fold_later_spec l x Hd) as [Hi Hm].
  set (s := fold_left later l x) in *.
  assert (Hc : ∀ t, isCurrent (x :: l) t = bool_decide (Session_id t = Session_id s)).
  { intros t. unfold isCurrent. cbn. fold s. apply bool_decide_ext. split; [by intros [= ->]|by intros ->]. }
  exists s. split_and!; [done|by rw Hc bool_decide_eq_true|by apply Forall_forall|]. intros t Ht Hne.
  assert (Hf : isCurrent (x :: l) t = false).
  { rw Hc. apply bool_decide_eq_false_2. intros E. apply Hne.
    apply list_elem_of_lookup in Ht as [i Hti]. apply list_elem_of_lookup in Hi as [j Hsj].
    assert (i = j) as ->; [|congruence]. eapply (NoDup_lookup _ i j (Session_id t) Hn); rewrite list_lookup_fmap; [by rewrite Hti|rewrite Hsj E //]. }
  split; [done|]. unfold revoke_click. by rw Hf.
Qed.

(** ** Deleting the account *)

Lemma delete_success u c (w w1 : world DeleteState) v :
  canSubmit u c = true → has_window (brw w1) = true →
  api_del "/auth/me" (Some (delete_body u c)) (World (brw w) (dl_set_deleting true (st w))) = (inr v, w1) →
  let w' := snd (handleDelete u c w) in
  accessToken (brw w') = None ∧ has_session (brw w') = false ∧ last (trace (brw w')) = Some (ELocation "/login") ∧ user (dl_auth (st w')) = None.
Proof.
  intros Hc Hw Ha w'.
  pose proof (logout_state (World (log_effect (EToastSuccess "Account deleted") (brw w1)) (dl_auth (st w1))) Hw) as Hl.
  assert (E : ∃ w3, logout (World (log_effect (EToastSuccess "Account deleted") (brw w1)) (dl_auth (st w1))) = (inr tt, w3) ∧
    w' = World (brw w3) (dl_set_deleting false (dl_set_auth (st w3) (st w1)))).
  { destruct (logout _) as [r w3] eqn:El. destruct Hl as (-> & _). exists w3. split; [done|].
    subst w'. unfold handleDelete. rw Hc. cbn [negb]. unfold mbind, M_bind, try_finally, try_catch, modify.
    rw Ha. unfold emit, modify_browser, zoom. cbn [brw st]. by rw El. }
  destruct E as (w3 & E3 & ->). rw E3 in Hl. by destruct Hl as (_ & ? & ? & ? & ?).
Qed.
(** C26: nothing is sent before the word is typed and, without single sign-on, a
    password; then the first request asks the server to delete the account, and
    once it is deleted no token and no session are left in the browser and it
    goes to the login page. *)
Theorem delete_account_guarded (u : User) (c : DeleteState) (w : world DeleteState) :
  (canSubmit u c = false → handleDelete u c w = (inr tt, w)) ∧
  (canSubmit u c = true →
     dl_confirm c = js "DELETE" ∧ (isSSO u = false → dl_password c ≠ []) ∧
     ∀ v w1, api_del "/auth/me" (Some (delete_body u c)) (World (brw w) (dl_set_deleting true (st w))) = (inr v, w1) → has_window (brw w) = true →
       let w' := snd (handleDelete u c w) in
       accessToken (brw w') = None ∧ has_session (brw w') = false ∧ last (trace (brw w')) = Some (ELocation "/login") ∧ user (dl_auth (st w')) = None).
Proof.
  split; [intros Hc; unfold handleDelete; by rw Hc|]. intros Hc. pose proof Hc as Hg. unfold canSubmit in Hg. bool_to_prop.
  split_and!; [by apply jeqb_eq| |].
  - intros Hs E. rewrite Hs E in H2. done.
  - intros v w1 Ha Hw. apply (delete_success u c w w1 v Hc); [|done].
    pose proof (sf_window _ _ (session_frame_send "DELETE" "/auth/me" (Some (delete_body u c)) (World (brw w) (dl_set_deleting true (st w))))) as F.
    unfold api_del in Ha. rewrite Ha in F. by rewrite F.
Qed.

(** ** The other cards *)

(** Every enabled provider is offered for linking or linked already. *)
Theorem provider_linked_or_offered (sso : option SSOStatus) (identities : option (list SSOIdentity)) (p : SSOStatusProvider) :
  p ∈ providers sso →
  (p ∈ unlinkedProviders sso identities ↔ ∀ i, i ∈ default [] identities → id_provider i ≠ sp_name p).
Proof.
  intros Hp. unfold unlinkedProviders. rw elem_of_List_filter_any negb_true_iff. unfold set_has. rw bool_decide_eq_false elem_of_set_of.
  rw list_elem_of_fmap. naive_solver.
Qed.
(** The card asks for eight characters whatever the policy of the organisation
    is: it refuses passwords that the policy allows and sends ones it forbids. *)
Theorem card_ignores_policy (s : PasswordCard) :
  (∃ policy n, passwordMeetsPolicy n (Some policy) = true ∧
     pw_valid {| currentPassword := "old"; newPassword := n; pw_confirm := n; changing := false; pw_auth := pw_auth s |} = false) ∧
  (∃ policy n, passwordMeetsPolicy n (Some policy) = false ∧
     pw_valid {| currentPassword := "old"; newPassword := n; pw_confirm := n; changing := false; pw_auth := pw_auth s |} = true).
Proof.
  split.
  - exists {| min_length := 6; require_uppercase := false; require_lowercase := false; require_number := false; require_special := false |}, (js "abcdef").
    by split; vm_compute.
  - exists {| min_length := 12; require_uppercase := true; require_lowercase := false; require_number := false; require_special := false |}, (js "abcdefgh").
    by split; vm_compute.
Qed.
(** A preference changed while a save is under way is gone when the settings are
    loaded again: the card shows what was saved. *)
Theorem datetime_sync_drops_edit (saved edited : DateTimeSettings) :
  datetime_sync (Some saved) {| dt_fields := edited; dt_saving := false |} = {| dt_fields := saved; dt_saving := false |} ∧
  datetime_dirty (Some saved) (datetime_sync (Some saved) {| dt_fields := edited; dt_saving := false |}) = false.
Proof. split; [done|]. cbn. by rw !jeqb_refl. Qed.
(** A name is sent without surrounding blanks, so that a form with blanks stays
    different from what is stored, and its button stays. *)
Theorem untrimmed_name_stays_dirty (u : User) (s : ProfileForm) :
  trim (pf_displayName s) ≠ pf_displayName s → User_display_name u = trim (pf_displayName s) → profile_dirty u s = true.
Proof. intros Hn Hu. unfold profile_dirty. rw Hu negb_true_iff. apply jeqb_neq. by intros E. Qed.
End profile.

(** ** Instances *)

Definition a_session (id last : jstr) : Session := {|
  Session_id := id; Session_user_id := "u"; Session_ip_address := None; Session_user_agent := None; Session_sso_provider_name := None;
  Session_last_used_at := last; Session_expires_at := []; Session_created_at := [] |}.
Definition two_sessions : list Session := [a_session "a" "200"; a_session "b" "100"].
Lemma current_session_unique_witness :
  ∃ s, s ∈ two_sessions ∧ isCurrent (H0 := AsciiRuntime) two_sessions s = true.
Proof.
  destruct (current_session_unique (H := default_env) (H0 := AsciiRuntime) (H1 := direct_runner) two_sessions) as (s & Hs & Hc & _).
  - discriminate.
  - apply (bool_decide_unpack _). vm_compute. exact I.
  - repeat constructor; vm_compute; by eexists.
  - exists s. split; [exact Hs|exact Hc].
Defined.
