(* ===== verification/Shell.v ===== *)
(** * The shell of the application

    [components/layout/app-shell.tsx] (routing guards and layouts, composed with
    the redirections of [use-org-bootstrap.ts] and of the onboarding page),
    [sidebar.tsx], [top-nav.tsx], [breadcrumbs.tsx] and [command-palette.tsx]. *)

From S2P Require Import Prelude Regex Browser Types ApiClient AuthStore OrgStore React Hooks Lib Json.
Import Hooks.OrgBootstrap Lib.DocsUrl.

(** ** Guards and layouts *)

Definition publicPaths : list jstr :=
  js <$> ["/login"; "/register"; "/forgot-password"; "/reset-password"; "/verify-email"; "/invite"; "/setup"; "/onboarding"]%string.
Definition authBouncePaths : list jstr :=
  js <$> ["/login"; "/register"; "/forgot-password"; "/reset-password"; "/verify-email"]%string.

Record Shell := {
  sh_boot : boot;                          (* user, path, the organisation store and the bootstrap *)
  sh_loading : bool;
  setupChecked : bool;
  setupCompleted : bool;
  mobileOpen : bool;
  sidebarCollapsed : bool
}.
Definition sh_user (s : Shell) : option User := user (sh_boot s).
Definition sh_path (s : Shell) : jstr := path (sh_boot s).
Definition isPublic (s : Shell) : bool := existsb (startsWith (sh_path s)) publicPaths.
Definition isLanding (s : Shell) : bool := sh_path s =?s "/".
Definition shouldBounceAuth (s : Shell) : bool := existsb (startsWith (sh_path s)) authBouncePaths.
Definition sh_admin (s : Shell) : bool := from_option User_is_system_admin false (sh_user s).
Definition isOrgAdmin (s : Shell) : bool := hasPermission "org.settings.manage" (org (sh_boot s)) || sh_admin s.
Definition roleResolved (s : Shell) : bool :=
  bool_decide (currentRole (org (sh_boot s)) ≠ None) || sh_admin s || bool_decide (sh_user s = None).

(** Where the effect of the guards sends the browser. *)
Definition guard (s : Shell) : option jstr :=
  if negb (setupChecked s) then None
  else if negb (setupCompleted s) && negb (sh_path s =?s "/setup") then Some (js "/setup")
  else if sh_loading s then None
  else match sh_user s with
       | None => if negb (isPublic s) && negb (isLanding s) then Some (js "/login") else None
       | Some _ => if shouldBounceAuth s then Some (js "/") else None
       end.
Inductive layout := LLoading | LSetup | LLanding | LAuthFunnel | LUnauthPublic | LMinimal | LAdmin | LRegular.
Definition AppShell (s : Shell) : layout :=
  let signed_in := bool_decide (is_Some (sh_user s)) in
  if negb (setupChecked s) || sh_loading s || (signed_in && negb (roleResolved s) && negb (isPublic s)) then LLoading
  else if negb (setupCompleted s) then LSetup
  else if isLanding s && negb signed_in then LLanding
  else if shouldBounceAuth s && negb signed_in then LAuthFunnel
  else if isPublic s && negb signed_in then LUnauthPublic
  else if isPublic s then LMinimal
  else if isOrgAdmin s then LAdmin
  else LRegular.
(** Every layout but the spinner draws the page. *)
Definition shows_page (l : layout) : bool := match l with LLoading => false | _ => true end.

Definition set_setup (checked completed : bool) (s : Shell) : Shell := {|
  sh_boot := sh_boot s; sh_loading := sh_loading s; setupChecked := checked; setupCompleted := completed;
  mobileOpen := mobileOpen s; sidebarCollapsed := sidebarCollapsed s |}.
Definition set_nav (mobile collapsed : bool) (s : Shell) : Shell := {|
  sh_boot := sh_boot s; sh_loading := sh_loading s; setupChecked := setupChecked s; setupCompleted := setupCompleted s;
  mobileOpen := mobile; sidebarCollapsed := collapsed |}.
Definition go_to (p : jstr) (s : Shell) : Shell := {|
  sh_boot := set_path p (sh_boot s); sh_loading := sh_loading s; setupChecked := setupChecked s; setupCompleted := setupCompleted s;
  mobileOpen := false; sidebarCollapsed := sidebarCollapsed s |}.

Section shell.
Context `{!AppEnv}.
Definition check_setup : M Shell unit :=
  try_catch
    (res ← api_get "/setup/status" None;
     c ← prop res "completed";
     modify (λ s, set_setup (setupChecked s) (json_truthy c) s);;
     modify (λ s, set_setup true (setupCompleted s) s))
    (λ _, modify (λ s, set_setup true (setupCompleted s) s)).
(** [localStorage] keeps whether the sidebar is collapsed. *)
Definition stored_collapsed (b : browser) : bool :=
  if has_window b then bool_decide (storage b !! js "sidebar-collapsed" = Some (js "true")) else false.
Definition toggleSidebar : M Shell unit :=
  s ← get_state;
  let next := negb (sidebarCollapsed s) in
  storage_set "sidebar-collapsed" (if next then "true" else "false");;
  modify (λ s, set_nav (mobileOpen s) next s).
End shell.

(** *** Redirections of the whole application

    The effects of one commit run from the page outwards: the onboarding page,
    the bootstrap, the guards; the last navigation wins. *)
Definition onboarding_page (s : Shell) : option jstr :=
  if (sh_path s =?s "/onboarding") && bool_decide (is_Some (currentOrg (org (sh_boot s)))) && shows_page (AppShell s)
  then Some (js "/") else None.
Definition redirects (s : Shell) : list jstr :=
  option_list (onboarding_page s) ++ option_list (onboarding_effect (sh_boot s)) ++ option_list (guard s).
Definition follow (s : Shell) : option Shell := (λ p, go_to p s) <$> last (redirects s).
(** Following redirections at most [n] times. *)
Fixpoint settle (n : nat) (s : Shell) : Shell :=
  match n with O => s | S n => match follow s with Some t => settle n t | None => s end end.

(** ** Navigation *)

Record nav_item := { nv_href : jstr; nv_label : jstr; nv_external : bool }.
(** The labels come from the messages of the language, [t]. *)
Section navigation.
Context `{!JSRuntime} (t : jstr → jstr) (docs_env : option jstr).
Definition navItems : list nav_item := [
  {| nv_href := "/"; nv_label := t "home"; nv_external := false |};
  {| nv_href := docsUrl docs_env []; nv_label := t "docs"; nv_external := true |}].
Definition manageItems : list nav_item := [
  {| nv_href := "/dashboard"; nv_label := t "dashboard"; nv_external := false |};
  {| nv_href := "/domains"; nv_label := t "domains"; nv_external := false |};
  {| nv_href := "/teams"; nv_label := t "teams"; nv_external := false |};
  {| nv_href := "/webhooks"; nv_label := t "webhooks"; nv_external := false |};
  {| nv_href := "/api-keys"; nv_label := t "apiKeys"; nv_external := false |};
  {| nv_href := "/audit"; nv_label := t "auditLog"; nv_external := false |};
  {| nv_href := "/analytics"; nv_label := t "analytics"; nv_external := false |};
  {| nv_href := "/settings"; nv_label := t "settings"; nv_external := false |}].
Definition visibleManageItems (orgs : list Organization) (u : option User) : list nav_item :=
  if (0 <? length orgs)%nat then manageItems
  else if from_option User_is_system_admin false u
       then List.filter (λ i, (nv_href i =?s "/settings") || (nv_href i =?s "/audit")) manageItems else [].
Definition nav_active (pathname : jstr) (i : nav_item) : bool :=
  if nv_external i then false else if nv_href i =?s "/" then pathname =?s "/" else startsWith pathname (nv_href i).
Definition nav_badge (n : option Z) : option jstr :=
  match n with
  | Some n => if (0 <? n)%Z then Some (if (99 <? n)%Z then js "99+" else show n) else None
  | None => None
  end.
(** [version?.replace(/^v/, "")]. *)
Definition displayVersion (version : option jstr) : option jstr :=
  (λ v, if startsWith v "v" then drop 1 v else v) <$> version.
Definition userInitial (u : option User) : jstr :=
  jor (from_option (λ u, toUpperCase (take 1 (User_display_name u))) [] u)
      (jor (from_option (λ u, toUpperCase (take 1 (User_email u))) [] u) "?").
End navigation.

(** *** Breadcrumbs *)

Definition labels : list (jstr * jstr) := [
  (js "dashboard", js "Dashboard"); (js "inboxes", js "Inboxes"); (js "domains", js "Domains"); (js "teams", js "Teams");
  (js "webhooks", js "Webhooks"); (js "api-keys", js "API Keys"); (js "audit", js "Audit Log"); (js "analytics", js "Analytics");
  (js "settings", js "Settings"); (js "admin", js "Admin"); (js "profile", js "Profile"); (js "sessions", js "Sessions");
  (js "email", js "Email"); (js "delete", js "Delete Account")].
(** [/^[0-9a-f]{8}-[0-9a-f]{4}-/i]. *)
Definition is_hex (c : N) : bool := is_digit c || in_range 97 102 c || in_range 65 70 c.
Definition uuid_like (s : jstr) : bool :=
  (14 <=? length s)%nat && forallb is_hex (take 8 s) && (slice s 8 9 =?s "-") && forallb is_hex (slice s 9 13) && (slice s 13 14 =?s "-").
Definition displayLabel (seg : jstr) (segments : list jstr) (index : nat) : jstr :=
  match map_get labels seg with
  | Some l => l
  | None =>
      if uuid_like seg then
        let parent := match index with O => [] | S i => default [] (segments !! i) end in
        if parent =?s "inboxes" then "Inbox" else if parent =?s "email" then "Message"
        else if parent =?s "domains" then "Domain" else if parent =?s "teams" then "Team" else slice seg 0 8 ++ [8230%N]
      else seg
  end.
Definition path_segments (pathname : jstr) : list jstr := List.filter truthy (split_on 47 pathname).
(** Address, label, and whether it is the page itself. *)
Definition Breadcrumbs (pathname : jstr) : list (jstr * jstr * bool) :=
  let segments := path_segments pathname in
  if (length segments <=? 1)%nat then []
  else imap (λ i seg, ("/" ++ join "/" (take (i + 1) segments), displayLabel seg segments i, (i =? length segments - 1)%nat)) segments.

(** ** The command palette *)

Inductive command_group := GNavigation | GActions.
#[export] Instance command_group_eq_dec : EqDecision command_group.
Proof. solve_decision. Defined.
Record CommandItem := { ci_label : jstr; ci_group : command_group; ci_path : option jstr; ci_action : option jstr }.
#[export] Instance CommandItem_eq_dec : EqDecision CommandItem.
Proof. solve_decision. Defined.
Definition nav_command (l p : jstr) : CommandItem := {| ci_label := l; ci_group := GNavigation; ci_path := Some p; ci_action := None |}.
Definition navigationItems : list CommandItem := [
  nav_command "Dashboard" "/dashboard"; nav_command "Inboxes" "/inboxes"; nav_command "Domains" "/domains"; nav_command "Teams" "/teams";
  nav_command "Webhooks" "/webhooks"; nav_command "API Keys" "/api-keys"; nav_command "Audit Log" "/audit"; nav_command "Analytics" "/analytics";
  nav_command "Settings" "/settings"; nav_command "Profile" "/profile"; nav_command "Profile Sessions" "/profile/sessions"; nav_command "Home" "/"].
Definition adminNavigationItems : list CommandItem := [nav_command "Admin" "/admin"].
Definition actionItems : list CommandItem := [
  {| ci_label := "Create Inbox"; ci_group := GActions; ci_path := Some (js "/inboxes"); ci_action := Some (js "create-inbox") |};
  {| ci_label := "Sign Out"; ci_group := GActions; ci_path := None; ci_action := Some (js "logout") |}].

Record Palette := { pl_open : bool; query : jstr; selectedIndex : Z; recents : list jstr; pl_auth : AuthState }.
Definition set_palette (o : bool) (q : jstr) (i : Z) (s : Palette) : Palette :=
  {| pl_open := o; query := q; selectedIndex := i; recents := recents s; pl_auth := pl_auth s |}.
Definition set_recents (l : list jstr) (s : Palette) : Palette :=
  {| pl_open := pl_open s; query := query s; selectedIndex := selectedIndex s; recents := l; pl_auth := pl_auth s |}.
Definition set_selected (i : Z) (s : Palette) : Palette := set_palette (pl_open s) (query s) i s.

(** [JSON.parse] of what the palette stored, an array of strings. *)
Fixpoint parse_items (fuel : nat) (t : jstr) : option (list jstr) :=
  match fuel, t with
  | S fuel, 34%N :: t1 =>
      match unquote t1 with
      | Some (s, 44%N :: r) => cons s <$> parse_items fuel r
      | Some (s, [93%N]) => Some [s]
      | _ => None
      end
  | _, _ => None
  end.
Definition parse_strings (t : jstr) : option (list jstr) :=
  match t with
  | [91%N; 93%N] => Some []
  | 91%N :: t' => parse_items (length t) t'
  | _ => None
  end.

Section palette.
Context `{!AppEnv, !JSRuntime}.

Definition load_recents : M Palette unit :=
  stored ← storage_get "cmd-recents";
  match stored with
  | Some ((_ :: _) as t) => match parse_strings t with Some l => modify (set_recents l) | None => mret tt end
  | _ => mret tt
  end.
Definition palette_shortcut (e : key_event) (s : Palette) : Palette :=
  if (metaKey e || ctrlKey e) && (key e =?s "k") then set_palette (negb (pl_open s)) (query s) (selectedIndex s) s else s.

Definition allItems (admin : bool) : list CommandItem :=
  (if admin then navigationItems ++ adminNavigationItems else navigationItems) ++ actionItems.
Definition filtered (admin : bool) (q : jstr) : list CommandItem :=
  List.filter (λ i, includes (toLowerCase (ci_label i)) (toLowerCase q)) (allItems admin).
Definition in_group (g : command_group) (l : list CommandItem) : list CommandItem := List.filter (λ i, bool_decide (ci_group i = g)) l.
Definition groupedFiltered (admin : bool) (q : jstr) : list CommandItem :=
  in_group GNavigation (filtered admin q) ++ in_group GActions (filtered admin q).
(** The entries under Recent, shown above the others while nothing is typed. *)
Definition recent_items (admin : bool) (s : Palette) : list CommandItem :=
  if truthy (query s) then []
  else omap (λ l, List.find (λ i, ci_label i =?s l) (allItems admin)) (recents s).
(** The rows on screen, numbered from the top; the selected one is marked. *)
Definition palette_rows (admin : bool) (s : Palette) : list CommandItem := recent_items admin s ++ groupedFiltered admin (query s).
Definition highlighted (admin : bool) (s : Palette) : option CommandItem :=
  if (selectedIndex s <? 0)%Z then None else palette_rows admin s !! Z.to_nat (selectedIndex s).

Definition query_effect (s : Palette) : Palette := set_selected 0 s.
Definition onQuery (q : jstr) (s : Palette) : Palette := query_effect (set_palette (pl_open s) q (selectedIndex s) s).
Definition handleOpenChange (v : bool) (s : Palette) : Palette :=
  if v then set_palette v (query s) (selectedIndex s) s else set_palette v [] 0 s.
Definition updated_recents (item : CommandItem) (l : list jstr) : list jstr :=
  take 5 (ci_label item :: List.filter (λ r, negb (r =?s ci_label item)) l).
Definition executeItem (closure : Palette) (item : CommandItem) : M Palette unit :=
  let updated := updated_recents item (recents closure) in
  modify (set_recents updated);;
  storage_set "cmd-recents" (stringify (JArr (JStr <$> updated)));;
  (if bool_decide (ci_action item = Some (js "logout"))
   then zoom pl_auth (λ a s, {| pl_open := pl_open s; query := query s; selectedIndex := selectedIndex s; recents := recents s; pl_auth := a |}) logout
   else match ci_path item with Some p => when (truthy p) (emit (EPush p)) | None => mret tt end);;
  modify (λ s, set_palette false [] 0 s).
(** An index without an item makes the handler throw. *)
Definition handleKeyDown (admin : bool) (k : jstr) (c : Palette) : M Palette unit :=
  let items := groupedFiltered admin (query c) in
  if k =?s "ArrowDown" then modify (λ s, set_selected (Z.min (selectedIndex s + 1) (Z.of_nat (length items) - 1)) s)
  else if k =?s "ArrowUp" then modify (λ s, set_selected (Z.max (selectedIndex s - 1) 0) s)
  else if (k =?s "Enter") && (0 <? length items)%nat then
    match (if (selectedIndex c <? 0)%Z then None else items !! Z.to_nat (selectedIndex c)) with
    | Some item => executeItem c item
    | None => throw (PlainError "Cannot read properties of undefined (reading 'label')")
    end
  else mret tt.
(** A row under the mouse, and a click on it. *)
Definition row_hover (i : nat) (s : Palette) : Palette := set_selected (Z.of_nat i) s.
Definition row_click (admin : bool) (i : nat) (c : Palette) : M Palette unit :=
  match palette_rows admin c !! i with Some item => executeItem c item | None => mret tt end.
End palette.

(** ** What the guards do *)

(** The login page is for somebody who is not signed in and asks for a page that
    is neither public nor the landing page, once the setup is known to be done. *)
Theorem guard_login_spec (s : Shell) :
  guard s = Some (js "/login") ↔
  setupChecked s = true ∧ setupCompleted s = true ∧ sh_loading s = false ∧ sh_user s = None ∧ isPublic s = false ∧ sh_path s ≠ js "/".
Proof.
  assert (Hs : sh_path s = js "/setup" → isPublic s = true) by (unfold isPublic; by intros ->).
  unfold guard, isLanding. destruct (sh_path s =?s "/setup") eqn:E1.
  - apply jeqb_eq in E1. rw (Hs E1). split; [|naive_solver].
    destruct (setupChecked s), (setupCompleted s), (sh_loading s), (sh_user s), (shouldBounceAuth s); done.
  - destruct (sh_path s =?s "/") eqn:E2; [apply jeqb_eq in E2|apply jeqb_neq in E2];
      destruct (setupChecked s), (setupCompleted s), (sh_loading s), (sh_user s), (shouldBounceAuth s), (isPublic s); cbn; naive_solver.
Qed.
(** The demo page is not among the public ones: a visitor is sent to the login
    page. *)
Theorem try_page_needs_login (s : Shell) :
  setupChecked s = true → setupCompleted s = true → sh_loading s = false → sh_user s = None → sh_path s = js "/try" →
  guard s = Some (js "/login").
Proof.
  intros H1 H2 H3 H4 H5. unfold guard, isPublic, isLanding. by rw H1 H2 H3 H4 H5.
Qed.
(** Somebody without an organisation may stay on the profile page but sees the
    spinner: without an organisation no role is ever loaded. *)
Theorem profile_without_org_spins (s : Shell) (u : User) :
  sh_user s = Some u → User_is_system_admin u = false → currentRole (org (sh_boot s)) = None → sh_path s = js "/profile" →
  onboarding_effect (sh_boot s) = None ∧ AppShell s = LLoading ∧ (currentOrg (org (sh_boot s)) = None → role_effect (sh_boot s) = None).
Proof.
  unfold sh_user, sh_path. intros Hu Ha Hr Hp. split_and!.
  - unfold onboarding_effect. rw Hu Hp Ha. by destruct (orgsLoaded (sh_boot s)).
  - unfold AppShell, roleResolved, sh_admin, sh_user, isPublic, sh_path. rw Hu Hr Hp. cbn. rw Ha. cbn.
    by destruct (setupChecked s), (sh_loading s).
  - intros Hc. unfold role_effect. by rw Hu Hc.
Qed.

(** *** Redirections end *)

Lemma onboarding_effect_cases b : onboarding_effect b = None ∨ (onboarding_effect b = Some (js "/onboarding") ∧ orgs (org b) = [] ∧ user b ≠ None).
Proof.
  unfold onboarding_effect. destruct (user b); [|by left]. repeat case_match; try by left. right. split_and!; [done| |done].
  bool_to_prop. by apply length_zero_iff_nil.
Qed.
Lemma redirects_setup s : redirects (go_to "/setup" s) = [].
Proof.
  assert (E : onboarding_effect (sh_boot (go_to "/setup" s)) = None).
  { unfold onboarding_effect. cbn. destruct (user (sh_boot s)); [|done]. by case_match. }
  unfold redirects. rw E. unfold onboarding_page, guard. cbn.
  by destruct (setupChecked s), (setupCompleted s), (sh_loading s), (user (sh_boot s)).
Qed.
(** The state in which the guards no longer insist on the setup. *)
Definition setup_ok (s : Shell) : Prop := setupChecked s = false ∨ setupCompleted s = true.
Lemma redirects_login s : setup_ok s → sh_user s = None → redirects (go_to "/login" s) = [].
Proof.
  intros Hs Hu. unfold sh_user in Hu. unfold redirects, onboarding_page, onboarding_effect, guard, sh_user. cbn. rw Hu. cbn.
  by destruct Hs as [->| ->], (setupChecked s), (sh_loading s).
Qed.
Lemma redirects_onboarding s : setup_ok s → currentOrg (org (sh_boot s)) = None → redirects (go_to "/onboarding" s) = [].
Proof.
  intros Hs Hc.
  assert (E : onboarding_effect (sh_boot (go_to "/onboarding" s)) = None).
  { unfold onboarding_effect. cbn. destruct (user (sh_boot s)); [|done]. by case_match. }
  unfold redirects. rw E. unfold onboarding_page, guard. cbn. rw Hc. cbn.
  by destruct Hs as [->| ->], (setupChecked s), (sh_loading s), (user (sh_boot s)).
Qed.
Lemma redirects_home s : setup_ok s → sh_user s ≠ None → redirects (go_to "/" s) = option_list (onboarding_effect (sh_boot (go_to "/" s))).
Proof.
  intros Hs Hu. unfold sh_user in Hu. unfold redirects.
  assert (E1 : onboarding_page (go_to "/" s) = None) by done.
  assert (E2 : guard (go_to "/" s) = None).
  { unfold guard, sh_user. cbn. by destruct Hs as [->| ->], (setupChecked s), (sh_loading s), (user (sh_boot s)). }
  rw E1 E2. cbn. by rw app_nil_r.
Qed.
Lemma guard_none_setup s : guard s = None → setup_ok s ∨ sh_path s = js "/setup".
Proof.
  unfold guard, setup_ok. destruct (setupChecked s), (setupCompleted s); cbn; auto.
  destruct (sh_path s =?s "/setup") eqn:E; [apply jeqb_eq in E; auto|done].
Qed.
Lemma guard_some s p : guard s = Some p →
  p = js "/setup" ∨ (setup_ok s ∧ ((p = js "/login" ∧ sh_user s = None) ∨ (p = js "/" ∧ sh_user s ≠ None))).
Proof.
  assert (Hs : sh_path s = js "/setup" → isPublic s = true ∧ shouldBounceAuth s = false).
  { unfold isPublic, shouldBounceAuth. by intros ->. }
  unfold guard, setup_ok. destruct (sh_path s =?s "/setup") eqn:E.
  - apply jeqb_eq, Hs in E as [E1 E2]. rw E1 E2 andb_false_r. cbn [negb andb]. by repeat case_match.
  - destruct (setupChecked s), (setupCompleted s); cbn [negb andb]; try done; [|intros [= <-]; by left].
    repeat case_match; try done; intros [= <-]; right; auto.
Qed.
Definition consistent (s : Shell) : Prop := orgs (org (sh_boot s)) = [] → currentOrg (org (sh_boot s)) = None.
Lemma home_settles s : setup_ok s → consistent s → sh_user s ≠ None →
  redirects (go_to "/" s) = [] ∨ (redirects (go_to "/" s) = [js "/onboarding"] ∧ redirects (go_to "/onboarding" s) = []).
Proof.
  intros Hs Hc Hu. rw redirects_home //.
  destruct (onboarding_effect_cases (sh_boot (go_to "/" s))) as [->|(-> & Ho & _)]; [by left|right].
  split; [done|]. apply redirects_onboarding; [done|by apply Hc].
Qed.
Lemma settle_done n s : redirects s = [] → settle n s = s.
Proof. intros E. destruct n as [|n]; [done|]. cbn. unfold follow. by rw E. Qed.
Lemma settle_go n s p : last (redirects s) = Some p → settle (S n) s = settle n (go_to p s).
Proof. intros E. cbn. unfold follow. by rw E. Qed.
(** C27: redirections always end: as long as no organisation is selected that is
    missing from a loaded empty list, the guards, the bootstrap and the
    onboarding page send the browser on at most twice. *)
Theorem redirects_settle (s : Shell) : consistent s → redirects (settle 2 s) = [].
Proof.
  intros Hc. destruct (last (redirects s)) as [p|] eqn:El.
  2: { apply last_None in El. by rw settle_done. }
  rw (settle_go 1 s p El).
  assert (Hhome : setup_ok s → sh_user s ≠ None → redirects (settle 1 (go_to "/" s)) = []).
  { intros Hs Hu. destruct (home_settles s Hs Hc Hu) as [E|[E1 E2]]; [by rw settle_done|].
    rw (settle_go 0 _ (js "/onboarding")); [exact E2|by rw E1]. }
  unfold redirects in El. destruct (guard s) as [q|] eqn:Eg.
  - cbn [option_list] in El. rewrite app_assoc last_snoc in El. injection El as ->.
    destruct (guard_some s p Eg) as [->|[Hs [[-> Hu]|[-> Hu]]]].
    + rw settle_done; apply redirects_setup.
    + rw settle_done; by apply redirects_login.
    + by apply Hhome.
  - cbn [option_list] in El. rewrite app_nil_r in El. destruct (onboarding_effect_cases (sh_boot s)) as [E|(E & Ho & Hu)]; rewrite E in El.
    + cbn in El. rewrite app_nil_r in El. unfold onboarding_page in El. destruct (_ && _) eqn:Ep in El; [|done]. injection El as <-. bool_to_prop.
      assert (Hp : sh_path s = js "/onboarding") by (by apply jeqb_eq).
      destruct (guard_none_setup s Eg) as [Hs|Hs]; [|rewrite Hs in Hp; discriminate].
      destruct (decide (sh_user s = None)) as [Hn|Hn]; [|by apply Hhome].
      assert (Er : redirects (go_to "/" s) = []).
      { unfold redirects, onboarding_page, onboarding_effect, guard, sh_user in *. cbn. rw Hn. cbn. by destruct Hs as [->| ->], (setupChecked s), (sh_loading s). }
      by rw settle_done.
    + cbn [option_list] in El. rewrite last_snoc in El. injection El as <-.
      destruct (guard_none_setup s Eg) as [Hs|Hs].
      * rw settle_done; (apply redirects_onboarding; [done|by apply Hc]).
      * exfalso. unfold onboarding_effect in E. unfold sh_path in Hs. rewrite Hs in E. destruct (user (sh_boot s)); [|done]. by destruct (_ || _).
Qed.

(** With an organisation selected that the loaded list no longer has, the home
    page and the onboarding page send the browser back and forth for ever. *)
Theorem stale_org_redirect_loop (s : Shell) (u : User) :
  setupChecked s = true → setupCompleted s = true → sh_loading s = false → sh_user s = Some u → User_is_system_admin u = false →
  orgsLoaded (sh_boot s) = true → orgs (org (sh_boot s)) = [] → is_Some (currentOrg (org (sh_boot s))) →
  follow (go_to "/" s) = Some (go_to "/onboarding" s) ∧ follow (go_to "/onboarding" s) = Some (go_to "/" s).
Proof.
  unfold sh_user. intros H1 H2 H3 H4 H5 H6 H7 [o H8].
  assert (Hp : ∀ p, existsb (startsWith p) ONBOARDING_SKIP_PATHS = false → onboarding_effect (sh_boot (go_to p s)) = Some (js "/onboarding")).
  { intros p Hs. unfold onboarding_effect. cbn [sh_boot go_to set_path user orgsLoaded path org]. by rw H4 H6 H5 H7 Hs. }
  split.
  - unfold follow, redirects. rewrite (Hp (js "/") eq_refl). unfold onboarding_page, guard, sh_user. cbn. by rw H1 H2 H3 H4.
  - assert (E : onboarding_effect (sh_boot (go_to "/onboarding" s)) = None).
    { unfold onboarding_effect. cbn. rw H4. by case_match. }
    unfold follow, redirects. rw E. unfold onboarding_page, AppShell, guard, sh_user. cbn. rw H1 H2 H3 H4 H8. by destruct (roleResolved (go_to "/onboarding" s)).
Qed.

(** ** The palette *)

Section palette_facts.
Context `{!AppEnv, !JSRuntime}.

(** While no recent entries are shown, Enter runs exactly the row that is
    marked, as a click on it does, whatever was typed and wherever the keys
    and the mouse moved the mark. *)
Theorem enter_runs_highlighted (admin : bool) (c : Palette) (item : CommandItem) :
  recent_items admin c = [] → highlighted admin c = Some item →
  handleKeyDown admin "Enter" c = executeItem c item ∧ row_click admin (Z.to_nat (selectedIndex c)) c = executeItem c item.
Proof.
  unfold highlighted, palette_rows. intros Hr. rw Hr app_nil_l. destruct (selectedIndex c <? 0)%Z eqn:Ei; [done|]. intros Hi.
  split; [|unfold row_click, palette_rows; by rw Hr app_nil_l Hi].
  unfold handleKeyDown. cbn [jeqb]. change (js "Enter" =?s "ArrowDown") with false. change (js "Enter" =?s "ArrowUp") with false.
  change (js "Enter" =?s "Enter") with true. cbn [andb]. rw Ei Hi.
  assert (0 <? length (groupedFiltered admin (query c)) = true)%nat as ->; [|done].
  apply Nat.ltb_lt. apply lookup_lt_Some in Hi. lia.
Qed.
(** With recent entries the rows are numbered from them, but Enter looks only at
    the others: it runs the entry that many rows further down. *)
Theorem enter_skips_recents (admin : bool) (c : Palette) (item : CommandItem) (i : nat) :
  selectedIndex c = Z.of_nat i → groupedFiltered admin (query c) !! i = Some item →
  handleKeyDown admin "Enter" c = executeItem c item ∧
  palette_rows admin c !! (length (recent_items admin c) + i) = Some item.
Proof.
  intros Hi Hl. split; [|unfold palette_rows; rewrite lookup_app_r; [|lia]; by replace (_ + i - _) with i by lia].
  unfold handleKeyDown. change (js "Enter" =?s "ArrowDown") with false. change (js "Enter" =?s "ArrowUp") with false.
  change (js "Enter" =?s "Enter") with true. cbn [andb]. rw Hi Nat2Z.id Hl.
  assert (0 <? length (groupedFiltered admin (query c)) = true)%nat as ->; [apply Nat.ltb_lt; apply lookup_lt_Some in Hl; lia|].
  by destruct (Z.ltb_spec (Z.of_nat i) 0); [lia|].
Qed.

Lemma updated_recents_NoDup item l : NoDup l → NoDup (updated_recents item l).
Proof.
  intros Hl. unfold updated_recents. apply (sublist_NoDup _ (ci_label item :: List.filter (λ r, negb (r =?s ci_label item)) l)).
  - constructor; [|by apply NoDup_List_filter]. rw elem_of_List_filter jeqb_refl. by intros [_ ?].
  - apply sublist_take.
Qed.
(** The recent entries are different, at most five, and the newest is first. *)
Theorem recents_bounded (item : CommandItem) (l : list jstr) :
  NoDup l → NoDup (updated_recents item l) ∧ length (updated_recents item l) ≤ 5 ∧ head (updated_recents item l) = Some (ci_label item).
Proof. intros Hl. split_and!; [by apply updated_recents_NoDup|unfold updated_recents; rewrite length_take; lia|done]. Qed.

Lemma parse_items_quote fuel s t :
  parse_items (S fuel) (quote s ++ t) =
  match t with 44%N :: r => cons s <$> parse_items fuel r | [93%N] => Some [s] | _ => None end.
Proof.
  change (quote s ++ t) with (34%N :: (quote_units s ++ [34%N]) ++ t). rewrite -app_assoc.
  change ([34%N] ++ t) with (34%N :: t). cbn [parse_items]. rewrite unquote_units. by destruct t as [|c [|]].
Qed.
Lemma parse_items_all fuel s l : length l < fuel →
  parse_items fuel (quote s ++ more_items quote l ++ [93%N]) = Some (s :: l).
Proof.
  revert s fuel. induction l as [|x l IH]; intros s [|fuel] Hf; cbn [length] in Hf; try lia; rewrite parse_items_quote; [done|].
  unfold more_items. rewrite bind_cons -app_assoc. cbn [app]. fold (more_items quote l).
  assert (E : parse_items fuel (quote x ++ more_items quote l ++ [93%N]) = Some (x :: l)) by (apply IH; lia). by rewrite E.
Qed.
Lemma more_items_length l : length l ≤ length (more_items quote l).
Proof. induction l as [|x l IH]; [done|]. unfold more_items in *. rewrite bind_cons length_app. cbn. lia. Qed.
(** What the palette stores of its recent entries is what it loads again. *)
Theorem recents_survive_reload (l : list jstr) : parse_strings (stringify (JArr (JStr <$> l))) = Some l.
Proof.
  destruct l as [|x l]; [done|].
  assert (E : stringify (JArr (JStr <$> x :: l)) = 91%N :: quote x ++ more_items quote l ++ [93%N]).
  { unfold stringify; fold stringify. f_equal. rewrite app_assoc. f_equal.
    change (JStr <$> x :: l) with (List.map JStr (x :: l)). rewrite List.map_map. apply (join_items quote). }
  rewrite E. unfold parse_strings.
  assert (Ep : parse_items (length (91%N :: quote x ++ more_items quote l ++ [93%N])) (quote x ++ more_items quote l ++ [93%N]) = Some (x :: l)).
  { apply parse_items_all. cbn. rewrite !length_app. pose proof (more_items_length l). lia. }
  rewrite -Ep. reflexivity.
Qed.
End palette_facts.

(** ** Navigation *)

Section navigation_facts.
Context (t : jstr → jstr).
Definition prefix_free (l : list jstr) : Prop := ∀ i j a b, l !! i = Some a → l !! j = Some b → startsWith a b = true → i = j.
Lemma startsWith_both p a b : startsWith p a = true → startsWith p b = true → startsWith a b = true ∨ startsWith b a = true.
Proof.
  rw !startsWith_app. intros [u ->] [v E]. destruct (app_eq_inv _ _ _ _ E) as [(k & -> & _)|(k & -> & _)]; [left|right]; by exists k.
Qed.
(** On every page at most one entry of the sidebar is marked. *)
Theorem one_active_item (pathname : jstr) (i j : nat) (a b : nav_item) :
  manageItems t !! i = Some a → manageItems t !! j = Some b → nav_active pathname a = true → nav_active pathname b = true → i = j.
Proof.
  intros Ha Hb Aa Ab.
  assert (Hp : prefix_free (nv_href <$> manageItems t)).
  { assert (Hall : ∀ m n, m < 8 → n < 8 → m ≠ n → startsWith ((nv_href <$> manageItems t) !!! m) ((nv_href <$> manageItems t) !!! n) = false).
    { intros m n Hm Hn. do 8 (destruct m as [|m]; [do 8 (destruct n as [|n]; [done|]); lia|]). lia. }
    intros m n x y Hx Hy Hs. destruct (decide (m = n)); [done|]. pose proof (lookup_lt_Some _ _ _ Hx). pose proof (lookup_lt_Some _ _ _ Hy).
    rewrite -(list_lookup_total_correct _ _ _ Hx) -(list_lookup_total_correct _ _ _ Hy) Hall in Hs; done. }
  assert (Hs : ∀ k x, manageItems t !! k = Some x → nav_active pathname x = true → startsWith pathname (nv_href x) = true).
  { intros k x Hk. assert (Hin : x ∈ manageItems t) by (by eapply list_elem_of_lookup_2). unfold nav_active.
    assert (Hx : nv_external x = false ∧ (nv_href x =?s "/") = false).
    { unfold manageItems in Hin. rewrite !elem_of_cons elem_of_nil in Hin. naive_solver. }
    destruct Hx as [-> ->]. done. }
  destruct (startsWith_both pathname (nv_href a) (nv_href b)) as [E|E]; [by eapply Hs|by eapply Hs| |].
  - eapply Hp; [| |exact E]; rewrite list_lookup_fmap; [by rewrite Ha|by rewrite Hb].
  - symmetry. eapply Hp; [| |exact E]; rewrite list_lookup_fmap; [by rewrite Hb|by rewrite Ha].
Qed.
End navigation_facts.

(** ** Instances *)

Definition a_user : User := {|
  User_id := "u"; User_email := "a@b.c"; User_display_name := "Ada"; User_sso_provider := None; User_is_system_admin := false;
  User_email_verified := true; User_timezone := None; User_date_format := None; User_time_format := None; User_auth_method_lock := None;
  User_max_sessions := None; User_last_login_at := None; User_created_at := []; User_updated_at := [] |}.
Definition shell_with (b : boot) : Shell := {|
  sh_boot := b; sh_loading := false; setupChecked := true; setupCompleted := true; mobileOpen := false; sidebarCollapsed := false |}.
(** A new user without organisations on the login page: home, then onboarding. *)
Definition new_user : Shell := shell_with (Boot (Some a_user) "/login" org_init true false "/login" 0).
Lemma redirects_settle_witness : redirects (settle 2 new_user) = [] ∧ sh_path (settle 2 new_user) = js "/onboarding".
Proof. split; [apply redirects_settle; intros _; reflexivity|reflexivity]. Defined.

(** Somebody who was removed from the only organisation, found out on leaving
    the page of an invitation. *)
Definition removed_member (o : Organization) : boot :=
  orgs_settle (Some []) (fetch_effect (set_path "/" (fetch_effect (set_path "/invite" (select_effect
    (orgs_settle (Some [o]) (fetch_effect (set_user (Some a_user) (boot_init "/"))))))))).
Theorem stale_org_reachable (o : Organization) :
  rtc boot_step (boot_init "/") (removed_member o) ∧
  follow (shell_with (removed_member o)) = Some (go_to "/onboarding" (shell_with (removed_member o))) ∧
  follow (go_to "/onboarding" (shell_with (removed_member o))) = Some (go_to "/" (shell_with (removed_member o))).
Proof.
  split; [|split; reflexivity]. unfold removed_member.
  eapply rtc_l; [apply (b_user _ (Some a_user))|]. eapply rtc_l; [apply b_fetch|]. eapply rtc_l; [apply (b_settle _ (Some [o])); by apply Nat.ltb_lt|].
  eapply rtc_l; [apply b_select|]. eapply rtc_l; [apply (b_path _ (js "/invite"))|]. eapply rtc_l; [apply b_fetch|].
  eapply rtc_l; [apply (b_path _ (js "/"))|].
  eapply rtc_l; [apply b_fetch|]. eapply rtc_l; [apply (b_settle _ (Some [])); by apply Nat.ltb_lt|]. reflexivity.
Qed.

Definition typed_dom : Palette := {| pl_open := true; query := "dom"; selectedIndex := 0; recents := [js "Settings"]; pl_auth := auth_init |}.
Lemma enter_runs_highlighted_witness :
  handleKeyDown (H := default_env) (H0 := AsciiRuntime) false "Enter" typed_dom
  = executeItem (H := default_env) typed_dom (nav_command "Domains" "/domains").
Proof. apply (enter_runs_highlighted (H := default_env) (H0 := AsciiRuntime) false typed_dom); vm_compute; reflexivity. Defined.
(** Settings was used last and is marked; Enter opens the dashboard. *)
Theorem enter_runs_another_entry :
  let c := {| pl_open := true; query := []; selectedIndex := 0; recents := [js "Settings"]; pl_auth := auth_init |} in
  highlighted (H0 := AsciiRuntime) false c = Some (nav_command "Settings" "/settings") ∧
  handleKeyDown (H := default_env) (H0 := AsciiRuntime) false "Enter" c = executeItem (H := default_env) c (nav_command "Dashboard" "/dashboard").
Proof.
  intros c. split; [vm_compute; reflexivity|].
  apply (enter_skips_recents (H := default_env) (H0 := AsciiRuntime) false c _ 0); vm_compute; reflexivity.
Qed.
Lemma one_active_item_witness :
  manageItems id !! 7 = Some {| nv_href := "/settings"; nv_label := "settings"; nv_external := false |} ∧ 7 = 7.
Proof.
  split; [reflexivity|].
  apply (one_active_item id "/settings/x" 7 7 {| nv_href := "/settings"; nv_label := "settings"; nv_external := false |}
    {| nv_href := "/settings"; nv_label := "settings"; nv_external := false |}); reflexivity.
Defined.
