(* ===== verification/Analytics.v ===== *)
(** * The analytics page and its figures

    [app/analytics/page.tsx], [chart-tooltip.tsx], [domain-detail-chart.tsx],
    [storage-trend-chart.tsx] and [components/last-updated.tsx]: trends,
    averages, the texts made of them and the views of the organisation and of
    a team. Numbers with a fraction are exact here: the code computes them in
    double precision, whose rounding is left out, and the quotient of two
    logarithms is their exact integer part. *)

From S2P Require Import Prelude Browser Types ApiClient React Lib Json Webhooks SettingsGeneral.

(** ** Numbers *)

(** [n / d]; every caller has checked that [d] is not zero. *)
Definition quotient (n d : Z) : frac :=
  match d with
  | Zpos p => {| fnum := n; fden := p |}
  | Zneg p => {| fnum := - n; fden := p |}
  | Z0 => {| fnum := n; fden := 1 |}
  end.
Definition fle (f g : frac) : bool := (fnum f * Zpos (fden g) <=? fnum g * Zpos (fden f))%Z.
Definition of_int (n : Z) : frac := {| fnum := n; fden := 1 |}.
Definition fmin (f g : frac) : frac := if fle f g then f else g.
Definition fmax (f g : frac) : frac := if fle f g then g else f.
Definition fpos (f : frac) : bool := (0 <? fnum f)%Z.
Definition fneg (f : frac) : bool := (fnum f <? 0)%Z.
(** [toFixed] of any number: the sign, then the digits of the absolute value. *)
Definition signed_fixed (digits : nat) (f : frac) : jstr :=
  (if fneg f then "-" else []) ++
  (if (digits =? 0)%nat then show (math_round {| fnum := Z.abs (fnum f); fden := fden f |})
   else toFixed digits {| fnum := Z.abs (fnum f); fden := fden f |}).
(** [Math.round(sum / length)]. *)
Definition mean (counts : list Z) : Z := math_round (quotient (sumZ counts) (Z.of_nat (length counts))).
(** A share of a total in percent. *)
Definition percent_of (count total : Z) : frac :=
  if (0 <? total)%Z then quotient (count * 100) total else of_int 0.

Definition bytes_units : list jstr := js <$> ["B"; "KB"; "MB"; "GB"; "TB"]%string.
(** [Math.floor(Math.log(bytes) / Math.log(1024))] of a positive number. *)
Definition log1024 (bytes : Z) : Z := (Z.log2 bytes / 10)%Z.
Definition undefined_or (u : option jstr) : jstr := default (js "undefined") u.
Definition analytics_formatBytes (bytes : Z) : jstr :=
  if (bytes =? 0)%Z then "0 B"
  else if (bytes <? 0)%Z then "NaN undefined"
  else
    let index := Z.min (log1024 bytes) 4 in
    toFixed 1 (quotient bytes (1024 ^ index)) ++ " " ++ undefined_or (bytes_units !! Z.to_nat index).
Definition analytics_formatHour (hour : Z) : jstr :=
  if (hour =? 0)%Z then "12am" else if (hour =? 12)%Z then "12pm"
  else if (hour <? 12)%Z then show hour ++ "am" else show (hour - 12) ++ "pm".

(** ** Trends *)

(** The series is given by its counts. *)
Definition computeTrend (counts : list Z) : option frac :=
  if (length counts <? 2)%nat then None
  else
    let midpoint := (length counts / 2)%nat in
    let previousSum := sumZ (take midpoint counts) in
    let currentSum := sumZ (drop midpoint counts) in
    if (previousSum =? 0)%Z then None
    else Some (fmax (of_int (-999)) (fmin (of_int 999) (quotient ((currentSum - previousSum) * 100) previousSum))).

(** The trend of a card: its direction and its text. *)
Inductive direction := Up | Down | Flat.
#[export] Instance direction_eq_dec : EqDecision direction.
Proof. solve_decision. Defined.
Record metric_card := { mc_label : jstr; mc_value : jstr; mc_trend : option (direction * jstr) }.
Definition MetricCard (label value : jstr) (trend : option frac) : metric_card := {|
  mc_label := label; mc_value := value;
  mc_trend := (λ t, if fpos t then (Up, "+" ++ signed_fixed 1 (fmin t (of_int 999)) ++ "%")
                    else (Down, signed_fixed 1 (fmax t (of_int (-999))) ++ "%")) <$> trend |}.

(** ** Charts *)

Record Hour := { h_hour : Z; h_count : Z }.
Record StorageDay := { sd_date : jstr; sd_bytes : Z }.
Record Insights := {
  inboxes_per_day : option (list EmailsPerDay);
  peak_hours : option (list Hour);
  domain_breakdown : option (list SenderDomain);
  storage_per_day : option (list StorageDay)
}.
Definition RANGES : list (jstr * jstr) := [(js "7 days", js "7"); (js "30 days", js "30"); (js "90 days", js "90")].
Definition series_counts (l : list EmailsPerDay) : list Z := EmailsPerDay_count <$> l.

(** What a query shows: no data yet, an error, or data that may be kept while
    another fetch runs or has failed. *)
Record query (A : Type) := Query { q_data : option A; q_loading : bool; q_error : bool }.
Arguments Query {A} _ _ _.
Arguments q_data {A} _.
Arguments q_loading {A} _.
Arguments q_error {A} _.

Section tooltip.
(** [n.toLocaleString()]. *)
Context (localeNumber : Z → jstr).

Record tooltip := { tt_label : jstr; tt_value : jstr; tt_unit : jstr; tt_delta : option jstr }.
Definition ChartTooltip (active : bool) (payload : option (list Z)) (label : jstr) (average : Z) (unit : jstr)
    (labelFormatter : option (jstr → jstr)) (valueFormatter : option (Z → jstr)) : option tooltip :=
  if negb active then None
  else match payload with
  | None | Some [] => None
  | Some (value :: _) => Some {|
      tt_label := match labelFormatter with Some f => f label | None => label end;
      tt_value := match valueFormatter with Some f => f value | None => localeNumber value end;
      tt_unit := unit;
      tt_delta :=
        if (0 <? average)%Z then
          let delta := quotient ((value - average) * 100) average in
          Some ((if fneg delta then [] else "+") ++ signed_fixed 1 delta ++ "% vs avg")
        else None |}
  end.

(** A bar chart: its bars, the average its tooltip compares with, and the
    reference line with its label. *)
Record bars := { br_data : list (jstr * Z); br_average : Z; br_unit : jstr; br_line : option (Z * jstr) }.
Inductive chart := CEmpty (text : jstr) | CBars (b : bars).
Definition day_bars (l : list EmailsPerDay) : list (jstr * Z) := (λ d, (drop 5 (EmailsPerDay_date d), EmailsPerDay_count d)) <$> l.
Definition EmailChart (data : list EmailsPerDay) (average : option Z) : chart :=
  if (length data =? 0)%nat || forallb (λ d, (EmailsPerDay_count d =? 0)%Z) data then CEmpty "No email data for this period."
  else
    let avg := default (mean (series_counts data)) average in
    CBars {| br_data := day_bars data; br_average := avg; br_unit := "emails";
             br_line := if (0 <? avg)%Z then Some (avg, "Avg: " ++ show avg) else None |}.
Definition inbox_chart (data : list EmailsPerDay) : chart :=
  if (length data =? 0)%nat then CEmpty "No inbox data for this period."
  else CBars {| br_data := day_bars data; br_average := mean (series_counts data); br_unit := "inboxes"; br_line := None |}.
Definition hour_chart (data : list Hour) : chart :=
  if (length data =? 0)%nat then CEmpty "No activity data for this period."
  else CBars {| br_data := (λ h, (analytics_formatHour (h_hour h), h_count h)) <$> data;
                br_average := mean (h_count <$> data); br_unit := "emails"; br_line := None |}.
Definition StorageTrendChart (data : list StorageDay) : chart :=
  if (length data =? 0)%nat then CEmpty "No storage data"
  else CBars {| br_data := (λ d, (drop 5 (sd_date d), sd_bytes d)) <$> data;
                br_average := mean (sd_bytes <$> data); br_unit := "storage"; br_line := None |}.

(** [data] is the answer's [data], [isFetching] dims a chart that is being renewed. *)
Inductive detail := DLoading | DText (text : jstr) | DChart (dimmed : bool) (b : bars).
Definition DomainDetailChart (isLoading isError isFetching : bool) (data : option (list EmailsPerDay)) : detail :=
  if isLoading then DLoading
  else match (if isError then None else data) with
  | None => DText "Failed to load domain trend."
  | Some [] => DText "No data for this period."
  | Some l => DChart (isFetching && negb isLoading)
      {| br_data := day_bars l; br_average := mean (series_counts l); br_unit := "emails"; br_line := None |}
  end.

(** A row of a ranking: name, count, share. *)
Definition ranking (digits : nat) (total : Z) (l : list SenderDomain) : list (jstr * jstr * jstr) :=
  (λ d, (SenderDomain_domain d, localeNumber (SenderDomain_count d),
         signed_fixed digits (percent_of (SenderDomain_count d) total) ++ "%")) <$> l.
Definition total_count (l : list SenderDomain) : Z := sumZ (SenderDomain_count <$> l).

(** ** Views *)

Record OrgStats := {
  os_members : Z; os_teams : Z; os_domains : Z; os_inboxes : Z; os_emails : Z; os_active : Z; os_storage : Z;
  os_senders : option (list SenderDomain); os_received : Z; os_created : Z; os_storage_total : Z
}.
Record TeamStats := { ts_members : Z; ts_inboxes : Z; ts_emails : Z; ts_active : Z }.
Record OrgView := { days : jstr; expandedDomain : option jstr }.
Definition org_view_init : OrgView := {| days := "30"; expandedDomain := None |}.
Definition setDays (d : jstr) (s : OrgView) : OrgView := {| days := d; expandedDomain := expandedDomain s |}.
Definition toggle_domain (d : jstr) (s : OrgView) : OrgView :=
  {| days := days s; expandedDomain := if bool_decide (expandedDomain s = Some d) then None else Some d |}.

Definition org_cards (stats : OrgStats) (emails inboxes : list Z) : list metric_card := [
  MetricCard "Total Emails" (localeNumber (os_emails stats)) (computeTrend emails);
  MetricCard "Total Inboxes" (localeNumber (os_inboxes stats)) (computeTrend inboxes);
  MetricCard "Total Domains" (localeNumber (os_domains stats)) None;
  MetricCard "Storage Used" (analytics_formatBytes (os_storage stats) ++ " / " ++ analytics_formatBytes (os_storage_total stats)) None;
  MetricCard "Members" (localeNumber (os_members stats)) None;
  MetricCard "Teams" (localeNumber (os_teams stats)) None;
  MetricCard "Emails Received" (localeNumber (os_received stats)) None;
  MetricCard "Inboxes Created" (localeNumber (os_created stats)) None].
Definition team_cards (stats : TeamStats) (emails inboxes : list Z) : list metric_card := [
  MetricCard "Total Emails" (localeNumber (ts_emails stats)) (computeTrend emails);
  MetricCard "Total Inboxes" (localeNumber (ts_inboxes stats)) (computeTrend inboxes);
  MetricCard "Active Inboxes" (localeNumber (ts_active stats)) None;
  MetricCard "Members" (localeNumber (ts_members stats)) None].

(** A slot of the grid: an error, a skeleton and the chart can all be shown. *)
Record slot := { sl_error : option jstr; sl_skeleton : bool; sl_chart : option chart }.
Inductive ranked := RSkeleton | RHidden | REmpty | RRows (rows : list (jstr * jstr * jstr * bool)).
Record grid := {
  gr_cards : list metric_card; gr_emails : slot; gr_inboxes : slot; gr_storage : slot; gr_hours : slot;
  gr_domains : ranked; gr_senders : list (jstr * jstr * jstr)
}.
Inductive stats_view := VError (message : jstr) | VSkeleton (columns : nat) | VGrid (g : grid).

Definition emails_slot (average : option Z) (ts : query (list EmailsPerDay)) : slot := {|
  sl_error := if q_error ts then Some (js "Failed to load email trends") else None;
  sl_skeleton := q_loading ts;
  sl_chart := (λ l, EmailChart l average) <$> q_data ts |}.
Definition insight_slot {A} (f : A → chart) (q : query Insights) (get : Insights → option A) : slot := {|
  sl_error := None; sl_skeleton := q_loading q; sl_chart := f <$> (q_data q ≫= get) |}.
Definition storage_slot (q : query Insights) : slot := {|
  sl_error := None; sl_skeleton := q_loading q;
  sl_chart := if q_loading q then None else Some (StorageTrendChart (default [] (q_data q ≫= storage_per_day))) |}.
Definition series_of (ts : query (list EmailsPerDay)) : list Z := series_counts (default [] (q_data ts)).
Definition inboxes_of (q : query Insights) : list Z := series_counts (default [] (q_data q ≫= inboxes_per_day)).

Definition OrgAnalytics (s : OrgView) (stats : query OrgStats) (ts : query (list EmailsPerDay)) (insights : query Insights) : stats_view :=
  if q_error stats then VError "Failed to load analytics"
  else if q_loading stats then VSkeleton 2
  else
    let emailAvg := match q_data ts with Some ((_ :: _) as l) => mean (series_counts l) | _ => 0%Z end in
    let senders := default [] (q_data stats ≫= os_senders) in
    VGrid {|
      gr_cards := from_option (λ st, org_cards st (series_of ts) (inboxes_of insights)) [] (q_data stats);
      gr_emails := emails_slot (Some emailAvg) ts;
      gr_inboxes := insight_slot inbox_chart insights inboxes_per_day;
      gr_storage := storage_slot insights;
      gr_hours := insight_slot hour_chart insights peak_hours;
      gr_domains :=
        match q_data insights ≫= domain_breakdown with
        | None => if q_loading insights then RSkeleton else RHidden
        | Some [] => REmpty
        | Some l => RRows ((λ d, ((SenderDomain_domain d, localeNumber (SenderDomain_count d),
                      signed_fixed 1 (percent_of (SenderDomain_count d) (total_count l)) ++ "%"),
                      bool_decide (expandedDomain s = Some (SenderDomain_domain d)))) <$> l)
        end;
      gr_senders := ranking 1 (total_count senders) senders |}.
Definition TeamAnalytics (stats : query TeamStats) (ts : query (list EmailsPerDay)) (insights : query Insights) : stats_view :=
  if q_error stats then VError "Failed to load team analytics"
  else if q_loading stats then VSkeleton 1
  else VGrid {|
    gr_cards := from_option (λ st, team_cards st (series_of ts) (inboxes_of insights)) [] (q_data stats);
    gr_emails := emails_slot None ts;
    gr_inboxes := insight_slot inbox_chart insights inboxes_per_day;
    gr_storage := storage_slot insights;
    gr_hours := {| sl_error := None; sl_skeleton := false; sl_chart := None |};
    gr_domains := RHidden;
    gr_senders := [] |}.
End tooltip.

(** *** The page: which view is shown *)
Section page.
Context `{!AppEnv}.
Definition onValueChange (v : jstr) : jstr := if v =?s "__org__" then [] else v.
Inductive analytics_view := ANoOrg | ATeam (orgId teamId : jstr) | AOrg (orgId : jstr).
Definition AnalyticsPage (currentOrg : option Organization) (teams : list Team) (selectedTeamId : jstr) : analytics_view :=
  match currentOrg with
  | None => ANoOrg
  | Some o =>
      match List.find (λ t, Team_id t =?s selectedTeamId) teams with
      | Some t => if truthy selectedTeamId then ATeam (Organization_id o) (Team_id t) else AOrg (Organization_id o)
      | None => AOrg (Organization_id o)
      end
  end.
Definition view_base (v : analytics_view) : option jstr :=
  match v with
  | ANoOrg => None
  | AOrg o => Some ("/orgs/" ++ o ++ "/analytics")
  | ATeam o t => Some ("/orgs/" ++ o ++ "/teams/" ++ t ++ "/analytics")
  end.
(** The three queries of a view, and that of an expanded domain. *)
Definition load_stats {S} (base : jstr) : M S (option json) := api_get base None.
Definition load_series {S} (base days : jstr) : M S (option json) := api_get (base ++ "/emails-per-day") (Some [(js "days", days)]).
Definition load_insights {S} (base days : jstr) : M S (option json) := api_get (base ++ "/insights") (Some [(js "days", days)]).
Definition load_domain {S} (orgId domain days : jstr) : M S (option json) :=
  api_get ("/orgs/" ++ orgId ++ "/analytics/domain-series") (Some [(js "domain", domain); (js "days", days)]).
End page.

(** *** LastUpdated *)
Definition last_updated_text (now dataUpdatedAt : Z) : jstr :=
  let diff := (now - dataUpdatedAt)%Z in
  if (diff <? 60000)%Z then "just now"
  else if (diff <? 3600000)%Z then show (diff / 60000) ++ "m ago"
  else show (diff / 3600000) ++ "h ago".
(** [text] is what the last run of the interval, every 30 seconds, has set. *)
Record LastUpdatedState := { lu_text : jstr; lu_interval : option Z }.
Definition lu_effect (now : Z) (dataUpdatedAt : option Z) (s : LastUpdatedState) : LastUpdatedState :=
  match dataUpdatedAt with
  | Some t => if (t =? 0)%Z then {| lu_text := lu_text s; lu_interval := None |}
              else {| lu_text := last_updated_text now t; lu_interval := Some 30000%Z |}
  | None => {| lu_text := lu_text s; lu_interval := None |}
  end.
Definition LastUpdated (dataUpdatedAt : option Z) (s : LastUpdatedState) : option jstr :=
  match dataUpdatedAt with
  | Some t => if (t =? 0)%Z || negb (truthy (lu_text s)) then None else Some ("Updated " ++ lu_text s)
  | None => None
  end.

(** ** Theorems *)

Lemma quotient_pos n d : (0 < d)%Z → quotient n d = {| fnum := n; fden := Z.to_pos d |}.
Proof. by destruct d. Qed.
Lemma quotient_den n d : (0 < d)%Z → Zpos (fden (quotient n d)) = d.
Proof. intros. rw quotient_pos //=. lia. Qed.

Lemma sumZ_bounds lo hi l : Forall (λ x, lo <= x <= hi)%Z l → (lo * Z.of_nat (length l) <= sumZ l <= hi * Z.of_nat (length l))%Z.
Proof. induction 1 as [|x l ? ? IH]; [cbn; lia|]. rw sumZ_cons. cbn [length]. lia. Qed.
Lemma sumZ_nonneg l : Forall (Z.le 0) l → (0 <= sumZ l)%Z.
Proof. induction 1; [done|]. rw sumZ_cons. lia. Qed.
Lemma sumZ_replicate n c : sumZ (replicate n c) = (Z.of_nat n * c)%Z.
Proof. induction n; [done|]. cbn [replicate]. rw sumZ_cons. lia. Qed.

(** The average that charts compare with lies between the smallest and the
    largest value. *)
Theorem mean_between (lo hi : Z) (l : list Z) :
  l ≠ [] → Forall (λ x, lo <= x <= hi)%Z l → (lo <= mean l <= hi)%Z.
Proof.
  intros Hne Hb. pose proof (sumZ_bounds _ _ _ Hb) as Hs.
  assert (0 < Z.of_nat (length l))%Z as Hl by (destruct l; simpl in *; [done|lia]).
  unfold mean, math_round. rw quotient_den // quotient_pos //=.
  split; [apply Z.div_le_lower_bound|apply Z.lt_succ_r, Z.div_lt_upper_bound]; nia.
Qed.

(** The sums that a trend compares. *)
Definition earlier (counts : list Z) : Z := sumZ (take (length counts / 2) counts).
Definition later (counts : list Z) : Z := sumZ (drop (length counts / 2) counts).
Lemma halves_nonneg counts : Forall (Z.le 0) counts → (0 <= earlier counts)%Z ∧ (0 <= later counts)%Z.
Proof. intros H. split; apply sumZ_nonneg; [by apply Forall_take|by apply Forall_drop]. Qed.

Lemma computeTrend_unfold counts :
  computeTrend counts =
  if (length counts <? 2)%nat then None else if (earlier counts =? 0)%Z then None
  else Some (fmax (of_int (-999)) (fmin (of_int 999) (quotient ((later counts - earlier counts) * 100) (earlier counts)))).
Proof. done. Qed.

(** The trend of a series without negative counts is absent exactly for
    fewer than two points or an empty first half; otherwise it lies between
    -100 and 999 percent, has the sign of the difference of the halves, and is
    the exact percentage whenever that is at most 999. *)
Theorem computeTrend_spec (counts : list Z) :
  Forall (Z.le 0) counts →
  match computeTrend counts with
  | None => length counts < 2 ∨ earlier counts = 0%Z
  | Some t =>
      2 ≤ length counts ∧ (0 < earlier counts)%Z ∧
      (-100 * Zpos (fden t) <= fnum t <= 999 * Zpos (fden t))%Z ∧
      (fpos t = true ↔ (earlier counts < later counts)%Z) ∧
      (fneg t = true ↔ (later counts < earlier counts)%Z) ∧
      ((100 * later counts <= 1099 * earlier counts)%Z →
       (fnum t * earlier counts = (later counts - earlier counts) * 100 * Zpos (fden t))%Z)
  end.
Proof.
  intros Hn. destruct (halves_nonneg _ Hn) as [He Hl]. rw computeTrend_unfold.
  destruct (Nat.ltb_spec (length counts) 2); [by left|].
  destruct (Z.eqb_spec (earlier counts) 0); [by right|].
  destruct (earlier counts) as [|p|p]; [done| |lia]. cbn [quotient].
  unfold fmin, fmax, fle, of_int, fpos, fneg; cbn [fnum fden].
  repeat case_match; cbn [fnum fden] in *; bool_to_prop; rw !Z.ltb_lt; split_and!; try lia; try split; nia.
Qed.
Lemma computeTrend_spec_witness :
  Forall (Z.le 0) [5; 0; 3; 8; 2]%Z ∧ computeTrend [5; 0; 3; 8; 2]%Z = Some {| fnum := 800; fden := 5 |} ∧
  (-100 * 5 <= 800 <= 999 * 5)%Z.
Proof.
  assert (H : Forall (Z.le 0) [5; 0; 3; 8; 2]%Z) by (repeat constructor; lia).
  split; [exact H|]. split; [vm_compute; reflexivity|].
  pose proof (computeTrend_spec _ H) as (_ & _ & Hb & _). exact Hb.
Defined.

Lemma constant_halves (k n : nat) (c : Z) :
  n = 2 * k ∨ n = 2 * k + 1 →
  earlier (replicate n c) = (Z.of_nat k * c)%Z ∧ later (replicate n c) = (Z.of_nat (n - k) * c)%Z.
Proof.
  intros Hn. unfold earlier, later. assert (n / 2 = k) as Hm by (symmetry; apply Nat.div_unique with (n - 2 * k); lia).
  rw length_replicate Hm take_replicate drop_replicate !sumZ_replicate. split; f_equal; lia.
Qed.

(** Unchanging traffic over an odd number of days is reported as growth, since
    the second half has one day more: by 100/k percent for 2k+1 days. *)
Theorem constant_odd_trend (k : nat) (c : Z) :
  0 < k → (0 < c)%Z →
  ∃ t, computeTrend (replicate (2 * k + 1) c) = Some t ∧ (fnum t * Z.of_nat k = 100 * Zpos (fden t))%Z.
Proof.
  intros Hk Hc. destruct (constant_halves k (2 * k + 1) c) as [He Hl]; [by right|].
  rw computeTrend_unfold He Hl length_replicate. destruct (Nat.ltb_spec (2 * k + 1) 2); [lia|].
  rw (_ : Z.of_nat (2 * k + 1 - k) * c - Z.of_nat k * c = c)%Z; [|lia].
  destruct (Z.of_nat k * c)%Z as [|p|p] eqn:Ep; [lia| |lia]. eexists; split; [done|].
  unfold fmin, fmax, fle, of_int; cbn [quotient fnum fden]. repeat case_match; cbn [fnum fden] in *; bool_to_prop; nia.
Qed.

(** A series that does not change over an even number of days is marked as
    falling. *)
Theorem flat_trend_falls (label value : jstr) (k : nat) (c : Z) :
  0 < k → (0 < c)%Z →
  mc_trend (MetricCard label value (computeTrend (replicate (2 * k) c))) = Some (Down, js "0.0%").
Proof.
  intros Hk Hc. destruct (constant_halves k (2 * k) c) as [He Hl]; [by left|].
  rw computeTrend_unfold He Hl length_replicate. rw (_ : Z.of_nat (2 * k - k) * c - Z.of_nat k * c = 0)%Z; [|lia].
  destruct (Nat.ltb_spec (2 * k) 2); [lia|]. destruct (Z.of_nat k * c)%Z as [|p|p] eqn:?; [lia| |lia].
  assert (∀ f : frac, fnum f = 0%Z → toFixed 1 f = js "0.0") as Hz; [|unfold MetricCard, signed_fixed; cbn -[toFixed]; by rw Hz].
  intros [n d] E; cbn in E; subst n. unfold toFixed; cbn [fnum fden]. by rw (Z.div_small (_ + Z.pos d) (2 * Z.pos d)); [|lia].
Qed.

(** The share of an entry is between 0 and 100 percent. *)
Theorem share_bounds (l : list SenderDomain) (d : SenderDomain) :
  d ∈ l → Forall (λ x, 0 <= SenderDomain_count x)%Z l →
  let f := percent_of (SenderDomain_count d) (total_count l) in
  (0 <= fnum f <= 100 * Zpos (fden f))%Z.
Proof.
  intros Hd Hn. unfold percent_of. destruct (Z.ltb_spec 0 (total_count l)); [|done].
  assert (0 <= SenderDomain_count d <= total_count l)%Z.
  { clear H. revert Hd. induction Hn as [|x l Hx Hn IH]; [by intros ?%elem_of_nil|].
    unfold total_count in *. rw fmap_cons sumZ_cons.
    assert (0 <= sumZ (SenderDomain_count <$> l))%Z by (apply sumZ_nonneg, Forall_fmap, (Forall_impl _ _ _ Hn); intros; simpl; lia).
    intros [->|Hin]%elem_of_cons; [lia|]. specialize (IH Hin). lia. }
  cbv zeta. rw quotient_den // quotient_pos //=. lia.
Qed.

(** The text of a size names the largest unit that is not above it, up to TB. *)
Theorem analytics_formatBytes_spec (bytes : Z) :
  (0 < bytes)%Z →
  ∃ (i : nat) u, bytes_units !! i = Some u ∧
    analytics_formatBytes bytes = toFixed 1 (quotient bytes (1024 ^ Z.of_nat i)) ++ " " ++ u ∧
    (1024 ^ Z.of_nat i <= bytes)%Z ∧ (i < 4 → (bytes < 1024 ^ (Z.of_nat i + 1))%Z).
Proof.
  intros Hb. pose proof (Z.log2_nonneg bytes) as H0. pose proof (Z.log2_spec bytes Hb) as [Hlo Hhi].
  pose proof (Z.div_pos (Z.log2 bytes) 10). pose proof (Z.div_mod (Z.log2 bytes) 10) as Hd. pose proof (Z.mod_pos_bound (Z.log2 bytes) 10) as Hm.
  set (i := Z.min (log1024 bytes) 4). assert (0 <= i <= 4)%Z as Hi by (unfold i, log1024; lia).
  assert (∃ u, bytes_units !! Z.to_nat i = Some u) as [u Hu] by (apply lookup_lt_is_Some; cbn; lia).
  exists (Z.to_nat i), u. split; [done|]. rw Z2Nat.id; [|lia]. split_and!.
  - unfold analytics_formatBytes. destruct (Z.eqb_spec bytes 0); [lia|]. destruct (Z.ltb_spec bytes 0); [lia|].
    fold i. by rw Hu.
  - transitivity (2 ^ Z.log2 bytes)%Z; [|done]. rw (_ : 1024 = 2 ^ 10)%Z // -Z.pow_mul_r; [|lia..].
    apply Z.pow_le_mono_r; [lia|]. unfold i, log1024. lia.
  - intros Hi4. eapply Z.lt_le_trans; [done|]. rw (_ : 1024 = 2 ^ 10)%Z // -Z.pow_mul_r; [|lia..].
    apply Z.pow_le_mono_r; [lia|]. unfold i, log1024 in *. lia.
Qed.
