(* ===== verification/Dashboard.v ===== *)
(** * The dashboard

    [app/dashboard/page.tsx]: who may see it, its figures and cards, and the
    socket that keeps them up to date while automatic refreshing is on, as a
    step relation over everything that can be under way. *)

From S2P Require Import Prelude Browser Types ApiClient OrgStore React Lib Json Notifications ApiKeys Webhooks SettingsGeneral Analytics.
Import RelativeTime.

(** ** Texts *)

Definition dash_units : list jstr := js <$> ["B"; "KB"; "MB"; "GB"]%string.
Definition dash_formatBytes (bytes : Z) : jstr :=
  if (bytes =? 0)%Z then "0 B"
  else if (bytes <? 1024)%Z then show bytes ++ " B"
  else
    let i := log1024 bytes in
    signed_fixed (if (0 <? i)%Z then 1 else 0) (quotient bytes (1024 ^ i)) ++ " " ++ undefined_or (dash_units !! Z.to_nat i).
Definition humanizeAction (action : jstr) : jstr :=
  title_case false ((λ c, if (c =? 46)%N || (c =? 95)%N then 32%N else c) <$> action).
Definition actionDotColor (action : jstr) : jstr :=
  if includes action "created" then "bg-success/50"
  else if includes action "deleted" || includes action "removed" || includes action "revoked" then "bg-destructive/50"
  else if includes action "updated" || includes action "changed" then "bg-info/50"
  else if includes action "login" then "bg-primary"
  else if includes action "invited" then "bg-primary"
  else "bg-muted-foreground".
Definition dash_formatHour (hour : Z) : jstr :=
  if (hour =? 0)%Z then "12a" else if (hour =? 12)%Z then "12p"
  else if (hour <? 12)%Z then show hour ++ "a" else show (hour - 12) ++ "p".
Definition greeting (h : Z) : jstr :=
  if (h <? 12)%Z then "Good morning" else if (h <? 18)%Z then "Good afternoon" else "Good evening".
(** [user?.display_name?.split(" ").slice(0, 2).join(" ") || "there"]. *)
Definition addressed (u : option User) : jstr :=
  jor (from_option (λ u, join " " (take 2 (split_on 32 (User_display_name u)))) [] u) "there".

(** ** Who sees it *)

Inductive dashboard_view := DNoOrg | DNothing | DAdmin (orgId : jstr).
Definition dash_admin (org : OrgState) (u : option User) : bool :=
  hasPermission "org.analytics.view" org || from_option User_is_system_admin false u.
Definition DashboardPage (org : OrgState) (u : option User) : dashboard_view :=
  match currentOrg org with
  | None => DNoOrg
  | Some o => if dash_admin org u then DAdmin (Organization_id o) else DNothing
  end.
Definition dash_redirect (org : OrgState) (u : option User) : option jstr := if dash_admin org u then None else Some (js "/").

(** ** Figures *)

Section figures.
Context `{!AppEnv, !JSRuntime} (localeNumber : Z → jstr) (orgId : jstr).

Definition load_dash_stats {S} : M S (option json) := api_get ("/orgs/" ++ orgId ++ "/analytics") None.
Definition load_dash_series {S} (days : jstr) : M S (option json) :=
  api_get ("/orgs/" ++ orgId ++ "/analytics/emails-per-day") (Some [(js "days", days)]).
Definition load_dash_insights {S} : M S (option json) :=
  api_get ("/orgs/" ++ orgId ++ "/analytics/insights") (Some [(js "days", js "7")]).
Definition load_dash_audit {S} : M S (option json) :=
  api_get ("/orgs/" ++ orgId ++ "/audit") (Some [(js "per_page", js "6"); (js "page", js "1")]).

(** The day of a time, as in [toISOString().slice(0, 10)]; times of the clock
    are in the range of dates. *)
Definition day_string (ms : Z) : jstr := match toISOString (Some ms) with inr s => slice s 0 10 | inl _ => [] end.
Definition count_on (day : jstr) (l : list EmailsPerDay) : Z :=
  from_option EmailsPerDay_count 0%Z (List.find (λ d, startsWith (EmailsPerDay_date d) day) l).
Definition todayDelta (now : Z) (week : list EmailsPerDay) : Z :=
  (count_on (day_string now) week - count_on (day_string (now - 86400000)) week)%Z.
Definition chartAvg (chartData : list EmailsPerDay) : Z :=
  if (0 <? length chartData)%nat then mean (series_counts chartData) else 0%Z.
(** [reduce] keeps the first of the largest. *)
Definition peakHour (l : list Hour) : option Hour :=
  match l with
  | [] => None
  | h :: _ => Some (fold_left (λ m x, if (h_count m <? h_count x)%Z then x else m) l h)
  end.
Definition topSenders (stats : option AnalyticsStats) : option (list SenderDomain) :=
  take 5 <$> (stats ≫= AnalyticsStats_top_sender_domains).

Definition total_emails_shown (s : option AnalyticsStats) : Z :=
  from_option (λ s, default (AnalyticsStats_total_emails s) (AnalyticsStats_total_emails_received s)) 0%Z s.
Definition storage_shown (s : option AnalyticsStats) : Z :=
  from_option (λ s, default 0%Z (union (AnalyticsStats_total_storage_bytes s) (AnalyticsStats_storage_used_bytes s))) 0%Z s.
Definition created_shown (s : option AnalyticsStats) : Z :=
  from_option (λ s, default (AnalyticsStats_total_inboxes s) (AnalyticsStats_total_inboxes_created s)) 0%Z s.

(** *** Cards *)
Inductive card_value := CVNumber (n : option Z) | CVString (s : jstr).
(** The line below the figure: a change with its direction, a text, a link. *)
Inductive footer := FDelta (up : bool) (text : jstr) | FSub (text : jstr) | FManage | FNone.
Record stat_card := { sc_label : jstr; sc_value : option jstr; sc_footer : footer; sc_trend : option (direction * jstr); sc_link : option jstr }.
Definition trend_direction (t : frac) : direction := if fpos t then Up else if fneg t then Down else Flat.
Definition plus_sign (positive : bool) : jstr := if positive then js "+" else [].
Definition StatCard (label : jstr) (value : card_value) (loading : bool) (sub : jstr) (delta : option (Z * jstr))
    (link : option jstr) (trend : option (option frac)) : stat_card := {|
  sc_label := label;
  sc_value := if loading then None
              else Some match value with
                   | CVString s => s
                   | CVNumber (Some n) => localeNumber n
                   | CVNumber None => js "0"
                   end;
  sc_footer :=
    let rest := if truthy sub then FSub sub else match link with Some _ => FManage | None => FNone end in
    match delta with
    | Some (d, l) =>
        if negb loading && negb (d =? 0)%Z then FDelta (0 <? d)%Z (plus_sign (0 <? d)%Z ++ show d ++ " " ++ l) else rest
    | None => rest
    end;
  sc_trend := if loading then None
              else match trend with
                   | Some (Some t) => Some (trend_direction t, plus_sign (fpos t) ++ signed_fixed 1 t ++ "%")
                   | _ => None
                   end;
  sc_link := link |}.
Definition hero (now : Z) (stats : option AnalyticsStats) (isLoading : bool) (week : list EmailsPerDay) : option jstr * footer :=
  let d := todayDelta now week in
  if isLoading then (None, FNone)
  else (Some (localeNumber (total_emails_shown stats)),
        if (d =? 0)%Z then FSub (dash_formatBytes (storage_shown stats) ++ " storage")
        else FDelta (0 <? d)%Z (plus_sign (0 <? d)%Z ++ show d ++ " today")).
Definition dash_cards (stats : option AnalyticsStats) (isLoading : bool) (week inboxes : list Z) : list stat_card := [
  StatCard "Active Inboxes" (CVNumber (AnalyticsStats_active_inboxes <$> stats)) isLoading
    (localeNumber (created_shown stats) ++ " total created") None None (Some (computeTrend inboxes));
  StatCard "Domains" (CVNumber (AnalyticsStats_total_domains <$> stats)) isLoading
    (show (default 0%Z (stats ≫= AnalyticsStats_total_members)) ++ " members" ++ middot
     ++ show (default 0%Z (stats ≫= AnalyticsStats_total_teams)) ++ " teams") None (Some (js "/domains")) None;
  StatCard "Storage" (CVString (dash_formatBytes (storage_shown stats))) isLoading "All-time usage" None None None;
  StatCard "Emails Received" (CVNumber (Some (total_emails_shown stats))) isLoading "All-time" None None (Some (computeTrend week));
  StatCard "Inboxes Created" (CVNumber (Some (created_shown stats))) isLoading "All-time" None None None].

(** *** Lists *)
Definition activity_row (now : Z) (e : AuditEntry) : jstr * jstr * jstr :=
  (actionDotColor (AuditEntry_action e), humanizeAction (AuditEntry_action e),
   default (js "System") (AuditEntry_actor_email e) ++ middot ++ timeAgo (AuditEntry_created_at e) now).
Inductive activity := ALoading | ANone | ARows (rows : list (jstr * jstr * jstr)).
Definition recent_activity (now : Z) (loading : bool) (data : option (list AuditEntry)) : activity :=
  if loading then ALoading
  else match data with
  | None | Some [] => ANone
  | Some l => ARows (activity_row now <$> l)
  end.
Definition dash_ranking (l : list SenderDomain) : list (jstr * jstr * jstr) :=
  (λ d, (SenderDomain_domain d, show (SenderDomain_count d),
         signed_fixed 0 (percent_of (SenderDomain_count d) (total_count l)) ++ "%")) <$> l.
Definition week_inboxes (i : option Insights) : Z := sumZ (series_counts (default [] (i ≫= inboxes_per_day))).
Definition inbox_trend_line (i : option Insights) : option (direction * jstr) :=
  (λ t, (trend_direction t, plus_sign (fpos t) ++ signed_fixed 1 t ++ "% vs previous period")) <$>
  computeTrend (series_counts (default [] (i ≫= inboxes_per_day))).
Definition volume_chart (chartError : bool) (chartData : list EmailsPerDay) : chart :=
  if (0 <? length chartData)%nat
  then CBars {| br_data := day_bars chartData; br_average := chartAvg chartData; br_unit := "emails"; br_line := Some (chartAvg chartData, []) |}
  else CEmpty (if chartError then "Failed to load chart data" else "No email data yet").
Definition volume_badge (chartData : list EmailsPerDay) : option jstr :=
  if (0 <? chartAvg chartData)%Z then Some ("avg " ++ show (chartAvg chartData) ++ "/day") else None.
Definition quick_links : list (jstr * jstr) := [
  (js "/", js "Inboxes"); (js "/domains", js "Domains"); (js "/teams", js "Teams"); (js "/webhooks", js "Webhooks");
  (js "/api-keys", js "API Keys"); (js "/analytics", js "Analytics")].

(** The hours, whose tooltip compares with the peak. *)
Definition hours_card (l : list Hour) : option (option jstr * bars) :=
  if (0 <? length l)%nat
  then Some ((λ h, "Peak: " ++ dash_formatHour (h_hour h)) <$> peakHour l,
             {| br_data := (λ h, (dash_formatHour (h_hour h), h_count h)) <$> l;
                br_average := from_option h_count 0%Z (peakHour l); br_unit := "emails"; br_line := None |})
  else None.
(** The bars of the week are labelled with the day, [weekday]. *)
Definition inbox_activity (weekday : jstr → jstr) (i : option Insights) : chart :=
  match i ≫= inboxes_per_day with
  | None | Some [] => CEmpty "No inbox data"
  | Some l => CBars {| br_data := (λ d, (weekday (EmailsPerDay_date d), EmailsPerDay_count d)) <$> l;
                       br_average := mean (series_counts l); br_unit := "inboxes"; br_line := None |}
  end.

Record dash_page := {
  dp_title : jstr; dp_updated : option jstr; dp_live : bool;
  dp_hero : option jstr * footer; dp_cards : list stat_card;
  dp_badge : option jstr; dp_volume : chart; dp_hours : option (option jstr * bars);
  dp_senders : option (list (jstr * jstr * jstr)); dp_domains : option (list (jstr * jstr * jstr));
  dp_week : jstr; dp_inboxes : chart; dp_trend : option (direction * jstr); dp_activity : activity
}.
Definition shown_list {A B} (f : list A → B) (l : option (list A)) : option B :=
  match l with None | Some [] => None | Some l => Some (f l) end.
Inductive admin_view := DVError (message : jstr) | DVPage (p : dash_page).
Definition AdminDashboard (now : Z) (greet : jstr) (u : option User) (autoRefresh : bool) (lu : LastUpdatedState) (dataUpdatedAt : Z)
    (weekday : jstr → jstr) (stats : query AnalyticsStats) (chart week : query (list EmailsPerDay)) (insights : option Insights)
    (audit : query (list AuditEntry)) : admin_view :=
  if q_error stats then DVError "Failed to load dashboard"
  else
    let chartData := default [] (q_data chart) in
    let weekData := default [] (q_data week) in
    DVPage {|
      dp_title := greet ++ ", " ++ addressed u;
      dp_updated := LastUpdated (Some dataUpdatedAt) lu;
      dp_live := autoRefresh;
      dp_hero := hero now (q_data stats) (q_loading stats) weekData;
      dp_cards := dash_cards (q_data stats) (q_loading stats) (series_counts weekData)
                    (series_counts (default [] (insights ≫= inboxes_per_day)));
      dp_badge := volume_badge chartData;
      dp_volume := volume_chart (q_error chart) chartData;
      dp_hours := hours_card (default [] (insights ≫= peak_hours));
      dp_senders := shown_list dash_ranking (topSenders (q_data stats));
      dp_domains := shown_list dash_ranking (insights ≫= domain_breakdown);
      dp_week := localeNumber (week_inboxes insights);
      dp_inboxes := inbox_activity weekday insights;
      dp_trend := inbox_trend_line insights;
      dp_activity := recent_activity now (q_loading audit) (q_data audit) |}.
End figures.

(** *** Buttons *)

Definition stored_refresh (b : browser) : bool :=
  if has_window b then bool_decide (storage b !! js "auto-refresh-enabled" = Some (js "true")) else false.
(** The page state is whether automatic refreshing is on. *)
Definition onCheckedChange (checked : bool) : M bool unit :=
  modify (λ _, checked);; storage_set "auto-refresh-enabled" (if checked then "true" else "false").
Definition refetchInterval (autoRefresh : bool) : option Z := if autoRefresh then Some 30000%Z else None.
Definition refresh {S} (refetch : M S unit) : M S unit :=
  refetch;;
  emit (EInvalidate "org-emails-per-day");; emit (EInvalidate "org-emails-week");;
  emit (EInvalidate "org-insights-dashboard");; emit (EInvalidate "dashboard-audit").

(** ** The statistics socket *)

(** What the server broadcasts; a message with another type, without data or
    that is no JSON is ignored. *)
Record AdminStats := {
  as_total_emails : Z; as_active_inboxes : Z; as_total_domains : Z; as_total_users : Z; as_total_teams : Z; as_storage_used_bytes : Z
}.
Inductive stats_message := MsgIgnored | MsgStats (d : AdminStats).
Definition merge_stats (d : AdminStats) (prev : AnalyticsStats) : AnalyticsStats := {|
  AnalyticsStats_total_inboxes := AnalyticsStats_total_inboxes prev;
  AnalyticsStats_active_inboxes := as_active_inboxes d;
  AnalyticsStats_total_emails := as_total_emails d;
  AnalyticsStats_total_domains := as_total_domains d;
  AnalyticsStats_total_teams := Some (as_total_teams d);
  AnalyticsStats_total_members := Some (as_total_users d);
  AnalyticsStats_storage_used_bytes := Some (as_storage_used_bytes d);
  AnalyticsStats_top_sender_domains := AnalyticsStats_top_sender_domains prev;
  AnalyticsStats_total_emails_received := AnalyticsStats_total_emails_received prev;
  AnalyticsStats_total_inboxes_created := AnalyticsStats_total_inboxes_created prev;
  AnalyticsStats_total_storage_bytes := AnalyticsStats_total_storage_bytes prev |}.

Inductive sock := SLive | SClosing | SClosed.
#[export] Instance sock_eq_dec : EqDecision sock.
Proof. solve_decision. Defined.
(** One run of the effect: the calls of [getWsTicket] under way, all sockets
    and timers it made, and the variables of its closure. *)
Record StatsRun := Run {
  run_org : jstr;
  run_disposed : bool;
  run_tickets : nat;
  run_sockets : list sock;
  run_timers : list bool;              (* armed? *)
  run_ws : option nat;
  run_timeout : option nat
}.
Definition connect (r : StatsRun) : StatsRun :=
  if run_disposed r then r
  else Run (run_org r) false (S (run_tickets r)) (run_sockets r) (run_timers r) (run_ws r) (run_timeout r).
(** [if (!disposed) reconnectTimeout = setTimeout(connect, 5000)]. *)
Definition reconnect_later (r : StatsRun) : StatsRun :=
  if run_disposed r then r
  else Run (run_org r) false (run_tickets r) (run_sockets r) (run_timers r ++ [true]) (run_ws r) (Some (length (run_timers r))).
Definition take_ticket (r : StatsRun) : StatsRun :=
  Run (run_org r) (run_disposed r) (pred (run_tickets r)) (run_sockets r) (run_timers r) (run_ws r) (run_timeout r).
Definition ticket_arrives (r : StatsRun) : StatsRun :=
  if run_disposed r then take_ticket r
  else Run (run_org r) false (pred (run_tickets r)) (run_sockets r ++ [SLive]) (run_timers r) (Some (length (run_sockets r))) (run_timeout r).
Definition ticket_fails (r : StatsRun) : StatsRun := reconnect_later (take_ticket r).
(** [ws?.close()], which does nothing to a socket that is closing or closed. *)
Definition close_ws (r : StatsRun) : StatsRun :=
  match run_ws r with
  | Some k =>
      match run_sockets r !! k with
      | Some SLive => Run (run_org r) (run_disposed r) (run_tickets r) (<[k := SClosing]> (run_sockets r)) (run_timers r) (run_ws r) (run_timeout r)
      | _ => r
      end
  | None => r
  end.
Definition socket_closed (k : nat) (r : StatsRun) : StatsRun :=
  reconnect_later (Run (run_org r) (run_disposed r) (run_tickets r) (<[k := SClosed]> (run_sockets r)) (run_timers r) (run_ws r) (run_timeout r)).
Definition set_timer (i : nat) (armed : bool) (r : StatsRun) : StatsRun :=
  Run (run_org r) (run_disposed r) (run_tickets r) (run_sockets r) (<[i := armed]> (run_timers r)) (run_ws r) (run_timeout r).
Definition timer_fires (i : nat) (r : StatsRun) : StatsRun := connect (set_timer i false r).
(** The cleanup: no more work, the last timer cleared, the last socket closed. *)
Definition mark_disposed (r : StatsRun) : StatsRun :=
  Run (run_org r) true (run_tickets r) (run_sockets r) (run_timers r) (run_ws r) (run_timeout r).
Definition clear_timeout (r : StatsRun) : StatsRun := match run_timeout r with Some i => set_timer i false r | None => r end.
Definition dispose (r : StatsRun) : StatsRun := close_ws (clear_timeout (mark_disposed r)).
Definition new_run (o : jstr) : StatsRun := connect (Run o false 0 [] [] None None).

(** Everything that can happen to a run; a message reaches only a live socket. *)
Inductive run_step : StatsRun → StatsRun → Prop :=
| rs_ticket r : 0 < run_tickets r → run_step r (ticket_arrives r)
| rs_no_ticket r : 0 < run_tickets r → run_step r (ticket_fails r)
| rs_error r k : run_sockets r !! k = Some SLive → run_step r (close_ws r)
| rs_closed r k s : run_sockets r !! k = Some s → s ≠ SClosed → run_step r (socket_closed k r)
| rs_timer r i : run_timers r !! i = Some true → run_step r (timer_fires i r).

(** The page: all runs so far, the newest last, and the cached figures. *)
Record Live := {
  lv_auto : bool;
  lv_org : jstr;
  lv_runs : list StatsRun;
  lv_cache : gmap jstr AnalyticsStats
}.
(** The effect runs again when the switch or the organisation changes: the
    cleanup of the last run, if it has one, then the new run. *)
Definition cleanup (s : Live) : list StatsRun :=
  if lv_auto s then alter dispose (pred (length (lv_runs s))) (lv_runs s) else lv_runs s.
Definition rerun (auto : bool) (o : jstr) (s : Live) : Live := {|
  lv_auto := auto; lv_org := o;
  lv_runs := cleanup s ++ (if auto then [new_run o] else []);
  lv_cache := lv_cache s |}.
Definition deliver_stats (o : jstr) (m : stats_message) (s : Live) : Live := {|
  lv_auto := lv_auto s; lv_org := lv_org s; lv_runs := lv_runs s;
  lv_cache := match m with
              | MsgStats d => alter (merge_stats d) o (lv_cache s)
              | MsgIgnored => lv_cache s
              end |}.
Definition set_runs (rs : list StatsRun) (s : Live) : Live :=
  {| lv_auto := lv_auto s; lv_org := lv_org s; lv_runs := rs; lv_cache := lv_cache s |}.
Definition live_init (auto : bool) (o : jstr) : Live :=
  {| lv_auto := auto; lv_org := o; lv_runs := if auto then [new_run o] else []; lv_cache := ∅ |}.
Inductive live_step : Live → Live → Prop :=
| ls_rerun s auto o : live_step s (rerun auto o s)
| ls_run s i r r' : lv_runs s !! i = Some r → run_step r r' → live_step s (set_runs (<[i := r']> (lv_runs s)) s)
| ls_message s i r k m : lv_runs s !! i = Some r → run_sockets r !! k = Some SLive → live_step s (deliver_stats (run_org r) m s)
| ls_fetched s o d : live_step s {| lv_auto := lv_auto s; lv_org := lv_org s; lv_runs := lv_runs s; lv_cache := <[o := d]> (lv_cache s) |}.

(** ** Theorems *)

Definition pending (s : sock) : bool := match s with SClosed => false | _ => true end.
(** What a run still has under way. *)
Definition busy (r : StatsRun) : nat := run_tickets r + countb pending (run_sockets r) + countb id (run_timers r).
#[local] Arguments countb : simpl never.
#[local] Arguments Nat.pred : simpl never.
#[local] Arguments Nat.eqb : simpl never.
Definition run_ok (r : StatsRun) : Prop :=
  if run_disposed r then (∀ k, run_sockets r !! k ≠ Some SLive) ∧ countb id (run_timers r) = 0
  else busy r = 1 ∧ only pending (run_sockets r) (run_ws r) ∧ only id (run_timers r) (run_timeout r).

Lemma new_run_ok o : run_ok (new_run o).
Proof. split_and!; [done|by intros ? ?..]. Qed.

Lemma reconnect_later_ok r :
  run_disposed r = false → busy r = 0 → run_ok (reconnect_later r).
Proof.
  intros Hd Hb. unfold reconnect_later, run_ok. rw Hd. unfold busy in *; cbn. rw countb_snoc. cbn.
  split_and!; [lia|apply only_none; lia|apply only_snoc; lia].
Qed.

Lemma close_ws_ok r : run_disposed r = false → run_ok r → run_ok (close_ws r).
Proof.
  intros Hd Hok. unfold close_ws. destruct (run_ws r) as [k|] eqn:Ew; [|done].
  destruct (run_sockets r !! k) as [[]|] eqn:Ek; try done. unfold run_ok in *. rw Hd in Hok. destruct Hok as (Hb & Hw & Ht).
  cbn. rw Hd. unfold busy in *; cbn. pose proof (countb_insert pending _ _ SClosing _ Ek) as Hc. cbn in Hc.
  rw Ew in Hw. split_and!; [lia| |done]. by eapply only_insert.
Qed.

(** A run keeps exactly one thing under way until it is disposed, and then
    keeps no live socket and no timer. *)
Lemma run_step_ok r r' : run_step r r' → run_ok r → run_ok r' ∧ run_disposed r' = run_disposed r ∧ run_org r' = run_org r.
Proof.
  intros Hst Hok. destruct (run_disposed r) eqn:Hd.
  - pose proof Hok as Hok'. unfold run_ok in Hok'. rw Hd in Hok'. destruct Hok' as [Hs Ht].
    destruct Hst; unfold ticket_arrives, ticket_fails, reconnect_later, socket_closed, timer_fires, connect; cbn; rw ?Hd; cbn.
    + unfold run_ok. cbn. by rw ?Hd.
    + unfold run_ok. cbn. by rw ?Hd.
    + by destruct (Hs k).
    + unfold run_ok. cbn. rw ?Hd. split_and!; try done. intros j [(<- & ? & _)|[_ Hj]]%list_lookup_insert_Some; [done|by apply (Hs j)].
    + pose proof (countb_pos id _ _ _ H eq_refl). lia.
  - pose proof Hok as Hok'. unfold run_ok, busy in Hok'. rw Hd in Hok'. destruct Hok' as (Hb & Hw & Ht). destruct Hst as [r Hk|r Hk|r k Hk|r k x Hk Hx|r i Hk].
    + split; [|by unfold ticket_arrives; rw Hd]. unfold ticket_arrives, run_ok, busy. rw Hd. cbn. rw countb_snoc. cbn.
      split_and!; [lia|apply only_snoc; lia|done].
    + split; [|by unfold ticket_fails, reconnect_later; cbn; rw Hd]. apply reconnect_later_ok; [done|]. unfold busy; cbn. lia.
    + split; [by apply close_ws_ok|]. unfold close_ws. by repeat case_match.
    + split; [|by unfold socket_closed, reconnect_later; cbn; rw Hd]. apply reconnect_later_ok; [done|]. unfold busy; cbn.
      pose proof (countb_insert pending _ _ SClosed _ Hk) as Hc. cbn in Hc.
      assert (pending x = true) as Hp by (by destruct x). rw Hp in Hc. cbn in Hc. lia.
    + split; [|by unfold timer_fires, connect; cbn; rw Hd]. unfold timer_fires, connect, run_ok, busy; cbn. rw Hd. cbn.
      pose proof (countb_insert id _ _ false _ Hk) as Hc. cbn in Hc.
      split_and!; [lia|done|by eapply only_insert].
Qed.

Lemma dispose_ok r : run_ok r → run_disposed r = false → run_ok (dispose r).
Proof.
  intros Hok Hd. unfold run_ok in Hok. rw Hd in Hok. destruct Hok as (Hb & Hw & Ht).
  set (r1 := clear_timeout (mark_disposed r)).
  assert (countb id (run_timers r1) = 0 ∧ run_sockets r1 = run_sockets r ∧ run_ws r1 = run_ws r ∧ run_disposed r1 = true) as (Hz & Hs & Hv & Hd').
  { unfold r1, clear_timeout. cbn. destruct (run_timeout r) as [i|] eqn:Et; cbn; split_and!; try done.
    - apply countb_zero. intros j [] [(<- & ? & _)|[Hne Hj]]%list_lookup_insert_Some; [done| |done..]. specialize (Ht _ _ Hj eq_refl). naive_solver.
    - apply countb_zero. intros j [] Hj; [|done]. by specialize (Ht _ _ Hj eq_refl). }
  unfold dispose. fold r1. unfold close_ws. rw Hv Hs. destruct (run_ws r) as [k|] eqn:Ew.
  - destruct (run_sockets r !! k) as [x|] eqn:Ek; [destruct x|]; unfold run_ok; cbn; rw Hd' ?Hs; (split; [|done]); intros j Hj.
    + apply list_lookup_insert_Some in Hj as [(<- & ? & _)|[? Hj]]; [done|]. specialize (Hw _ _ Hj eq_refl). naive_solver.
    + specialize (Hw _ _ Hj eq_refl). naive_solver.
    + specialize (Hw _ _ Hj eq_refl). naive_solver.
    + specialize (Hw _ _ Hj eq_refl). naive_solver.
  - unfold run_ok. rw Hd' Hs. split; [|done]. intros j Hj. by specialize (Hw _ _ Hj eq_refl).
Qed.

(** Runs but the last are disposed, and the last as well when refreshing is
    off; the live run is for the organisation shown. *)
Record live_ok (s : Live) : Prop := {
  lo_runs : Forall run_ok (lv_runs s);
  lo_last : lv_auto s = true → lv_runs s ≠ [];
  lo_disposed i r : lv_runs s !! i = Some r → run_disposed r = negb (lv_auto s && (S i =? length (lv_runs s))%nat);
  lo_org i r : lv_runs s !! i = Some r → run_disposed r = false → run_org r = lv_org s
}.

Lemma dispose_disposed r : run_disposed (dispose r) = true.
Proof. unfold dispose, close_ws, clear_timeout. cbn. by repeat case_match. Qed.

Lemma cleanup_all s : live_ok s → Forall (λ r, run_ok r ∧ run_disposed r = true) (cleanup s).
Proof.
  intros [Hr Hl Hd _]. apply Forall_lookup. intros i r Hi. unfold cleanup in Hi. destruct (lv_auto s) eqn:Ea.
  - destruct (decide (pred (length (lv_runs s)) = i)) as [Ei|Hne].
    + rw Ei list_lookup_alter_eq in Hi. apply fmap_Some in Hi as (r0 & Hi & ->). split; [|apply dispose_disposed]. apply dispose_ok; [by eapply Forall_lookup_1|]. rw (Hd _ _ Hi).
      apply lookup_lt_Some in Hi. by rw (proj2 (Nat.eqb_eq _ _)); [|lia].
    + rw list_lookup_alter_ne // in Hi. split; [by eapply Forall_lookup_1|]. rw (Hd _ _ Hi).
      apply lookup_lt_Some in Hi. by rw (proj2 (Nat.eqb_neq _ _)); [|lia].
  - split; [by eapply Forall_lookup_1|]. by rw (Hd _ _ Hi).
Qed.

Lemma live_init_ok auto o : live_ok (live_init auto o).
Proof.
  destruct auto; split; cbn; try done; [by constructor; [apply new_run_ok|]|intros [|[]] r; cbn; by intros [= <-]..].
Qed.

Lemma live_step_ok s s' : live_step s s' → live_ok s → live_ok s'.
Proof.
  intros Hst Hok. destruct Hst as [s auto o|s i r r' Hi Hr|s i r k m _ _|s o d].
  - pose proof (cleanup_all _ Hok) as Hc. split; cbn.
    + apply Forall_app. split; [by eapply Forall_impl; [done|intros ? []]|]. destruct auto; [|done]. by constructor; [apply new_run_ok|].
    + intros ->. by destruct (cleanup s).
    + intros i r [Hi|[Hle Hi]]%lookup_app_Some.
      * rw (proj2 (proj1 (Forall_lookup _ _) Hc _ _ Hi)) length_app. apply lookup_lt_Some in Hi.
        destruct auto; [|done]. rw (proj2 (Nat.eqb_neq _ _)) //. cbn. lia.
      * destruct auto; [|by rw lookup_nil in Hi]. apply list_lookup_singleton_Some in Hi as [Hz <-].
        rw length_app (proj2 (Nat.eqb_eq _ _)) //. cbn. lia.
    + intros i r [Hi|[Hle Hi]]%lookup_app_Some Hd.
      * by rw (proj2 (proj1 (Forall_lookup _ _) Hc _ _ Hi)) in Hd.
      * destruct auto; [|by rw lookup_nil in Hi]. by apply list_lookup_singleton_Some in Hi as [Hz <-].
  - destruct Hok as [Hf Hl Hd Ho]. destruct (run_step_ok _ _ Hr (proj1 (Forall_lookup _ _) Hf _ _ Hi)) as (Hok' & Hd' & Ho').
    split; cbn.
    + by apply Forall_insert.
    + intros Ha Hn. apply Hl; [done|]. apply (f_equal length) in Hn. rewrite length_insert in Hn. by destruct (lv_runs s).
    + intros j x [(<- & <- & _)|[_ Hj]]%list_lookup_insert_Some; rw length_insert; [rw Hd'|]; by apply Hd.
    + intros j x [(<- & <- & _)|[_ Hj]]%list_lookup_insert_Some; [rw Hd' Ho'|]; by eapply Ho.
  - by destruct Hok.
  - by destruct Hok.
Qed.

(** C28: whatever tickets, sockets and timers do, and however often the switch
    and the organisation change, a live socket and a reconnection timer exist
    only while refreshing is on, only in the last run of the effect and for the
    organisation shown; and then that run has exactly one ticket, socket or
    timer under way, so that connections neither pile up nor are given up. *)
Theorem one_stats_socket (auto : bool) (o : jstr) (s : Live) :
  rtc live_step (live_init auto o) s →
  (∀ i r k, lv_runs s !! i = Some r → run_sockets r !! k = Some SLive ∨ run_timers r !! k = Some true →
     lv_auto s = true ∧ S i = length (lv_runs s) ∧ run_org r = lv_org s ∧ busy r = 1) ∧
  (lv_auto s = true → ∃ r, last (lv_runs s) = Some r ∧ run_disposed r = false ∧ busy r = 1).
Proof.
  intros Hr. assert (live_ok s) as [Hf Hl Hd Ho].
  { revert s Hr. apply (rtc_ind_r live_ok); [apply live_init_ok|]. intros. by eapply live_step_ok. }
  assert (∀ i r, lv_runs s !! i = Some r → run_disposed r = false → busy r = 1) as Hb.
  { intros i r Hi E. pose proof (proj1 (Forall_lookup _ _) Hf _ _ Hi) as Hok. unfold run_ok in Hok. rw E in Hok. by destruct Hok. }
  split.
  - intros i r k Hi Hk. pose proof (proj1 (Forall_lookup _ _) Hf _ _ Hi) as Hok. unfold run_ok in Hok.
    destruct (run_disposed r) eqn:E.
    + destruct Hok as [Hs Ht]. destruct Hk as [Hk|Hk]; [by destruct (Hs k)|]. pose proof (countb_pos id _ _ _ Hk eq_refl). lia.
    + pose proof (Hd _ _ Hi) as Hd'. rw E in Hd'. symmetry in Hd'. apply negb_false_iff, andb_true_iff in Hd' as [? ?%Nat.eqb_eq].
      split_and!; [done..|by eapply Ho|by eapply Hb].
  - intros Ha. destruct (last_is_Some (lv_runs s)) as [_ [r Hlast]]; [by apply Hl|]. exists r. split; [done|].
    pose proof Hlast as Hi. rw last_lookup in Hi. assert (run_disposed r = false); [|split; [done|by eapply Hb]].
    rw (Hd _ _ Hi) Ha. apply lookup_lt_Some in Hi. by rw (proj2 (Nat.eqb_eq _ _)); [|lia].
Qed.
Lemma one_stats_socket_witness :
  let s := set_runs [ticket_arrives (new_run "o")] (live_init true "o") in
  rtc live_step (live_init true "o") s ∧ lv_auto s = true ∧ ∃ r, last (lv_runs s) = Some r ∧ run_disposed r = false ∧ busy r = 1.
Proof.
  assert (H : rtc live_step (live_init true "o") (set_runs [ticket_arrives (new_run "o")] (live_init true "o"))).
  { eapply rtc_l; [|apply rtc_refl]. apply (ls_run (live_init true "o") 0 (new_run "o") (ticket_arrives (new_run "o"))); [done|]. apply rs_ticket. cbn. lia. }
  split; [exact H|]. split; [done|]. apply (one_stats_socket _ _ _ H). done.
Defined.

(** The peak hour is the first of the hours with the most mails. *)
Theorem peakHour_spec (l : list Hour) :
  match peakHour l with
  | None => l = []
  | Some h => ∃ i, l !! i = Some h ∧ (∀ x, x ∈ l → h_count x <= h_count h)%Z ∧
                   (∀ j x, j < i → l !! j = Some x → (h_count x < h_count h)%Z)
  end.
Proof.
  destruct l as [|h l]; [done|]. unfold peakHour. cbn [fold_left]. rw Z.ltb_irrefl.
  induction l as [|x l IH] using rev_ind.
  { exists 0. split; [done|]. split; [by intros ? ->%list_elem_of_singleton|lia]. }
  rw fold_left_app. set (m := fold_left _ l h) in *. cbn [fold_left].
  destruct IH as (i & Hi & Hmax & Hfirst). destruct (Z.ltb_spec (h_count m) (h_count x)).
  - exists (S (length l)). split; [by rw app_comm_cons lookup_app_r; [rw Nat.sub_diag|]|]. split.
    + intros y. rw app_comm_cons elem_of_app list_elem_of_singleton. intros [Hy| ->]; [|done]. specialize (Hmax y Hy). lia.
    + intros j y Hj Hy. rw app_comm_cons lookup_app_l // in Hy. apply list_elem_of_lookup_2, Hmax in Hy. lia.
  - exists i. pose proof (lookup_lt_Some _ _ _ Hi). split; [by rw app_comm_cons lookup_app_l|]. split.
    + intros y. rw app_comm_cons elem_of_app list_elem_of_singleton. intros [Hy| ->]; [by apply Hmax|done].
    + intros j y Hj Hy. rw app_comm_cons lookup_app_l in Hy; [|lia]. by eapply Hfirst.
Qed.

(** The figures of live messages do not reach the large figure or the storage
    card once the answer of the server has the totals of all time. *)
Theorem live_figures_hidden (d : AdminStats) (s : AnalyticsStats) (n b : Z) :
  AnalyticsStats_total_emails_received s = Some n → AnalyticsStats_total_storage_bytes s = Some b →
  total_emails_shown (Some (merge_stats d s)) = n ∧ storage_shown (Some (merge_stats d s)) = b.
Proof. intros Hn Hb. by rw /total_emails_shown /storage_shown /= Hn Hb. Qed.

(** A message replaces the figures of the organisation by those it carries,
    whatever the organisation is. *)
Theorem live_figures_overwrite (o : jstr) (d : AdminStats) (s : Live) (prev : AnalyticsStats) :
  lv_cache s !! o = Some prev →
  let s' := deliver_stats o (MsgStats d) s in
  AnalyticsStats_active_inboxes <$> lv_cache s' !! o = Some (as_active_inboxes d) ∧
  (lv_cache s' !! o ≫= AnalyticsStats_total_members) = Some (as_total_users d).
Proof. intros Hp. cbn. by rw lookup_alter_eq Hp. Qed.

(** From 1024 GB on the unit is missing. *)
Theorem terabyte_undefined (bytes : Z) :
  (1024 ^ 4 <= bytes)%Z → ∃ n, dash_formatBytes bytes = n ++ " undefined".
Proof.
  intros Hb. assert (4 <= log1024 bytes)%Z as Hi.
  { apply Z.div_le_lower_bound; [lia|]. apply Z.log2_le_mono in Hb. by cbn in Hb. }
  unfold dash_formatBytes. destruct (Z.eqb_spec bytes 0); [lia|]. destruct (Z.ltb_spec bytes 1024); [lia|]. cbv zeta.
  rw (lookup_ge_None_2 dash_units); [|cbn; lia]. eexists. reflexivity.
Qed.

(** The page shows the dashboard exactly to those it does not send away. *)
Theorem dashboard_or_redirect (org : OrgState) (u : option User) (o : Organization) :
  currentOrg org = Some o →
  (DashboardPage org u = DAdmin (Organization_id o) ∧ dash_redirect org u = None) ∨
  (DashboardPage org u = DNothing ∧ dash_redirect org u = Some (js "/")).
Proof. intros Ho. unfold DashboardPage, dash_redirect. rw Ho. destruct (dash_admin org u); [by left|by right]. Qed.

(** The choice of automatic refreshing is what the page starts with next time. *)
Theorem refresh_choice_kept (checked : bool) (w : world bool) :
  has_window (brw w) = true →
  stored_refresh (brw (snd (onCheckedChange checked w))) = checked.
Proof.
  intros Hw. unfold stored_refresh. cbn. rw Hw. destruct checked; rw lookup_insert_eq; by vm_compute.
Qed.
