(* ===== verification/Landing.v ===== *)
(** * The landing page and the demo inbox

    [components/landing/landing-page.tsx], [try-inbox.tsx],
    [live-inbox-demo.tsx] and [app/try/page.tsx]: the links of the landing
    page, the demo inbox with its countdown and polling, and the simulated
    inbox with its timers, both as step relations. *)

From S2P Require Import Prelude Regex Browser Types ApiClient React Lib Json Webhooks Analytics.
Import Lib.DocsUrl Lib.RelativeTime.

(** ** Texts *)

(** [total] is [None] for [NaN]. *)
Definition mmss (total : option Z) : jstr :=
  match total with
  | Some n => show (n / 60) ++ ":" ++ pad 2 (n mod 60)
  | None => "NaN:NaN"
  end.
Record TryInboxInfo := { ti_inbox_id : jstr; ti_address : jstr; ti_expires_at : jstr }.
Record TryEmail := { te_id : jstr; te_from_address : jstr; te_subject : option jstr; te_snippet : jstr; te_received_at : jstr }.

Section texts.
Context `{!JSRuntime}.
Definition senderInitial (addr : jstr) : jstr := toUpperCase (jor (take 1 (trim addr)) "?").
(** Blanks, an optional quote, the name up to a quote or an angle bracket, an
    optional quote, blanks, an angle bracket. The group is greedy here: it is
    trimmed, and what it takes more are blanks before the bracket. *)
Definition sender_re : re :=
  rseq [RBegin; RStar rspace; ropt (rchar 34); RGroup 1 (rplus (rnone_of [34; 60]%N)); ropt (rchar 34); RStar rspace; rchar 60].
Definition senderName (addr : jstr) : jstr :=
  match exec_from sender_re 0 None addr with
  | Some m => trim (default [] (x_cap m 1))
  | None => jor (default [] (head (split_on 64 addr))) addr
  end.
Definition mail_line (e : TryEmail) : jstr := jor (default [] (te_subject e)) (jor (te_snippet e) "(no subject)").
Definition mail_row (now : Z) (e : TryEmail) : jstr * jstr * jstr * jstr :=
  (senderInitial (te_from_address e), senderName (te_from_address e), timeAgo (te_received_at e) now, mail_line e).
End texts.

(** ** The demo inbox *)

Definition POLL_MS : Z := 4000.
Inductive Status := init | live | expired | unavailable.
#[export] Instance Status_eq_dec : EqDecision Status.
Proof. solve_decision. Defined.

(** A run of the polling effect: its inbox, and whether it is still wanted. *)
Record poll_run := { pr_inbox : jstr; pr_active : bool }.
(** [creating]: the calls of [tryCreateInbox] without an answer.
    [polls]: the runs of the polling effect, the newest last; a call of an
    older run may be answered at any time. [ticking]: the countdown runs. *)
Record TryInbox := {
  status : Status;
  inbox : option TryInboxInfo;
  emails : list TryEmail;
  remaining : option Z;
  copied : bool;
  mounted : bool;
  creating : nat;
  polls : list poll_run;
  ticking : bool
}.

Section demo.
Context `{!JSRuntime}.

Definition seconds_left (i : TryInboxInfo) (now : Z) : option Z :=
  (λ e, Z.max 0 (math_round (quotient (e - now) 1000))) <$> date_ms (ti_expires_at i).
Definition is_zero (left : option Z) : bool := match left with Some n => (n <=? 0)%Z | None => false end.

(** [setInterval]'s callback and the first call of [tick]. *)
Definition tick (now : Z) (s : TryInbox) : TryInbox :=
  match inbox s with
  | Some i =>
      let left := seconds_left i now in
      {| status := if is_zero left then expired else status s; inbox := inbox s; emails := emails s; remaining := left;
         copied := copied s; mounted := mounted s; creating := creating s; polls := polls s; ticking := ticking s |}
  | None => s
  end.
Definition stop_polls (l : list poll_run) : list poll_run := (λ r, {| pr_inbox := pr_inbox r; pr_active := false |}) <$> l.
(** The two effects after a change of status or inbox: the cleanups, then the
    countdown with its first tick and a new run of the polling. *)
Definition stop_effects (s : TryInbox) : TryInbox :=
  {| status := status s; inbox := inbox s; emails := emails s; remaining := remaining s; copied := copied s; mounted := mounted s;
     creating := creating s; polls := stop_polls (polls s); ticking := false |}.
Definition start_effects (now : Z) (s : TryInbox) : TryInbox :=
  match status s, inbox s with
  | live, Some i => tick now
      {| status := live; inbox := inbox s; emails := emails s; remaining := remaining s; copied := copied s; mounted := mounted s;
         creating := creating s; polls := polls s ++ [{| pr_inbox := ti_inbox_id i; pr_active := true |}]; ticking := true |}
  | _, _ => s
  end.
(** The commit that follows: a first tick at or after the expiry stops both
    effects again. *)
Definition commit (now : Z) (s : TryInbox) : TryInbox :=
  let s' := start_effects now (stop_effects s) in
  if bool_decide (status s' = expired) && bool_decide (status s = live) then stop_effects s' else s'.
Definition timer_tick (now : Z) (s : TryInbox) : TryInbox :=
  let s' := tick now s in
  if bool_decide (status s' = status s) then s' else stop_effects s'.

Definition set_status (st : Status) (i : option TryInboxInfo) (mails : list TryEmail) (n : nat) (s : TryInbox) : TryInbox :=
  {| status := st; inbox := i; emails := mails; remaining := remaining s; copied := copied s; mounted := mounted s;
     creating := n; polls := polls s; ticking := ticking s |}.
(** The answer of [tryCreateInbox], on mount and for a new inbox. *)
Definition created (now : Z) (info : option TryInboxInfo) (s : TryInbox) : TryInbox :=
  let n := pred (creating s) in
  if negb (mounted s) then set_status (status s) (inbox s) (emails s) n s
  else match info with
       | Some i => commit now (set_status live (Some i) (emails s) n s)
       | None => commit now (set_status unavailable (inbox s) (emails s) n s)
       end.
Definition regenerate (now : Z) (s : TryInbox) : TryInbox := commit now (set_status init (inbox s) [] (S (creating s)) s).
(** The answer of [tryGetEmails] to a run. *)
Definition polled (r : poll_run) (answer : option (list TryEmail)) (s : TryInbox) : TryInbox :=
  match answer with
  | Some l => if pr_active r && mounted s then set_status (status s) (inbox s) l (creating s) s else s
  | None => s
  end.
Definition set_copied (c : bool) (s : TryInbox) : TryInbox :=
  {| status := status s; inbox := inbox s; emails := emails s; remaining := remaining s; copied := c; mounted := mounted s;
     creating := creating s; polls := polls s; ticking := ticking s |}.
(** The address copied, and the state; a timer of 1500 ms takes the mark back. *)
Definition onCopy (s : TryInbox) : option jstr * TryInbox :=
  match inbox s with Some i => (Some (ti_address i), set_copied true s) | None => (None, s) end.
Definition copy_timer (s : TryInbox) : TryInbox := if mounted s then set_copied false s else s.
Definition unmount (s : TryInbox) : TryInbox :=
  let s := stop_effects s in
  {| status := status s; inbox := inbox s; emails := emails s; remaining := remaining s; copied := copied s; mounted := false;
     creating := creating s; polls := polls s; ticking := ticking s |}.
Definition try_init : TryInbox :=
  {| status := init; inbox := None; emails := []; remaining := Some 0%Z; copied := false; mounted := true; creating := 1; polls := []; ticking := false |}.

(** What is shown: the simulated inbox, or the address, the mails, the time left
    and the buttons. *)
Inductive try_view :=
| TSimulated
| TInbox (isExpired : bool) (address : option jstr) (timer : option jstr) (mails : list TryEmail) (canCopy canRegenerate : bool).
Definition TryInbox_view (s : TryInbox) : try_view :=
  match status s with
  | init | unavailable => TSimulated
  | live => TInbox false (ti_address <$> inbox s) (Some (mmss (remaining s))) (emails s) true false
  | expired => TInbox true (ti_address <$> inbox s) None (emails s) false true
  end.
Definition try_caption (caption liveCaption expiredText : jstr) (s : TryInbox) : jstr * bool :=
  match status s with
  | init | unavailable => (caption, false)
  | live => (liveCaption, true)
  | expired => (expiredText, false)
  end.

(** [answers] holds between an inbox and what a poll of it can be answered with. *)
Context (answers : jstr → list TryEmail → Prop).
Inductive try_step : TryInbox → TryInbox → Prop :=
| ts_created s now info : 0 < creating s → try_step s (created now info s)
| ts_regenerate s now : mounted s = true → status s = expired → try_step s (regenerate now s)
| ts_tick s now : ticking s = true → try_step s (timer_tick now s)
| ts_polled s r l : r ∈ polls s → answers (pr_inbox r) l → try_step s (polled r (Some l) s)
| ts_poll_failed s r : r ∈ polls s → try_step s (polled r None s)
| ts_copy s : status s = live → try_step s (snd (onCopy s))
| ts_copy_timer s : try_step s (copy_timer s)
| ts_unmount s : mounted s = true → try_step s (unmount s).
End demo.

(** ** The simulated inbox *)

Record DemoEmail := { de_from : jstr; de_subject : jstr; de_time : jstr }.
Definition DEMO_EMAILS : list DemoEmail := [
  {| de_from := "Stripe"; de_subject := "Your receipt from Acme, Inc."; de_time := "now" |};
  {| de_from := "GitHub"; de_subject := "[acme/api] Verify your new device"; de_time := "now" |};
  {| de_from := "Linear"; de_subject := "You were assigned ENG-2241"; de_time := "1m" |};
  {| de_from := "Vercel"; de_subject := "Deployment ready: acme-web"; de_time := "2m" |}].
Definition DOMAINS : list jstr := js <$> ["mail.acme.dev"; "inbox.acme.io"; "rcpt.acme.sh"]%string.
Definition START_SECONDS : Z := 597.
Definition INITIAL_LOCAL : jstr := "q7k2x9".
(** [random36] is [Math.random().toString(36)]. *)
Definition randomLocal (random36 : jstr) : jstr :=
  slice (List.filter (λ c, is_lower c || is_digit c) random36 ++ "000000") 0 6.

Inductive Phase := PLive | PBurning | PExpired.
#[export] Instance Phase_eq_dec : EqDecision Phase.
Proof. solve_decision. Defined.
(** What a timeout will do. *)
Inductive action := ABurn | AEndBurn | ACycle | AArrive (n : nat).
#[export] Instance action_eq_dec : EqDecision action.
Proof. solve_decision. Defined.

(** Timeouts with their delay; intervals of both kinds that were ever started,
    with whether they still run, and the variables of the effect that hold the
    last of them. *)
Record Demo := {
  reduced : bool;
  local : jstr;
  domain : jstr;
  seconds : Z;
  arrived : nat;
  phase : Phase;
  timeouts : list (Z * action);
  countdowns : list bool;
  burndowns : list bool;
  countdown : option nat;
  burndown : option nat;
  demo_mounted : bool
}.
Definition set_shown (l d : jstr) (n : Z) (k : nat) (p : Phase) (s : Demo) : Demo := {|
  reduced := reduced s; local := l; domain := d; seconds := n; arrived := k; phase := p; timeouts := timeouts s;
  countdowns := countdowns s; burndowns := burndowns s; countdown := countdown s; burndown := burndown s; demo_mounted := demo_mounted s |}.
Definition set_seconds (n : Z) (s : Demo) : Demo := set_shown (local s) (domain s) n (arrived s) (phase s) s.
Definition set_phase (p : Phase) (s : Demo) : Demo := set_shown (local s) (domain s) (seconds s) (arrived s) p s.
Definition set_arrived (k : nat) (s : Demo) : Demo := set_shown (local s) (domain s) (seconds s) k (phase s) s.
Definition set_timers (ts : list (Z * action)) (cs bs : list bool) (c b : option nat) (s : Demo) : Demo := {|
  reduced := reduced s; local := local s; domain := domain s; seconds := seconds s; arrived := arrived s; phase := phase s;
  timeouts := ts; countdowns := cs; burndowns := bs; countdown := c; burndown := b; demo_mounted := demo_mounted s |}.
(** [at(delay, fn)]. *)
Definition at_ (delay : Z) (a : action) (s : Demo) : Demo :=
  set_timers (timeouts s ++ [(delay, a)]) (countdowns s) (burndowns s) (countdown s) (burndown s) s.
Definition clear_interval (v : option nat) (l : list bool) : list bool := match v with Some i => <[i := false]> l | None => l end.
Definition startCountdown (s : Demo) : Demo :=
  set_timers (timeouts s) (countdowns s ++ [true]) (burndowns s) (Some (length (countdowns s))) (burndown s) s.
Definition countdown_tick (s : Demo) : Demo := set_seconds (if (0 <? seconds s)%Z then seconds s - 1 else 0)%Z s.
Definition burndown_tick (s : Demo) : Demo := set_seconds (Z.max 0 (seconds s - 41)) s.
Definition burn (s : Demo) : Demo :=
  let s := set_timers (timeouts s) (clear_interval (countdown s) (countdowns s)) (burndowns s) (countdown s) (burndown s) s in
  let s := set_phase PBurning s in
  let s := set_timers (timeouts s) (countdowns s) (burndowns s ++ [true]) (countdown s) (Some (length (burndowns s))) s in
  at_ 1300 AEndBurn s.
Definition end_burn (s : Demo) : Demo :=
  let s := set_timers (timeouts s) (countdowns s) (clear_interval (burndown s) (burndowns s)) (countdown s) (burndown s) s in
  at_ 1700 ACycle (set_phase PExpired (set_seconds 0 s)).
(** The times of the later mails. *)
Definition arrivals : list (Z * action) :=
  (λ i : nat, ((700 + (Z.of_nat i - 1) * 1200)%Z, AArrive (i + 1))) <$> seq 1 (length DEMO_EMAILS - 1).
Definition runCycle (first : bool) (random36 : jstr) (pick : nat) (s : Demo) : Demo :=
  let s := set_shown (if first then INITIAL_LOCAL else randomLocal random36)
             (default [] (DOMAINS !! (if first then 0 else pick))) START_SECONDS (arrived s) PLive s in
  let s := startCountdown s in
  if first then at_ 3600 ABurn (set_arrived (length DEMO_EMAILS) s)
  else
    let s := fold_left (λ s '(d, a), at_ d a s) arrivals (set_arrived 1 s) in
    at_ (700 + (Z.of_nat (length DEMO_EMAILS) - 1) * 1200 + 1400) ABurn s.
(** The cleanup of a run; it has none when motion is reduced. *)
Definition demo_cleanup (s : Demo) : Demo :=
  if reduced s then s
  else set_timers [] (clear_interval (countdown s) (countdowns s)) (clear_interval (burndown s) (burndowns s)) (countdown s) (burndown s) s.
Definition set_reduced (b : bool) (s : Demo) : Demo := {|
  reduced := b; local := local s; domain := domain s; seconds := seconds s; arrived := arrived s; phase := phase s;
  timeouts := timeouts s; countdowns := countdowns s; burndowns := burndowns s; countdown := countdown s; burndown := burndown s;
  demo_mounted := demo_mounted s |}.
(** [reduced] stands for [reduced || staticPreview]. The variables are new in
    each run. *)
Definition demo_effect (s : Demo) : Demo :=
  let s := set_timers (timeouts s) (countdowns s) (burndowns s) None None s in
  if reduced s then set_shown INITIAL_LOCAL (default [] (DOMAINS !! 0)) START_SECONDS (length DEMO_EMAILS) PLive s
  else runCycle true [] 0 s.
Definition motion_changed (b : bool) (s : Demo) : Demo :=
  if bool_decide (b = reduced s) then s else demo_effect (set_reduced b (demo_cleanup s)).
Definition demo_unmount (s : Demo) : Demo :=
  let s := demo_cleanup s in
  {| reduced := reduced s; local := local s; domain := domain s; seconds := seconds s; arrived := arrived s; phase := phase s;
     timeouts := timeouts s; countdowns := countdowns s; burndowns := burndowns s; countdown := countdown s; burndown := burndown s;
     demo_mounted := false |}.
Definition fire (a : action) (random36 : jstr) (pick : nat) (s : Demo) : Demo :=
  match a with
  | ABurn => burn s
  | AEndBurn => end_burn s
  | ACycle => runCycle false random36 pick s
  | AArrive n => set_arrived n s
  end.
Definition demo_mount (b : bool) : Demo := demo_effect {|
  reduced := b; local := INITIAL_LOCAL; domain := default [] (DOMAINS !! 0); seconds := START_SECONDS; arrived := length DEMO_EMAILS;
  phase := PLive; timeouts := []; countdowns := []; burndowns := []; countdown := None; burndown := None; demo_mounted := true |}.

(** Timeouts may fire in any order and intervals at any time, which includes
    the order of their delays. *)
Inductive demo_step : Demo → Demo → Prop :=
| ds_fire s d a pre post random36 pick : timeouts s = pre ++ (d, a) :: post → pick < length DOMAINS →
    demo_step s (fire a random36 pick (set_timers (pre ++ post) (countdowns s) (burndowns s) (countdown s) (burndown s) s))
| ds_countdown s i : countdowns s !! i = Some true → demo_step s (countdown_tick s)
| ds_burndown s i : burndowns s !! i = Some true → demo_step s (burndown_tick s)
| ds_motion s b : demo_mounted s = true → demo_step s (motion_changed b s)
| ds_unmount s : demo_mounted s = true → demo_step s (demo_unmount s).

(** What is shown. *)
Definition visible (s : Demo) : list DemoEmail := take (arrived s) DEMO_EMAILS.
Record demo_view := { dv_address : jstr; dv_timer : option jstr; dv_struck : bool; dv_rows : list (DemoEmail * bool) }.
Definition LiveInboxDemo (s : Demo) : demo_view :=
  let dimmed := bool_decide (phase s = PExpired) || bool_decide (phase s = PBurning) in {|
  dv_address := local s ++ "@" ++ domain s;
  dv_timer := if dimmed then None else Some (mmss (Some (seconds s)));
  dv_struck := bool_decide (phase s = PExpired);
  dv_rows := imap (λ i e, (e, (i =? 0)%nat && negb dimmed)) (visible s) |}.

(** ** The pages *)

Inductive try_page := TPLoading | TPInbox | TPDisabled.
Definition TryPage (isLoading : bool) (enabled : option bool) : try_page :=
  if isLoading then TPLoading else if default false enabled then TPInbox else TPDisabled.

Section landing.
(** The messages of the language and the address of the documentation. *)
Context `{!AppEnv} (t : jstr → jstr) (docs_env : option jstr).
Definition load_sso_status {S} : M S (option json) := api_get "/auth/sso-status" None.
Definition REPO_URL : jstr := "https://github.com/AmJaradat01/burnerbyte".
Definition APACHE_URL : jstr := "https://www.apache.org/licenses/LICENSE-2.0".
Record link := { lk_href : jstr; lk_label : jstr; lk_external : bool }.
Definition inner (h l : jstr) : link := {| lk_href := h; lk_label := t l; lk_external := false |}.
Definition outer (h l : jstr) : link := {| lk_href := h; lk_label := t l; lk_external := true |}.
Definition allowRegistration (sso : option (option bool)) : bool := default true (default None sso).
Definition demoEnabled (demoStatus : option bool) : bool := default false demoStatus.
Definition header_links (reg : bool) : list link :=
  [{| lk_href := "/"; lk_label := "BurnerByte home"; lk_external := false |};
   outer (docsUrl docs_env []) "nav.docs"; outer REPO_URL "nav.repo"; inner "/login" "nav.signIn"]
  ++ (if reg then [inner "/register" "nav.getStarted"] else []).
Definition start_link (reg : bool) (getStarted : jstr) : link :=
  if reg then inner "/register" getStarted else inner "/login" "cta.signIn".
Definition hero_links (reg demo : bool) : list link :=
  [start_link reg "hero.getStarted"; if demo then inner "/try" "hero.tryIt" else outer (docsUrl docs_env []) "hero.docs"].
Definition cta_links (reg : bool) : list link :=
  [start_link reg "cta.getStarted"; outer (docsUrl docs_env "self-hosting/production") "trust.cta"].
Definition footer_links (reg : bool) : list link :=
  [inner "/login" "nav.signIn"] ++ (if reg then [inner "/register" "nav.getStarted"] else []) ++
  [outer (docsUrl docs_env []) "footer.docs"; outer (docsUrl docs_env "api") "footer.api";
   outer (docsUrl docs_env "self-hosting/production") "footer.selfHosting"; outer REPO_URL "footer.repo"; outer APACHE_URL "footer.license"].
Definition steps : list (jstr * jstr * jstr * jstr) := [
  (js "01", t "how.createLabel", t "how.createTitle", t "how.createDesc");
  (js "02", t "how.receiveLabel", t "how.receiveTitle", t "how.receiveDesc");
  (js "03", t "how.expireLabel", t "how.expireTitle", t "how.expireDesc")].
Definition capabilities : list (jstr * jstr * jstr) :=
  (λ k, (t ("capabilities." ++ k ++ "Label"), t ("capabilities." ++ k ++ "Title"), t ("capabilities." ++ k ++ "Desc")))
    <$> (js <$> ["inboxes"; "teams"; "realtime"; "webhooks"; "api"; "hosting"]%string).
(** [t("hero.spec")] split at the middle dots. *)
Definition hero_spec : list jstr := trim <$> split_on 183 (t "hero.spec").
Definition LandingPage (sso : option (option bool)) (demoStatus : option bool) : list link :=
  let reg := allowRegistration sso in
  header_links reg ++ hero_links reg (demoEnabled demoStatus) ++
  [outer (docsUrl docs_env "self-hosting/production") "trust.cta"] ++ cta_links reg ++ footer_links reg.
End landing.

(** ** Theorems *)

Example senderName_quoted : senderName ([34%N] ++ "Ada L." ++ [34%N] ++ "  <ada@x.org>") = js "Ada L.".
Proof. vm_compute. reflexivity. Qed.
Example senderName_plain : senderName "  Ada Lovelace <ada@x.org>" = js "Ada Lovelace".
Proof. vm_compute. reflexivity. Qed.
Example senderName_address : senderName "ada@x.org" = js "ada".
Proof. vm_compute. reflexivity. Qed.

(** *** The demo inbox *)
Section demo_theorems.
Context `{!JSRuntime} (answers : jstr → list TryEmail → Prop).

Definition shown_inbox (s : TryInbox) : bool := bool_decide (status s = live) || bool_decide (status s = expired).
Record try_ok (s : TryInbox) : Prop := {
  to_mails : if shown_inbox s then ∃ i, inbox s = Some i ∧ (emails s = [] ∨ answers (ti_inbox_id i) (emails s)) else emails s = [];
  to_polls : ∀ r, r ∈ polls s → pr_active r = true →
               status s = live ∧ mounted s = true ∧ ∃ i, inbox s = Some i ∧ pr_inbox r = ti_inbox_id i;
  to_ticking : ticking s = true → status s = live ∧ mounted s = true;
  to_creating : mounted s = true → creating s = if bool_decide (status s = init) then 1 else 0
}.

Lemma stop_polls_inactive l r : r ∈ stop_polls l → pr_active r = false.
Proof. by intros (? & -> & _)%list_elem_of_fmap. Qed.

(** Stopping the effects needs only what is shown to be right. *)
Lemma stop_effects_ok s :
  (if shown_inbox s then ∃ i, inbox s = Some i ∧ (emails s = [] ∨ answers (ti_inbox_id i) (emails s)) else emails s = []) →
  (mounted s = true → creating s = if bool_decide (status s = init) then 1 else 0) →
  try_ok (stop_effects s).
Proof.
  intros Hm Hc. split; try done. intros r Hr Ha. by rw (stop_polls_inactive _ _ Hr) in Ha.
Qed.

Lemma tick_fields now s :
  inbox (tick now s) = inbox s ∧ emails (tick now s) = emails s ∧ mounted (tick now s) = mounted s ∧
  creating (tick now s) = creating s ∧ polls (tick now s) = polls s ∧ ticking (tick now s) = ticking s.
Proof. unfold tick. by case_match. Qed.

Lemma timer_tick_ok now s : ticking s = true → try_ok s → try_ok (timer_tick now s).
Proof.
  intros Ht [Hm Hp Hk Hc]. destruct (Hk Ht) as [Hs Hmt]. unfold timer_tick.
  assert (status (tick now s) = live ∨ status (tick now s) = expired) as Hst by (unfold tick; repeat case_match; auto).
  destruct (tick_fields now s) as (Hi & He & Hu & Hn & Hq & Hg). unfold shown_inbox in *. rw Hs in Hm Hp Hc |- *.
  destruct (decide (status (tick now s) = live)) as [Heq|Heq]; [rw bool_decide_true //|rw bool_decide_false //].
  - destruct Hst as [Hst|Hst]; [|congruence]. clear Heq. split; unfold shown_inbox; rw ?Hst ?Hi ?He ?Hu ?Hn ?Hq ?Hg; done.
  - apply stop_effects_ok; unfold shown_inbox; rw ?Hi ?He ?Hu ?Hn; destruct Hst as [Hst|Hst]; rw Hst; done.
Qed.
Lemma commit_ok now s :
  (if shown_inbox s then ∃ i, inbox s = Some i ∧ (emails s = [] ∨ answers (ti_inbox_id i) (emails s)) else emails s = []) →
  mounted s = true → creating s = (if bool_decide (status s = init) then 1 else 0) →
  try_ok (commit now s).
Proof.
  intros Hm Hmt Hc. pose proof (stop_effects_ok s Hm (λ _, Hc)) as H0.
  unfold commit. destruct (decide (status s = live)) as [Hs|Hs].
  2: { rw (bool_decide_false (status s = live)) // andb_false_r. unfold start_effects. by destruct (status (stop_effects s)) eqn:E. }
  unfold shown_inbox in Hm. rw Hs in Hm Hc. destruct Hm as (i & Hi & He). rw (bool_decide_true (status s = live)) // andb_true_r.
  unfold start_effects. cbn [status inbox stop_effects]. rw Hs Hi.
  set (s1 := {| status := live |}). destruct (tick_fields now s1) as (Hti & Hte & Htu & Htn & Htq & Htg).
  assert (status (tick now s1) = live ∨ status (tick now s1) = expired) as Hst by (unfold tick; repeat case_match; auto).
  destruct Hst as [Hst|Hst]; rw Hst /=.
  - split; unfold shown_inbox; rw ?Hst ?Hti ?Hte ?Htu ?Htn ?Htq ?Htg; [by exists i| |done..].
    intros r [Hr| ->%list_elem_of_singleton]%elem_of_app Ha; [by rw (stop_polls_inactive _ _ Hr) in Ha|]. split_and!; [done..|by exists i].
  - apply stop_effects_ok; unfold shown_inbox; rw Hst ?Hti ?Hte ?Htu ?Htn; [by exists i|done].
Qed.

Lemma try_step_ok s s' : try_step answers s s' → try_ok s → try_ok s'.
Proof.
  intros Hst Hok. destruct Hst as [s now info Hn|s now Hmt He|s now Ht|s r l Hr Hl|s r Hr|s Hs|s|s Hmt].
  - destruct Hok as [Hm Hp Hk Hc]. unfold created. destruct (mounted s) eqn:Hmt; cbn [negb].
    + specialize (Hc eq_refl). case_bool_decide as Hi; [|lia]. unfold shown_inbox in Hm. rw Hi in Hm. cbn in Hm.
      destruct info as [i|]; apply commit_ok; try done; unfold shown_inbox; cbn; rw ?Hc ?Hm //. exists i. by split; [|left].
    + split; cbn; try done; rw Hmt; done.
  - destruct Hok as [Hm Hp Hk Hc]. specialize (Hc Hmt). rw He /= in Hc. apply commit_ok; try done. cbn. by rw Hc.
  - by apply timer_tick_ok.
  - unfold polled. destruct (pr_active r) eqn:Ha; [|done]. destruct (to_polls _ Hok r Hr Ha) as (Hs & Hmt & i & Hi & Hid). rw Hmt /=.
    destruct Hok as [Hm Hp Hk Hc]. split; try done. unfold shown_inbox; cbn. rw Hs Hi /=. exists i. split; [done|]. right. by rw -Hid.
  - done.
  - unfold onCopy. by destruct (inbox s) eqn:Ei; destruct Hok; split.
  - unfold copy_timer. case_match; [|done]. by destruct Hok; split.
  - destruct (stop_effects_ok s (to_mails _ Hok) (to_creating _ Hok)) as [H1 H2 H3 H4]. split; [done|..]; cbn in *; try done.
    intros r Hr Ha. by rw (stop_polls_inactive _ _ Hr) in Ha.
Qed.

(** C29: whenever the demo shows a real inbox it shows its address, and mails that
    are answers to polls of that very inbox; answers that come after the inbox
    expired, was replaced, or after the page was left change nothing. While the
    page is mounted a call that creates an inbox is under way exactly while the
    demo is starting, and polling and countdown run only while it is live. *)
Theorem demo_own_mail (s : TryInbox) :
  rtc (try_step answers) try_init s →
  (∀ e addr tm mails c g, TryInbox_view s = TInbox e addr tm mails c g →
     ∃ i, inbox s = Some i ∧ addr = Some (ti_address i) ∧ (mails = [] ∨ answers (ti_inbox_id i) mails)) ∧
  (mounted s = true → creating s = if bool_decide (status s = init) then 1 else 0) ∧
  (∀ r, r ∈ polls s → pr_active r = true → status s = live ∧ mounted s = true ∧ ∃ i, inbox s = Some i ∧ pr_inbox r = ti_inbox_id i) ∧
  (ticking s = true → status s = live ∧ mounted s = true).
Proof.
  intros Hr. assert (try_ok s) as [Hm Hp Hk Hc].
  { revert s Hr. apply (rtc_ind_r try_ok); [|intros; by eapply try_step_ok]. split; try done. by intros r ?%elem_of_nil. }
  split_and!; [|done..]. intros e addr tm mails c g Hv. unfold TryInbox_view in Hv. unfold shown_inbox in Hm.
  destruct (status s); try done; injection Hv as <- <- <- <- <- <-; cbn in Hm; destruct Hm as (i & Hi & He); exists i; by rw Hi.
Qed.

(** The countdown ends a live inbox at its expiry, and not more than a second
    before. *)
Theorem countdown_expires (s : TryInbox) (i : TryInboxInfo) (e now : Z) :
  inbox s = Some i → date_ms (ti_expires_at i) = Some e → status s = live →
  ((e <= now)%Z → status (timer_tick now s) = expired ∧ ticking (timer_tick now s) = false ∧ Forall (λ r, pr_active r = false) (polls (timer_tick now s))) ∧
  ((now + 500 <= e)%Z → status (timer_tick now s) = live ∧ ∃ n, remaining (timer_tick now s) = Some n ∧ (1 <= n)%Z ∧ (Z.abs (n * 1000 - (e - now)) <= 500)%Z).
Proof.
  intros Hi He Hs. assert (Hl : seconds_left i now = Some (Z.max 0 ((2 * (e - now) + 1000) / 2000))) by (unfold seconds_left; by rw He).
  pose proof (Z.div_mod (2 * (e - now) + 1000) 2000) as Hd. pose proof (Z.mod_pos_bound (2 * (e - now) + 1000) 2000) as Hb.
  unfold timer_tick, tick. rw Hi Hl. cbn [is_zero]. set (q := ((2 * (e - now) + 1000) / 2000)%Z) in *.
  destruct (Z.leb_spec (Z.max 0 q) 0) as [Hz|Hz]; cbn [status]; rw Hs /=; (split; [intros Hn|intros Hn]); try lia.
  - split_and!; [done..|]. apply Forall_forall. intros r. apply stop_polls_inactive.
  - split; [done|]. eexists; split; [done|]. lia.
Qed.
End demo_theorems.

(** A server that answers each poll with one mail to that inbox. *)
Definition one_mail (id : jstr) (l : list TryEmail) : Prop :=
  l = [{| te_id := id; te_from_address := "a@b.c"; te_subject := None; te_snippet := "hi"; te_received_at := "5" |}].
Lemma demo_own_mail_witness :
  ∃ s, rtc (try_step (H := AsciiRuntime) one_mail) try_init s ∧ status s = live ∧ creating s = 0 ∧ length (emails s) = 1.
Proof.
  set (i := {| ti_inbox_id := "x"; ti_address := "x@demo"; ti_expires_at := "9000" |}).
  set (s1 := created (H := AsciiRuntime) 0 (Some i) try_init).
  set (r := {| pr_inbox := "x"; pr_active := true |}).
  set (l := [{| te_id := "x"; te_from_address := "a@b.c"; te_subject := None; te_snippet := "hi"; te_received_at := "5" |}]).
  assert (Hr : rtc (try_step (H := AsciiRuntime) one_mail) try_init (polled r (Some l) s1)).
  { eapply rtc_l; [apply (ts_created _ _ 0 (Some i)); cbn; lia|]. eapply rtc_l; [|apply rtc_refl].
    apply ts_polled; [vm_compute; left|done]. }
  exists (polled r (Some l) s1). split; [exact Hr|].
  pose proof (demo_own_mail (H := AsciiRuntime) one_mail _ Hr) as (_ & Hc & _). specialize (Hc eq_refl).
  split_and!; [vm_compute; reflexivity|exact Hc|vm_compute; reflexivity].
Defined.

(** *** The simulated inbox *)

Definition driver (x : Z * action) : bool := match snd x with AArrive _ => false | _ => true end.
(** What runs while an action is the next of the cycle. *)
Definition action_ok (s : Demo) (a : action) : Prop :=
  match a with
  | ABurn => phase s = PLive ∧ countb id (countdowns s) = 1 ∧ countb id (burndowns s) = 0
  | AEndBurn => phase s = PBurning ∧ countb id (countdowns s) = 0 ∧ countb id (burndowns s) = 1
  | ACycle => phase s = PExpired ∧ countb id (countdowns s) = 0 ∧ countb id (burndowns s) = 0
  | AArrive n => 1 ≤ n ≤ length DEMO_EMAILS
  end.
Record demo_ok (s : Demo) : Prop := {
  do_seconds : (0 <= seconds s <= START_SECONDS)%Z;
  do_arrived : 1 ≤ arrived s ≤ length DEMO_EMAILS;
  do_domain : domain s ∈ DOMAINS;
  do_countdown : only id (countdowns s) (countdown s);
  do_burndown : only id (burndowns s) (burndown s);
  do_timers : if demo_mounted s && negb (reduced s)
              then countb driver (timeouts s) = 1 ∧ Forall (λ x, action_ok s (snd x)) (timeouts s)
              else timeouts s = [] ∧ countb id (countdowns s) = 0 ∧ countb id (burndowns s) = 0
}.

(** Clearing the interval that the variable holds leaves none. *)
Lemma clear_interval_none l v : only id l v → countb id (clear_interval v l) = 0.
Proof.
  intros Ho. apply countb_zero. intros j [] Hj; [|done]. unfold clear_interval in Hj. destruct v as [i|].
  - apply list_lookup_insert_Some in Hj as [(_ & ? & _)|[Hne Hj]]; [done|]. specialize (Ho _ _ Hj eq_refl). naive_solver.
  - by specialize (Ho _ _ Hj eq_refl).
Qed.

#[local] Arguments countb : simpl never.
#[local] Arguments length : simpl nomatch.

(** The timeouts that do not drive the cycle only depend on the fixtures. *)
Lemma arrivals_only s s' l :
  countb driver l = 0 → Forall (λ x, action_ok s (snd x)) l → Forall (λ x, action_ok s' (snd x)) l.
Proof.
  intros Hz Hf. apply Forall_lookup. intros k [d a] Hk. pose proof (proj1 (countb_zero _ _) Hz _ _ Hk) as Hd.
  pose proof (proj1 (Forall_lookup _ _) Hf _ _ Hk) as Ha. by destruct a.
Qed.

Lemma runCycle_ok first random36 pick s :
  pick < length DOMAINS → demo_mounted s = true → reduced s = false → countb driver (timeouts s) = 0 →
  Forall (λ x, action_ok s (snd x)) (timeouts s) → countb id (countdowns s) = 0 → countb id (burndowns s) = 0 →
  demo_ok (runCycle first random36 pick s).
Proof.
  intros Hp Hm Hr Hd Hf Hc Hb.
  assert (∃ d, DOMAINS !! (if first then 0 else pick) = Some d) as [d Hdom] by (apply lookup_lt_is_Some; destruct first; [cbn; lia|done]).
  unfold runCycle. rw Hdom.
  set (s1 := startCountdown _). assert (countb id (countdowns s1) = 1) as H1 by (cbn; rw countb_snoc Hc; done).
  destruct first.
  - split; cbn; rw ?Hm ?Hr; try done; try lia; [by eapply list_elem_of_lookup_2|by apply only_snoc|by apply only_none|].
    cbn. rw countb_snoc Hd. split; [done|]. apply Forall_app. split; [by apply (arrivals_only s)|]. by constructor.
  - split; cbn; rw ?Hm ?Hr; try done; try lia; [by eapply list_elem_of_lookup_2|by apply only_snoc|by apply only_none|].
    cbn. rw !countb_snoc Hd. split; [done|]. rw !Forall_app. split_and!; [by apply (arrivals_only s)|..]; constructor; cbn; try done; lia.
Qed.

Lemma fire_ok s d a pre post random36 pick :
  timeouts s = pre ++ (d, a) :: post → pick < length DOMAINS → demo_ok s →
  demo_ok (fire a random36 pick (set_timers (pre ++ post) (countdowns s) (burndowns s) (countdown s) (burndown s) s)).
Proof.
  intros Ht Hp Hok. pose proof Hok as [Hs Ha Hdom Hc Hb Hrun]. rw Ht in Hrun.
  destruct (demo_mounted s) eqn:Em, (reduced s) eqn:Er; cbn in Hrun; try (by destruct pre, Hrun).
  destruct Hrun as [Hd Hf]. apply Forall_app in Hf as [Hf1 [Hx Hf2]%Forall_cons]. cbn in Hx.
  rw (countb_app driver pre) (countb_app driver [(d, a)] post) in Hd.
  assert (Forall (λ x, action_ok s (snd x)) (pre ++ post)) as Hf by (by apply Forall_app).
  assert (driver (d, a) = true → countb driver (pre ++ post) = 0) as Hz.
  { intros E. rw countb_app. revert Hd. unfold countb at 2. cbn [List.filter]. rw E. cbn [length]. lia. }
  destruct a as [| | |n]; cbn [fire].
  - specialize (Hz eq_refl). destruct Hx as (Hph & Hcd & Hbd).
    pose proof (clear_interval_none _ _ Hc) as Hn.
    split; cbn; rw ?Em ?Er; try done; [by apply only_none|by apply only_snoc|]. cbn. rw countb_snoc Hz. split; [done|].
    apply Forall_app. split; [by apply (arrivals_only s)|]. constructor; [|done]. cbn. by rw countb_snoc Hbd Hn.
  - specialize (Hz eq_refl). destruct Hx as (Hph & Hcd & Hbd).
    pose proof (clear_interval_none _ _ Hb) as Hn.
    split; cbn; rw ?Em ?Er; try done; [by apply only_none|]. cbn. rw countb_snoc Hz. split; [done|].
    apply Forall_app. split; [by apply (arrivals_only s)|]. by constructor.
  - specialize (Hz eq_refl). destruct Hx as (Hph & Hcd & Hbd). by apply runCycle_ok.
  - split; cbn; rw ?Em ?Er; try done. cbn. rw countb_app. revert Hd. unfold countb at 2. cbn. intros ->. split; [done|].
    eapply Forall_impl; [exact Hf|]. by intros [? []].
Qed.

Lemma demo_cleanup_ok s : demo_ok s → demo_mounted s = true →
  timeouts (demo_cleanup s) = [] ∧ countb id (countdowns (demo_cleanup s)) = 0 ∧ countb id (burndowns (demo_cleanup s)) = 0.
Proof.
  intros [Hs Ha Hdom Hc Hb Hrun] Hm. unfold demo_cleanup. rw Hm in Hrun. destruct (reduced s); cbn in *; [done|].
  by rw !clear_interval_none.
Qed.

Lemma demo_effect_ok s :
  demo_mounted s = true → timeouts s = [] → countb id (countdowns s) = 0 → countb id (burndowns s) = 0 → demo_ok (demo_effect s).
Proof.
  intros Hm Ht Hc Hb. unfold demo_effect. cbn [reduced set_timers]. destruct (reduced s) eqn:Er.
  - split; cbn; rw ?Hm ?Er; try done; try lia; [left|by apply only_none..].
  - apply runCycle_ok; cbn; rw ?Ht; try done; lia.
Qed.

Lemma demo_step_ok s s' : demo_step s s' → demo_ok s → demo_ok s'.
Proof.
  intros Hst Hok. destruct Hst as [s d a pre post random36 pick Ht Hp|s i Hi|s i Hi|s b Hm|s Hm].
  - by eapply fire_ok.
  - destruct Hok as [Hs Ha Hdom Hc Hb Hrun]. split; try done. cbn. destruct (Z.ltb_spec 0 (seconds s)); lia.
  - destruct Hok as [Hs Ha Hdom Hc Hb Hrun]. split; try done. cbn. lia.
  - unfold motion_changed. case_bool_decide; [done|]. destruct (demo_cleanup_ok _ Hok Hm) as (Ht & Hc & Hb).
    apply demo_effect_ok; try done. cbn. unfold demo_cleanup. by case_match.
  - destruct (demo_cleanup_ok _ Hok Hm) as (Ht & Hc & Hb). destruct Hok as [Hs Ha Hdom _ _ _]. unfold demo_unmount. unfold demo_cleanup in *.
    destruct (reduced s) eqn:Er; split; cbn in *; try done; by apply only_none.
Qed.

(** The simulated inbox: the counter stays between 0 and its start, at least one
    and at most all mails are shown, and at most one interval runs. While the
    page is mounted and motion is not reduced exactly one timeout drives the
    cycle on, so that it never stops; otherwise no timer is left. *)
Theorem simulated_inbox_safe (b : bool) (s : Demo) :
  rtc demo_step (demo_mount b) s →
  (0 <= seconds s <= START_SECONDS)%Z ∧ 1 ≤ length (visible s) ≤ length DEMO_EMAILS ∧
  countb id (countdowns s) + countb id (burndowns s) ≤ 1 ∧
  if demo_mounted s && negb (reduced s) then countb driver (timeouts s) = 1
  else timeouts s = [] ∧ countb id (countdowns s) = 0 ∧ countb id (burndowns s) = 0.
Proof.
  intros Hr. assert (demo_ok s) as [Hs Ha Hdom Hc Hb Hrun].
  { revert s Hr. apply (rtc_ind_r demo_ok); [by apply demo_effect_ok|]. intros. by eapply demo_step_ok. }
  unfold visible. rw length_take. split_and!; try lia; destruct (demo_mounted s && negb (reduced s)); try tauto; try lia.
  destruct Hrun as [Hd Hf]. destruct (countb_witness driver (timeouts s)) as (k & [d a] & Hk & Hx); [lia|].
  pose proof (proj1 (Forall_lookup _ _) Hf _ _ Hk) as Hok. destruct a; cbn in *; try done; lia.
Qed.

(** Without registration no link of the landing page leads to it. *)
Theorem no_register_link (t : jstr → jstr) (docs_env : option jstr) (demoStatus : option bool) (l : link) :
  l ∈ LandingPage t docs_env (Some (Some false)) demoStatus → lk_external l = false →
  lk_href l = js "/" ∨ lk_href l = js "/login" ∨ (lk_href l = js "/try" ∧ demoStatus = Some true).
Proof.
  unfold LandingPage, header_links, hero_links, cta_links, footer_links, allowRegistration. cbn -[docsUrl].
  destruct demoStatus as [[]|]; cbn -[docsUrl]; rw !elem_of_cons elem_of_nil; naive_solver.
Qed.
