(* ===== verification/NotificationSocket.v ===== *)
(** * Live notifications

    The socket of [components/notification-center.tsx]: what a message does,
    and the connections of the effect, which depends on the signed-in user.
    The socket and the timer are kept in refs that all runs of the effect
    share, so runs are modelled together, with everything that can happen
    between them. *)

From S2P Require Import Prelude Browser ApiClient React Json Notifications.

(** ** A message *)

(** What a message makes the page do: a toast, perhaps with a link, perhaps a
    notification of the browser with its tag, and queries to refresh. *)
Record reaction := {
  re_title : jstr; re_message : jstr; re_open : option jstr; re_browser : option (option json); re_refreshes : list jstr
}.
(** [data.type || "info"]; anything but a string makes [replace] throw. *)
Definition event_type (data : json) : option jstr :=
  match jfield data "type" with
  | Some (JStr s) => Some (jor s "info")
  | v => if json_truthy v then None else Some (js "info")
  end.
(** [data] is the parsed message, [None] when it is no JSON; the result is
    [None] when the handler throws, which is ignored. *)
Definition onmessage (granted hidden : bool) (data : option json) : option reaction :=
  match data with
  | None | Some JNull => None
  | Some d =>
      match event_type d with
      | None => None
      | Some type =>
          let payload := match jfield d "data" with Some JNull => None | v => v end in
          let '(title, message) := event_text stringify type payload in
          let inboxId := payload ≫= λ p, jfield p "inbox_id" in
          Some {|
            re_title := title; re_message := message;
            re_open := if json_truthy inboxId then Some ("/inboxes/" ++ from_option json_to_string [] inboxId) else None;
            re_browser := if granted && hidden then Some (jfield d "type") else None;
            re_refreshes := event_refreshes type |}
      end
  end.

Definition load_notifications `{!AppEnv} {S} : M S (option json) := api_get "/notifications" None.

(** ** Connections *)

Inductive nsock := NLive | NClosing | NClosed.
#[export] Instance nsock_eq_dec : EqDecision nsock.
Proof. solve_decision. Defined.
Record nrun := { nr_user : jstr; nr_disposed : bool; nr_tickets : nat }.
(** [user] is the signed-in user; [shown] records for each message the user of
    the run that received it and the user signed in. *)
Record Center := {
  user : option jstr;
  runs : list nrun;
  sockets : list (nat * nsock);
  timers : list (nat * bool);
  wsRef : option nat;
  reconnectRef : option nat;
  shown : list (jstr * option jstr)
}.
Definition set_runs (l : list nrun) (s : Center) : Center :=
  {| user := user s; runs := l; sockets := sockets s; timers := timers s; wsRef := wsRef s; reconnectRef := reconnectRef s; shown := shown s |}.
Definition set_sockets (l : list (nat * nsock)) (v : option nat) (s : Center) : Center :=
  {| user := user s; runs := runs s; sockets := l; timers := timers s; wsRef := v; reconnectRef := reconnectRef s; shown := shown s |}.
Definition set_timers (l : list (nat * bool)) (v : option nat) (s : Center) : Center :=
  {| user := user s; runs := runs s; sockets := sockets s; timers := l; wsRef := wsRef s; reconnectRef := v; shown := shown s |}.
Definition disposed (i : nat) (s : Center) : bool := from_option nr_disposed true (runs s !! i).
Definition add_tickets (f : nat → nat) (i : nat) (s : Center) : Center :=
  set_runs (alter (λ r, {| nr_user := nr_user r; nr_disposed := nr_disposed r; nr_tickets := f (nr_tickets r) |}) i (runs s)) s.

Definition doConnect (i : nat) (s : Center) : Center := if disposed i s then s else add_tickets S i s.
(** [if (!disposed) reconnectRef.current = setTimeout(doConnect, 5000)]. *)
Definition reconnect (i : nat) (s : Center) : Center :=
  if disposed i s then s else set_timers (timers s ++ [(i, true)]) (Some (length (timers s))) s.
Definition ticket_ok (i : nat) (s : Center) : Center :=
  let s := add_tickets pred i s in
  if disposed i s then s else set_sockets (sockets s ++ [(i, NLive)]) (Some (length (sockets s))) s.
Definition ticket_failed (i : nat) (s : Center) : Center := reconnect i (add_tickets pred i s).
Definition set_sock (k : nat) (st : nsock) (s : Center) : list (nat * nsock) := alter (λ x, (fst x, st)) k (sockets s).
(** [close()] of a socket; it does nothing to one that is closing or closed. *)
Definition close (k : nat) (s : Center) : Center :=
  match sockets s !! k with
  | Some (_, NLive) => set_sockets (set_sock k NClosing s) (wsRef s) s
  | _ => s
  end.
Definition onclose (k i : nat) (s : Center) : Center := reconnect i (set_sockets (set_sock k NClosed s) None s).
Definition timer_off (k : nat) (s : Center) : Center := set_timers (alter (λ x, (fst x, false)) k (timers s)) (reconnectRef s) s.
Definition timer_fired (k i : nat) (s : Center) : Center := doConnect i (timer_off k s).
(** The cleanup of run [i]. *)
Definition mark (i : nat) (s : Center) : Center :=
  set_runs (alter (λ r, {| nr_user := nr_user r; nr_disposed := true; nr_tickets := nr_tickets r |}) i (runs s)) s.
Definition clear_ref (s : Center) : Center := match reconnectRef s with Some k => timer_off k s | None => s end.
Definition close_ref (s : Center) : Center :=
  let s := match wsRef s with Some k => close k s | None => s end in set_sockets (sockets s) None s.
Definition cleanup (i : nat) (s : Center) : Center := close_ref (clear_ref (mark i s)).
Definition start_run (u : jstr) (s : Center) : Center :=
  let s := set_runs (runs s ++ [{| nr_user := u; nr_disposed := false; nr_tickets := 0 |}]) s in doConnect (pred (length (runs s))) s.
Definition set_user (u : option jstr) (s : Center) : Center :=
  {| user := u; runs := runs s; sockets := sockets s; timers := timers s; wsRef := wsRef s; reconnectRef := reconnectRef s; shown := shown s |}.
(** The user object changes: the effect of the old one is cleaned up, and one
    for the new one started. *)
Definition user_changed (u : option jstr) (s : Center) : Center :=
  let s1 := match user s with Some _ => cleanup (pred (length (runs s))) s | None => s end in
  match u with Some v => start_run v (set_user u s1) | None => set_user u s1 end.
Definition message (i : nat) (s : Center) : Center :=
  {| user := user s; runs := runs s; sockets := sockets s; timers := timers s; wsRef := wsRef s; reconnectRef := reconnectRef s;
     shown := shown s ++ [(from_option nr_user [] (runs s !! i), user s)] |}.
Definition center_init : Center :=
  {| user := None; runs := []; sockets := []; timers := []; wsRef := None; reconnectRef := None; shown := [] |}.

Inductive center_step : Center → Center → Prop :=
| cs_user s u : center_step s (user_changed u s)
| cs_ticket s i r : runs s !! i = Some r → 0 < nr_tickets r → center_step s (ticket_ok i s)
| cs_no_ticket s i r : runs s !! i = Some r → 0 < nr_tickets r → center_step s (ticket_failed i s)
| cs_error s k i : sockets s !! k = Some (i, NLive) → center_step s (close k s)
| cs_closed s k i x : sockets s !! k = Some (i, x) → x ≠ NClosed → center_step s (onclose k i s)
| cs_timer s k i : timers s !! k = Some (i, true) → center_step s (timer_fired k i s)
| cs_message s k i : sockets s !! k = Some (i, NLive) → center_step s (message i s).
(** The schedules in which no socket is opened while another is closing. *)
Definition prompt (s s' : Center) : Prop :=
  length (sockets s) < length (sockets s') → ∀ k i, sockets s !! k ≠ Some (i, NClosing).
Definition prompt_step (s s' : Center) : Prop := center_step s s' ∧ prompt s s'.

(** ** Theorems *)

Definition pend (x : nsock) : bool := match x with NClosed => false | _ => true end.
Definition pend_of (i : nat) (x : nat * nsock) : bool := (fst x =? i) && pend (snd x).
Definition armed_of (i : nat) (x : nat * bool) : bool := (fst x =? i) && snd x.
Definition tickets (i : nat) (s : Center) : nat := from_option nr_tickets 0 (runs s !! i).
(** What run [i] has under way. *)
Definition busy (i : nat) (s : Center) : nat :=
  tickets i s + countb (pend_of i) (sockets s) + countb (armed_of i) (timers s).
(** The run of the signed-in user. *)
Definition cur (s : Center) : option nat := match user s with Some _ => Some (pred (length (runs s))) | None => None end.

(** [n] is 1 between steps. *)
Record center_inv (n : nat) (s : Center) : Prop := {
  co_disposed i : disposed i s = negb (bool_decide (cur s = Some i));
  co_busy i : cur s = Some i → busy i s = n;
  co_user i : cur s = Some i → nr_user <$> runs s !! i = user s;
  co_timer k i : timers s !! k = Some (i, true) → reconnectRef s = Some k ∧ cur s = Some i;
  co_sockets k i x : sockets s !! k = Some (i, x) → i < length (runs s);
  co_timers k i b : timers s !! k = Some (i, b) → i < length (runs s)
}.

#[local] Arguments countb : simpl never.
#[local] Arguments Nat.eqb : simpl never.
#[local] Arguments Nat.pred : simpl never.

Lemma disposed_false n s i : center_inv n s → disposed i s = false ↔ cur s = Some i.
Proof. intros Hok. rw (co_disposed _ _ Hok) negb_false_iff bool_decide_eq_true //. Qed.
Lemma cur_lookup n s i : center_inv n s → cur s = Some i → ∃ r, runs s !! i = Some r ∧ nr_disposed r = false.
Proof.
  intros Hok Hi%(disposed_false n s i Hok). unfold disposed in Hi. destruct (runs s !! i) as [r|]; [by exists r|done].
Qed.

Lemma lookup_alter_list {A} (f : A → A) l i j : (alter f i l : list A) !! j = (if (i =? j) then f else id) <$> l !! j.
Proof.
  destruct (Nat.eqb_spec i j) as [->|Hne]; [by rw list_lookup_alter_eq|]. rw list_lookup_alter_ne //. by destruct (l !! j).
Qed.
Lemma countb_alter {A} (p : A → bool) (f : A → A) l i x :
  l !! i = Some x → countb p (alter f i l) + Nat.b2n (p x) = countb p l + Nat.b2n (p (f x)).
Proof.
  intros Hi. rw -(countb_insert p l i (f x) x Hi). f_equal. f_equal. apply list_eq. intros j. rw lookup_alter_list.
  destruct (Nat.eqb_spec i j) as [->|Hne]; [|by rw list_lookup_insert_ne //; destruct (l !! j)].
  rw Hi list_lookup_insert_eq //. by eapply lookup_lt_Some.
Qed.

(** *** The fields after the operations on runs *)
Lemma add_tickets_lookup f i j s : runs (add_tickets f i s) !! j =
  (if i =? j then λ r, {| nr_user := nr_user r; nr_disposed := nr_disposed r; nr_tickets := f (nr_tickets r) |} else id) <$> runs s !! j.
Proof. apply lookup_alter_list. Qed.
Lemma add_tickets_disposed f i j s : disposed j (add_tickets f i s) = disposed j s.
Proof. unfold disposed. rw add_tickets_lookup. destruct (runs s !! j); [|done]. cbn. by destruct (i =? j). Qed.
Lemma add_tickets_cur f i s : cur (add_tickets f i s) = cur s.
Proof. unfold cur. cbn. by rw length_alter. Qed.
Lemma add_tickets_tickets f i j s r : runs s !! i = Some r →
  tickets j (add_tickets f i s) = if i =? j then f (nr_tickets r) else tickets j s.
Proof.
  intros Hr. unfold tickets. rw add_tickets_lookup. destruct (Nat.eqb_spec i j) as [<-|]; [by rw Hr|]. by destruct (runs s !! j).
Qed.

(** How the count of a change in run [i] moves. *)
Definition moved (s : Center) (i n before after m : nat) : Prop := if bool_decide (cur s = Some i) then m + before = n + after else m = n.
Lemma moved_busy s i n before after m j b b' :
  cur s = Some j → moved s i n before after m → b = n →
  (if i =? j then b' + before = b + after else b' = b) → b' = m.
Proof. unfold moved. intros Hj Hm -> Hb. rw Hj in Hm. destruct (Nat.eqb_spec i j) as [->|]; case_bool_decide; naive_solver lia. Qed.

Lemma add_tickets_inv f i s r n m :
  center_inv n s → runs s !! i = Some r → moved s i n (nr_tickets r) (f (nr_tickets r)) m → center_inv m (add_tickets f i s).
Proof.
  intros [H1 H2 H3 H4 H5 H6] Hr Hf. split; rw ?add_tickets_cur.
  - intros j. rw add_tickets_disposed. apply H1.
  - intros j Hj. eapply moved_busy; [done..|by apply H2|]. unfold busy. rw (add_tickets_tickets _ _ _ _ _ Hr).
    destruct (Nat.eqb_spec i j) as [<-|]; [|done]. unfold tickets. rw Hr. cbn. lia.
  - intros j Hj. rw add_tickets_lookup -(H3 j Hj). destruct (runs s !! j); [|done]. cbn. by destruct (i =? j).
  - done.
  - intros k j x Hk. cbn. rw length_alter. by eapply H5.
  - intros k j b Hk. cbn. rw length_alter. by eapply H6.
Qed.

Lemma doConnect_inv i s : center_inv 1 s → cur s ≠ Some i → center_inv 1 (doConnect i s).
Proof. intros Hok Hc. unfold doConnect. by rw (co_disposed _ _ Hok) bool_decide_false. Qed.
Lemma doConnect_cur i s : center_inv 0 s → cur s = Some i → center_inv 1 (doConnect i s).
Proof.
  intros Hok Hc. unfold doConnect. rw (co_disposed _ _ Hok) bool_decide_true //=. destruct (cur_lookup _ _ _ Hok Hc) as (r & Hr & _).
  eapply add_tickets_inv; [done..|]. unfold moved. by rw bool_decide_true; [lia|].
Qed.

Lemma reconnect_inv i s : center_inv 1 s → cur s ≠ Some i → center_inv 1 (reconnect i s).
Proof. intros Hok Hc. unfold reconnect. by rw (co_disposed _ _ Hok) bool_decide_false. Qed.
Lemma reconnect_cur i s : center_inv 0 s → cur s = Some i → center_inv 1 (reconnect i s).
Proof.
  intros Hok Hc. unfold reconnect. rw (co_disposed _ _ Hok) bool_decide_true //=. destruct (cur_lookup _ _ _ Hok Hc) as (r & Hr & _).
  destruct Hok as [H1 H2 H3 H4 H5 H6]. split; try done.
  - intros j Hj. assert (j = i) as -> by (unfold cur in *; cbn in *; congruence). specialize (H2 i Hc). unfold busy, tickets in *. cbn. rw countb_snoc.
    unfold armed_of at 2. cbn. rw Nat.eqb_refl. cbn. lia.
  - intros k j [[? Hk]|[-> [= <-]]]%lookup_snoc_Some; [|done]. destruct (H4 k j Hk) as [_ Hj]. assert (j = i) as -> by congruence.
    specialize (H2 i Hc). unfold busy in H2. pose proof (countb_pos (armed_of i) _ _ _ Hk) as Hp. unfold armed_of at 1 in Hp. cbn in Hp.
    rw Nat.eqb_refl in Hp. specialize (Hp eq_refl). lia.
  - intros k j b [[? Hk]|[-> [= <- <-]]]%lookup_snoc_Some; cbn; [by eapply H6|by eapply lookup_lt_Some].
Qed.

Lemma set_sock_inv k st v s i x n m :
  center_inv n s → sockets s !! k = Some (i, x) → moved s i n (Nat.b2n (pend x)) (Nat.b2n (pend st)) m →
  center_inv m (set_sockets (set_sock k st s) v s).
Proof.
  intros [H1 H2 H3 H4 H5 H6] Hk Hm. split; try done.
  - intros j Hj. eapply moved_busy; [exact Hj|exact Hm|by apply H2|]. unfold busy. cbn. unfold set_sock.
    pose proof (countb_alter (pend_of j) (λ y, (fst y, st)) _ _ _ Hk) as Hc. unfold pend_of at 2 4 in Hc. cbn in Hc.
    destruct (i =? j); cbn in Hc; unfold tickets; cbn; lia.
  - intros k' j y Hk'. cbn in Hk'. unfold set_sock in Hk'. rw lookup_alter_list in Hk'. apply fmap_Some in Hk' as ([i' z] & Hz & E).
    destruct (k =? k'); cbn in E; injection E as -> _; by eapply H5.
Qed.

Lemma timer_off_inv k s i n m :
  center_inv n s → timers s !! k = Some (i, true) → moved s i n 1 0 m → center_inv m (timer_off k s).
Proof.
  intros [H1 H2 H3 H4 H5 H6] Hk Hm. split; try done.
  - intros j Hj. eapply moved_busy; [exact Hj|exact Hm|by apply H2|]. unfold busy. cbn.
    pose proof (countb_alter (armed_of j) (λ y, (fst y, false)) _ _ _ Hk) as Hc. unfold armed_of at 2 4 in Hc. cbn in Hc.
    destruct (i =? j); cbn in Hc; unfold tickets; cbn; lia.
  - intros k' j Hk'. cbn in Hk'. rw lookup_alter_list in Hk'. apply fmap_Some in Hk' as ([i' z] & Hz & E).
    destruct (k =? k'); cbn in E; [done|]. injection E as -> <-. by apply H4.
  - intros k' j b Hk'. cbn in Hk'. rw lookup_alter_list in Hk'. apply fmap_Some in Hk' as ([i' z] & Hz & E).
    destruct (k =? k'); cbn in E; injection E as -> _; by eapply H6.
Qed.

Lemma cur_set_sockets l v s : cur (set_sockets l v s) = cur s.
Proof. done. Qed.

(** Opening a socket for a ticket. *)
Lemma open_inv i s : center_inv 0 s → cur s = Some i →
  center_inv 1 (set_sockets (sockets s ++ [(i, NLive)]) (Some (length (sockets s))) s).
Proof.
  intros Hok Hc. destruct (cur_lookup _ _ _ Hok Hc) as (r & Hr & _). destruct Hok as [H1 H2 H3 H4 H5 H6]. split; try done.
  - intros j Hj. assert (j = i) as -> by (unfold cur in *; cbn in *; congruence). specialize (H2 i Hc). unfold busy, tickets in *. cbn. rw countb_snoc.
    unfold pend_of at 2. cbn. rw Nat.eqb_refl. cbn. lia.
  - intros k j x [[? Hk]|[-> [= <- <-]]]%lookup_snoc_Some; cbn; [by eapply H5|by eapply lookup_lt_Some].
Qed.

Lemma ticket_gone i s r : center_inv 1 s → runs s !! i = Some r → 0 < nr_tickets r →
  center_inv (if bool_decide (cur s = Some i) then 0 else 1) (add_tickets pred i s).
Proof. intros Hok Hr Ht. eapply add_tickets_inv; [done..|]. unfold moved. case_bool_decide; lia. Qed.

(** After the cleanup of the last run nothing of the effect is left but calls
    and sockets whose results are ignored, unless a ref was lost. *)
Record idle (s : Center) : Prop := {
  id_disposed i : disposed i s = true;
  id_timer k i : timers s !! k ≠ Some (i, true);
  id_sockets k i x : sockets s !! k = Some (i, x) → i < length (runs s);
  id_timers k i b : timers s !! k = Some (i, b) → i < length (runs s)
}.
Lemma close_same k s : runs (close k s) = runs s ∧ timers (close k s) = timers s ∧ user (close k s) = user s ∧
  wsRef (close k s) = wsRef s ∧ fst <$> sockets (close k s) = fst <$> sockets s.
Proof.
  unfold close. destruct (sockets s !! k) as [[i []]|] eqn:Ek; try done. cbn. split_and!; try done. unfold set_sock.
  apply list_eq. intros j. rw !list_lookup_fmap lookup_alter_list. by destruct (sockets s !! j); destruct (k =? j).
Qed.
Lemma owners_lt (l l' : list (nat * nsock)) n :
  fst <$> l' = fst <$> l → (∀ k i x, l !! k = Some (i, x) → i < n) → ∀ k i x, l' !! k = Some (i, x) → i < n.
Proof.
  intros E H k i x Hk. apply (f_equal (λ m, m !! k)) in E. rw !list_lookup_fmap Hk in E. cbn in E.
  destruct (l !! k) as [[j y]|] eqn:Ej; [|done]. cbn in E. injection E as ->. by eapply H.
Qed.

Lemma clear_ref_same s : runs (clear_ref s) = runs s ∧ sockets (clear_ref s) = sockets s ∧ wsRef (clear_ref s) = wsRef s ∧
  fst <$> timers (clear_ref s) = fst <$> timers s ∧ user (clear_ref s) = user s.
Proof.
  unfold clear_ref. destruct (reconnectRef s) as [k|]; [|done]. cbn. split_and!; try done.
  apply list_eq. intros j. rw !list_lookup_fmap lookup_alter_list. by destruct (timers s !! j); destruct (k =? j).
Qed.
Lemma clear_ref_off s : (∀ k i, timers s !! k = Some (i, true) → reconnectRef s = Some k) → ∀ k i, timers (clear_ref s) !! k ≠ Some (i, true).
Proof.
  intros H k i Hk. unfold clear_ref in Hk. destruct (reconnectRef s) as [k0|] eqn:E; [|by specialize (H _ _ Hk)].
  cbn in Hk. rw lookup_alter_list in Hk. apply fmap_Some in Hk as ([j b] & Hj & Eq). destruct (Nat.eqb_spec k0 k); cbn in Eq; [done|].
  injection Eq as -> <-. specialize (H _ _ Hj). congruence.
Qed.
Lemma close_ref_same s : runs (close_ref s) = runs s ∧ timers (close_ref s) = timers s ∧ user (close_ref s) = user s ∧
  wsRef (close_ref s) = None ∧ fst <$> sockets (close_ref s) = fst <$> sockets s.
Proof. unfold close_ref. destruct (wsRef s) as [k|]; [|done]. destruct (close_same k s) as (? & ? & ? & ? & ?). by split_and!. Qed.

Lemma cleaned_idle s :
  center_inv 1 s → let s' := match user s with Some _ => cleanup (pred (length (runs s))) s | None => s end in
  idle s' ∧ length (runs s') = length (runs s).
Proof.
  intros [H1 H2 H3 H4 H5 H6]. destruct (user s) as [u|] eqn:Eu; cbn zeta.
  2: { assert (cur s = None) as Hc by (unfold cur; by rw Eu). split; [|done]. split; try done.
       - intros i. rw H1 Hc. done.
       - intros k i Hk. destruct (H4 _ _ Hk). congruence. }
  assert (cur s = Some (pred (length (runs s)))) as Hc by (unfold cur; by rw Eu).
  set (c := pred (length (runs s))) in *. unfold cleanup. set (s1 := mark c s). set (s2 := clear_ref s1).
  destruct (clear_ref_same s1) as (Hr & Hs & Hw & Ht & _). destruct (close_ref_same s2) as (Hr' & Ht' & _ & _ & Hs').
  fold s2 in Hr, Hs, Ht. assert (length (runs (close_ref s2)) = length (runs s)) as Hl by (rw Hr' Hr; cbn; by rw length_alter).
  split; [|done]. split.
  - intros i. unfold disposed. rw Hr' Hr. cbn. rw lookup_alter_list. specialize (H1 i). unfold disposed in H1.
    destruct (runs s !! i) as [r|] eqn:Er; [|done]. cbn in *. destruct (Nat.eqb_spec c i) as [<-|Hne]; [done|]. cbn. rw H1 bool_decide_false //. congruence.
  - intros k i. rw Ht'. apply clear_ref_off. intros k' i' Hk'. by destruct (H4 _ _ Hk').
  - rw Hl. eapply owners_lt; [|done]. by rw Hs' Hs.
  - rw Hl Ht'. intros k i b Hk. apply (f_equal (λ m, m !! k)) in Ht. rw !list_lookup_fmap Hk in Ht. cbn in Ht.
    destruct (timers s !! k) as [[j y]|] eqn:Ej; [|done]. cbn in Ht. injection Ht as ->. by eapply H6.
Qed.

Lemma idle_none s : idle s → center_inv 1 (set_user None s).
Proof. intros [H1 H2 H3 H4]. split; try done. intros k i Hk. by destruct (H2 k i). Qed.
Lemma idle_start s v : idle s → center_inv 1 (start_run v (set_user (Some v) s)).
Proof.
  intros [H1 H2 H3 H4]. unfold start_run. set (s1 := set_runs _ _).
  assert (length (runs s1) = S (length (runs s))) as Hl by (cbn; rw length_app /=; lia).
  assert (cur s1 = Some (length (runs s))) as Hc by (unfold cur; rw Hl; done). rw Hl. change (pred (S (length (runs s)))) with (length (runs s)).
  apply doConnect_cur; [|done]. split; rw ?Hc.
  - intros i. unfold disposed. cbn. specialize (H1 i). unfold disposed in H1. destruct (decide (i < length (runs s))).
    + rw lookup_app_l // H1 bool_decide_false //. intros [= <-]. lia.
    + destruct (decide (i = length (runs s))) as [->|]; [by rw lookup_app_r // Nat.sub_diag /= bool_decide_true|].
      rw lookup_ge_None_2; [|rw length_app /=; lia]. rw bool_decide_false //. congruence.
  - intros i [= <-]. unfold busy, tickets. cbn. rw lookup_app_r // Nat.sub_diag /=.
    rw (proj2 (countb_zero _ _)); [rw (proj2 (countb_zero _ _)) //|].
    + intros k [i b] Hk. pose proof (H4 _ _ _ Hk). unfold armed_of. cbn. by rw (proj2 (Nat.eqb_neq _ _)); [|lia].
    + intros k [i b] Hk. pose proof (H3 _ _ _ Hk). unfold pend_of. cbn. by rw (proj2 (Nat.eqb_neq _ _)); [|lia].
  - intros i [= <-]. cbn. by rw lookup_app_r // Nat.sub_diag.
  - intros k i Hk. by destruct (H2 k i).
  - intros k i x Hk. rw Hl. pose proof (H3 _ _ _ Hk). lia.
  - intros k i x Hk. rw Hl. pose proof (H4 _ _ _ Hk). lia.
Qed.

Lemma center_step_inv s s' : center_step s s' → center_inv 1 s → center_inv 1 s'.
Proof.
  intros Hst Hok. destruct Hst as [s u|s i r Hr Ht|s i r Hr Ht|s k i Hk|s k i x Hk Hx|s k i Hk|s k i Hk].
  - unfold user_changed. destruct (cleaned_idle s Hok) as [Hi _]. destruct u; [by apply idle_start|by apply idle_none].
  - pose proof (ticket_gone _ _ _ Hok Hr Ht) as H1. unfold ticket_ok. rw add_tickets_disposed (co_disposed _ _ Hok).
    case_bool_decide as Hc; cbn [negb]; [|done]. apply open_inv; [done|]. by rw add_tickets_cur.
  - pose proof (ticket_gone _ _ _ Hok Hr Ht) as H1. unfold ticket_failed.
    case_bool_decide as Hc; [apply reconnect_cur|apply reconnect_inv]; rw ?add_tickets_cur //.
  - unfold close. rw Hk. eapply set_sock_inv; [done..|]. unfold moved. by case_bool_decide.
  - unfold onclose. assert (pend x = true) as Hp by (by destruct x).
    destruct (decide (cur s = Some i)) as [Hc|Hc]; [apply reconnect_cur|apply reconnect_inv]; try done;
      (eapply set_sock_inv; [done..|]); unfold moved; rw Hp; [rw bool_decide_true|rw bool_decide_false] => //=; lia.
  - unfold timer_fired. destruct (co_timer _ _ Hok _ _ Hk) as [_ Hc]. apply doConnect_cur; [|done].
    eapply timer_off_inv; [done..|]. unfold moved. by rw bool_decide_true.
  - by destruct Hok.
Qed.

(** *** Schedules in which closing ends before the next socket opens *)

Definition pending_any (x : nat * nsock) : bool := pend (snd x).
Record prompt_inv (s : Center) : Prop := {
  po_inv : center_inv 1 s;
  po_one : countb pending_any (sockets s) ≤ 1;
  po_live k i : sockets s !! k = Some (i, NLive) → wsRef s = Some k ∧ cur s = Some i;
  po_shown : Forall (λ x, snd x = Some (fst x)) (shown s)
}.

Lemma set_sock_live k st s k' i : st ≠ NLive → set_sock k st s !! k' = Some (i, NLive) → k ≠ k' ∧ sockets s !! k' = Some (i, NLive).
Proof.
  intros Hst Hk. unfold set_sock in Hk. rw lookup_alter_list in Hk. apply fmap_Some in Hk as ([j x] & Hj & E).
  destruct (Nat.eqb_spec k k'); cbn in E; by simplify_eq.
Qed.

(** What a cleanup and a new run leave of the sockets. *)
Lemma close_ref_live s k i :
  (∀ k i, sockets s !! k = Some (i, NLive) → wsRef s = Some k) → sockets (close_ref s) !! k ≠ Some (i, NLive).
Proof.
  intros H Hk. unfold close_ref in Hk. destruct (wsRef s) as [k0|] eqn:Ew; [|by specialize (H _ _ Hk)].
  cbn in Hk. unfold close in Hk. destruct (sockets s !! k0) as [[j []]|] eqn:E0; cbn in Hk.
  - apply set_sock_live in Hk as [Hne Hk]; [|done]. specialize (H _ _ Hk). congruence.
  - specialize (H _ _ Hk). congruence.
  - specialize (H _ _ Hk). congruence.
  - specialize (H _ _ Hk). congruence.
Qed.
Lemma close_ref_count s : countb pending_any (sockets (close_ref s)) = countb pending_any (sockets s).
Proof.
  unfold close_ref. destruct (wsRef s) as [k|]; [|done]. cbn. unfold close. destruct (sockets s !! k) as [[j []]|] eqn:E; try done. cbn.
  pose proof (countb_alter pending_any (λ x, (fst x, NClosing)) _ _ _ E) as Hc. cbn in Hc. unfold set_sock. lia.
Qed.
Lemma close_ref_ext s s' : sockets s = sockets s' → wsRef s = wsRef s' → sockets (close_ref s) = sockets (close_ref s').
Proof.
  intros Es Ew. unfold close_ref, close. rw Ew. destruct (wsRef s') as [k|]; [|done]. rw Es. destruct (sockets s' !! k) as [[j []]|]; try done.
  cbn. unfold set_sock. by rw Es.
Qed.
Lemma cleanup_shown c s : shown (cleanup c s) = shown s.
Proof. unfold cleanup, close_ref, close, clear_ref. by repeat case_match. Qed.
Lemma cleanup_sockets c s : sockets (cleanup c s) = sockets (close_ref s) ∧ shown (cleanup c s) = shown s.
Proof. destruct (clear_ref_same (mark c s)) as (_ & Hs & Hw & _). split; [by apply close_ref_ext|apply cleanup_shown]. Qed.
Lemma start_run_sockets v s : sockets (start_run v s) = sockets s ∧ shown (start_run v s) = shown s.
Proof. unfold start_run, doConnect. by case_match. Qed.

Lemma user_changed_prompt u s : prompt_inv s → prompt_inv (user_changed u s).
Proof.
  intros [Hi Ho Hl Hs]. set (s1 := match user s with Some _ => cleanup (pred (length (runs s))) s | None => s end).
  assert (countb pending_any (sockets s1) ≤ 1 ∧ (∀ k i, sockets s1 !! k ≠ Some (i, NLive)) ∧ shown s1 = shown s) as (H1 & H2 & H3).
  { unfold s1. destruct (user s) eqn:Eu.
    - destruct (cleanup_sockets (pred (length (runs s))) s) as [-> ->]. rw close_ref_count. split_and!; try done.
      intros k i. apply close_ref_live. intros k' i' Hk'. by destruct (Hl _ _ Hk').
    - split_and!; try done. intros k i Hk. destruct (Hl _ _ Hk) as [_ Hc]. unfold cur in Hc. by rw Eu in Hc. }
  assert (Hx : sockets (user_changed u s) = sockets s1 ∧ shown (user_changed u s) = shown s1).
  { unfold user_changed. fold s1. destruct u as [v|]; [|done]. apply (start_run_sockets v (set_user (Some v) s1)). }
  destruct Hx as [E1 E2]. split; [by apply (center_step_inv _ _ (cs_user s u))|..]; rw ?E1 ?E2 ?H3 //. intros k i Hk. by destruct (H2 k i).
Qed.

Lemma reconnect_same i s : sockets (reconnect i s) = sockets s ∧ wsRef (reconnect i s) = wsRef s ∧ cur (reconnect i s) = cur s ∧ shown (reconnect i s) = shown s.
Proof. unfold reconnect. by case_match. Qed.

(** When a ticket of the current run arrives no socket is pending. *)
Lemma no_socket_pending i r s :
  prompt_inv s → runs s !! i = Some r → 0 < nr_tickets r → cur s = Some i → (∀ k j, sockets s !! k ≠ Some (j, NClosing)) →
  countb pending_any (sockets s) = 0.
Proof.
  intros [Hi Ho Hl Hs] Hr Ht Hc Hp. apply countb_zero. intros k [j []] Hk; [|by destruct (Hp k j)|done].
  destruct (Hl _ _ Hk) as [_ Hj]. assert (j = i) as -> by congruence. pose proof (co_busy _ _ Hi i Hc) as Hb.
  unfold busy, tickets in Hb. rw Hr in Hb. cbn in Hb. assert (0 < countb (pend_of i) (sockets s)); [|lia].
  eapply countb_pos; [done|]. unfold pend_of. cbn. by rw Nat.eqb_refl.
Qed.
Lemma ticket_ok_prompt i r s : prompt_inv s → runs s !! i = Some r → 0 < nr_tickets r → prompt s (ticket_ok i s) → prompt_inv (ticket_ok i s).
Proof.
  intros Hok Hr Ht Hp. pose proof Hok as [Hi Ho Hl Hs]. pose proof (center_step_inv _ _ (cs_ticket _ _ _ Hr Ht) Hi) as Hi'.
  unfold ticket_ok in *. rw add_tickets_disposed (co_disposed _ _ Hi) in Hp Hi' |- *. case_bool_decide as Hc; cbn [negb] in *.
  - pose proof (no_socket_pending _ _ _ Hok Hr Ht Hc ltac:(apply Hp; cbn; rw length_app /=; lia)) as Hz. split; try done.
    + cbn. rw countb_snoc Hz. done.
    + intros k j [[? Hk]|[-> [= <-]]]%lookup_snoc_Some; [|split; [done|]; change (cur (add_tickets pred i s) = Some i); by rw add_tickets_cur].
      by pose proof (proj1 (countb_zero _ _) Hz _ _ Hk).
  - split; try done. intros k j Hk. rw add_tickets_cur. by apply Hl.
Qed.

Lemma prompt_step_inv s s' : prompt_step s s' → prompt_inv s → prompt_inv s'.
Proof.
  intros [Hst Hp] Hok. pose proof Hok as [Hi Ho Hl Hs]. pose proof (center_step_inv _ _ Hst Hi) as Hi'.
  destruct Hst as [s u|s i r Hr Ht|s i r Hr Ht|s k i Hk|s k i x Hk Hx|s k i Hk|s k i Hk].
  - by apply user_changed_prompt.
  - by eapply ticket_ok_prompt.
  - destruct (reconnect_same i (add_tickets pred i s)) as (E1 & E2 & E3 & E4).
    split; [done|..]; unfold ticket_failed; rw ?E1 ?E2 ?E3 ?E4 //. intros k j Hk. rw add_tickets_cur. by apply Hl.
  - unfold close in *. rw Hk in Hi' |- *. pose proof (countb_alter pending_any (λ x, (fst x, NClosing)) _ _ _ Hk) as Hc. cbn in Hc.
    split; [done|unfold set_sock; cbn; lia| |done]. intros k' j Hk'. by apply Hl, (set_sock_live k NClosing).
  - destruct (reconnect_same i (set_sockets (set_sock k NClosed s) None s)) as (E1 & E2 & E3 & E4).
    pose proof (countb_alter pending_any (λ x, (fst x, NClosed)) _ _ _ Hk) as Hc. cbn in Hc.
    assert (pending_any (i, x) = true) as Hq by (by destruct x). rw Hq in Hc. cbn in Hc.
    assert (countb pending_any (set_sock k NClosed s) = 0) as Hz by (unfold set_sock; lia).
    split; [done|..]; unfold onclose; rw ?E1 ?E2 ?E3 ?E4 //; [cbn; lia|]. intros k' j Hk'. cbn in Hk'.
    by pose proof (proj1 (countb_zero _ _) Hz _ _ Hk').
  - unfold timer_fired, doConnect in *. case_match; split; try done. intros k' j Hk'. rw add_tickets_cur. by apply Hl.
  - split; try done. cbn. apply Forall_app. split; [done|]. constructor; [|done]. cbn. destruct (Hl _ _ Hk) as [_ Hc].
    pose proof (co_user _ _ Hi _ Hc) as Hu. rw -Hu. destruct (cur_lookup _ _ _ Hi Hc) as (r & Hr & _). by rw Hr.
Qed.

Lemma center_init_inv : prompt_inv center_init.
Proof. split; [split; try done|cbn; unfold countb; cbn; lia|done..]. Qed.

(** C30: whatever users, tickets, sockets and timers do, a reconnection timer
    belongs to the run of the signed-in user, and that run has exactly one
    ticket, socket or timer under way; if no socket is opened while another one
    is still closing, then every live socket is that of the signed-in user and
    is closed with the next cleanup, and every message is shown to the user it
    was sent for. *)
Theorem notifications_one_activity (s : Center) :
  (rtc center_step center_init s →
     (∀ k i, timers s !! k = Some (i, true) → cur s = Some i) ∧ (∀ i, cur s = Some i → busy i s = 1)) ∧
  (rtc prompt_step center_init s →
     (∀ k i, sockets s !! k = Some (i, NLive) → wsRef s = Some k ∧ cur s = Some i ∧ nr_user <$> runs s !! i = user s) ∧
     Forall (λ x, snd x = Some (fst x)) (shown s)).
Proof.
  split.
  - intros Hr. assert (center_inv 1 s) as [H1 H2 H3 H4 H5 H6].
    { revert s Hr. apply (rtc_ind_r (center_inv 1)); [apply center_init_inv|]. intros. by eapply center_step_inv. }
    split; [|done]. intros k i Hk. by destruct (H4 _ _ Hk).
  - intros Hr. assert (prompt_inv s) as [Hi Ho Hl Hs].
    { revert s Hr. apply (rtc_ind_r prompt_inv); [apply center_init_inv|]. intros. by eapply prompt_step_inv. }
    split; [|done]. intros k i Hk. destruct (Hl _ _ Hk) as [Hw Hc]. split_and!; try done. by apply (co_user _ _ Hi).
Qed.

(** The old socket's close event can arrive after the new socket was stored: it
    clears the ref, so that the next cleanup does not close the new socket.
    When the user is loaded again, as saving the profile does, two sockets are
    live for the same user and each message is shown twice. *)
Theorem notification_socket_leaks :
  ∃ s, rtc center_step center_init s ∧ user s = Some (js "ada") ∧ sockets s !! 1 = Some (1, NLive) ∧ sockets s !! 2 = Some (2, NLive) ∧
       disposed 1 s = true ∧ shown s = [(js "ada", Some (js "ada")); (js "ada", Some (js "ada"))].
Proof.
  eexists. split; [|split_and!].
  - eapply rtc_l; [apply (cs_user _ (Some (js "ada")))|].
    eapply rtc_l; [eapply (cs_ticket _ 0); [done|cbn; lia]|].
    eapply rtc_l; [apply (cs_user _ (Some (js "ada")))|].
    eapply rtc_l; [eapply (cs_ticket _ 1); [done|cbn; lia]|].
    eapply rtc_l; [by eapply (cs_closed _ 0 0 NClosing)|].
    eapply rtc_l; [apply (cs_user _ (Some (js "ada")))|].
    eapply rtc_l; [eapply (cs_ticket _ 2); [done|cbn; lia]|].
    eapply rtc_l; [by eapply (cs_message _ 1 1)|].
    eapply rtc_l; [by eapply (cs_message _ 2 2)|]. apply rtc_refl.
  - done.
  - done.
  - done.
  - done.
  - done.
Qed.

Lemma notifications_one_activity_witness :
  let s := message 0 (ticket_ok 0 (user_changed (Some (js "ada")) center_init)) in
  rtc prompt_step center_init s ∧ sockets s !! 0 = Some (0, NLive) ∧ Forall (λ x, snd x = Some (fst x)) (shown s) ∧ length (shown s) = 1.
Proof.
  assert (H : rtc prompt_step center_init (message 0 (ticket_ok 0 (user_changed (Some (js "ada")) center_init)))).
  { eapply rtc_l; [split; [apply (cs_user _ (Some (js "ada")))|intros Hlt; exfalso; revert Hlt; vm_compute; lia]|].
    eapply rtc_l; [split; [eapply (cs_ticket _ 0); [reflexivity|cbn; lia]|]|].
    - intros _ k i. cbn. by rw lookup_nil.
    - eapply rtc_l; [|apply rtc_refl]. split; [by eapply (cs_message _ 0 0)|intros Hlt; exfalso; revert Hlt; vm_compute; lia]. }
  split; [exact H|]. split; [reflexivity|].
  pose proof (proj2 (notifications_one_activity _) H) as [_ Hs]. split; [exact Hs|reflexivity].
Defined.

(** A message that is not JSON, or whose type is no text, is ignored; any other
    refreshes the list of notifications. *)
Theorem onmessage_refreshes (granted hidden : bool) (data : option json) :
  match onmessage granted hidden data with
  | Some r => ∃ d, data = Some d ∧ d ≠ JNull ∧ js "notifications" ∈ re_refreshes r ∧
                   (re_browser r ≠ None ↔ granted = true ∧ hidden = true)
  | None => data = None ∨ data = Some JNull ∨ ∃ d v, data = Some d ∧ jfield d "type" = Some v ∧ ∀ s, v ≠ JStr s
  end.
Proof.
  unfold onmessage. destruct data as [d|]; [|by left]. destruct (event_type d) as [type|] eqn:Et.
  - destruct d; try (by right; left); (destruct (event_text _ _ _) as [title msg]); cbn; eexists; split_and!; try done;
      try (by left); destruct granted, hidden; cbn; naive_solver.
  - unfold event_type in Et. destruct d; try done; try (by right; left). right; right.
    destruct (jfield _ "type") as [v|] eqn:Ev; [|done]. eexists _, v. split_and!; [done..|]. by intros s ->.
Qed.
