(* ===== verification/HomeViews.v ===== *)
(** * What the home page shows

    [app/page.tsx]: the quick-create card in its three forms, the cards and
    rows of inboxes with what a click on each of their parts does, and the
    animated placeholder of the address. *)

From Stdlib Require Import QArith_base.
From S2P Require Import Prelude Browser Types ApiClient React Lib Ttl Home.
Local Close Scope Q_scope.

Section views.
Context `{!AppEnv, !JSRuntime} (t ti : jstr → jstr).

(** ** The quick-create card *)

(** [addr.split("@")], of which the first two parts are shown. *)
Definition address_parts (addr : jstr) : jstr * option jstr :=
  let parts := split_on 64 addr in (default [] (parts !! 0), parts !! 1).
Definition generate_disabled (q : QuickCreate) : bool := negb (truthy (assignmentId q)) || creating q || isCustomInvalid q.
(** The choice of a lifetime clears the message unless it is a custom one. *)
Definition choose_ttl (v : jstr) (q : QuickCreate) : QuickCreate :=
  let q := set_ttlPreset v q in if v =?s "custom" then q else set_ttlError None q.
Definition toggle_customize (q : QuickCreate) : QuickCreate := {|
  assignmentId := assignmentId q; alias := alias q; ttlPreset := ttlPreset q; customTtl := customTtl q; ttlError := ttlError q;
  showAdvanced := negb (showAdvanced q); creating := creating q; createdInbox := createdInbox q; copied := copied q |}.
Definition set_alias (v : jstr) (q : QuickCreate) : QuickCreate := {|
  assignmentId := assignmentId q; alias := v; ttlPreset := ttlPreset q; customTtl := customTtl q; ttlError := ttlError q;
  showAdvanced := showAdvanced q; creating := creating q; createdInbox := createdInbox q; copied := copied q |}.

(** The domain: a choice of identifiers with their names, or one name. *)
Inductive domain_part := DChoice (value : jstr) (options : list (jstr * jstr)) | DName (name : option jstr).
Inductive local_part := LInput (value : jstr) (underlined : bool) | LPreview (alias : jstr).
(** The lifetimes offered, and below the custom input a message or a hint. *)
Record quick_form := {
  qf_local : local_part; qf_domain : domain_part; qf_aliasHint : bool;
  qf_disabled : bool; qf_busy : bool; qf_ttl : jstr; qf_presets : list (jstr * jstr);
  qf_custom : option (jstr * option jstr); qf_shortcut : bool
}.
Inductive quick_view :=
| QNoDomains
| QCreated (parts : jstr * option jstr) (expires : jstr) (isCopied : bool) (open : jstr)
| QForm (f : quick_form).
Definition QuickCreateCard (now : Z) (assignments : option (list DomainAssignment)) (presets : list (jstr * jstr)) (q : QuickCreate) : quick_view :=
  match assignments, createdInbox q with
  | Some [], _ => QNoDomains
  | _, Some j =>
      QCreated (address_parts (created_address j))
        (ExpiryLabel (default [] (as_string (jfield j "expires_at"))) None now) (copied q)
        ("/inboxes/" ++ default [] (as_string (jfield j "id")))
  | _, None => QForm {|
      qf_local := if showAdvanced q then LInput (alias q) (negb (truthy (alias q))) else LPreview (alias q);
      qf_domain :=
        match assignments with
        | Some ((_ :: _ :: _) as l) =>
            DChoice (assignmentId q) ((λ a, (DomainAssignment_id a, jor (default [] (DomainAssignment_domain_name a)) (DomainAssignment_domain_id a))) <$> l)
        | _ => DName (selected_assignment assignments q ≫= DomainAssignment_domain_name)
        end;
      qf_aliasHint := showAdvanced q;
      qf_disabled := generate_disabled q;
      qf_busy := creating q;
      qf_ttl := ttlPreset q;
      qf_presets := presets ++ [(js "custom", ti "custom")];
      qf_custom := if ttlPreset q =?s "custom" then Some (customTtl q, if otruthy (ttlError q) then ttlError q else None) else None;
      qf_shortcut := negb (showAdvanced q) && negb (ttlPreset q =?s "custom") |}
  end.
(** A click on the button of the form. *)
Definition generate_click (maxMins : option Z) (q : QuickCreate) : M QuickCreate unit :=
  when (negb (generate_disabled q)) (create q maxMins).

(** *** The placeholder *)

Record LocalPart := { lp_preview : jstr; lp_animKey : Z }.
Definition lp_interval (reduced : bool) (alias : jstr) : option Z := if reduced || truthy alias then None else Some 2500%Z.
Definition lp_tick (bytes : list N) (s : LocalPart) : LocalPart := {| lp_preview := randomLocal bytes; lp_animKey := (lp_animKey s + 1)%Z |}.
Definition AnimatedLocalPart (reduced : bool) (alias fallbackText : jstr) (s : LocalPart) : jstr :=
  if truthy alias then alias else if reduced then fallbackText else lp_preview s.

(** ** An inbox *)

(** What both forms of an inbox show: address, unread mails, expiry with its
    warning, progress bar with its warning, and whether it can be renewed. *)
Record inbox_cell := {
  ic_address : jstr * option jstr; ic_unread : option Z; ic_expiry : jstr; ic_soon : bool;
  ic_bar : option (option Q * bool); ic_active : bool; ic_copied : bool; ic_selected : bool
}.
Definition cell (now : Z) (isCopied isSelected : bool) (ib : Inbox) : inbox_cell := {|
  ic_address := address_parts (inbox_address ib);
  ic_unread := if hasUnread ib then Some (Inbox_unread_count ib) else None;
  ic_expiry := ExpiryLabel (Inbox_expires_at ib) (Inbox_original_ttl ib) now;
  ic_soon := expiringSoon ib now;
  ic_bar := if Inbox_is_active ib
            then Some ((λ p, ((100 # 1) - p)%Q) <$> progressPct ib now, from_option (λ p, negb (Qle_bool p (80 # 1))) false (progressPct ib now))
            else None;
  ic_active := Inbox_is_active ib; ic_copied := isCopied; ic_selected := isSelected |}.
(** The caption below the address of a card, and the label of its button. *)
Definition card_caption (isCopied : bool) (copiedText : jstr) (ib : Inbox) : jstr :=
  if isCopied then copiedText
  else if isEmpty ib && Inbox_is_active ib then "Waiting for mail"
  else if negb (isEmpty ib) then show (Inbox_email_count ib) ++ " email" ++ (if (Inbox_email_count ib =? 1)%Z then [] else js "s")
  else "Expired".
Definition renew_label (ib : Inbox) : jstr :=
  t "renew" ++ (if otruthy (Inbox_original_ttl ib) then " (" ++ formatTtlLabel (default [] (Inbox_original_ttl ib)) ++ ")" else []).
Definition InboxCard (now : Z) (isCopied isSelected : bool) (ib : Inbox) : inbox_cell * jstr * option jstr :=
  (cell now isCopied isSelected ib, card_caption isCopied (t "copied") ib, if Inbox_is_active ib then Some (renew_label ib) else None).
Definition InboxRow (now : Z) (isCopied isSelected : bool) (ib : Inbox) : inbox_cell := cell now isCopied isSelected ib.

(** *** Clicks

    An event goes to the handlers from the part clicked outwards, until one
    stops it; events inside the confirmation bubble through its trigger's
    parents as well. *)
Inductive click_effect := ENavigate | ECopy | ERenew | EToggle | EAsk | EDelete.
#[export] Instance click_effect_eq_dec : EqDecision click_effect.
Proof. solve_decision. Defined.
Inductive part := PBody | PCheckbox | PAddress | PRenew | POpen | PDelete | PConfirm | PCancel | PGap.
#[export] Instance part_eq_dec : EqDecision part.
Proof. solve_decision. Defined.
(** Effects of a handler, and whether it stops the event. *)
Definition handler : Type := list click_effect * bool.
Fixpoint bubble (path : list handler) : list click_effect :=
  match path with
  | [] => []
  | (es, stops) :: rest => es ++ (if stops then [] else bubble rest)
  end.
Definition whole : handler := ([ENavigate], false).
Definition actions_bar : handler := ([], true).
Definition click_path (p : part) : list handler :=
  match p with
  | PBody => [whole]
  | PCheckbox => [([EToggle], true); whole]
  | PAddress => [([ECopy], true); whole]
  | PRenew => [([ERenew], true); actions_bar; whole]
  | POpen => [([ENavigate], true); actions_bar; whole]
  | PDelete => [([EAsk], false); actions_bar; whole]
  | PConfirm => [([EDelete], false); actions_bar; whole]
  | PCancel => [([], false); actions_bar; whole]
  | PGap => [actions_bar; whole]
  end.
(** The parts of a card and of a row; [selectable] when it has a checkbox. *)
Definition card_parts (selectable active : bool) : list part :=
  [PBody; PAddress; POpen; PDelete; PConfirm; PCancel; PGap] ++ (if selectable then [PCheckbox] else []) ++ (if active then [PRenew] else []).
Definition row_parts (selectable active : bool) : list part :=
  [PBody; PAddress; PDelete; PConfirm; PCancel; PGap] ++ (if selectable then [PCheckbox] else []) ++ (if active then [PRenew] else []).
Definition copyInbox (ib : Inbox) : M bool unit :=
  emit (EClipboard (inbox_address ib));; modify (λ _, true);; emit (EToastSuccess (t "copied"));; emit (ETimeout 1500).
End views.

(** ** Theorems *)

Section theorems.
Context `{!AppEnv, !JSRuntime} (t ti : jstr → jstr).

(** The key n outside of input fields does exactly what a click on the button
    does while the form is shown, and nothing once an address is shown. *)
Theorem shortcut_is_button (now : Z) (assignments : option (list DomainAssignment)) (presets : list (jstr * jstr))
    (q : QuickCreate) (maxMins : option Z) (e : key_event) (w : world QuickCreate) :
  key e = js "n" → ctrlKey e = false → metaKey e = false → altKey e = false → typing_tag (targetTag e) = false →
  match QuickCreateCard ti now assignments presets q with
  | QForm _ => quick_keydown e q maxMins w = generate_click maxMins q w
  | QCreated _ _ _ _ => quick_keydown e q maxMins w = (inr tt, w)
  | QNoDomains => assignments = Some []
  end.
Proof.
  intros Hk Hc Hm Ha Ht. unfold QuickCreateCard, quick_keydown, generate_click, generate_disabled. rw Ht Hk Hc Hm Ha.
  destruct assignments as [[|a l]|], (createdInbox q) eqn:Ec; try done; cbn; rw ?Ec ?andb_false_r ?andb_true_r //;
    by destruct (truthy (assignmentId q)), (creating q), (isCustomInvalid q).
Qed.

(** A click opens the inbox exactly when it is on the body or on Open; every
    other part does its own work and nothing else. *)
Theorem click_exact (p : part) :
  (ENavigate ∈ bubble (click_path p) ↔ p = PBody ∨ p = POpen) ∧ length (bubble (click_path p)) ≤ 1 ∧
  (EDelete ∈ bubble (click_path p) ↔ p = PConfirm).
Proof.
  split_and!; [|destruct p; cbn; lia|]; (split; [|intros Hp; destruct_or?; subst; by left]);
    destruct p; cbn; rw ?elem_of_cons ?elem_of_nil; naive_solver.
Qed.

(** Nothing but what was typed is shown in place of an alias. *)
Theorem local_part_alias (reduced : bool) (alias fallbackText : jstr) (s : LocalPart) :
  truthy alias = true → AnimatedLocalPart reduced alias fallbackText s = alias ∧ lp_interval reduced alias = None.
Proof. intros Ht. unfold AnimatedLocalPart, lp_interval. by rw Ht orb_true_r. Qed.

(** The two parts of an address put together again are the address, when it
    has one at sign. *)
Theorem address_parts_join (l d : jstr) : 64%N ∉ l → 64%N ∉ d → address_parts (l ++ [64%N] ++ d) = (l, Some d).
Proof.
  intros Hl Hd. unfold address_parts. cbn [app]. by rw split_on_app // split_on_none.
Qed.
End theorems.
