(* ===== verification/InboxView.v ===== *)
(** * The inbox page as a whole

    [app/inboxes/[id]/page.tsx]: the top bar with the address, the countdown,
    the state of the live connection and the actions, and the two panes, put
    together from the list, the preview and the socket hook; and
    [components/inbox/inbox-empty-preview.tsx]. *)

From S2P Require Import Prelude Browser Types ApiClient React Lib Ttl InboxSocket InboxPage.

Section view.
Context `{!AppEnv, !JSRuntime} (id : jstr).

Definition load_inbox {S} : M S (option json) := api_get ("/inboxes/" ++ id) None.
(** The query of the selected mail, enabled when there is one. *)
Definition load_selected {S} (s : InboxState) : option (M S (option json)) :=
  match selectedEmailId s with
  | Some e => if truthy e then Some (api_get ("/emails/" ++ e) None) else None
  | None => None
  end.
Definition SocketIndicator (st : SocketStatus) : jstr :=
  match st with
  | connected => "Live, listening for new emails"
  | connecting => "Connecting"
  | disconnected => "Disconnected, reconnecting"
  end.
Definition InboxEmptyPreview (totalEmails : Z) : jstr :=
  if (0 <? totalEmails)%Z then show totalEmails ++ " email" ++ (if (totalEmails =? 1)%Z then [] else js "s") ++ " in this inbox"
  else "Waiting for incoming emails".

(** Shown once the address is known. *)
Record top_bar := {
  tb_address : jstr; tb_count : jstr; tb_countdown : option countdown; tb_badge : jstr; tb_socket : jstr
}.
Inductive right_pane := RPreview (e : Email) | REmpty (text : jstr).
(** [list_hidden] and [preview_hidden] are for narrow screens. *)
Record inbox_view := {
  iv_bar : option top_bar; iv_readAll : bool; iv_renew : option jstr; iv_delete : jstr;
  iv_list_hidden : bool; iv_preview_hidden : bool; iv_right : right_pane
}.
Definition page_address (inbox : option Inbox) : jstr :=
  from_option (λ ib, jor (Inbox_full_address ib) (Inbox_address ib)) [] inbox.
Definition is_active (inbox : option Inbox) : bool := from_option Inbox_is_active false inbox.
(** The time to the expiry; a date that does not parse never expires and is
    shown as no number. *)
Definition shown_countdown (now : Z) (ib : Inbox) : countdown :=
  match date_ms (Inbox_expires_at ib) with
  | Some e => Countdown (e - now)
  | None => {| remaining := "NaNm NaNs"; urgent := false |}
  end.
Definition renew_button (ib : Inbox) : jstr :=
  "Renew" ++ (if otruthy (Inbox_original_ttl ib) then " (" ++ formatTtlLabel (default [] (Inbox_original_ttl ib)) ++ ")" else []).
Definition InboxDetailPage (now : Z) (inboxError : bool) (inbox : option Inbox) (totalEmails : Z) (markPending : bool)
    (st : SocketStatus) (selectedEmail : option Email) (s : InboxState) : option inbox_view :=
  if inboxError then None
  else
    let active := is_active inbox in
    let readAll := (0 <? totalEmails)%Z && negb markPending in
    let renew := match inbox with Some ib => if Inbox_is_active ib then Some (renew_button ib) else None | None => None end in
    let delete := "Permanently delete " ++ page_address inbox ++ " and all its emails." in
    Some {|
      iv_bar := match inbox with
                | Some ib => if truthy (page_address inbox) then Some {|
                    tb_address := page_address inbox;
                    tb_count := show totalEmails ++ " " ++ (if (totalEmails =? 1)%Z then "email" else "emails");
                    tb_countdown := if active && truthy (Inbox_expires_at ib) then Some (shown_countdown now ib) else None;
                    tb_badge := if active then "Active" else "Expired";
                    tb_socket := SocketIndicator st |} else None
                | None => None
                end;
      iv_readAll := readAll; iv_renew := renew; iv_delete := delete;
      iv_list_hidden := otruthy (selectedEmailId s);
      iv_preview_hidden := negb (otruthy (selectedEmailId s));
      iv_right := match selectedEmail with Some e => RPreview e | None => REmpty (InboxEmptyPreview totalEmails) end |}.
(** The actions of the preview. *)
Inductive preview_action := PBack | PToggleRead | PDeleteMail.
Definition on_preview `{!MutationRunner} (a : preview_action) (emailId : jstr) (isRead : bool) : M InboxState unit :=
  match a with
  | PBack => modify (select None)
  | PToggleRead => mutate toggleRead (emailId, negb isRead)
  | PDeleteMail => mutate deleteEmail emailId
  end.
End view.

(** ** Theorems *)

(** On a narrow screen exactly one of the two panes is shown. *)
Theorem one_pane `{!JSRuntime} now inbox total pending st sel s v :
  InboxDetailPage now false inbox total pending st sel s = Some v → iv_list_hidden v = negb (iv_preview_hidden v).
Proof. unfold InboxDetailPage. intros [= <-]. cbn. by destruct (otruthy _). Qed.

(** An inbox that ends while the page is open stays marked as active and can be
    renewed, next to a countdown that says that it has expired, until it is
    loaded again. *)
Theorem expired_still_active `{!JSRuntime} (ib : Inbox) (e now total : Z) pending st sel s :
  Inbox_is_active ib = true → date_ms (Inbox_expires_at ib) = Some e → (e <= now)%Z →
  truthy (Inbox_expires_at ib) = true → truthy (page_address (Some ib)) = true →
  ∃ v b, InboxDetailPage now false (Some ib) total pending st sel s = Some v ∧ iv_bar v = Some b ∧
    tb_badge b = js "Active" ∧ (remaining <$> tb_countdown b) = Some (js "Expired") ∧ iv_renew v ≠ None.
Proof.
  intros Ha He Hn Ht Hp. unfold InboxDetailPage. rw Hp. cbn. rw Ha Ht. cbn. eexists _, _. split_and!; [done..| |done].
  cbn. unfold shown_countdown, Countdown. rw He. by rw (proj2 (Z.leb_le (e - now) 0)); [|lia].
Qed.
