(* ===== verification/SsoViews.v ===== *)
(** * Single sign-on: what the tab shows, and calls that overlap

    The views of [SSOProvidersTab], [TestEmailDialog] and
    [DomainMappingsSection] in [app/settings/page.tsx], over the state of
    [SsoTab]; the preview of an address while earlier previews are still under
    way; and what becomes of the mappings section when another provider is
    opened in place of the present one. *)

From S2P Require Import Prelude Regex Browser Types ApiClient React Lib Json Domains SsoTab.
Import Sso.

(** ** The preview of an address *)

Record PreviewTeam := { pt_team_id : jstr; pt_team_name : jstr; pt_team_role : jstr }.
Record DomainMappingPreviewResult := {
  pr_email : jstr; pr_email_domain : jstr; pr_provider : jstr; pr_matching_rules : list SSODomainMapping;
  pr_would_bypass_invite : bool; pr_team_assignments : option (list PreviewTeam); pr_org_role : option jstr
}.
Inductive rules_view := NoRules (text : jstr) | Rules (rows : list (jstr * jstr * jstr)).
Record preview_card := {
  pcd_domain : jstr; pcd_bypass : jstr; pcd_rules : rules_view; pcd_teams : option (list jstr); pcd_org_role : option jstr
}.
Definition dot_sep : jstr := [32; 183; 32]%N.
Definition preview_result_view (r : DomainMappingPreviewResult) : preview_card := {|
  pcd_domain := "@" ++ pr_email_domain r;
  pcd_bypass := if pr_would_bypass_invite r then "Yes" else "No";
  pcd_rules := match pr_matching_rules r with
               | [] => NoRules "No matching rules found for this domain."
               | rules => Rules (mapping_text <$> rules)
               end;
  pcd_teams := match pr_team_assignments r with
               | Some ((_ :: _) as l) => Some ((λ ta, pt_team_name ta ++ dot_sep ++ pt_team_role ta) <$> l)
               | _ => None
               end;
  pcd_org_role := match pr_org_role r with Some ((_ :: _) as o) => Some o | _ => None end
|}.

(** *** Previews that overlap

    [handlePreview] up to its call, and from the answer on. *)
Definition preview_begin (s : Preview) : Preview := {| pv_email := pv_email s; pv_loading := true; pv_result := None |}.
Definition preview_settle (answer : jserr + option json) (s : Preview) : Preview := {|
  pv_email := pv_email s; pv_loading := false;
  pv_result := match answer with inr res => res | inl _ => pv_result s end |}.
Definition setTestEmail (v : jstr) (s : Preview) : Preview :=
  {| pv_email := v; pv_loading := pv_loading s; pv_result := pv_result s |}.

(** [calls] are the addresses of the calls under way, [asked] is the address
    of the last one that was made, and [shown_for] the address whose answer is
    the result. *)
Record preview_sys := PreviewSys { pv : Preview; calls : list jstr; asked : option jstr; shown_for : option jstr }.
Definition preview_init : preview_sys :=
  PreviewSys {| pv_email := []; pv_loading := false; pv_result := None |} [] None None.
Definition ask (x : preview_sys) : preview_sys :=
  PreviewSys (preview_begin (pv x)) (calls x ++ [pv_email (pv x)]) (Some (pv_email (pv x))) None.
Definition answered (i : nat) (email : jstr) (answer : jserr + option json) (x : preview_sys) : preview_sys :=
  PreviewSys (preview_settle answer (pv x)) (delete i (calls x)) (asked x)
    (match answer with inr _ => Some email | inl _ => shown_for x end).
(** What happens to a preview; [keys] says whether Enter is used, or only the
    button. *)
Inductive preview_step (keys : bool) : preview_sys → preview_sys → Prop :=
| ps_type v x : preview_step keys x (PreviewSys (setTestEmail v (pv x)) (calls x) (asked x) (shown_for x))
| ps_click x : preview_disabled (pv x) = false → preview_step keys x (ask x)
| ps_enter x : keys = true → truthy (pv_email (pv x)) = true → preview_step keys x (ask x)
| ps_answer i email answer x : calls x !! i = Some email → preview_step keys x (answered i email answer x).

(** ** The mappings of a provider *)

Record mapping_row := { mr_text : jstr * jstr * jstr; mr_delete_disabled : bool; mr_confirm : jstr }.
Inductive mappings_list := MLoading | MEmpty (text : jstr) | MRows (rows : list mapping_row).
Record mapping_form_view := {
  mv_title : jstr; mv_domain : jstr; mv_domain_error : option jstr; mv_teams : list (jstr * jstr);
  mv_team_roles : list (jstr * jstr); mv_org_roles : list (jstr * jstr); mv_save : jstr; mv_save_disabled : bool
}.
Record mappings_view := { ms_add_button : bool; ms_list : mappings_list; ms_form : option mapping_form_view }.
Definition mappings_init : MappingsState := {|
  addingMapping := false; editingMappingId := None; mapping_form := emptyMappingForm; mapping_saving := false; deletingId := None |}.
(** [setFormField]. *)
Inductive mapping_field := FDomain | FTeamId | FTeamRole | FOrgRole.
Definition form_set (k : mapping_field) (v : jstr) (f : MappingForm) : MappingForm := {|
  mf_domain := if k is FDomain then v else mf_domain f; mf_team_id := if k is FTeamId then v else mf_team_id f;
  mf_team_role := if k is FTeamRole then v else mf_team_role f; mf_org_role := if k is FOrgRole then v else mf_org_role f |}.
Definition setFormField (k : mapping_field) (v : jstr) (s : MappingsState) : MappingsState :=
  set_mapping (addingMapping s) (editingMappingId s) (form_set k v (mapping_form s)) s.
Definition mapping_row_of (s : MappingsState) (m : SSODomainMapping) : mapping_row := {|
  mr_text := mapping_text m;
  mr_delete_disabled := bool_decide (deletingId s = Some (dm_id m));
  mr_confirm := "Remove the mapping for @" ++ dm_domain m ++ [32; 8594; 32]%N ++ jor (default [] (dm_team_name m)) "team"
                ++ "? Users from this domain will no longer be auto-provisioned to this team." |}.
Definition mapping_form_shown (s : MappingsState) : bool := addingMapping s || otruthy (editingMappingId s).
Definition mapping_form_of (teams : list Team) (teamRoles orgRoles : list (jstr * jstr)) (s : MappingsState) : mapping_form_view :=
  let f := mapping_form s in {|
  mv_title := if otruthy (editingMappingId s) then "Edit Mapping" else "New Mapping";
  mv_domain := mf_domain f;
  mv_domain_error := if truthy (mf_domain f) && negb (domainValid f) then Some (js "Invalid domain format") else None;
  mv_teams := (λ t, (Team_id t, Team_name t)) <$> teams;
  mv_team_roles := teamRoles; mv_org_roles := orgRoles;
  mv_save := if mapping_saving s then "Saving" ++ [8230]%N else if otruthy (editingMappingId s) then "Update" else "Add";
  mv_save_disabled := negb (truthy (mf_domain f)) || negb (domainValid f) || negb (truthy (mf_team_id f)) || mapping_saving s |}.
Definition DomainMappingsSection (mappings : option (list SSODomainMapping)) (isLoading : bool)
    (teams : list Team) (teamRoles orgRoles : list (jstr * jstr)) (s : MappingsState) : mappings_view := {|
  ms_add_button := negb (addingMapping s) && negb (otruthy (editingMappingId s));
  ms_list := if isLoading then MLoading
             else match default [] mappings with
                  | [] => MEmpty "No domain mappings configured."
                  | l => MRows (mapping_row_of s <$> l)
                  end;
  ms_form := if mapping_form_shown s then Some (mapping_form_of teams teamRoles orgRoles s) else None |}.

(** *** What the tab and the section load *)

Definition providers_queryFn `{!AppEnv} {S} : M S (option json) := api_get "/admin/sso/providers" None.
(** [enabled: !!providerId]. *)
Definition mappings_query `{!AppEnv} {S} (providerId : jstr) : option (M S (option json)) :=
  if truthy providerId then Some (api_get (mappings_path providerId) None) else None.

(** *** The section inside the form

    It is rendered at one place while the provider that is edited has an id,
    whichever id that is: its state lives as long as one does. *)
Definition section_shown (e : option jsobj) : bool := if e is Some o then truthy (provider_id o) else false.
Definition section_render (e : option jsobj) (section : option MappingsState) : option MappingsState :=
  if section_shown e then Some (default mappings_init section) else None.

(** ** The form of a provider *)

Record claim_row := { cr_name : option jstr; cr_value : option jstr; cr_org_role : option jstr; cr_team_id : jstr; cr_team_role : jstr }.
Record provider_form := {
  pf_title : jstr; pf_name : jstr; pf_name_disabled : bool; pf_type : jstr; pf_tenant : option jstr; pf_issuer : option jstr;
  pf_client_id : jstr; pf_client_secret : jstr; pf_redirect_url : jstr; pf_errors : list (jstr * option jstr);
  pf_enabled : bool; pf_auto_provision : bool; pf_roles_dimmed : bool; pf_org_role : jstr; pf_team_role : jstr; pf_team : jstr;
  pf_allowed_domains : jstr; pf_claims : list claim_row; pf_section : bool; pf_submit : jstr; pf_submit_disabled : bool
}.
Inductive sso_view :=
| VSsoLoading
| VSso (summary : option jstr) (cards : list provider_card) (empty : bool) (form : option provider_form).

Section views.
Context `{!AppEnv, !JSRuntime}.

Definition claims_of (o : jsobj) : list jsobj :=
  match obj_get o "claim_mappings" with
  | Some (JArr l) => (λ c, if c is JObj fs then prod_map id Some <$> fs else []) <$> l
  | _ => []
  end.
Definition claim_row_of (m : jsobj) : claim_row := {|
  cr_name := obj_str m "claim_name"; cr_value := obj_str m "claim_value"; cr_org_role := obj_str m "org_role";
  cr_team_id := default [] (obj_str m "team_id"); cr_team_role := default [] (obj_str m "team_role") |}.
Definition obj_flag (o : jsobj) (key : jstr) (d : bool) : bool :=
  match obj_get o key with Some (JBool b) => b | _ => d end.
Definition type_is (o : jsobj) (t : jstr) : bool := bool_decide (obj_str o "provider_type" = Some t).
Definition provider_form_of (s : SsoState) (o : jsobj) : provider_form := {|
  pf_title := if truthy (provider_id o) then "Edit Provider" else "Add Provider";
  pf_name := default [] (obj_str o "name");
  pf_name_disabled := truthy (provider_id o);
  pf_type := default (js "google") (obj_str o "provider_type");
  pf_tenant := if type_is o "azure" then Some (default [] (obj_str o "tenant_id")) else None;
  pf_issuer := if type_is o "okta" || type_is o "oidc" then Some (default [] (obj_str o "issuer_url")) else None;
  pf_client_id := default [] (obj_str o "client_id");
  pf_client_secret := default [] (obj_str o "client_secret");
  pf_redirect_url := default [] (obj_str o "redirect_url");
  pf_errors := (λ k, (k, shown_error k s)) <$> checked_keys;
  pf_enabled := obj_flag o "enabled" true;
  pf_auto_provision := obj_flag o "auto_provision" false;
  pf_roles_dimmed := negb (obj_flag o "auto_provision" false);
  pf_org_role := default (js "member") (obj_str o "default_org_role");
  pf_team_role := default (js "member") (obj_str o "default_team_role");
  pf_team := default (js "__none__") (obj_str o "default_team_id");
  pf_allowed_domains := default [] (obj_str o "allowed_domains");
  pf_claims := claim_row_of <$> claims_of o;
  pf_section := section_shown (Some o);
  pf_submit := if sso_saving s then "Saving" ++ [8230]%N else if truthy (provider_id o) then "Update Provider" else "Create Provider";
  pf_submit_disabled := sso_saving s || negb (isFormValid s) |}.
Definition plural (n : Z) : jstr := if (n =? 1)%Z then [] else "s".
Definition summary_text (providers : list SSOProviderData) : jstr :=
  let st := ssoSummaryStats ((λ p, {| enabled := sp_enabled p; linked_user_count := sp_linked p |}) <$> providers) in
  show_nat (enabledCount st) ++ " enabled provider" ++ plural (Z.of_nat (enabledCount st)) ++ dot_sep
  ++ show (totalLinkedUsers st) ++ " linked user" ++ plural (totalLinkedUsers st).
(** [counts] are the mappings the cards have loaded for their providers. *)
Definition SSOProvidersTab (isLoading : bool) (providers : option (list SSOProviderData)) (counts : jstr → nat) (s : SsoState) : sso_view :=
  if isLoading then VSsoLoading
  else
    let providerList := default [] providers in
    VSso (match providerList with [] => None | _ => Some (summary_text providerList) end)
         ((λ p, ProviderCard (counts (sp_id p)) (testResults s) p) <$> providerList)
         (match providerList with [] => true | _ => false end)
         (provider_form_of s <$> editing s).
(** The list of teams: [None] is the choice without a team. *)
Definition choose_team (v : jstr) (s : SsoState) : SsoState :=
  set_field "default_team_id" (if v =?s "__none__" then None else Some (JStr v)) s.
End views.

(** ** Previews *)

Section preview_theorems.
Context `{!AppEnv}.

(** The two halves make up the handler: the call is made from the state the
    first leaves, and the second finishes with its answer. *)
Lemma handlePreview_halves (provider : jstr) (c : Preview) (w w1 : world Preview) r :
  truthy (pv_email c) = true →
  api_post "/admin/sso/domain-mappings/preview"
    (Some (JObj [(js "email", JStr (pv_email c)); (js "provider", JStr provider)])) (World (brw w) (preview_begin (st w))) = (r, w1) →
  st (snd (handlePreview provider c w)) = preview_settle r (st w1).
Proof. intros Ht Hr. unfold handlePreview. rw Ht. run_M. cbn [negb]. unfold preview_begin in Hr. rw Hr. by destruct r. Qed.

Definition preview_inv (x : preview_sys) : Prop :=
  match calls x with
  | [] => pv_loading (pv x) = false ∧ (is_Some (pv_result (pv x)) → shown_for x = asked x)
  | [a] => pv_loading (pv x) = true ∧ pv_result (pv x) = None ∧ asked x = Some a
  | _ => False
  end.
Lemma preview_inv_step x y : preview_step false x y → preview_inv x → preview_inv y.
Proof.
  destruct 1 as [v x|x Hd|x Hk _|i email answer x Hi]; intros Hx; unfold preview_inv in *; cbn in *; [done| |done|].
  - unfold preview_disabled in Hd. apply orb_false_iff in Hd as [_ Hl].
    destruct (calls x) as [|a [|]]; [done| |done]. by rw Hl in Hx; destruct Hx.
  - destruct (calls x) as [|a [|]]; [done| |done]. destruct Hx as (_ & Hn & Ha).
    apply list_lookup_singleton_Some in Hi as [-> ->]. cbn. split; [done|].
    destruct answer; cbn; [by rw Hn; intros [? ?]|done].
Qed.
(** With the button alone previews do not overlap: at most one call is under
    way, the button is busy exactly then, and the result that is shown is of
    the address that was asked for last. *)
Theorem preview_button_current (x : preview_sys) :
  rtc (preview_step false) preview_init x →
  length (calls x) ≤ 1 ∧ (pv_loading (pv x) = true ↔ calls x ≠ []) ∧ (is_Some (pv_result (pv x)) → shown_for x = asked x).
Proof.
  intros Hx. assert (Hi : preview_inv x).
  { revert Hx. apply (rtc_ind_r (R := preview_step false) preview_inv preview_init); [by split; [|intros [? ?]]|].
    intros y z _ Hyz. by apply preview_inv_step. }
  unfold preview_inv in Hi. destruct (calls x) as [|a [|]]; [| |done].
  - destruct Hi as [-> Hs]. by split_and!; [cbn; lia| |].
  - destruct Hi as (-> & -> & _). split_and!; [cbn; lia|done|by intros [? ?]].
Qed.
(** Enter asks again while a call is under way: the answer for the first of
    two addresses, arriving last, is shown below the second. *)
Theorem preview_overtaken (a b : jstr) (ra rb : json) :
  truthy a = true → truthy b = true →
  ∃ x, rtc (preview_step true) preview_init x ∧ calls x = [] ∧ pv x = {| pv_email := b; pv_loading := false; pv_result := Some ra |} ∧
    asked x = Some b ∧ shown_for x = Some a.
Proof.
  intros Ha Hb. eexists. split.
  - eapply rtc_l; [apply (ps_type _ a)|]. eapply rtc_l; [by apply ps_enter|].
    eapply rtc_l; [apply (ps_type _ b)|]. eapply rtc_l; [by apply ps_enter|].
    eapply rtc_l; [by apply (ps_answer _ 1 b (inr (Some rb)))|]. eapply rtc_l; [by apply (ps_answer _ 0 a (inr (Some ra)))|].
    reflexivity.
  - done.
Qed.
End preview_theorems.

(** ** Mappings *)

Section mapping_theorems.
Context `{!AppEnv, !JSRuntime}.

(** The section offers to add a mapping exactly when no form is open, and the
    form's button is live exactly when a click would save. *)
Theorem section_add_or_form mappings isLoading teams teamRoles orgRoles (s : MappingsState) :
  let v := DomainMappingsSection mappings isLoading teams teamRoles orgRoles s in
  ms_add_button v = negb (bool_decide (is_Some (ms_form v))) ∧
  ∀ f, ms_form v = Some f → mv_save_disabled f = false →
    domainValid (mapping_form s) = true ∧ mv_domain_error f = None ∧
    ∀ providerId, mapping_click providerId s = handleSaveMapping providerId s.
Proof.
  cbn [DomainMappingsSection ms_add_button ms_form]. unfold mapping_form_shown. split.
  - destruct (addingMapping s), (otruthy (editingMappingId s)); reflexivity.
  - intros f. case_match; [|done]. intros [= <-]. cbn [mapping_form_of mv_save_disabled mv_domain_error]. intros E.
    unfold mapping_click. rw E. bool_to_prop. split_and!; [done| |done].
    by match goal with H : domainValid _ = true |- _ => rw H andb_false_r end.
Qed.

(** Opening another provider in place of the present one keeps the mapping
    that is being edited: everything saving it then sends is a change of that
    mapping under the other provider. *)
Theorem section_other_provider (e1 e2 : jsobj) (m : SSODomainMapping) (section : option MappingsState) (w : world MappingsState) :
  truthy (provider_id e1) = true → truthy (provider_id e2) = true → truthy (dm_id m) = true →
  ∃ s, section_render (Some e2) (startEdit m <$> section_render (Some e1) section) = Some s ∧
    editingMappingId s = Some (dm_id m) ∧
    ∃ l, sent_requests (snd (mapping_click (provider_id e2) s w)) = sent_requests w ++ l ∧
      Forall (λ r, is_refresh r ∨ rq_method r = js "PUT" ∧
        rq_url r = API_BASE ++ mappings_path (provider_id e2) ++ "/" ++ dm_id m ∧ rq_body r = Some (mapping_body (mapping_form s))) l.
Proof.
  intros H1 H2 Hm. cbn [section_render section_shown]. unfold section_render, section_shown. rw H1 H2. cbn [fmap option_fmap option_map default].
  eexists. split; [done|]. split; [done|]. set (s := startEdit m _).
  assert (Ei : editingMappingId s = Some (dm_id m)) by done.
  match goal with |- ∃ l, _ ∧ Forall ?P l => change (only_sends P w (snd (mapping_click (provider_id e2) s w))); set (Q := P) end.
  revert w. change (preserves (only_sends Q) (mapping_click (provider_id e2) s)).
  assert (Hq : preserves (S := MappingsState) (only_sends Q)
    (api_put (mappings_path (provider_id e2) ++ "/" ++ dm_id m) (Some (mapping_body (mapping_form s))))).
  { apply only_sends_request; [intros token; right; split_and!; cbn; [done|by rw app_nil_r|done]|by left]. }
  unfold mapping_click, handleSaveMapping. rw Ei. cbn [otruthy from_option default]. rw Hm. preserve.
Qed.
End mapping_theorems.

(** ** The form of a provider *)

Section form_theorems.
Context `{!JSRuntime}.

(** The list of teams shows the choice that was made last. *)
Theorem choose_team_shown (v : jstr) (s : SsoState) (o : jsobj) :
  editing s = Some o →
  ∃ o', editing (choose_team v s) = Some o' ∧ pf_team (provider_form_of (choose_team v s) o') = v ∧
    ∀ k, k ≠ js "default_team_id" → obj_get o' k = obj_get o k.
Proof.
  intros Eo. unfold choose_team, set_field. rw Eo. eexists. split; [done|]. split.
  - cbn [provider_form_of pf_team]. unfold obj_str, obj_get, obj_set. rw map_get_set_eq.
    destruct (v =?s "__none__") eqn:E; [|done]. by apply jeqb_eq in E as ->.
  - intros k Hk. unfold obj_get, obj_set. by rw map_get_set_ne.
Qed.
(** A new provider shows no team and not the choice without one, and an empty
    team is what it is saved with unless one is chosen. *)
Theorem new_provider_team (s : SsoState) :
  pf_team (provider_form_of (setEditing (Some emptyProvider) s) emptyProvider) = [] ∧
  obj_get emptyProvider "default_team_id" = Some (JStr []).
Proof. done. Qed.
End form_theorems.

(** ** Instances *)

Example preview_card_empty :
  pcd_rules (preview_result_view {| pr_email := "u@a.test"; pr_email_domain := "a.test"; pr_provider := "p"; pr_matching_rules := [];
    pr_would_bypass_invite := false; pr_team_assignments := Some []; pr_org_role := None |}) = NoRules "No matching rules found for this domain.".
Proof. reflexivity. Qed.
Example mapping_team_shortened :
  mapping_text {| dm_id := "m"; dm_domain := "a.test"; dm_org_role := "admin"; dm_team_id := "0123456789"; dm_team_role := "lead"; dm_team_name := Some [] |}
  = (js "@a.test", "01234567" ++ dot_sep ++ "lead", js "org: admin").
Proof. vm_compute. reflexivity. Qed.
