(* ===== verification/TeamsView.v ===== *)
(** * What the teams page shows

    The views of [web/src/app/teams/page.tsx] over the state of [Teams]: the
    dialog that creates a team, the tabs of a team with their tables and
    dialogs, and the dialogs that delete a team or take a domain away. *)

From S2P Require Import Prelude Regex Browser Types ApiClient React OrgStore Hooks Lib ApiKeys RolesTab InboxPage SignIn Domains Teams.
Import Hooks.Small Lib.RelativeTime.

Definition em_dash : jstr := [8212%N].
Definition option_pairs (roles : list RoleInfo) : list (jstr * jstr) := (λ r, (RoleInfo_value r, RoleInfo_label r)) <$> roles.

(** The list of suggestions below a field. *)
Inductive popup := PBusy | PNone (text : jstr) | PRows (rows : list (jstr * jstr * jstr)).
(** What a table shows; the columns are [Member], [Role], [Joined], [Actions]. *)
Inductive role_cell := RSelect (value : jstr) (choices : list (jstr * jstr)) | RBadge (role : jstr).
Record member_line := { ml_initial : jstr; ml_name : jstr; ml_email : jstr; ml_role : role_cell; ml_joined : jstr; ml_remove : option jstr }.
Inductive member_table := MTLoading | MTEmpty (title : jstr) | MTNoMatch (text : jstr) | MTRows (rows : list member_line).
Record add_member_dialog := {
  am_open : bool; am_email : jstr; am_popup : option popup; am_role : jstr; am_roles : list (jstr * jstr);
  am_button : jstr; am_disabled : bool
}.
Record members_view := { mv_summary : jstr; mv_search : option jstr; mv_add : option add_member_dialog; mv_table : member_table }.

Record assignment_line := { al_href : jstr; al_name : jstr; al_access : jstr; al_assigned : option jstr; al_unassign : bool }.
Inductive assignment_table := ATLoading | ATEmpty (title : jstr) | ATNoMatch (text : jstr) | ATRows (rows : list assignment_line).
Record assign_dialog := { ad_open : bool; ad_value : jstr; ad_choices : list (jstr * jstr); ad_button : jstr; ad_disabled : bool }.
Record assignments_view := { asv_summary : jstr; asv_search : option jstr; asv_assign : option assign_dialog; asv_table : assignment_table }.

Record create_view := {
  cv_name_message : list jstr; cv_slug : option jstr; cv_members : list (jstr * jstr * jstr * jstr); cv_popup : option popup;
  cv_domains : list (jstr * jstr); cv_chips : list Domain; cv_domain_note : option jstr; cv_button : jstr; cv_disabled : bool
}.
Record TeamImpact := { ti_members : Z; ti_domains : Z; ti_inboxes : Z; ti_emails : Z }.
Record ImpactInbox := { ii_address : jstr; ii_full_address : jstr; ii_created_by_email : jstr; ii_email_count : Z }.
Record DomainImpact := { di_active_inboxes : Z; di_inboxes : option (list ImpactInbox) }.
Inductive impact_note :=
| INLoading
| INWarning (text : jstr) (rows : list (jstr * jstr * Z))
| INSafe (text : jstr)
| INUnknown.

Section views.
Context `{!AppEnv, !JSRuntime}.

Definition initial (s : jstr) : jstr := toUpperCase (take 1 s).

(** ** Creating a team *)

Definition create_popup_row (x : suggestion) : jstr * jstr * jstr :=
  (initial (jor (sg_name x) (sg_email x)), jor (sg_name x) em_dash, sg_email x).
Definition suggestions_popup (row : suggestion → jstr * jstr * jstr) (shown loading : bool) (l : list suggestion) : option popup :=
  if negb shown then None
  else Some (if loading then PBusy
             else match l with [] => PNone "No matching members" | _ => PRows (row <$> l) end).
Definition domain_note (l : list Domain) (s : CreateTeam) : option jstr :=
  match availableDomains l s with
  | _ :: _ => None
  | [] => Some (if (0 <? length (verifiedDomains l))%nat && (length (selectedDomains s) =? length (verifiedDomains l))%nat
                then js "All verified domains have been selected." else js "No verified domains available to assign.")
  end.
Definition CreateTeamDialog (existing : list jstr) (l : list Domain) (s : CreateTeam) : create_view :=
  let slug := team_slug (ct_name s) in {|
  cv_name_message :=
    (if truthy (trim (ct_name s)) && negb (nameValid (ct_name s)) then [js "Name must be at least 2 characters"] else []) ++
    (if isDuplicate existing (ct_name s) then [js "A team with this name already exists"] else []);
  cv_slug := if truthy slug && nameValid (ct_name s) && negb (isDuplicate existing (ct_name s)) then Some slug else None;
  cv_members := (λ m, (initial (jor (mr_name m) (mr_email m)), jor (mr_name m) (mr_email m), mr_email m, mr_role m)) <$> initialMembers s;
  cv_popup := suggestions_popup create_popup_row (showSuggestions s) (suggestionsLoading s) (suggestions s);
  cv_domains := (λ d, (dc_name d, accessLevel d)) <$> selectedDomains s;
  cv_chips := match availableDomains l s with [] => [] | _ => domain_chips l s end;
  cv_domain_note := domain_note l s;
  cv_button := create_team_label s;
  cv_disabled := create_team_disabled existing s |}.

(** ** Members *)

Definition tab_popup_row (x : suggestion) : jstr * jstr * jstr :=
  (initial (jor (jor (sg_name x) (sg_email x)) "?"), jor (sg_name x) em_dash, sg_email x).
Definition member_line_of (isAdmin : bool) (roles : list RoleInfo) (m : Membership) : member_line :=
  let name := default [] (Membership_display_name m) in
  let email := default [] (Membership_email m) in {|
  ml_initial := initial (jor (jor name email) "?");
  ml_name := jor name em_dash;
  ml_email := jor email em_dash;
  ml_role := if isAdmin then RSelect (Membership_role m) (option_pairs roles) else RBadge (Membership_role m);
  ml_joined := if truthy (Membership_created_at m) then toLocaleDateString (Membership_created_at m) else em_dash;
  ml_remove := if isAdmin then Some ((if truthy name then name else default (js "undefined") (Membership_email m)) ++ " will lose access to this team.") else None |}.
Definition members_table (isLoading isAdmin : bool) (roles : list RoleInfo) (search : jstr) (members : list Membership) : member_table :=
  if isLoading then MTLoading
  else match filteredMembers search members with
       | [] => if truthy search then MTNoMatch "No matching members" else MTEmpty "No members yet"
       | l => MTRows (member_line_of isAdmin roles <$> l)
       end.
Definition TeamMembersTab (isAdmin isLoading isPending : bool) (roles : list RoleInfo) (data : option (list Membership)) (s : MembersTab) : members_view :=
  let members := default [] data in {|
  mv_summary := members_summary members;
  mv_search := if (3 <? length members)%nat then Some (mt_search s) else None;
  mv_add := if isAdmin then Some {|
              am_open := addOpen s; am_email := memberEmail s;
              am_popup := suggestions_popup tab_popup_row (mt_show s) (mt_loading s) (mt_suggestions s);
              am_role := mt_role s;
              am_roles := (λ r, (RoleInfo_value r, RoleInfo_label r ++ [32; 8212; 32]%N ++ RoleInfo_description r)) <$> roles;
              am_button := if isPending then "Adding" ++ ellipsis else "Add Member";
              am_disabled := negb (truthy (memberEmail s)) || isPending |} else None;
  mv_table := members_table isLoading isAdmin roles (mt_search s) members |}.
Definition setMemberSearch (v : jstr) (s : MembersTab) : MembersTab := {|
  addOpen := addOpen s; memberEmail := memberEmail s; mt_role := mt_role s; mt_search := v; mt_suggestions := mt_suggestions s;
  mt_show := mt_show s; mt_loading := mt_loading s; mt_timer := mt_timer s |}.
(** The field of the dialog. *)
Definition member_focus (s : MembersTab) : MembersTab :=
  if (0 <? length (mt_suggestions s))%nat
  then mt_update (memberEmail s) (mt_role s) (mt_suggestions s) true (mt_loading s) (mt_timer s) s else s.
Definition member_keydown `{!MutationRunner} (orgId teamId key : jstr) (closure : MembersTab) : M MembersTab unit :=
  when ((key =?s "Enter") && truthy (memberEmail closure)) (mutate (tab_addMember orgId teamId closure) tt).

(** ** Domains *)

(** [al_assigned] is the date, which the page writes in the reader's format. *)
Definition assignment_line_of (isAdmin : bool) (a : DomainAssignment) : assignment_line := {|
  al_href := "/domains/" ++ DomainAssignment_domain_id a;
  al_name := assignment_name a;
  al_access := accessLabel (DomainAssignment_access_level a);
  al_assigned := if truthy (DomainAssignment_created_at a) then Some (DomainAssignment_created_at a) else None;
  al_unassign := isAdmin |}.
Definition count_domains (n : nat) : jstr := show_nat n ++ " " ++ (if (n =? 1)%nat then "domain" else "domains").
Definition DomainAssignmentsTab (isAdmin isLoading isPending : bool) (assignments : option (list DomainAssignment)) (domains : option (list Domain))
    (s : AssignmentsTab) : assignments_view :=
  let available := assignable (default [] assignments) (default [] domains) in
  let assignmentList := default [] assignments in {|
  asv_summary := count_domains (length assignmentList) ++ " assigned" ++ middot ++ count_domains (length available) ++ " available";
  asv_search := if (0 <? length assignmentList)%nat then Some (at_search s) else None;
  asv_assign := if isAdmin && (0 <? length available)%nat then Some {|
                  ad_open := assignOpen s; ad_value := selectedDomain s;
                  ad_choices := (λ d, (Domain_id d, Domain_domain_name d)) <$> available;
                  ad_button := if isPending then "Assigning" ++ ellipsis else "Assign Domain";
                  ad_disabled := negb (truthy (selectedDomain s)) || isPending |} else None;
  asv_table := if isLoading then ATLoading
               else match filteredAssignments (at_search s) assignmentList with
                    | [] => match assignmentList with
                            | [] => ATEmpty "No domains assigned"
                            | _ => ATNoMatch ("No domains match " ++ dq ++ at_search s ++ dq)
                            end
                    | l => ATRows (assignment_line_of isAdmin <$> l)
                    end |}.
Definition assign_onOpenChange (v : bool) (s : AssignmentsTab) : AssignmentsTab :=
  {| assignOpen := v; selectedDomain := if v then selectedDomain s else []; at_search := at_search s |}.
Definition assign_click `{!MutationRunner} (orgId teamId : jstr) (isPending : bool) (closure : AssignmentsTab) : M AssignmentsTab unit :=
  if negb (truthy (selectedDomain closure)) || isPending then mret tt
  else when (truthy (selectedDomain closure)) (mutate (assign orgId teamId) (selectedDomain closure)).

(** ** Taking away *)

Definition count_of (n : Z) (one many : jstr) : jstr := show n ++ " " ++ (if (n =? 1)%Z then one else many).
Definition delete_description (impact : option TeamImpact) (loading : bool) : jstr :=
  if loading then "Loading impact..."
  else match impact with
       | Some i => "This will remove " ++ count_of (ti_members i) "member" "members" ++ ", "
                   ++ count_of (ti_domains i) "domain assignment" "domain assignments" ++ ", "
                   ++ count_of (ti_inboxes i) "active inbox" "active inboxes" ++ ", and "
                   ++ count_of (ti_emails i) "email" "emails" ++ ". This cannot be undone."
       | None => "All team members, domain assignments, and inboxes will be permanently removed. This cannot be undone."
       end.
Definition impact_of (impact : option DomainImpact) (loading : bool) : impact_note :=
  let activeInboxes := from_option di_active_inboxes (-1)%Z impact in
  if loading then INLoading
  else if (0 <? activeInboxes)%Z
  then INWarning (show activeInboxes ++ " active inbox" ++ (if (activeInboxes =? 1)%Z then [] else js "es") ++ " will be permanently deleted.")
         ((λ b, (jor (ii_address b) (ii_full_address b), ii_created_by_email b, ii_email_count b)) <$> default [] (impact ≫= di_inboxes))
  else if (activeInboxes =? 0)%Z then INSafe "No active inboxes on this assignment. Safe to unassign."
  else INUnknown.
(** The note, and whether the button that takes the domain away is live. *)
Definition UnassignDomainDialog (a : DomainAssignment) (impact : option DomainImpact) (loading : bool) (s : Unassign) : impact_note * bool :=
  (impact_of impact loading, negb loading && (ua_text s =?s assignment_name a)).

(** ** Settings *)

Record settings_view := { sv_name : jstr; sv_slug : jstr; sv_attachments : jstr; sv_ttl : jstr; sv_ttl_error : option jstr; sv_button : jstr; sv_disabled : bool }.
Definition team_settings_view (t : Team) (s : Teams.TeamSettingsTab) : settings_view := {|
  sv_name := ts_name s; sv_slug := Team_slug t; sv_attachments := ts_attachments s; sv_ttl := maxTTL s;
  sv_ttl_error := if truthy (maxTTL s) && negb (ttlValid s) then Some (js "Use format like 1h, 24h, 30m") else None;
  sv_button := if ts_saving s then "Saving" ++ ellipsis else "Save Changes";
  sv_disabled := ts_disabled t s |}.

(** ** What the page loads *)

Definition first_page : option (list (jstr * jstr)) := Some [(js "per_page", js "200")].
Definition members_queryFn {S} (orgId teamId : jstr) : M S (option json) := api_get (team_path orgId teamId ++ "/members") first_page.
Definition assignments_queryFn {S} (orgId teamId : jstr) : M S (option json) := api_get (team_path orgId teamId ++ "/domains") first_page.
Definition team_domains_queryFn {S} (orgId : jstr) : M S (option json) := api_get ("/orgs/" ++ orgId ++ "/domains") first_page.
(** [enabled: deleteOpen], [enabled: open]. *)
Definition team_impact_query {S} (orgId teamId : jstr) (deleteOpen : bool) : option (M S (option json)) :=
  if deleteOpen then Some (api_get (team_path orgId teamId ++ "/impact") None) else None.
Definition domain_impact_query {S} (orgId domainId : jstr) (open : bool) : option (M S (option json)) :=
  if open then Some (api_get ("/orgs/" ++ orgId ++ "/domains/" ++ domainId ++ "/impact") None) else None.
End views.

(** ** Theorems *)

Section theorems.
Context `{!AppEnv, !JSRuntime}.

(** Without the permission neither tab offers a change: no dialog to add or
    assign, no list of roles, and no button that takes away. *)
Theorem member_reads_only isLoading isPending roles data assignments domains (s : MembersTab) (a : AssignmentsTab) :
  let v := TeamMembersTab false isLoading isPending roles data s in
  let w := DomainAssignmentsTab false isLoading isPending assignments domains a in
  mv_add v = None ∧ asv_assign w = None ∧
  (∀ rows, mv_table v = MTRows rows → Forall (λ l, ml_remove l = None ∧ ∃ r, ml_role l = RBadge r) rows) ∧
  (∀ rows, asv_table w = ATRows rows → Forall (λ l, al_unassign l = false) rows).
Proof.
  cbn. split_and!; [done|done| |].
  - unfold members_table. intros rows. destruct isLoading; [done|].
    destruct (filteredMembers _ _) as [|m l]; [by destruct (truthy _)|]. intros [= <-].
    change (Forall (λ l, ml_remove l = None ∧ ∃ r, ml_role l = RBadge r) (member_line_of false roles <$> (m :: l))).
    apply Forall_fmap, Forall_true. intros x. split; [done|by eexists].
  - intros rows. destruct isLoading; [done|]. destruct (filteredAssignments _ _) as [|d l]; [by case_match|]. intros [= <-].
    change (Forall (λ l, al_unassign l = false) (assignment_line_of false <$> (d :: l))). apply Forall_fmap, Forall_true. done.
Qed.

(** The filter of the members outlives its field: once a team has three
    members or fewer, a text that matches none of them hides them all and
    cannot be seen or changed.  The same holds of the list of teams from six
    down. *)
Theorem filter_outlives_field isAdmin isPending roles members (s : MembersTab) now teams (p : TeamsState) :
  (length members ≤ 3 → truthy (mt_search s) = true → filteredMembers (mt_search s) members = [] →
   let v := TeamMembersTab isAdmin false isPending roles (Some members) s in
   mv_search v = None ∧ mv_table v = MTNoMatch "No matching members") ∧
  (0 < length teams ≤ 6 → selectedTeam p = None → filteredTeams (tm_search p) teams = [] →
   TeamsPage now true true isAdmin false false teams p = TList false []).
Proof.
  split.
  - intros Hn Ht Hf. cbn [TeamMembersTab mv_search mv_table default from_option]. unfold members_table. rw Hf Ht.
    by rw (proj2 (Nat.ltb_ge 3 (length members)) Hn).
  - intros Hn Hs Hf. unfold TeamsPage. rw Hs Hf. cbn [negb fmap list_fmap].
    rw (proj2 (Nat.eqb_neq (length teams) 0)) ?(proj2 (Nat.ltb_ge 6 (length teams))) //; lia.
Qed.

(** The dialog's button creates a team only under a name without a message,
    and a slug is announced only for such a name. *)
Theorem create_button_ok existing l (s : CreateTeam) :
  let v := CreateTeamDialog existing l s in
  (cv_disabled v = false → cv_name_message v = [] ∧ nameValid (ct_name s) = true) ∧
  (∀ slug, cv_slug v = Some slug → cv_name_message v = [] ∧ slug = team_slug (ct_name s) ∧ cv_disabled v = ct_creating s).
Proof.
  cbn [CreateTeamDialog cv_disabled cv_name_message cv_slug]. unfold create_team_disabled.
  destruct (nameValid (ct_name s)), (isDuplicate existing (ct_name s)), (truthy (team_slug (ct_name s))); cbn [negb orb andb];
    rw ?andb_false_r ?andb_true_r; (split; [done|intros slug; naive_solver]).
Qed.

Lemma List_filter_sublist {A} (p : A → bool) (l : list A) : List.filter p l `sublist_of` l.
Proof. induction l as [|x l IH]; cbn; [done|]. destruct (p x); by constructor. Qed.
Lemma available_none l s :
  availableDomains l s = [] ↔ ∀ d, d ∈ verifiedDomains l → Domain_id d ∈ dc_id <$> selectedDomains s.
Proof.
  unfold availableDomains. set (sel := selectedDomains s). split.
  - intros E d Hd. destruct (decide (Domain_id d ∈ dc_id <$> sel)) as [Hi|Hn]; [done|]. exfalso.
    assert (Hin : d ∈ List.filter (λ d, negb (existsb (λ c, dc_id c =?s Domain_id d) sel)) (verifiedDomains l)).
    { apply elem_of_List_filter_any. split; [done|]. apply negb_true_iff, not_true_iff_false. intros (c & Hc & Ec)%List.existsb_exists.
      apply jeqb_eq in Ec. apply Hn. rw -Ec. apply list_elem_of_fmap. exists c. split; [done|by apply list_elem_of_In]. }
    rw E in Hin. by apply elem_of_nil in Hin.
  - intros Hall. destruct (List.filter _ _) as [|d k] eqn:E; [done|]. exfalso.
    assert (Hd : d ∈ availableDomains l s) by (unfold availableDomains; fold sel; rw E; by left).
    pose proof (available_fresh l s d Hd) as (H1 & H2 & H3). apply H3, Hall. by apply elem_of_List_filter_any.
Qed.
(** Whatever is clicked in the dialog, with domains of different ids: there is
    a note instead of a choice exactly when every verified domain is taken, and
    it says so exactly when there is one. *)
Theorem domain_note_spec (l : list Domain) (s : CreateTeam) :
  NoDup (Domain_id <$> l) → rtc (domain_step l) ct_init s →
  (domain_note l s ≠ None ↔ ∀ d, d ∈ verifiedDomains l → Domain_id d ∈ dc_id <$> selectedDomains s) ∧
  (domain_note l s = Some (js "All verified domains have been selected.") ↔
     verifiedDomains l ≠ [] ∧ ∀ d, d ∈ verifiedDomains l → Domain_id d ∈ dc_id <$> selectedDomains s).
Proof.
  intros Hl Hr. apply team_domains_distinct in Hr as [Hn Hv]. rw -available_none. unfold domain_note.
  destruct (availableDomains l s) as [|d k] eqn:E; [|naive_solver].
  split; [done|]. pose proof (proj1 (available_none l s) E) as Hall.
  assert (Hlen : length (selectedDomains s) = length (verifiedDomains l)).
  { rw -(length_fmap dc_id) -(length_fmap Domain_id (verifiedDomains l)). apply Permutation_length. apply NoDup_Permutation; [done| |].
    - eapply sublist_NoDup; [exact Hl|]. apply fmap_sublist, List_filter_sublist.
    - intros i. split.
      + intros (c & -> & Hc)%list_elem_of_fmap. destruct (Hv c Hc) as (d & Hd & Hf & Ei). rw -Ei. apply list_elem_of_fmap.
        exists d. split; [done|]. by apply elem_of_List_filter_any.
      + intros (d & -> & Hd)%list_elem_of_fmap. by apply Hall. }
  rw Hlen Nat.eqb_refl andb_true_r. destruct (verifiedDomains l); cbn; split; [done|by intros []| |]; by split.
Qed.

(** A domain that can be assigned is verified and not assigned yet, and the
    dialog offers all of these. *)
Theorem assign_choices isLoading isPending assignments domains (s : AssignmentsTab) :
  match asv_assign (DomainAssignmentsTab true isLoading isPending (Some assignments) (Some domains) s) with
  | Some d => ad_choices d ≠ [] ∧ ∀ c, c ∈ ad_choices d ↔ ∃ x, x ∈ domains ∧ c = (Domain_id x, Domain_domain_name x) ∧
                Domain_mx_verified x = true ∧ Domain_txt_verified x = true ∧ Domain_id x ∉ DomainAssignment_domain_id <$> assignments
  | None => ∀ x, x ∈ domains → Domain_mx_verified x = true → Domain_txt_verified x = true →
              Domain_id x ∈ DomainAssignment_domain_id <$> assignments
  end.
Proof.
  cbn [DomainAssignmentsTab asv_assign default from_option andb id]. assert (Ha : ∀ x, x ∈ assignable assignments domains ↔ x ∈ domains ∧ Domain_mx_verified x = true ∧ Domain_txt_verified x = true ∧
                  Domain_id x ∉ DomainAssignment_domain_id <$> assignments).
  { intros x. unfold assignable. rw elem_of_List_filter_any !andb_true_iff negb_true_iff bool_decide_eq_false. tauto. }
  destruct (assignable assignments domains) as [|y k] eqn:E; cbn [length Nat.ltb Nat.leb].
  - intros x Hx H1 H2. destruct (decide (Domain_id x ∈ DomainAssignment_domain_id <$> assignments)) as [|Hn]; [done|].
    by destruct (not_elem_of_nil x (proj2 (Ha x) (conj Hx (conj H1 (conj H2 Hn))))).
  - cbn [ad_choices]. split; [done|]. intros c. rw list_elem_of_fmap. setoid_rewrite Ha. naive_solver.
Qed.

(** When the impact cannot be loaded, the dialog says nothing of the inboxes
    that go with the domain and still takes it away; a warning names every
    number of inboxes above none. *)
Theorem unassign_note (a : DomainAssignment) (i : option DomainImpact) (s : Unassign) :
  (UnassignDomainDialog a None false s = (INUnknown, ua_text s =?s assignment_name a)) ∧
  (∀ d, i = Some d → (0 < di_active_inboxes d)%Z → ∃ text rows, fst (UnassignDomainDialog a i false s) = INWarning text rows ∧
     length rows = length (default [] (di_inboxes d))).
Proof.
  split; [done|]. intros d -> Hd. cbn. unfold impact_of. cbn. rw (proj2 (Z.ltb_lt _ _) Hd). do 2 eexists. split; [done|]. by rw length_fmap.
Qed.
End theorems.
