(* ===== verification/SettingsViews.v ===== *)
(** * What the general and the system tab of the settings show

    The views of [web/src/app/settings/page.tsx] over the state of
    [SettingsGeneral]: the identity card and the bar with the state of the
    automatic save, the deletion of the organisation, the platform settings,
    service health, and the forms for mail and storage. *)

From S2P Require Import Prelude Browser Types ApiClient React Hooks Json SettingsGeneral.
Import Hooks.Small.

Definition sv_dots : jstr := [8226; 8226; 8226; 8226; 8226; 8226; 8226; 8226]%N.
Definition sv_ellipsis : jstr := [8230%N].
Definition sv_quoted (s : jstr) : jstr := [34%N] ++ s ++ [34%N].

(** ** The general tab *)

Inductive org_mark := LogoImage (src : jstr) | LogoInitial (letter : jstr).
Record identity_card := { ic_mark : org_mark; ic_name : jstr; ic_slug : jstr; ic_created : jstr; ic_logo : jstr }.
Record save_bar := { sb_note : option jstr; sb_button : jstr; sb_disabled : bool }.
Record danger_view := {
  dg_title : jstr; dg_confirm : jstr; dg_placeholder : jstr; dg_password : option jstr; dg_sso_note : option jstr;
  dg_error : option jstr; dg_cancel_disabled : bool; dg_button : jstr; dg_disabled : bool
}.

Section general.
Context `{!JSRuntime}.

Definition identity_card_of (slug created_at : jstr) (f : OrgForm) : identity_card := {|
  ic_mark := if truthy (f_logo f) then LogoImage (f_logo f) else LogoInitial (toUpperCase (take 1 (f_name f)));
  ic_name := f_name f; ic_slug := slug; ic_created := "Created " ++ toLocaleDateString created_at; ic_logo := f_logo f |}.

(** The bar is there only while the form differs from the organisation. *)
Definition save_bar_of (f : OrgForm) (o : OrgView) (saving : bool) (status : autosave_status) : option save_bar :=
  if dirty f o then Some {|
    sb_note := match status with AutoSaving => Some ("Saving" ++ sv_ellipsis) | AutoSaved => Some (js "Saved") | AutoIdle => None end;
    sb_button := if saving then "Saving" ++ sv_ellipsis else js "Save Settings"; sb_disabled := saving |}
  else None.

Definition danger_zone_view (orgName : jstr) (sso_provider : option jstr) (s : DangerZone) : danger_view :=
  let isSSO := otruthy sso_provider in {|
  dg_title := "Delete " ++ sv_quoted orgName;
  dg_confirm := dz_confirm s;
  dg_placeholder := orgName;
  dg_password := if isSSO then None else Some (dz_password s);
  dg_sso_note := if isSSO then Some ("You're signed in via " ++ default [] sso_provider ++ ". No password required " ++ [8212%N] ++
                   " confirm by typing the organization name above.") else None;
  dg_error := if truthy (dz_error s) then Some (dz_error s) else None;
  dg_cancel_disabled := dz_deleting s;
  dg_button := if dz_deleting s then "Deleting" ++ sv_ellipsis else js "Delete Organization";
  dg_disabled := dz_disabled orgName isSSO s |}.
End general.

(** ** The state of the automatic save

    The status with the timers that change it: the debounce of an edit, the
    automatic saves that are under way, and the timers that let "Saved" fade.
    The organisation the form is compared with stays the one that was loaded. *)
Record status_sys := StatusSys {
  sy_form : OrgForm; sy_org : OrgView; sy_timer : option OrgForm; sy_saves : list OrgForm; sy_status : autosave_status; sy_fades : nat
}.
Definition status_init (o : OrgView) : status_sys := StatusSys (form_of o) o None [] AutoIdle 0.
Inductive status_step : status_sys → status_sys → Prop :=
| sy_edit f s : f ≠ sy_form s → status_step s (StatusSys f (sy_org s) (arm f (sy_org s)) (sy_saves s) AutoIdle (sy_fades s))
| sy_fire f s : sy_timer s = Some f → status_step s (StatusSys (sy_form s) (sy_org s) None (sy_saves s ++ [f]) AutoSaving (sy_fades s))
| sy_saved s pre f post : sy_saves s = pre ++ f :: post →
    status_step s (StatusSys (sy_form s) (sy_org s) (sy_timer s) (pre ++ post) AutoSaved (S (sy_fades s)))
| sy_failed s pre f post : sy_saves s = pre ++ f :: post →
    status_step s (StatusSys (sy_form s) (sy_org s) (sy_timer s) (pre ++ post) AutoIdle (sy_fades s))
| sy_fade s n : sy_fades s = S n → status_step s (StatusSys (sy_form s) (sy_org s) (sy_timer s) (sy_saves s) AutoIdle n).

(** The bar says that it is saving only while an automatic save is under way. *)
Theorem saving_note_truthful (o : OrgView) (s : status_sys) (saving : bool) (b : save_bar) :
  rtc status_step (status_init o) s → save_bar_of (sy_form s) (sy_org s) saving (sy_status s) = Some b →
  sb_note b = Some ("Saving" ++ sv_ellipsis) → sy_saves s ≠ [].
Proof.
  intros Hr Hb Hn. assert (Hs : sy_status s = AutoSaving).
  { unfold save_bar_of in Hb. destruct (dirty _ _); [|done]. injection Hb as <-. cbn in Hn. by destruct (sy_status s). }
  clear Hb Hn. revert s Hr Hs. apply (rtc_ind_r (λ s, sy_status s = AutoSaving → sy_saves s ≠ [])); [done|].
  intros x y _ Hxy IH. destruct Hxy; cbn; try done. by destruct (sy_saves s).
Qed.

(** "Saved" can be about something else than what the form shows: after an
    edit during a save, it is shown while the edit is neither stored nor being
    stored.  And when a save is through and the note has faded, the bar stays,
    with its button, as if there were something left to save. *)
Theorem saved_note_misleads (o : OrgView) (f1 f2 : OrgForm) :
  dirty f1 o = true → dirty f2 o = true → f2 ≠ f1 → f1 ≠ form_of o →
  (∃ s b, rtc status_step (status_init o) s ∧ save_bar_of (sy_form s) (sy_org s) false (sy_status s) = Some b ∧
     sb_note b = Some (js "Saved") ∧ sy_form s = f2 ∧ sy_saves s = [] ∧ sy_timer s = Some f2) ∧
  (∃ s, rtc status_step (status_init o) s ∧ sy_form s = f1 ∧ sy_saves s = [] ∧ sy_timer s = None ∧ sy_fades s = 0 ∧
     save_bar_of (sy_form s) (sy_org s) false (sy_status s) = Some {| sb_note := None; sb_button := js "Save Settings"; sb_disabled := false |}).
Proof.
  intros H1 H2 Hne Hne1. assert (Hfire : rtc status_step (status_init o) (StatusSys f1 o None [f1] AutoSaving 0)).
  { eapply rtc_l; [by apply (sy_edit f1)|]. cbn. unfold arm. rw H1. eapply rtc_l; [by apply (sy_fire f1)|]. apply rtc_refl. }
  split.
  - eexists (StatusSys f2 o (Some f2) [] AutoSaved 1), _. split; [etrans; [exact Hfire|]|unfold save_bar_of; cbn; by rw H2].
    eapply rtc_l; [by apply (sy_edit f2)|]. cbn. unfold arm. rw H2. eapply rtc_l; [by apply (sy_saved _ [] f1 [])|]. cbn. apply rtc_refl.
  - exists (StatusSys f1 o None [] AutoIdle 0). split; [etrans; [exact Hfire|]|split_and!; [done..|unfold save_bar_of; cbn; by rw H1]].
    eapply rtc_l; [by apply (sy_saved _ [] f1 [])|]. cbn. eapply rtc_l; [by apply (sy_fade _ 0)|]. apply rtc_refl.
Qed.

(** ** The system tab *)

(** A section of the platform settings: its title and its fields with label
    and key; the control of a key is in [platform_controls]. *)
Definition platform_sections : list (jstr * list (jstr * jstr)) := [
  (js "Access", [(js "Allow public registration", js "allow_registration"); (js "Require email verification", js "email_verification")]);
  (js "Password Policy", [(js "Min length", js "password_min_length"); (js "Uppercase", js "password_require_upper");
     (js "Lowercase", js "password_require_lower"); (js "Number", js "password_require_number"); (js "Special char", js "password_require_special")]);
  (js "Account Lockout", [(js "Max failed attempts", js "lockout_max_attempts"); (js "Lockout duration (min)", js "lockout_duration_mins")]);
  (js "Date & Time Defaults", [(js "Timezone", js "timezone"); (js "Date Format", js "date_format"); (js "Time Format", js "time_format")]);
  (js "Quotas & Limits", [(js "Default inbox TTL", js "default_inbox_ttl"); (js "Max inbox TTL", js "max_inbox_ttl");
     (js "Max attachment (MB)", js "max_attachment_size_mb"); (js "Max domains", js "max_domains"); (js "Max teams", js "max_teams");
     (js "Max inboxes/domain", js "max_inboxes_per_domain")]);
  (js "Session Limits", [(js "Max sessions per user", js "max_sessions_per_user")]);
  (js "Demo Mode", [(js "Enable public demo", js "demo_enabled")])].
Record platform_field := { pf_label : jstr; pf_control : option control; pf_value : option json }.
Definition field_view (f : list (jstr * json)) (x : jstr * jstr) : platform_field :=
  {| pf_label := x.1; pf_control := map_get platform_controls x.2; pf_value := map_get f x.2 |}.
Inductive platform_card := PCSkeleton | PCForm (sections : list (jstr * list platform_field)) (note : demo_note) (button : jstr) (disabled : bool).
Definition PlatformSettingsCard (isLoading : bool) (data : option (list (jstr * json))) (s : PlatformCard) : platform_card :=
  if isLoading then PCSkeleton
  else PCForm ((λ x : jstr * list (jstr * jstr), (x.1, field_view (p_form s) <$> x.2)) <$> platform_sections) (demo_view data (p_form s))
         (if p_saving s then "Saving" ++ sv_ellipsis else js "Save Platform Settings") (p_saving s).

Inductive health_body := HBSkeleton (rows : nat) | HBNone (text : jstr) | HBRows (rows : list (jstr * jstr * jstr)).
Inductive health_card := HCError (message : jstr) | HCCard (banner : option health_view) (body : health_body).
Definition HealthSection (isError isLoading : bool) (data : option json) : health_card :=
  if isError then HCError "Failed to check health"
  else HCCard (health_banner data)
    (match (health_services data).1 with
     | [] => if isLoading then HBSkeleton 3 else HBNone "No services detected"
     | l => HBRows (service_row <$> l)
     end).

(** The line below a form with the result of a test. *)
Definition result_line_of (r : option test_result) : option (bool * jstr * option jstr) :=
  match r with
  | Some t => Some (tr_success t, tr_message t, if tr_success t then match tr_time t with Some ((_ :: _) as x) => Some x | _ => None end else None)
  | None => None
  end.
Record mailer_view := {
  mv_fields : list (jstr * jstr); mv_password_hint : jstr; mv_tls : bool; mv_result : option (bool * jstr * option jstr);
  mv_test : jstr * bool; mv_save_disabled : bool
}.
Inductive mailer_card := MCSkeleton | MCForm (v : mailer_view).
Definition MailerConfigSection (isLoading : bool) (data : option MailerConfig) (s : MailerSection) : mailer_card :=
  match m_form s with
  | Some f =>
      if isLoading then MCSkeleton
      else MCForm {|
        mv_fields := [(js "Host", m_host f); (js "Port", m_port f); (js "Username", m_username f); (js "Password", m_password f); (js "From address", m_from f)];
        mv_password_hint := if from_option mc_has_password false data then sv_dots ++ " (unchanged)" else js "optional";
        mv_tls := m_tls f;
        mv_result := result_line_of (m_result s);
        mv_test := (if m_testing s then js "Testing" else js "Test connection", mailer_test_disabled s);
        mv_save_disabled := m_saving s |}
  | None => MCSkeleton
  end.
Record storage_view := {
  stv_endpoint : jstr; stv_bucket : jstr; stv_ssl : bool; stv_access_key : jstr; stv_secret : jstr; stv_secret_hint : jstr; stv_keep_note : bool;
  stv_result : option (bool * jstr * option jstr); stv_test : jstr * bool; stv_save_disabled : bool
}.
Inductive storage_card := SCSkeleton | SCForm (v : storage_view).
Definition StorageConfigSection (isLoading : bool) (data : option StorageConfig) (s : StorageSection) : storage_card :=
  match s_form s with
  | Some f =>
      if isLoading then SCSkeleton
      else
        let has_secret := from_option sc_has_secret_key false data in
        SCForm {|
          stv_endpoint := s_endpoint f; stv_bucket := from_option sc_bucket [] data; stv_ssl := s_useSSL f; stv_access_key := s_accessKey f;
          stv_secret := s_secretKey f;
          stv_secret_hint := if has_secret then sv_dots ++ " (leave blank to keep current)" else js "Enter secret key";
          stv_keep_note := has_secret;
          stv_result := result_line_of (s_result s);
          stv_test := (if s_testing s then "Testing" ++ sv_ellipsis else js "Test Connection", storage_test_disabled s);
          stv_save_disabled := storage_save_disabled s |}
  | None => SCSkeleton
  end.

(** Every field of the platform settings has exactly one control on the card. *)
Theorem sections_cover : (concat platform_sections.*2).*2 ≡ₚ platform_controls.*1.
Proof.
  assert (E : (concat platform_sections.*2).*2 = platform_controls.*1) by (vm_compute; reflexivity). by rw E.
Qed.

(** The note that the demo is active looks at the switch as it is on the card,
    not as it is stored: switching it on shows the note before anything is
    saved. *)
Theorem demo_active_unsaved (d f : list (jstr * json)) :
  map_get d (js "demo_configured") = Some (JBool true) → map_get d (js "demo_enabled") = Some (JBool false) →
  demo_view (Some d) (platform_input "demo_enabled" (IBool true) f) = DemoActive.
Proof.
  intros Hc _. unfold demo_view. change (platform_input "demo_enabled" (IBool true) f) with (map_set f (js "demo_enabled") (JBool true)).
  rw map_get_set_eq. cbn. by rw Hc.
Qed.

(** A secret that is stored is never shown: the fields start empty with the
    data, and what is sent for an untouched field is empty. *)
Theorem secrets_not_shown (d : MailerConfig) (e : StorageConfig) (s : MailerSection) (t : StorageSection) :
  (∀ f, m_form (mailer_sync d s) = Some f → m_password f = []) ∧ (∀ f, s_form (storage_sync e t) = Some f → s_secretKey f = []) ∧
  (∀ v, MailerConfigSection false (Some d) (mailer_sync d s) = MCForm v → (js "Password", []) ∈ mv_fields v).
Proof.
  split_and!; [by intros f [= <-]..|]. intros v [= <-]. cbn. do 3 right. by left.
Qed.
