(* ===== verification/PlatformUpdate.v ===== *)
(** * Saving the platform settings: the card and the server together

    [PlatformSettingsCard] of [web/src/app/settings/page.tsx] sends its form,
    [UpdatePlatformSettings] of [internal/handler/admin.go] checks, limits and
    applies it, [GetPlatformSettings] is what the card loads afterwards.  The
    durations of Go are an interface: reading, printing, and that what is
    printed is read back. *)

From S2P Require Import Prelude Browser Types ApiClient React Hooks Json SettingsGeneral.

(** [time.ParseDuration] and [time.Duration.String], in nanoseconds. *)
Class GoDuration := {
  ParseDuration : jstr → option Z;
  Duration_String : Z → jstr;
  duration_zero d : Duration_String d = js "0s" ↔ d = 0%Z;
  duration_nonempty d : Duration_String d ≠ [];
  parse_printed d : (0 <= d)%Z → ParseDuration (Duration_String d) = Some d
}.

Record PlatformSettings := {
  AllowRegistration : bool; EmailVerification : bool; PasswordMinLength : Z; PasswordRequireUpper : bool; PasswordRequireLower : bool;
  PasswordRequireNum : bool; PasswordRequireSpec : bool; LockoutMaxAttempts : Z; LockoutDurationMins : Z; Timezone : jstr; DateFormat : jstr;
  TimeFormat : jstr; DefaultInboxTTL : jstr; MaxInboxTTL : jstr; MaxAttachmentSizeMB : Z; MaxDomains : Z; MaxTeams : Z;
  MaxInboxesPerDomain : Z; MaxSessionsPerUser : Z; DemoEnabled : bool; DemoConfigured : bool
}.

(** ** JSON

    A field that is absent or [null] keeps its zero value; another type is an
    error.  An [int] takes integers of 64 bits; a number with a fraction or an
    exponent, or one that is too large, is an error too. *)
Definition int64 (n : Z) : bool := (- 2 ^ 63 <=? n)%Z && (n <? 2 ^ 63)%Z.
Definition decode_bool (v : option json) : option bool := match v with None | Some JNull => Some false | Some (JBool b) => Some b | _ => None end.
Definition decode_num (v : option json) : option Z :=
  match v with None | Some JNull => Some 0%Z | Some (JNum n) => if int64 n then Some n else None | _ => None end.
Definition decode_text (v : option json) : option jstr := match v with None | Some JNull => Some [] | Some (JStr s) => Some s | _ => None end.
Definition decode_platform (body : list (jstr * json)) : option PlatformSettings :=
  let get k := map_get body (js k) in
  allow ← decode_bool (get "allow_registration"%string); verification ← decode_bool (get "email_verification"%string);
  minlen ← decode_num (get "password_min_length"%string); upper ← decode_bool (get "password_require_upper"%string);
  lower ← decode_bool (get "password_require_lower"%string); number ← decode_bool (get "password_require_number"%string);
  special ← decode_bool (get "password_require_special"%string); attempts ← decode_num (get "lockout_max_attempts"%string);
  mins ← decode_num (get "lockout_duration_mins"%string); tz ← decode_text (get "timezone"%string);
  df ← decode_text (get "date_format"%string); tf ← decode_text (get "time_format"%string);
  ttl ← decode_text (get "default_inbox_ttl"%string); maxttl ← decode_text (get "max_inbox_ttl"%string);
  mb ← decode_num (get "max_attachment_size_mb"%string); domains ← decode_num (get "max_domains"%string);
  teams ← decode_num (get "max_teams"%string); inboxes ← decode_num (get "max_inboxes_per_domain"%string);
  sessions ← decode_num (get "max_sessions_per_user"%string); demo ← decode_bool (get "demo_enabled"%string);
  configured ← decode_bool (get "demo_configured"%string);
  Some {| AllowRegistration := allow; EmailVerification := verification; PasswordMinLength := minlen; PasswordRequireUpper := upper;
    PasswordRequireLower := lower; PasswordRequireNum := number; PasswordRequireSpec := special; LockoutMaxAttempts := attempts;
    LockoutDurationMins := mins; Timezone := tz; DateFormat := df; TimeFormat := tf; DefaultInboxTTL := ttl; MaxInboxTTL := maxttl;
    MaxAttachmentSizeMB := mb; MaxDomains := domains; MaxTeams := teams; MaxInboxesPerDomain := inboxes; MaxSessionsPerUser := sessions;
    DemoEnabled := demo; DemoConfigured := configured |}.
Definition encode_platform (p : PlatformSettings) : list (jstr * json) := [
  (js "allow_registration", JBool (AllowRegistration p)); (js "email_verification", JBool (EmailVerification p));
  (js "password_min_length", JNum (PasswordMinLength p)); (js "password_require_upper", JBool (PasswordRequireUpper p));
  (js "password_require_lower", JBool (PasswordRequireLower p)); (js "password_require_number", JBool (PasswordRequireNum p));
  (js "password_require_special", JBool (PasswordRequireSpec p)); (js "lockout_max_attempts", JNum (LockoutMaxAttempts p));
  (js "lockout_duration_mins", JNum (LockoutDurationMins p)); (js "timezone", JStr (Timezone p)); (js "date_format", JStr (DateFormat p));
  (js "time_format", JStr (TimeFormat p)); (js "default_inbox_ttl", JStr (DefaultInboxTTL p)); (js "max_inbox_ttl", JStr (MaxInboxTTL p));
  (js "max_attachment_size_mb", JNum (MaxAttachmentSizeMB p)); (js "max_domains", JNum (MaxDomains p)); (js "max_teams", JNum (MaxTeams p));
  (js "max_inboxes_per_domain", JNum (MaxInboxesPerDomain p)); (js "max_sessions_per_user", JNum (MaxSessionsPerUser p));
  (js "demo_enabled", JBool (DemoEnabled p)); (js "demo_configured", JBool (DemoConfigured p))].
Lemma decode_JNum n : int64 n = true → decode_num (Some (JNum n)) = Some n.
Proof. cbn. by intros ->. Qed.
Lemma decode_encode p :
  Forall (λ n, int64 n = true) [PasswordMinLength p; LockoutMaxAttempts p; LockoutDurationMins p; MaxAttachmentSizeMB p; MaxDomains p; MaxTeams p;
    MaxInboxesPerDomain p; MaxSessionsPerUser p] →
  decode_platform (encode_platform p) = Some p.
Proof.
  rw !Forall_cons. intros (H1 & H2 & H3 & H4 & H5 & H6 & H7 & H8 & _). destruct p. cbn in H1, H2, H3, H4, H5, H6, H7, H8.
  cbv -[int64]. by rw H1 H2 H3 H4 H5 H6 H7 H8.
Qed.

Section server.
Context `{!GoDuration}.

(** The running configuration, as far as the two handlers use it. *)
Record config := {
  cfg_allow : bool; cfg_verification : bool; cfg_min_length : Z; cfg_upper : bool; cfg_lower : bool; cfg_number : bool; cfg_special : bool;
  cfg_attempts : Z; cfg_lockout_mins : Z; cfg_timezone : jstr; cfg_date_format : jstr; cfg_time_format : jstr; cfg_default_ttl : Z;
  cfg_max_ttl : Z; cfg_attachment_mb : Z; cfg_domains : Z; cfg_teams : Z; cfg_inboxes : Z; cfg_sessions : Z; cfg_demo : bool;
  cfg_demo_configured : bool
}.
Definition ttl_text (d : Z) : jstr := if Duration_String d =?s "0s" then [] else Duration_String d.
Definition GetPlatformSettings (c : config) : PlatformSettings := {|
  AllowRegistration := cfg_allow c; EmailVerification := cfg_verification c; PasswordMinLength := cfg_min_length c;
  PasswordRequireUpper := cfg_upper c; PasswordRequireLower := cfg_lower c; PasswordRequireNum := cfg_number c;
  PasswordRequireSpec := cfg_special c; LockoutMaxAttempts := cfg_attempts c; LockoutDurationMins := cfg_lockout_mins c;
  Timezone := jor (cfg_timezone c) "UTC"; DateFormat := jor (cfg_date_format c) "YYYY-MM-DD"; TimeFormat := jor (cfg_time_format c) "24h";
  DefaultInboxTTL := ttl_text (cfg_default_ttl c); MaxInboxTTL := ttl_text (cfg_max_ttl c); MaxAttachmentSizeMB := cfg_attachment_mb c;
  MaxDomains := cfg_domains c; MaxTeams := cfg_teams c; MaxInboxesPerDomain := cfg_inboxes c; MaxSessionsPerUser := cfg_sessions c;
  DemoEnabled := cfg_demo c; DemoConfigured := cfg_demo_configured c |}.

(** The checks, in their order; small numbers are raised instead. *)
Definition out_of (lo hi n : Z) : bool := (n <? lo)%Z || (hi <? n)%Z.
Definition number_error (p : PlatformSettings) : option jstr :=
  if (128 <? PasswordMinLength p)%Z then Some (js "password_min_length must not exceed 128")
  else if (100 <? LockoutMaxAttempts p)%Z then Some (js "lockout_max_attempts must not exceed 100")
  else if (1440 <? LockoutDurationMins p)%Z then Some (js "lockout_duration_mins must not exceed 1440 (24 hours)")
  else if out_of 1 100 (MaxSessionsPerUser p) then Some (js "max_sessions_per_user must be between 1 and 100")
  else if out_of 0 100 (MaxAttachmentSizeMB p) then Some (js "max_attachment_size_mb must be between 0 and 100")
  else if out_of 0 10000 (MaxDomains p) then Some (js "max_domains must be between 0 and 10000")
  else if out_of 0 10000 (MaxTeams p) then Some (js "max_teams must be between 0 and 10000")
  else if out_of 0 100000 (MaxInboxesPerDomain p) then Some (js "max_inboxes_per_domain must be between 0 and 100000")
  else None.
Definition YEAR : Z := (365 * 24 * 3600 * 1000000000)%Z.
(** [inl]: refused; [inr None]: the field is empty. *)
Definition read_ttl_field (name text : jstr) : jstr + option Z :=
  if negb (truthy text) then inr None
  else match ParseDuration text with
       | Some d => if out_of 0 YEAR d then inl (name ++ " must be between 0 and 365 days") else inr (Some d)
       | None => inl (name ++ " must be between 0 and 365 days")
       end.
Definition apply_platform (p : PlatformSettings) (default_ttl max_ttl : option Z) (c : config) : config := {|
  cfg_allow := AllowRegistration p; cfg_verification := EmailVerification p; cfg_min_length := Z.max 6 (PasswordMinLength p);
  cfg_upper := PasswordRequireUpper p; cfg_lower := PasswordRequireLower p; cfg_number := PasswordRequireNum p; cfg_special := PasswordRequireSpec p;
  cfg_attempts := Z.max 1 (LockoutMaxAttempts p); cfg_lockout_mins := Z.max 1 (LockoutDurationMins p); cfg_timezone := Timezone p;
  cfg_date_format := DateFormat p; cfg_time_format := TimeFormat p; cfg_default_ttl := default (cfg_default_ttl c) default_ttl;
  cfg_max_ttl := default (cfg_max_ttl c) max_ttl; cfg_attachment_mb := MaxAttachmentSizeMB p; cfg_domains := MaxDomains p; cfg_teams := MaxTeams p;
  cfg_inboxes := MaxInboxesPerDomain p; cfg_sessions := MaxSessionsPerUser p; cfg_demo := DemoEnabled p; cfg_demo_configured := cfg_demo_configured c |}.
(** [None]: the update was accepted. *)
Definition UpdatePlatformSettings (body : list (jstr * json)) (c : config) : option jstr * config :=
  match decode_platform body with
  | None => (Some (js "invalid request body"), c)
  | Some p =>
      match number_error p with
      | Some e => (Some e, c)
      | None =>
          match read_ttl_field "default_inbox_ttl" (DefaultInboxTTL p), read_ttl_field "max_inbox_ttl" (MaxInboxTTL p) with
          | inl e, _ | _, inl e => (Some e, c)
          | inr d, inr m => (None, apply_platform p d m c)
          end
      end
  end.
End server.

(** ** The card and the server

    The card edits its form, saves it, and loads what the server has. *)
Section together.
Context `{!GoDuration}.

Inductive card_step : list (jstr * json) * config → list (jstr * json) * config → Prop :=
| card_input key i f c : offered key i = true → card_step (f, c) (platform_input key i f, c)
| card_save f c : card_step (f, c) (f, (UpdatePlatformSettings f c).2)
| card_load f c : card_step (f, c) (encode_platform (GetPlatformSettings c), c).

Record config_ok (c : config) : Prop := {
  co_numbers : (6 <= cfg_min_length c <= 128 ∧ 1 <= cfg_attempts c <= 100 ∧ 1 <= cfg_lockout_mins c <= 1440 ∧ 1 <= cfg_sessions c <= 100)%Z;
  co_quotas : (0 <= cfg_attachment_mb c <= 100 ∧ 0 <= cfg_domains c <= 10000 ∧ 0 <= cfg_teams c <= 10000 ∧ 0 <= cfg_inboxes c <= 100000)%Z;
  co_ttls : (0 <= cfg_default_ttl c <= YEAR ∧ 0 <= cfg_max_ttl c <= YEAR)%Z;
  co_texts : cfg_timezone c ≠ [] ∧ cfg_date_format c ≠ [] ∧ cfg_time_format c ≠ []
}.
(** The form can be read, and the fields with a choice have one. *)
Definition chosen (f : list (jstr * json)) : Prop :=
  ∀ k options, map_get platform_controls k = Some (Choice options) → ∃ s, map_get f k = Some (JStr s) ∧ s ≠ [].
Record form_ok (f : list (jstr * json)) : Prop := {
  fo_typed : well_typed f;
  fo_configured : ∃ b, decode_bool (map_get f (js "demo_configured")) = Some b;
  fo_chosen : chosen f
}.

Lemma out_of_false lo hi n : out_of lo hi n = false ↔ (lo <= n <= hi)%Z.
Proof. unfold out_of. rw orb_false_iff. lia. Qed.
Lemma number_error_none p : number_error p = None ↔
  (PasswordMinLength p <= 128 ∧ LockoutMaxAttempts p <= 100 ∧ LockoutDurationMins p <= 1440 ∧ 1 <= MaxSessionsPerUser p <= 100 ∧
   0 <= MaxAttachmentSizeMB p <= 100 ∧ 0 <= MaxDomains p <= 10000 ∧ 0 <= MaxTeams p <= 10000 ∧ 0 <= MaxInboxesPerDomain p <= 100000)%Z.
Proof.
  unfold number_error, out_of. split.
  - repeat (case_match; [done|]). bool_to_prop. lia.
  - intros Hb. repeat (case_match; [bool_to_prop; lia|]). done.
Qed.
Lemma read_ttl_ok name text d : read_ttl_field name text = inr d →
  match d with Some n => text ≠ [] ∧ ParseDuration text = Some n ∧ (0 <= n <= YEAR)%Z | None => text = [] end.
Proof.
  unfold read_ttl_field. destruct text as [|x l]; cbn; [by intros [= <-]|]. destruct (ParseDuration _) as [n|] eqn:E; [|done].
  destruct (out_of 0 YEAR n) eqn:Eo; [done|]. intros [= <-]. split; [done|]. split; [done|]. by apply out_of_false.
Qed.
Lemma read_ttl_printed name d : (0 <= d <= YEAR)%Z → ∃ r, read_ttl_field name (ttl_text d) = inr r ∧ default d r = d.
Proof.
  intros Hd. unfold read_ttl_field, ttl_text. destruct (Duration_String d =?s "0s") eqn:E; [by exists None|].
  pose proof (duration_nonempty d) as Hn. destruct (Duration_String d) as [|x l] eqn:Es; [done|]. cbn [truthy negb]. rw -Es parse_printed; [|lia].
  rw (proj2 (out_of_false 0 YEAR d) Hd). by exists (Some d).
Qed.
Lemma jor_nonempty (a b : jstr) : a ≠ [] → jor a b = a.
Proof. by destruct a. Qed.

(** What the server has is stable under loading and saving. *)
Lemma loaded_stable c : config_ok c → UpdatePlatformSettings (encode_platform (GetPlatformSettings c)) c = (None, c).
Proof.
  intros [H1 H2 [H3 H4] (H5 & H6 & H7)]. unfold UpdatePlatformSettings. rw decode_encode; [|unfold int64; cbn; repeat constructor; lia].
  rw (proj2 (number_error_none (GetPlatformSettings c))); [|cbn; lia].
  destruct (read_ttl_printed "default_inbox_ttl" _ H3) as (d & Hd & Ed). destruct (read_ttl_printed "max_inbox_ttl" _ H4) as (m & Hm & Em).
  cbn [DefaultInboxTTL MaxInboxTTL GetPlatformSettings]. rw Hd Hm. f_equal. unfold apply_platform. cbn. rw Ed Em !jor_nonempty // !Z.max_r; [by destruct c|lia..].
Qed.

Lemma typed_field f k c : map_get platform_controls k = Some c → well_typed f → ∃ v, map_get f k = Some v ∧ has_type (control_type c) v.
Proof.
  intros Hk Hf. apply map_get_elem in Hk; [|apply (bool_decide_eq_true_1 (NoDup platform_controls.*1)); vm_compute; reflexivity].
  unfold well_typed in Hf. rewrite -> Forall_forall in Hf. exact (Hf _ Hk).
Qed.
(** The number fields that Go can read into an [int]. *)
Definition whole (v : option json) : Prop := ∃ n, v = Some (JNum n) ∧ (- 2 ^ 63 <= n < 2 ^ 63)%Z.
Definition whole_numbers (f : list (jstr * json)) : Prop :=
  Forall (λ '(k, c), control_type c = TNum → whole (map_get f k)) platform_controls.
Lemma whole_decodes v : whole v → ∃ n, decode_num v = Some n.
Proof. intros (n & -> & Hn). exists n. apply decode_JNum. unfold int64. lia. Qed.
Lemma decodes_whole v n : has_type TNum v → decode_num (Some v) = Some n → whole (Some v).
Proof. destruct v; try done; intros _; cbn. unfold int64. case_match; [|done]. intros _. eexists. split; [done|]. lia. Qed.
Lemma whole_field f k c : map_get platform_controls k = Some c → whole_numbers f → control_type c = TNum → whole (map_get f k).
Proof.
  intros Hk Hf. apply map_get_elem in Hk; [|apply (bool_decide_eq_true_1 (NoDup platform_controls.*1)); vm_compute; reflexivity].
  unfold whole_numbers in Hf. rewrite -> Forall_forall in Hf. exact (Hf _ Hk).
Qed.
Lemma typed_decodes f k c : map_get platform_controls k = Some c → well_typed f → whole_numbers f →
  match control_type c with
  | TBool => ∃ b, decode_bool (map_get f k) = Some b
  | TNum => ∃ n, decode_num (map_get f k) = Some n
  | TStr => ∃ s, decode_text (map_get f k) = Some s
  end.
Proof.
  intros Hk Hf Hw. pose proof (whole_field f k c Hk Hw) as Hn. destruct (typed_field f k c Hk Hf) as (v & E & Hv).
  destruct (control_type c); [|by apply whole_decodes, Hn|]; rw E; destruct v; try done; cbn; by eexists.
Qed.
Ltac read_field f k Hf Hw :=
  let x := fresh "x" in let E := fresh "E" in
  destruct (typed_decodes f (js k) _ eq_refl Hf Hw) as [x E]; cbn [control_type] in E; rw E; cbn [mbind option_bind]; clear E.
Lemma form_decodes f : form_ok f → whole_numbers f → ∃ p, decode_platform f = Some p ∧ Timezone p ≠ [] ∧ DateFormat p ≠ [] ∧ TimeFormat p ≠ [].
Proof.
  intros [Hf [b Hb] Hc] Hw. unfold decode_platform.
  destruct (Hc (js "timezone") _ eq_refl) as (tz & Etz & Htz). destruct (Hc (js "date_format") _ eq_refl) as (df & Edf & Hdf).
  destruct (Hc (js "time_format") _ eq_refl) as (tf & Etf & Htf).
  read_field f "allow_registration"%string Hf Hw. read_field f "email_verification"%string Hf Hw. read_field f "password_min_length"%string Hf Hw.
  read_field f "password_require_upper"%string Hf Hw. read_field f "password_require_lower"%string Hf Hw. read_field f "password_require_number"%string Hf Hw.
  read_field f "password_require_special"%string Hf Hw. read_field f "lockout_max_attempts"%string Hf Hw. read_field f "lockout_duration_mins"%string Hf Hw.
  rw Etz Edf Etf. cbn [decode_text mbind option_bind].
  read_field f "default_inbox_ttl"%string Hf Hw. read_field f "max_inbox_ttl"%string Hf Hw. read_field f "max_attachment_size_mb"%string Hf Hw.
  read_field f "max_domains"%string Hf Hw. read_field f "max_teams"%string Hf Hw. read_field f "max_inboxes_per_domain"%string Hf Hw.
  read_field f "max_sessions_per_user"%string Hf Hw. read_field f "demo_enabled"%string Hf Hw. rw Hb. cbn [mbind option_bind]. by eexists.
Qed.

(** A form that is read has numbers that can be. *)
Lemma decodes_numbers f p : well_typed f → decode_platform f = Some p → whole_numbers f.
Proof.
  intros Hf Hp. unfold decode_platform in Hp. repeat (apply bind_Some in Hp as (? & ? & Hp)).
  assert (Hk : ∀ k c n, map_get platform_controls k = Some c → control_type c = TNum → decode_num (map_get f k) = Some n → whole (map_get f k)).
  { intros k c n Hc Ht Hn. destruct (typed_field f k c Hc Hf) as (v & E & Hv). rw Ht in Hv. rw E in Hn |- *. by eapply decodes_whole. }
  unfold whole_numbers, platform_controls. repeat (constructor; [first [done|intros _; by eapply Hk]|]). constructor.
Qed.
Lemma form_chosen f p : form_ok f → decode_platform f = Some p → Timezone p ≠ [] ∧ DateFormat p ≠ [] ∧ TimeFormat p ≠ [].
Proof.
  intros Hf Hp. pose proof (decodes_numbers f p (fo_typed _ Hf) Hp) as Hw. destruct (form_decodes f Hf Hw) as (p' & Hp' & Hc). by simplify_eq.
Qed.

(** The three fields with a choice. *)
Definition choice_fields : list (jstr * control) := List.filter (λ x, match x.2 with Choice _ => true | _ => false end) platform_controls.
Lemma choice_in k options : map_get platform_controls k = Some (Choice options) → (k, Choice options) ∈ choice_fields.
Proof.
  intros Hk. apply elem_of_List_filter_any. split; [|done]. apply map_get_elem; [|done].
  apply (bool_decide_eq_true_1 (NoDup platform_controls.*1)). vm_compute. reflexivity.
Qed.
Lemma choice_nonempty k options : (k, Choice options) ∈ choice_fields → [] ∉ options.
Proof.
  intros Hk. assert (Hall : forallb (λ x : jstr * control, match x.2 with Choice o => negb (set_has o []) | _ => true end) choice_fields = true) by (vm_compute; reflexivity).
  apply forallb_True_iff in Hall. rewrite -> Forall_forall in Hall. specialize (Hall _ Hk). cbn in Hall.
  apply negb_true_iff, bool_decide_eq_false in Hall. done.
Qed.
Lemma choice_keys k options : (k, Choice options) ∈ choice_fields → k = js "timezone" ∨ k = js "date_format" ∨ k = js "time_format".
Proof.
  intros Hk%(list_elem_of_fmap_2 fst). change (choice_fields.*1) with [js "timezone"; js "date_format"; js "time_format"] in Hk. set_solver.
Qed.
Lemma input_form_ok key i f : offered key i = true → form_ok f → form_ok (platform_input key i f).
Proof.
  intros Hi [Hf Hb Hc]. split; [by apply platform_input_typed|..]; unfold platform_input;
    (destruct (map_get platform_controls key) as [c|] eqn:Ek; [|done]); (destruct (control_value c i) as [v|] eqn:Ev; [|done]).
  - rw map_get_set_ne //. intros ->. done.
  - intros k options Ho. destruct (decide (key = k)) as [<-|Hne]; [|rw map_get_set_ne //; by eapply Hc].
    rw map_get_set_eq. unfold offered in Hi. rw Ho in Ek Hi. injection Ek as <-. destruct i as [| |s]; try done. injection Ev as <-.
    exists s. split; [done|]. intros ->. apply bool_decide_eq_true in Hi. by eapply choice_nonempty; [apply choice_in|].
Qed.
Lemma loaded_form_ok c : config_ok c → form_ok (encode_platform (GetPlatformSettings c)).
Proof.
  intros [_ _ _ (H5 & H6 & H7)]. split.
  - unfold well_typed, platform_controls. repeat (constructor; [eexists; split; [reflexivity|exact I]|]). constructor.
  - by eexists.
  - intros k options Hk. destruct (choice_keys _ _ (choice_in _ _ Hk)) as [->|[->| ->]]; (eexists; split; [reflexivity|]); cbn; by rw jor_nonempty.
Qed.
(** An accepted update, field by field. *)
Lemma update_accepted f c c' p : decode_platform f = Some p → UpdatePlatformSettings f c = (None, c') →
  number_error p = None ∧ ∃ d m, read_ttl_field "default_inbox_ttl" (DefaultInboxTTL p) = inr d ∧
    read_ttl_field "max_inbox_ttl" (MaxInboxTTL p) = inr m ∧ c' = apply_platform p d m c.
Proof.
  unfold UpdatePlatformSettings. intros ->. destruct (number_error p); [done|]. split; [done|].
  destruct (read_ttl_field "default_inbox_ttl" _) as [|d], (read_ttl_field "max_inbox_ttl" _) as [|m]; simplify_eq. by exists d, m.
Qed.
Lemma update_config_ok f c : form_ok f → config_ok c → config_ok (UpdatePlatformSettings f c).2.
Proof.
  intros Hf Hc. destruct (UpdatePlatformSettings f c) as [[e|] c'] eqn:Eu; cbn.
  { unfold UpdatePlatformSettings in Eu. repeat case_match; by simplify_eq. }
  destruct (decode_platform f) as [p|] eqn:Hp; [|unfold UpdatePlatformSettings in Eu; by rw Hp in Eu].
  destruct (form_chosen f p Hf Hp) as (T1 & T2 & T3).
  destruct (update_accepted _ _ _ _ Hp Eu) as (Hn%number_error_none & d & m & Hd%read_ttl_ok & Hm%read_ttl_ok & ->).
  destruct Hc as [H1 H2 [H3 H4] _]. split; cbn; [lia|lia|split; [destruct d; [apply Hd|done]|destruct m; [apply Hm|done]]|done].
Qed.
Lemma card_invariant c0 f c : config_ok c0 → rtc card_step (platform_default, c0) (f, c) → form_ok f ∧ config_ok c.
Proof.
  intros H0' Hr. apply (rtc_ind_r (λ x : list (jstr * json) * config, form_ok x.1 ∧ config_ok x.2) (platform_default, c0)) in Hr; [done|..].
  - split; [|done]. split.
    + unfold well_typed, platform_controls. repeat (constructor; [eexists; split; [reflexivity|exact I]|]). constructor.
    + by eexists.
    + intros k options Hk. destruct (choice_keys _ _ (choice_in _ _ Hk)) as [->|[->| ->]]; (eexists; split; [reflexivity|done]).
  - intros y z _ Hyz [Hf Hc]. destruct Hyz; cbn in *; [by split; [apply input_form_ok|]|by split; [|apply update_config_ok]|by split; [apply loaded_form_ok|]].
Qed.

(** What the card shows after a save agrees with what was sent: every switch,
    every choice, the quotas; numbers that are too small are raised; a
    duration is printed in the server's way, an empty one is not applied. *)
Record shows (p q : PlatformSettings) (c : config) : Prop := {
  sh_switches : (AllowRegistration q, EmailVerification q, PasswordRequireUpper q, PasswordRequireLower q, PasswordRequireNum q, PasswordRequireSpec q, DemoEnabled q) =
    (AllowRegistration p, EmailVerification p, PasswordRequireUpper p, PasswordRequireLower p, PasswordRequireNum p, PasswordRequireSpec p, DemoEnabled p);
  sh_choices : (Timezone q, DateFormat q, TimeFormat q) = (Timezone p, DateFormat p, TimeFormat p);
  sh_quotas : (MaxAttachmentSizeMB q, MaxDomains q, MaxTeams q, MaxInboxesPerDomain q, MaxSessionsPerUser q) =
    (MaxAttachmentSizeMB p, MaxDomains p, MaxTeams p, MaxInboxesPerDomain p, MaxSessionsPerUser p);
  sh_raised : (PasswordMinLength q, LockoutMaxAttempts q, LockoutDurationMins q) =
    (Z.max 6 (PasswordMinLength p), Z.max 1 (LockoutMaxAttempts p), Z.max 1 (LockoutDurationMins p));
  sh_ttl : ∃ d, DefaultInboxTTL q = ttl_text d ∧ (if truthy (DefaultInboxTTL p) then ParseDuration (DefaultInboxTTL p) = Some d else d = cfg_default_ttl c);
  sh_max : ∃ d, MaxInboxTTL q = ttl_text d ∧ (if truthy (MaxInboxTTL p) then ParseDuration (MaxInboxTTL p) = Some d else d = cfg_max_ttl c)
}.

(** C33: whatever was edited, saved and loaded before, the server reads the form of
    the card exactly if every number in it is whole and fits into 64 bits; if
    one does not, it answers that the body is invalid and nothing changes.
    When it accepts a save, what is loaded then shows what was sent (an empty
    duration apart, which is not applied), and saving that again is accepted
    and changes nothing. *)
Theorem platform_save_settles (c0 c : config) (f : list (jstr * json)) :
  config_ok c0 → rtc card_step (platform_default, c0) (f, c) →
  (¬ whole_numbers f → UpdatePlatformSettings f c = (Some (js "invalid request body"), c)) ∧
  (whole_numbers f → ∃ p, decode_platform f = Some p ∧
   ∀ c', UpdatePlatformSettings f c = (None, c') →
     shows p (GetPlatformSettings c') c ∧
     UpdatePlatformSettings (encode_platform (GetPlatformSettings c')) c' = (None, c')).
Proof.
  intros H0' Hr. destruct (card_invariant _ _ _ H0' Hr) as [Hf Hc]. split.
  { intros Hn. unfold UpdatePlatformSettings. destruct (decode_platform f) eqn:Hp; [|done].
    destruct Hn. by eapply decodes_numbers; [apply Hf|]. }
  intros Hw. destruct (form_decodes _ Hf Hw) as (p & Hp & T1 & T2 & T3).
  exists p. split; [done|]. intros c' Eu. split.
  - destruct (update_accepted _ _ _ _ Hp Eu) as (_ & d & m & Hd%read_ttl_ok & Hm%read_ttl_ok & ->).
    split; cbn; rw ?jor_nonempty //; (eexists; split; [reflexivity|]).
    + destruct d as [n|]; [|by rw Hd]. destruct Hd as (Hne & Hd & _). by destruct (DefaultInboxTTL p).
    + destruct m as [n|]; [|by rw Hm]. destruct Hm as (Hne & Hm & _). by destruct (MaxInboxTTL p).
  - apply loaded_stable. pose proof (update_config_ok f c Hf Hc) as Hu. by rw Eu in Hu.
Qed.

(** A duration that is cleared: the save is accepted, and the next load shows
    the old one again. *)
Theorem cleared_ttl_stays (f : list (jstr * json)) (c c' : config) (p : PlatformSettings) :
  decode_platform f = Some p → UpdatePlatformSettings f c = (None, c') → DefaultInboxTTL p = [] → cfg_default_ttl c ≠ 0%Z →
  DefaultInboxTTL (GetPlatformSettings c') = Duration_String (cfg_default_ttl c) ∧ DefaultInboxTTL (GetPlatformSettings c') ≠ [].
Proof.
  intros Hp Eu Ht Hz. destruct (update_accepted _ _ _ _ Hp Eu) as (_ & d & m & Hd & _ & ->). rw Ht in Hd. injection Hd as <-. cbn. unfold ttl_text.
  destruct (Duration_String (cfg_default_ttl c) =?s "0s") eqn:E; [by apply jeqb_eq, duration_zero in E|]. split; [done|apply duration_nonempty].
Qed.
End together.

(** ** An instance: durations written in nanoseconds *)

Definition read_ns (s : jstr) : option Z :=
  match reverse s with
  | 115%N :: 110%N :: rest => let d := reverse rest in if truthy d && forallb is_digit d then Some (Z.of_N (digits_value d)) else None
  | _ => if s =?s "0s" then Some 0%Z else None
  end.
Definition print_ns (d : Z) : jstr := if (d =? 0)%Z then js "0s" else show d ++ "ns".
Lemma print_ns_zero d : print_ns d = js "0s" ↔ d = 0%Z.
Proof.
  unfold print_ns. destruct (Z.eqb_spec d 0) as [->|Hd]; [done|]. split; [|done]. intros E. apply (f_equal reverse) in E.
  rewrite reverse_app in E. by change (reverse (js "ns")) with [115; 110]%N in E.
Qed.
Lemma read_print_ns d : (0 <= d)%Z → read_ns (print_ns d) = Some d.
Proof.
  intros Hd. unfold print_ns. destruct (Z.eqb_spec d 0) as [->|Hn]; [done|]. unfold read_ns. rewrite reverse_app.
  change (reverse (js "ns")) with [115; 110]%N. cbn [app]. cbv zeta. rw reverse_involutive. unfold show. destruct (Z.ltb_spec d 0); [lia|].
  pose proof (dec_nonempty (Z.to_N d)). assert (Ht : truthy (dec (Z.to_N d)) = true) by (by destruct (dec (Z.to_N d))).
  rw Ht (proj2 (forallb_True_iff _ _) (dec_digits (Z.to_N d))) digits_value_dec. cbn. f_equal. lia.
Qed.
#[refine] Definition NsDuration : GoDuration := {| ParseDuration := read_ns; Duration_String := print_ns |}.
Proof.
  - apply print_ns_zero.
  - intros d. unfold print_ns. destruct (d =? 0)%Z; [done|]. destruct (show d); done.
  - apply read_print_ns.
Defined.

Definition a_config : config := {|
  cfg_allow := true; cfg_verification := true; cfg_min_length := 8; cfg_upper := true; cfg_lower := true; cfg_number := true; cfg_special := true;
  cfg_attempts := 5; cfg_lockout_mins := 15; cfg_timezone := "UTC"; cfg_date_format := "YYYY-MM-DD"; cfg_time_format := "24h"; cfg_default_ttl := 3600;
  cfg_max_ttl := 0; cfg_attachment_mb := 10; cfg_domains := 5; cfg_teams := 5; cfg_inboxes := 100; cfg_sessions := 5; cfg_demo := false;
  cfg_demo_configured := false |}.
Definition loaded_form : list (jstr * json) := encode_platform (GetPlatformSettings (H := NsDuration) a_config).
Definition edited_form : list (jstr * json) := platform_input "password_min_length" (INum (Some (Int 3))) loaded_form.
(** A fraction is taken by the box and kept; the whole save is refused. *)
Definition fraction_form : list (jstr * json) := platform_input "max_sessions_per_user" (INum (Some (Dec (Fraction false 2 [D5])))) edited_form.
Lemma platform_save_settles_witness :
  (UpdatePlatformSettings (H := NsDuration) edited_form a_config).1 = None ∧
  (∃ p, decode_platform edited_form = Some p ∧ ∀ c', UpdatePlatformSettings (H := NsDuration) edited_form a_config = (None, c') →
    shows (H := NsDuration) p (GetPlatformSettings (H := NsDuration) c') a_config) ∧
  UpdatePlatformSettings (H := NsDuration) fraction_form a_config = (Some (js "invalid request body"), a_config).
Proof.
  assert (Hok : config_ok a_config) by (split; cbn; [lia|lia|unfold YEAR; lia|done]).
  assert (Hr : rtc (card_step (H := NsDuration)) (platform_default, a_config) (edited_form, a_config)).
  { eapply rtc_l; [apply card_load|]. eapply rtc_l; [by apply (card_input "password_min_length" (INum (Some (Int 3))))|]. apply rtc_refl. }
  split; [by vm_compute|]. split.
  - destruct (platform_save_settles (H := NsDuration) a_config a_config edited_form Hok Hr) as [_ Hs].
    destruct Hs as (p & Hp & Hs).
    + unfold whole_numbers, platform_controls. repeat (constructor; [first [done|intros _; eexists; split; [vm_compute; reflexivity|lia]]|]). constructor.
    + exists p. split; [exact Hp|]. intros c' Hc'. apply (Hs c' Hc').
  - apply (platform_save_settles (H := NsDuration) a_config a_config fraction_form Hok).
    + eapply rtc_r; [exact Hr|]. by apply (card_input "max_sessions_per_user" (INum (Some (Dec (Fraction false 2 [D5]))))).
    + intros Hw. destruct (whole_field fraction_form (js "max_sessions_per_user") _ eq_refl Hw eq_refl) as (n & E & _). by vm_compute in E.
Defined.
