(* ===== verification/AdminUpdate.v ===== *)
(** * Saving a user: the dialog and the server together

    [web/src/components/settings/unified-users-tab.tsx] sends the changed
    fields of a user; [UpdateUser] of [internal/handler/admin.go] with
    [AdminUpdateUser] and [SetAuthMethodLock] of
    [internal/service/auth_service.go] reads and stores them.  The two are
    composed here: what is stored after a save, and what is not although the
    save is reported as done.  The repository stores what it is given. *)

From S2P Require Import Prelude Browser Types ApiClient React Hooks PasswordPolicy ApiKeys UsersTab.

(** ** The server *)

(** The bytes of a string in UTF-8; a lone surrogate becomes U+FFFD. *)
Fixpoint utf8_bytes (s : jstr) : nat :=
  match s with
  | [] => 0
  | c :: t =>
      if in_range 55296 56319 c
      then match t with
           | d :: t' => if in_range 56320 57343 d then 4 + utf8_bytes t' else 3 + utf8_bytes t
           | [] => 3
           end
      else utf8_len c + utf8_bytes t
  end.

(** What the server keeps of a user and the handler looks at. *)
Record account := Account { ac_user : User; ac_identities : nat; ac_has_password : bool }.

(** The input of the handler; decoding leaves a pointer [nil] for a field that
    is absent and for one that is [null], and fails on another type. *)
Record update_input := {
  in_DisplayName : option jstr; in_IsSystemAdmin : option bool; in_EmailVerified : option bool;
  in_AuthMethodLock : option jstr; in_MaxSessions : option Z
}.
Definition decode_ptr {A} (read : json → option A) (v : option json) : option (option A) :=
  match v with None | Some JNull => Some None | Some j => Some <$> read j end.
Definition read_str (j : json) : option jstr := match j with JStr s => Some s | _ => None end.
Definition read_bool (j : json) : option bool := match j with JBool b => Some b | _ => None end.
Definition read_int (j : json) : option Z := match j with JNum n => Some n | _ => None end.
Definition decode_input (body : list (jstr * json)) : option update_input :=
  match decode_ptr read_str (map_get body "display_name"), decode_ptr read_bool (map_get body "is_system_admin"),
        decode_ptr read_bool (map_get body "email_verified"), decode_ptr read_str (map_get body "auth_method_lock"),
        decode_ptr read_int (map_get body "max_sessions") with
  | Some n, Some a, Some v, Some l, Some m =>
      Some {| in_DisplayName := n; in_IsSystemAdmin := a; in_EmailVerified := v; in_AuthMethodLock := l; in_MaxSessions := m |}
  | _, _, _, _, _ => None
  end.

Definition ValidateDisplayName (name : jstr) : option jstr :=
  if (utf8_bytes name =? 0)%nat then Some (js "display name is required")
  else if (200 <? utf8_bytes name)%nat then Some (js "display name must not exceed 200 characters") else None.

Definition with_fields (name : jstr) (admin verified : bool) (lock : option jstr) (sessions : option (option Z)) (u : User) : User := {|
  User_id := User_id u; User_email := User_email u; User_display_name := name; User_sso_provider := User_sso_provider u;
  User_is_system_admin := admin; User_email_verified := verified; User_timezone := User_timezone u;
  User_date_format := User_date_format u; User_time_format := User_time_format u; User_auth_method_lock := lock;
  User_max_sessions := sessions; User_last_login_at := User_last_login_at u; User_created_at := User_created_at u;
  User_updated_at := User_updated_at u |}.
Definition AdminUpdateUser (i : update_input) (u : User) : User :=
  with_fields (default (User_display_name u) (in_DisplayName i)) (default (User_is_system_admin u) (in_IsSystemAdmin i))
    (default (User_email_verified u) (in_EmailVerified i)) (User_auth_method_lock u)
    (match in_MaxSessions i with Some n => Some (Some n) | None => User_max_sessions u end) u.

Definition invalid_lock : jstr := "invalid auth_method_lock value: must be null, " ++ [34%N] ++ "sso" ++ [34%N] ++ ", or " ++ [34%N] ++ "password" ++ [34%N].
Definition SetAuthMethodLock (lock : jstr) (a : account) : jstr + User :=
  if negb (lock =?s "sso") && negb (lock =?s "password") then inl invalid_lock
  else if (lock =?s "sso") && (ac_identities a =? 0)%nat then inl (js "cannot lock to SSO: user has no linked SSO identity")
  else if (lock =?s "password") && negb (ac_has_password a) then inl (js "cannot lock to password: user has no password set")
  else let u := ac_user a in
    inr (with_fields (User_display_name u) (User_is_system_admin u) (User_email_verified u) (Some lock) (User_max_sessions u) u).

Inductive reply := BadRequest (message : jstr) | Updated (u : User).
Definition with_user (u : User) (a : account) : account := Account u (ac_identities a) (ac_has_password a).

(** The handler, with the account it leaves; [self]: the caller is the user. *)
Definition UpdateUser (self : bool) (body : list (jstr * json)) (a : account) : reply * account :=
  match decode_input body with
  | None => (BadRequest "invalid request body", a)
  | Some i =>
      if self && bool_decide (in_IsSystemAdmin i = Some false) then (BadRequest "cannot remove your own system admin status", a)
      else match in_DisplayName i ≫= ValidateDisplayName with
      | Some e => (BadRequest e, a)
      | None =>
          if match in_MaxSessions i with Some n => (n <? 1)%Z || (100 <? n)%Z | None => false end
          then (BadRequest "max_sessions must be between 1 and 100", a)
          else
            let a1 := with_user (AdminUpdateUser i (ac_user a)) a in
            match in_AuthMethodLock i with
            | None => (Updated (ac_user a1), a1)
            | Some lock => match SetAuthMethodLock lock a1 with
                           | inl e => (BadRequest e, a1)
                           | inr u => (Updated u, with_user u a1)
                           end
            end
      end
  end.

(** ** What the server reads of a save *)
Section together.
Context (other_number : jstr → json).

Lemma get_opt (b : bool) (k : jstr) (v : json) l x :
  map_get ((if b then [(k, v)] else []) ++ l) x = if b && bool_decide (x = k) then Some v else map_get l x.
Proof. destruct b; [|done]. cbn. by case_decide; case_bool_decide. Qed.
Lemma get_last (b : bool) (k : jstr) (v : json) x :
  map_get (if b then [(k, v)] else []) x = if b && bool_decide (x = k) then Some v else None.
Proof. destruct b; [|done]. cbn. by case_decide; case_bool_decide. Qed.

Definition changed {A} (b : bool) (v : A) : option A := if b then Some v else None.
Lemma admin_patch_get (u : User) (s : UserDetail) :
  let p := admin_patch other_number u s in
  map_get p "display_name" = changed (negb (ud_displayName s =?s User_display_name u)) (JStr (ud_displayName s)) ∧
  map_get p "is_system_admin" = changed (negb (eqb (isAdminFlag s) (User_is_system_admin u))) (JBool (isAdminFlag s)) ∧
  map_get p "email_verified" = changed (negb (eqb (verified s) (User_email_verified u))) (JBool (verified s)) ∧
  map_get p "auth_method_lock" = changed (negb (authMethodLock s =?s lock_of u))
    (if authMethodLock s =?s "any" then JNull else JStr (authMethodLock s)) ∧
  map_get p "max_sessions" = changed (negb (maxSessions s =?s max_sessions_of u))
    (if truthy (maxSessions s) then Number other_number (maxSessions s) else JNull).
Proof.
  cbv zeta. unfold admin_patch. rw !get_opt !get_last. unfold changed.
  repeat match goal with |- context [@bool_decide (?a = ?b) ?d] =>
    let c := eval vm_compute in (@bool_decide (a = b) d) in change (@bool_decide (a = b) d) with c end.
  rw !andb_true_r !andb_false_r. cbn [negb]. split_and!; repeat case_match; done.
Qed.

Lemma Number_show (n : Z) : (0 <= n)%Z → truthy (show n) = true ∧ Number other_number (show n) = JNum n.
Proof.
  intros Hn. unfold Number, show. destruct (Z.ltb_spec n 0); [lia|].
  pose proof (dec_nonempty (Z.to_N n)) as Hne.
  assert (Ht : truthy (dec (Z.to_N n)) = true) by (by destruct (dec (Z.to_N n))).
  rw Ht (proj2 (forallb_True_iff _ _) (dec_digits (Z.to_N n))) digits_value_dec. split; [done|]. cbn. f_equal. lia.
Qed.

(** A form the server has no reason to refuse: a name of 1 to 200 bytes, a
    limit of 1 to 100 or none, a lock the user can sign in with or none; and
    nobody gives up their own rights. *)
Record acceptable (self : bool) (a : account) (s : UserDetail) : Prop := {
  ok_name : ud_displayName s = User_display_name (ac_user a) ∨ 1 <= utf8_bytes (ud_displayName s) <= 200;
  ok_self : self = true → isAdminFlag s = false → User_is_system_admin (ac_user a) = false;
  ok_limit : maxSessions s = max_sessions_of (ac_user a) ∨ maxSessions s = [] ∨ ∃ n, (1 <= n <= 100)%Z ∧ maxSessions s = show n;
  ok_lock : authMethodLock s = lock_of (ac_user a) ∨ authMethodLock s = js "any" ∨
    authMethodLock s = js "sso" ∧ ac_identities a ≠ 0 ∨ authMethodLock s = js "password" ∧ ac_has_password a = true
}.

(** The fields that the server finds in a save. *)
Definition sent_lock (u : User) (s : UserDetail) : option jstr :=
  changed (negb (authMethodLock s =?s lock_of u) && negb (authMethodLock s =?s "any")) (authMethodLock s).
Lemma sent_limit (self : bool) (a : account) (s : UserDetail) :
  acceptable self a s → let u := ac_user a in
  ∃ m, decode_ptr read_int (map_get (admin_patch other_number u s) "max_sessions") = Some m ∧
    match m with
    | Some n => (1 <= n <= 100)%Z ∧ maxSessions s = show n
    | None => maxSessions s = max_sessions_of u ∨ maxSessions s = []
    end.
Proof.
  intros Ha u. destruct (admin_patch_get u s) as (_ & _ & _ & _ & ->).
  destruct (maxSessions s =?s max_sessions_of u) eqn:E; cbn [negb changed]; [apply jeqb_eq in E; exists None; auto|].
  destruct (ok_limit _ _ _ Ha) as [?%jeqb_eq|[En|(n & Hn & En)]]; [by unfold u in E; congruence|rw En; exists None; auto|].
  destruct (Number_show n) as [Ht HN]; [lia|]. rw En Ht HN. by exists (Some n).
Qed.
Lemma decode_admin_patch (self : bool) (a : account) (s : UserDetail) :
  acceptable self a s → let u := ac_user a in
  ∃ m, decode_input (admin_patch other_number u s) = Some {|
      in_DisplayName := changed (negb (ud_displayName s =?s User_display_name u)) (ud_displayName s);
      in_IsSystemAdmin := changed (negb (eqb (isAdminFlag s) (User_is_system_admin u))) (isAdminFlag s);
      in_EmailVerified := changed (negb (eqb (verified s) (User_email_verified u))) (verified s);
      in_AuthMethodLock := sent_lock u s; in_MaxSessions := m |} ∧
    match m with
    | Some n => (1 <= n <= 100)%Z ∧ maxSessions s = show n
    | None => maxSessions s = max_sessions_of u ∨ maxSessions s = []
    end.
Proof.
  intros Ha u. destruct (sent_limit _ _ _ Ha) as (m & Em & Hm). exists m. split; [|done].
  destruct (admin_patch_get u s) as (E1 & E2 & E3 & E4 & _). unfold decode_input, sent_lock. rw E1 E2 E3 E4 Em.
  destruct (negb (ud_displayName s =?s _)), (negb (eqb (isAdminFlag s) _)), (negb (eqb (verified s) _)), (negb (authMethodLock s =?s lock_of u)); cbn [changed andb];
    destruct (authMethodLock s =?s "any"); done.
Qed.
Lemma changed_default {A} (b : bool) (x y : A) : (b = false → x = y) → default y (changed b x) = x.
Proof. destruct b; cbn; [done|]. intros H. by rw H. Qed.
Lemma jeqb_false_changed (x y : jstr) : negb (x =?s y) = false → x = y.
Proof. intros H%negb_false_iff. by apply jeqb_eq. Qed.
Lemma eqb_false_changed (x y : bool) : negb (eqb x y) = false → x = y.
Proof. by destruct x, y. Qed.

Lemma set_lock_ok (self : bool) (a : account) (s : UserDetail) lock u' :
  acceptable self a s → sent_lock (ac_user a) s = Some lock →
  lock = authMethodLock s ∧ SetAuthMethodLock lock (with_user u' a) =
    inr (with_fields (User_display_name u') (User_is_system_admin u') (User_email_verified u') (Some lock) (User_max_sessions u') u').
Proof.
  intros Ha. unfold sent_lock. destruct (authMethodLock s =?s lock_of _) eqn:E1; [done|]. destruct (authMethodLock s =?s "any") eqn:E2; [done|].
  cbn. intros [= <-]. split; [done|]. unfold SetAuthMethodLock, with_user. cbn [ac_identities ac_has_password ac_user].
  destruct (ok_lock _ _ _ Ha) as [?%jeqb_eq|[?%jeqb_eq|[[-> Hi]|[-> ->]]]]; [congruence..| |done].
  cbn. by destruct (ac_identities a).
Qed.
Lemma sent_lock_none (u : User) (s : UserDetail) : sent_lock u s = None → authMethodLock s = lock_of u ∨ authMethodLock s = js "any".
Proof.
  unfold sent_lock. destruct (authMethodLock s =?s lock_of u) eqn:E1; [left; by apply jeqb_eq|].
  destruct (authMethodLock s =?s "any") eqn:E2; [right; by apply jeqb_eq|done].
Qed.

(** The handler up to the lock. *)
Lemma update_until_lock (self : bool) (a b : account) (s : UserDetail) :
  acceptable self a s → ac_user b = ac_user a →
  let u := ac_user a in
  ∃ u1, UpdateUser self (admin_patch other_number u s) b =
      match sent_lock u s with
      | None => (Updated u1, with_user u1 b)
      | Some lock => match SetAuthMethodLock lock (with_user u1 b) with
                     | inl e => (BadRequest e, with_user u1 b)
                     | inr u' => (Updated u', with_user u' b)
                     end
      end ∧
    User_display_name u1 = ud_displayName s ∧ User_is_system_admin u1 = isAdminFlag s ∧ User_email_verified u1 = verified s ∧
    lock_of u1 = lock_of u ∧ max_sessions_of u1 = (if truthy (maxSessions s) then maxSessions s else max_sessions_of u).
Proof.
  intros Ha Eb u. destruct (decode_admin_patch _ _ _ Ha) as (m & Hd & Hm). unfold UpdateUser. fold u in Hd, Hm, Eb. rw Hd.
  cbn [in_IsSystemAdmin in_DisplayName in_MaxSessions in_AuthMethodLock].
  assert (H1 : self && bool_decide (changed (negb (eqb (isAdminFlag s) (User_is_system_admin u))) (isAdminFlag s) = Some false) = false).
  { destruct self; [|done]. case_bool_decide as Hc; [|done]. unfold changed in Hc. pose proof (ok_self _ _ _ Ha eq_refl) as Hs.
    fold u in Hs. destruct (isAdminFlag s), (User_is_system_admin u); try done. by specialize (Hs eq_refl). }
  assert (H2 : changed (negb (ud_displayName s =?s User_display_name u)) (ud_displayName s) ≫= ValidateDisplayName = None).
  { destruct (ud_displayName s =?s User_display_name u) eqn:E; [done|]. cbn. unfold ValidateDisplayName.
    destruct (ok_name _ _ _ Ha) as [?%jeqb_eq|Hn]; [unfold u in E; congruence|]. destruct (Nat.eqb_spec (utf8_bytes (ud_displayName s)) 0); [lia|].
    by destruct (Nat.ltb_spec 200 (utf8_bytes (ud_displayName s))); [lia|]. }
  assert (H3 : match m with Some n => (n <? 1)%Z || (100 <? n)%Z | None => false end = false).
  { destruct m as [n|]; [|done]. destruct Hm. apply orb_false_iff. lia. }
  rw H1 H2 H3 Eb. eexists. split; [reflexivity|]. unfold AdminUpdateUser. cbn.
  rw !changed_default; [|apply eqb_false_changed|apply eqb_false_changed|apply jeqb_false_changed].
  split_and!; [done..|]. unfold max_sessions_of. cbn. destruct m as [n|]; cbn.
  - destruct Hm as [? ->]. by rw (proj1 (Number_show n ltac:(lia))).
  - destruct Hm as [-> | ->]; [|done]. unfold max_sessions_of. by destruct (from_option show [] (mjoin (User_max_sessions u))).
Qed.

(** C32: saving an acceptable form as an administrator succeeds and stores the
    name, the two switches, and a lock and a limit that are set.  A lock that
    is taken away and a limit that is cleared are not stored: the account
    keeps the ones it had. *)
Theorem admin_save_stored (self : bool) (a : account) (s : UserDetail) :
  acceptable self a s →
  let u := ac_user a in
  ∃ u', UpdateUser self (admin_patch other_number u s) a = (Updated u', with_user u' a) ∧
    User_display_name u' = ud_displayName s ∧ User_is_system_admin u' = isAdminFlag s ∧ User_email_verified u' = verified s ∧
    lock_of u' = (if authMethodLock s =?s "any" then lock_of u else authMethodLock s) ∧
    max_sessions_of u' = (if truthy (maxSessions s) then maxSessions s else max_sessions_of u).
Proof.
  intros Ha u. destruct (update_until_lock self a a s Ha eq_refl) as (u1 & E & E1 & E2 & E3 & E4 & E5). fold u in E, E4, E5. rw E.
  destruct (sent_lock u s) as [lock|] eqn:El.
  - destruct (set_lock_ok _ _ _ _ u1 Ha El) as [-> ->]. eexists. split; [done|]. cbn. split_and!; [done..| |done].
    unfold sent_lock in El. destruct (authMethodLock s =?s "any"); [by rw andb_false_r in El|done].
  - exists u1. split; [done|]. split_and!; [done..| |done]. rw E4. destruct (sent_lock_none _ _ El) as [-> | ->]; [|done].
    by destruct (lock_of u =?s "any").
Qed.

(** Taking the lock away, the only edit: the dialog can be saved, the server
    answers that the user was updated, and nothing has changed. *)
Theorem lock_reset_lost (self : bool) (a : account) (s : UserDetail) :
  let u := ac_user a in
  ud_displayName s = User_display_name u → isAdminFlag s = User_is_system_admin u → verified s = User_email_verified u →
  maxSessions s = max_sessions_of u → authMethodLock s = js "any" → lock_of u ≠ js "any" →
  ud_dirty u s = true ∧ (UpdateUser self (admin_patch other_number u s) a).1 = Updated u ∧ ac_user (UpdateUser self (admin_patch other_number u s) a).2 = u.
Proof.
  intros u H1 H2 H3 H4 H5 Hl. assert (E : authMethodLock s =?s lock_of u = false) by (apply jeqb_neq; congruence).
  split; [unfold ud_dirty; by rw E !orb_true_r|]. unfold admin_patch. rw H1 H2 H3 H4 E !jeqb_refl !eqb_reflx H5. unfold u. by destruct self, a as [[] ? ?].
Qed.

(** When the lock is refused the other edits of the same save are stored all
    the same, and the save is reported as failed. *)
Theorem refused_lock_half_stored (a : account) (s : UserDetail) :
  let u := ac_user a in
  acceptable false (Account u 1 true) s → authMethodLock s = js "sso" → lock_of u ≠ js "sso" → ac_identities a = 0 →
  ∃ m u', UpdateUser false (admin_patch other_number u s) a = (BadRequest m, with_user u' a) ∧ User_display_name u' = ud_displayName s ∧ lock_of u' = lock_of u.
Proof.
  intros u Ha Hl Hne Hi. destruct (update_until_lock false (Account u 1 true) a s Ha eq_refl) as (u1 & E & E1 & _ & _ & E4 & _).
  cbn [ac_user] in E, E4. rw E. unfold sent_lock. rw Hl (proj2 (jeqb_neq _ _) (not_eq_sym Hne)). unfold changed, SetAuthMethodLock, with_user. cbn [ac_identities]. rw Hi. exists (js "cannot lock to SSO: user has no linked SSO identity"), u1. by destruct a.
Qed.
End together.

(** ** Examples *)

Definition an_account : account := Account (a_user "7" "Ann") 1 true.
Definition edited : UserDetail := {|
  ud_open := true; ud_displayName := "Anna"; isAdminFlag := false; verified := true; ud_timezone := []; ud_dateFormat := [];
  ud_timeFormat := []; ud_saving := false; ud_copied := false; authMethodLock := "sso"; migratePasswordOpen := false;
  migratePassword := []; migrating := false; maxSessions := "5" |}.
Lemma admin_save_stored_witness :
  acceptable false an_account edited ∧
  ∃ u', UpdateUser false (admin_patch (λ _, JNull) (ac_user an_account) edited) an_account = (Updated u', with_user u' an_account) ∧
    User_display_name u' = js "Anna" ∧ lock_of u' = js "sso" ∧ max_sessions_of u' = js "5".
Proof.
  assert (Ha : acceptable false an_account edited).
  { split; cbn; [right; vm_compute; lia|done|right; right; exists 5%Z; split; [lia|done]|auto]. }
  split; [exact Ha|]. destruct (admin_save_stored (λ _, JNull) false an_account edited Ha) as (u' & E & E1 & _ & _ & E4 & E5).
  exists u'. auto.
Defined.
