(* ===== verification/UsersView.v ===== *)
(** * The users tab: what it shows and offers

    The views of [web/src/components/settings/unified-users-tab.tsx] over the
    state of [UsersTab]: the page, the dialog of a user with its controls, and
    the dialogs that invite.  The controls of a user's dialog are events, so
    that what can be reached through them, by whom, can be stated. *)

From S2P Require Import Prelude Regex Browser Types ApiClient React OrgStore Hooks ApiKeys RolesTab InboxPage SignIn UsersTab.
Import Hooks.Small.

Definition u_dash : jstr := [8212%N].
Definition plural (n : Z) (s : jstr) : jstr := show n ++ " " ++ s ++ (if (n =? 1)%Z then [] else js "s").

(** ** The page *)

(** A button of the summary, and whether its filter is on. *)
Record summary_button := { sb_text : jstr; sb_on : bool; sb_event : option users_event }.
Inductive users_table := UTSkeleton (rows : nat) | UTRows (columns : list jstr) (rows : list user_row) (empty : option jstr).
Record users_page := {
  up_invite : bool; up_summary : list summary_button; up_clear : bool; up_filter_badge : option jstr; up_results : jstr;
  up_table : users_table; up_pages : option pagination; up_pending : option (nat * list invite_row)
}.
Inductive users_screen := UError (message : jstr) | UPage (p : users_page).

Section page.
Context `{!JSRuntime}.

(** [filter.replace("-", " ")]. *)
Definition filter_name (f : user_filter) : jstr :=
  match f with FAll => "all" | FMembers => "members" | FNonMembers => "non members" | FUnverified => "unverified" | FAdmin => "admin" end.
Definition filter_button (text : jstr) (f : user_filter) (s : UsersState) : summary_button :=
  {| sb_text := text; sb_on := bool_decide (u_filter s = f); sb_event := Some (ClickFilter f) |}.
Definition users_summary (isAdmin : bool) (total pending : Z) (l : list MergedUser) (s : UsersState) : list summary_button :=
  [filter_button (plural total "user") FAll s; filter_button (plural (Z.of_nat (memberCount l)) "member") FMembers s] ++
  (if isAdmin then [filter_button (show_nat (nonMemberCount l) ++ " no org") FNonMembers s] else []) ++
  [{| sb_text := show pending ++ " pending"; sb_on := false; sb_event := None |}] ++
  (if isAdmin then [filter_button (show_nat (unverifiedCount l) ++ " unverified") FUnverified s] else []).
Definition users_columns (isAdmin : bool) : list jstr :=
  [js "User"; js "Org Role"] ++ (if isAdmin then [js "Auth"; js "Status"] else []) ++ [js "Last Active"; js "Joined"; js "Actions"].

(** [membersData.total_pages ?? Math.ceil((membersData.total ?? 0) / 100)]. *)
Definition member_pages (total_pages total : option Z) : Z :=
  match total_pages with Some n => n | None => (- (- default 0 total / 100))%Z end.

Record users_data := {
  ux_isAdmin : bool; ux_canManageMembers : bool; ux_canInvite : bool; ux_me : option jstr;
  ux_users : option (PaginatedResponse User); ux_usersLoading : bool; ux_usersError : bool;
  ux_members : option (list Membership); ux_members_total : option Z; ux_members_pages : option Z;
  ux_membersLoading : bool; ux_membersError : bool; ux_invites : option (list Invite)
}.
Definition ux_list (d : users_data) : list MergedUser :=
  allUsers (ux_isAdmin d) (from_option PaginatedResponse_data [] (ux_users d)) (default [] (ux_members d)).

Definition UnifiedUsersTab (now : Z) (shortDate : jstr → jstr) (roles : Roles) (d : users_data) (resending : jstr → bool) (s : UsersState) : users_screen :=
  if (if ux_isAdmin d then ux_usersError d else ux_membersError d) then UError "Failed to load users"
  else
    let l := ux_list d in
    let shown := filtered s l in
    let filtering := truthy (u_search s) || negb (bool_decide (u_filter s = FAll)) in
    let members := default [] (ux_members d) in
    let pending := default [] (ux_invites d) in
    UPage {|
      up_invite := ux_canInvite d;
      up_summary := users_summary (ux_isAdmin d)
        (if ux_isAdmin d then from_option PaginatedResponse_total 0%Z (ux_users d) else Z.of_nat (length members)) (Z.of_nat (length pending)) l s;
      up_clear := filtering;
      up_filter_badge := if bool_decide (u_filter s = FAll) then None else Some (filter_name (u_filter s));
      up_results := plural (Z.of_nat (length shown)) "result";
      up_table := if (if ux_isAdmin d then ux_usersLoading d else ux_membersLoading d) || ux_membersLoading d then UTSkeleton 6
        else UTRows (users_columns (ux_isAdmin d))
          (users_row now roles (ux_me d) (ux_isAdmin d) (ux_canManageMembers d) (ux_canInvite d) <$> shown)
          (match shown with
           | [] => Some (if filtering then js "No matching users" else js "No users yet")
           | _ => None
           end);
      up_pages := if ux_isAdmin d
        then match ux_users d with Some r => Pagination (u_page s) (PaginatedResponse_total_pages r) | None => None end
        else match ux_members d with Some _ => Pagination (membersPage s) (member_pages (ux_members_pages d) (ux_members_total d)) | None => None end;
      up_pending := match pending with
        | [] => None
        | _ => Some (length pending, (λ inv, PendingInviteRow shortDate now inv (resending (Invite_id inv))) <$> pending)
        end
    |}.
End page.

(** ** The dialog of a user *)

Inductive detail_event :=
| EditName (v : jstr) | EditTimezone (v : jstr) | PickDateFormat (v : jstr) | PickTimeFormat (v : jstr)
| SwitchVerified (b : bool) | SwitchAdmin (b : bool) | PickLock (v : jstr) | EditSessions (v : jstr)
| OpenMigration | EditMigration (v : jstr) | CancelMigration.
Definition DATE_FORMATS : list (jstr * jstr) := (λ v, (v, v)) <$> [js "YYYY-MM-DD"; js "MM/DD/YYYY"; js "DD/MM/YYYY"].
Definition TIME_FORMATS : list (jstr * jstr) := [(js "24h", js "24-hour"); (js "12h", js "12-hour")].
Definition LOCKS : list (jstr * jstr) := [(js "any", js "Any Method"); (js "sso", js "SSO Only"); (js "password", js "Password Only")].

(** The controls that are there and enabled: the formats for administrators
    and one's own user, the rest below the name for administrators, and never
    the switch for one's own rights. *)
Definition detail_offered (isYou isAdmin : bool) (s : UserDetail) (e : detail_event) : bool :=
  match e with
  | EditName _ => true
  | EditTimezone _ => isAdmin || isYou
  | PickDateFormat v => (isAdmin || isYou) && bool_decide (v ∈ DATE_FORMATS.*1)
  | PickTimeFormat v => (isAdmin || isYou) && bool_decide (v ∈ TIME_FORMATS.*1)
  | SwitchVerified _ | EditSessions _ => isAdmin
  | SwitchAdmin _ => isAdmin && negb isYou
  | PickLock v => isAdmin && bool_decide (v ∈ LOCKS.*1)
  | OpenMigration => isAdmin && negb (migratePasswordOpen s) && negb (migrating s)
  | EditMigration _ | CancelMigration => isAdmin && migratePasswordOpen s
  end.
Definition set_profile (name timezone dateFormat timeFormat : jstr) (s : UserDetail) : UserDetail := {|
  ud_open := ud_open s; ud_displayName := name; isAdminFlag := isAdminFlag s; verified := verified s;
  ud_timezone := timezone; ud_dateFormat := dateFormat; ud_timeFormat := timeFormat;
  ud_saving := ud_saving s; ud_copied := ud_copied s; authMethodLock := authMethodLock s;
  migratePasswordOpen := migratePasswordOpen s; migratePassword := migratePassword s; migrating := migrating s;
  maxSessions := maxSessions s |}.
Definition set_controls (admin ver : bool) (lock sessions : jstr) (s : UserDetail) : UserDetail := {|
  ud_open := ud_open s; ud_displayName := ud_displayName s; isAdminFlag := admin; verified := ver;
  ud_timezone := ud_timezone s; ud_dateFormat := ud_dateFormat s; ud_timeFormat := ud_timeFormat s;
  ud_saving := ud_saving s; ud_copied := ud_copied s; authMethodLock := lock;
  migratePasswordOpen := migratePasswordOpen s; migratePassword := migratePassword s; migrating := migrating s;
  maxSessions := sessions |}.
Definition detail_update (e : detail_event) (s : UserDetail) : UserDetail :=
  match e with
  | EditName v => set_profile v (ud_timezone s) (ud_dateFormat s) (ud_timeFormat s) s
  | EditTimezone v => set_profile (ud_displayName s) v (ud_dateFormat s) (ud_timeFormat s) s
  | PickDateFormat v => set_profile (ud_displayName s) (ud_timezone s) v (ud_timeFormat s) s
  | PickTimeFormat v => set_profile (ud_displayName s) (ud_timezone s) (ud_dateFormat s) v s
  | SwitchVerified b => set_controls (isAdminFlag s) b (authMethodLock s) (maxSessions s) s
  | SwitchAdmin b => set_controls b (verified s) (authMethodLock s) (maxSessions s) s
  | PickLock v => set_controls (isAdminFlag s) (verified s) v (maxSessions s) s
  | EditSessions v => set_controls (isAdminFlag s) (verified s) (authMethodLock s) v s
  | OpenMigration => set_detail_migratePassword true (migratePassword s) s
  | EditMigration v => set_detail_migratePassword (migratePasswordOpen s) v s
  | CancelMigration => set_detail_migratePassword false [] s
  end.
Inductive detail_edit (isYou isAdmin : bool) : UserDetail → UserDetail → Prop :=
| detail_edit_intro e s : detail_offered isYou isAdmin s e = true → detail_edit isYou isAdmin s (detail_update e s).

(** The actions on another user that the row and the dialog offer. *)
Inductive user_action := AAddToOrg | ADeactivate | AForceLogout | ADelete.
#[export] Instance user_action_eq_dec : EqDecision user_action.
Proof. solve_decision. Defined.

Record profile_header := { ph_initial : jstr; ph_name : jstr; ph_email : jstr; ph_badges : list jstr }.
Record confirm_text := { ct_title : jstr; ct_text : jstr; ct_disabled : bool }.
Record formats_view := { fv_timezone : jstr; fv_date : jstr * list (jstr * jstr); fv_time : jstr * list (jstr * jstr) }.
Inductive password_panel := PPButton (disabled : bool) | PPField (value : jstr) (confirm : confirm_text).
Record admin_controls := {
  ac_verified : bool; ac_admin : bool * bool; ac_lock : jstr * list (jstr * jstr); ac_sessions : jstr;
  ac_sso : confirm_text; ac_password : password_panel
}.
Record user_dialog := {
  uw_header : profile_header; uw_account : list (jstr * list jstr); uw_actions : list (user_action * option confirm_text);
  uw_name : jstr; uw_email : jstr; uw_formats : option formats_view; uw_controls : option admin_controls; uw_save : option (jstr * bool)
}.

Section dialog.
Context `{!JSRuntime} (toLocaleTimeString : jstr → jstr).

Definition profile_header_of (u : MergedUser) (isYou isAdmin : bool) (s : UserDetail) : profile_header := {|
  ph_initial := toUpperCase (take 1 (user_name (mu u)));
  ph_name := jor (User_display_name (mu u)) u_dash;
  ph_email := User_email (mu u);
  ph_badges := dv_badges (UserDetailDialog u isYou isAdmin s) |}.
Definition account_info (now : Z) (u : User) (copied : bool) : list (jstr * list jstr) :=
  [(js "User ID", [if copied then js "Copied!" else take 8 (User_id u) ++ ellipsis]);
   (js "Auth Method", [default (js "Password") (User_sso_provider u)]);
   (js "Registered", [toLocaleDateString (User_created_at u); toLocaleTimeString (User_created_at u)]);
   (js "Last Active", match User_last_login_at u with
                      | Some ((_ :: _) as d) => [users_timeAgo d now; toLocaleDateString d]
                      | _ => [js "Never"]
                      end);
   (js "Auth Lock", [if bool_decide (User_auth_method_lock u = Some (js "sso")) then js "SSO Only"
                     else if bool_decide (User_auth_method_lock u = Some (js "password")) then js "Password Only" else js "Any Method"]);
   (js "Email Status", [if User_email_verified u then js "Verified" else js "Unverified"])].

Definition deactivate_text (u : User) : confirm_text := {|
  ct_title := "Deactivate user?"; ct_disabled := false;
  ct_text := user_name u ++ " will be removed from the organization and all teams. Their sessions will be revoked. The account will be preserved for audit purposes." |}.
Definition logout_text (u : User) : confirm_text := {|
  ct_title := "Force logout?"; ct_disabled := false;
  ct_text := "Revoke all active sessions for " ++ user_name u ++ "? They will be signed out everywhere." |}.
Definition delete_text (u : User) : confirm_text := {|
  ct_title := "Delete user permanently?"; ct_disabled := false;
  ct_text := "This will permanently delete " ++ User_email u ++ " and all their data. This action cannot be undone." |}.
Definition dialog_actions (u : MergedUser) (isYou isAdmin : bool) : list (user_action * option confirm_text) :=
  (if role_set u then [] else [(AAddToOrg, None)]) ++
  (if role_set u && negb isYou then [(ADeactivate, Some (deactivate_text (mu u)))] else []) ++
  (if isAdmin && negb isYou then [(AForceLogout, Some (logout_text (mu u))); (ADelete, Some (delete_text (mu u)))] else []).

Definition migrate_sso_text (u : User) (migrating : bool) : confirm_text := {|
  ct_title := "Migrate to SSO?"; ct_disabled := migrating;
  ct_text := "This will clear " ++ user_name u ++ "'s password, lock them to SSO-only login, and revoke all active sessions. They must have a linked SSO identity." |}.
Definition migrate_password_text (u : User) (s : UserDetail) : confirm_text := {|
  ct_title := "Migrate to Password?"; ct_disabled := negb (truthy (migratePassword s)) || migrating s;
  ct_text := "This will set a new password for " ++ user_name u ++ ", lock them to password-only login, and revoke all active sessions." |}.
Definition admin_controls_of (u : User) (isYou : bool) (s : UserDetail) : admin_controls := {|
  ac_verified := verified s;
  ac_admin := (isAdminFlag s, isYou);
  ac_lock := (authMethodLock s, LOCKS);
  ac_sessions := maxSessions s;
  ac_sso := migrate_sso_text u (migrating s);
  ac_password := if migratePasswordOpen s then PPField (migratePassword s) (migrate_password_text u s) else PPButton (migrating s) |}.
Definition formats_of (s : UserDetail) : formats_view := {|
  fv_timezone := ud_timezone s; fv_date := (jor (ud_dateFormat s) "YYYY-MM-DD", DATE_FORMATS);
  fv_time := (jor (ud_timeFormat s) "24h", TIME_FORMATS) |}.
Definition user_dialog_of (now : Z) (u : MergedUser) (isYou isAdmin : bool) (s : UserDetail) : user_dialog := {|
  uw_header := profile_header_of u isYou isAdmin s;
  uw_account := account_info now (mu u) (ud_copied s);
  uw_actions := dialog_actions u isYou isAdmin;
  uw_name := ud_displayName s;
  uw_email := User_email (mu u);
  uw_formats := if isAdmin || isYou then Some (formats_of s) else None;
  uw_controls := if isAdmin then Some (admin_controls_of (mu u) isYou s) else None;
  uw_save := dv_save (UserDetailDialog u isYou isAdmin s)
|}.
Definition row_actions (r : user_row) : list user_action :=
  (if ur_deactivate r then [ADeactivate] else []) ++ (if ur_logout r then [AForceLogout] else []) ++ (if ur_delete r then [ADelete] else []).
End dialog.

(** ** Invitations *)

Record method_switch := { ms_label : jstr; ms_checked : bool; ms_disabled : bool }.
Record assignment_view := { av_team : jstr; av_teams : list (jstr * jstr); av_role : jstr; av_roles : list (jstr * jstr) }.
Record form_view := {
  fw_role : jstr; fw_roles : list (jstr * jstr); fw_methods : list method_switch; fw_add_team : bool; fw_teams : option (list assignment_view)
}.
Record invite_view := { vw_error : option jstr; vw_form : form_view; vw_button : jstr; vw_disabled : bool }.
Record bulk_results := { br_counts : jstr * jstr * jstr; br_skipped : list jstr; br_failed : list jstr }.
Record bulk_view := { bw_count : option jstr; bw_over : bool; bw_form : form_view; bw_button : jstr; bw_disabled : bool; bw_results : option bulk_results }.

Section invite_views.
Context (teams : list Team) (ssoProviders : list SSOStatusProvider) (roles : Roles).

Definition provider_switch (f : InviteForm) (p : SSOStatusProvider) : method_switch := {|
  ms_label := jor (sp_label p) (sp_name p);
  ms_checked := authAny f || default false (map_get (authSSO f) (sp_name p)); ms_disabled := authAny f |}.
Definition method_switches (f : InviteForm) : list method_switch :=
  [{| ms_label := js "Any method"; ms_checked := authAny f; ms_disabled := false |};
   {| ms_label := js "Password"; ms_checked := authAny f || authPassword f; ms_disabled := authAny f |}] ++ (provider_switch f <$> ssoProviders).
Definition assignment_row (f : InviteForm) (r : TeamAssignmentRow) : assignment_view := {|
  av_team := ta_team_id r; av_teams := (λ t, (Team_id t, Team_name t)) <$> team_options teams f r;
  av_role := ta_team_role r; av_roles := (λ x, (RoleInfo_value x, RoleInfo_label x)) <$> teamRoles roles |}.
Definition form_view_of (f : InviteForm) : form_view := {|
  fw_role := if_role f;
  fw_roles := (λ r, (RoleInfo_value r, RoleInfo_label r ++ " " ++ u_dash ++ " " ++ RoleInfo_description r)) <$> orgRoles roles;
  fw_methods := method_switches f;
  fw_add_team := (0 <? length teams)%nat && canAddTeam teams f;
  fw_teams := if (0 <? length teams)%nat then Some (assignment_row f <$> teamAssignments f) else None |}.
Definition invite_view_of (s : InviteDialog) : invite_view := {|
  vw_error := if truthy (iv_email s) && negb (emailValid (iv_email s)) then Some (js "Please enter a valid email address") else None;
  vw_form := form_view_of (iv_form s);
  vw_button := if iv_sending s then "Sending" ++ ellipsis else js "Send Invite";
  vw_disabled := invite_disabled s |}.

(** [result.skipped] and [result.failed]: an absent list counts as empty. *)
Definition result_entries (result : json) (key : jstr) : list json := default [] (as_array (jfield result key)).
Definition result_line (e : json) : jstr :=
  from_option json_to_string (js "") (jfield e "email") ++ " " ++ u_dash ++ " " ++ from_option json_to_string (js "") (jfield e "reason").
Definition bulk_results_of (result : json) : bulk_results := {|
  br_counts := (from_option json_to_string (js "") (jfield result "created"),
                show_nat (length (result_entries result "skipped")), show_nat (length (result_entries result "failed")));
  br_skipped := result_line <$> result_entries result "skipped";
  br_failed := result_line <$> result_entries result "failed" |}.
Definition bulk_view_of (s : BulkInvite) : bulk_view :=
  let emailCount := length (parseEmails (emailsText s)) in {|
  bw_count := if (0 <? emailCount)%nat then Some (plural (Z.of_nat emailCount) "email") else None;
  bw_over := (100 <? emailCount)%nat;
  bw_form := form_view_of (bi_form s);
  bw_button := if bi_sending s then "Sending" ++ ellipsis else "Send " ++ plural (Z.of_nat emailCount) "Invite";
  bw_disabled := bulk_disabled s;
  bw_results := match bi_result s with
    | Some r => if json_truthy (Some r) then Some (bulk_results_of r) else None
    | None => None
    end |}.
End invite_views.

(** ** Theorems *)

Lemma edits_preserve (P : UserDetail → Prop) isYou isAdmin s t :
  (∀ x e, detail_offered isYou isAdmin x e = true → P x → P (detail_update e x)) → P s → rtc (detail_edit isYou isAdmin) s t → P t.
Proof. intros Hp Hs. revert t. apply (rtc_ind_r P); [done|]. intros x y _ [e z He] Hz. auto. Qed.

(** Nobody can harm their own account from the page: neither the row nor the
    dialog of the own user offers to deactivate, sign out or delete it, and
    whatever is edited in the dialog, no save of it changes the own rights. *)
Theorem self_protected `{!JSRuntime} other_number (now : Z) (roles : Roles) (isAdmin canManageMembers canInvite : bool) (u : MergedUser) (s t : UserDetail) :
  rtc (detail_edit true isAdmin) (detail_onOpenChange (mu u) true s) t →
  row_actions (users_row now roles (Some (User_id (mu u))) isAdmin canManageMembers canInvite u) = [] ∧
  (∀ a c, (a, c) ∈ dialog_actions u true isAdmin → a = AAddToOrg ∧ role_set u = false) ∧
  js "is_system_admin" ∉ (admin_patch other_number (mu u) t).*1 ∧ js "is_system_admin" ∉ (me_patch (mu u) t).*1.
Proof.
  intros Hr. split_and!.
  - unfold users_row, row_actions. by rw bool_decide_true.
  - intros a c. unfold dialog_actions. rw !andb_false_r !app_nil_r. destruct (role_set u); [by intros ?%elem_of_nil|]. by intros [= -> _]%list_elem_of_singleton.
  - assert (Hf : isAdminFlag t = User_is_system_admin (mu u)).
    { apply (edits_preserve (λ x, isAdminFlag x = User_is_system_admin (mu u)) true isAdmin (detail_onOpenChange (mu u) true s) t); [|done|exact Hr].
      intros x []; cbn; try done. by rw andb_false_r. }
    destruct (admin_patch_exact other_number (mu u) t) as (_ & Hk & _). rw Hk Hf. by intros [].
  - unfold me_patch. rw !fmap_app !elem_of_app !(opt_field other_number). naive_solver.
Qed.

(** The row offers what the dialog offers, except that it does not add to the
    organisation, and that it asks for the right to invite before it offers to
    deactivate; the dialog offers that to everybody. *)
Theorem dialog_row_actions `{!JSRuntime} (now : Z) (roles : Roles) (me : option jstr) (isAdmin canManageMembers canInvite : bool) (u : MergedUser) (a : user_action) :
  let isYou := bool_decide (me = Some (User_id (mu u))) in
  a ∈ row_actions (users_row now roles me isAdmin canManageMembers canInvite u) ↔
  a ∈ (dialog_actions u isYou isAdmin).*1 ∧ a ≠ AAddToOrg ∧ (a = ADeactivate → canInvite = true).
Proof.
  cbv zeta. unfold users_row, row_actions, dialog_actions. cbn [ur_deactivate ur_logout ur_delete].
  destruct (bool_decide _), (role_set u), isAdmin, canInvite; cbn; set_solver.
Qed.

(** Somebody who is no administrator can change nothing but the name of
    another user in the dialog, and nothing but a name is sent. *)
Theorem member_edits_name (u : User) (s t : UserDetail) :
  rtc (detail_edit false false) (detail_onOpenChange u true s) t →
  me_patch u t = if ud_displayName t =?s User_display_name u then [] else [(js "display_name", JStr (ud_displayName t))].
Proof.
  intros Hr.
  assert (H : ud_timezone t = default [] (User_timezone u) ∧ ud_dateFormat t = default [] (User_date_format u) ∧ ud_timeFormat t = default [] (User_time_format u)).
  { apply (edits_preserve (λ x, ud_timezone x = default [] (User_timezone u) ∧ ud_dateFormat x = default [] (User_date_format u) ∧ ud_timeFormat x = default [] (User_time_format u)) false false (detail_onOpenChange u true s) t); [|done|exact Hr].
    by intros x []. }
  destruct H as (H1 & H2 & H3). unfold me_patch. rw H1 H2 H3 !jeqb_refl. cbn [negb]. rw !app_nil_r. by destruct (_ =?s _).
Qed.

(** The button of the bulk dialog sends, when it is enabled, between one and a
    hundred addresses, as many as it says. *)
Theorem bulk_button_counts teams providers roles (s : BulkInvite) :
  let v := bulk_view_of teams providers roles s in
  let n := length (parseEmails (emailsText s)) in
  (bw_disabled v = false → 1 <= n <= 100 ∧ bw_button v = "Send " ++ plural (Z.of_nat n) "Invite" ∧ bw_over v = false) ∧
  (bw_over v = true → bw_disabled v = true) ∧ (bw_count v = None ↔ n = 0).
Proof.
  cbv zeta. unfold bulk_view_of. cbn [bw_disabled bw_button bw_over bw_count]. unfold bulk_disabled.
  destruct (Nat.eqb_spec (length (parseEmails (emailsText s))) 0) as [->|Hn]; [done|]. cbn [orb].
  destruct (Nat.ltb_spec 100 (length (parseEmails (emailsText s)))) as [Hl|Hl]; cbn [orb];
    destruct (Nat.ltb_spec 0 (length (parseEmails (emailsText s)))); try lia; (split; [|done]).
  - done.
  - intros ->. split; [lia|done].
Qed.

(** The members and the others counted in the summary are those of the list,
    each once; the filter behind each count shows as many. *)
Theorem summary_counts `{!JSRuntime} (l : list MergedUser) (s : UsersState) :
  memberCount l + nonMemberCount l = length l ∧
  (u_search s = [] → u_filter s = FMembers → length (filtered s l) = memberCount l) ∧
  (u_search s = [] → u_filter s = FNonMembers → length (filtered s l) = nonMemberCount l) ∧
  (u_search s = [] → u_filter s = FUnverified → length (filtered s l) = unverifiedCount l).
Proof.
  split; [apply countb_partition|].
  assert (Hf : ∀ p, u_search s = [] → (∀ x, matchesFilter (u_filter s) x = p x) → length (filtered s l) = countb p l).
  { intros p Hs Hp. unfold filtered, countb. f_equal. apply List.filter_ext. intros x. rw Hp. unfold matchesSearch. rw Hs (toLowerCase_ascii []) //. }
  split_and!; intros Hs Hu; apply Hf; try done; intros x; by rw Hu.
Qed.

(** ** Examples *)

Definition own_user : MergedUser := {| mu := a_user "7" "Ann"; org_role := Some (js "owner"); membership_id := None; member_created_at := None |}.
Definition closed_detail : UserDetail := {|
  ud_open := false; ud_displayName := []; isAdminFlag := false; verified := false; ud_timezone := []; ud_dateFormat := []; ud_timeFormat := [];
  ud_saving := false; ud_copied := false; authMethodLock := "any"; migratePasswordOpen := false; migratePassword := []; migrating := false;
  maxSessions := [] |}.
Lemma self_protected_witness :
  ∃ t, ud_displayName t = js "Eve" ∧ js "is_system_admin" ∉ (admin_patch (λ _, JNull) (mu own_user) t).*1.
Proof.
  exists (detail_update (EditName "Eve") (detail_onOpenChange (mu own_user) true closed_detail)). split; [done|].
  eapply (self_protected (H := AsciiRuntime) (λ _, JNull) 0 {| orgRoles := []; teamRoles := []; orgPermissions := []; teamPermissions := [] |} true true true own_user closed_detail).
  apply rtc_once. by apply detail_edit_intro.
Defined.
