(* ===== verification/ApiKeysView.v ===== *)
(** * API keys: what the dialogs show, and which keys are ever seen

    The views of [web/src/app/api-keys/page.tsx] over the state of [ApiKeys],
    and the life of the secret text of a key.  The server sends it once, in
    the answer that creates or rotates the key; the two step relations follow
    the answers that arrive while dialogs are opened, edited and closed. *)

From S2P Require Import Prelude Browser Types ApiClient React Hooks Permissions ApiKeys.
Import Hooks.Small.

(** ** Views *)

Record confirmation := { cf_trigger : jstr; cf_disabled : bool; cf_title : jstr; cf_text : jstr; cf_destructive : bool }.
Record key_card := {
  kc_label : jstr; kc_dimmed : bool; kc_name : jstr; kc_badges : list key_status; kc_prefix : jstr; kc_revoke : confirmation;
  kc_scopes : list jstr * option jstr; kc_meta : list jstr
}.
(** The two texts of [RawKeyDisplay], and what a click on the key copies. *)
Record raw_key_view := { rk_note : jstr; rk_key : jstr; rk_copied : jstr }.
Inductive scopes_field := ScopesLoading (text : jstr) | ScopesPicker (picker : picker_view).
Record create_form := {
  cf_name : jstr; cf_scopes : scopes_field; cf_scope_error : option jstr; cf_expiry : jstr; cf_expiries : list (jstr * jstr);
  cf_ips : jstr; cf_button : jstr; cf_button_disabled : bool
}.
Inductive create_body := BRaw (v : raw_key_view) | BForm (f : create_form).
Record create_dialog := { cd_open : bool; cd_title : jstr; cd_description : option jstr; cd_body : create_body }.
Record edit_dialog := {
  ed_open : bool; ed_name : jstr; ed_active : bool; ed_picker : picker_view; ed_ips : jstr; ed_button : jstr; ed_disabled : bool
}.

Definition bullets : jstr := [8226; 8226; 8226]%N.
Definition ellipsis : jstr := [8230%N].
Definition em_dash : jstr := [8212%N].

Section views.
Context `{!JSRuntime} (localeCompare : jstr → jstr → Z) (localeNumber : Z → jstr).

Definition revoke_confirmation (trigger : jstr) (k : APIKey) : confirmation := {|
  cf_trigger := trigger; cf_disabled := false; cf_title := "Revoke API key?";
  cf_text := [34%N] ++ APIKey_name k ++ [34%N] ++ " will immediately stop working. This cannot be undone."; cf_destructive := true |}.
Definition rotate_confirmation (rotating : bool) : confirmation := {|
  cf_trigger := "Rotate"; cf_disabled := rotating; cf_title := "Rotate API key?";
  cf_text := "The current key will be invalidated and a new one generated. Any systems using the old key will stop working.";
  cf_destructive := false |}.

Definition ApiKeyCard (now : Z) (labels : list (jstr * jstr)) (k : APIKey) : key_card := {|
  kc_label := "View API key " ++ APIKey_name k;
  kc_dimmed := dimmed now k;
  kc_name := APIKey_name k;
  kc_badges := card_badges now k;
  kc_prefix := APIKey_key_prefix k ++ bullets;
  kc_revoke := revoke_confirmation ("Revoke API key " ++ [34%N] ++ APIKey_name k ++ [34%N]) k;
  kc_scopes := card_scopes labels k;
  kc_meta := card_meta now localeNumber k
|}.
(** A key of the keyboard on a card: whether it opens the card. *)
Definition card_keydown (key : jstr) : bool := (key =?s "Enter") || (key =?s " ").
Definition copyPrefix {S} (k : APIKey) : M S unit :=
  emit (EClipboard (APIKey_key_prefix k));; emit (EToastSuccess "Prefix copied").

Definition RawKeyDisplay (rawKey : jstr) : raw_key_view := {|
  rk_note := "Copy this key now " ++ em_dash ++ " it won't be shown again."; rk_key := rawKey; rk_copied := rawKey |}.
Definition copyKey {S} (rawKey : jstr) : M S unit := emit (EClipboard rawKey);; emit (EToastSuccess "API key copied").

(** [rawKey ? ... : ...]: the empty text is no key. *)
Definition shown_raw (k : option jstr) : option jstr := match k with Some ((_ :: _) as r) => Some r | _ => None end.

Definition no_raw (k : option jstr) : bool := match shown_raw k with Some _ => false | None => true end.

(** An item of the list of expirations has the value [o.value || "none"]. *)
Definition expiry_items : list (jstr * jstr) := (λ '(label, value), (jor value "none", label)) <$> EXPIRY_OPTIONS.

Definition CreateApiKeyDialog (perms : list PermissionInfo) (collapsed : list jstr) (search : jstr) (s : CreateKey) : create_dialog := {|
  cd_open := ck_open s;
  cd_title := match shown_raw (ck_rawKey s) with Some _ => "API Key Created" | None => "Create an API key" end;
  cd_description := match shown_raw (ck_rawKey s) with
    | Some _ => None
    | None => Some (js "Keys are hashed with SHA-256 and cannot be recovered. Copy it immediately after creation.")
    end;
  cd_body := match shown_raw (ck_rawKey s) with
    | Some raw => BRaw (RawKeyDisplay raw)
    | None => BForm {|
        cf_name := ck_name s;
        cf_scopes := if (length perms =? 0)%nat then ScopesLoading ("Loading available scopes" ++ ellipsis)
                     else ScopesPicker (ScopePicker localeCompare perms (ck_scopes s) collapsed search);
        cf_scope_error := if (length (ck_scopes s) =? 0)%nat && (0 <? length perms)%nat then Some (js "Select at least one scope") else None;
        cf_expiry := ck_expiresIn s;
        cf_expiries := expiry_items;
        cf_ips := ck_allowedIps s;
        cf_button := if ck_creating s then "Creating" ++ ellipsis else js "Create API Key";
        cf_button_disabled := create_disabled s |}
    end
|}.

(** The grid of the detail dialog, one pair of label and text per cell. *)
Definition detail_grid (now : Z) (k : APIKey) : list (jstr * jstr) :=
  [(js "Created", toLocaleDateString (APIKey_created_at k));
   (js "Expiration", match APIKey_expires_at k with
                     | None | Some [] => js "Never"
                     | Some d => (if isExpired now k then "Expired" else "Expires") ++ " " ++ toLocaleDateString d
                     end);
   (js "Last Used", match APIKey_last_used_at k with None | Some [] => js "Never" | Some d => toLocaleDateString d end);
   (js "Requests", match APIKey_request_count k with Some n => localeNumber n | None => em_dash end)] ++
  match APIKey_last_used_ip k with None | Some [] => [] | Some ip => [(js "Last Used IP", ip)] end ++
  match APIKey_created_by_email k with
  | None | Some [] => []
  | Some email => [(js "Created By", jor (default [] (APIKey_created_by_name k)) email)]
  end.
Definition scopes_title (k : APIKey) : jstr := "Scopes (" ++ show_nat (length (APIKey_scopes k)) ++ ")".

Definition EditKeyDialog (perms : list PermissionInfo) (collapsed : list jstr) (search : jstr) (s : EditKey) : edit_dialog := {|
  ed_open := ek_open s;
  ed_name := ek_name s;
  ed_active := ek_isActive s;
  ed_picker := ScopePicker localeCompare perms (ek_scopes s) collapsed search;
  ed_ips := ek_allowedIps s;
  ed_button := if ek_saving s then "Saving" ++ ellipsis else js "Save Changes";
  ed_disabled := save_disabled s
|}.

End views.

(** ** The secret of a new key

    [is_issued] are the secrets the server sent, [is_seen] the ones on the
    screen when the dialog was closed; both are only for the statements. *)
Record issuing := Issuing { is_form : CreateKey; is_flights : nat; is_issued : list jstr; is_seen : list jstr }.
Definition issuing_init : issuing := Issuing create_init 0 [] [].

(** What [create] does before and after its [await]; the answer is [None]
    when the call failed, and else [res.raw_key ?? null]. *)
Definition create_allowed (s : CreateKey) : bool := negb (negb (truthy (trim (ck_name s))) || (length (ck_scopes s) =? 0)%nat).
Definition create_finish (answer : option (option jstr)) (s : CreateKey) : CreateKey :=
  set_creating false (match answer with Some k => set_rawKey k s | None => s end).
Definition answer_secret (answer : option (option jstr)) : list jstr := option_list (shown_raw (answer ≫= id)).

Definition form_shown (s : CreateKey) : bool := ck_open s && no_raw (ck_rawKey s).
Definition start_create (s : issuing) : issuing :=
  Issuing (set_creating true (is_form s)) (S (is_flights s)) (is_issued s) (is_seen s).
Definition set_form (name : jstr) (scopes : list jstr) (expiresIn ips : jstr) (s : CreateKey) : CreateKey := {|
  ck_name := name; ck_scopes := scopes; ck_expiresIn := expiresIn; ck_allowedIps := ips;
  ck_rawKey := ck_rawKey s; ck_creating := ck_creating s; ck_open := ck_open s |}.

(** The user and the answers; a patient user does not press Enter while a key
    is being created. *)
Inductive create_step (patient : bool) : issuing → issuing → Prop :=
| cs_edit name scopes expiresIn ips s : form_shown (is_form s) = true →
    create_step patient s (Issuing (set_form name scopes expiresIn ips (is_form s)) (is_flights s) (is_issued s) (is_seen s))
| cs_click s : form_shown (is_form s) = true → create_disabled (is_form s) = false → create_step patient s (start_create s)
| cs_enter s : form_shown (is_form s) = true → create_allowed (is_form s) = true →
    (patient = true → ck_creating (is_form s) = false) → create_step patient s (start_create s)
| cs_answer answer n s : is_flights s = S n →
    create_step patient s (Issuing (create_finish answer (is_form s)) n (is_issued s ++ answer_secret answer) (is_seen s))
| cs_open s : ck_open (is_form s) = false →
    create_step patient s (Issuing (onOpenChange true (is_form s)) (is_flights s) (is_issued s) (is_seen s))
| cs_close s : ck_open (is_form s) = true →
    create_step patient s (Issuing (onOpenChange false (is_form s)) (is_flights s) (is_issued s)
      (is_seen s ++ option_list (shown_raw (ck_rawKey (is_form s))))).

(** ** The secret of a rotated key

    [KeyDetailDialog] is mounted while a key is selected; every mount is a new
    instance, and an answer reaches the state of the instance that asked.  A
    revocation that succeeds unselects whatever is selected then. *)
Record detail_sys := DetailSys {
  ds_mounted : option (nat * KeyDetail); ds_next : nat; ds_flights : list nat; ds_revoking : nat;
  ds_issued : list jstr; ds_seen : list jstr
}.
Definition detail_sys_init : detail_sys := DetailSys None 0 [] 0 [] [].
Definition detail_init : KeyDetail := {| editing := false; rotatedKey := None; rotating := false; detail_open := true |}.
Definition set_editing (b : bool) (s : KeyDetail) : KeyDetail :=
  {| editing := b; rotatedKey := rotatedKey s; rotating := rotating s; detail_open := detail_open s |}.
Definition rotate_finish (answer : option (option jstr)) (s : KeyDetail) : KeyDetail :=
  set_rotating false (match answer with Some k => set_rotated k s | None => s end).
(** The information of the key with its buttons is on the screen. *)
Definition info_shown (s : KeyDetail) : bool := negb (editing s) && no_raw (rotatedKey s).
Definition on_screen (m : option (nat * KeyDetail)) : list jstr :=
  match m with Some (_, s) => if editing s then [] else option_list (shown_raw (rotatedKey s)) | None => [] end.
Definition calls_over (s : detail_sys) : Prop := ds_flights s = [] ∧ ds_revoking s = 0.

(** A patient user waits for the calls that were started. *)
Inductive detail_step (patient : bool) : detail_sys → detail_sys → Prop :=
| ds_open n fl rv iss se : (patient = true → calls_over (DetailSys None n fl rv iss se)) →
    detail_step patient (DetailSys None n fl rv iss se) (DetailSys (Some (n, detail_init)) (S n) fl rv iss se)
| ds_edit g d n fl rv iss se : info_shown d = true → (patient = true → calls_over (DetailSys (Some (g, d)) n fl rv iss se)) →
    detail_step patient (DetailSys (Some (g, d)) n fl rv iss se) (DetailSys (Some (g, set_editing true d)) n fl rv iss se)
| ds_saved g d n fl rv iss se : editing d = true →
    detail_step patient (DetailSys (Some (g, d)) n fl rv iss se) (DetailSys (Some (g, set_editing false d)) n fl rv iss se)
| ds_rotate g d n fl rv iss se : info_shown d = true → rotating d = false →
    (patient = true → calls_over (DetailSys (Some (g, d)) n fl rv iss se)) →
    detail_step patient (DetailSys (Some (g, d)) n fl rv iss se) (DetailSys (Some (g, set_rotating true d)) n (g :: fl) rv iss se)
| ds_answer answer g m n fl1 fl2 rv iss se :
    detail_step patient (DetailSys m n (fl1 ++ g :: fl2) rv iss se)
      (DetailSys (match m with Some (g', d) => Some (g', if (g =? g')%nat then rotate_finish answer d else d) | None => None end)
        n (fl1 ++ fl2) rv (iss ++ answer_secret answer) se)
| ds_done g d k n fl rv iss se : editing d = false → shown_raw (rotatedKey d) = Some k →
    detail_step patient (DetailSys (Some (g, d)) n fl rv iss se) (DetailSys (Some (g, set_rotated None d)) n fl rv iss (se ++ [k]))
| ds_revoke g d n fl rv iss se : info_shown d = true → (patient = true → calls_over (DetailSys (Some (g, d)) n fl rv iss se)) →
    detail_step patient (DetailSys (Some (g, d)) n fl rv iss se) (DetailSys (Some (g, d)) n fl (S rv) iss se)
| ds_revoked (ok : bool) m n fl rv iss se :
    detail_step patient (DetailSys m n fl (S rv) iss se) (DetailSys (if ok then None else m) n fl rv iss se)
| ds_close g d n fl rv iss se : (patient = true → calls_over (DetailSys (Some (g, d)) n fl rv iss se)) →
    detail_step patient (DetailSys (Some (g, d)) n fl rv iss se) (DetailSys None n fl rv iss (se ++ on_screen (Some (g, d)))).

Lemma no_raw_true k : no_raw k = true ↔ shown_raw k = None.
Proof. unfold no_raw. by destruct (shown_raw k). Qed.

(** ** The steps are the handlers, cut at their [await] *)
Section splits.
Context `{!AppEnv, !JSRuntime} (orgId teamId : jstr).

(** The answer as [create] and [handleRotate] read it. *)
Definition secret_answer (r : jserr + option json) : option (option jstr) :=
  match r with
  | inl _ | inr None | inr (Some JNull) => None
  | inr (Some j) => Some (raw_key_of (jfield j "raw_key"))
  end.

Lemma create_key_splits (closure : CreateKey) (w : world CreateKey) :
  st (snd (create_key orgId teamId closure w)) =
  if create_allowed closure
  then create_finish (secret_answer (fst (api_post (keys_path orgId teamId) (Some (create_key_body closure)) (World (brw w) (set_creating true (st w))))))
         (set_creating true (st w))
  else st w.
Proof.
  unfold create_key, create_allowed. destruct (negb (truthy _) || _); [done|]. cbn [negb]. run_M.
  unfold api_post. pose proof (api_send_st "POST" (keys_path orgId teamId) (Some (create_key_body closure)) (World (brw w) (set_creating true (st w)))) as Hst.
  destruct (api_send _ _ _ _) as [[e|v] w1]; cbn [snd st fst] in *; unfold try_finally, try_catch; run_M; [by rw Hst|].
  unfold prop. destruct v as [[| | | | | |]|]; run_M; by rw Hst.
Qed.
Lemma handleRotate_splits (id : jstr) (w : world KeyDetail) :
  st (snd (handleRotate orgId teamId id w)) =
  rotate_finish (secret_answer (fst (api_post (key_path orgId teamId id ++ "/rotate") None (World (brw w) (set_rotating true (st w))))))
    (set_rotating true (st w)).
Proof.
  unfold handleRotate. run_M. unfold api_post.
  pose proof (api_send_st "POST" (key_path orgId teamId id ++ "/rotate") None (World (brw w) (set_rotating true (st w)))) as Hst.
  destruct (api_send _ _ _ _) as [[e|v] w1]; cbn [snd st fst] in *; unfold try_finally, try_catch; run_M; [by rw Hst|].
  unfold prop. destruct v as [[| | | | | |]|]; run_M; by rw Hst.
Qed.
End splits.

(** ** No secret is lost on a patient user *)

Record issuing_ok (s : issuing) : Prop := {
  io_flights : is_flights s = if ck_creating (is_form s) then 1 else 0;
  io_empty : ck_creating (is_form s) = true → shown_raw (ck_rawKey (is_form s)) = None;
  io_secrets : is_issued s = is_seen s ++ option_list (shown_raw (ck_rawKey (is_form s)))
}.
Lemma start_create_ok s : form_shown (is_form s) = true → ck_creating (is_form s) = false → issuing_ok s → issuing_ok (start_create s).
Proof.
  unfold form_shown. intros [_ Hn%no_raw_true]%andb_true_iff Hc [H1 _ H3]. rw Hc in H1. split; cbn; [by rw H1|done|done].
Qed.
Lemma create_step_ok s t : create_step true s t → issuing_ok s → issuing_ok t.
Proof.
  intros Hst Hs. destruct Hst as [name scopes ex ips s Hf|s Hf Hd|s Hf Ha Hc|answer n s Hn|s Ho|s Ho].
  - by destruct Hs.
  - apply start_create_ok; [done| |done]. unfold create_disabled in Hd. by apply orb_false_iff in Hd as [_ ?].
  - apply start_create_ok; auto.
  - destruct Hs as [H1 H2 H3]. rw Hn in H1. destruct (ck_creating (is_form s)) eqn:Ec; [|done]. injection H1 as ->.
    split; cbn; [done|done|]. rw H3 (H2 eq_refl). cbn. rw app_nil_r. unfold answer_secret. by destruct answer; cbn; [|rw (H2 eq_refl)].
  - by destruct Hs.
  - destruct Hs as [H1 H2 H3]. split; cbn; [done|done|]. by rw app_nil_r.
Qed.
Lemma issuing_reachable s : rtc (create_step true) issuing_init s → issuing_ok s.
Proof. revert s. apply (rtc_ind_r issuing_ok); [by split|]. intros y z _ Hyz. by apply create_step_ok. Qed.

(** As long as Enter is not pressed while a key is being created, every secret
    the server sent was on the screen when the user closed the dialog, or is
    the one that waits, and the dialog shows the one that waits as soon as it
    is open. *)
Theorem created_secrets_shown `{!JSRuntime} (localeCompare : jstr → jstr → Z) (perms : list PermissionInfo) (s : issuing) :
  rtc (create_step true) issuing_init s →
  ∃ waiting, is_issued s = is_seen s ++ option_list waiting ∧
  ∀ k, waiting = Some k → ∀ collapsed search,
    cd_body (CreateApiKeyDialog localeCompare perms collapsed search (is_form s)) = BRaw (RawKeyDisplay k) ∧
    (ck_open (is_form s) = false →
     cd_body (CreateApiKeyDialog localeCompare perms collapsed search (onOpenChange true (is_form s))) = BRaw (RawKeyDisplay k)).
Proof.
  intros [_ _ H3]%issuing_reachable. eexists. split; [exact H3|]. intros k Hk collapsed search. unfold CreateApiKeyDialog. cbn. by rw Hk.
Qed.

Record detail_ok (s : detail_sys) : Prop := {
  do_secrets : ds_issued s = ds_seen s ++ match ds_mounted s with Some (_, d) => option_list (shown_raw (rotatedKey d)) | None => [] end;
  do_front : ∀ g d, ds_mounted s = Some (g, d) → editing d = true → shown_raw (rotatedKey d) = None;
  do_busy : ds_flights s ≠ [] ∨ ds_revoking s ≠ 0 → ∃ g d, ds_mounted s = Some (g, d) ∧ shown_raw (rotatedKey d) = None ∧
    (ds_flights s = [g] ∧ ds_revoking s = 0 ∧ editing d = false ∨ ds_flights s = [] ∧ ds_revoking s = 1)
}.
Lemma info_no_raw d : info_shown d = true → editing d = false ∧ shown_raw (rotatedKey d) = None.
Proof. unfold info_shown. intros [He Hn%no_raw_true]%andb_true_iff. by destruct (editing d). Qed.
Lemma not_busy s : calls_over s → ¬ (ds_flights s ≠ [] ∨ ds_revoking s ≠ 0).
Proof. intros [-> ->]. naive_solver. Qed.
Lemma detail_step_ok s t : detail_step true s t → detail_ok s → detail_ok t.
Proof.
  intros Hst [H1 H2 H3].
  destruct Hst as [n fl rv iss se Hi|g d n fl rv iss se Hs Hi|g d n fl rv iss se He|g d n fl rv iss se Hs Hr Hi|answer g m n fl1 fl2 rv iss se|g d k n fl rv iss se He Hk
    |g d n fl rv iss se Hs Hi|ok m n fl rv iss se|g d n fl rv iss se Hi]; cbn in *; try (specialize (Hi eq_refl) as Hi').
  - split; cbn; [done|by intros ? ? [= <- <-]|by intros ?%(not_busy _ Hi')].
  - apply info_no_raw in Hs as [He Hn]. split; cbn; [done|by intros ? ? [= <- <-]|by intros ?%(not_busy _ Hi')].
  - split; cbn; [done|by intros ? ? [= <- <-]|]. intros (g' & d' & [= <- <-] & Hn & Hc)%H3. eexists g, _. split; [done|]. split; [done|]. naive_solver.
  - apply info_no_raw in Hs as [He Hn]. destruct Hi' as [E1 E2]. cbn in E1, E2. subst. split; cbn; [done|by intros ? ? [= <- <-]|]. intros _. eexists g, _. split; [done|]. split; [done|]. naive_solver.
  - destruct H3 as (g' & d & -> & Hn & Hc); [left; by destruct fl1|].
    destruct Hc as [(E & -> & He)|[E _]]; [|by destruct fl1]. destruct fl1 as [|? [|? ?]]; [|done..]. injection E as -> ->. rw Nat.eqb_refl.
    rw Hn app_nil_r in H1. subst. split; cbn; [|by intros ? ? [= <- <-]; destruct answer; cbn; rw He|naive_solver]. unfold answer_secret. destruct answer; cbn; [done|by rw Hn].
  - split; cbn; [by rw H1 Hk app_nil_r|by intros ? ? [= <- <-]|]. intros (g' & d' & [= <- <-] & Hn & Hc)%H3. by rw Hn in Hk.
  - apply info_no_raw in Hs as [He Hn]. destruct Hi' as [E1 E2]. cbn in E1, E2. subst. split; cbn; [done|by intros ? ? [= <- <-]|]. intros _. eexists g, _. split; [done|]. split; [done|]. naive_solver.
  - destruct H3 as (g & d & -> & Hn & Hc); [by right|]. destruct Hc as [(_ & ? & _)|[-> [= ->]]]; [done|]. rw Hn app_nil_r in H1.
    destruct ok; split; cbn; [by rw app_nil_r|done|naive_solver|by rw Hn app_nil_r|by intros ? ? [= <- <-]|naive_solver].
  - split; cbn; [|done|by intros ?%(not_busy _ Hi')]. rw app_nil_r H1. destruct (editing d) eqn:He; [|done]. by rw (H2 _ _ eq_refl He).
Qed.
Lemma detail_reachable s : rtc (detail_step true) detail_sys_init s → detail_ok s.
Proof. revert s. apply (rtc_ind_r detail_ok); [split; cbn; naive_solver|]. intros y z _ Hyz. by apply detail_step_ok. Qed.

(** C31: if the user waits for each call of the detail dialog, every secret that a
    rotation gave was on the screen when it was dismissed, or is shown by the
    dialog that is mounted. *)
Theorem rotated_secrets_shown `{!JSRuntime} (now : Z) (labels : list (jstr * jstr)) (k : APIKey) (s : detail_sys) :
  rtc (detail_step true) detail_sys_init s →
  ∃ waiting, ds_issued s = ds_seen s ++ option_list waiting ∧
  ∀ r, waiting = Some r → ∃ g d, ds_mounted s = Some (g, d) ∧ KeyDetailDialog now labels k d = DRawKey r.
Proof.
  intros [H1 H2 _]%detail_reachable. exists (match ds_mounted s with Some (_, d) => shown_raw (rotatedKey d) | None => None end).
  destruct (ds_mounted s) as [[g d]|]; [|done]. split; [done|]. intros r Hr. exists g, d. split; [done|]. unfold KeyDetailDialog.
  destruct (editing d) eqn:He; [by rw (H2 _ _ eq_refl He) in Hr|]. unfold shown_raw in Hr. by destruct (rotatedKey d) as [[|c l]|]; simplify_eq.
Qed.

(** ** Secrets that are lost *)

(** Enter twice creates two keys, and the second secret replaces the first;
    when the dialog is closed meanwhile the first is never on the screen. *)
Theorem double_enter_loses_secret (k1 k2 : jstr) :
  truthy k1 = true → truthy k2 = true →
  ∃ s, rtc (create_step false) issuing_init s ∧ is_issued s = [k1; k2] ∧ is_seen s = [] ∧ ck_rawKey (is_form s) = Some k2 ∧ is_flights s = 0.
Proof.
  intros H1 H2. assert (Hs : ∀ k, truthy k = true → answer_secret (Some (Some k)) = [k]) by (intros [|] ?; done).
  eexists. split.
  - eapply rtc_l; [by apply cs_open|]. eapply rtc_l; [by apply (cs_edit _ "ci" [js "team.inboxes.view"] [] [])|].
    eapply rtc_l; [by apply cs_enter|]. eapply rtc_l; [by apply cs_enter|]. eapply rtc_l; [by apply cs_close|].
    eapply rtc_l; [by eapply (cs_answer _ (Some (Some k1)))|]. eapply rtc_l; [by eapply (cs_answer _ (Some (Some k2)))|]. apply rtc_refl.
  - cbn [is_issued is_seen is_form is_flights start_create issuing_init]. by rw !Hs.
Qed.

(** Closing the dialog while a key is being rotated loses its new secret: the
    answer reaches an instance that is gone. *)
Theorem closed_rotation_loses_secret (k : jstr) :
  truthy k = true →
  ∃ s, rtc (detail_step false) detail_sys_init s ∧ ds_issued s = [k] ∧ ds_seen s = [] ∧ ds_mounted s = None ∧ calls_over s.
Proof.
  intros Hk. eexists (DetailSys None 1 [] 0 ([] ++ answer_secret (Some (Some k))) []). split.
  - eapply rtc_l; [by apply ds_open|]. eapply rtc_l; [by apply ds_rotate|]. eapply rtc_l; [by apply ds_close|].
    eapply rtc_l; [by apply (ds_answer _ (Some (Some k)) 0 None 1 [] [])|]. apply rtc_refl.
  - by destruct k.
Qed.
(** A revocation that is answered late closes the dialog of another key, also
    while that shows a new secret. *)
Theorem late_revocation_loses_secret (k : jstr) :
  truthy k = true →
  ∃ s t, rtc (detail_step false) detail_sys_init s ∧ on_screen (ds_mounted s) = [k] ∧
    detail_step false s t ∧ ds_mounted t = None ∧ ds_issued t = [k] ∧ ds_seen t = [].
Proof.
  intros Hk. eexists (DetailSys (Some (1, rotate_finish (Some (Some k)) (set_rotating true detail_init))) 2 [] 1 ([] ++ answer_secret (Some (Some k))) []), _.
  split_and!; [|by destruct k|by apply (ds_revoked _ true)|done|by destruct k|done].
  eapply rtc_l; [by apply ds_open|]. eapply rtc_l; [by apply ds_revoke|]. eapply rtc_l; [by apply ds_close|].
  eapply rtc_l; [by apply ds_open|]. eapply rtc_l; [by apply ds_rotate|].
  eapply rtc_l; [by apply (ds_answer _ (Some (Some k)) 1 (Some (1, set_rotating true detail_init)) 2 [] [])|]. apply rtc_refl.
Qed.

(** ** What the picker can select *)
Section picker.
Context `{!JSRuntime} (localeCompare : jstr → jstr → Z) (perms : list PermissionInfo).

(** A click on something the picker shows, with any search and any groups
    collapsed. *)
Inductive picker_step : list jstr → list jstr → Prop :=
| ps_toggle collapsed search g p c sel :
    g ∈ pv_groups (ScopePicker localeCompare perms sel collapsed search) → (p, c) ∈ gv_rows g →
    picker_step sel (toggleScope (PermissionInfo_key p) sel)
| ps_group (all : bool) collapsed search g sel :
    g ∈ pv_groups (ScopePicker localeCompare perms sel collapsed search) →
    picker_step sel ((if all then selectAllGroup else deselectAllGroup) (gv_keys g) sel)
| ps_top (all : bool) collapsed search sel :
    picker_step sel ((if all then selectAllGroup else deselectAllGroup) (pv_all (ScopePicker localeCompare perms sel collapsed search)) sel).

Definition known (x : jstr) : Prop := x ∈ PermissionInfo_key <$> perms.

Lemma shown_known sel collapsed search g x :
  g ∈ pv_groups (ScopePicker localeCompare perms sel collapsed search) → x ∈ gv_keys g → known x.
Proof.
  intros (pg & -> & Hpg)%list_elem_of_fmap (p & -> & Hp)%list_elem_of_fmap.
  apply list_elem_of_fmap. exists p. split; [done|].
  pose proof (filtered_groups_spec localeCompare perms search) as [Hc _].
  assert (Hin : p ∈ concat (pg_permissions <$> filtered_groups (groupPermissions localeCompare perms) search)).
  { apply list_elem_of_In, in_concat. exists (pg_permissions pg). split; [|by apply list_elem_of_In]. by apply list_elem_of_In, list_elem_of_fmap_2. }
  rewrite Hc in Hin. case_match; [|done]. by apply elem_of_List_filter_any in Hin as [? _].
Qed.
Lemma row_key g p c sel collapsed search :
  g ∈ pv_groups (ScopePicker localeCompare perms sel collapsed search) → (p, c) ∈ gv_rows g → PermissionInfo_key p ∈ gv_keys g.
Proof.
  intros (pg & -> & _)%list_elem_of_fmap. cbn. case_match; [by intros ?%elem_of_nil|]. intros (q & [= -> _] & Hq)%list_elem_of_fmap. by apply list_elem_of_fmap_2.
Qed.
Lemma picker_frame sel sel' x : rtc picker_step sel sel' → ¬ known x → x ∈ sel' ↔ x ∈ sel.
Proof.
  intros Hr Hx. revert sel' Hr. apply (rtc_ind_r (λ s, x ∈ s ↔ x ∈ sel)); [done|]. intros y z _ Hyz <-.
  destruct Hyz as [collapsed search g p c s Hg Hp|all collapsed search g s Hg|all collapsed search s].
  - unfold toggleScope. rw elem_of_set_toggle. assert (x ≠ PermissionInfo_key p) by (intros ->; eapply Hx, shown_known; [done|by eapply row_key]). naive_solver.
  - assert (x ∉ gv_keys g) by (intros Hg'; by eapply Hx, shown_known). unfold selectAllGroup, deselectAllGroup. destruct all; rw ?fold_set_add_elem ?fold_set_delete_elem; naive_solver.
  - unfold selectAllGroup, deselectAllGroup. destruct all; rw ?fold_set_add_elem ?fold_set_delete_elem; naive_solver.
Qed.
Lemma toggle_offered sel x : known x → picker_step sel (toggleScope x sel).
Proof.
  intros (p & -> & Hp)%list_elem_of_fmap.
  pose proof (groupPermissions_concat localeCompare perms) as Hc. rewrite -Hc in Hp.
  apply list_elem_of_In, in_concat in Hp as (l & Hl%list_elem_of_In & Hp%list_elem_of_In). apply list_elem_of_fmap in Hl as (g & -> & Hg).
  eapply (ps_toggle [] [] (group_row sel [] g)); [by apply list_elem_of_fmap_2|]. cbn. by apply list_elem_of_fmap; exists p.
Qed.
Lemma toggles_offered l sel : NoDup l → Forall known l → (∀ x, x ∈ l → x ∉ sel) →
  ∃ sel', rtc picker_step sel sel' ∧ ∀ x, x ∈ sel' ↔ x ∈ sel ∨ x ∈ l.
Proof.
  revert sel. induction l as [|y l IH]; intros sel Hn Hk Hd; [exists sel; split; [done|set_solver]|].
  apply NoDup_cons in Hn as [Hy Hn]. apply Forall_cons in Hk as [Hky Hk].
  destruct (IH (toggleScope y sel)) as (sel' & Hr & Hs); [done|done| |].
  - intros x Hx. unfold toggleScope. rw elem_of_set_toggle. assert (x ∉ sel) by (apply Hd; by right). naive_solver.
  - exists sel'. split; [eapply rtc_l; [by apply toggle_offered|done]|]. intros x. rw Hs. unfold toggleScope. rw elem_of_set_toggle elem_of_cons.
    assert (y ∉ sel) by (apply Hd; by left). destruct (decide (x = y)) as [->|]; naive_solver.
Qed.

(** From a selection the picker reaches, up to order, exactly those that agree
    with it on the scopes it does not list: every choice of known scopes, and
    no change of the others. *)
Theorem picker_reaches (sel target : list jstr) :
  (∃ sel', rtc picker_step sel sel' ∧ ∀ x, x ∈ sel' ↔ x ∈ target) ↔ ∀ x, ¬ known x → (x ∈ target ↔ x ∈ sel).
Proof.
  split.
  - intros (sel' & Hr & Ht) x Hx. rw -Ht. by apply picker_frame.
  - intros Hx. set (cleared := deselectAllGroup (PermissionInfo_key <$> perms) sel).
    assert (Hcl : ∀ x, x ∈ cleared ↔ x ∈ sel ∧ ¬ known x) by (intros x; unfold cleared, deselectAllGroup; by rw fold_set_delete_elem).
    destruct (toggles_offered (set_of (List.filter (λ x, bool_decide (x ∈ PermissionInfo_key <$> perms)) target)) cleared) as (sel' & Hr & Hs).
    + apply NoDup_set_of.
    + apply Forall_forall. intros x. rw elem_of_set_of elem_of_List_filter bool_decide_eq_true. by intros [].
    + intros x. rw elem_of_set_of elem_of_List_filter bool_decide_eq_true Hcl. naive_solver.
    + exists sel'. split; [eapply rtc_l; [apply (ps_top false [] [])|exact Hr]|]. intros x. rw Hs Hcl elem_of_set_of elem_of_List_filter bool_decide_eq_true.
      specialize (Hx x). destruct (decide (x ∈ PermissionInfo_key <$> perms)); unfold known in *; naive_solver.
Qed.
End picker.

(** ** Examples *)

Definition after_rotation : detail_sys :=
  DetailSys (Some (0, rotate_finish (Some (Some (js "bb_1"))) (set_rotating true detail_init))) 1 [] 0 [js "bb_1"] [].
Lemma rotated_secrets_shown_witness :
  rtc (detail_step true) detail_sys_init after_rotation ∧
  ∃ g d, ds_mounted after_rotation = Some (g, d) ∧ KeyDetailDialog (H0 := AsciiRuntime) 0 [] a_key d = DRawKey "bb_1".
Proof.
  assert (Hr : rtc (detail_step true) detail_sys_init after_rotation).
  { eapply rtc_l; [by apply ds_open|]. eapply rtc_l; [by apply ds_rotate|].
    eapply rtc_l; [by apply (ds_answer _ (Some (Some (js "bb_1"))) 0 (Some (0, set_rotating true detail_init)) 1 [] [])|]. apply rtc_refl. }
  split; [done|]. destruct (rotated_secrets_shown (H := AsciiRuntime) 0 [] a_key after_rotation Hr) as (waiting & Hw & Hs).
  apply Hs. cbn in Hw. destruct waiting as [r|]; [|done]. cbn in Hw. by injection Hw as <-.
Defined.

Definition after_creation : issuing := Issuing
  {| ck_name := "ci"; ck_scopes := [js "team.inboxes.view"]; ck_expiresIn := []; ck_allowedIps := []; ck_rawKey := Some (js "bb_1");
     ck_creating := false; ck_open := true |} 0 [js "bb_1"] [].
Lemma created_secrets_shown_witness :
  rtc (create_step true) issuing_init after_creation ∧
  cd_body (CreateApiKeyDialog (H := AsciiRuntime) (λ _ _, 0%Z) [] [] [] (is_form after_creation)) = BRaw (RawKeyDisplay "bb_1").
Proof.
  assert (Hr : rtc (create_step true) issuing_init after_creation).
  { eapply rtc_l; [by apply cs_open|]. eapply rtc_l; [by apply (cs_edit _ "ci" [js "team.inboxes.view"] [] [])|].
    eapply rtc_l; [by apply cs_click|]. eapply rtc_l; [by eapply (cs_answer _ (Some (Some (js "bb_1"))))|]. apply rtc_refl. }
  split; [done|]. destruct (created_secrets_shown (H := AsciiRuntime) (λ _ _, 0%Z) [] after_creation Hr) as (waiting & Hw & Hs).
  refine (proj1 (Hs (js "bb_1") _ [] [])). cbn in Hw. destruct waiting as [r|]; [|done]. cbn in Hw. by injection Hw as <-.
Defined.

(** A scope that is no longer known is counted but not shown, and stays
    selected whatever is clicked. *)
Example unknown_scope_stays :
  let selected := [js "team.legacy.use"] in
  let perms := perm_of <$> [js "team.inboxes.view"] in
  pv_count (ScopePicker (H := AsciiRuntime) (λ _ _, 0%Z) perms (selectAllGroup (PermissionInfo_key <$> perms) selected) [] [])
    = js "2 of 1 scopes selected" ∧
  deselectAllGroup (PermissionInfo_key <$> perms) selected = selected.
Proof. by vm_compute. Qed.
