(* ===== verification/PageFrame.v ===== *)
(** * Around the page

    What surrounds and replaces a page: the sidebar and the bar on top
    ([components/layout/sidebar.tsx], [top-nav.tsx], [footer.tsx]), the
    progress bar of navigations, the indicator of pull to refresh, the banner
    without network, the states without organisation, team or data, the error
    pages, [providers.tsx], the root layout and [lib/clipboard.ts].  The guards
    and layouts themselves are in [Shell]. *)

From S2P Require Import Prelude Regex Browser Types ApiClient AuthStore OrgStore React Hooks Lib Shell.
Import Hooks.PullToRefresh Hooks.Small Lib.DocsUrl.

(** ** Navigation *)

Inductive badge_mark := NoBadge | BadgeText (t : jstr) | BadgeDot.
Record nav_link := {
  nl_href : jstr; nl_new_tab : bool; nl_title : option jstr; nl_label : option jstr; nl_active : bool; nl_badge : badge_mark; nl_arrow : bool
}.
Definition NavLink (i : nav_item) (active collapsed : bool) (badge : option Z) : nav_link := {|
  nl_href := nv_href i;
  nl_new_tab := nv_external i;
  nl_title := if collapsed then Some (nv_label i) else None;
  nl_label := if collapsed then None else Some (nv_label i);
  nl_active := active;
  nl_badge := match nav_badge badge with
              | None => NoBadge
              | Some t => if collapsed then BadgeDot else BadgeText t
              end;
  nl_arrow := nv_external i && negb collapsed |}.

Record org_card := { oc_image : option jstr; oc_initial : option jstr; oc_name : option jstr; oc_slug : option jstr; oc_title : option jstr }.
Record user_card := { uc_initial : jstr; uc_title : option jstr; uc_name : option jstr; uc_email : option jstr }.
Record sidebar_view := {
  sb_collapsed : bool; sb_toggle : jstr; sb_org : option org_card; sb_nav : list nav_link; sb_heading : option jstr;
  sb_manage : list nav_link; sb_user : user_card; sb_version : option jstr
}.
Section navigation.
Context `{!JSRuntime, !AppEnv} (t : jstr → jstr) (docs_env : option jstr).

Definition org_card_of (collapsed : bool) (o : Organization) : org_card :=
  let logo := match Organization_logo_url o with Some ((_ :: _) as u) => Some u | _ => None end in {|
  oc_image := logo;
  oc_initial := if logo then None else Some (toUpperCase (take 1 (Organization_name o)));
  oc_name := if collapsed then None else Some (Organization_name o);
  oc_slug := if collapsed then None else Some (Organization_slug o);
  oc_title := if collapsed then Some (Organization_name o) else None |}.
Definition user_card_of (collapsed : bool) (u : option User) : user_card :=
  let name := from_option User_display_name [] u in {|
  uc_initial := userInitial u;
  uc_title := if collapsed then Some (jor name "Profile") else None;
  uc_name := if collapsed then None else Some (jor name "User");
  uc_email := if collapsed then None else User_email <$> u |}.
(** [enabled: !!user?.is_system_admin]. *)
Definition version_query {S} (u : option User) : option (M S (option json)) :=
  if from_option User_is_system_admin false u then Some (api_get "/admin/version" None) else None.
Definition Sidebar (collapsed : bool) (pathname : jstr) (u : option User) (currentOrg : option Organization) (orgs : list Organization)
    (version : option jstr) : sidebar_view :=
  let manage := visibleManageItems t orgs u in {|
  sb_collapsed := collapsed;
  sb_toggle := if collapsed then "Expand sidebar" else "Collapse sidebar";
  sb_org := org_card_of collapsed <$> currentOrg;
  sb_nav := (λ i, NavLink i (nav_active pathname i) collapsed None) <$> navItems t docs_env;
  sb_heading := match manage with [] => None | _ => if collapsed then None else Some (t "manage") end;
  sb_manage := (λ i, NavLink i (startsWith pathname (nv_href i)) collapsed None) <$> manage;
  sb_user := user_card_of collapsed u;
  sb_version := if collapsed then None else match displayVersion version with Some ((_ :: _) as v) => Some ("v" ++ v) | _ => None end |}.

Record top_view := { tn_links : list (jstr * jstr * bool * bool); tn_initial : jstr; tn_name : option jstr }.
(** Each link with its address, its label, whether it is active and whether it
    opens a new tab. *)
Definition TopNav (pathname : jstr) (u : option User) : top_view := {|
  tn_links := (λ i, (nv_href i, nv_label i, nav_active pathname i, nv_external i)) <$> navItems t docs_env;
  tn_initial := userInitial u;
  tn_name := User_display_name <$> u |}.
Definition Footer : list (jstr * jstr) := [
  (docsUrl docs_env [], js "Docs"); (js "https://github.com/AmJaradat01/burnerbyte", js "GitHub")].
End navigation.
Definition Logo (collapsed : bool) : jstr := if collapsed then "B" else "BurnerByte".

(** ** In place of a page *)

Record state_view := { sv_title : jstr; sv_description : jstr; sv_action : option (jstr * jstr) }.   (* label and destination *)
Definition NoTeamState (resource : jstr) : state_view := {|
  sv_title := "No team yet";
  sv_description := resource ++ " belong to a team. Create your first team to get started.";
  sv_action := Some (js "Go to Teams", js "/teams") |}.
Definition NoOrgState (u : option User) : state_view :=
  if from_option User_is_system_admin false u then {|
    sv_title := "No organization yet";
    sv_description := "Create your first organization to start adding domains, teams, and inboxes.";
    sv_action := Some (js "Create organization", js "/onboarding") |}
  else {|
    sv_title := "No organization";
    sv_description := "You are not a member of any organization yet. Ask an admin to invite you; once you accept, it will appear here.";
    sv_action := None |}.
Definition state_click {S} (v : state_view) : M S unit := if sv_action v is Some (_, p) then emit (EPush p) else mret tt.
(** The message, and whether there is a button to try again. *)
Definition ErrorState (message : option jstr) (onRetry : bool) : jstr * jstr * bool :=
  (js "Something went wrong", default (js "Something went wrong") message, onRetry).
Definition GlobalError (digest : option jstr) : option jstr := match digest with Some ((_ :: _) as d) => Some ("Reference: " ++ d) | _ => None end.
Definition AdminPage : jstr := "/settings".
Definition InboxesPage : jstr := "/".
Definition OfflineBanner (navigator : option bool) (events : list net_event) : option jstr :=
  if useOnline navigator events then None else Some (js "You are offline. Some features may be unavailable.").
(** [dir] of the document. *)
Definition rtlLocales : list jstr := [].
Definition document_dir (locale : jstr) : jstr := if set_has rtlLocales locale then "rtl" else "ltr".

(** The application is drawn after its first effect, which starts the
    bootstrap of the session. *)
Record Providers := { pv_mounted : bool; pv_auth : AuthState }.
Definition providers_mount `{!AppEnv} : M Providers unit :=
  modify (λ s, {| pv_mounted := true; pv_auth := pv_auth s |});;
  zoom pv_auth (λ a s, {| pv_mounted := pv_mounted s; pv_auth := a |}) fetchMe.

(** [copyToClipboard]: what is copied, and through which interface. *)
Inductive copied := Written (text : jstr) | Selected (text : jstr).
Definition copyToClipboard (has_clipboard : bool) (text : jstr) : copied := if has_clipboard then Written text else Selected text.

(** ** The progress of a navigation

    Each change of the path clears the timers of the one before and starts
    three; times are in milliseconds. *)
Record Progress := { pg_progress : Z; pg_visible : bool; pg_now : Z; pg_timers : list (Z * (Z * bool)) }.
Definition progress_init : Progress := {| pg_progress := 0; pg_visible := false; pg_now := 0; pg_timers := [] |}.
Definition progress_start (s : Progress) : Progress := {|
  pg_progress := 30; pg_visible := true; pg_now := pg_now s;
  pg_timers := [(pg_now s + 100, (70, true)); (pg_now s + 300, (100, true)); (pg_now s + 500, (0, false))]%Z |}.
Definition fire_timer (s : Progress) (timer : Z * (Z * bool)) : Progress :=
  {| pg_progress := fst (snd timer); pg_visible := snd (snd timer); pg_now := pg_now s; pg_timers := pg_timers s |}.
(** Time passes; the timers that are due run in the order they were set. *)
Definition elapse (d : Z) (s : Progress) : Progress :=
  let now := (pg_now s + d)%Z in
  let s' := fold_left fire_timer (List.filter (λ t, (fst t <=? now)%Z) (pg_timers s)) s in
  {| pg_progress := pg_progress s'; pg_visible := pg_visible s'; pg_now := now;
     pg_timers := List.filter (λ t, negb (fst t <=? now)%Z) (pg_timers s) |}.
Inductive progress_event := Navigated | Elapsed (d : Z).
Definition progress_step (s : Progress) (e : progress_event) : Progress :=
  match e with Navigated => progress_start s | Elapsed d => elapse d s end.
(** [null] without progress; otherwise the width in percent and the opacity. *)
Definition PageProgress (s : Progress) : option (Z * bool) :=
  if negb (pg_visible s) && (pg_progress s =? 0)%Z then None else Some (pg_progress s, pg_visible s).

(** ** Pull to refresh *)

Record pull_view := { pi_height4 : option Z; pi_spinner : bool; pi_ready : bool }.
(** [pi_height4] is four times the square of the height in pixels; [ready] is
    [Math.min(pullDistance / threshold, 1) >= 1] for a positive threshold. *)
Definition PullToRefreshIndicator (threshold : Z) (s : pull) : option pull_view :=
  if negb (pulling s) && negb (refreshing s) then None
  else Some {| pi_height4 := if pulling s then Some (pullDistance4 s) else None;
               pi_spinner := refreshing s;
               pi_ready := (4 * threshold * threshold <=? pullDistance4 s)%Z |}.

(** ** Theorems *)

(** What the bar shows [d] milliseconds after a navigation. *)
Definition progress_after (d : Z) : option (Z * bool) :=
  if (d <? 100)%Z then Some (30, true)%Z else if (d <? 300)%Z then Some (70, true)%Z else if (d <? 500)%Z then Some (100, true)%Z else None.
Definition since (d : Z) (s : Progress) : Prop :=
  (0 ≤ d)%Z ∧
  pg_timers s = List.filter (λ t, negb (fst t <=? pg_now s)%Z)
    [(pg_now s - d + 100, (70, true)); (pg_now s - d + 300, (100, true)); (pg_now s - d + 500, (0, false))]%Z ∧
  PageProgress s = progress_after d ∧ (d < 500 → pg_visible s = true)%Z ∧ (500 ≤ d → pg_visible s = false ∧ pg_progress s = 0)%Z.
Lemma since_start s : since 0 (progress_start s).
Proof.
  split_and!; [lia| |done|done|lia]. cbn [pg_timers pg_now progress_start List.filter fst]. rw Z.sub_0_r.
  by rw !(proj2 (Z.leb_gt _ _)) //; lia.
Qed.
Ltac leb := repeat match goal with
  | |- context [(?a <=? ?b)%Z] => first [rewrite (proj2 (Z.leb_le a b)); [|lia]|rewrite (proj2 (Z.leb_gt a b)); [|lia]]
  | |- context [(?a <? ?b)%Z] => first [rewrite (proj2 (Z.ltb_lt a b)); [|lia]|rewrite (proj2 (Z.ltb_ge a b)); [|lia]]
  end.
Lemma since_elapse d e s : since d s → (0 ≤ e)%Z → since (d + e) (elapse e s).
Proof.
  intros (H0 & Ht & Hp & Hv & Hh) He. unfold since, elapse. rewrite Ht. clear Ht. cbn [pg_timers pg_now List.filter fst].
  replace (pg_now s + e - (d + e))%Z with (pg_now s - d)%Z by lia.
  unfold PageProgress, progress_after in *. cbn [pg_visible pg_progress].
  destruct (Z_lt_le_dec d 100), (Z_lt_le_dec d 300), (Z_lt_le_dec d 500); try lia;
  destruct (Z_lt_le_dec (d + e) 100), (Z_lt_le_dec (d + e) 300), (Z_lt_le_dec (d + e) 500); try lia;
  leb; cbn; leb; cbn; (split_and!; [lia|done|..]).
  all: revert Hp; leb; intros Hp; try done; try lia; auto with lia.
Qed.
(** The bar depends on the time since the last navigation alone, however
    navigations follow each other: it fills in three steps and is gone after
    half a second. *)
Theorem progress_spec (before : list progress_event) (ds : list Z) :
  Forall (λ d, 0 ≤ d)%Z ds →
  PageProgress (fold_left progress_step (before ++ Navigated :: (Elapsed <$> ds)) progress_init) = progress_after (sumZ ds).
Proof.
  intros Hd. rw fold_left_app. cbn [fold_left]. generalize (fold_left progress_step before progress_init). intros s.
  assert (Hs : ∀ d s, since d s → since (d + sumZ ds) (fold_left progress_step (Elapsed <$> ds) s)).
  { induction Hd as [|x ds Hx Hd IH]; intros d s' H'; cbn [fmap list_fmap fold_left]; [by rw Z.add_0_r|].
    rw sumZ_cons Z.add_assoc. apply IH. by apply since_elapse. }
  specialize (Hs 0%Z _ (since_start s)). rw Z.add_0_l in Hs. apply Hs.
Qed.

(** The indicator is ready exactly when letting go would refresh. *)
Theorem indicator_promises (threshold : Z) (s : pull) (v : pull_view) :
  PullToRefreshIndicator threshold s = Some v → pullingRef s = true →
  snd (handleTouchEnd threshold s) = pi_ready v && negb (pi_spinner v).
Proof.
  unfold PullToRefreshIndicator. destruct (negb (pulling s) && _); [done|]. intros [= <-] Hp. cbn.
  unfold handleTouchEnd. rw Hp. cbn [negb]. unfold reaches. by destruct (_ && _).
Qed.

(** Of texts of which none begins another, a path has at most one as its
    beginning. *)
Fixpoint prefix_free (l : list jstr) : bool :=
  match l with [] => true | x :: k => forallb (λ y, negb (startsWith x y) && negb (startsWith y x)) k && prefix_free k end.
Lemma common_path (p a b : jstr) : startsWith p a = true → startsWith p b = true → startsWith a b = true ∨ startsWith b a = true.
Proof.
  rw !startsWith_app. intros [u ->] [v E]. destruct (app_eq_inv _ _ _ _ E) as [(k & -> & _)|(k & -> & _)]; [left|right]; by eexists.
Qed.
Lemma prefix_free_one p l : prefix_free l = true → length (List.filter (startsWith p) l) ≤ 1.
Proof.
  induction l as [|x l IH]; cbn; [lia|]. intros [Hf Hl]%andb_true_iff. specialize (IH Hl). destruct (startsWith p x) eqn:Ex; [|done].
  rw List_filter_false //. intros y Hy. apply not_true_iff_false. intros Ey. apply forallb_True_iff in Hf. rw Forall_forall in Hf.
  specialize (Hf y Hy). apply andb_true_iff in Hf as [H1 H2]. apply negb_true_iff in H1, H2.
  destruct (common_path p x y Ex Ey); congruence.
Qed.

Section nav_theorems.
Context `{!JSRuntime, !AppEnv} (t : jstr → jstr) (docs_env : option jstr).

(** At most one item of the sidebar is marked as the present page: none of the
    addresses is the beginning of another. *)
Theorem one_item_active collapsed pathname u o orgs version :
  let v := Sidebar t docs_env collapsed pathname u o orgs version in
  length (List.filter nl_active (sb_nav v ++ sb_manage v)) ≤ 1.
Proof.
  intros v. set (hrefs := js <$> ["/dashboard"; "/domains"; "/teams"; "/webhooks"; "/api-keys"; "/audit"; "/analytics"; "/settings"]%string).
  assert (Hm : ∀ l : list nav_item, length (List.filter nl_active ((λ i, NavLink i (startsWith pathname (nv_href i)) collapsed None) <$> l))
    = length (List.filter (startsWith pathname) (nv_href <$> l))).
  { induction l as [|i l IH]; cbn; [done|]. destruct (startsWith pathname (nv_href i)); cbn; by rw IH. }
  assert (Hsub : (nv_href <$> visibleManageItems t orgs u) `sublist_of` hrefs).
  { unfold visibleManageItems. destruct (0 <? length orgs)%nat; [done|]. destruct (from_option _ _ u); [|apply sublist_nil_l].
    change (nv_href <$> List.filter _ _) with [js "/audit"; js "/settings"].
    do 5 apply sublist_cons. apply sublist_skip, sublist_cons, sublist_skip, sublist_nil. }
  rw List.filter_app length_app. cbn [v Sidebar sb_nav sb_manage]. rw Hm.
  assert (Hh : length (List.filter (startsWith pathname) (nv_href <$> visibleManageItems t orgs u)) ≤ length (List.filter (startsWith pathname) hrefs)).
  { induction Hsub as [|x l k Hs IH|x l k Hs IH]; cbn; [done| |]; destruct (startsWith pathname x); cbn; lia. }
  assert (Hn : length (List.filter nl_active ((λ i, NavLink i (nav_active pathname i) collapsed None) <$> navItems t docs_env)) = Nat.b2n (pathname =?s "/")).
  { cbn. by destruct (pathname =?s "/"). }
  rw Hn. destruct (pathname =?s "/") eqn:E; cbn [Nat.b2n].
  - apply jeqb_eq in E. rw E in Hh |- *. change (length (List.filter (startsWith "/") hrefs)) with 0 in Hh. lia.
  - pose proof (prefix_free_one pathname hrefs eq_refl). lia.
Qed.
End nav_theorems.
