(* ===== verification/SiteConfig.v ===== *)
(** * What the site tells machines

    The security policy and links of [next.config.mjs], the crawler rules of
    [app/robots.ts], the site map of [app/sitemap.ts] and the API catalogue of
    [app/.well-known/api-catalog/route.ts]; the policy is compared with the
    addresses [ApiClient] sends requests to. *)

From S2P Require Import Prelude Regex Browser ApiClient Lib Mail.
Import Mail.EmailHtml.

(** ** The headers of every page *)

(** [s.replace(sub, [])] for a string [sub]: its first occurrence is removed. *)
Fixpoint remove_literal (sub s : jstr) : jstr :=
  if startsWith s sub then drop (length sub) s else match s with [] => [] | c :: t => c :: remove_literal sub t end.

Section config.
Context `{!AppEnv}.

Definition siteUrl : jstr := jor (default [] NEXT_PUBLIC_SITE_URL) "https://burnerbyte.com".
Definition apiUrl : jstr := jor (default [] NEXT_PUBLIC_API_URL) "http://localhost:8080/api/v1".
Definition wsUrl : jstr := jor (default [] NEXT_PUBLIC_WS_URL) "ws://localhost:8080/api/v1/ws".
Definition connect_sources : list jstr :=
  [js "'self'"; apiUrl; wsUrl; remove_literal "/api/v1" apiUrl; remove_literal "/api/v1/ws" wsUrl].
Definition policy_parts : list jstr := [
  js "default-src 'self'";
  js "script-src 'self' 'unsafe-inline' 'unsafe-eval'";
  js "style-src 'self' 'unsafe-inline'";
  "connect-src " ++ join " " connect_sources;
  js "img-src 'self' https: data: blob:";
  js "font-src 'self' data:";
  js "frame-src 'self'";
  js "base-uri 'self'";
  js "form-action 'self'"].
Definition Content_Security_Policy : jstr := join "; " policy_parts.
Definition securityHeaders : list (jstr * jstr) := [
  (js "X-Frame-Options", js "DENY"); (js "X-Content-Type-Options", js "nosniff");
  (js "Referrer-Policy", js "strict-origin-when-cross-origin"); (js "X-XSS-Protection", js "0");
  (js "Permissions-Policy", js "camera=(), microphone=(), geolocation=()");
  (js "Content-Security-Policy", Content_Security_Policy)].
Definition link (url rel : jstr) : jstr := "<" ++ url ++ ">; rel=" ++ dq ++ rel ++ dq.
Definition Link_header : jstr :=
  link "/.well-known/api-catalog" "api-catalog" ++ ", " ++ link (siteUrl ++ "/docs/api") "service-doc" ++ ", "
  ++ link (apiUrl ++ "/docs/openapi.json") "service-desc".
(** [headers()]: the headers of a path. *)
Definition headers_for (path : jstr) : list (jstr * jstr) :=
  if path =?s "/" then securityHeaders ++ [(js "Link", Link_header)] else securityHeaders.

(** ** The API catalogue *)

Record Catalog := { cat_anchor : jstr; cat_desc : jstr; cat_doc : jstr; cat_status : jstr }.
Definition catalog_API_BASE : jstr := jor (default [] NEXT_PUBLIC_API_URL) (siteUrl ++ "/api/v1").
Definition api_catalog (NEXT_PUBLIC_DOCS_URL : option jstr) : Catalog := {|
  cat_anchor := catalog_API_BASE ++ "/";
  cat_desc := catalog_API_BASE ++ "/docs/openapi.json";
  cat_doc := DocsUrl.docsUrl NEXT_PUBLIC_DOCS_URL "api";
  cat_status := siteUrl ++ "/healthz" |}.

(** ** The site map *)

Record SitemapEntry := { sm_url : jstr; sm_changeFrequency : jstr; sm_priority : Z }.   (* the priority in tenths *)
Definition sitemap : list SitemapEntry := [
  {| sm_url := siteUrl; sm_changeFrequency := "monthly"; sm_priority := 10 |};
  {| sm_url := siteUrl ++ "/login"; sm_changeFrequency := "monthly"; sm_priority := 8 |}].
End config.

(** ** Crawlers *)

Record RobotsRule := { userAgent : jstr; allow : list jstr; disallow : list jstr }.
Definition blocked_agent (a : jstr) : RobotsRule := {| userAgent := a; allow := []; disallow := [js "/"] |}.
Definition robots_rules : list RobotsRule := [
  {| userAgent := "*"; allow := [js "/"; js "/login"];
     disallow := js <$> ["/dashboard"; "/settings"; "/profile"; "/analytics"; "/audit"; "/api-keys"; "/webhooks"; "/teams"; "/domains";
                         "/inboxes"; "/register"; "/setup"; "/onboarding"; "/invite"; "/reset-password"; "/verify-email"; "/api/"]%string |};
  blocked_agent "GPTBot"; blocked_agent "ChatGPT-User";
  {| userAgent := "OAI-SearchBot"; allow := [js "/"]; disallow := [js "/dashboard"; js "/settings"; js "/api/"] |};
  blocked_agent "Claude-Web"; blocked_agent "Google-Extended"; blocked_agent "CCBot"; blocked_agent "anthropic-ai"; blocked_agent "Bytespider"].
(** The Robots Exclusion Protocol (RFC 9309): the group of the agent, or that
    of all others; in it the longest rule that the path starts with decides,
    and an allowing one wins a tie; without any, the path is allowed. *)
Definition group_of (agent : jstr) : option RobotsRule :=
  match List.find (λ r, userAgent r =?s agent) robots_rules with
  | Some r => Some r
  | None => List.find (λ r, userAgent r =?s "*") robots_rules
  end.
Definition longest (rules : list jstr) (path : jstr) : nat :=
  fold_right Nat.max 0 (length <$> List.filter (λ p, startsWith path p) rules).
Definition crawl_allowed (agent path : jstr) : bool :=
  match group_of agent with
  | None => true
  | Some r => (longest (disallow r) path <=? longest (allow r) path)%nat
  end.

(** ** What the policy admits *)

(** The origin and the path of an absolute address: the path starts at the
    first slash after the authority and ends before query and fragment. *)
Fixpoint split_at (c : N) (s : jstr) : jstr * jstr :=
  match s with [] => ([], []) | x :: t => if (x =? c)%N then ([], s) else let '(a, b) := split_at c t in (x :: a, b) end.
Definition split_url (url : jstr) : jstr * jstr :=
  let '(scheme, rest) := split_at 58 url in
  let '(host, path) := split_at 47 (drop 3 rest) in
  (scheme ++ take 3 rest ++ host, take_while (λ c, negb ((c =? 63) || (c =? 35))%N) path).
(** Whether a source expression with a host matches an address of its scheme
    (Content Security Policy Level 3): the origins are the same, and the path
    of the source is empty, or a directory of the path, or the path. *)
Definition source_matches (src url : jstr) : bool :=
  let '(o, p) := split_url src in
  let '(o', p') := split_url url in
  (o =?s o') && (negb (truthy p) || (if endsWith p "/" then startsWith p' p else p =?s p')).
Definition may_connect (policy origin url : jstr) : bool :=
  existsb (λ src, if src =?s "'self'" then source_matches origin url else source_matches src url) (sources_for policy "connect-src").

(** ** Reading the policy *)

Definition plain (s : jstr) : Prop := s ≠ [] ∧ 32%N ∉ s ∧ 59%N ∉ s.

Lemma split_on_join c (l : list jstr) : l ≠ [] → (∀ s, s ∈ l → c ∉ s) → split_on c (join [c] l) = l.
Proof.
  intros Hl Hc. induction l as [|s [|s' l] IH]; [done| |].
  - cbn. apply split_on_none, Hc. by left.
  - change (join [c] (s :: s' :: l)) with (s ++ c :: join [c] (s' :: l)). rw split_on_app; [|apply Hc; by left].
    f_equal. apply IH; [done|]. intros x Hx. apply Hc. by right.
Qed.
(** The parts of a policy are its directives, but for a space before all but
    the first. *)
Lemma split_policy (p : jstr) (l : list jstr) : (∀ s, s ∈ p :: l → 59%N ∉ s) → split_on 59 (join "; " (p :: l)) = p :: (cons 32%N <$> l).
Proof.
  revert p. induction l as [|p' l IH]; intros p Hc; [apply split_on_none, Hc; by left|].
  change (join "; " (p :: p' :: l)) with (p ++ 59%N :: 32%N :: join "; " (p' :: l)). rw split_on_app; [|apply Hc; by left].
  f_equal. assert (E := IH p' ltac:(intros s Hs; apply Hc; by right)). generalize dependent (join "; " (p' :: l)). intros J E.
  transitivity (match split_on 59 J with w :: ws => (32%N :: w) :: ws | [] => [[32%N]] end); [done|]. by rw E.
Qed.
Lemma join_avoids c sep (l : list jstr) : c ∉ sep → (∀ s, s ∈ l → c ∉ s) → c ∉ join sep l.
Proof.
  intros Hs Hl. induction l as [|s [|s' l] IH]; [by intros ?%elem_of_nil|apply Hl; by left|].
  change (join sep (s :: s' :: l)) with (s ++ sep ++ join sep (s' :: l)). rw !elem_of_app. intros [H|[H|H]]; [|done|].
  - by apply (Hl s); [left|].
  - apply IH; [|done]. intros x Hx. apply Hl. by right.
Qed.

(** A policy with [sources] as its fourth directive. *)
Definition policy_with (sources : list jstr) : jstr := join "; " [
  js "default-src 'self'"; js "script-src 'self' 'unsafe-inline' 'unsafe-eval'"; js "style-src 'self' 'unsafe-inline'";
  "connect-src " ++ join " " sources;
  js "img-src 'self' https: data: blob:"; js "font-src 'self' data:"; js "frame-src 'self'"; js "base-uri 'self'"; js "form-action 'self'"].
Lemma read_sources (sources : list jstr) :
  Forall plain sources → sources ≠ [] → sources_for (policy_with sources) "connect-src" = sources.
Proof.
  intros Hp Hne. rw Forall_forall in Hp.
  assert (Hd : List.filter truthy (split_on 32 (32%N :: "connect-src " ++ join " " sources)) = js "connect-src" :: sources).
  { change (32%N :: "connect-src " ++ join " " sources) with ([] ++ 32%N :: js "connect-src" ++ 32%N :: join [32%N] sources).
    rw split_on_app; [|by intros ?%elem_of_nil].
    rw split_on_app; [|apply (bool_decide_eq_false_1 (32%N ∈ js "connect-src")); reflexivity].
    rw split_on_join; [|done|intros s Hs; by apply Hp]. transitivity (js "connect-src" :: List.filter truthy sources); [done|].
    f_equal. apply List_filter_true. intros s Hs. apply truthy_nonempty. by apply Hp. }
  unfold sources_for, directives, policy_with. rw split_policy.
  - cbn [fmap list_fmap omap list_omap]. rw Hd. clear. vm_compute. reflexivity.
  - assert (Hc : ∀ q : jstr, forallb (λ c, negb (c =? 59)%N) q = true → 59%N ∉ q).
    { intros q Hq Hin. apply forallb_True_iff in Hq. rw Forall_forall in Hq. by specialize (Hq _ Hin). }
    assert (Hs : 59%N ∉ "connect-src " ++ join " " sources).
    { rw elem_of_app. intros [Hx|Hx]; [by apply (Hc "connect-src ") in Hx|]. revert Hx. apply join_avoids; [by apply Hc|intros s Hs; by apply Hp]. }
    intros s Hin. set_unfold in Hin. destruct Hin as [->|[->|[->|[->|[->|[->|[->|[->|[->|[]]]]]]]]]]; [| | |exact Hs|..]; by apply Hc.
Qed.

(** ** Origins *)

Record is_origin (o scheme host : jstr) : Prop := {
  io_shape : o = scheme ++ "://" ++ host;
  io_scheme : 58%N ∉ scheme ∧ 47%N ∉ scheme;
  io_host : 47%N ∉ host ∧ 63%N ∉ host ∧ 35%N ∉ host;
  io_plain : plain o
}.
Lemma split_at_app c (w t : jstr) : c ∉ w → split_at c (w ++ c :: t) = (w, c :: t).
Proof.
  intros Hw. induction w as [|x w IH]; cbn; [by rw N.eqb_refl|]. rw (proj2 (N.eqb_neq x c)); [|intros ->; apply Hw; by left].
  rw IH //. intros Hx. apply Hw. by right.
Qed.
Lemma split_at_none c (w : jstr) : c ∉ w → split_at c w = (w, []).
Proof.
  intros Hw. induction w as [|x w IH]; cbn; [done|]. rw (proj2 (N.eqb_neq x c)); [|intros ->; apply Hw; by left].
  rw IH //. intros Hx. apply Hw. by right.
Qed.
Lemma split_url_origin o scheme host rest : is_origin o scheme host → rest = [] ∨ startsWith rest "/" = true → fst (split_url (o ++ rest)) = o ∧ (rest = [] → snd (split_url (o ++ rest)) = []).
Proof.
  intros [-> [Hs _] [Hh _] _] Hr. unfold split_url.
  assert (E : (scheme ++ "://" ++ host) ++ rest = scheme ++ 58%N :: 47%N :: 47%N :: host ++ rest) by (by rw -!app_assoc).
  rw E split_at_app //. cbn [drop take]. destruct Hr as [->|Hr].
  - rw app_nil_r split_at_none //.
  - apply startsWith_app in Hr as [t ->]. change ("/" ++ t) with (47%N :: t). rw split_at_app //.
Qed.
Lemma remove_literal_skip sub c t : startsWith (c :: t) sub = false → remove_literal sub (c :: t) = c :: remove_literal sub t.
Proof. cbn [remove_literal]. by intros ->. Qed.
(** Neither suffix occurs earlier in an address with an origin. *)
Lemma remove_suffix o scheme host (sub : jstr) : is_origin o scheme host → sub ∈ [js "/api/v1"; js "/api/v1/ws"] → remove_literal sub (o ++ sub) = o.
Proof.
  intros [-> [_ Hs] [Hh _] _] Hsub. rw -!app_assoc.
  assert (Hslash : ∀ c t, c ≠ 47%N → startsWith (c :: t) sub = false).
  { intros c t Hc. apply not_true_iff_false. intros [t' E]%startsWith_app. apply Hc. set_unfold in Hsub.
    destruct Hsub as [->|[->|[]]]; by injection E. }
  assert (Hskip : ∀ w t, 47%N ∉ w → remove_literal sub (w ++ t) = w ++ remove_literal sub t).
  { intros w t Hw. induction w as [|c w IH]; [done|]. cbn [app]. rw remove_literal_skip; [|apply Hslash; intros ->; apply Hw; by left].
    rw IH //. intros Hx. apply Hw. by right. }
  rw Hskip //. f_equal. change ("://" ++ host ++ sub) with (58%N :: 47%N :: 47%N :: host ++ sub).
  change (58%N :: 47%N :: 47%N :: host ++ sub) with ([58%N] ++ 47%N :: 47%N :: host ++ sub). rw Hskip; [|by intros ?%list_elem_of_singleton].
  rw remove_literal_skip; [|set_unfold in Hsub; by destruct Hsub as [->|[->|[]]]].
  rw remove_literal_skip.
  - rw Hskip //. assert (E : remove_literal sub sub = []); [|by rw E app_nil_r].
    set_unfold in Hsub. by destruct Hsub as [->|[->|[]]].
  - apply not_true_iff_false. intros [t' E]%startsWith_app. set_unfold in Hsub.
    destruct Hsub as [->|[->|[]]]; destruct host as [|a [|b [|c [|d h]]]]; try discriminate E; injection E as -> -> -> -> _; apply Hh;
      by do 3 right; left.
Qed.
Lemma plain_app a b : plain a → 32%N ∉ b → 59%N ∉ b → plain (a ++ b).
Proof. intros (H1 & H2 & H3) Hb Hb'. split_and!; [by destruct a|by rw elem_of_app; intros []|by rw elem_of_app; intros []]. Qed.

(** With an API and a socket address of the documented form, the policy lets
    every page reach every address of the API and of the sockets. *)
Theorem csp_reaches_api `{!AppEnv} (o s h o' s' h' : jstr) (page rest : jstr) :
  is_origin o s h → is_origin o' s' h' → API_BASE = o ++ "/api/v1" → WS_BASE = o' ++ "/api/v1/ws" →
  may_connect Content_Security_Policy page (API_BASE ++ rest) = true ∧
  may_connect Content_Security_Policy page (WS_BASE ++ rest) = true.
Proof.
  intros Ho Ho' Ea Ew.
  assert (Hno : ∀ c (q : jstr), forallb (λ x, negb (x =? c)%N) q = true → c ∉ q).
  { intros c q Hq Hin. apply forallb_True_iff in Hq. rw Forall_forall in Hq. specialize (Hq _ Hin). by rw N.eqb_refl in Hq. }
  assert (Hs : connect_sources = [js "'self'"; o ++ "/api/v1"; o' ++ "/api/v1/ws"; o; o']).
  { unfold connect_sources. change apiUrl with API_BASE. change wsUrl with WS_BASE. rw Ea Ew.
    by rw (remove_suffix o s h) ?(remove_suffix o' s' h') //; set_solver. }
  assert (Hread : sources_for Content_Security_Policy "connect-src" = [js "'self'"; o ++ "/api/v1"; o' ++ "/api/v1/ws"; o; o']).
  { change Content_Security_Policy with (policy_with connect_sources). rw Hs. apply read_sources; [|done].
    apply Forall_cons; split; [split; [done|by split; apply Hno]|].
    apply Forall_cons; split; [apply plain_app; [apply Ho|by apply Hno..]|].
    apply Forall_cons; split; [apply plain_app; [apply Ho'|by apply Hno..]|].
    apply Forall_cons; split; [apply Ho|]. apply Forall_singleton, Ho'. }
  assert (Hself : ∀ x sx hx, is_origin x sx hx → (x =?s "'self'") = false).
  { intros x sx hx Hx. apply jeqb_neq. intros ->. destruct Hx as [E _ _ _]. assert (Hc : 58%N ∈ js "'self'"); [|by apply Hno in Hc].
    rw E. rw !elem_of_app. right; left. by left. }
  assert (Hm : ∀ x sx hx r, is_origin x sx hx → startsWith r "/" = true → source_matches x (x ++ r) = true).
  { intros x sx hx r Hx Hr. unfold source_matches. destruct (split_url_origin x sx hx [] Hx) as [E1 E2]; [by left|]. rw app_nil_r in E1 E2.
    destruct (split_url_origin x sx hx r Hx) as [E3 _]; [by right|]. destruct (split_url x) as [a b]. destruct (split_url (x ++ r)) as [a' b'].
    cbn in E1, E2, E3. rw E1 E3 E2 // jeqb_refl. done. }
  unfold may_connect. rw Hread. cbn [existsb]. rw (Hself o s h Ho) (Hself o' s' h' Ho'). split.
  - rw Ea -app_assoc (Hm o s h ("/api/v1" ++ rest) Ho) //. by rw !orb_true_r.
  - rw Ew -app_assoc (Hm o' s' h' ("/api/v1/ws" ++ rest) Ho') //. by rw !orb_true_r.
Qed.
(** The origin is in the policy only through the removal of the documented
    suffix: an API below another path is named by its path alone, which
    admits that one address. *)
Definition other_path : AppEnv :=
  {| NEXT_PUBLIC_API_URL := Some (js "https://api.test/v1"); NEXT_PUBLIC_WS_URL := None; NEXT_PUBLIC_SITE_URL := None |}.
Example csp_blocks_other_path :
  may_connect (@Content_Security_Policy other_path) "https://web.test" (@API_BASE other_path ++ "/auth/me") = false ∧
  may_connect (@Content_Security_Policy other_path) "https://web.test" (@API_BASE other_path) = true.
Proof. vm_compute. done. Qed.

(** The catalogue and the client mean the same API exactly when its address is
    configured, or by chance. *)
Theorem catalog_agrees `{!AppEnv} :
  catalog_API_BASE = API_BASE ↔ otruthy NEXT_PUBLIC_API_URL = true ∨ siteUrl = js "http://localhost:8080".
Proof.
  unfold catalog_API_BASE, API_BASE, jor. destruct NEXT_PUBLIC_API_URL as [u|]; cbn [default from_option id otruthy].
  - destruct (truthy u); [by split; [left|]|]. change (js "http://localhost:8080/api/v1") with ("http://localhost:8080" ++ js "/api/v1").
    split; [intros E%(inj (.++ _)); by right|intros [|E]; [done|by rw E]].
  - change (js "http://localhost:8080/api/v1") with ("http://localhost:8080" ++ js "/api/v1").
    split; [intros E%(inj (.++ _)); by right|intros [|E]; [done|by rw E]].
Qed.
(** The home page's header sends readers to documentation on the site itself,
    the catalogue to where the documentation is. *)
Theorem link_header_docs `{!AppEnv} : includes Link_header (link (siteUrl ++ "/docs/api") "service-doc") = true ∧
  cat_doc (api_catalog None) = js "https://burnerbyte.com/docs/api/".
Proof.
  split; [|vm_compute; done]. apply includes_app. unfold Link_header.
  exists (link "/.well-known/api-catalog" "api-catalog" ++ ", "), (", " ++ link (apiUrl ++ "/docs/openapi.json") "service-desc"). by rw -!app_assoc.
Qed.

(** ** Crawlers *)

Lemma longest_zero rules path : (∀ p, p ∈ rules → startsWith path p = false) → longest rules path = 0.
Proof. intros Hp. unfold longest. by rw List_filter_false. Qed.
Lemma longest_ge rules path p : p ∈ rules → startsWith path p = true → length p ≤ longest rules path.
Proof.
  intros Hin Hp. unfold longest. induction rules as [|x rules IH]; [by apply elem_of_nil in Hin|]. cbn.
  apply elem_of_cons in Hin as [<-|Hin]; [rw Hp; cbn; lia|]. specialize (IH Hin). destruct (startsWith path x); cbn; lia.
Qed.
Definition private_prefixes : list jstr := from_option disallow [] (head robots_rules).
(** A crawler without rules of its own may read exactly what is not below a
    private prefix; the crawlers that are named to be kept out get nothing. *)
Theorem robots_spec (agent path : jstr) :
  startsWith path "/" = true →
  (agent ∉ userAgent <$> robots_rules → crawl_allowed agent path = negb (existsb (startsWith path) private_prefixes)) ∧
  (agent ∈ js <$> ["GPTBot"; "ChatGPT-User"; "Claude-Web"; "Google-Extended"; "CCBot"; "anthropic-ai"; "Bytespider"]%string → crawl_allowed agent path = false).
Proof.
  intros Hs. split.
  - intros Hn. assert (Hg : group_of agent = head robots_rules).
    { unfold group_of. destruct (List.find _ robots_rules) as [r|] eqn:E; [|done]. apply List.find_some in E as [Hin E].
      apply jeqb_eq in E as <-. exfalso. apply Hn. apply list_elem_of_fmap. exists r. split; [done|by apply list_elem_of_In]. }
    unfold crawl_allowed. rw Hg. cbn [head robots_rules]. change (disallow _) with private_prefixes. cbn [allow].
    destruct (existsb (startsWith path) private_prefixes) eqn:E; cbn [negb].
    + apply List.existsb_exists in E as (d & Hd%list_elem_of_In & Ed). apply Nat.leb_gt.
      pose proof (longest_ge private_prefixes path d Hd Ed) as Hl. apply startsWith_app in Ed as [t ->].
      assert (Hlog : 1 < length d ∧ startsWith (d ++ t) "/login" = false).
      { unfold private_prefixes in Hd. cbn [head robots_rules from_option disallow] in Hd. apply list_elem_of_fmap in Hd as (s & -> & Hd).
        set_unfold in Hd. repeat destruct Hd as [->|Hd]; try (split; [vm_compute; lia|reflexivity]). done. }
      destruct Hlog as [H1 H2]. assert (Ha : longest [js "/"; js "/login"] (d ++ t) = 1); [|lia].
      unfold longest. cbn [List.filter]. rw Hs H2. done.
    + apply Nat.leb_le. rw (longest_zero private_prefixes); [lia|]. intros p Hp. apply not_true_iff_false. intros Ep.
      apply not_true_iff_false in E. apply E, List.existsb_exists. exists p. split; [by apply list_elem_of_In|done].
  - intros Ha. assert (Hg : group_of agent = Some (blocked_agent agent)).
    { apply list_elem_of_fmap in Ha as (s & -> & Ha). set_unfold in Ha. repeat destruct Ha as [->|Ha]; done. }
    unfold crawl_allowed. rw Hg. cbn [allow disallow blocked_agent]. unfold longest. cbn [List.filter]. by rw Hs.
Qed.
(** A mail's own page is not among the private prefixes. *)
Example mail_pages_crawlable : crawl_allowed "anybot" "/email/1" = true.
Proof. reflexivity. Qed.

(** ** An instance *)
Definition compose_env : AppEnv :=
  {| NEXT_PUBLIC_API_URL := Some (js "https://mail.test:8443/api/v1"); NEXT_PUBLIC_WS_URL := Some (js "wss://mail.test:8443/api/v1/ws");
     NEXT_PUBLIC_SITE_URL := None |}.
Lemma origin_by_computation o scheme host :
  o = scheme ++ "://" ++ host → forallb (λ c, negb ((c =? 47) || (c =? 63) || (c =? 35) || (c =? 32) || (c =? 59))%N) (scheme ++ host) = true →
  forallb (λ c, negb (c =? 58)%N) scheme = true → is_origin o scheme host.
Proof.
  intros -> H1%forallb_True_iff H2%forallb_True_iff. rw Forall_app in H1. destruct H1 as [Hs Hh].
  rw Forall_forall in Hs. rw Forall_forall in Hh. rw Forall_forall in H2.
  assert (Hx : ∀ c, c ∈ scheme ∨ c ∈ host → c ∉ [47; 63; 35; 32; 59]%N).
  { intros c Hc Hin. assert (negb ((c =? 47) || (c =? 63) || (c =? 35) || (c =? 32) || (c =? 59))%N = true) as Hb by (destruct Hc; auto).
    set_unfold in Hin. by destruct Hin as [->|[->|[->|[->|[->|[]]]]]]. }
  assert (Hin : ∀ c, c ∈ [47; 63; 35; 32; 59]%N → c ∉ scheme ∧ c ∉ host).
  { intros c Hc. split; intros Hy; eapply Hx; [by left|done|by right|done]. }
  assert (Hall : ∀ c, c ∈ [32; 59]%N → c ∉ scheme ++ "://" ++ host).
  { intros c Hc. rw !elem_of_app. destruct (Hin c ltac:(set_solver)) as [Ha Hb]. intros [Hy|[Hy|Hy]]; [done| |done].
    revert Hy. set_unfold in Hc. destruct Hc as [->|[->|[]]]; apply (bool_decide_eq_false_1 (_ ∈ js "://")); reflexivity. }
  split; [done| | |split; [by destruct scheme|split; apply Hall; set_solver]].
  - split; [intros Hc; by specialize (H2 _ Hc)|by apply Hin; left].
  - split_and!; by apply Hin; set_solver.
Qed.
Lemma csp_reaches_api_witness :
  may_connect (@Content_Security_Policy compose_env) "https://web.test" (@API_BASE compose_env ++ "/auth/me") = true ∧
  may_connect (@Content_Security_Policy compose_env) "https://web.test" (@WS_BASE compose_env ++ "?ticket=t") = true.
Proof.
  split.
  - apply (csp_reaches_api (H := compose_env) "https://mail.test:8443" "https" "mail.test:8443" "wss://mail.test:8443" "wss" "mail.test:8443" "https://web.test" "/auth/me");
      [apply origin_by_computation; vm_compute; reflexivity|apply origin_by_computation; vm_compute; reflexivity|vm_compute; reflexivity|vm_compute; reflexivity].
  - apply (csp_reaches_api (H := compose_env) "https://mail.test:8443" "https" "mail.test:8443" "wss://mail.test:8443" "wss" "mail.test:8443" "https://web.test" "?ticket=t");
      [apply origin_by_computation; vm_compute; reflexivity|apply origin_by_computation; vm_compute; reflexivity|vm_compute; reflexivity|vm_compute; reflexivity].
Defined.
