(* ===== verification/DomainServer.v ===== *)
(** * Domains: the dialogs and the server together

    [web/src/app/domains/page.tsx] checks a name and sends it; [CreateDomain]
    of [internal/handler/domain.go] with [AddDomain] of
    [internal/service/domain_service.go] checks it again and stores it in the
    table of [migrations/000006_domains.up.sql].  The settings of a domain and
    its deletion go the same way.  The two sides are composed here: which names
    both accept, what is stored, and that what the pages send is not refused
    for its form.  [isValidDomainFormat] of [internal/handler/admin.go] is
    compared with the check of mail domains of the settings page. *)

From Stdlib Require Import ZifyBool ZifyN.
From S2P Require Import Prelude Regex Browser Types ApiClient React Lib ApiKeys InboxPage PasswordPolicy Domains SsoTab AdminUpdate PlatformUpdate.

(** ** Go's strings *)

(** [strings.ToLower]; of letters beyond ASCII only that no
    capital of ASCII is left. *)
Class GoStrings := {
  ToLower : jstr → jstr;
  ToLower_ascii s : Forall (λ c, (c < 128)%N) s → ToLower s = ascii_lower <$> s;
  ToLower_small s : Forall (λ c, is_upper c = false) (ToLower s)
}.
#[refine] Definition AsciiStrings : GoStrings := {| ToLower s := ascii_lower <$> s |}.
Proof.
  - done.
  - intros s. apply Forall_fmap, Forall_true. intros c. cbn. unfold ascii_lower. destruct (is_upper c) eqn:E; [|done].
    revert E. unfold is_upper, in_range. lia.
Defined.
(** [unicode.IsSpace] and [strings.TrimSpace]. *)
Definition IsSpace (c : N) : bool :=
  in_range 9 13 c || in_range 8192 8202 c || bool_decide (c ∈ [32; 133; 160; 5760; 8232; 8233; 8239; 8287; 12288]%N).
Definition TrimSpace (s : jstr) : jstr := rev (drop_while IsSpace (rev (drop_while IsSpace s))).

(** ** The server *)

Record dom_settings := { set_attachments : option jstr; set_default_ttl : option jstr; set_max_ttl : option jstr; set_max_inboxes : option Z }.
Definition no_settings : dom_settings := {| set_attachments := None; set_default_ttl := None; set_max_ttl := None; set_max_inboxes := None |}.
(** A row of the table. *)
Record dom := {
  d_id : jstr; d_org : jstr; d_name : jstr; d_description : jstr; d_mx : bool; d_txt : bool; d_spf : bool;
  d_checked : option jstr; d_settings : dom_settings
}.
Definition with_settings (description : jstr) (x : dom_settings) (d : dom) : dom := {|
  d_id := d_id d; d_org := d_org d; d_name := d_name d; d_description := description; d_mx := d_mx d; d_txt := d_txt d; d_spf := d_spf d;
  d_checked := d_checked d; d_settings := x |}.
Definition with_dns (mx txt spf : bool) (at_ : jstr) (d : dom) : dom := {|
  d_id := d_id d; d_org := d_org d; d_name := d_name d; d_description := d_description d; d_mx := mx; d_txt := txt; d_spf := spf;
  d_checked := Some at_; d_settings := d_settings d |}.

Definition ComputeStatus (d : dom) : jstr :=
  if d_mx d && d_txt d then "verified"
  else if negb (d_mx d) && negb (d_txt d) then
    match d_checked d with None => "pending_verification" | Some _ => "failed" end
  else "partially_verified".

(** [^([a-zA-Z0-9]([a-zA-Z0-9-]{0,61}[a-zA-Z0-9])?\.)+[a-zA-Z]{2,}$]. *)
Definition server_label : re := RSeq (RCls is_alnum) (ropt (RSeq (rrep 0 61 (RCls is_alnum_hyphen)) (RCls is_alnum))).
Definition domainNameRe : re :=
  rseq [RBegin; rplus (RSeq server_label (rchar 46)); RCls is_alpha; rplus (RCls is_alpha); REnd].
(** The names that are kept for private networks. *)
Definition private_name (name : jstr) : bool :=
  (name =?s "localhost") || endsWith name ".local" || endsWith name ".internal".

(** What a handler writes: an error, a domain, nothing, or the inboxes that
    keep a domain from being deleted. *)
Inductive reply := Refused (status : Z) (message : jstr) | Accepted (status : Z) (d : dom) | NoContent | HasInboxes (active : nat).
(** [writeError] and [writeJSON] of [internal/handler/auth.go]. *)
Definition error_code (status : Z) : jstr :=
  if (status =? 400)%Z then "validation_error" else if (status =? 401)%Z then "unauthenticated"
  else if (status =? 403)%Z then "forbidden" else if (status =? 404)%Z then "not_found" else if (status =? 409)%Z then "conflict"
  else if (status =? 429)%Z then "rate_limited" else if (status =? 500)%Z then "internal_error" else "error".
Definition writeJSON (status : Z) (body : option json) : http_response :=
  {| rs_status := status; rs_statusText := []; rs_content_length := None; rs_json := body |}.
Definition writeError (status : Z) (msg : jstr) : http_response :=
  writeJSON status (Some (JObj [(js "error", JStr msg); (js "code", JStr (error_code status))])).
Definition write_reply (encode : dom → json) (r : reply) : http_response :=
  match r with
  | Refused status e => writeError status e
  | Accepted status d => writeJSON status (Some (encode d))
  | NoContent => writeJSON 204 None
  | HasInboxes n => writeJSON 409 (Some (JObj [(js "error", JStr "domain has active inboxes"); (js "active_inboxes", JNum (Z.of_nat n));
      (js "message", JStr "Add ?force=true to delete this domain and all its active inboxes")]))
  end.

(** The handlers are given for a caller who has the permission and for
    identifiers that can be read; audit entries are left out, and the check of
    the records that [AddDomain] starts in the background is a step of its own
    below ([table_checked]). *)
Section server.
Context `{!GoStrings, !GoDuration}.
(** [max_domains] of an organisation, [None] without one of that id; the
    default; and the text of an error of the driver. *)
Context (org_quota : jstr → option (option Z)) (default_quota : Z) (driver_error : jstr).

Definition CountByOrg (org : jstr) (st : list dom) : nat := countb (λ d, d_org d =?s org) st.
(** [INSERT]: the name is unique and has at most 255 characters. *)
Inductive create_error := ErrConflict | ErrOther.
Definition Create (d : dom) (st : list dom) : create_error + list dom :=
  if (255 <? length (d_name d))%nat then inl ErrOther
  else if existsb (λ x, d_name x =?s d_name d) st then inl ErrConflict
  else inr (st ++ [d]).

(** [id] is the new identifier. *)
Definition AddDomain (org id name description : jstr) (st : list dom) : (jstr + dom) * list dom :=
  if (length name =? 0)%nat then (inl (js "domain_name is required"), st)
  else
    let name := ToLower (TrimSpace name) in
    if negb (test domainNameRe name) then (inl (js "invalid domain name format"), st)
    else if private_name name then (inl (js "cannot add private/internal domain"), st)
    else if (1000 <? utf8_bytes description)%nat then (inl (js "description must not exceed 1000 characters"), st)
    else match org_quota org with
    | None => (inl (js "resource not found"), st)
    | Some quota =>
        let maxDomains := default default_quota quota in
        if (maxDomains <=? Z.of_nat (CountByOrg org st))%Z then (inl ("domain limit reached (" ++ show maxDomains ++ ")"), st)
        else
          let d := {| d_id := id; d_org := org; d_name := name; d_description := description; d_mx := false; d_txt := false;
                      d_spf := false; d_checked := None; d_settings := no_settings |} in
          match Create d st with
          | inl ErrConflict => (inl (js "domain already registered"), st)
          | inl ErrOther => (inl ("create domain: " ++ driver_error), st)
          | inr st' => (inr d, st')
          end
    end.

Definition CreateDomain (org id : jstr) (body : list (jstr * json)) (st : list dom) : reply * list dom :=
  match decode_text (map_get body "domain_name"), decode_text (map_get body "description") with
  | Some name, Some description =>
      match AddDomain org id name description st with
      | (inl e, st') => (Refused (if e =?s "domain already registered" then 409 else 400)%Z e, st')
      | (inr d, st') => (Accepted 201%Z d, st')
      end
  | _, _ => (Refused 400%Z "invalid request body", st)
  end.

(** *** Settings *)

Record update_domain := { up_description : option jstr; up_settings : option dom_settings }.
Definition decode_settings (v : option json) : option (option dom_settings) :=
  match v with
  | None | Some JNull => Some None
  | Some (JObj f) =>
      match decode_ptr read_str (map_get f "attachments_enabled"), decode_ptr read_str (map_get f "default_inbox_ttl"),
            decode_ptr read_str (map_get f "max_inbox_ttl"), decode_ptr read_int (map_get f "max_inboxes_per_domain") with
      | Some a, Some t, Some m, Some n =>
          Some (Some {| set_attachments := a; set_default_ttl := t; set_max_ttl := m; set_max_inboxes := n |})
      | _, _, _, _ => None
      end
  | _ => None
  end.
Definition decode_update (body : list (jstr * json)) : option update_domain :=
  match decode_ptr read_str (map_get body "description"), decode_settings (map_get body "settings") with
  | Some d, Some s => Some {| up_description := d; up_settings := s |}
  | _, _ => None
  end.
(** A field that is given replaces the stored one. *)
Definition given {A} (new old : option A) : option A := match new with Some _ => new | None => old end.
Definition bad_duration (t : option jstr) : bool := match t with Some t => bool_decide (ParseDuration t = None) | None => false end.
Definition settings_error (i : dom_settings) : option jstr :=
  if match set_attachments i with Some v => negb (v =?s "inherit") && negb (v =?s "enabled") && negb (v =?s "disabled") | None => false end
  then Some (js "attachments_enabled must be inherit, enabled, or disabled")
  else if bad_duration (set_default_ttl i) then Some (js "invalid default_inbox_ttl duration")
  else if bad_duration (set_max_ttl i) then Some (js "invalid max_inbox_ttl duration")
  else if match set_max_inboxes i with Some n => (n <=? 0)%Z | None => false end
  then Some (js "max_inboxes_per_domain must be a positive integer")
  else None.
Definition merge_settings (i old : dom_settings) : dom_settings := {|
  set_attachments := given (set_attachments i) (set_attachments old); set_default_ttl := given (set_default_ttl i) (set_default_ttl old);
  set_max_ttl := given (set_max_ttl i) (set_max_ttl old); set_max_inboxes := given (set_max_inboxes i) (set_max_inboxes old) |}.
(** The default lifetime exceeds the greatest one; what cannot be read counts
    as zero. *)
Definition ttl_inverted (x : dom_settings) : bool :=
  match set_default_ttl x, set_max_ttl x with
  | Some t, Some m => (default 0 (ParseDuration m) <? default 0 (ParseDuration t))%Z
  | _, _ => false
  end.
Definition find_dom (id : jstr) (st : list dom) : option dom := List.find (λ d, d_id d =?s id) st.
Definition put_dom (d : dom) (st : list dom) : list dom := (λ x, if d_id x =?s d_id d then d else x) <$> st.

Definition UpdateDomain_service (org id : jstr) (i : update_domain) (st : list dom) : (jstr + dom) * list dom :=
  match find_dom id st with
  | None => (inl (js "resource not found"), st)
  | Some d =>
      if negb (d_org d =?s org) then (inl (js "domain not found"), st)
      else if match up_description i with Some t => (1000 <? utf8_bytes t)%nat | None => false end
      then (inl (js "description must not exceed 1000 characters"), st)
      else
        let description := default (d_description d) (up_description i) in
        match up_settings i with
        | None => let d' := with_settings description (d_settings d) d in (inr d', put_dom d' st)
        | Some s =>
            match settings_error s with
            | Some e => (inl e, st)
            | None =>
                let x := merge_settings s (d_settings d) in
                if ttl_inverted x then (inl (js "default_inbox_ttl exceeds max_inbox_ttl"), st)
                else let d' := with_settings description x d in (inr d', put_dom d' st)
            end
        end
  end.
(** The status of an error by its text; [writeServiceError] of
    [internal/handler/rbac.go]. *)
Definition service_status (e : jstr) : Z :=
  if includes e "forbidden" then 403%Z
  else if includes e "not found" then 404%Z
  else if includes e "already taken" || includes e "already exists" || includes e "already assigned" || includes e "already linked" then 409%Z
  else if includes e "cannot lock" || includes e "cannot unlink" || includes e "must re-authenticate" || includes e "must set a password" then 403%Z
  else if includes e "locked to SSO" || includes e "locked to password" then 403%Z
  else 400%Z.
Definition UpdateDomain (org id : jstr) (body : list (jstr * json)) (st : list dom) : reply * list dom :=
  match decode_update body with
  | None => (Refused 400%Z "invalid request body", st)
  | Some i => match UpdateDomain_service org id i st with
              | (inl e, st') => (Refused (service_status e) e, st')
              | (inr d, st') => (Accepted 200%Z d, st')
              end
  end.

(** *** Deleting; the keys of inboxes in the cache are left out. *)

Definition DeleteDomain_service (org id : jstr) (st : list dom) : option jstr * list dom :=
  match find_dom id st with
  | None => (Some (js "resource not found"), st)
  | Some d => if negb (d_org d =?s org) then (Some (js "domain not found"), st)
              else (None, List.filter (λ x, negb (d_id x =?s id)) st)
  end.
(** [active]: how many inboxes of the domain are active. *)
Definition DeleteDomain_handler (org id : jstr) (force : option jstr) (active : nat) (st : list dom) : reply * list dom :=
  if (0 <? active)%nat && negb (default [] force =?s "true") then (HasInboxes active, st)
  else match DeleteDomain_service org id st with
       | (Some _, st') => (Refused 500%Z "failed to delete domain", st')
       | (None, st') => (NoContent, st')
       end.
End server.

(** [isValidDomainFormat] of [internal/handler/admin.go]. *)
Definition format_char (c : N) : bool := is_lower c || is_digit c || (c =? 45)%N.
Definition edge (c : option N) : bool := bool_decide (c = Some 46%N) || bool_decide (c = Some 45%N).
Definition isValidDomainFormat (d : jstr) : bool :=
  if (255 <? utf8_bytes d)%nat || (utf8_bytes d <? 3)%nat then false
  else if negb (includes d ".") then false
  else if edge (head d) || edge (last d) then false
  else
    let labels := split_on 46 d in
    forallb (λ label, negb (label =?s []) && negb (63 <? utf8_bytes label)%nat && forallb format_char label) labels &&
    negb (utf8_bytes (default [] (last labels)) <? 2)%nat.

(** ** The pattern of the server *)

Lemma rmatch_word_upto p n prev w t caps :
  length w ≤ n → Forall (λ c, p c = true) w → ∃ prev', rmatch (rupto n (RCls p)) (Mst prev (w ++ t) caps) (Mst prev' t caps).
Proof.
  intros Hn Hf. revert n prev Hn. induction Hf as [|c w Hc _ IH]; intros n prev Hn.
  - destruct n; eexists; [apply M_eps|apply M_alt_r, M_eps].
  - destruct n as [|n]; [cbn in Hn; lia|]. destruct (IH n (Some c)) as [q Hq]; [cbn in Hn; lia|].
    exists q. apply M_alt_l. eapply M_seq; [by eapply M_cls|exact Hq].
Qed.

(** A label as both sides have it: letters, digits and inner hyphens, at most
    63 of them. *)
Definition short_label (l : jstr) : Prop := host_label_shape l ∧ length l ≤ 63.
Definition terminated (labels : list jstr) : jstr := labels ≫= λ l, l ++ [46%N].

Lemma server_label_sound s s' : rmatch server_label s s' → ∃ l, short_label l ∧ m_rest s = l ++ m_rest s'.
Proof.
  intros Hm. apply rmatch_seq_inv in Hm as (s1 & (c & E1 & Hc)%rmatch_cls_inv & Ho).
  inversion Ho as [| | |a b u u' Ha|a b u u' Hb| | | | | |]; subst.
  - apply rmatch_seq_inv in Ha as (s3 & Hs & (d & E3 & Hd)%rmatch_cls_inv).
    pose proof (rmatch_consumed _ _ _ Hs) as Es. apply rmatch_rep_cls in Hs as (Hl & Fs & _); [|lia].
    set (w := consumed s1 s3) in *. exists (c :: w ++ [d]). rw E1 Es E3. cbn [app]. rw -app_assoc. split; [|done].
    split; [|cbn; rw length_app /=; lia]. exists c, (w ++ [d]). split_and!; [done|done| |].
    + apply Forall_app. split; [done|]. apply Forall_singleton. by apply alnum_hyphen.
    + intros x. rw app_comm_cons last_snoc. by intros [= <-].
  - inversion Hb; subst. exists [c]. split; [|done]. split; [|cbn; lia]. exists c, []. split_and!; [done|done|constructor|]. by intros x [= <-].
Qed.
Lemma server_label_complete l prev t caps :
  short_label l → ∃ prev', rmatch server_label (Mst prev (l ++ t) caps) (Mst prev' t caps).
Proof.
  intros [(c & w & -> & Hc & Hw & Hlast) Hl]. destruct w as [|x w _] using rev_ind.
  - eexists. eapply M_seq; [by eapply M_cls|apply M_alt_r, M_eps].
  - apply Forall_app in Hw as [Hw _]. specialize (Hlast x). rw app_comm_cons last_snoc in Hlast.
    cbn [app]. rw -app_assoc. cbn in Hl. rw length_app /= in Hl.
    destruct (rmatch_word_upto is_alnum_hyphen 61 (Some c) w (x :: t) caps ltac:(lia) Hw) as [q Hq].
    eexists. eapply M_seq; [by eapply M_cls|]. apply M_alt_l.
    eapply M_seq; [eapply M_seq; [apply M_eps|exact Hq]|]. eapply M_cls; [done|by apply Hlast].
Qed.
Lemma terminated_sound s s' : rmatch (RStar (RSeq server_label (rchar 46))) s s' →
  ∃ labels, Forall short_label labels ∧ m_rest s = terminated labels ++ m_rest s'.
Proof.
  remember (RStar (RSeq server_label (rchar 46))) as r eqn:Er. intros Hm. revert Er.
  induction Hm as [| | | | |a s|a s s1 s2 H1 _ _ H2 IH| | | |]; intros Er; try done; injection Er as ->.
  - by exists [].
  - apply rmatch_seq_inv in H1 as (s0 & (l & Hl & E0)%server_label_sound & E1%rmatch_char_inv).
    destruct (IH eq_refl) as (labels & Hf & E2). exists (l :: labels). split; [by constructor|].
    rw E0 E1 E2. unfold terminated. rw bind_cons. by rw -!app_assoc.
Qed.
Lemma terminated_complete labels prev t caps : Forall short_label labels →
  ∃ prev', rmatch (RStar (RSeq server_label (rchar 46))) (Mst prev (terminated labels ++ t) caps) (Mst prev' t caps).
Proof.
  intros Hf. revert prev. induction Hf as [|l labels Hl _ IH]; intros prev; [eexists; apply M_star_nil|].
  unfold terminated. rw bind_cons -!app_assoc. fold (terminated labels).
  destruct (server_label_complete l prev ([46%N] ++ terminated labels ++ t) caps Hl) as [p1 H1].
  destruct (IH (Some 46%N)) as [p2 H2]. exists p2.
  eapply M_star_cons; [eapply M_seq; [exact H1|by eapply M_cls]| |exact H2]. cbn. rw !length_app. cbn. rw length_app. lia.
Qed.
Lemma join_terminated labels tld : join [46%N] (labels ++ [tld]) = terminated labels ++ tld.
Proof.
  induction labels as [|l labels IH]; [done|]. unfold terminated. rw bind_cons -!app_assoc. fold (terminated labels). rw -IH.
  by destruct labels.
Qed.

(** The server's pattern accepts exactly one or more labels and a last one of
    two letters or more. *)
Lemma server_format_spec (n : jstr) :
  test domainNameRe n = true ↔
  ∃ labels tld, labels ≠ [] ∧ Forall short_label labels ∧ host_tld_shape tld ∧ n = join [46%N] (labels ++ [tld]).
Proof.
  unfold domainNameRe. cbn [rseq]. rw test_anchored. split.
  - intros [e Hm]. apply rmatch_seq_inv in Hm as (s2 & Hp & Hm). apply rmatch_seq_inv in Hp as (s1 & H1 & H2).
    apply rmatch_seq_inv in H1 as (s0 & (l & Hl & E0)%server_label_sound & E1%rmatch_char_inv).
    apply terminated_sound in H2 as (labels & Hf & E2).
    apply rmatch_seq_inv in Hm as (s4 & (c & E4 & Hc)%rmatch_cls_inv & Hm).
    apply rmatch_seq_inv in Hm as (s5 & (w & Hw & Fw & E5)%rmatch_plus_word & Hm).
    assert (Hend : m_rest s5 = []) by (by inversion Hm). cbn in E0. exists (l :: labels), (c :: w).
    split_and!; [done|by constructor| |].
    + split; [destruct w; [done|cbn; lia]|by constructor].
    + rw join_terminated E0 E1 E2 E4 E5 Hend app_nil_r. unfold terminated. rw bind_cons. by rw -!app_assoc.
  - intros (labels & tld & Hne & Hf & [Ht Ha] & ->). rw join_terminated. destruct labels as [|l labels]; [done|].
    apply Forall_cons in Hf as [Hl Hf]. destruct tld as [|c [|d w]]; [cbn in Ht; lia..|]. apply Forall_cons in Ha as [Hc Ha].
    unfold terminated. rw bind_cons -!app_assoc. fold (terminated labels).
    destruct (server_label_complete l None ([46%N] ++ terminated labels ++ c :: d :: w) [] Hl) as [p1 H1].
    destruct (terminated_complete labels (Some 46%N) (c :: d :: w) [] Hf) as [p2 H2].
    destruct (rmatch_word_plus is_alpha (Some c) (d :: w) [] [] ltac:(done) Ha) as [p3 H3]. rw app_nil_r in H3.
    eexists. eapply M_seq; [eapply M_seq; [eapply M_seq; [exact H1|by eapply M_cls]|exact H2]|].
    eapply M_seq; [by eapply M_cls|]. eapply M_seq; [exact H3|by apply M_end].
Qed.

(** ** Both sides on a name *)

Lemma plain_ld c : is_ld c = true ↔ is_alnum c = true ∧ is_upper c = false.
Proof. unfold is_ld, is_alnum, is_alpha, is_lower, is_upper, is_digit, in_range. lia. Qed.
Lemma plain_ldh c : is_ldh c = true ↔ is_alnum_hyphen c = true ∧ is_upper c = false.
Proof. unfold is_ldh, is_alnum_hyphen, is_alnum, is_alpha, is_lower, is_upper, is_digit, in_range. lia. Qed.
Lemma plain_lower c : is_lower c = true ↔ is_alpha c = true ∧ is_upper c = false.
Proof. unfold is_alpha, is_lower, is_upper, in_range. lia. Qed.
Definition small (s : jstr) : Prop := Forall (λ c, is_upper c = false) s.

Lemma label_shape_host l : label_shape l ↔ host_label_shape l ∧ small l.
Proof.
  unfold label_shape, host_label_shape, small. split.
  - intros (c & w & -> & Hc & Hw & Hl). apply plain_ld in Hc as [Hc Hu]. split.
    + exists c, w. split_and!; [done|done| |]; [|intros d Hd; by apply plain_ld, Hl].
      eapply Forall_impl; [exact Hw|]. by intros x [? _]%plain_ldh.
    + constructor; [done|]. eapply Forall_impl; [exact Hw|]. by intros x [_ ?]%plain_ldh.
  - intros [(c & w & -> & Hc & Hw & Hl) Hs]. exists c, w. pose proof Hs as Hs'. rw Forall_forall in Hs'. apply Forall_cons in Hs as [Hu Hs].
    split_and!; [done|by apply plain_ld| |].
    + apply Forall_forall. intros x Hx. rw !Forall_forall in Hw, Hs. apply plain_ldh. auto.
    + intros d Hd. apply plain_ld. split; [by apply Hl|]. apply Hs'. by eapply last_Some_elem_of.
Qed.
Lemma tld_shape_host l : tld_shape l ↔ host_tld_shape l ∧ small l.
Proof.
  unfold tld_shape, host_tld_shape, small. rw !Forall_forall. split.
  - intros [Hl Hf]. split_and!; [done|..]; intros x Hx; by apply plain_lower, Hf.
  - intros [[Hl Hf] Hs]. split; [done|]. intros x Hx. apply plain_lower. auto.
Qed.
Lemma tld_is_label l : host_tld_shape l → host_label_shape l.
Proof.
  intros [Hl Hf]. destruct l as [|c w]; [cbn in Hl; lia|]. assert (Ha : ∀ x, is_alpha x = true → is_alnum x = true) by (by unfold is_alnum; intros x ->).
  rw Forall_forall in Hf. exists c, w. split_and!; [done| | |].
  - apply Ha, Hf. by left.
  - apply Forall_forall. intros x Hx. apply alnum_hyphen, Ha, Hf. by right.
  - intros d Hd. apply Ha, Hf. by eapply last_Some_elem_of.
Qed.
Lemma host_label_no_dot l : host_label_shape l → 46%N ∉ l.
Proof.
  intros (c & w & -> & Hc & Hw & _). apply alnum_hyphen in Hc.
  assert (Hf : Forall (λ x, is_alnum_hyphen x = true) (c :: w)) by (by constructor). rw Forall_forall in Hf. by intros Hin%Hf.
Qed.
Lemma small_join labels : small (join [46%N] labels) ↔ Forall small labels.
Proof.
  induction labels as [|l [|l' labels] IH]; [by split; intros _; constructor| |].
  - cbn. by rw Forall_singleton.
  - change (join [46%N] (l :: l' :: labels)) with (l ++ [46%N] ++ join [46%N] (l' :: labels)).
    unfold small in *. rw !Forall_app Forall_singleton IH (Forall_cons _ l). naive_solver.
Qed.

(** The last label. *)
Definition last_label (n : jstr) : jstr := default [] (last (split_on 46 n)).
Lemma last_label_join labels tld :
  Forall host_label_shape labels → host_label_shape tld → last_label (join [46%N] (labels ++ [tld])) = tld.
Proof.
  intros Hf Ht. unfold last_label. rw split_join; [by rw last_snoc|by destruct labels|].
  apply Forall_app. split; [|apply Forall_singleton; by apply host_label_no_dot].
  eapply Forall_impl; [exact Hf|]. apply host_label_no_dot.
Qed.

(** A name passes the check of the dialog exactly when it has no capitals, the
    server's pattern accepts it, and it and its last label are short enough:
    the server has no such limits. *)
Lemma domain_shape_server (n : jstr) :
  domain_shape n ↔ test domainNameRe n = true ∧ small n ∧ length n ≤ 253 ∧ length (last_label n) ≤ 63.
Proof.
  unfold domain_shape. rw server_format_spec. split.
  - intros (Hlen & labels & -> & H2 & Hf & Ht). destruct labels as [|tld labels _] using rev_ind; [cbn in H2; lia|].
    specialize (Ht tld). rw last_snoc in Ht. specialize (Ht eq_refl). apply Forall_app in Hf as [Hf [[Hl Hs] _]%Forall_cons].
    apply tld_shape_host in Ht as [Ht Hst].
    assert (Hh : Forall (λ l, short_label l ∧ small l) labels).
    { eapply Forall_impl; [exact Hf|]. intros l [? [? ?]%label_shape_host]. by repeat split. }
    apply Forall_and in Hh as [Hh Hsm]. split_and!; [|apply small_join, Forall_app; by rw Forall_singleton|done|].
    + exists labels, tld. split_and!; [|done|done|done]. intros ->. cbn in H2. lia.
    + rw last_label_join; [done| |by apply tld_is_label]. eapply Forall_impl; [exact Hh|]. by intros l [? _].
  - intros ((labels & tld & Hne & Hf & Ht & ->) & Hs & Hlen & Hl). split; [done|]. exists (labels ++ [tld]).
    rw last_label_join in Hl; [|by eapply Forall_impl; [exact Hf|]; intros l [? _]|by apply tld_is_label].
    apply small_join, Forall_app in Hs as [Hs Hst]. rw Forall_singleton in Hst. split_and!; [done| | |].
    + rw length_app. destruct labels; [done|]. cbn. lia.
    + apply Forall_app. rw Forall_singleton. split; [|split; [done|apply label_shape_host; split; [by apply tld_is_label|done]]].
      apply Forall_forall. intros l Hin. rw !Forall_forall in Hf, Hs. destruct (Hf l Hin). split; [done|]. apply label_shape_host. auto.
    + intros t. rw last_snoc. intros [= <-]. by apply tld_shape_host.
Qed.

(** *** What the server makes of a name from the dialog *)

Lemma TrimSpace_none (s : jstr) : Forall (λ c, IsSpace c = false) s → TrimSpace s = s.
Proof.
  assert (Hd : ∀ l, Forall (λ c, IsSpace c = false) l → drop_while IsSpace l = l).
  { intros l Hl. apply drop_while_none. by intros x t ->; apply Forall_cons in Hl as [? _]. }
  intros Hs. unfold TrimSpace. rw (Hd s) // Hd ?rev_involutive //. by apply Forall_rev.
Qed.
Lemma name_char_kept c : name_char c = true → IsSpace c = false ∧ (c < 128)%N ∧ ascii_lower c = c.
Proof.
  intros [Hg [Hl _]]%name_char_graphic. unfold graphic in Hg. split_and!; [|lia|done].
  unfold IsSpace, in_range. rw bool_decide_false; [|rw !elem_of_cons elem_of_nil; lia]. lia.
Qed.
Lemma normalised `{!GoStrings} (n : jstr) : Forall (λ c, name_char c = true) n → ToLower (TrimSpace n) = n.
Proof.
  intros Hn. rw TrimSpace_none; [|by eapply Forall_impl; [exact Hn|]; intros c [? _]%name_char_kept].
  rw ToLower_ascii; [|by eapply Forall_impl; [exact Hn|]; intros c (_ & ? & _)%name_char_kept].
  induction Hn as [|c n Hc _ IH]; [done|]. rw fmap_cons IH. by apply name_char_kept in Hc as (_ & _ & ->).
Qed.

Section together.
Context `{!AppEnv, !JSRuntime, !GoStrings}.
Context (org_quota : jstr → option (option Z)) (default_quota : Z) (driver_error : jstr) (encode : dom → json).

Lemma isValid_shape (s : Domains.AddDomain) : isValid s = true ↔ domain_shape (ad_domain s).
Proof.
  unfold isValid, ad_error. split.
  - intros [Ht Hd]%andb_true_iff. rw Ht in Hd. case_bool_decide as Hv; [|done].
    apply validateDomain_spec; [by apply truthy_nonempty|done].
  - intros Hs. assert (Hne : ad_domain s ≠ []) by (intros E; apply domain_has_dot in Hs; rw E in Hs; by apply elem_of_nil in Hs).
    rw (proj2 (truthy_nonempty _) Hne) (proj2 (validateDomain_spec _ Hne) Hs). done.
Qed.

(** C34: the dialog lets a name through exactly when it has no capitals, the
    server's pattern accepts it, and neither it nor its last label is too
    long: the server itself has no limit on the last label and one of 255 in
    its table.  A name the dialog lets through arrives at the server as it
    is. *)
Theorem names_agree (s : Domains.AddDomain) :
  let n := ad_domain s in
  (isValid s = true ↔ test domainNameRe n = true ∧ small n ∧ length n ≤ 253 ∧ length (last_label n) ≤ 63) ∧
  (isValid s = true → ToLower (TrimSpace n) = n).
Proof.
  intros n. rw isValid_shape. split; [apply domain_shape_server|]. intros Hs. by apply normalised, domain_chars.
Qed.

(** Why the server refuses a well-formed name, if it does. *)
Definition refusal (org n : jstr) (st : list dom) : option jstr :=
  if private_name n then Some (js "cannot add private/internal domain")
  else match org_quota org with
  | None => Some (js "resource not found")
  | Some quota =>
      let maxDomains := default default_quota quota in
      if (maxDomains <=? Z.of_nat (CountByOrg org st))%Z then Some ("domain limit reached (" ++ show maxDomains ++ ")")
      else if existsb (λ x, d_name x =?s n) st then Some (js "domain already registered") else None
  end.
Definition new_domain (org id n : jstr) : dom := {|
  d_id := id; d_org := org; d_name := n; d_description := []; d_mx := false; d_txt := false; d_spf := false; d_checked := None;
  d_settings := no_settings |}.
Definition add_body (n : jstr) : list (jstr * json) := [(js "domain_name", JStr n)].
Definition create := CreateDomain org_quota default_quota driver_error.

Lemma create_well_formed (s : Domains.AddDomain) (org id : jstr) (st : list dom) : isValid s = true →
  let n := ad_domain s in
  create org id (add_body n) st =
  match refusal org n st with
  | Some e => (Refused (if e =?s "domain already registered" then 409 else 400)%Z e, st)
  | None => (Accepted 201%Z (new_domain org id n), st ++ [new_domain org id n])
  end.
Proof.
  intros Hs%isValid_shape n. fold n in Hs. unfold create, CreateDomain. change (map_get (add_body n) "domain_name") with (Some (JStr n)).
  change (map_get (add_body n) "description") with (@None json). cbn [decode_text]. unfold AddDomain, refusal.
  rw (normalised n (domain_chars n Hs)). pose proof (proj1 (domain_shape_server n) Hs) as (-> & _ & Hlen & _).
  destruct (Nat.eqb_spec (length n) 0) as [E|_]; [by apply domain_has_dot in Hs; destruct n; [apply elem_of_nil in Hs|]|].
  cbn [negb]. destruct (private_name n); [done|]. change (1000 <? utf8_bytes [])%nat with false. cbn iota.
  destruct (org_quota org) as [q|]; [|done]. destruct (_ <=? _)%Z eqn:Eq.
  - by destruct (("domain limit reached (" ++ show (default default_quota q) ++ ")") =?s "domain already registered").
  - unfold Create. cbn [d_name]. destruct (Nat.ltb_spec 255 (length n)); [lia|]. by destruct (existsb _ st).
Qed.

(** The answers of the server, as the API client reads them. *)
Lemma finish_refused {S} (status : Z) (e : jstr) (w : world S) :
  (status < 200 ∨ 299 < status)%Z → e ≠ [] → ∃ d, finish (writeError status e) w = (inl (ApiError e status d), w).
Proof.
  intros Hst He. unfold finish, writeError, writeJSON, rs_ok. cbn [rs_status]. rw (_ : (200 <=? status)%Z && (status <=? 299)%Z = false); [|lia].
  run_M. cbn. destruct e; [done|]. by eexists.
Qed.
Lemma refusal_nonempty (org n : jstr) (st : list dom) e : refusal org n st = Some e → e ≠ [].
Proof. unfold refusal. repeat case_match; intros [= <-]; by vm_compute. Qed.

(** The request of the dialog. *)
Definition add_request (org n : jstr) (token : option jstr) : http_request :=
  build_request ("/orgs/" ++ org ++ "/domains")
    {| o_method := "POST"; o_headers := []; o_body := Some (JObj (add_body n)); o_params := None |} token.

(** C35: dialog, API client and server together.  A name the dialog lets
    through is sent as it is; it is stored under that name and nothing else of
    the table changes, the dialog closes and says so, unless the name is
    private, taken or one too many (or the organisation is gone): then nothing
    is stored, the reason the server has is shown, and the dialog stays open
    with what was entered.  In any case it can be used again. *)
Theorem add_dialog_server (s : Domains.AddDomain) (org id : jstr) (table : list dom) (w : world Domains.AddDomain) :
  let n := ad_domain s in
  let rq := add_request org n (accessToken (brw w)) in
  isValid s = true →
  net (brw w) (sent (brw w)) rq = Responded (write_reply encode (create org id (add_body n) table).1) →
  ∃ w', handleAdd org s w = (inr tt, w') ∧ adding (st w') = false ∧
    match refusal org n table with
    | None =>
        (create org id (add_body n) table).2 = table ++ [new_domain org id n] ∧
        trace (brw w') = trace (brw w) ++ [EFetch rq; EInvalidate "domains"; EToastSuccess "Domain added. Configure DNS records to verify."] ∧
        ad_open (st w') = false ∧ rawInput (st w') = []
    | Some e =>
        (create org id (add_body n) table).2 = table ∧
        trace (brw w') = trace (brw w) ++ [EFetch rq; EToastError e] ∧
        ad_open (st w') = ad_open (st w) ∧ rawInput (st w') = rawInput (st w)
    end.
Proof.
  intros n rq Hv Hnet. pose proof (create_well_formed s org id table Hv) as Hc. cbv zeta in Hc. fold n in Hc. rw Hc in Hnet.
  unfold handleAdd. rw Hv. cbn [negb]. fold n.
  set (w1 := World (brw w) {| rawInput := rawInput (st w); ad_open := ad_open (st w); adding := true |}).
  assert (Hpost : ∀ res, net (brw w) (sent (brw w)) rq = Responded res → rs_status res ≠ 401%Z →
    api_post ("/orgs/" ++ org ++ "/domains") (Some (JObj [(js "domain_name", JStr n)])) w1 = finish res (after_fetch rq w1)).
  { intros res Hres Hs. unfold api_post, api_send. by rw (request_answered _ _ res w1). }
  rw Hc. destruct (refusal org n table) as [e|] eqn:Er; cbn [fst snd] in *.
  - assert (Hst : ((if e =?s "domain already registered" then 409 else 400) = 409 ∨ (if e =?s "domain already registered" then 409 else 400) = 400)%Z)
      by (destruct (e =?s "domain already registered"); auto).
    set (status := (if e =?s "domain already registered" then 409 else 400)%Z) in *.
    destruct (finish_refused status e (after_fetch rq w1)) as [d Hf]; [lia|by eapply refusal_nonempty|].
    rw -(Hpost (writeError status e) Hnet) in Hf; [|cbn; lia].
    unfold try_finally, try_catch, mbind, M_bind, modify, InboxPage.toast_error, emit. fold w1. unfold n in Hf. rw Hf. eexists. split; [reflexivity|].
    cbn. by rw -app_assoc.
  - unfold try_finally, try_catch, mbind, M_bind, modify, emit. fold w1. rw (Hpost _ Hnet) //. eexists. split; [reflexivity|].
    cbn. by rw -!app_assoc.
Qed.

(** Enter in the field while a name is being added sends it again, although the
    button is disabled; and the second time the server refuses what it has
    just stored. *)
Theorem enter_adds_twice (s : Domains.AddDomain) (org id id' : jstr) (table : list dom) (w : world Domains.AddDomain) :
  let n := ad_domain s in
  isValid s = true → adding s = true → refusal org n table = None →
  add_click org s w = (inr tt, w) ∧
  (∃ rest, sent_requests (snd (add_keydown org "Enter" s w)) = sent_requests w ++ add_request org n (accessToken (brw w)) :: rest) ∧
  ∃ e status, create org id' (add_body n) (create org id (add_body n) table).2 =
    (Refused status e, (create org id (add_body n) table).2) ∧ e ≠ [].
Proof.
  intros n Hv Ha Hr. split_and!.
  - unfold add_click, AddDomainDialog. cbn [av_enabled]. by rw Ha andb_false_r.
  - unfold add_keydown. rw jeqb_refl. unfold handleAdd. rw Hv. cbn [negb]. fold n. run_M. unfold api_post, api_send.
    set (opts := {| o_method := _; o_headers := _; o_body := _; o_params := _ |}).
    destruct (request_sends_first ("/orgs/" ++ org ++ "/domains") opts
      (World (brw w) {| rawInput := rawInput (st w); ad_open := ad_open (st w); adding := true |})) as [rest E].
    exists rest. destruct (request _ opts _) as [[e|v] w1]; cbn [snd] in E; unfold InboxPage.toast_error; run_M; unfold sent_requests in *;
      cbn [snd brw trace log_effect]; by rw ?fetches_app ?app_nil_r.
  - pose proof (create_well_formed s org id table Hv) as E. cbv zeta in E. fold n in E. rw E Hr. cbn [snd].
    pose proof (create_well_formed s org id' (table ++ [new_domain org id n]) Hv) as E'. cbv zeta in E'. fold n in E'. rw E'.
    destruct (refusal org n (table ++ [new_domain org id n])) as [e|] eqn:Er'.
    + eexists _, _. split; [done|]. by eapply refusal_nonempty.
    + exfalso. revert Er'. unfold refusal in *. destruct (private_name n); [done|]. destruct (org_quota org); [|done].
      destruct (_ <=? _)%Z; [done|]. rw existsb_app. cbn. rw jeqb_refl orb_true_r. by destruct (_ <=? _)%Z.
Qed.

(** *** The warning of the deletion *)

(** [GetDomainImpact], from the active inboxes of the domain: the fields that
    the dialog reads. *)
Definition GetDomainImpact (inboxes : list ImpactInbox) : DomainImpact := {|
  im_active_inboxes := Z.of_nat (length inboxes); im_total_emails := sumZ (ii_email_count <$> inboxes); im_inboxes := inboxes |}.

(** The warning counts what its table lists: as many rows as inboxes, whose
    mails add up to the total; without an active inbox there is no warning. *)
Theorem impact_adds_up (inboxes : list ImpactInbox) (s : Domains.DeleteDomain) :
  match impact_part false (Some (GetDomainImpact inboxes)) s with
  | IVWarning text _ rows =>
      inboxes ≠ [] ∧
      (∃ u v, text = "This domain has " ++ show_nat (length inboxes) ++ u ++ show (sumZ (ii_email_count <$> inboxes)) ++ v) ∧
      (expanded s = true → ∃ l, rows = Some l ∧ length l = length inboxes ∧ sumZ ((λ r, r.1.2) <$> l) = sumZ (ii_email_count <$> inboxes))
  | IVClear _ => inboxes = []
  | _ => False
  end.
Proof.
  unfold impact_part, GetDomainImpact. cbn [im_active_inboxes im_total_emails im_inboxes]. destruct inboxes as [|i l] eqn:E; [done|].
  rw -E. destruct (Z.ltb_spec 0 (Z.of_nat (length inboxes))); [|subst; cbn in *; lia]. split_and!; [by subst| |].
  - eexists (" active inbox" ++ _ ++ " receiving email ("), _. unfold show_nat. by rw -!app_assoc.
  - intros ->. eexists. split; [done|]. rw length_fmap -list_fmap_compose. split; [done|]. by f_equal.
Qed.
End together.

(** ** The table *)

Section table.
Context `{!GoStrings, !GoDuration}.
Context (org_quota : jstr → option (option Z)) (default_quota : Z) (driver_error : jstr).

(** Everything that changes the table: the three handlers, with whatever is
    sent to them, and the result of a check of the DNS records. *)
Inductive table_step : list dom → list dom → Prop :=
| table_create org id body st : id ∉ (d_id <$> st) → table_step st (CreateDomain org_quota default_quota driver_error org id body st).2
| table_update org id body st : table_step st (UpdateDomain org id body st).2
| table_delete org id force active st : table_step st (DeleteDomain_handler org id force active st).2
| table_checked d mx txt spf at_ st : find_dom (d_id d) st = Some d → table_step st (put_dom (with_dns mx txt spf at_ d) st).

Definition attachment_values : list jstr := attachment_options.*1.
Record row_ok (d : dom) : Prop := {
  row_name : test domainNameRe (d_name d) = true ∧ small (d_name d) ∧ length (d_name d) ≤ 255;
  row_public : private_name (d_name d) = false;
  row_ttl : ttl_inverted (d_settings d) = false;
  row_attachments : ∀ v, set_attachments (d_settings d) = Some v → v ∈ attachment_values
}.
Record table_ok (st : list dom) : Prop := {
  tab_ids : NoDup (d_id <$> st);
  tab_names : NoDup (d_name <$> st);
  tab_rows : Forall row_ok st
}.

Lemma find_dom_some id st d : find_dom id st = Some d → d ∈ st ∧ d_id d = id.
Proof. intros [Hin Hid]%List.find_some. split; [by apply list_elem_of_In|by apply jeqb_eq]. Qed.
(** Replacing a row by one with its identifier and its name. *)
Lemma put_dom_keys st d d' : find_dom (d_id d) st = Some d → NoDup (d_id <$> st) → d_id d' = d_id d → d_name d' = d_name d →
  d_id <$> put_dom d' st = d_id <$> st ∧ d_name <$> put_dom d' st = d_name <$> st.
Proof.
  intros [Hin _]%find_dom_some Hnd Hid Hn. unfold put_dom. rw -!list_fmap_compose.
  split; apply list_fmap_ext; intros i x Hx; cbn; destruct (d_id x =?s d_id d') eqn:E; try done; apply jeqb_eq in E; [congruence|].
  rw Hn. f_equal. apply list_elem_of_lookup in Hin as [j Hj]. rw Hid in E.
  assert (i = j) as ->; [|congruence]. apply (NoDup_lookup _ i j (d_id x) Hnd); rw list_lookup_fmap ?Hx ?Hj //=. by rw E.
Qed.
Lemma put_dom_ok st d d' : find_dom (d_id d) st = Some d → table_ok st → d_id d' = d_id d → d_name d' = d_name d → row_ok d' →
  table_ok (put_dom d' st).
Proof.
  intros Hf Ht Hid Hn Hr. destruct (put_dom_keys st d d' Hf (tab_ids _ Ht) Hid Hn) as [E1 E2]. constructor.
  - rw E1. apply (tab_ids _ Ht).
  - rw E2. apply (tab_names _ Ht).
  - unfold put_dom. apply Forall_fmap. eapply Forall_impl; [exact (tab_rows _ Ht)|]. intros x Hx. cbn. by destruct (_ =?s _).
Qed.
Lemma row_of st d : find_dom (d_id d) st = Some d → table_ok st → row_ok d.
Proof. intros [Hin _]%find_dom_some Ht. pose proof (tab_rows _ Ht) as Hr. rw Forall_forall in Hr. by apply Hr. Qed.

Lemma attachments_merged i old : settings_error i = None →
  (∀ v, set_attachments old = Some v → v ∈ attachment_values) → ∀ v, set_attachments (merge_settings i old) = Some v → v ∈ attachment_values.
Proof.
  unfold settings_error, merge_settings. cbn. destruct (set_attachments i) as [a|]; cbn; [|by eauto].
  intros He _ v [= <-]. destruct (a =?s "inherit") eqn:E1; [apply jeqb_eq in E1 as ->; set_solver|].
  destruct (a =?s "enabled") eqn:E2; [apply jeqb_eq in E2 as ->; set_solver|].
  destruct (a =?s "disabled") eqn:E3; [apply jeqb_eq in E3 as ->; set_solver|]. done.
Qed.

Lemma update_ok org id i st : table_ok st → table_ok (UpdateDomain_service org id i st).2.
Proof.
  intros Ht. unfold UpdateDomain_service. destruct (find_dom id st) as [d|] eqn:Ef; [|done].
  pose proof (find_dom_some _ _ _ Ef) as [_ Hid]. rw -Hid in Ef. pose proof (row_of st d Ef Ht) as Hr.
  destruct (negb _); [done|]. destruct (match up_description i with Some _ => _ | None => _ end); [done|].
  destruct (up_settings i) as [x|]; [|by eapply put_dom_ok; [exact Ef|done..|]; destruct Hr; constructor].
  destruct (settings_error x) eqn:Es; [done|]. destruct (ttl_inverted (merge_settings _ _)) eqn:Et; [done|].
  eapply put_dom_ok; [exact Ef|done..|]. destruct Hr. constructor; [done..|]. by eapply attachments_merged.
Qed.
Lemma create_ok org id body st : id ∉ (d_id <$> st) → table_ok st → table_ok (CreateDomain org_quota default_quota driver_error org id body st).2.
Proof.
  intros Hfr Ht. unfold CreateDomain. destruct (decode_text _) as [name|]; [|done]. destruct (decode_text _) as [desc|]; [|done].
  unfold AddDomain. destruct (_ =? 0)%nat; [done|]. destruct (test domainNameRe _) eqn:Ere; [|done]. destruct (private_name _) eqn:Ep; [done|]. cbn [negb].
  destruct (_ <? _)%nat; [done|]. destruct (org_quota org); [|done]. destruct (_ <=? _)%Z; [done|].
  unfold Create. cbn [d_name]. destruct (Nat.ltb_spec 255 (length (ToLower (TrimSpace name)))) as [|Hlen]; [done|]. destruct (existsb _ st) eqn:Eex; [done|].
  destruct Ht as [Hi Hn Hr]. constructor; cbn [snd].
  - rw fmap_app NoDup_app. split_and!; [done| |apply NoDup_singleton]. intros x Hx ->%list_elem_of_singleton. done.
  - rw fmap_app NoDup_app. split_and!; [done| |apply NoDup_singleton]. intros x Hx ->%list_elem_of_singleton.
    apply list_elem_of_fmap in Hx as (y & Hy & Hin). assert (Hc : existsb (λ x, d_name x =?s ToLower (TrimSpace name)) st = true); [|congruence].
    apply existsb_exists. exists y. split; [by apply list_elem_of_In|]. by apply jeqb_eq.
  - apply Forall_app. split; [done|]. apply Forall_singleton. constructor; cbn; [|done|done|done]. split_and!; [done| |done]. apply ToLower_small.
Qed.
Lemma delete_ok org id force active st : table_ok st → table_ok (DeleteDomain_handler org id force active st).2.
Proof.
  intros Ht. unfold DeleteDomain_handler, DeleteDomain_service. destruct (_ && _); [done|]. destruct (find_dom id st); [|done]. destruct (negb _); [done|].
  destruct Ht as [Hi Hn Hr]. cbn [snd]. constructor.
  - by apply NoDup_fmap_filter.
  - by apply NoDup_fmap_filter.
  - apply Forall_forall. intros x Hx. apply elem_of_List_filter_any in Hx as [Hx _]. rw Forall_forall in Hr. by apply Hr.
Qed.

(** Whatever is sent to the server, its table holds well-formed public names,
    each once and none over 255 characters, with settings it has checked. *)
Theorem table_invariant (st : list dom) : rtc table_step [] st → table_ok st.
Proof.
  intros Hr. revert st Hr. apply (rtc_ind_r table_ok (R := table_step)); [constructor; constructor|].
  intros s s' _ Hs Ht. destruct Hs as [org id body st0 Hid|org id body st0|org id force active st0|d mx txt spf at_ st0 Hf].
  - by apply create_ok.
  - unfold UpdateDomain. destruct (decode_update body) as [i|]; [|done]. pose proof (update_ok org id i st0 Ht).
    by destruct (UpdateDomain_service org id i st0) as [[]].
  - by apply delete_ok.
  - pose proof (row_of _ _ Hf Ht) as [? ? ? ?]. by eapply put_dom_ok; [exact Hf|done..|constructor].
Qed.

(** The body of a save of the settings card. *)
Definition settings_body (v : jstr) : list (jstr * json) := [(js "settings", JObj [(js "attachments_enabled", JStr v)])].

(** Saving the settings card: in a table the server has kept, whichever option
    is chosen is accepted and stored, the other settings, the name and the
    records stay, and no other domain changes. *)
Theorem settings_save_stored (org v : jstr) (d : dom) (st : list dom) :
  table_ok st → find_dom (d_id d) st = Some d → d_org d = org → v ∈ attachment_values →
  let x := d_settings d in
  let d' := with_settings (d_description d)
    {| set_attachments := Some v; set_default_ttl := set_default_ttl x; set_max_ttl := set_max_ttl x; set_max_inboxes := set_max_inboxes x |} d in
  UpdateDomain org (d_id d) (settings_body v) st = (Accepted 200%Z d', put_dom d' st) ∧
  (∀ other, other ∈ st → d_id other ≠ d_id d → other ∈ put_dom d' st).
Proof.
  intros Ht Hf <- Hv x d'. split.
  - unfold UpdateDomain.
    assert (decode_update (settings_body v) = Some {| up_description := None; up_settings :=
      Some {| set_attachments := Some v; set_default_ttl := None; set_max_ttl := None; set_max_inboxes := None |} |}) as -> by reflexivity.
    unfold UpdateDomain_service. rw Hf (proj2 (jeqb_eq (d_org d) (d_org d)) eq_refl). cbn [negb up_description up_settings default].
    assert (settings_error {| set_attachments := Some v; set_default_ttl := None; set_max_ttl := None; set_max_inboxes := None |} = None) as ->.
    { cbn in Hv. rw !elem_of_cons elem_of_nil in Hv. by destruct Hv as [->|[->|[->|[]]]]. }
    unfold merge_settings. cbn [given set_attachments set_default_ttl set_max_ttl set_max_inboxes].
    rw (_ : ttl_inverted _ = ttl_inverted (d_settings d)); [|done]. by rw (row_ttl _ (row_of _ _ Hf Ht)).
  - intros other Hin Hne. unfold put_dom. apply list_elem_of_fmap. exists other. split; [|done].
    destruct (d_id other =?s d_id d') eqn:E; [|done]. by apply jeqb_eq in E.
Qed.

(** A confirmed deletion is forced, so that active inboxes do not hold it up:
    the domain of the organisation is gone and the others stay. *)
Theorem delete_forced (org : jstr) (d : dom) (active : nat) (st : list dom) :
  table_ok st → find_dom (d_id d) st = Some d → d_org d = org →
  ∃ st', DeleteDomain_handler org (d_id d) (Some (js "true")) active st = (NoContent, st') ∧
    (∀ other, other ∈ st' ↔ other ∈ st ∧ other ≠ d).
Proof.
  intros Ht Hf Ho. unfold DeleteDomain_handler, DeleteDomain_service. rw andb_false_r Hf Ho (proj2 (jeqb_eq org org) eq_refl). eexists. split; [done|].
  intros other. rw elem_of_List_filter_any. split.
  - intros [Hin Hid]. split; [done|]. intros ->. by rw (proj2 (jeqb_eq (d_id d) (d_id d)) eq_refl) in Hid.
  - intros [Hin Hne]. split; [done|]. destruct (d_id other =?s d_id d) eqn:E; [|done]. exfalso. apply Hne. apply jeqb_eq in E.
    apply find_dom_some in Hf as [Hd _]. apply list_elem_of_lookup in Hd as [i Hi]. apply list_elem_of_lookup in Hin as [j Hj].
    assert (i = j) as ->; [|congruence]. apply (NoDup_lookup _ i j (d_id d) (tab_ids _ Ht)); rw list_lookup_fmap ?Hi ?Hj //=. by rw E.
Qed.
End table.

(** ** Mail domains *)

Lemma utf8_bytes_ascii s : Forall (λ c, (c < 128)%N) s → utf8_bytes s = length s.
Proof.
  induction 1 as [|c s Hc _ IH]; [done|]. cbn [utf8_bytes]. unfold in_range, utf8_len.
  rw (_ : (55296 <=? c)%N && (c <=? 56319)%N = false); [|lia]. rw IH. cbn. by destruct (N.ltb_spec c 128); [|lia].
Qed.
Lemma join_dotted l labels tld : l ++ dotted labels ++ 46%N :: tld = join [46%N] ((l :: labels) ++ [tld]).
Proof.
  revert l. induction labels as [|l' labels IH]; intros l; [done|]. unfold dotted. rw bind_cons -app_assoc. fold (dotted labels).
  change (join [46%N] ((l :: l' :: labels) ++ [tld])) with (l ++ [46%N] ++ join [46%N] ((l' :: labels) ++ [tld])). by rw -IH.
Qed.
Definition lower_label (l : jstr) : jstr := ascii_lower <$> l.
Lemma lower_join labels : lower_label (join [46%N] labels) = join [46%N] (lower_label <$> labels).
Proof.
  unfold lower_label. induction labels as [|l [|l' labels] IH]; [done..|].
  change (join [46%N] (l :: l' :: labels)) with (l ++ [46%N] ++ join [46%N] (l' :: labels)). by rw !fmap_app IH.
Qed.
Lemma lower_alnum_hyphen c : is_alnum_hyphen c = true → format_char (ascii_lower c) = true ∧ (c < 128)%N.
Proof.
  unfold is_alnum_hyphen, is_alnum, is_alpha, format_char, ascii_lower, is_upper, is_lower, is_digit, in_range. intros Hc.
  destruct (N.leb_spec 65 c), (N.leb_spec c 90); cbn [andb]; lia.
Qed.
Lemma lower_alnum c : is_alnum c = true → ascii_lower c ≠ 46%N ∧ ascii_lower c ≠ 45%N.
Proof.
  unfold is_alnum, is_alpha, ascii_lower, is_upper, is_lower, is_digit, in_range. intros Hc.
  destruct (N.leb_spec 65 c), (N.leb_spec c 90); cbn [andb]; lia.
Qed.
Lemma host_label_chars l : host_label_shape l → Forall (λ x, is_alnum_hyphen x = true) l ∧ l ≠ [].
Proof. intros (c & w & -> & Hc & Hw & _). split; [|done]. constructor; [by apply alnum_hyphen|done]. Qed.
(** A lowered label meets the server's rule for labels. *)
Lemma lower_label_ok l : host_label_shape l → length l ≤ 63 →
  let l' := lower_label l in
  negb (l' =?s []) && negb (63 <? utf8_bytes l')%nat && forallb format_char l' = true ∧ 46%N ∉ l' ∧ utf8_bytes l' = length l.
Proof.
  intros [Hf Hne]%host_label_chars Hlen l'.
  assert (Hc : Forall (λ x, format_char x = true ∧ (x < 128)%N) l').
  { unfold l'. apply Forall_fmap. eapply Forall_impl; [exact Hf|]. intros c [Hc _]%lower_alnum_hyphen. cbn. split; [done|].
    revert Hc. unfold format_char, is_lower, is_digit, in_range. lia. }
  assert (Hb : utf8_bytes l' = length l).
  { rw utf8_bytes_ascii; [by unfold l'; rw length_fmap|]. eapply Forall_impl; [exact Hc|]. by intros c [_ ?]. }
  split_and!; [|intros Hin; rw Forall_forall in Hc; by destruct (Hc _ Hin)|done].
  rw Hb. apply andb_true_iff. split; [apply andb_true_iff; split|].
  - unfold l'. by destruct l.
  - destruct (Nat.ltb_spec 63 (length l)); [lia|done].
  - apply forallb_True_iff. eapply Forall_impl; [exact Hc|]. by intros c [? _].
Qed.

Lemma join_head labels c u rest : labels = (c :: u) :: rest → head (join [46%N] labels) = Some c.
Proof. intros ->. by destruct rest. Qed.
Lemma join_last labels (tld : jstr) c : last tld = Some c → last (join [46%N] (labels ++ [tld])) = Some c.
Proof. intros E. rw join_terminated. by rw last_app E. Qed.

Lemma lower_chars ls : Forall host_label_shape ls →
  Forall (λ c, name_char (ascii_lower c) = true ∧ (c < 128)%N) (join [46%N] ls).
Proof.
  induction 1 as [|x ls Hx _ IH]; [constructor|]. apply host_label_chars in Hx as [Hx _].
  assert (Hxx : Forall (λ c, name_char (ascii_lower c) = true ∧ (c < 128)%N) x).
  { eapply Forall_impl; [exact Hx|]. intros c [Hc ?]%lower_alnum_hyphen. split; [|done]. unfold name_char, is_ldh. unfold format_char in Hc. by rw Hc. }
  destruct ls as [|y ls]; [done|]. change (join [46%N] (x :: y :: ls)) with (x ++ [46%N] ++ join [46%N] (y :: ls)).
  apply Forall_app. split; [done|]. apply Forall_app. split; [by apply Forall_singleton|done].
Qed.
(** What the server reads of labels between dots. *)
Lemma normal_join `{!GoStrings} ls : Forall host_label_shape ls →
  TrimSpace (ToLower (join [46%N] ls)) = join [46%N] (lower_label <$> ls) ∧
  utf8_bytes (join [46%N] (lower_label <$> ls)) = length (join [46%N] ls).
Proof.
  intros Hc%lower_chars. rw -lower_join.
  assert (Hn : Forall (λ c, name_char c = true) (lower_label (join [46%N] ls))).
  { apply Forall_fmap. eapply Forall_impl; [exact Hc|]. by intros c [? _]. }
  rw ToLower_ascii; [|by eapply Forall_impl; [exact Hc|]; intros c [_ ?]]. fold (lower_label (join [46%N] ls)). split.
  - apply TrimSpace_none. eapply Forall_impl; [exact Hn|]. by intros c [? _]%name_char_kept.
  - rw utf8_bytes_ascii; [by unfold lower_label; rw length_fmap|]. eapply Forall_impl; [exact Hn|]. by intros c (_ & ? & _)%name_char_kept.
Qed.
Lemma not_edge c : is_alnum c = true → edge (Some (ascii_lower c)) = false.
Proof. intros [? ?]%lower_alnum. unfold edge. by rw !bool_decide_false; [|congruence..]. Qed.

(** A mail domain that the settings page accepts is accepted by the server,
    provided that it and its labels are short enough: the page has no such
    limits. *)
Theorem mapping_accepted `{!GoStrings} (f : MappingForm) :
  domainValid f = true → length (mf_domain f) ≤ 255 → Forall (λ l, length l ≤ 63) (split_on 46 (mf_domain f)) →
  isValidDomainFormat (TrimSpace (ToLower (mf_domain f))) = true.
Proof.
  intros (l & labels & tld & Hl & Hf & Ht & E)%domainValid_spec Hlen Hshort. rw join_dotted in E.
  set (ls := (l :: labels) ++ [tld]) in *. rw E in Hlen, Hshort |- *. pose proof (tld_is_label _ Ht) as Htl.
  assert (Hh : Forall host_label_shape ls) by (apply Forall_app; rw Forall_singleton; split; [by constructor|done]).
  rw split_join in Hshort; [|done|by eapply Forall_impl; [exact Hh|apply host_label_no_dot]].
  destruct (normal_join ls Hh) as [-> Hb]. set (ls' := lower_label <$> ls) in *.
  assert (Hok : Forall (λ l', negb (l' =?s []) && negb (63 <? utf8_bytes l')%nat && forallb format_char l' = true ∧ 46%N ∉ l') ls').
  { apply Forall_fmap, Forall_forall. intros x Hx. rw !Forall_forall in Hh, Hshort.
    by destruct (lower_label_ok x (Hh x Hx) (Hshort x Hx)) as (? & ? & _). }
  apply Forall_and in Hok as [Hok Hdots].
  assert (Hsp : split_on 46 (join [46%N] ls') = ls') by (by apply split_join).
  assert (Hlast : last ls' = Some (lower_label tld)) by (unfold ls', ls; rw fmap_app; apply last_snoc).
  assert (Hltld : length tld ≤ 63) by (rw Forall_forall in Hshort; apply Hshort; unfold ls; set_solver).
  destruct (lower_label_ok tld Htl Hltld) as (_ & _ & Htb). destruct Ht as [Ht2 _].
  unfold isValidDomainFormat. rw Hb (proj2 (includes_dot_split _)); [|rw Hsp; unfold ls', ls; rw length_fmap length_app; cbn; lia].
  rw Hsp Hlast. cbn [default negb]. rw Htb.
  assert (H3 : 3 ≤ length (join [46%N] ls)) by (unfold ls; rw join_terminated length_app; unfold terminated; rw bind_cons !length_app; cbn; lia).
  destruct (Nat.ltb_spec 255 (length (join [46%N] ls))); [lia|]. destruct (Nat.ltb_spec (length (join [46%N] ls)) 3); [lia|]. cbn [orb].
  destruct Hl as (c & w & El & Hc & _). destruct Htl as (ct & wt & Et & _ & _ & Hlc).
  rw (join_head ls' (ascii_lower c) (lower_label w) (lower_label <$> (labels ++ [tld]))); [|by unfold ls', ls; rw El].
  rw (not_edge c Hc). destruct (last tld) as [e|] eqn:Ee; [|by apply last_None in Ee; subst].
  rw (_ : ls' = (lower_label <$> (l :: labels)) ++ [lower_label tld]); [|by unfold ls', ls; rw fmap_app].
  rw (join_last _ _ (ascii_lower e)); [|by unfold lower_label; rw fmap_last Ee]. rw (not_edge e (Hlc e eq_refl)). cbn [orb].
  unfold ls', ls in Hok. rw fmap_app in Hok. rw (proj2 (forallb_True_iff _ _) Hok). by destruct (Nat.ltb_spec (length tld) 2); [lia|].
Qed.

(** The page takes what the server does not, and the other way round. *)
Definition mail_domain (d : jstr) : MappingForm := {| mf_domain := d; mf_team_id := "t"; mf_team_role := "member"; mf_org_role := "member" |}.
Example mapping_too_long : domainValid (mail_domain (replicate 64 97%N ++ ".org")) = true ∧ isValidDomainFormat (replicate 64 97%N ++ ".org") = false.
Proof. by vm_compute. Qed.
Example mapping_looser : domainValid (mail_domain "a-.b1") = false ∧ isValidDomainFormat "a-.b1" = true.
Proof. by vm_compute. Qed.

(** ** Instances *)

Definition typed (t : jstr) : Domains.AddDomain := {| rawInput := t; ad_open := true; adding := false |}.
(** A name the dialog ticks and the server never takes. *)
Example private_ticked :
  av_mark (AddDomainDialog (typed "Mail.Internal") (H0 := AsciiRuntime)) = Some true ∧
  refusal (λ _, Some None) 10 "o" "mail.internal" [] = Some (js "cannot add private/internal domain").
Proof. by vm_compute. Qed.

Definition pasted : Domains.AddDomain := typed "https://www.Example.org/inbox".
Definition a_table : list dom := [new_domain "o" "d1" "taken.org"].
Definition srv (s : Domains.AddDomain) : reply * list dom :=
  create (H1 := AsciiStrings) (λ _, Some (Some 5%Z)) 10 [] "o" "d2" (add_body (ad_domain s (H0 := AsciiRuntime))) a_table.
Definition add_world (s : Domains.AddDomain) : world Domains.AddDomain :=
  World (Browser true None ∅ "/domains" (λ _ _, Responded (write_reply (λ _, JNull) (srv s).1)) 0 []) s.
Lemma add_dialog_server_witness :
  ∃ w', handleAdd (H := default_env) (H0 := AsciiRuntime) "o" pasted (add_world pasted) = (inr tt, w') ∧
    d_name <$> (srv pasted).2 = [js "taken.org"; js "example.org"] ∧ ad_open (st w') = false.
Proof.
  destruct (add_dialog_server (H := default_env) (H0 := AsciiRuntime) (H1 := AsciiStrings) (λ _, Some (Some 5%Z)) 10 [] (λ _, JNull) pasted "o" "d2"
    a_table (add_world pasted)) as (w' & E & _ & Hm).
  - vm_compute. reflexivity.
  - reflexivity.
  - exists w'. split; [exact E|]. change (refusal _ _ _ _ _) with (@None jstr) in Hm. destruct Hm as (_ & _ & Ho & _).
    split; [vm_compute; reflexivity|exact Ho].
Defined.

Lemma settings_save_stored_witness :
  ∃ st', UpdateDomain (H0 := NsDuration) "o" "d1" (settings_body "disabled") a_table = (Accepted 200%Z st', [st']).
Proof.
  destruct (settings_save_stored (H0 := NsDuration) "o" "disabled" (new_domain "o" "d1" "taken.org") a_table) as [E _].
  - constructor; [repeat constructor; set_solver..|]. apply Forall_singleton. constructor; try done. cbn. split_and!.
    + by vm_compute.
    + unfold small. apply (bool_decide_unpack _). by vm_compute.
    + vm_compute; lia.
  - reflexivity.
  - reflexivity.
  - vm_compute. set_solver.
  - eexists. exact E.
Defined.
