(* ===== verification/RoleServer.v ===== *)
(** * Roles: the dialogs and the server together

    The handlers of [/admin/roles] in [cmd/api/main.go] with
    [internal/repository/postgres/role_repo.go], on the tables of
    [migrations/000024_dynamic_roles_permissions.up.sql], composed with the
    dialogs of [web/src/components/settings/roles-tab.tsx]: what is stored
    after a role was edited or created, and what is not although the dialog
    says so. *)

From S2P Require Import Prelude Browser ApiClient React OrgStore Hooks Permissions ApiKeys RolesTab PlatformUpdate.
Import Hooks.Small.

(** ** The tables *)

(** A row of [roles] with its rows of [role_permissions], in the order in which
    they were inserted. *)
Record role_row := {
  rr_id : jstr; rr_scope : jstr; rr_value : jstr; rr_label : jstr; rr_description : jstr; rr_rank : Z; rr_system : bool; rr_perms : list jstr
}.
Definition as_info (r : role_row) : RoleInfo := {|
  RoleInfo_id := rr_id r; RoleInfo_scope := rr_scope r; RoleInfo_value := rr_value r; RoleInfo_label := rr_label r;
  RoleInfo_description := rr_description r; RoleInfo_rank := rr_rank r; RoleInfo_is_system := rr_system r; RoleInfo_permissions := rr_perms r |}.
Definition with_texts (label description : jstr) (r : role_row) : role_row := {|
  rr_id := rr_id r; rr_scope := rr_scope r; rr_value := rr_value r; rr_label := label; rr_description := description; rr_rank := rr_rank r;
  rr_system := rr_system r; rr_perms := rr_perms r |}.
Definition with_perms (perms : list jstr) (r : role_row) : role_row := {|
  rr_id := rr_id r; rr_scope := rr_scope r; rr_value := rr_value r; rr_label := rr_label r; rr_description := rr_description r; rr_rank := rr_rank r;
  rr_system := rr_system r; rr_perms := perms |}.

(** Characters of a string, which the database counts; it takes no NUL. *)
Fixpoint code_points (s : jstr) : nat :=
  match s with
  | [] => 0
  | c :: t =>
      if in_range 55296 56319 c
      then match t with d :: t' => if in_range 56320 57343 d then S (code_points t') else S (code_points t) | [] => 1 end
      else S (code_points t)
  end.
Definition text_ok (s : jstr) : bool := forallb (λ c, negb (c =? 0)%N) s.
Definition fits (n : nat) (s : jstr) : bool := text_ok s && (code_points s <=? n)%nat.

(** ** The server *)

Inductive role_reply := RoleDone (status : Z) | RoleFailed (status : Z) (message : jstr).
Definition find_role (id : jstr) (st : list role_row) : option role_row := List.find (λ r, rr_id r =?s id) st.
Definition on_role (id : jstr) (f : role_row → role_row) (st : list role_row) : list role_row :=
  (λ r, if rr_id r =?s id then f r else r) <$> st.

Section server.
(** The table [permissions]. *)
Context (catalog : list PermissionInfo).

Definition known (k : jstr) : bool := existsb (λ p, PermissionInfo_key p =?s k) catalog.

(** [UpdateRole]; [None]: the statement fails.  Without a row it does nothing. *)
Definition UpdateRole (id label description : jstr) (st : list role_row) : option (list role_row) :=
  if bool_decide (is_Some (find_role id st)) && negb (fits 100 label && text_ok description) then None
  else Some (on_role id (with_texts label description) st).
(** The loop of [SetRolePermissions]: a key that does not exist inserts
    nothing, one that is there already fails. *)
Fixpoint insert_keys (keys perms : list jstr) : bool * list jstr :=
  match keys with
  | [] => (true, perms)
  | k :: rest => if known k then (if set_has perms k then (false, perms) else insert_keys rest (perms ++ [k]))
                 else insert_keys rest perms
  end.
Definition SetRolePermissions (id : jstr) (keys : list jstr) (st : list role_row) : bool * list role_row :=
  match find_role id st with
  | None => (negb (existsb known keys), st)
  | Some _ => let '(ok, perms) := insert_keys keys [] in (ok, on_role id (with_perms perms) st)
  end.

(** The fields of the bodies; [None] of a list is [nil]. *)
Definition decode_strings (v : option json) : option (option (list jstr)) :=
  match v with
  | None | Some JNull => Some None
  | Some (JArr l) => Some <$> mapM (λ j, decode_text (Some j)) l
  | _ => None
  end.

(** [PATCH /admin/roles/{roleId}], for an administrator and an identifier that
    can be read; audit entries and the cache of permissions are left out. *)
Definition patch_role (id : jstr) (body : list (jstr * json)) (st : list role_row) : role_reply * list role_row :=
  match decode_text (map_get body "label"), decode_text (map_get body "description"), decode_strings (map_get body "permissions") with
  | Some label, Some description, Some permissions =>
      match (if truthy label || truthy description then UpdateRole id label description st else Some st) with
      | None => (RoleFailed 500%Z "failed to update role", st)
      | Some st1 =>
          match permissions with
          | None => (RoleDone 200%Z, st1)
          | Some keys => match SetRolePermissions id keys st1 with
                         | (true, st2) => (RoleDone 200%Z, st2)
                         | (false, st2) => (RoleFailed 500%Z "failed to update permissions", st2)
                         end
          end
      end
  | _, _, _ => (RoleFailed 400%Z "invalid request body", st)
  end.

(** [INSERT INTO roles]: a rank is an integer of 32 bits, and pairs of scope and
    value are unique. *)
Definition int32 (n : Z) : bool := (- 2 ^ 31 <=? n)%Z && (n <? 2 ^ 31)%Z.
Definition CreateRole_sql (r : role_row) (st : list role_row) : option (list role_row) :=
  if negb (fits 50 (rr_value r) && fits 100 (rr_label r) && text_ok (rr_description r) && int32 (rr_rank r)) then None
  else if existsb (λ x, (rr_scope x =?s rr_scope r) && (rr_value x =?s rr_value r)) st then None
  else Some (st ++ [r]).
(** [POST /admin/roles]; [id] is the new identifier.  A failure to store the
    permissions is ignored. *)
Definition post_role (id : jstr) (body : list (jstr * json)) (st : list role_row) : role_reply * list role_row :=
  match decode_text (map_get body "scope"), decode_text (map_get body "value"), decode_text (map_get body "label"),
        decode_text (map_get body "description"), decode_num (map_get body "rank"), decode_strings (map_get body "permissions") with
  | Some scope, Some value, Some label, Some description, Some rank, Some permissions =>
      if negb (scope =?s "org") && negb (scope =?s "team") then (RoleFailed 400%Z "scope must be org or team", st)
      else if negb (truthy value) || negb (truthy label) then (RoleFailed 400%Z "value and label are required", st)
      else
        let r := {| rr_id := id; rr_scope := scope; rr_value := value; rr_label := label; rr_description := description; rr_rank := rank;
                    rr_system := false; rr_perms := [] |} in
        match CreateRole_sql r st with
        | None => (RoleFailed 400%Z "failed to create role (value may already exist)", st)
        | Some st1 =>
            (RoleDone 201%Z, if (0 <? length (default [] permissions))%nat then (SetRolePermissions id (default [] permissions) st1).2 else st1)
        end
  | _, _, _, _, _, _ => (RoleFailed 400%Z "invalid request body", st)
  end.
(** [DELETE /admin/roles/{roleId}]: a built-in role is left, and the answer is
    the same. *)
Definition delete_role (id : jstr) (st : list role_row) : role_reply * list role_row :=
  (RoleDone 204%Z, List.filter (λ r, negb ((rr_id r =?s id) && negb (rr_system r))) st).
End server.

(** ** What is stored *)

Section together.
Context (catalog : list PermissionInfo).

Definition perms_ok (perms : list jstr) : Prop := NoDup perms ∧ Forall (λ k, known catalog k = true) perms.
Record roles_ok (st : list role_row) : Prop := {
  ro_ids : NoDup (rr_id <$> st);
  ro_perms : Forall (λ r, perms_ok (rr_perms r)) st
}.

Lemma find_role_some id st r : find_role id st = Some r → r ∈ st ∧ rr_id r = id.
Proof. intros [Hin Hid]%List.find_some. split; [by apply list_elem_of_In|by apply jeqb_eq]. Qed.
Lemma find_on_role id f st : (∀ r, rr_id (f r) = rr_id r) → find_role id (on_role id f st) = f <$> find_role id st.
Proof.
  intros Hf. induction st as [|x st IH]; [done|]. unfold find_role, on_role in *. rw fmap_cons. cbn [List.find].
  destruct (rr_id x =?s id) eqn:E; [|by rw E]. by rw Hf E.
Qed.
Lemma on_role_ids id f st : (∀ r, rr_id (f r) = rr_id r) → rr_id <$> on_role id f st = rr_id <$> st.
Proof. intros Hf. unfold on_role. rw -list_fmap_compose. apply list_fmap_ext. intros i x _. cbn. destruct (_ =?s _); [apply Hf|done]. Qed.
Lemma on_role_other id f st other : other ∈ st → rr_id other ≠ id → other ∈ on_role id f st.
Proof.
  intros Hin Hne. apply list_elem_of_fmap. exists other. split; [|done]. destruct (rr_id other =?s id) eqn:E; [|done]. by apply jeqb_eq in E.
Qed.
Lemma on_role_ok id f st : (∀ r, rr_id (f r) = rr_id r) → (∀ r, perms_ok (rr_perms r) → perms_ok (rr_perms (f r))) → roles_ok st →
  roles_ok (on_role id f st).
Proof.
  intros Hf Hp [Hi Hr]. constructor; [by rw on_role_ids|]. apply Forall_fmap. eapply Forall_impl; [exact Hr|]. intros x Hx. cbn.
  destruct (_ =?s _); [by apply Hp|done].
Qed.

Lemma insert_keys_all keys perms :
  perms_ok keys → (∀ k, k ∈ keys → k ∉ perms) → insert_keys catalog keys perms = (true, perms ++ keys).
Proof.
  intros [Hn Hk]. revert perms Hn. induction Hk as [|k keys Hk _ IH]; intros perms Hn Hd; cbn [insert_keys]; [by rw app_nil_r|].
  apply NoDup_cons in Hn as [Hnk Hn]. rw Hk. destruct (set_has perms k) eqn:Es.
  - exfalso. apply (Hd k); [by left|]. unfold set_has in Es. by apply bool_decide_eq_true in Es.
  - rw IH // -?app_assoc //. intros x Hx. rw elem_of_app list_elem_of_singleton. intros [Hp| ->]; [|done]. by eapply Hd; [right|].
Qed.
Lemma decode_jstrs keys : decode_strings (Some (jstrs keys)) = Some (Some keys).
Proof.
  unfold jstrs, decode_strings. assert (E : mapM (λ j, decode_text (Some j)) (JStr <$> keys) = Some keys).
  { induction keys as [|k keys IH]; [done|]. cbn. cbn in IH. by rw IH. }
  by rw E.
Qed.

(** The keys that can be selected in the dialog of a role. *)
Lemma edit_reach permissions (r : role_row) (s : EditRole) :
  permissions ⊆ catalog → perms_ok (rr_perms r) → rtc (edit_step permissions) (er_init (as_info r)) s → perms_ok (er_selected s).
Proof.
  intros Hsub Hr. assert (Hkn : ∀ p, p ∈ permissions → known catalog (PermissionInfo_key p) = true).
  { intros p Hp. apply existsb_exists. exists p. split; [by apply list_elem_of_In, Hsub|apply jeqb_refl]. }
  revert s. apply (rtc_ind_r (λ s, perms_ok (er_selected s)) (R := edit_step permissions)).
  { destruct Hr as [_ Hk]. split; cbn; [apply NoDup_set_of|]. rw Forall_forall in Hk. apply Forall_forall. intros k. rw elem_of_set_of. apply Hk. }
  intros s s' _ Hs [Hn Hk]. rw Forall_forall in Hk. destruct Hs as [s l|s d|s p Hp|s ps Hps|s ps Hps|s b]; cbn; try (split; [done|by apply Forall_forall]).
  - split; [unfold toggleScope; auto with bb|]. apply Forall_forall. intros k [[? _]|[_ ->]]%elem_of_set_toggle; auto.
  - split; [unfold selectAllGroup; auto with bb|]. apply Forall_forall.
    intros k [?|(p & -> & Hp)%list_elem_of_fmap]%fold_set_add_elem; [by apply Hk|]. apply Hkn. by apply Hps.
  - split; [unfold deselectAllGroup; auto with bb|]. apply Forall_forall. intros k [? _]%fold_set_delete_elem. by apply Hk.
Qed.

(** The row after a save of the dialog. *)
Definition saved_row (s : EditRole) (r : role_row) : role_row :=
  with_perms (er_selected s) (if truthy (er_label s) || truthy (er_description s) then with_texts (er_label s) (er_description s) r else r).
Lemma on_role_compose id f g st : (∀ r, rr_id (f r) = rr_id r) → on_role id g (on_role id f st) = on_role id (λ r, g (f r)) st.
Proof.
  intros Hf. unfold on_role. rw -list_fmap_compose. apply list_fmap_ext. intros i x _. cbn. destruct (rr_id x =?s id) eqn:E; [by rw Hf E|by rw E].
Qed.
Lemma patch_role_saved id (s : EditRole) st : perms_ok (er_selected s) → is_Some (find_role id st) →
  fits 100 (er_label s) = true → text_ok (er_description s) = true →
  patch_role catalog id (edit_role_body s) st = (RoleDone 200%Z, on_role id (saved_row s) st).
Proof.
  intros Hok [r Hr] Hl Hd. unfold patch_role. change (map_get (edit_role_body s) "label") with (Some (JStr (er_label s))).
  change (map_get (edit_role_body s) "description") with (Some (JStr (er_description s))).
  change (map_get (edit_role_body s) "permissions") with (Some (jstrs (er_selected s))). rw decode_jstrs. cbn [decode_text].
  assert (Hset : ∀ st1, is_Some (find_role id st1) → SetRolePermissions catalog id (er_selected s) st1 = (true, on_role id (with_perms (er_selected s)) st1)).
  { intros st1 [x Hx]. unfold SetRolePermissions. by rw Hx (insert_keys_all _ [] Hok ltac:(set_solver)). }
  unfold saved_row. destruct (truthy (er_label s) || truthy (er_description s)).
  - unfold UpdateRole. rw Hl Hd andb_false_r. rw Hset; [by rw on_role_compose|]. rw find_on_role //. by rw Hr.
  - by rw Hset.
Qed.

Lemma stored_perms_ok (r : role_row) st : roles_ok st → find_role (rr_id r) st = Some r → perms_ok (rr_perms r).
Proof. intros Hst [Hin _]%find_role_some. pose proof (ro_perms _ Hst) as Hf. rw Forall_forall in Hf. by apply Hf. Qed.
Lemma init_perms_ok (r : role_row) st : roles_ok st → find_role (rr_id r) st = Some r → perms_ok (set_of (rr_perms r)).
Proof.
  intros Hst Hr. destruct (stored_perms_ok r st Hst Hr) as [_ Hk]. split; [apply NoDup_set_of|].
  rw Forall_forall in Hk. apply Forall_forall. intros k. rw elem_of_set_of. apply Hk.
Qed.
Lemma saved_row_id (s : EditRole) x : rr_id (saved_row s x) = rr_id x.
Proof. unfold saved_row. by destruct (_ || _). Qed.

(** C36: dialog and server together.  Whatever was edited in the dialog of a
    role, if the texts fit the table the save succeeds: the role has exactly
    the selected permissions, scope, value and rank are as they were and no
    other role changes.  The role loaded then shows what was entered, unless
    both texts were emptied: then the old ones are still there. *)
Theorem edit_role_stored (permissions : list PermissionInfo) (r : role_row) (s : EditRole) (st : list role_row) :
  roles_ok st → find_role (rr_id r) st = Some r → permissions ⊆ catalog → rtc (edit_step permissions) (er_init (as_info r)) s →
  fits 100 (er_label s) = true → text_ok (er_description s) = true →
  ∃ r' st', patch_role catalog (rr_id r) (edit_role_body s) st = (RoleDone 200%Z, st') ∧ roles_ok st' ∧
    find_role (rr_id r) st' = Some r' ∧
    (∀ k, k ∈ rr_perms r' ↔ k ∈ er_selected s) ∧
    (rr_scope r' = rr_scope r ∧ rr_value r' = rr_value r ∧ rr_rank r' = rr_rank r ∧ rr_system r' = rr_system r) ∧
    (dirty (as_info r') s = false ↔ er_label s ≠ [] ∨ er_description s ≠ [] ∨ rr_label r = [] ∧ rr_description r = []) ∧
    (∀ other, other ∈ st → rr_id other ≠ rr_id r → other ∈ st').
Proof.
  intros Hst Hr Hsub Hs Hl Hd.
  pose proof (edit_reach permissions r s Hsub (stored_perms_ok r st Hst Hr) Hs) as Hok.
  exists (saved_row s r), (on_role (rr_id r) (saved_row s) st). split_and!.
  - apply patch_role_saved; [done|by rw Hr|done..].
  - apply on_role_ok; [apply saved_row_id| |done]. by intros x _.
  - rw find_on_role; [by rw Hr|apply saved_row_id].
  - done.
  - by unfold saved_row; destruct (_ || _).
  - by unfold saved_row; destruct (_ || _).
  - by unfold saved_row; destruct (_ || _).
  - by unfold saved_row; destruct (_ || _).
  - unfold dirty. rw (_ : RoleInfo_permissions (as_info (saved_row s r)) = er_selected s) //. rw bool_decide_false; [|naive_solver].
    rw orb_false_r orb_false_iff !negb_false_iff !jeqb_eq. unfold saved_row.
    destruct (er_label s) as [|c l], (er_description s) as [|c' d]; cbn; naive_solver.
  - intros other. apply on_role_other.
Qed.

(** Emptying both texts, the only edit: the save is answered as done and the
    role is as it was. *)
Theorem cleared_texts_lost (r : role_row) (st : list role_row) :
  let s := er_text [] [] (er_init (as_info r)) in
  roles_ok st → find_role (rr_id r) st = Some r → rr_label r ≠ [] →
  dirty (as_info r) s = true ∧
  ∃ st' r', patch_role catalog (rr_id r) (edit_role_body s) st = (RoleDone 200%Z, st') ∧ find_role (rr_id r) st' = Some r' ∧
    rr_label r' = rr_label r ∧ rr_description r' = rr_description r ∧ ∀ k, k ∈ rr_perms r' ↔ k ∈ rr_perms r.
Proof.
  intros s Hst Hr Hl. pose proof (init_perms_ok r st Hst Hr) as Hp. split; [unfold dirty; cbn; by destruct (rr_label r)|]. eexists _, (saved_row s r). split_and!; [apply patch_role_saved; [done|by rw Hr|done..]| |done|done|].
  - rw find_on_role; [by rw Hr|apply saved_row_id].
  - intros k. cbn. apply elem_of_set_of.
Qed.

(** The other way round a label alone can be emptied: the role is stored
    without a name, which the dialog that creates roles does not allow. *)
Theorem blank_label_stored (r : role_row) (d : jstr) (st : list role_row) :
  let s := er_text [] d (er_init (as_info r)) in
  roles_ok st → find_role (rr_id r) st = Some r → d ≠ [] → text_ok d = true →
  ∃ st' r', patch_role catalog (rr_id r) (edit_role_body s) st = (RoleDone 200%Z, st') ∧ find_role (rr_id r) st' = Some r' ∧ rr_label r' = [].
Proof.
  intros s Hst Hr Hne Hd. pose proof (init_perms_ok r st Hst Hr) as Hp. eexists _, (saved_row s r).
  split_and!; [apply patch_role_saved; [done|by rw Hr|done..]|rw find_on_role; [by rw Hr|apply saved_row_id]|].
  unfold saved_row. cbn. by destruct d.
Qed.

Lemma find_appended (r : role_row) st : rr_id r ∉ (rr_id <$> st) → find_role (rr_id r) (st ++ [r]) = Some r.
Proof.
  intros Hn. induction st as [|x st IH]; cbn; [by rw jeqb_refl|]. apply not_elem_of_cons in Hn as [Hx Hn].
  destruct (rr_id x =?s rr_id r) eqn:E; [by apply jeqb_eq in E|]. by apply IH.
Qed.
Lemma on_role_appended (r : role_row) f st : rr_id r ∉ (rr_id <$> st) → on_role (rr_id r) f (st ++ [r]) = st ++ [f r].
Proof.
  intros Hn. unfold on_role. rw fmap_app. cbn. rw jeqb_refl. f_equal. rw -{2}(list_fmap_id st). apply list_fmap_ext. intros i x Hx. cbn.
  destruct (rr_id x =?s rr_id r) eqn:E; [|done]. apply jeqb_eq in E. exfalso. apply Hn. rw -E. apply list_elem_of_fmap. exists x. split; [done|].
  by eapply list_elem_of_lookup_2.
Qed.

(** A role made in the dialog: with a value that is free and texts that fit,
    it is stored under the slug with exactly the selected permissions of its
    scope. *)
Theorem create_role_stored `{!JSRuntime} (org team : list PermissionInfo) (id : jstr) (s : CreateRole) (st : list role_row) :
  org ⊆ catalog → team ⊆ catalog → rtc (role_step org team) cr_init s → roles_ok st → id ∉ (rr_id <$> st) →
  role_save_disabled s = false → cr_scope s ∈ [js "org"; js "team"] →
  role_slug (cr_value s) ≠ [] → fits 50 (role_slug (cr_value s)) = true → fits 100 (cr_label s) = true → text_ok (cr_description s) = true → int32 (cr_rank s) = true →
  (∀ x, x ∈ st → rr_scope x = cr_scope s → rr_value x ≠ role_slug (cr_value s)) →
  ∃ body r, role_body s = JObj body ∧ post_role catalog id body st = (RoleDone 201%Z, st ++ [r]) ∧
    rr_id r = id ∧ rr_scope r = cr_scope s ∧ rr_value r = role_slug (cr_value s) ∧ rr_label r = cr_label s ∧
    rr_rank r = cr_rank s ∧ rr_system r = false ∧ rr_perms r = cr_selected s.
Proof.
  intros Ho Ht Hs Hst Hid Hdis Hsc Hne Hv Hl Hd Hrank Hfree. destruct (create_role_scope_safe org team s Hs) as [Hn Hk].
  set (r0 := {| rr_id := id; rr_scope := cr_scope s; rr_value := role_slug (cr_value s); rr_label := cr_label s;
    rr_description := cr_description s; rr_rank := cr_rank s; rr_system := false; rr_perms := [] |}).
  set (body := [(js "scope", JStr (cr_scope s)); (js "value", JStr (role_slug (cr_value s))); (js "label", JStr (cr_label s));
    (js "description", JStr (cr_description s)); (js "rank", JNum (cr_rank s)); (js "permissions", jstrs (cr_selected s))]).
  exists body, (with_perms (cr_selected s) r0). split; [done|]. split_and!; try done. unfold post_role.
  change (map_get body "scope") with (Some (JStr (cr_scope s))). change (map_get body "value") with (Some (JStr (role_slug (cr_value s)))).
  change (map_get body "label") with (Some (JStr (cr_label s))). change (map_get body "description") with (Some (JStr (cr_description s))).
  change (map_get body "rank") with (Some (JNum (cr_rank s))). change (map_get body "permissions") with (Some (jstrs (cr_selected s))).
  rw decode_jstrs decode_JNum; [|unfold int32 in Hrank; unfold int64; lia]. cbn [decode_text]. fold r0.
  assert ((negb (cr_scope s =?s "org") && negb (cr_scope s =?s "team")) = false) as ->.
  { rw !elem_of_cons elem_of_nil in Hsc. by destruct Hsc as [->|[->|[]]]. }
  unfold role_save_disabled in Hdis. apply orb_false_iff in Hdis as [Hdis _]. apply orb_false_iff in Hdis as [_ Hlab].
  rw (proj2 (truthy_nonempty _) Hne) Hlab. cbn [negb orb].
  assert (CreateRole_sql r0 st = Some (st ++ [r0])) as ->.
  { unfold CreateRole_sql. cbn [rr_value rr_label rr_description rr_scope rr_rank r0]. rw Hv Hl Hd Hrank. cbn [negb andb].
    destruct (existsb _ st) eqn:Ex; [|done]. exfalso. apply existsb_exists in Ex as (x & Hx & [E1 E2]%andb_true_iff).
    apply list_elem_of_In in Hx. apply jeqb_eq in E1, E2. by apply (Hfree x Hx). }
  cbn [default from_option]. unfold Datatypes.id. f_equal. destruct (Nat.ltb_spec 0 (length (cr_selected s))) as [_|Hz].
  2: { by destruct (cr_selected s); [|cbn in Hz; lia]. }
  unfold SetRolePermissions. rw (find_appended r0) // (insert_keys_all _ []); [by apply (on_role_appended r0)| |set_solver].
  split; [done|]. apply Forall_forall. intros k (p & -> & Hp)%Hk%list_elem_of_fmap. apply existsb_exists. exists p.
  split; [|apply jeqb_refl]. apply list_elem_of_In. unfold scope_permissions in Hp. destruct (_ =?s _); [by apply Ho|by apply Ht].
Qed.

(** ** Built-in roles *)

(** Every request to the three handlers, whatever it carries. *)
Inductive roles_step : list role_row → list role_row → Prop :=
| roles_patch id body st : roles_step st (patch_role catalog id body st).2
| roles_post id body st : id ∉ (rr_id <$> st) → roles_step st (post_role catalog id body st).2
| roles_delete id st : roles_step st (delete_role id st).2.

Lemma insert_keys_ok keys perms : perms_ok perms → perms_ok (insert_keys catalog keys perms).2.
Proof.
  revert perms. induction keys as [|k keys IH]; intros perms Hp; cbn; [done|]. destruct (known catalog k) eqn:Ek; [|by apply IH].
  destruct (set_has perms k) eqn:Es; [done|]. apply IH. destruct Hp as [Hn Hk]. unfold set_has in Es. apply bool_decide_eq_false in Es. split.
  - rw NoDup_app. split_and!; [done| |apply NoDup_singleton]. by intros x Hx ->%list_elem_of_singleton.
  - apply Forall_app. split; [done|]. by apply Forall_singleton.
Qed.
Lemma set_permissions_ok id keys st : roles_ok st → roles_ok (SetRolePermissions catalog id keys st).2.
Proof.
  intros Hst. unfold SetRolePermissions. destruct (find_role id st); [|done].
  pose proof (insert_keys_ok keys [] (conj (NoDup_nil_2) (Forall_nil_2 _))) as Hp. destruct (insert_keys catalog keys []) as [ok perms].
  apply on_role_ok; [done| |done]. by intros x _.
Qed.

(** What stays of a role whatever is sent. *)
Definition keeps (st st' : list role_row) : Prop :=
  ∀ r, r ∈ st → rr_system r = true →
    ∃ r', r' ∈ st' ∧ rr_id r' = rr_id r ∧ rr_scope r' = rr_scope r ∧ rr_value r' = rr_value r ∧ rr_rank r' = rr_rank r ∧ rr_system r' = true.
#[local] Instance keeps_refl : Reflexive keeps.
Proof. intros st r Hr Hs. exists r. by split_and!. Qed.
#[local] Instance keeps_trans : Transitive keeps.
Proof.
  intros st1 st2 st3 H1 H2 r Hr Hs. destruct (H1 r Hr Hs) as (r' & Hr' & E1 & E2 & E3 & E4 & Hs'). destruct (H2 r' Hr' Hs') as (r'' & ? & ? & ? & ? & ? & ?).
  exists r''. split_and!; congruence.
Qed.
Lemma keeps_on_role id f st :
  (∀ r, rr_id (f r) = rr_id r ∧ rr_scope (f r) = rr_scope r ∧ rr_value (f r) = rr_value r ∧ rr_rank (f r) = rr_rank r ∧ rr_system (f r) = rr_system r) →
  keeps st (on_role id f st).
Proof.
  intros Hf r Hr Hs. exists (if rr_id r =?s id then f r else r). split; [apply list_elem_of_fmap; by exists r|].
  destruct (_ =?s _); [|by split_and!]. destruct (Hf r) as (? & ? & ? & ? & ?). split_and!; congruence.
Qed.
Lemma keeps_set_permissions id keys st : keeps st (SetRolePermissions catalog id keys st).2.
Proof.
  unfold SetRolePermissions. destruct (find_role id st); [|reflexivity]. destruct (insert_keys catalog keys []).
  apply keeps_on_role. done.
Qed.
Lemma patch_kept id body st : roles_ok st → roles_ok (patch_role catalog id body st).2 ∧ keeps st (patch_role catalog id body st).2.
Proof.
  intros Hst. unfold patch_role. destruct (decode_text _) as [label|]; [|done]. destruct (decode_text _) as [description|]; [|done].
  destruct (decode_strings _) as [keys|]; [|done].
  assert (Hu : ∀ st1, (if truthy label || truthy description then UpdateRole id label description st else Some st) = Some st1 → roles_ok st1 ∧ keeps st st1).
  { intros st1. destruct (_ || _); [|by intros [= <-]]. unfold UpdateRole. destruct (_ && _); [done|]. intros [= <-].
    split; [by apply on_role_ok|]. apply keeps_on_role. by intros r. }
  destruct (if truthy label || truthy description then _ else _) as [st1|]; [|done]. destruct (Hu st1 eq_refl) as [H1 H2].
  destruct keys as [keys|]; [|done]. pose proof (set_permissions_ok id keys st1 H1) as H3. pose proof (keeps_set_permissions id keys st1) as H4.
  destruct (SetRolePermissions catalog id keys st1) as [[] st2]; (split; [done|]); by etrans.
Qed.
Lemma post_kept id body st : id ∉ (rr_id <$> st) → roles_ok st → roles_ok (post_role catalog id body st).2 ∧ keeps st (post_role catalog id body st).2.
Proof.
  intros Hid Hst. unfold post_role. do 4 (destruct (decode_text _); [|done]). destruct (decode_num _); [|done]. destruct (decode_strings _) as [keys|]; [|done].
  destruct (_ && _); [done|]. destruct (_ || _); [done|]. unfold CreateRole_sql. destruct (negb _); [done|]. destruct (existsb _ _); [done|].
  set (r := {| rr_id := id |}). assert (H1 : roles_ok (st ++ [r])).
  { destruct Hst as [Hi Hp]. constructor.
    - rw fmap_app NoDup_app. split_and!; [done| |apply NoDup_singleton]. by intros x Hx ->%list_elem_of_singleton.
    - apply Forall_app. split; [done|]. apply Forall_singleton. split; constructor. }
  assert (H2 : keeps st (st ++ [r])).
  { intros x Hx Hs. exists x. split_and!; [|done..]. apply elem_of_app. by left. }
  cbn [snd]. destruct (_ <? _); [|done]. split; [by apply set_permissions_ok|]. etrans; [exact H2|apply keeps_set_permissions].
Qed.
Lemma delete_kept id st : roles_ok st → roles_ok (delete_role id st).2 ∧ keeps st (delete_role id st).2.
Proof.
  intros [Hi Hp]. cbn. split; [constructor|].
  - by apply NoDup_fmap_filter.
  - apply Forall_forall. intros x [Hx _]%elem_of_List_filter_any. rw Forall_forall in Hp. by apply Hp.
  - intros r Hr Hs. exists r. split_and!; try done. apply elem_of_List_filter_any. split; [done|]. by rw Hs andb_false_r.
Qed.

(** Whatever is sent, identifiers stay unique, every role has known permissions,
    each once, and a built-in role stays, with its scope, value and rank; only
    its texts and permissions change. *)
Theorem builtin_roles_stay (st st' : list role_row) : roles_ok st → rtc roles_step st st' → roles_ok st' ∧ keeps st st'.
Proof.
  intros Hst Hr. revert st' Hr. apply (rtc_ind_r (λ x, roles_ok x ∧ keeps st x) (R := roles_step)); [done|].
  intros s s' _ Hs [Ho Hk]. assert (roles_ok s' ∧ keeps s s') as [? ?]; [|split; [done|by etrans]].
  destruct Hs as [id body s|id body s Hid|id s]; [by apply patch_kept|by apply post_kept|by apply delete_kept].
Qed.
End together.

(** ** Instances *)

Definition role_catalog : list PermissionInfo := [perm "org" "org.audit.view"; perm "org" "org.teams.view"].
Definition auditor_row : role_row := {|
  rr_id := "r"; rr_scope := "org"; rr_value := "auditor"; rr_label := "Auditor"; rr_description := "Reads"; rr_rank := 2; rr_system := false;
  rr_perms := [js "org.audit.view"] |}.
Lemma role_table_ok : roles_ok role_catalog [auditor_row].
Proof. constructor; [apply NoDup_singleton|]. apply Forall_singleton. split; [apply NoDup_singleton|]. by apply Forall_singleton. Qed.
Definition auditor_edit : EditRole :=
  er_select (toggleScope "org.teams.view" [js "org.audit.view"]) (er_text "Reader" "Reads" (er_init (as_info auditor_row))).
Lemma edit_role_stored_witness :
  ∃ r' st', patch_role role_catalog "r" (edit_role_body auditor_edit) [auditor_row] = (RoleDone 200%Z, st') ∧
    find_role "r" st' = Some r' ∧ dirty (as_info r') auditor_edit = false.
Proof.
  destruct (edit_role_stored role_catalog role_catalog auditor_row auditor_edit [auditor_row] role_table_ok eq_refl (reflexivity _)) as
    (r' & st' & E & _ & Ef & _ & _ & Hd & _).
  - eapply rtc_l; [exact (es_label role_catalog (er_init (as_info auditor_row)) "Reader")|]. apply rtc_once.
    refine (es_toggle role_catalog _ (perm "org" "org.teams.view") _). right. by left.
  - reflexivity.
  - reflexivity.
  - exists r', st'. split; [exact E|]. split; [exact Ef|]. apply Hd. by left.
Defined.
