(* ===== verification/NetGuard.v ===== *)
(** * The guard of outgoing connections

    [internal/netguard/netguard.go], which stands between the addresses that
    webhooks and the connection tests of the setup wizard are given and the
    network: the ranges that are refused, the check of a name, and the dialer
    that connects to an address it has checked.  Other connections of the
    server do not pass it: an administrator's test of the configured mailer
    dials directly, on purpose, and so do the object storage in use, the
    mailer and the test of a single sign-on provider.  What of Go's [net]
    package it uses is here too. *)

From Stdlib Require Import ZifyBool.
From S2P Require Import Prelude.

(** ** [net.IP]: a slice of 4 or 16 bytes, or nil *)

Definition IP := list Z.
Definition is_byte (b : Z) : Prop := (0 <= b < 256)%Z.
Definition wf_ip (ip : IP) : Prop := Forall is_byte ip ∧ (length ip = 4 ∨ length ip = 16).
Definition mapped_prefix : list Z := replicate 10 0%Z ++ [255; 255]%Z.
Definition To4 (ip : IP) : option IP :=
  if (length ip =? 4)%nat then Some ip
  else if (length ip =? 16)%nat && bool_decide (take 12 ip = mapped_prefix) then Some (drop 12 ip) else None.
(** [Equal]: an IPv4 address and its mapped form are the same. *)
Definition Equal (ip x : IP) : bool :=
  match To4 ip, To4 x with Some a, Some b => bool_decide (a = b) | None, None => bool_decide (ip = x) | _, _ => false end.
Definition IPv4zero : IP := [0; 0; 0; 0]%Z.
Definition IPv6unspecified : IP := replicate 16 0%Z.
Definition IPv6loopback : IP := replicate 15 0%Z ++ [1%Z].
Definition IsUnspecified (ip : IP) : bool := Equal ip IPv4zero || Equal ip IPv6unspecified.
Definition at_byte (ip : IP) (i : nat) : Z := nth i ip 0%Z.
Definition IsLoopback (ip : IP) : bool :=
  match To4 ip with Some v => (at_byte v 0 =? 127)%Z | None => Equal ip IPv6loopback end.
Definition IsLinkLocalUnicast (ip : IP) : bool :=
  match To4 ip with
  | Some v => (at_byte v 0 =? 169)%Z && (at_byte v 1 =? 254)%Z
  | None => (length ip =? 16)%nat && (at_byte ip 0 =? 254)%Z && (Z.land (at_byte ip 1) 192 =? 128)%Z
  end.
Definition IsLinkLocalMulticast (ip : IP) : bool :=
  match To4 ip with
  | Some v => (at_byte v 0 =? 224)%Z && (at_byte v 1 =? 0)%Z && (at_byte v 2 =? 0)%Z
  | None => (length ip =? 16)%nat && (at_byte ip 0 =? 255)%Z && (Z.land (at_byte ip 1) 15 =? 2)%Z
  end.
Definition IsInterfaceLocalMulticast (ip : IP) : bool :=
  (length ip =? 16)%nat && (at_byte ip 0 =? 255)%Z && (Z.land (at_byte ip 1) 15 =? 1)%Z.

(** [net.IPNet]: the number of a network and its mask, from address and length
    of the prefix. *)
Record IPNet := { net_ip : IP; net_mask : list Z }.
Definition CIDRMask (ones len : nat) : list Z :=
  (λ i, let k := Nat.min 8 (ones - 8 * i) in Z.shiftl (Z.ones (Z.of_nat k)) (8 - Z.of_nat k)) <$> seq 0 len.
Definition CIDR (ip : IP) (ones : nat) : IPNet := {| net_ip := ip; net_mask := CIDRMask ones (length ip) |}.
Fixpoint masked_equal (nn m ip : list Z) : bool :=
  match nn, m, ip with
  | a :: nn', k :: m', b :: ip' => (Z.land a k =? Z.land b k)%Z && masked_equal nn' m' ip'
  | _, _, _ => true
  end.
Definition Contains (n : IPNet) (ip : IP) : bool :=
  let ip := default ip (To4 ip) in (length ip =? length (net_ip n))%nat && masked_equal (net_ip n) (net_mask n) ip.

(** ** The guard *)

Definition v6 (first : list Z) (last : list Z) : IP := first ++ replicate (16 - length first - length last) 0%Z ++ last.
Definition blockedRanges : list IPNet := [
  CIDR [10; 0; 0; 0] 8; CIDR [172; 16; 0; 0] 12; CIDR [192; 168; 0; 0] 16; CIDR [127; 0; 0; 0] 8; CIDR [169; 254; 0; 0] 16;
  CIDR [100; 64; 0; 0] 10; CIDR [192; 0; 0; 0] 24; CIDR [198; 18; 0; 0] 15; CIDR (v6 [] [1]) 128; CIDR (v6 [252] []) 7; CIDR (v6 [254; 128] []) 10
]%Z.
Definition IsBlocked (ip : IP) : bool :=
  if (length ip =? 0)%nat then true
  else if IsUnspecified ip || IsLoopback ip || IsLinkLocalUnicast ip || IsLinkLocalMulticast ip || IsInterfaceLocalMulticast ip then true
  else let ip := default ip (To4 ip) in existsb (λ n, Contains n ip) blockedRanges.

(** What comes from Go's library and from name servers: a lookup may answer
    differently each time, so it takes its number. *)
Class GoNet := {
  ParseIP : jstr → option IP;
  LookupIPAddr : nat → jstr → option (list IP);
  ParseIP_wf h ip : ParseIP h = Some ip → wf_ip ip;
  LookupIPAddr_wf n h l : LookupIPAddr n h = Some l → Forall wf_ip l
}.
Inductive guard_error := ErrBlocked (host : jstr) (ip : IP) | ErrResolve (message : jstr).

Section guard.
Context `{!GoNet}.

Fixpoint all_public (host : jstr) (l : list IP) : guard_error + list IP :=
  match l with
  | [] => inr []
  | ip :: l' => if IsBlocked ip then inl (ErrBlocked host ip)
                else match all_public host l' with inl e => inl e | inr ips => inr (ip :: ips) end
  end.
Definition ResolveSafe (n : nat) (host : jstr) : guard_error + list IP :=
  match ParseIP host with
  | Some literal => if IsBlocked literal then inl (ErrBlocked host literal) else inr [literal]
  | None => match LookupIPAddr n host with
            | None => inl (ErrResolve ("cannot resolve " ++ host))
            | Some [] => inl (ErrResolve ("no addresses for " ++ host))
            | Some addrs => all_public host addrs
            end
  end.
(** [DialContext] and [Dial]: the address that is connected to.  The dialer is
    given it as a literal, which it does not look up. *)
Definition DialContext (n : nat) (host : jstr) : guard_error + option IP :=
  match ResolveSafe n host with inl e => inl e | inr ips => inr (head ips) end.
(** The connections of a request that is redirected from host to host; each
    goes through the dialer, with a lookup of its own. *)
Fixpoint connections (n : nat) (hosts : list jstr) : list IP :=
  match hosts with
  | [] => []
  | h :: rest => match DialContext n h with
                 | inr (Some ip) => ip :: connections (S n) rest
                 | _ => []
                 end
  end.
End guard.

(** ** Which addresses are refused *)

(** The documented space, by bytes: private, loopback, link-local, shared,
    protocol and benchmarking ranges, link-local multicast and 0.0.0.0. *)
Definition internal4 (a b c d : Z) : Prop := (
  a = 10 ∨ (a = 172 ∧ 16 <= b <= 31) ∨ (a = 192 ∧ b = 168) ∨ a = 127 ∨ (a = 169 ∧ b = 254) ∨ (a = 100 ∧ 64 <= b <= 127) ∨
  (a = 192 ∧ b = 0 ∧ c = 0) ∨ (a = 198 ∧ 18 <= b <= 19) ∨ (a = 224 ∧ b = 0 ∧ c = 0) ∨ (a = 0 ∧ b = 0 ∧ c = 0 ∧ d = 0))%Z.
(** Of IPv6 [::], [::1], unique-local and link-local addresses, and multicast of
    interface or link. *)
Definition internal6 (ip : IP) : Prop :=
  let x := at_byte ip 0 in let y := at_byte ip 1 in
  ip = IPv6unspecified ∨ ip = IPv6loopback ∨ (252 <= x <= 253)%Z ∨ (x = 254 ∧ 128 <= y <= 191)%Z ∨ (x = 255 ∧ (y mod 16 = 1 ∨ y mod 16 = 2))%Z.
Definition internal (ip : IP) : Prop :=
  match To4 ip with Some [a; b; c; d] => internal4 a b c d | _ => internal6 ip end.

(** Bytes under the mask of a prefix are an interval; checked on all of them. *)
Definition byte_masks : list Z := [0; 128; 192; 224; 240; 248; 252; 254; 255]%Z.
Definition all_bytes : list Z := Z.of_nat <$> seq 0 256.
Lemma in_all_bytes b : is_byte b → In b all_bytes.
Proof.
  intros Hb. unfold is_byte in Hb. apply list_elem_of_In, list_elem_of_fmap. exists (Z.to_nat b). split; [lia|]. apply elem_of_seq. lia.
Qed.
Definition within (r : Z * Z) (b : Z) : bool := (r.1 <=? b)%Z && (b <=? r.2)%Z.
Definition interval (a k : Z) : Z * Z := (Z.land a k, Z.land a k + (255 - k))%Z.
Definition mask_checked : bool :=
  forallb (λ k, forallb (λ b, (Z.land b k =? (256 - k) * (b / (256 - k)))%Z) all_bytes) byte_masks.
Lemma mask_div k b : In k byte_masks → is_byte b → Z.land b k = ((256 - k) * (b / (256 - k)))%Z.
Proof.
  intros Hk Hb%in_all_bytes. apply Z.eqb_eq. assert (E : mask_checked = true) by (vm_compute; reflexivity).
  unfold mask_checked in E. rw forallb_forall in E. specialize (E k Hk). cbv beta in E. rw forallb_forall in E. exact (E b Hb).
Qed.
Lemma mask_interval k a b : In k byte_masks → is_byte a → is_byte b → (Z.land a k =? Z.land b k)%Z = within (interval a k) b.
Proof.
  intros Hk Ha Hb. unfold within, interval. cbn [fst snd]. rw !mask_div //. clear Ha Hb.
  cbn in Hk. repeat destruct Hk as [<-|Hk]; [..|done]; Z.to_euclidean_division_equations; lia.
Qed.
(** So a network is a list of intervals, one per byte. *)
Definition intervals (n : IPNet) : list (Z * Z) := zip_with interval (net_ip n) (net_mask n).
Fixpoint in_intervals (l : list (Z * Z)) (ip : IP) : bool :=
  match l, ip with r :: l', b :: ip' => within r b && in_intervals l' ip' | _, _ => true end.
Lemma masked_intervals nn m ip : Forall is_byte nn → Forall is_byte ip → Forall (λ k, In k byte_masks) m →
  masked_equal nn m ip = in_intervals (zip_with interval nn m) ip.
Proof.
  intros Hn Hi Hm. revert nn ip Hn Hi. induction Hm as [|k m Hk Hm IH]; intros [|a nn] ip Hn Hi; try done.
  apply Forall_cons in Hn as [Ha Hn]. destruct ip as [|b ip]; [done|]. apply Forall_cons in Hi as [Hb Hi]. cbn. by rw mask_interval // IH.
Qed.
Definition net_ok (n : IPNet) : bool := forallb (λ b, (0 <=? b)%Z && (b <? 256)%Z) (net_ip n) && forallb (λ k, set_has byte_masks k) (net_mask n).
Lemma contains_intervals n ip : net_ok n = true → Forall is_byte ip → To4 ip = Some ip ∨ To4 ip = None →
  Contains n ip = (length ip =? length (net_ip n))%nat && in_intervals (intervals n) ip.
Proof.
  intros Hn Hi H4. unfold Contains, intervals. rw (_ : default ip (To4 ip) = ip); [|by destruct H4 as [-> | ->]].
  apply andb_true_iff in Hn as [Hn Hm]. f_equal. apply masked_intervals; [|done|].
  - apply Forall_forall. intros b Hb%list_elem_of_In. rw forallb_forall in Hn. specialize (Hn b Hb). unfold is_byte. lia.
  - apply Forall_forall. intros k Hk%list_elem_of_In. rw forallb_forall in Hm. specialize (Hm k Hk). apply list_elem_of_In. by apply bool_decide_eq_true in Hm.
Qed.
Definition range_table : list (nat * list (Z * Z)) := Eval vm_compute in (λ n, (length (net_ip n), intervals n)) <$> blockedRanges.
Lemma ranges_intervals ip : Forall is_byte ip → To4 ip = Some ip ∨ To4 ip = None →
  existsb (λ n, Contains n ip) blockedRanges = existsb (λ r, (length ip =? r.1)%nat && in_intervals r.2 ip) range_table.
Proof.
  intros Hi H4. rw (_ : range_table = (λ n, (length (net_ip n), intervals n)) <$> blockedRanges); [|vm_compute; reflexivity].
  assert (Hall : forallb net_ok blockedRanges = true) by (vm_compute; reflexivity). rw forallb_forall in Hall.
  induction blockedRanges as [|n l IH]; [done|]. cbn [existsb fmap list_fmap]. rw contains_intervals //; [|by apply Hall; left].
  f_equal. apply IH. intros x Hx. apply Hall. by right.
Qed.
Lemma land_low b : Z.land b 15 = (b mod 16)%Z.
Proof. exact (Z.land_ones b 4 ltac:(lia)). Qed.
(** The upper two bits, as [IsLinkLocalUnicast] looks at them. *)
Lemma land_high b : is_byte b → (Z.land b 192 =? 128)%Z = (128 <=? b)%Z && (b <=? 191)%Z.
Proof. intros Hb. rw Z.eqb_sym. exact (mask_interval 192 128 b ltac:(cbn; tauto) ltac:(unfold is_byte; lia) Hb). Qed.
Lemma within_any b : (0 <= b < 256)%Z → within (0, 255)%Z b = true.
Proof. unfold within. cbn [fst snd]. lia. Qed.
Lemma if_or (x y : bool) : (if x then true else y) = x || y.
Proof. done. Qed.
Ltac by_cases Hx := repeat match type of Hx with _ ∨ _ => destruct Hx as [Hx|Hx] end.
Ltac pick := match goal with |- _ ∨ _ => first [left; pick | right; pick] | |- _ => first [done | repeat split; lia] end.
Lemma in_exact l ip : length ip = length l → in_intervals ((λ b, (b, b)) <$> l) ip = bool_decide (ip = l).
Proof.
  revert ip. induction l as [|b l IH]; intros [|x ip] Hl; try done. cbn in Hl |- *. rw IH; [|lia]. unfold within. cbn [fst snd].
  apply eq_true_iff_eq. rw andb_true_iff !bool_decide_eq_true. split; [intros [? ->]; f_equal; lia|intros [= -> ->]; split; [lia|done]].
Qed.
Lemma in_any n ip : Forall is_byte ip → in_intervals (replicate n (0, 255)%Z) ip = true.
Proof. intros Hb. revert n. induction Hb as [|b ip Hb _ IH]; intros [|n]; try done. cbn [replicate in_intervals]. by rw within_any // IH. Qed.
Lemma unspecified6 : To4 IPv6unspecified = None.
Proof. vm_compute. reflexivity. Qed.
Lemma loopback6 : To4 IPv6loopback = None.
Proof. vm_compute. reflexivity. Qed.

Lemma blocked4 a b c d : Forall is_byte [a; b; c; d] → IsBlocked [a; b; c; d] = true ↔ internal4 a b c d.
Proof.
  intros Hb. unfold IsBlocked, IsUnspecified, IsLoopback, IsLinkLocalUnicast, IsLinkLocalMulticast, IsInterfaceLocalMulticast, Equal.
  change (To4 [a; b; c; d]) with (Some [a; b; c; d]). change (To4 IPv4zero) with (Some IPv4zero). rw unspecified6. cbn [default].
  unfold id. rw ranges_intervals //; [|by left]. apply Forall_cons in Hb as [Ha [Hb [Hc [Hd _]%Forall_cons]%Forall_cons]%Forall_cons]. unfold is_byte in *.
  assert (Hz : bool_decide ([a; b; c; d] = IPv4zero) = (a =? 0)%Z && (b =? 0)%Z && (c =? 0)%Z && (d =? 0)%Z).
  { apply eq_true_iff_eq. rw bool_decide_eq_true. unfold IPv4zero. split; [intros [= -> -> -> ->]; done|intros; repeat f_equal; lia]. }
  rw Hz. unfold internal4. cbn -[Z.leb Z.eqb Z.land]. rw !within_any // !if_or. unfold within. cbn [fst snd].
  rw !orb_false_r !andb_true_r !orb_true_iff !andb_true_iff !Z.leb_le !Z.eqb_eq. split; intros Hx; by_cases Hx; pick.
Qed.
Lemma To4_long ip : length ip = 16 → To4 ip = None ∨ ∃ v, To4 ip = Some v ∧ length v = 4 ∧ (Forall is_byte ip → Forall is_byte v).
Proof.
  intros Hl. unfold To4. rw Hl. cbn [Nat.eqb andb]. case_bool_decide; [right|by left]. exists (drop 12 ip). split_and!; [done| |by apply Forall_drop].
  rw length_drop. lia.
Qed.
Lemma blocked6 ip : Forall is_byte ip → length ip = 16 → To4 ip = None → IsBlocked ip = true ↔ internal6 ip.
Proof.
  intros Hb Hl H4. unfold IsBlocked, IsUnspecified, IsLoopback, IsLinkLocalUnicast, IsLinkLocalMulticast, IsInterfaceLocalMulticast, Equal.
  rw H4 unspecified6 loopback6 Hl. change (To4 IPv4zero) with (Some IPv4zero). cbn [default]. unfold id. rw ranges_intervals //; [|by right]. rw Hl.
  rw !land_low land_high; [|destruct ip as [|? [|]]; try done; by repeat (apply Forall_cons in Hb as [? Hb])].
  destruct ip as [|x [|y rest]]; [done..|]. apply Forall_cons in Hb as [Hx [Hy Hr]%Forall_cons].
  change (existsb _ range_table) with
    (in_intervals ((λ b, (b, b)) <$> IPv6loopback) (x :: y :: rest) ||
     (within (252, 253)%Z x && (within (0, 255)%Z y && in_intervals (replicate 14 (0, 255)%Z) rest) ||
      (within (254, 254)%Z x && (within (128, 191)%Z y && in_intervals (replicate 14 (0, 255)%Z) rest) || false))).
  rw in_exact // !in_any // !within_any //. unfold within, internal6, at_byte. cbn [fst snd nth Nat.eqb andb orb]. unfold is_byte in *.
  rw !if_or !orb_false_r !andb_true_r !orb_true_iff !andb_true_iff !bool_decide_eq_true !Z.leb_le !Z.eqb_eq.
  split; intros Hc; by_cases Hc; try (destruct Hc as [Hc0 [Hc|Hc]]); pick.
Qed.

(** An IPv4 address that is mapped into IPv6 is treated as it is. *)
Lemma blocked_mapped ip v : length ip = 16 → To4 ip = Some v → length v = 4 → IsBlocked ip = IsBlocked v.
Proof.
  intros Hl H4 Hv. assert (Hx : at_byte ip 0 = 0%Z).
  { revert H4. unfold To4. rw Hl. cbn [Nat.eqb andb]. case_bool_decide as Hp; [|done]. destruct ip as [|x ip]; [done|]. cbn in Hp. intros _. by simplify_eq. }
  assert (Hv4 : To4 v = Some v) by (unfold To4; by rw Hv).
  unfold IsBlocked, IsUnspecified, IsLoopback, IsLinkLocalUnicast, IsLinkLocalMulticast, IsInterfaceLocalMulticast, Equal.
  rw H4 Hv4 Hl Hv Hx. cbn [Nat.eqb andb default]. by rw !orb_false_r.
Qed.
Lemma blocked_internal ip : wf_ip ip → IsBlocked ip = true ↔ internal ip.
Proof.
  intros [Hb [Hl|Hl]]; unfold internal.
  - destruct ip as [|a [|b [|c [|d []]]]]; try done. by apply blocked4.
  - destruct (To4_long ip Hl) as [H4|(v & H4 & Hv & Hbv)]; [rw H4; by apply blocked6|]. rw H4 (blocked_mapped ip v) //.
    specialize (Hbv Hb). destruct v as [|a [|b [|c [|d []]]]]; try done. by apply blocked4.
Qed.

(** ** Where connections go *)

Section connections_theorem.
Context `{!GoNet}.

(** The addresses of a host at the time of a lookup. *)
Definition addresses (n : nat) (host : jstr) : option (list IP) :=
  match ParseIP host with Some literal => Some [literal] | None => LookupIPAddr n host end.
Lemma addresses_wf n host l : addresses n host = Some l → Forall wf_ip l.
Proof.
  unfold addresses. destruct (ParseIP host) eqn:E; [|apply LookupIPAddr_wf]. intros [= <-]. apply Forall_singleton. by eapply ParseIP_wf.
Qed.
Lemma all_public_spec host l : Forall wf_ip l →
  match all_public host l with inr ips => ips = l ∧ Forall (λ ip, ¬ internal ip) l | inl e => Exists internal l ∧ ∃ ip, e = ErrBlocked host ip ∧ internal ip end.
Proof.
  induction 1 as [|ip l Hip _ IH]; cbn; [by split|]. pose proof (blocked_internal ip Hip) as Hb. destruct (IsBlocked ip).
  - split; [left; by apply Hb|]. exists ip. split; [done|by apply Hb].
  - assert (Hn : ¬ internal ip) by (by rw -Hb). destruct (all_public host l); [split; [by right; apply IH|apply IH]|]. destruct IH as [-> IH]. by split; [|constructor].
Qed.
Lemma ResolveSafe_addresses n host :
  match ResolveSafe n host with
  | inr ips => addresses n host = Some ips ∧ ips ≠ [] ∧ Forall (λ ip, ¬ internal ip) ips
  | inl (ErrBlocked _ _) => ∃ ips, addresses n host = Some ips ∧ Exists internal ips
  | inl (ErrResolve _) => addresses n host = None ∨ addresses n host = Some []
  end.
Proof.
  pose proof (addresses_wf n host) as Hwf. unfold ResolveSafe. unfold addresses in *. destruct (ParseIP host) as [l|].
  - specialize (Hwf _ eq_refl). apply Forall_cons in Hwf as [Hwf _]. pose proof (blocked_internal l Hwf) as Hb. destruct (IsBlocked l).
    + exists [l]. split; [done|]. left. by apply Hb.
    + split_and!; [done|done|]. apply Forall_singleton. by rw -Hb.
  - destruct (LookupIPAddr n host) as [[|ip l]|]; [by right| |by left]. specialize (Hwf _ eq_refl).
    pose proof (all_public_spec host (ip :: l) Hwf) as Ha. destruct (all_public host (ip :: l)) as [e|ips].
    + destruct Ha as [Ha (x & -> & _)]. by exists (ip :: l).
    + by destruct Ha as [-> Ha].
Qed.

(** C37: whatever name servers answer, and however often they change their mind,
    no connection made by the guarded dialer (the deliveries of webhooks, the
    storage test of the setup wizard) goes to an internal address: not the
    first one and none after a redirection.  It makes a connection exactly if
    none of the addresses of that very lookup is internal, and to the first of
    them. *)
Theorem connections_public (n : nat) (host : jstr) (hosts : list jstr) :
  (∀ ip, DialContext n host = inr (Some ip) ↔ ∃ rest, addresses n host = Some (ip :: rest) ∧ Forall (λ x, ¬ internal x) (ip :: rest)) ∧
  Forall (λ ip, ¬ internal ip) (connections n hosts).
Proof.
  assert (Hdial : ∀ n host ip, DialContext n host = inr (Some ip) ↔
    ∃ rest, addresses n host = Some (ip :: rest) ∧ Forall (λ x, ¬ internal x) (ip :: rest)).
  { clear. intros n host ip. unfold DialContext. pose proof (ResolveSafe_addresses n host) as Hr. destruct (ResolveSafe n host) as [[h x|m]|ips].
    - destruct Hr as (ips & Ea & Hi). split; [done|]. rw Ea. intros (rest & [= ->] & Hf). by apply Forall_not_Exists in Hf.
    - split; [done|]. intros (rest & E & _). destruct Hr; congruence.
    - destruct Hr as (-> & Hne & Hf). destruct ips as [|y ips]; [done|]. cbn. split; [intros [= ->]; by exists ips|by intros (rest & [= -> ->] & _)]. }
  split; [by apply Hdial|]. revert n. induction hosts as [|h hosts IH]; intros n; cbn; [constructor|].
  destruct (DialContext n h) as [e|[ip|]] eqn:E; [constructor| |constructor]. constructor; [|apply IH].
  apply Hdial in E as (rest & _ & Hf). by apply Forall_cons in Hf as [Hf _].
Qed.
End connections_theorem.

(** ** Instances *)

(** A name that is public when it is checked and internal when it is dialled:
    the second lookup is refused. *)
#[refine] Definition RebindingNet : GoNet := {|
  ParseIP h := if h =?s "10.1.2.3" then Some (mapped_prefix ++ [10; 1; 2; 3]%Z) else None;
  LookupIPAddr n h := Some [if (n =? 0)%nat then [93; 184; 215; 14]%Z else [169; 254; 169; 254]%Z] |}.
Proof.
  - intros h ip. destruct (_ =?s _); [intros [= <-]|done]. split; [|by right]. repeat constructor; cbn; lia.
  - intros n h l [= <-]. apply Forall_singleton. destruct (n =? 0)%nat; (split; [repeat constructor; cbn; lia|by left]).
Defined.
Example rebinding_refused :
  DialContext (H := RebindingNet) 0 "rebind.example" = inr (Some [93; 184; 215; 14]%Z) ∧
  DialContext (H := RebindingNet) 1 "rebind.example" = inl (ErrBlocked "rebind.example" [169; 254; 169; 254]%Z) ∧
  IsBlocked (mapped_prefix ++ [10; 1; 2; 3]%Z) = true.
Proof. by vm_compute. Qed.
Lemma connections_public_witness : Forall (λ ip, ¬ internal ip) (connections (H := RebindingNet) 0 [js "rebind.example"; js "10.1.2.3"]) ∧
  connections (H := RebindingNet) 0 [js "rebind.example"; js "10.1.2.3"] = [[93; 184; 215; 14]%Z].
Proof.
  split; [|vm_compute; reflexivity]. exact (proj2 (connections_public (H := RebindingNet) 0 "rebind.example" [js "rebind.example"; js "10.1.2.3"])).
Defined.
