(* ===== verification/WebhookServer.v ===== *)
(** * Webhooks: the page and the server together

    The handlers of [internal/handler/webhook.go] with
    [internal/service/webhook_service.go], the delivery of events by
    [internal/webhook/dispatcher.go] with its retries and its deadline, and the
    job of [internal/worker/webhook_retry.go], composed with
    [web/src/app/webhooks/page.tsx]: what becomes of the signing secret, what
    a delivery records, and what the status on the page then says. *)

From Stdlib Require Import ZifyBool.
From S2P Require Import Prelude Browser Types ApiClient React Lib ApiKeys Webhooks AdminUpdate PlatformUpdate DomainServer RoleServer NetGuard.

(** ** The table *)

Record hook := {
  k_id : jstr; k_team : jstr; k_url : jstr; k_secret : jstr; k_events : list jstr; k_active : bool;
  k_last_status : option Z; k_last_attempt : option jstr; k_failures : Z; k_created : jstr
}.
(** What the page reads of a row; the secret is a field of its own. *)
Definition hook_info (h : hook) : Webhook := {|
  Webhook_id := k_id h; Webhook_team_id := k_team h; Webhook_url := k_url h; Webhook_events := k_events h; Webhook_active := k_active h;
  Webhook_failure_count := k_failures h; Webhook_last_status := k_last_status h; Webhook_last_attempt_at := k_last_attempt h;
  Webhook_created_at := k_created h |}.
Definition set_hook (url : jstr) (events : list jstr) (active : bool) (h : hook) : hook := {|
  k_id := k_id h; k_team := k_team h; k_url := url; k_secret := k_secret h; k_events := events; k_active := active;
  k_last_status := k_last_status h; k_last_attempt := k_last_attempt h; k_failures := k_failures h; k_created := k_created h |}.
(** [UpdateDeliveryStatus]. *)
Definition set_delivery (status failures : Z) (at_ : jstr) (h : hook) : hook := {|
  k_id := k_id h; k_team := k_team h; k_url := k_url h; k_secret := k_secret h; k_events := k_events h; k_active := k_active h;
  k_last_status := Some status; k_last_attempt := Some at_; k_failures := failures; k_created := k_created h |}.
Definition set_failures (failures : Z) (h : hook) : hook := {|
  k_id := k_id h; k_team := k_team h; k_url := k_url h; k_secret := k_secret h; k_events := k_events h; k_active := k_active h;
  k_last_status := k_last_status h; k_last_attempt := k_last_attempt h; k_failures := failures; k_created := k_created h |}.

(** ** The handlers, for a caller with the permission and identifiers that can
    be read; audit entries are left out *)

(** What the check of an address takes from Go's library: scheme and host name
    of [url.ParseRequestURI]. *)
Class GoURL := { ParseRequestURI : jstr → option (jstr * jstr) }.

Section server.
(** [lookup] is the number of the lookup that a request makes. *)
Context `{!GoStrings, !GoURL, !GoNet} (lookup : nat).

(** As in a deployment, where plain http is not allowed. *)
Definition validateWebhookURL (rawURL : jstr) : option jstr :=
  match ParseRequestURI rawURL with
  | None => Some (js "invalid URL")
  | Some (scheme, host) =>
      if negb (scheme =?s "https") && negb (scheme =?s "http") then Some (js "webhook URL must use http or https")
      else if scheme =?s "http" then Some (js "webhook URL must use https")
      else if host =?s [] then Some (js "webhook URL must have a hostname")
      else
        let lower := ToLower host in
        if (lower =?s "localhost") || (lower =?s "127.0.0.1") || (lower =?s "::1") || (lower =?s "0.0.0.0")
        then Some (js "webhook URL cannot target localhost")
        else if endsWith lower ".internal" || endsWith lower ".local" then Some (js "webhook URL cannot target internal hostnames")
        else match ResolveSafe lookup host with
             | inr _ => None
             | inl (ErrBlocked _ _) => Some (js "webhook URL resolves to a private/internal IP address")
             | inl (ErrResolve _) => Some ("cannot resolve webhook hostname: " ++ host)
             end
  end.
Definition validEvents : list jstr := js <$> ["email.received"; "inbox.created"; "inbox.expired"]%string.

(** A reply: an error, or a webhook with the secret that is written with it;
    an empty one is left out. *)
Inductive hook_reply := HookRefused (status : Z) (message : jstr) | HookReply (status : Z) (w : Webhook) (secret : jstr) | HookGone.

Fixpoint bad_event (events : list jstr) : option jstr :=
  match events with [] => None | e :: rest => if set_has validEvents e then bad_event rest else Some e end.
(** [Create]; [id], [fresh] and [now] are the new identifier, secret and time.
    The object that is returned was not read back, and its time is Go's zero
    time.  A list of events that is missing counts as an empty one. *)
Definition zero_time : jstr := "0001-01-01T00:00:00Z".
Definition create_service (team id fresh now : jstr) (url : jstr) (events : list jstr) (st : list hook) : (jstr + hook) * list hook :=
  match validateWebhookURL url with
  | Some e => (inl e, st)
  | None => match bad_event events with
            | Some e => (inl ("invalid event: " ++ e), st)
            | None =>
                let h t := {| k_id := id; k_team := team; k_url := url; k_secret := fresh; k_events := events; k_active := true;
                              k_last_status := None; k_last_attempt := None; k_failures := 0; k_created := t |} in
                (inr (h zero_time), st ++ [h now])
            end
  end.
Definition create_handler (team id fresh now : jstr) (body : list (jstr * json)) (st : list hook) : hook_reply * list hook :=
  match decode_text (map_get body "url"), decode_strings (map_get body "events") with
  | Some url, Some events =>
      match create_service team id fresh now url (default [] events) st with
      | (inl e, st') => (HookRefused (service_status e) e, st')
      | (inr h, st') => (HookReply 201%Z (hook_info h) (k_secret h), st')
      end
  | _, _ => (HookRefused 400%Z "invalid request body", st)
  end.

Definition find_hook (id : jstr) (st : list hook) : option hook := List.find (λ h, k_id h =?s id) st.
Definition on_hook (id : jstr) (f : hook → hook) (st : list hook) : list hook := (λ h, if k_id h =?s id then f h else h) <$> st.

(** [Update]: fields that are given replace the stored ones; events are not
    checked here. *)
Definition update_service (team id : jstr) (url : option jstr) (events : option (list jstr)) (active : option bool) (st : list hook)
    : (jstr + hook) * list hook :=
  match find_hook id st with
  | None => (inl (js "resource not found"), st)
  | Some h =>
      if negb (k_team h =?s team) then (inl (js "webhook not found"), st)
      else match url ≫= validateWebhookURL with
           | Some e => (inl e, st)
           | None => let h' := set_hook (default (k_url h) url) (default (k_events h) events) (default (k_active h) active) h in
                     (inr h', on_hook id (set_hook (k_url h') (k_events h') (k_active h')) st)
           end
  end.
Definition update_handler (team id : jstr) (body : list (jstr * json)) (st : list hook) : hook_reply * list hook :=
  match decode_ptr read_str (map_get body "url"), decode_strings (map_get body "events"), decode_ptr read_bool (map_get body "active") with
  | Some url, Some events, Some active =>
      match update_service team id url events active st with
      | (inl e, st') => (HookRefused (service_status e) e, st')
      | (inr h, st') => (HookReply 200%Z (hook_info h) [], st')
      end
  | _, _, _ => (HookRefused 400%Z "invalid request body", st)
  end.
Definition delete_handler (team id : jstr) (st : list hook) : hook_reply * list hook :=
  match find_hook id st with
  | Some h => if k_team h =?s team then (HookGone, List.filter (λ x, negb (k_id x =?s id)) st) else (HookRefused 500%Z "failed", st)
  | None => (HookRefused 500%Z "failed", st)
  end.
(** [List]: a page of the webhooks of a team, each with an empty secret; the
    table is in the order of creation. *)
Definition list_hooks (team : jstr) (page perPage : Z) (st : list hook) : list (Webhook * jstr) * Z :=
  let page := if (page <? 1)%Z then 1%Z else page in
  let perPage := if (perPage <? 1)%Z || (100 <? perPage)%Z then 20%Z else perPage in
  let mine := List.filter (λ h, k_team h =?s team) st in
  ((λ h, (hook_info h, [])) <$> take (Z.to_nat perPage) (drop (Z.to_nat ((page - 1) * perPage)) (rev mine)), Z.of_nat (length mine)).
(** What is written: of the fields of [domain.Webhook], those the page knows
    and the secret, which is left out when it is empty. *)
Definition encode_hook (w : Webhook) (secret : jstr) : json :=
  JObj ([(js "id", JStr (Webhook_id w)); (js "team_id", JStr (Webhook_team_id w)); (js "url", JStr (Webhook_url w))] ++
        (if secret =?s [] then [] else [(js "secret", JStr secret)]) ++
        [(js "events", jstrs (Webhook_events w)); (js "active", JBool (Webhook_active w))] ++
        (match Webhook_last_status w with Some z => [(js "last_status", JNum z)] | None => [] end) ++
        (match Webhook_last_attempt_at w with Some t => [(js "last_attempt_at", JStr t)] | None => [] end) ++
        [(js "failure_count", JNum (Webhook_failure_count w)); (js "created_at", JStr (Webhook_created_at w))]).
Definition write_hook (r : hook_reply) : http_response :=
  match r with
  | HookRefused status e => writeError status e
  | HookReply status w secret => writeJSON status (Some (encode_hook w secret))
  | HookGone => writeJSON 204 None
  end.
End server.

(** ** Deliveries *)

(** How an endpoint reacts to one attempt, in milliseconds: the status and the
    headers of its answer are there after [hd], and what is read of the body
    (all of it, or its first 1024 bytes) after [body] more; or the connection
    fails after [ms]. *)
Inductive endpoint := Answers (code hd body : Z) | Fails (ms : Z).
Record delivery := { dl_attempt : nat; dl_status : option Z; dl_ms : Z; dl_success : bool }.
(** [backoffs[idx]] of an attempt after the first, in milliseconds. *)
Definition backoffs : list Z := [0; 1000; 5000; 25000]%Z.
Definition backoff (attempt : nat) : Z :=
  nth (if (length backoffs <=? attempt)%nat then length backoffs - 1 else attempt) backoffs 0%Z.
Record dispatcher := { dp_timeout : Z; dp_maxRetries : nat }.
Definition NewDispatcher (timeout maxRetries : Z) : dispatcher := {|
  dp_timeout := if (timeout <=? 0)%Z then 10000%Z else timeout;
  dp_maxRetries := if (maxRetries <=? 0)%Z then 3 else Z.to_nat maxRetries |}.
(** The context of a delivery ends after this time. *)
Definition deadline (d : dispatcher) : Z := (dp_timeout d * (Z.of_nat (dp_maxRetries d) + 1))%Z.
(** What is left to an attempt that starts at [now]: the time-out of the client
    covers the body too, and the request carries the context. *)
Definition limit (d : dispatcher) (now : Z) : Z := Z.max 0 (Z.min (dp_timeout d) (deadline d - now)).
(** [client.Do] returns with the headers: the status, and the time it took. *)
Definition client_do (d : dispatcher) (now : Z) (e : endpoint) : option Z * Z :=
  match e with
  | Answers code hd _ => if (hd <? limit d now)%Z then (Some code, hd) else (None, limit d now)
  | Fails ms => (None, Z.min ms (limit d now))
  end.
(** [io.ReadAll] of at most 1024 bytes: when it is over.  Its error is dropped,
    so that an answer whose body is late or cut off keeps its status. *)
Definition read_body (d : dispatcher) (now : Z) (e : endpoint) : Z :=
  match e with
  | Answers _ hd body => Z.min (hd + body) (limit d now)
  | Fails ms => Z.min ms (limit d now)
  end.
Definition success (status : option Z) : bool := ok_status status.

(** The loop of [deliver], from an attempt on; [n] attempts are left.  The
    database takes nothing once the context is over.  The result is what is
    logged and what is written to the webhook: last status and failures.
    (Should a wait end with the context, it does not matter which is noticed
    first: the attempt would fail at once and could not be logged.) *)
Fixpoint deliver_from (d : dispatcher) (failures : Z) (answers : nat → endpoint) (n attempt : nat) (now : Z) : list delivery * option (Z * Z) :=
  match n with
  | O => ([], if (now <? deadline d)%Z then Some (0, failures + 1)%Z else None)
  | S n' =>
      let start := if (1 <? attempt)%nat then (now + backoff attempt)%Z else now in
      if (1 <? attempt)%nat && (deadline d <=? start)%Z then ([], None)
      else
        let '(status, ms) := client_do d start (answers attempt) in
        let now' := (start + read_body d start (answers attempt))%Z in
        let log := {| dl_attempt := attempt; dl_status := status; dl_ms := ms; dl_success := success status |} in
        let logged := if (now' <? deadline d)%Z then [log] else [] in
        if success status then (logged, if (now' <? deadline d)%Z then Some (default 0%Z status, 0%Z) else None)
        else let '(logs, update) := deliver_from d failures answers n' (S attempt) now' in (logged ++ logs, update)
  end.
(** [deliver]; [failures] is the count the webhook had when it was listed. *)
Definition deliver (d : dispatcher) (failures : Z) (answers : nat → endpoint) : list delivery * option (Z * Z) :=
  deliver_from d failures answers (dp_maxRetries d) 1 0.
Definition record_delivery (update : option (Z * Z)) (at_ : jstr) (h : hook) : hook :=
  match update with Some (status, failures) => set_delivery status failures at_ h | None => h end.

(** [Dispatch]: the webhooks of the team that are active and want the event. *)
Definition dispatched (team event : jstr) (st : list hook) : list hook :=
  List.filter (λ h, (k_team h =?s team) && k_active h && set_has (k_events h) event) st.
(** [WebhookRetryJob]. *)
Definition retryable (h : hook) : bool := k_active h && (0 <? k_failures h)%Z && (k_failures h <? 3)%Z.
Definition WebhookRetryJob (st : list hook) : list hook := (λ h, if retryable h then set_failures 0 h else h) <$> st.
(** [GetWebhookStats]: the counts. *)
Definition GetWebhookStats (logs : list delivery) : nat * nat * nat :=
  (length logs, countb dl_success logs, countb (λ l, negb (dl_success l)) logs).

(** Attempts are logged in order, from the first, and no more than allowed; only
    the last can have succeeded. *)
Record well_logged (d : dispatcher) (first : nat) (n : nat) (logs : list delivery) : Prop := {
  wl_numbers : dl_attempt <$> logs = seq first (length logs);
  wl_bound : length logs ≤ n;
  wl_last : ∀ l l', logs = l ++ l' → l' ≠ [] → Forall (λ x, dl_success x = false) l;
  wl_times : Forall (λ x, (dl_success x = true ↔ ok_status (dl_status x) = true) ∧ (dl_ms x <= dp_timeout d)%Z) logs
}.
Lemma well_logged_nil d first n : well_logged d first n [].
Proof. constructor; [done|cbn; lia| |constructor]. intros l l' E. by destruct l, l'. Qed.
Lemma well_logged_cons d first n x logs :
  dl_attempt x = first → dl_success x = false → dl_success x = ok_status (dl_status x) → (dl_ms x <= dp_timeout d)%Z →
  well_logged d (S first) n logs → well_logged d first (S n) (x :: logs).
Proof.
  intros Hx Hs Ho Hm [H1 H2 H3 H4]. constructor; cbn.
  - by rw Hx H1.
  - lia.
  - intros [|y l] l' E Hl'; [constructor|]. cbn in E. simplify_eq. constructor; [done|]. by eapply H3.
  - constructor; [by rw Ho|done].
Qed.
Lemma well_logged_one d first n x :
  dl_attempt x = first → dl_success x = ok_status (dl_status x) → (dl_ms x <= dp_timeout d)%Z → well_logged d first (S n) [x].
Proof.
  intros Hx Ho Hm. constructor; cbn; [by rw Hx|lia| |].
  - intros [|y l] l' E Hl'; [constructor|]. destruct l, l'; by simplify_eq.
  - constructor; [by rw Ho|constructor].
Qed.

Lemma backoff_pos attempt : (0 <= backoff attempt)%Z.
Proof. unfold backoff. do 4 (destruct attempt as [|attempt]; [done|]). done. Qed.
(** No time is negative. *)
Definition sane_answer (e : endpoint) : Prop :=
  match e with Answers _ hd body => (0 <= hd)%Z ∧ (0 <= body)%Z | Fails ms => (0 <= ms)%Z end.
Definition sane (answers : nat → endpoint) : Prop := ∀ i, sane_answer (answers i).
Lemma client_do_spec d now e status ms : (0 < dp_timeout d)%Z → sane_answer e →
  client_do d now e = (status, ms) →
  (0 <= ms <= dp_timeout d)%Z ∧ (ms <= read_body d now e)%Z ∧ (success status = true → ∃ c, status = Some c).
Proof.
  intros Ht Hs. unfold client_do, read_body, limit. set (l := Z.max _ _). assert (0 <= l <= dp_timeout d)%Z by lia.
  destruct e as [c hd body|t]; cbn in Hs.
  - destruct (Z.ltb_spec hd l); intros [= <- <-]; (split; [lia|]); (split; [lia|]); [by eexists|done].
  - intros [= <- <-]. split; [lia|]. by split.
Qed.
Lemma deliver_late d failures answers n attempt now : 1 < attempt → (deadline d <= now)%Z →
  deliver_from d failures answers n attempt now = ([], None).
Proof.
  intros Ha Hn. destruct n as [|n]; cbn [deliver_from]; [by rw (proj2 (Z.ltb_ge _ _) Hn)|].
  rw (proj2 (Nat.ltb_lt _ _) Ha). pose proof (backoff_pos attempt). by rw (proj2 (Z.leb_le (deadline d) (now + backoff attempt)) ltac:(lia)).
Qed.

(** What a delivery ends with. *)
Definition concluded (failures : Z) (n : nat) (logs : list delivery) (update : option (Z * Z)) : Prop :=
  match update with
  | Some (status, count) =>
      (∃ l x, logs = l ++ [x] ∧ dl_success x = true ∧ dl_status x = Some status ∧ count = 0%Z) ∨
      (length logs = n ∧ Forall (λ x, dl_success x = false) logs ∧ status = 0%Z ∧ count = (failures + 1)%Z)
  | None => Forall (λ x, dl_success x = false) logs
  end.
Lemma concluded_cons failures n x logs update :
  dl_success x = false → concluded failures n logs update → concluded failures (S n) (x :: logs) update.
Proof.
  intros Hx. unfold concluded. destruct update as [[c f]|]; [|by constructor].
  intros [(l & y & -> & ?)|(Hl & Hf & ?)]; [left; by exists (x :: l), y|right]. cbn. split_and!; [lia|by constructor|naive_solver..].
Qed.
Lemma deliver_from_spec d failures answers n attempt now : (0 < dp_timeout d)%Z → sane answers → 1 ≤ attempt →
  let '(logs, update) := deliver_from d failures answers n attempt now in well_logged d attempt n logs ∧ concluded failures n logs update.
Proof.
  intros Ht Hsane. revert attempt now. induction n as [|n IH]; intros attempt now Ha; cbn [deliver_from].
  { split; [apply well_logged_nil|]. destruct (_ <? _)%Z; [right; by split_and!|constructor]. }
  set (start := if (1 <? attempt)%nat then _ else _). destruct (_ && _); [split; [apply well_logged_nil|constructor]|].
  destruct (client_do d start (answers attempt)) as [status ms] eqn:Ec.
  destruct (client_do_spec _ _ _ _ _ Ht (Hsane attempt) Ec) as (Hms & Hread & Hok). set (over := (start + read_body _ _ _)%Z).
  destruct (success status) eqn:Es.
  - destruct (Hok eq_refl) as [c ->]. destruct (Z.ltb_spec over (deadline d)) as [Hd|Hd]; [|split; [apply well_logged_nil|constructor]].
    split; [apply well_logged_one; [done|done|cbn; lia]|].
    left. by exists [], {| dl_attempt := attempt; dl_status := Some c; dl_ms := ms; dl_success := true |}.
  - destruct (Z.ltb_spec over (deadline d)) as [Hd|Hd].
    + specialize (IH (S attempt) over ltac:(lia)). destruct (deliver_from _ _ _ _ _ _) as [logs update]. destruct IH as [H1 H2]. cbn [app].
      split; [by apply well_logged_cons; [..|cbn; lia|]|by apply concluded_cons].
    + rw deliver_late //; [|lia]. split; [apply well_logged_nil|constructor].
Qed.

(** A delivery makes at most the configured number of attempts, logs them in
    order, stops after the first that succeeds; what it then writes is the
    status of that attempt and no failures; it writes one more failure only
    after all attempts were logged as failed; otherwise it writes nothing. *)
Theorem deliver_spec (d : dispatcher) (failures : Z) (answers : nat → endpoint) :
  (0 < dp_timeout d)%Z → sane answers →
  let '(logs, update) := deliver d failures answers in
  well_logged d 1 (dp_maxRetries d) logs ∧ concluded failures (dp_maxRetries d) logs update.
Proof. intros Ht Hs. by apply deliver_from_spec. Qed.

(** A first attempt answered with a 2xx in time is a success, however late its
    body is: the error of reading it is dropped. *)
Theorem slow_body_succeeds (d : dispatcher) (failures : Z) (answers : nat → endpoint) (c hd body : Z) :
  (0 < dp_timeout d)%Z → 0 < dp_maxRetries d → answers 1 = Answers c hd body → ok_status (Some c) = true → (0 <= hd < dp_timeout d)%Z →
  deliver d failures answers = ([{| dl_attempt := 1; dl_status := Some c; dl_ms := hd; dl_success := true |}], Some (c, 0)%Z).
Proof.
  intros Ht Hr Ha Hc Hh. unfold deliver. destruct (dp_maxRetries d) as [|r] eqn:Er; [lia|].
  assert (Hd : (2 * dp_timeout d <= deadline d)%Z) by (unfold deadline; nia).
  cbn [deliver_from Nat.ltb Nat.leb andb]. rw Ha. cbn [client_do read_body].
  assert (Hl : limit d 0 = dp_timeout d) by (unfold limit; lia). rw Hl (proj2 (Z.ltb_lt hd _)); [|lia].
  change (success (Some c)) with (ok_status (Some c)). rw Hc (proj2 (Z.ltb_lt _ (deadline d))); [done|lia].
Qed.
Lemma slow_body_succeeds_witness :
  deliver (NewDispatcher 0 0) 2 (λ _, Answers 200 30 60000) = ([{| dl_attempt := 1; dl_status := Some 200; dl_ms := 30; dl_success := true |}], Some (200, 0))%Z.
Proof. apply (slow_body_succeeds (NewDispatcher 0 0) 2 _ 200 30 60000); vm_compute; (done || lia || auto). Defined.

(** ** With the configuration that is delivered *)

Definition configured : dispatcher := NewDispatcher 10000 3.
(** The time an attempt takes, with what is read of the body. *)
Definition cut (e : endpoint) : Z := Z.min 10000 (match e with Answers _ hd body => hd + body | Fails ms => ms end).
(** An attempt fails if no answer starts within ten seconds, or if its status
    is none of the 2xx; the body does not matter. *)
Definition failing (e : endpoint) : Prop := match e with Answers c hd _ => ok_status (Some c) = false ∨ (10000 <= hd)%Z | Fails _ => True end.

Lemma failing_do now e : failing e → sane_answer e → (0 <= now < 40000)%Z →
  ∃ status ms, client_do configured now e = (status, ms) ∧ read_body configured now e = Z.min (cut e) (40000 - now) ∧ success status = false.
Proof.
  intros Hf Hs Hnow. unfold client_do, read_body, cut, limit. change (deadline configured) with 40000%Z. change (dp_timeout configured) with 10000%Z.
  destruct e as [c hd body|ms]; cbn in Hf, Hs |- *.
  - destruct (Z.ltb_spec hd (Z.max 0 (Z.min 10000 (40000 - now)))) as [Hlt|Hge].
    + exists (Some c), hd. split_and!; [done|lia|]. destruct Hf as [Hf|Hf]; [done|lia].
    + eexists None, _. split_and!; [done|lia|done].
  - eexists None, _. split_and!; [done|lia|done].
Qed.

(** A failure is written only if the three attempts take less than ten seconds
    together. *)
Lemma failing_update (failures : Z) (answers : nat → endpoint) :
  sane answers → (∀ i, failing (answers i)) →
  (deliver configured failures answers).2 =
    if (cut (answers 1%nat) + cut (answers 2%nat) + cut (answers 3%nat) <? 10000)%Z then Some (0, failures + 1)%Z else None.
Proof.
  intros Hs Hf.
  assert (Hcut : ∀ i, (0 <= cut (answers i) <= 10000)%Z) by (intros i; specialize (Hs i); unfold cut; destruct (answers i); cbn in Hs; lia).
  pose proof (Hcut 1) as Hc1. pose proof (Hcut 2) as Hc2. pose proof (Hcut 3) as Hc3.
  set (c1 := cut (answers 1)) in *. set (c2 := cut (answers 2)) in *. set (c3 := cut (answers 3)) in *.
  unfold deliver. change (dp_maxRetries configured) with 3. cbn [deliver_from Nat.ltb Nat.leb andb].
  change (deadline configured) with 40000%Z. change (backoff 2) with 5000%Z. change (backoff 3) with 25000%Z.
  destruct (failing_do 0 (answers 1) (Hf 1) (Hs 1) ltac:(lia)) as (s1 & m1 & -> & -> & ->). fold c1.
  rw (_ : (0 + Z.min c1 (40000 - 0) = c1)%Z); [|lia].
  rw (proj2 (Z.leb_gt 40000 (c1 + 5000)) ltac:(lia)).
  destruct (failing_do (c1 + 5000) (answers 2) (Hf 2) (Hs 2) ltac:(lia)) as (s2 & m2 & -> & -> & ->). fold c2.
  rw (_ : (Z.min c2 (40000 - (c1 + 5000)) = c2)%Z); [|lia].
  destruct (Z.leb_spec 40000 (c1 + 5000 + c2 + 25000)) as [Hl|Hl].
  { by rw (proj2 (Z.ltb_ge (c1 + c2 + c3) 10000) ltac:(lia)). }
  destruct (failing_do (c1 + 5000 + c2 + 25000) (answers 3) (Hf 3) (Hs 3) ltac:(lia)) as (s3 & m3 & -> & -> & ->). fold c3. cbn [snd].
  match goal with |- (if (?a <? 40000)%Z then _ else _) = (if (?b <? 10000)%Z then _ else _) =>
    destruct (Z.ltb_spec a 40000), (Z.ltb_spec b 10000); try done; lia end.
Qed.

(** ** What the page says of a webhook *)

(** C40: with the configuration that is delivered (ten seconds, three attempts),
    a delivery whose attempts all fail (no answer starts within ten seconds, or
    its status is none of the 2xx) makes the page show the webhook as failing
    exactly if the three attempts, with what is read of their bodies, take less
    than ten seconds together.
    Otherwise the deadline passes before the last one is over: nothing is
    written to the webhook, and the page goes on to say what it said before. *)
Theorem failure_shown_iff (answers : nat → endpoint) (at_ : jstr) (h : hook) :
  sane answers → (∀ i, failing (answers i)) →
  let quick := (cut (answers 1%nat) + cut (answers 2%nat) + cut (answers 3%nat) <? 10000)%Z in
  let h' := record_delivery (deliver configured (k_failures h) answers).2 at_ h in
  h' = (if quick then set_delivery 0 (k_failures h + 1) at_ h else h) ∧
  (k_active h = true → (0 <= k_failures h)%Z →
   WebhookStatusBadge (hook_info h') = if quick then Failing else WebhookStatusBadge (hook_info h)).
Proof.
  intros Hs Hf quick h'. unfold h'. rw failing_update //. fold quick. destruct quick; cbn [record_delivery]; [|done].
  split; [done|]. intros Ha Hp. unfold WebhookStatusBadge. cbn. rw Ha. cbn. destruct (Z.ltb_spec 0 (k_failures h + 1)); [done|lia].
Qed.

(** After any delivery that wrote something, the page says healthy if an attempt
    succeeded and failing otherwise. *)
Theorem badge_after_delivery (d : dispatcher) (answers : nat → endpoint) (at_ : jstr) (h : hook) :
  (0 < dp_timeout d)%Z → sane answers → k_active h = true → (0 <= k_failures h)%Z →
  let '(logs, update) := deliver d (k_failures h) answers in
  WebhookStatusBadge (hook_info (record_delivery update at_ h)) =
  match update with
  | None => WebhookStatusBadge (hook_info h)
  | Some _ => if existsb dl_success logs then Healthy else Failing
  end.
Proof.
  intros Ht Hs Ha Hp. pose proof (deliver_from_spec d (k_failures h) answers (dp_maxRetries d) 1 0 Ht Hs ltac:(lia)) as Hd. unfold deliver.
  destruct (deliver_from _ _ _ _ _ _) as [logs [[c f]|]]; [|done]. destruct Hd as [Hl [(l & x & -> & Hx & Hst & ->)|(_ & Hf & -> & ->)]];
    unfold WebhookStatusBadge; cbn -[ok_status existsb]; rw Ha; cbn -[ok_status existsb].
  - rw existsb_app. cbn. rw Hx !orb_true_r. pose proof (wl_times _ _ _ _ Hl) as Hw. apply Forall_app in Hw as [_ Hw]. apply Forall_singleton in Hw as [[Hw _] _].
    specialize (Hw Hx). rw Hst in Hw. cbn in Hw. by rw Hw.
  - destruct (Z.ltb_spec 0 (k_failures h + 1)); [|lia]. rw (_ : existsb dl_success logs = false); [done|].
    apply not_true_iff_false. rw existsb_exists. intros (x & Hx & Hx'). rw Forall_forall in Hf. rw (Hf x) in Hx'; [done|by apply list_elem_of_In].
Qed.

(** ** Deliveries that overlap

    A delivery writes the count it read when it was started, increased by one.
    [streak] counts the deliveries that were written as failed since the last
    that succeeded, which is what the page calls consecutive. *)
Record hook_sys := HookSys { row : hook; flights : list Z; streak : Z }.
Inductive sys_step (job : bool) : hook_sys → hook_sys → Prop :=
| sys_dispatch h l n : k_active h = true → sys_step job (HookSys h l n) (HookSys h (l ++ [k_failures h]) n)
| sys_ok h l n i f code at_ : l !! i = Some f → ok_status (Some code) = true →
    sys_step job (HookSys h l n) (HookSys (record_delivery (Some (code, 0%Z)) at_ h) (delete i l) 0)
| sys_fail h l n i f at_ : l !! i = Some f →
    sys_step job (HookSys h l n) (HookSys (record_delivery (Some (0, f + 1)%Z) at_ h) (delete i l) (n + 1))
| sys_lost h l n i f : l !! i = Some f → sys_step job (HookSys h l n) (HookSys h (delete i l) n)
| sys_edit h l n url events active : sys_step job (HookSys h l n) (HookSys (set_hook url events active h) l n)
| sys_retry h l n : job = true → retryable h = true → sys_step job (HookSys h l n) (HookSys (set_failures 0 h) l n).
(** Steps among which no delivery overlaps another and the job does not run. *)
Definition alone (s s' : hook_sys) : Prop := sys_step false s s' ∧ length (flights s') ≤ 1.

(** As long as deliveries do not overlap and the retry job stays away, the
    count on the page is the number of consecutive failures. *)
Theorem consecutive_exact (h : hook) (s : hook_sys) :
  k_failures h = 0%Z → rtc alone (HookSys h [] 0) s → k_failures (row s) = streak s.
Proof.
  intros H0.
  set (P := λ s, k_failures (row s) = streak s ∧ Forall (λ f, f = streak s) (flights s) ∧ length (flights s) ≤ 1).
  assert (Hinv : ∀ s, rtc alone (HookSys h [] 0) s → P s); [|by intros [? _]%Hinv].
  clear s. apply (rtc_ind_r P (R := alone)); [split_and!; [done|constructor|cbn; lia]|].
  intros s s' _ (Hs & Hone) (IH1 & IH2 & IH3).
  assert (Hdel : ∀ (l : list Z) i f, length l ≤ 1 → l !! i = Some f → l = [f] ∧ delete i l = []).
  { intros [|x [|y l]] i f Hl Hi; [done| |cbn in Hl; lia]. destruct i; [|done]. cbn in Hi. by simplify_eq. }
  destruct Hs as [h0 l n Ha|h0 l n i f c at_ Hl Hc|h0 l n i f at_ Hl|h0 l n i f Hl|h0 l n u e a|h0 l n Hj Hr]; unfold P; cbn in *; [| | | |done|done].
  - split_and!; [done| |done]. apply Forall_app. split; [done|]. by apply Forall_singleton.
  - destruct (Hdel _ _ _ IH3 Hl) as [-> ->]. split_and!; [done|constructor|cbn; lia].
  - destruct (Hdel _ _ _ IH3 Hl) as [-> ->]. apply Forall_singleton in IH2 as ->. split_and!; [done|constructor|cbn; lia].
  - destruct (Hdel _ _ _ IH3 Hl) as [-> ->]. split_and!; [done|constructor|cbn; lia].
Qed.

(** Two deliveries that fail at the same time count once. *)
Definition fresh_hook : hook := {|
  k_id := "h"; k_team := "t"; k_url := "https://hooks.example.org/"; k_secret := "s"; k_events := [js "email.received"]; k_active := true;
  k_last_status := None; k_last_attempt := None; k_failures := 0; k_created := "1" |}.
Theorem overlapping_failures_undercount : ∃ s, rtc (sys_step false) (HookSys fresh_hook [] 0) s ∧ flights s = [] ∧ streak s = 2%Z ∧
  status_banner (hook_info (row s)) = js "Failing (1 consecutive)".
Proof.
  eexists. split; [|split; [|split]].
  - eapply rtc_l; [by apply sys_dispatch|]. eapply rtc_l; [by apply sys_dispatch|].
    eapply rtc_l; [apply (sys_fail _ _ _ _ 0 0 "2"); reflexivity|]. eapply rtc_l; [apply (sys_fail _ _ _ _ 0 0 "3"); reflexivity|]. apply rtc_refl.
  - reflexivity.
  - reflexivity.
  - vm_compute. reflexivity.
Qed.
(** A delivery that was started before a success and fails after it brings back
    the failures from before. *)
Theorem stale_failure_overstates : ∃ s, rtc (sys_step false) (HookSys fresh_hook [] 0) s ∧ flights s = [] ∧ streak s = 1%Z ∧
  status_banner (hook_info (row s)) = js "Failing (2 consecutive)".
Proof.
  eexists. split; [|split; [|split]].
  - eapply rtc_l; [by apply sys_dispatch|]. eapply rtc_l; [apply (sys_fail _ _ _ _ 0 0 "2"); reflexivity|].
    eapply rtc_l; [by apply sys_dispatch|]. eapply rtc_l; [by apply sys_dispatch|].
    eapply rtc_l; [apply (sys_ok _ _ _ _ 0 1 200 "3"); reflexivity|]. eapply rtc_l; [apply (sys_fail _ _ _ _ 0 1 "4"); reflexivity|]. apply rtc_refl.
  - reflexivity.
  - reflexivity.
  - vm_compute. reflexivity.
Qed.
(** After the retry job a webhook that has only failed is shown as one without
    deliveries. *)
Theorem retry_job_hides_failure : ∃ s, rtc (sys_step true) (HookSys fresh_hook [] 0) s ∧ streak s = 1%Z ∧
  status_banner (hook_info (row s)) = js "No deliveries yet".
Proof.
  eexists. split; [|split].
  - eapply rtc_l; [by apply sys_dispatch|]. eapply rtc_l; [apply (sys_fail _ _ _ _ 0 0 "2"); reflexivity|].
    eapply rtc_l; [by apply sys_retry|]. apply rtc_refl.
  - reflexivity.
  - vm_compute. reflexivity.
Qed.

(** ** The signing secret *)

Section secrets.
Context `{!GoStrings, !GoURL, !GoNet}.

(** The secret a reply carries, with the webhook it belongs to. *)
Definition carries (w : Webhook) (secret : jstr) : list (jstr * jstr) := if secret =?s [] then [] else [(Webhook_id w, secret)].
Definition reply_secrets (r : hook_reply) : list (jstr * jstr) := match r with HookReply _ w s => carries w s | _ => [] end.
(** The table and the secrets written in any reply so far. *)
Record secret_sys := SecretSys { table : list hook; written : list (jstr * jstr) }.
Definition answered (s : secret_sys) (r : hook_reply * list hook) : secret_sys := SecretSys r.2 (written s ++ reply_secrets r.1).
(** Requests, deliveries and the job.  A new identifier is one that was not
    given before, and a secret of 32 random bytes is not empty. *)
Inductive secret_step : secret_sys → secret_sys → Prop :=
| sec_create lookup team id fresh now body s : id ∉ (written s).*1 → fresh ≠ [] →
    secret_step s (answered s (create_handler lookup team id fresh now body (table s)))
| sec_update lookup team id body s : secret_step s (answered s (update_handler lookup team id body (table s)))
| sec_delete team id s : secret_step s (answered s (delete_handler team id (table s)))
| sec_list team page perPage s :
    secret_step s (SecretSys (table s) (written s ++ concat ((λ x, carries x.1 x.2) <$> (list_hooks team page perPage (table s)).1)))
| sec_deliver id update at_ s : secret_step s (SecretSys (on_hook id (record_delivery update at_) (table s)) (written s))
| sec_job s : secret_step s (SecretSys (WebhookRetryJob (table s)) (written s)).

Record secrets_ok (s : secret_sys) : Prop := {
  so_once : NoDup (written s).*1;
  so_stored : Forall (λ h, (k_id h, k_secret h) ∈ written s) (table s)
}.
(** Steps that write nothing and keep identifier and secret of every row. *)
Lemma secrets_ok_rows (rows rows' : list hook) (l : list (jstr * jstr)) :
  (∀ h, h ∈ rows' → ∃ h0, h0 ∈ rows ∧ k_id h = k_id h0 ∧ k_secret h = k_secret h0) →
  secrets_ok (SecretSys rows l) → secrets_ok (SecretSys rows' l).
Proof.
  intros Hr [Honce Hrows]. constructor; [done|]. cbn in *. apply Forall_forall. intros h (h0 & Hin & -> & ->)%Hr. by apply (proj1 (Forall_forall _ _) Hrows).
Qed.
Lemma on_hook_rows (id : jstr) (f : hook → hook) (rows : list hook) :
  (∀ h, k_id (f h) = k_id h ∧ k_secret (f h) = k_secret h) →
  ∀ h, h ∈ on_hook id f rows → ∃ h0, h0 ∈ rows ∧ k_id h = k_id h0 ∧ k_secret h = k_secret h0.
Proof. intros Hf h (h0 & -> & Hin)%list_elem_of_fmap. exists h0. split; [done|]. destruct (_ =?s _); [apply Hf|done]. Qed.
Lemma listed_carries_nothing team page perPage rows :
  concat ((λ x : Webhook * jstr, carries x.1 x.2) <$> (list_hooks team page perPage rows).1) = [].
Proof. unfold list_hooks. cbn [fst]. rw -list_fmap_compose. by induction (take _ _) as [|h l IH]. Qed.

Lemma secrets_ok_create lookup team id fresh now body s : id ∉ (written s).*1 → fresh ≠ [] → secrets_ok s →
  secrets_ok (answered s (create_handler lookup team id fresh now body (table s))).
Proof.
  intros Hid Hf Hs. assert (Hsame : ∀ st e, secrets_ok (answered s (HookRefused st e, table s))).
  { intros st e. unfold answered. cbn. rw app_nil_r. by destruct s. }
  unfold create_handler. destruct (decode_text _) as [u|]; [|done]. destruct (decode_strings _) as [ev|]; [|done].
  unfold create_service. destruct (validateWebhookURL lookup u); [done|]. destruct (bad_event _); [done|].
  unfold answered. cbn. unfold carries. cbn. rw (proj2 (jeqb_neq _ _) Hf). destruct Hs as [Honce Hrows].
  constructor; cbn.
  - rw fmap_app. apply NoDup_app. split_and!; [done| |apply NoDup_singleton]. intros x Hx ->%list_elem_of_singleton. done.
  - apply Forall_app. split; [|apply Forall_singleton; cbn; set_solver]. eapply Forall_impl; [exact Hrows|]. cbn. set_solver.
Qed.
Lemma secrets_ok_update lookup team id body s : secrets_ok s → secrets_ok (answered s (update_handler lookup team id body (table s))).
Proof.
  intros Hs. assert (Hsame : ∀ st e, secrets_ok (answered s (HookRefused st e, table s))).
  { intros st e. unfold answered. cbn. rw app_nil_r. by destruct s. }
  unfold update_handler. destruct (decode_ptr read_str _) as [u|]; [|done]. destruct (decode_strings _) as [ev|]; [|done]. destruct (decode_ptr read_bool _) as [a|]; [|done].
  unfold update_service. destruct (find_hook _ _) as [h|]; [|done]. destruct (negb _); [done|]. destruct (_ ≫= _); [done|].
  unfold answered. cbn. rw app_nil_r. eapply secrets_ok_rows; [by apply on_hook_rows|]. by destruct s.
Qed.
Lemma secrets_ok_delete team id s : secrets_ok s → secrets_ok (answered s (delete_handler team id (table s))).
Proof.
  intros Hs. unfold delete_handler, answered. destruct (find_hook _ _) as [h|]; [destruct (_ =?s _)|]; cbn; rw app_nil_r; [|by destruct s..].
  eapply (secrets_ok_rows (table s)); [|by destruct s]. intros h0 (Hin & _)%list_elem_of_In%filter_In. exists h0. by rw list_elem_of_In.
Qed.

(** C38: the secret of a webhook is written in one reply in all, and it is the
    one deliveries are signed with as long as the webhook exists: no list, no
    update, no delivery and no job ever shows or changes it. *)
Theorem secret_written_once (s : secret_sys) : rtc secret_step (SecretSys [] []) s →
  NoDup (written s).*1 ∧ ∀ h, h ∈ table s → ∀ secret, (k_id h, secret) ∈ written s ↔ secret = k_secret h.
Proof.
  intros Hr. assert (Hok : secrets_ok s).
  { revert s Hr. apply (rtc_ind_r secrets_ok (R := secret_step)); [constructor; constructor|].
    intros s s' _ Hs IH. destruct Hs as [lookup team id fresh now body s Hi Hf|lookup team id body s|team id s|team page perPage s|id update at_ s|s].
    - by apply secrets_ok_create.
    - by apply secrets_ok_update.
    - by apply secrets_ok_delete.
    - rw listed_carries_nothing app_nil_r. by destruct s.
    - eapply (secrets_ok_rows (table s)); [|by destruct s]. apply on_hook_rows. intros h. by destruct update as [[??]|].
    - eapply (secrets_ok_rows (table s)); [|by destruct s]. intros h (h0 & -> & Hin)%list_elem_of_fmap. exists h0. by destruct (retryable h0). }
  destruct Hok as [Honce Hrows]. split; [done|]. intros h Hh secret. pose proof (proj1 (Forall_forall _ _) Hrows h Hh) as Hin. cbn in Hin.
  split; [|by intros ->]. intros Hin'. apply list_elem_of_lookup in Hin as [i Hi], Hin' as [j Hj].
  assert (i = j); [|by simplify_eq]. eapply (NoDup_lookup _ _ _ (k_id h) Honce); rw list_lookup_fmap; [by rw Hi|by rw Hj].
Qed.
End secrets.

(** ** The dialog and the server *)

Section dialog.
Context `{!AppEnv, !JSRuntime, !GoStrings, !GoURL, !GoNet} (orgId teamId : jstr) (lookup : nat).

Definition create_fields (s : HookForm) : list (jstr * json) := [(js "url", JStr (url s)); (js "events", jstrs (events s))].
Definition hook_request (s : HookForm) (token : option jstr) : http_request :=
  build_request (hooks_path orgId teamId) {| o_method := "POST"; o_headers := []; o_body := Some (hook_body s); o_params := None |} token.

Lemma known_accepted (l : list jstr) : known_events l → bad_event l = None.
Proof.
  intros [_ Hs]. induction l as [|e l IH]; [done|]. cbn. rw (_ : set_has validEvents e = true).
  - apply IH. set_solver.
  - apply bool_decide_eq_true. apply (Hs e). by left.
Qed.
Lemma encode_secret (w : Webhook) (secret : jstr) : secret ≠ [] → jfield (encode_hook w secret) "secret" = Some (JStr secret).
Proof. intros Hs. unfold encode_hook. by rw (proj2 (jeqb_neq _ _) Hs). Qed.
Lemma service_status_range (e : jstr) : (400 <= service_status e <= 409)%Z ∧ service_status e ≠ 401%Z.
Proof. unfold service_status. repeat case_match; done. Qed.
Lemma url_error_nonempty (u e : jstr) : validateWebhookURL lookup u = Some e → e ≠ [].
Proof. unfold validateWebhookURL. repeat case_match; by intros [= <-]. Qed.
Lemma create_handler_form (s : HookForm) (id fresh now : jstr) (rows : list hook) : known_events (events s) →
  create_handler lookup teamId id fresh now (create_fields s) rows =
  match validateWebhookURL lookup (url s) with
  | Some e => (HookRefused (service_status e) e, rows)
  | None =>
      let h t := {| k_id := id; k_team := teamId; k_url := url s; k_secret := fresh; k_events := events s; k_active := true;
                    k_last_status := None; k_last_attempt := None; k_failures := 0; k_created := t |} in
      (HookReply 201 (hook_info (h zero_time)) fresh, rows ++ [h now])
  end.
Proof.
  intros Hk. unfold create_handler. change (map_get (create_fields s) "url") with (Some (JStr (url s))).
  change (map_get (create_fields s) "events") with (Some (jstrs (events s))). rw decode_jstrs. cbn [decode_text default].
  unfold create_service. rw (known_accepted _ Hk). by destruct (validateWebhookURL lookup (url s)).
Qed.

(** C39: dialog, API client and server together.  What the dialog sends is
    refused only for its address: then nothing is stored, the reason is shown
    and the dialog keeps what was entered.  Otherwise the webhook is stored
    with this address and these events, switched on, and the secret that the
    dialog then shows, and that its button copies, is the one it is signed
    with. *)
Theorem create_dialog_server (s : HookForm) (id fresh now : jstr) (rows : list hook) (w : world HookForm) :
  let rq := hook_request s (accessToken (brw w)) in
  let r := create_handler lookup teamId id fresh now (create_fields s) rows in
  rtc form_step form_init s → canSubmit s = true → fresh ≠ [] →
  net (brw w) (sent (brw w)) rq = Responded (write_hook r.1) →
  ∃ w', create_hook orgId teamId s w = (inr tt, w') ∧ busy (st w') = false ∧
    match validateWebhookURL lookup (url s) with
    | Some e => r.2 = rows ∧ trace (brw w') = trace (brw w) ++ [EFetch rq; EToastError e] ∧ st w' = with_busy false (st w)
    | None => ∃ h, r.2 = rows ++ [h] ∧ k_id h = id ∧ k_url h = url s ∧ k_events h = events s ∧ k_active h = true ∧
        trace (brw w') = trace (brw w) ++ [EFetch rq; EInvalidate "webhooks"] ∧
        CreateWebhookDialog (st w') = CreatedSecret (k_secret h) ∧
        trace (brw (copySecret (st w') w').2) = trace (brw w') ++ [EClipboard (k_secret h); EToastSuccess "Secret copied"]
    end.
Proof.
  intros rq r Hs%form_known Hv Hf Hnet. subst r. rw create_handler_form // in Hnet |- *.
  unfold create_hook. rw Hv. cbn [negb]. set (w1 := World (brw w) (with_busy true (st w))).
  assert (Hpost : ∀ res, net (brw w) (sent (brw w)) rq = Responded res → rs_status res ≠ 401%Z →
    api_post (hooks_path orgId teamId) (Some (hook_body s)) w1 = finish res (after_fetch rq w1)).
  { intros res Hres Hst. unfold api_post, api_send. by rw (request_answered _ _ res w1). }
  destruct (validateWebhookURL lookup (url s)) as [e|] eqn:Ee; cbn [fst snd write_hook] in Hnet |- *.
  - destruct (service_status_range e) as [Hr Hn].
    destruct (finish_refused (λ _, None) (service_status e) e (after_fetch rq w1)) as [d Hd]; [lia|by eapply url_error_nonempty|].
    rw -(Hpost _ Hnet) // in Hd. unfold try_finally, try_catch, mbind, M_bind, modify, emit. fold w1. rw Hd.
    eexists. split; [reflexivity|]. cbn. by rw -app_assoc.
  - unfold try_finally, try_catch, mbind, M_bind, modify, emit. fold w1. rw (Hpost _ Hnet) //.
    eexists. split; [reflexivity|]. split; [done|]. eexists. do 5 (split; [reflexivity|]). rw encode_secret //.
    cbn. rw -!app_assoc. destruct fresh as [|c f]; [done|]. split_and!; [done..|].
    cbn. unfold mbind, M_bind, emit. cbn. by rw -!app_assoc.
Qed.
End dialog.

(** ** Instances *)

Lemma deliver_spec_witness :
  let '(logs, update) := deliver configured 0 (λ i, if (i =? 3)%nat then Answers 204 150 20 else Answers 500 100 0) in
  length logs = 3 ∧ update = Some (204, 0)%Z ∧ well_logged configured 1 3 logs.
Proof.
  pose proof (deliver_spec configured 0 (λ i, if (i =? 3)%nat then Answers 204 150 20 else Answers 500 100 0)%Z) as Hd.
  assert (Hs : sane (λ i, if (i =? 3)%nat then Answers 204 150 20 else Answers 500 100 0)%Z).
  { intros i. by destruct (i =? 3)%nat. }
  specialize (Hd eq_refl Hs). vm_compute (deliver _ _ _) in Hd |- *. split_and!; [reflexivity|reflexivity|exact (proj1 Hd)].
Defined.

(** An endpoint that refuses connections is shown as failing; one that never
    answers stays without deliveries. *)
Lemma failure_shown_iff_witness :
  WebhookStatusBadge (hook_info (record_delivery (deliver configured 0 (λ _, Fails 5)).2 "2" fresh_hook)) = Failing ∧
  WebhookStatusBadge (hook_info (record_delivery (deliver configured 0 (λ _, Fails 60000)).2 "2" fresh_hook)) = NoDeliveries.
Proof.
  assert (Hs : ∀ ms, (0 <= ms)%Z → sane (λ _, Fails ms)) by (intros ms Hms i; exact Hms).
  split.
  - destruct (failure_shown_iff (λ _, Fails 5) "2" fresh_hook (Hs 5%Z ltac:(lia)) (λ _, I)) as [_ E]. by apply E.
  - destruct (failure_shown_iff (λ _, Fails 60000) "2" fresh_hook (Hs 60000%Z ltac:(lia)) (λ _, I)) as [_ E]. by apply E.
Defined.

(** A network in which every name resolves to a public address. *)
#[refine] Definition OpenNet : GoNet := {| ParseIP _ := None; LookupIPAddr _ _ := Some [[93; 184; 215; 14]%Z] |}.
Proof.
  - done.
  - intros n h l [= <-]. apply Forall_singleton. split; [repeat constructor; cbn; lia|by left].
Defined.
Definition HttpsURL : GoURL := {| ParseRequestURI u := Some (js "https", drop 8 u) |}.
Definition asked : list (jstr * json) := [(js "url", JStr "https://hooks.example.org"); (js "events", jstrs [js "email.received"])].
Definition listed_sys : secret_sys :=
  SecretSys (create_handler (H := AsciiStrings) (H0 := HttpsURL) (H1 := OpenNet) 0 "t" "h1" "5ec2e7" "1" asked []).2 [(js "h1", js "5ec2e7")].
Lemma secret_written_once_witness : NoDup (written listed_sys).*1 ∧ length (table listed_sys) = 1.
Proof.
  split; [|vm_compute; reflexivity].
  refine (proj1 (secret_written_once (H := AsciiStrings) (H0 := HttpsURL) (H1 := OpenNet) listed_sys _)).
  eapply rtc_l; [apply (sec_create 0 "t" "h1" "5ec2e7" "1" asked (SecretSys [] [])); [by apply not_elem_of_nil|done]|].
  eapply rtc_l; [apply (sec_list "t" 1 20)|]. vm_compute. apply rtc_refl.
Defined.

Definition filled : HookForm := with_url "https://hooks.example.org" form_init.
Definition hook_world : world HookForm :=
  World (Browser true None ∅ "/webhooks" (λ _ _, Responded (write_hook
    (create_handler (H := AsciiStrings) (H0 := HttpsURL) (H1 := OpenNet) 0 "t" "h1" "5ec2e7" "1" (create_fields filled) []).1)) 0 []) filled.
Lemma create_dialog_server_witness :
  ∃ w', create_hook (H := default_env) (H0 := AsciiRuntime) "o" "t" filled hook_world = (inr tt, w') ∧
    CreateWebhookDialog (H0 := AsciiRuntime) (st w') = CreatedSecret "5ec2e7".
Proof.
  destruct (create_dialog_server (H := default_env) (H0 := AsciiRuntime) (H1 := AsciiStrings) (H2 := HttpsURL) (H3 := OpenNet) "o" "t" 0 filled "h1" "5ec2e7" "1" [] hook_world)
    as (w' & E & _ & Hm).
  - apply rtc_once, step_url.
  - vm_compute. reflexivity.
  - done.
  - reflexivity.
  - exists w'. split; [exact E|]. change (validateWebhookURL _ _) with (@None jstr) in Hm.
    destruct Hm as (h & Hh & _ & _ & _ & _ & _ & Hd & _). rw Hd. f_equal. vm_compute in Hh. by simplify_eq.
Defined.

(** An event that a new webhook may not have can be given to a stored one. *)
Example update_takes_any_event :
  (create_handler (H := AsciiStrings) (H0 := HttpsURL) (H1 := OpenNet) 0 "t" "h1" "5ec2e7" "1" [(js "url", JStr "https://hooks.example.org"); (js "events", jstrs [js "email.sent"])] []).1 =
    HookRefused 400 "invalid event: email.sent" ∧
  k_events <$> (update_handler (H := AsciiStrings) (H0 := HttpsURL) (H1 := OpenNet) 0 "t" "h" [(js "events", jstrs [js "email.sent"])] [fresh_hook]).2 = [[js "email.sent"]].
Proof. by vm_compute. Qed.
