(* ===== verification/ProfileServer.v ===== *)
(** * The profile page: what it shows, and its cards with the server

    The markup of [web/src/app/profile/page.tsx] as views, and the two cards
    that change the own account composed with [UpdateProfile] and
    [GetDateTimeSettings] of [internal/handler/auth.go] and
    [internal/service/auth_service.go]: what is stored after a save, what is
    loaded then, and what becomes of two saves that overlap. *)

From S2P Require Import Prelude Browser Types ApiClient React Lib Hooks PasswordPolicy ApiKeys AuthStore SignIn Profile UsersTab AdminUpdate PlatformUpdate DomainServer.
Import Hooks.DateFormat.

(** ** What is shown *)

Section profile_views.
Context `{!AppEnv, !JSRuntime}.
(** [toLocaleDateString] with year and short month belongs to the engine. *)
Context (month_of : jstr → jstr).

Record name_view := { nv_email : jstr; nv_name : jstr; nv_save : option (jstr * bool) }.
Definition ProfileForm_view (u : User) (s : ProfileForm) : name_view := {|
  nv_email := User_email u; nv_name := pf_displayName s;
  nv_save := if profile_dirty u s then Some (if pf_saving s then "Saving" ++ ellipsis else js "Save", pf_saving s) else None |}.
Record password_view := { pv_error : option jstr; pv_meter : option (Z * jstr); pv_mismatch : option jstr; pv_button : jstr; pv_disabled : bool }.
Definition PasswordCard_view (s : PasswordCard) : password_view := {|
  pv_error := if pw_too_short s then Some (js "Min 8 characters") else None; pv_meter := pw_meter s;
  pv_mismatch := if pw_mismatch s then Some (js "Does not match") else None;
  pv_button := if changing s then "Changing" ++ ellipsis else "Update Password"; pv_disabled := changing s || negb (pw_valid s) |}.
(** A choice: the value and the options, each with its text. *)
Definition date_options : list jstr := js <$> ["YYYY-MM-DD"; "DD/MM/YYYY"; "MM/DD/YYYY"]%string.
Definition time_options : list (jstr * jstr) := [(js "24h", js "24-hour"); (js "12h", js "12-hour")].
Record datetime_view := {
  dv_zone : jstr * list (jstr * jstr); dv_date : jstr * list (jstr * jstr); dv_time : jstr * list (jstr * jstr); dv_save : option (jstr * bool)
}.
Definition DateTimeCard_view (settings : option DateTimeSettings) (s : DateTimeCard) : datetime_view := {|
  dv_zone := (timezone (dt_fields s), (λ t, (t, timezone_label t)) <$> TIMEZONES);
  dv_date := (date_format (dt_fields s), (λ t, (t, t)) <$> date_options);
  dv_time := (time_format (dt_fields s), time_options);
  dv_save := if datetime_dirty settings s then Some (if dt_saving s then "Saving" ++ ellipsis else js "Save", dt_saving s) else None |}.
(** The page: nothing but placeholders without a user; otherwise the row of the
    identity, the card of the password or the note in its place, and the links
    below. *)
Record profile_view := {
  pg_initials : jstr; pg_title : jstr; pg_badges : list jstr; pg_email : jstr; pg_joined : jstr; pg_via : option jstr;
  pg_password_note : option jstr; pg_links : list (jstr * jstr)
}.
Definition ProfilePage (sso : option SSOStatus) (user : option User) : option profile_view :=
  (λ u, {| pg_initials := initials u; pg_title := profile_title u; pg_badges := profile_badges u; pg_email := User_email u;
           pg_joined := "Joined " ++ month_of (User_created_at u);
           pg_via := if isSSO u then (λ p, "via " ++ p) <$> User_sso_provider u else None;
           pg_password_note := if hidePassword sso u then Some (password_note sso u) else None;
           pg_links := [(js "Manage Sessions", js "/profile/sessions"); (js "Delete Account", js "/profile/delete")] |}) <$> user.

(** The button of the password card can be used exactly if no call is running,
    the current password is given, the strength of the new one is shown and the
    confirmation is there without a complaint: the card never shows an error
    next to a button that can be used, nor hides why it cannot. *)
Theorem password_card_explains (s : PasswordCard) :
  pv_disabled (PasswordCard_view s) = false ↔
  changing s = false ∧ currentPassword s ≠ [] ∧ pv_meter (PasswordCard_view s) ≠ None ∧ pw_confirm s ≠ [] ∧ pv_mismatch (PasswordCard_view s) = None.
Proof.
  unfold PasswordCard_view, pw_valid, pw_mismatch, pw_meter. cbn [pv_disabled pv_meter pv_mismatch].
  rw orb_false_iff negb_false_iff !andb_true_iff Nat.ltb_lt Nat.leb_le jeqb_eq.
  destruct (Nat.leb_spec 8 (length (newPassword s))) as [Hl|Hl]; cbn [negb]; [|split; [lia|by intros (_ & _ & ? & _)]].
  assert (Hc : 0 < length (currentPassword s) ↔ currentPassword s ≠ []) by (destruct (currentPassword s); cbn; split; try done; lia).
  rw Hc. destruct (Nat.ltb_spec 0 (length (pw_confirm s))) as [Hp|Hp]; cbn [andb].
  - destruct (newPassword s =?s pw_confirm s) eqn:E; cbn [negb].
    + apply jeqb_eq in E. split; [|tauto]. intros (H1 & (H2 & _) & _). split_and!; try done. by destruct (pw_confirm s); [cbn in Hp; lia|].
    + apply jeqb_neq in E. split; [by intros (_ & _ & ?)|by intros (_ & _ & _ & _ & ?)].
  - destruct (pw_confirm s) eqn:Ec; [|cbn in Hp; lia]. split; [|by intros (_ & _ & _ & ? & _)]. intros (_ & _ & E). rw E in Hl. cbn in Hl. lia.
Qed.
End profile_views.

(** ** The server *)

Record profile_input := { pi_name : option jstr; pi_timezone : option jstr; pi_date_format : option jstr; pi_time_format : option jstr }.
Definition decode_profile (body : list (jstr * json)) : option profile_input :=
  match decode_ptr read_str (map_get body "display_name"), decode_ptr read_str (map_get body "timezone"),
        decode_ptr read_str (map_get body "date_format"), decode_ptr read_str (map_get body "time_format") with
  | Some n, Some z, Some d, Some t => Some {| pi_name := n; pi_timezone := z; pi_date_format := d; pi_time_format := t |}
  | _, _, _, _ => None
  end.
Definition or_else {A} (x y : option A) : option A := match x with Some _ => x | None => y end.
(** The object that is written, whole, for the one that was read. *)
Definition apply_profile (i : profile_input) (u : User) : User := {|
  User_id := User_id u; User_email := User_email u; User_display_name := default (User_display_name u) (pi_name i);
  User_sso_provider := User_sso_provider u; User_is_system_admin := User_is_system_admin u; User_email_verified := User_email_verified u;
  User_timezone := or_else (pi_timezone i) (User_timezone u); User_date_format := or_else (pi_date_format i) (User_date_format u);
  User_time_format := or_else (pi_time_format i) (User_time_format u); User_auth_method_lock := User_auth_method_lock u;
  User_max_sessions := User_max_sessions u; User_last_login_at := User_last_login_at u; User_created_at := User_created_at u;
  User_updated_at := User_updated_at u |}.
Definition UpdateProfile (i : profile_input) (u : User) : jstr + User :=
  match pi_name i ≫= ValidateDisplayName with Some e => inl e | None => inr (apply_profile i u) end.
Definition profile_handler (body : list (jstr * json)) (u : User) : (Z * jstr + User) * User :=
  match decode_profile body with
  | None => (inl (400%Z, js "invalid request body"), u)
  | Some i => match UpdateProfile i u with
              | inl e => (inl (service_status e, e), u)
              | inr u' => (inr u', u')
              end
  end.
(** [GetDateTimeSettings]: the own choice, else that of the platform, else the
    built-in one. *)
Definition chosen (own : option jstr) (platform builtin : jstr) : jstr :=
  match own with Some ((_ :: _) as x) => x | _ => jor platform builtin end.
Definition GetDateTimeSettings (c : config) (u : User) : DateTimeSettings := {|
  timezone := chosen (User_timezone u) (cfg_timezone c) "UTC"; date_format := chosen (User_date_format u) (cfg_date_format c) "YYYY-MM-DD";
  time_format := chosen (User_time_format u) (cfg_time_format c) "24h" |}.

Definition write_profile (encode : User → json) (r : Z * jstr + User) : http_response :=
  match r with inl (status, e) => writeError status e | inr u => writeJSON 200 (Some (encode u)) end.

(** ** The cards and the server *)

Section cards.
Context `{!AppEnv, !JSRuntime} (encode : User → json).

(** The card once settings were loaded: it follows what the server sends, under
    any configuration and account, and takes the choices it offers. *)
Inductive datetime_step : DateTimeCard → DateTimeCard → Prop :=
| ds_sync c u s : datetime_step s (datetime_sync (Some (GetDateTimeSettings c u)) s)
| ds_zone t s : t ∈ TIMEZONES → datetime_step s {| dt_fields := {| timezone := t; date_format := date_format (dt_fields s);
    time_format := time_format (dt_fields s) |}; dt_saving := dt_saving s |}
| ds_date t s : t ∈ date_options → datetime_step s {| dt_fields := {| timezone := timezone (dt_fields s); date_format := t;
    time_format := time_format (dt_fields s) |}; dt_saving := dt_saving s |}
| ds_time t s : t ∈ time_options.*1 → datetime_step s {| dt_fields := {| timezone := timezone (dt_fields s);
    date_format := date_format (dt_fields s); time_format := t |}; dt_saving := dt_saving s |}
| ds_saving b s : datetime_step s (dt_set_saving b s).
Definition complete (x : DateTimeSettings) : Prop := timezone x ≠ [] ∧ date_format x ≠ [] ∧ time_format x ≠ [].
Lemma chosen_nonempty own platform builtin : builtin ≠ [] → chosen own platform builtin ≠ [].
Proof. intros Hb. by destruct own as [[]|], platform. Qed.
Lemma settings_complete c u : complete (GetDateTimeSettings c u).
Proof. by split_and!; apply chosen_nonempty. Qed.
Lemma options_nonempty : Forall (λ t, t ≠ []) (TIMEZONES ++ date_options ++ time_options.*1).
Proof. repeat constructor; done. Qed.
Lemma loaded_complete c u s : rtc datetime_step (datetime_sync (Some (GetDateTimeSettings c u)) datetime_init) s → complete (dt_fields s).
Proof.
  revert s. apply (rtc_ind_r (λ s, complete (dt_fields s))); [exact (settings_complete c u)|].
  pose proof options_nonempty as [Hz [Hd Ht]%Forall_app]%Forall_app. rw !Forall_forall in Hz Hd Ht.
  intros y z _ Hs (Hc1 & Hc2 & Hc3). destruct Hs as [c' u' s'|t s' Hin|t s' Hin|t s' Hin|b s']; [apply settings_complete|..|done]; split_and!; try done; cbn; auto.
Qed.

Definition datetime_fields (x : DateTimeSettings) : list (jstr * json) :=
  [(js "timezone", JStr (timezone x)); (js "date_format", JStr (date_format x)); (js "time_format", JStr (time_format x))].
Definition me_request (body : list (jstr * json)) (token : option jstr) : http_request :=
  build_request "/auth/me" {| o_method := "PATCH"; o_headers := []; o_body := Some (JObj body); o_params := None |} token.
Lemma chosen_own x platform builtin : x ≠ [] → chosen (Some x) platform builtin = x.
Proof. by destruct x. Qed.
Lemma clean_after x s : dt_fields s = x → datetime_dirty (Some x) s = false.
Proof. intros <-. cbn. by rw !jeqb_refl. Qed.

(** Whatever was chosen on the card, a save is taken as it is: from then on the
    settings that are loaded are the chosen ones, whatever the platform says, the
    card has nothing left to save, and nothing else of the account changes. *)
Theorem datetime_save_server (c : config) (u0 u : User) (s : DateTimeCard) (w : world DateTimeCard) :
  let body := datetime_fields (dt_fields s) in
  let r := profile_handler body u in
  let rq := me_request body (accessToken (brw w)) in
  rtc datetime_step (datetime_sync (Some (GetDateTimeSettings c u0)) datetime_init) s →
  net (brw w) (sent (brw w)) rq = Responded (write_profile encode r.1) →
  ∃ w', datetime_save s w = (inr tt, w') ∧ dt_saving (st w') = false ∧
    trace (brw w') = trace (brw w) ++ [EFetch rq; EInvalidate "datetime-settings"; EToastSuccess "Preferences saved"] ∧
    (∀ c', GetDateTimeSettings c' r.2 = dt_fields s ∧ datetime_dirty (Some (GetDateTimeSettings c' r.2)) s = false) ∧
    User_display_name r.2 = User_display_name u ∧ User_email r.2 = User_email u ∧ User_is_system_admin r.2 = User_is_system_admin u.
Proof.
  intros body r rq Hr Hnet. destruct (loaded_complete c u0 s Hr) as (H1' & H2' & H3').
  assert (Er : r = (inr (apply_profile {| pi_name := None; pi_timezone := Some (timezone (dt_fields s)); pi_date_format := Some (date_format (dt_fields s));
    pi_time_format := Some (time_format (dt_fields s)) |} u), r.2)) by reflexivity.
  set (w1 := World (brw w) (dt_set_saving true (st w))).
  assert (Hpost : api_patch "/auth/me" (Some (JObj body)) w1 = finish (write_profile encode r.1) (after_fetch rq w1)).
  { unfold api_patch, api_send. by rw (request_answered _ _ (write_profile encode r.1) w1); [..|rw Er]. }
  rw Er in Hpost. unfold datetime_save, try_finally, try_catch, mbind, M_bind, modify, emit. fold w1 body. rw Hpost.
  eexists. split; [reflexivity|]. split; [done|]. split; [cbn; by rw -!app_assoc|]. split; [|done].
  intros c'. assert (E : GetDateTimeSettings c' r.2 = dt_fields s).
  { unfold GetDateTimeSettings, r. cbn. rw !chosen_own //. by destruct (dt_fields s). }
  split; [done|]. by apply clean_after.
Qed.

Lemma utf8_pos n : n ≠ [] → utf8_bytes n ≠ 0.
Proof.
  destruct n as [|c t]; [done|]. intros _. cbn. destruct (in_range 55296 56319 c); [destruct t as [|d t]; [done|destruct (in_range _ _ d); lia]|].
  unfold utf8_len. repeat case_match; lia.
Qed.
Definition name_too_long : jstr := "display name must not exceed 200 characters".
(** The name is stored without surrounding blanks and the preferences stay; more
    than 200 bytes are refused with the reason of the server; a name of blanks is
    not sent. *)
Theorem profile_save_server (u : User) (s : ProfileForm) (w : world ProfileForm) :
  let n := trim (pf_displayName s) in
  let body := [(js "display_name", JStr n)] in
  let r := profile_handler body u in
  let rq := me_request body (accessToken (brw w)) in
  net (brw w) (sent (brw w)) rq = Responded (write_profile encode r.1) →
  ∃ w', profile_save s w = (inr tt, w') ∧
    if truthy n then
      pf_saving (st w') = false ∧ pf_displayName (st w') = pf_displayName (st w) ∧
      if (200 <? utf8_bytes n)%nat
      then r.2 = u ∧ trace (brw w') = trace (brw w) ++ [EFetch rq; EToastError name_too_long]
      else User_display_name r.2 = n ∧ (∀ c, GetDateTimeSettings c r.2 = GetDateTimeSettings c u) ∧
           trace (brw w') = trace (brw w) ++ [EFetch rq; EToastSuccess "Profile updated"; EStore "fetchMe" []]
    else trace (brw w') = trace (brw w) ++ [EToastError "Display name is required"].
Proof.
  intros n body r rq Hnet. unfold profile_save. fold n. destruct (truthy n) eqn:Et; cbn [negb]; [|by eexists].
  assert (Hne : n ≠ []) by (by destruct n).
  assert (Er : r = if (200 <? utf8_bytes n)%nat then (inl (400%Z, name_too_long), u)
    else let u' := apply_profile {| pi_name := Some n; pi_timezone := None; pi_date_format := None; pi_time_format := None |} u in (inr u', u')).
  { unfold r, profile_handler. change (decode_profile body) with (Some {| pi_name := Some n; pi_timezone := None; pi_date_format := None; pi_time_format := None |}).
    unfold UpdateProfile. cbn [pi_name mbind option_bind]. unfold ValidateDisplayName. rw (proj2 (Nat.eqb_neq _ _) (utf8_pos n Hne)).
    destruct (200 <? utf8_bytes n)%nat; [|done]. repeat f_equal; vm_compute; reflexivity. }
  set (w1 := World (brw w) (pf_set_saving true (st w))).
  assert (Hpost : rs_status (write_profile encode r.1) ≠ 401%Z →
    api_patch "/auth/me" (Some (JObj body)) w1 = finish (write_profile encode r.1) (after_fetch rq w1)).
  { intros Hs. unfold api_patch, api_send. by rw (request_answered _ _ (write_profile encode r.1) w1). }
  unfold try_finally, try_catch, mbind, M_bind, modify, emit. fold w1 body. rw Er in Hpost |- *.
  destruct (200 <? utf8_bytes n)%nat; cbn [fst snd write_profile] in *.
  - destruct (finish_refused (λ _, None) 400 name_too_long (after_fetch rq w1)) as [d Hd]; [lia|done|]. rw Hpost // Hd.
    eexists. split; [reflexivity|]. cbn. by rw -!app_assoc.
  - rw Hpost //. eexists. split; [reflexivity|]. cbn. by rw -!app_assoc.
Qed.
End cards.

(** ** Saves that overlap

    The server reads the account, changes the object and writes it back whole.
    [wanted] is the account if every accepted save had changed only its own
    fields. *)
Record profile_sys := ProfileSys { acct : User; reads : list (profile_input * User); wanted : User }.
Inductive profile_step : profile_sys → profile_sys → Prop :=
| pr_read i u l v : pi_name i ≫= ValidateDisplayName = None → profile_step (ProfileSys u l v) (ProfileSys u (l ++ [(i, u)]) (apply_profile i v))
| pr_write k i u0 u l v : l !! k = Some (i, u0) → profile_step (ProfileSys u l v) (ProfileSys (apply_profile i u0) (delete k l) v)
| pr_admin i u l v : profile_step (ProfileSys u l v) (ProfileSys (AdminUpdateUser i u) l (AdminUpdateUser i v)).
(** No request is read while another is between its read and its write. *)
Definition profile_alone (s s' : profile_sys) : Prop := profile_step s s' ∧ length (reads s') ≤ 1 ∧ (reads s ≠ [] → reads s' = []).

Theorem separate_saves_stored (u : User) (s : profile_sys) :
  rtc profile_alone (ProfileSys u [] u) s → reads s = [] → acct s = wanted s.
Proof.
  set (P := λ s, match reads s with [] => acct s = wanted s | (i, u0) :: _ => u0 = acct s ∧ wanted s = apply_profile i u0 ∧ length (reads s) = 1 end).
  assert (Hinv : ∀ s, rtc profile_alone (ProfileSys u [] u) s → P s); [|intros Hr He; specialize (Hinv s Hr); unfold P in Hinv; by rw He in Hinv].
  clear s. apply (rtc_ind_r P (R := profile_alone)); [done|]. intros s s' _ (Hs & Hl & Hb) IH. unfold P in *.
  destruct Hs as [i u1 l v Hi|k i u0 u1 l v Hk|i u1 l v]; cbn in *.
  - destruct l as [|x l]; [cbn; by rw IH|]. rw length_app in Hl. cbn in Hl. lia.
  - destruct l as [|[j x] l]; [done|]. destruct IH as (-> & -> & Hl1). destruct l; [|done]. destruct k; [|done]. cbn in Hk |- *. by simplify_eq.
  - destruct l as [|x l]; [by rw IH|]. by specialize (Hb ltac:(done)).
Qed.

Definition a_profile : User := {|
  User_id := "u"; User_email := "ann@example.org"; User_display_name := "Ann"; User_sso_provider := None; User_is_system_admin := true;
  User_email_verified := true; User_timezone := None; User_date_format := None; User_time_format := None; User_auth_method_lock := None;
  User_max_sessions := None; User_last_login_at := None; User_created_at := []; User_updated_at := [] |}.
Definition rename : profile_input := {| pi_name := Some (js "Anna"); pi_timezone := None; pi_date_format := None; pi_time_format := None |}.
Definition to_12h : profile_input := {| pi_name := None; pi_timezone := Some (js "UTC"); pi_date_format := Some (js "YYYY-MM-DD"); pi_time_format := Some (js "12h") |}.
(** Both cards can be saved at once, both saves are accepted, and the name is the
    old one. *)
Theorem overlapping_saves_lose : ∃ s, rtc profile_step (ProfileSys a_profile [] a_profile) s ∧ reads s = [] ∧
  User_display_name (wanted s) = js "Anna" ∧ User_display_name (acct s) = js "Ann".
Proof.
  eexists. split; [|split; [|split]].
  - eapply rtc_l; [by apply (pr_read rename)|]. eapply rtc_l; [by apply (pr_read to_12h)|].
    eapply rtc_l; [apply (pr_write 0 rename a_profile); reflexivity|]. eapply rtc_l; [apply (pr_write 0 to_12h a_profile); reflexivity|]. apply rtc_refl.
  - reflexivity.
  - reflexivity.
  - reflexivity.
Qed.
(** And a save of the own name that was read before an administrator took the
    rights away, and is written after, brings them back. *)
Theorem stale_save_restores_admin : ∃ s, rtc profile_step (ProfileSys a_profile [] a_profile) s ∧ reads s = [] ∧
  User_is_system_admin (wanted s) = false ∧ User_is_system_admin (acct s) = true.
Proof.
  set (demote := {| in_DisplayName := None; in_IsSystemAdmin := Some false; in_EmailVerified := None; in_AuthMethodLock := None; in_MaxSessions := None |}).
  eexists. split; [|split; [|split]].
  - eapply rtc_l; [by apply (pr_read rename)|]. eapply rtc_l; [apply (pr_admin demote)|].
    eapply rtc_l; [apply (pr_write 0 rename a_profile); reflexivity|]. apply rtc_refl.
  - reflexivity.
  - reflexivity.
  - reflexivity.
Qed.
